(* ===== verification/_CoqProject ===== *)
-Q . S2P
Prelude.v
Model.v
Event.v
Float64.v
SseRegistry.v
Ingest.v
Crates.v
Live.v
Claims.v
Medium.v
Store.v
Verify.v
Tables.v
Snapshot.v
RowLists.v
Search.v
Catalog.v
Quality.v
Feeds.v
Integrity.v
EventLog.v
Diff.v
Bundle.v
Moves.v
IngestTx.v
Blocks.v
GuidChange.v
Copies.v
Links.v
Observe.v
Submit.v
Admin.v
Apply.v
Sync.v
Paging.v
Listings.v
FeedIndex.v
LiveList.v
Detail.v
FetchGuard.v
Tls.v
Migrations.v
SearchRead.v
Browse.v
Router.v
Community.v
Startup.v
Register.v
Frames.v
Replica.v
Parts.v
Ingested.v
Submitted.v
Administered.v
Delivery.v
Replication.v
Samples.v
ReplicationProps.v
StoreProps.v
DiffProps.v
ReadModelProps.v
ModerationProps.v
SubmitProps.v
SyncProps.v
GuardProps.v
AdminProps.v
LinkProps.v
ListingProps.v
WalkProps.v
SearchWalk.v
SearchProps.v
SseProps.v
DetailProps.v
BrowseProps.v
MigrationProps.v
StartupProps.v
TlsProps.v
RouterProps.v
