(* ===== verification/Prelude.v ===== *)
(** A verification library for stophammer, a podcast index of music feeds.

    A node keeps feeds and tracks in SQLite. The primary takes submissions of
    crawlers, decides whether each may write a record, stores what it admits
    and appends signed events to a log. Community nodes poll the log or take
    pushes of it, and apply the events to a database of their own. Clients read
    either kind of node. The library models the program as executable functions
    over a record of the tables, and proves what makes it correct, and where it
    is not.

    ** Foundations

    - Prelude.v (this file): [result] with [let?], [i64] with its wrap-around,
      UTF-8 text as [string], and generic facts of lists. Float64.v: the parts
      of [f64] that the code uses, over SpecFloat.
    - Crates.v: the classes [Crates] and [Web] of the third-party functions
      that many components call (serde_json, sha2, ed25519_dalek, siphasher,
      uuid, url, Unicode lower case), and the tests on URLs and GUIDs. A theorem
      names what it needs of them; [table_crates] is a concrete instance.
    - Model.v, Event.v, Ingest.v, Medium.v: the structs and enums of
      src/model.rs, src/event.rs, src/ingest.rs, src/medium.rs, each in a
      module of its own name with the names of its fields.
    - Store.v: [Db], the tables; [DB A := Db -> Db * result DbError A], the
      operations; [transaction] restores the database on an error. Tables.v
      gives each table its keys, checks and references.

    ** The program

    - RowLists.v, Catalog.v, Feeds.v (src/db.rs): the fourteen row lists, the
      [feeds] and [tracks] rows, the class of a submission, the cascading
      deletes and the read models. Search.v (src/search.rs) and Quality.v
      (src/quality.rs) are those read models.
    - EventLog.v (src/db.rs, src/signing.rs): the log, its signatures, pages
      and cursors.
    - Diff.v ([build_diff_events]), IngestTx.v ([ingest_transaction]), Moves.v,
      Blocks.v (src/blocks.rs), GuidChange.v, Copies.v (src/db.rs).
    - Live.v (src/live.rs), Claims.v and Bundle.v (src/api.rs): the rows that
      the body of a submission stands for. Verify.v (src/verify.rs,
      src/verifiers/): the checks, their chain and its assembly.
    - Observe.v and Submit.v (src/api.rs): [handle_ingest_feed] and
      [handle_source_gone_report], with the small transactions around the
      ingest. The read phase has a snapshot of its own, since the code
      releases the connection between the two.
    - Apply.v (src/apply.rs): one event, and a batch, on a community node.
    - Sync.v (src/sync.rs, src/api.rs): pages, reconciliation, registration,
      peers and the fan-out of pushes. Community.v (src/community.rs): the
      drain of the poll loop and the push endpoint. FetchGuard.v
      (src/fetch_guard.rs, src/main.rs) and Register.v (src/api.rs): which
      addresses and URLs a node may connect to, the key of the rate limit, and
      the checks of a push URL.
    - Admin.v (src/api.rs): every route that asks for the admin token.
    - SseRegistry.v (src/api.rs): the channels, the replay buffers and the
      connection slots of the event streams, and the frames. [SseStep]
      interleaves the two locks of a publication with the other calls.
    - The read routes of src/query.rs, whose reads are functions of the
      database, since each has one snapshot. Links.v: the view of the links
      between albums and publisher feeds, and what is derived from its rows.
      Paging.v: the cursors, and the pages of a list route. Listings.v
      (copies, GUID changes), FeedIndex.v (recent feeds, feeds by name, artist
      names), LiveList.v (live items), Detail.v (a feed, a track), Browse.v
      (publishers, the tracks of an artist, the node, the route history).
      SearchRead.v (with src/search.rs): the parameters and the filters of a
      search, and its rows by rank or by date.
    - Router.v (src/api.rs, src/query.rs, src/openapi.rs): the routing table of
      each kind of node, the handler of a request, and the OpenAPI document.
    - Startup.v (src/main.rs): what a node reads from its environment and does
      before it serves. Migrations.v (src/db.rs): what the open of a database
      does to an old one. Tls.v (src/tls.rs): the certificate of a node, from
      the bytes of its expiry to the renewal task, on a disk that may fail.

    A submission goes Submit -> Verify, Bundle, Catalog (class) -> Diff ->
    IngestTx -> EventLog; a replica goes Sync (page) or a push -> Community ->
    Apply -> the same operations of the store.

    ** Interfaces and facts

    - Snapshot.v: the class of a list that is replaced as a whole, with its
      laws; Parts.v makes the fourteen lists two families of it, so that a
      fact of all lists is one lemma.
    - Frames.v: [Keeps], which readers an operation leaves alone. Replica.v,
      Integrity.v: [Preserves], the invariants [store_ok], [log_ok],
      [index_ok], and [node_ok] for the three.
    - Ingested.v, Delivery.v, Replication.v: from an ingest to its log rows, to
      the page, to the batch that applies it, and the drain. Submitted.v: the
      steps of a submission. Administered.v: those of the admin routes.
      Samples.v: concrete data for the witnesses.
    - Paging.v: the class [ListRoute], what a list route promises of its pages,
      over any strict total order of keys; the walk of a client is proved
      against it, and ListingProps.v, WalkProps.v and SearchWalk.v prove it of
      each route.

    ** What the theorems show

    - ReplicationProps.v: a new feed arrives on a replica, with the same rows
      but for their local ids; an ingest is atomic and logs what it removes; an
      event is atomic; redelivery is harmless; pages have no gap; and
      a batch keeps what a failed event wrote, which loses the event.
    - SubmitProps.v: nobody takes over a record through a URL it does not
      know; an answer that is not an acceptance changes no content; every
      submission keeps [node_ok]; the chain accepts exactly what its rules
      say; the selection of live items and the retirement of a gone source;
      and a GUID change whose ingest fails loses the old record.
    - StoreProps.v: every reachable state is well formed; upserts, lists and
      cascading deletes. DiffProps.v: a resubmission makes no events, which
      lists make one, and the payment change that makes none.
    - SyncProps.v: a drain catches up and ends; a push hides the events before
      it; the reconciliation is the set difference within its limits and
      loses events between them; a signed registration is accepted.
    - GuardProps.v: the address test is that of its ranges; a fetch connects
      at each hop to the public addresses resolved for the host of that hop; what a registration has checked
      before the primary accepts it; which clients share a rate limit.
    - AdminProps.v: no admin route does anything without the token, and each
      that answers with an error changes nothing; a retired feed stays out and
      a relocated one is its new source's; a submission that was checked
      before the retirement writes the feed again.
    - LinkProps.v: a link is two-way from both sides or from none, and the
      search for the feeds that name a feed finds those of the view.
    - WalkProps.v: a walk over a list route ends; over a node that changes it
      repeats nothing and misses nothing that stays; the list of a name has
      the releases it counts; the age of the copy of the artist names.
    - SearchProps.v: a request that passes the checks is one that the search
      can read; a walk over a search ends, and misses nothing that stays.
    - BrowseProps.v: the publishers that a text finds are those that have it;
      the tracks that the cursor of an artist skips; the route history has an
      entry for each change of recipients and for nothing else.
    - DetailProps.v: the source URLs of a response are web URLs, but for the
      identity of the feed and for live value texts that are no URL; the two
      routes of a track agree; the percentage of a split; and where the artwork of a
      track differs between two routes.
    - SseProps.v: the registry keeps its bounds and its replay is the end of
      the channel; the frames of live items are the change of the live items.
    - ReadModelProps.v, ModerationProps.v: scores, the search index, phrases,
      truncation; the class of a submission, blocks, GUID decisions, copies,
      moves and cooldowns.
    - StartupProps.v: a restart of the primary changes nothing once its
      database is open, and the holds
      of earlier retirements are exactly those that are due. MigrationProps.v:
      each migration runs once and in order, whatever fails between; the
      repaired search index is that of the catalog, and is repaired once.
    - TlsProps.v: the expiry is read back from a certificate, and no bytes make
      the reader leave the certificate; what a provisioning leaves of the pair,
      with any failure of the ACME server or the disk; a key that is not written
      beside a new certificate stays so; a renewal settles, and the server keeps
      the old pair.
    - RouterProps.v: a request reaches the one handler whose template fits; a
      community node serves no route that writes but the push; the document
      states the routes of the node and their tokens.

    ** Bounds and fuel

    Recursion is structural but for a few loops. [phrases_loop] (Search.v) has
    the length of the query as fuel and each turn drops a byte. [drain] has
    the 100 pages of MAX_DRAIN_PAGES, which are the code's own limit, and
    [push_attempts] the three attempts of PUSH_MAX_ATTEMPTS; [follow] has the
    redirects that its caller permits. [scan_loop] (FeedIndex.v) has six
    batches: a batch is full or the last, and five full ones reach the bound
    of examined rows. [walk] is a client: that its fuel is enough is what
    [recent_walk_ends], [review_walks_end] and [search_walk_ends] prove.
    Integers are [Z]; where the code adds or subtracts [i64] values that a
    caller chooses, the sum is wrapped as the release profile wraps it. An
    index out of range and a cut character panic in Tls.v as in the code.

    ** Not modelled

    - What axum, tower and hyper do with a request: headers, CORS, the decoding
      of a body. The open of the connection pool and of the key file, logging,
      the spawn of tasks, and the timers of the poll loop.
    - What the third-party code computes, which is the argument of a class:
      the match and the rank of FTS5 ([Fts]), json_extract, base64, DNS, HTTP
      and the url crate, the ACME client, PEM, rustls and the calendar.
    - The SQL scripts of the migrations, and the repairs that change an old
      schema: what they do is what SQLite does with their text.
    - The descriptions and the examples of the OpenAPI document, and the
      schemas that utoipa derives from the structs.
    - The clients of src/fetch_guard.rs with a redirect policy of their own,
      which no code calls; the response structs that only serde reads.
    - What a slow receiver of a channel loses, which is tokio's, and two
      requests that interleave inside one handler, except for the snapshot of
      the read phase and the locks of the event streams.

    What is left to do within the program: pushes that arrive between the pages
    of a drain, which the two theorems on a drain and on a push treat apart. *)

From Stdlib Require Export Ascii String ZArith Lia Bool Sorting.Sorted.
From stdpp Require Export base tactics list strings gmap option pretty sorting.

#[global] Open Scope Z_scope.

(** ** Notations of the development *)

Declare Scope stophammer_scope.
Delimit Scope stophammer_scope with sh.
#[global] Open Scope stophammer_scope.

(** [a =? b] on strings is Rust's [==] on [String] and [&str]. *)
Notation "a =s b" := (String.eqb a b) (at level 70) : stophammer_scope.
Notation "a ≠s b" := (negb (String.eqb a b)) (at level 70) : stophammer_scope.

(** ** Fallible code

    Rust's [Result<A, E>], with [?] as bind. *)

Inductive result (E A : Type) : Type :=
  | Ok (a : A)
  | Err (e : E).
Arguments Ok {E A} a.
Arguments Err {E A} e.

#[global] Instance result_eq_dec {E A} `{EqDecision E} `{EqDecision A} :
  EqDecision (result E A).
Proof. solve_decision. Defined.

Definition rbind {E A B} (r : result E A) (k : A → result E B) : result E B :=
  match r with
  | Ok a => k a
  | Err e => Err e
  end.

Notation "'let?' x := r 'in' k" := (rbind r (fun x => k))
  (at level 10, x pattern, r at level 100, k at level 200)
  : stophammer_scope.

Definition is_ok {E A} (r : result E A) : bool :=
  match r with Ok _ => true | Err _ => false end.

(** ** Machine integers

    The release profile of the crate has no overflow checks, so [i64]
    arithmetic wraps at 64 bits. *)

Definition i64_min : Z := - 2 ^ 63.
Definition i64_max : Z := 2 ^ 63 - 1.
Definition in_i64 (z : Z) : Prop := i64_min ≤ z ≤ i64_max.
Definition wrap64 (z : Z) : Z := (z + 2 ^ 63) mod 2 ^ 64 - 2 ^ 63.
Definition i64_add (a b : Z) : Z := wrap64 (a + b).
Definition i64_sub (a b : Z) : Z := wrap64 (a - b).

#[global] Instance in_i64_dec z : Decision (in_i64 z).
Proof. unfold in_i64. apply _. Defined.

Lemma wrap64_in z : in_i64 (wrap64 z).
Proof.
  unfold in_i64, wrap64, i64_min, i64_max.
  pose proof (Z.mod_pos_bound (z + 2 ^ 63) (2 ^ 64)). lia.
Qed.

Lemma wrap64_id z : in_i64 z → wrap64 z = z.
Proof.
  unfold in_i64, wrap64, i64_min, i64_max. intros H.
  rewrite Z.mod_small; lia.
Qed.

Lemma i64_sub_exact a b : in_i64 (a - b) → i64_sub a b = a - b.
Proof. apply wrap64_id. Qed.

Lemma i64_add_exact a b : in_i64 (a + b) → i64_add a b = a + b.
Proof. apply wrap64_id. Qed.

(** ** Strings

    A Rust [String] is a sequence of UTF-8 bytes, and so is a [string]. *)

Definition byte_of (a : ascii) : Z := Z.of_N (N_of_ascii a).

Definition ascii_lower (a : ascii) : ascii :=
  let n := N_of_ascii a in
  if (65 <=? n)%N && (n <=? 90)%N then ascii_of_N (n + 32) else a.

(** [str::to_ascii_lowercase]. *)
Fixpoint to_ascii_lowercase (s : string) : string :=
  match s with
  | EmptyString => EmptyString
  | String a r => String (ascii_lower a) (to_ascii_lowercase r)
  end.

(** [str::eq_ignore_ascii_case]. *)
Definition eq_ignore_ascii_case (a b : string) : bool :=
  to_ascii_lowercase a =s to_ascii_lowercase b.

(** [str::is_empty]. *)
Definition str_is_empty (s : string) : bool := s =s "".

(** [str::starts_with] of a string pattern. *)
Definition starts_with (s p : string) : bool := String.prefix p s.

(** [str::split] on a one-byte pattern: always at least one part. *)
Fixpoint split_on (c : ascii) (s : string) : list string :=
  match s with
  | EmptyString => [""%string]
  | String a r =>
      if Ascii.eqb a c then ""%string :: split_on c r
      else match split_on c r with
           | p :: ps => String a p :: ps
           | [] => [String a ""]
           end
  end.

Lemma str_app_nil_r s : (s ++ "")%string = s.
Proof. induction s as [|a s IH]; [done|]. exact (f_equal (String a) IH). Qed.

Lemma str_app_assoc (a b c : string) : ((a ++ b) ++ c = a ++ b ++ c)%string.
Proof. induction a as [|x a IH]; [done|]. exact (f_equal (String x) IH). Qed.

Lemma str_length_app s t : String.length (s ++ t) = (String.length s + String.length t)%nat.
Proof. induction s as [|a s IH]; [done|]. exact (f_equal S IH). Qed.

(** *** Characters

    [chars] cuts a string into its UTF-8 characters. A continuation byte
    (128 to 191) belongs to the character of the byte before it. *)

Definition is_continuation (a : ascii) : bool :=
  (128 <=? byte_of a) && (byte_of a <? 192).

Fixpoint chars (s : string) : list string :=
  match s with
  | EmptyString => []
  | String a r =>
      match chars r with
      | String b c :: cs =>
          if is_continuation b then String a (String b c) :: cs
          else String a "" :: String b c :: cs
      | cs => String a "" :: cs
      end
  end.

Definition unchars (cs : list string) : string := String.concat "" cs.

(** The Unicode scalar value of one UTF-8 character. *)
Definition code_point (c : string) : Z :=
  match c with
  | String a "" => byte_of a
  | String a (String b "") => (byte_of a - 192) * 64 + (byte_of b - 128)
  | String a (String b (String c "")) =>
      (byte_of a - 224) * 4096 + (byte_of b - 128) * 64 + (byte_of c - 128)
  | String a (String b (String c (String d ""))) =>
      (byte_of a - 240) * 262144 + (byte_of b - 128) * 4096
      + (byte_of c - 128) * 64 + (byte_of d - 128)
  | _ => 0
  end.

(** [char::is_whitespace]: the Unicode property [White_Space]. *)
Definition is_whitespace (c : string) : bool :=
  let p := code_point c in
  ((9 <=? p) && (p <=? 13)) || (p =? 32) || (p =? 133) || (p =? 160)
  || (p =? 5760) || ((8192 <=? p) && (p <=? 8202)) || (p =? 8232)
  || (p =? 8233) || (p =? 8239) || (p =? 8287) || (p =? 12288).

(** [char::is_control]: the general category [Cc]. *)
Definition is_control (c : string) : bool :=
  let p := code_point c in (p <=? 31) || ((127 <=? p) && (p <=? 159)).

Fixpoint drop_while {A} (f : A → bool) (l : list A) : list A :=
  match l with
  | [] => []
  | x :: r => if f x then drop_while f r else l
  end.

Definition drop_while_end {A} (f : A → bool) (l : list A) : list A :=
  reverse (drop_while f (reverse l)).

(** [str::trim]. *)
Definition str_trim (s : string) : string :=
  unchars (drop_while_end is_whitespace (drop_while is_whitespace (chars s))).

(** [str::split_whitespace]. *)
Fixpoint words_of (cs : list string) (word : list string) : list string :=
  match cs with
  | [] => match word with [] => [] | _ => [unchars word] end
  | c :: r =>
      if is_whitespace c then
        match word with
        | [] => words_of r []
        | _ => unchars word :: words_of r []
        end
      else words_of r (word ++ [c])
  end.

Definition split_whitespace (s : string) : list string := words_of (chars s) [].

(** ** Options *)

(** [Option::is_some_and]. *)
Definition is_some_and {A} (f : A → bool) (o : option A) : bool :=
  match o with Some a => f a | None => false end.

(** [Option::is_none_or]. *)
Definition is_none_or {A} (f : A → bool) (o : option A) : bool :=
  match o with Some a => f a | None => true end.

Definition is_some {A} (o : option A) : bool :=
  match o with Some _ => true | None => false end.

(** [Option::unwrap_or]. *)
Definition unwrap_or {A} (d : A) (o : option A) : A :=
  match o with Some a => a | None => d end.

(** Rust's derived [PartialEq], as a boolean. *)
Notation "a == b" := (bool_decide (a = b)) (at level 70) : stophammer_scope.
Notation "a != b" := (negb (bool_decide (a = b))) (at level 70) : stophammer_scope.

Lemma bne_false {A} `{EqDecision A} (a b : A) : (a != b) = false ↔ a = b.
Proof. rewrite negb_false_iff. apply bool_decide_eq_true. Qed.

Lemma beq_true {A} `{EqDecision A} (a b : A) : (a == b) = true ↔ a = b.
Proof. apply bool_decide_eq_true. Qed.

Lemma beq_false {A} `{EqDecision A} (a b : A) : (a == b) = false ↔ a ≠ b.
Proof. apply bool_decide_eq_false. Qed.

(** ** Lists *)

(** First occurrence of each key, in order: the [BTreeSet] and [HashSet]
    [insert] loops of the source. *)
Section dedupe.
Context {A K : Type} `{EqDecision K} (key : A → K).

Fixpoint dedupe_go (seen : list K) (l : list A) : list A :=
  match l with
  | [] => []
  | x :: r =>
      if decide (key x ∈ seen) then dedupe_go seen r
      else x :: dedupe_go (key x :: seen) r
  end.

Definition dedupe_by (l : list A) : list A := dedupe_go [] l.

Lemma dedupe_go_fresh seen l x : x ∈ dedupe_go seen l → key x ∉ seen ∧ x ∈ l.
Proof.
  revert seen. induction l as [|y l IH]; intros seen; simpl; [set_solver|].
  case_decide as Hy; [intros [? ?]%IH; set_solver|].
  intros [->|[? ?]%IH]%elem_of_cons; set_solver.
Qed.

Lemma dedupe_go_sublist seen l : sublist (dedupe_go seen l) l.
Proof.
  revert seen. induction l as [|x l IH]; intros seen; simpl; [constructor|].
  case_decide; constructor; auto.
Qed.

Lemma dedupe_by_sublist l : sublist (dedupe_by l) l.
Proof. apply dedupe_go_sublist. Qed.

Lemma dedupe_go_NoDup seen l : NoDup (key <$> dedupe_go seen l).
Proof.
  revert seen. induction l as [|x l IH]; intros seen; simpl; [constructor|].
  case_decide; [apply IH|]. rewrite fmap_cons. constructor; [|apply IH].
  intros (y & Hk & Hy)%list_elem_of_fmap. apply dedupe_go_fresh in Hy.
  set_solver.
Qed.

Lemma dedupe_by_NoDup l : NoDup (key <$> dedupe_by l).
Proof. apply dedupe_go_NoDup. Qed.

Lemma dedupe_go_complete seen l x :
  x ∈ l → key x ∉ seen → ∃ y, y ∈ dedupe_go seen l ∧ key y = key x.
Proof.
  revert seen. induction l as [|z l IH]; intros seen; simpl; [set_solver|].
  intros [->|Hx]%elem_of_cons Hs.
  - rewrite decide_False by done. exists z. set_solver.
  - case_decide as Hz; [by apply IH|].
    destruct (decide (key x = key z)) as [->|Hne]; [exists z; set_solver|].
    destruct (IH (key z :: seen)) as (y & ? & ?); [done|set_solver|].
    exists y. set_solver.
Qed.

Lemma dedupe_by_complete l x :
  x ∈ l → ∃ y, y ∈ dedupe_by l ∧ key y = key x.
Proof. intros Hx. apply dedupe_go_complete; set_solver. Qed.

Lemma dedupe_go_id seen l :
  NoDup (key <$> l) → (∀ x, x ∈ l → key x ∉ seen) → dedupe_go seen l = l.
Proof.
  revert seen. induction l as [|x l IH]; intros seen Hnd Hs; simpl; [done|].
  rewrite fmap_cons, NoDup_cons in Hnd. destruct Hnd as [Hx Hnd].
  rewrite decide_False by set_solver. f_equal. apply IH; [done|].
  intros y Hy. rewrite not_elem_of_cons. split; [|set_solver].
  intros Heq. apply Hx. rewrite <-Heq. by apply list_elem_of_fmap_2.
Qed.

Lemma dedupe_by_id l : NoDup (key <$> l) → dedupe_by l = l.
Proof. intros ?. apply dedupe_go_id; set_solver. Qed.

Lemma dedupe_by_idemp l : dedupe_by (dedupe_by l) = dedupe_by l.
Proof. apply dedupe_by_id, dedupe_by_NoDup. Qed.
End dedupe.

(** [slice::sort_by], which is stable: [le x y] is [x.cmp(y) != Greater]. *)
Section sort.
Context {A : Type} (le : A → A → bool).

Fixpoint insert_sorted (x : A) (l : list A) : list A :=
  match l with
  | [] => [x]
  | y :: r => if le x y then x :: l else y :: insert_sorted x r
  end.

Fixpoint sort_by (l : list A) : list A :=
  match l with
  | [] => []
  | x :: r => insert_sorted x (sort_by r)
  end.

Lemma insert_sorted_perm x l : insert_sorted x l ≡ₚ x :: l.
Proof.
  induction l as [|y l IH]; simpl; [done|].
  destruct (le x y); [done|]. rewrite IH. apply perm_swap.
Qed.

Lemma sort_by_perm l : sort_by l ≡ₚ l.
Proof.
  induction l as [|x l IH]; simpl; [done|].
  rewrite insert_sorted_perm, IH. done.
Qed.

Lemma sort_by_length l : length (sort_by l) = length l.
Proof. by rewrite sort_by_perm. Qed.

Definition leR (x y : A) : Prop := le x y = true.

Hypothesis le_total : ∀ x y, leR x y ∨ leR y x.
Hypothesis le_trans : ∀ x y z, leR x y → leR y z → leR x z.

Lemma insert_sorted_sorted x l :
  StronglySorted leR l → StronglySorted leR (insert_sorted x l).
Proof using le_total le_trans.
  induction 1 as [|y l Hs IH Hy]; simpl; [repeat constructor|].
  destruct (le x y) eqn:Hxy.
  - constructor; [by constructor|]. constructor; [done|].
    eapply List.Forall_impl; [|exact Hy]. intros z Hz. by eapply le_trans.
  - constructor; [done|].
    rewrite insert_sorted_perm. constructor; [|done].
    destruct (le_total x y) as [H|H]; [unfold leR in H; congruence|done].
Qed.

Lemma sort_by_sorted l : StronglySorted leR (sort_by l).
Proof using le_total le_trans.
  induction l; simpl; [constructor|]. by apply insert_sorted_sorted.
Qed.

Lemma sort_by_id l : StronglySorted leR l → sort_by l = l.
Proof.
  induction 1 as [|x l Hs IH Hx]; simpl; [done|]. rewrite IH.
  destruct l as [|y l]; simpl; [done|].
  apply Forall_cons in Hx as [Hxy _]. unfold leR in Hxy. by rewrite Hxy.
Qed.
End sort.

Lemma filter_perm {A} (f : A → bool) l l' :
  l ≡ₚ l' → List.filter f l ≡ₚ List.filter f l'.
Proof.
  induction 1 as [|x l l' _ IH|x y l|l1 l2 l3 _ IH1 _ IH2]; simpl.
  - done.
  - destruct (f x); [by constructor|done].
  - destruct (f x), (f y); done || apply perm_swap.
  - by etrans.
Qed.

Lemma filter_all {A} (f : A → bool) l :
  (∀ x, x ∈ l → f x = true) → List.filter f l = l.
Proof.
  induction l as [|x l IH]; simpl; intros H; [done|].
  rewrite H by set_solver. f_equal. apply IH. set_solver.
Qed.

Lemma filter_none {A} (f : A → bool) l :
  (∀ x, x ∈ l → f x = false) → List.filter f l = [].
Proof.
  induction l as [|x l IH]; simpl; intros H; [done|].
  rewrite H by set_solver. apply IH. set_solver.
Qed.

Lemma elem_of_filterb {A} (f : A → bool) l x :
  x ∈ List.filter f l ↔ f x = true ∧ x ∈ l.
Proof. rewrite !list_elem_of_In, filter_In. tauto. Qed.

Lemma Forall_true_bool {A} (f : A → bool) l :
  forallb f l = true → Forall (λ x, f x = true) l.
Proof. intros Hl. rewrite forallb_forall in Hl. apply List.Forall_forall. exact Hl. Qed.

Lemma filter_sublist {A} (f : A → bool) l : sublist (List.filter f l) l.
Proof. induction l as [|x l IH]; simpl; [done|]. destruct (f x); by constructor. Qed.

Lemma sublist_elem {A} (l k : list A) x : sublist l k → x ∈ l → x ∈ k.
Proof. intros Hs Hx. by apply (sublist_subseteq _ _ Hs). Qed.

Lemma StronglySorted_sublist {A} (R : A → A → Prop) (l k : list A) :
  sublist l k → StronglySorted R k → StronglySorted R l.
Proof.
  induction 1 as [|x l k Hs IH|x l k _ IH]; intros Hk; [constructor| |].
  - apply StronglySorted_inv in Hk as [Hk Hx]. constructor; [auto|].
    apply List.Forall_forall. intros y Hy. rewrite List.Forall_forall in Hx. apply Hx.
    apply list_elem_of_In. apply list_elem_of_In in Hy. eapply sublist_elem; eauto.
  - apply StronglySorted_inv in Hk as [Hk _]. auto.
Qed.

Lemma sublist_NoDup {A} (l k : list A) : sublist l k → NoDup k → NoDup l.
Proof.
  induction 1 as [|x l k Hs IH|x l k _ IH]; intros Hk; [constructor| |].
  - apply NoDup_cons in Hk as [Hx Hk]. constructor; [|auto].
    intros Hl. apply Hx. eapply sublist_elem; eauto.
  - apply NoDup_cons in Hk as [_ Hk]. auto.
Qed.

(** Elements with distinct images are told apart by them. *)
Lemma NoDup_fmap_inj {A B} (f : A → B) l x y :
  NoDup (f <$> l) → x ∈ l → y ∈ l → f x = f y → x = y.
Proof.
  intros Hnd [i Hi]%list_elem_of_lookup [j Hj]%list_elem_of_lookup Hf.
  assert (i = j) as ->; [|congruence]. eapply (NoDup_lookup _ _ _ (f x) Hnd).
  - by rewrite list_lookup_fmap, Hi.
  - by rewrite list_lookup_fmap, Hj, Hf.
Qed.

Lemma sublist_fmap {A B} (f : A → B) l k : sublist l k → sublist (f <$> l) (f <$> k).
Proof. induction 1; simpl; by constructor. Qed.

(** ** Automation *)

Create HintDb stophammer.
#[export] Hint Resolve dedupe_by_NoDup dedupe_by_sublist sort_by_perm
  filter_sublist wrap64_in : stophammer.

(** Turns boolean facts of the source's guards into propositions. *)
Ltac bool_facts :=
  repeat match goal with
  | H : (_ && _) = true |- _ => apply andb_true_iff in H as [? ?]
  | H : (_ || _) = false |- _ => apply orb_false_iff in H as [? ?]
  | H : negb _ = true |- _ => apply negb_true_iff in H
  | H : negb _ = false |- _ => apply negb_false_iff in H
  | H : bool_decide _ = true |- _ => apply bool_decide_eq_true in H
  | H : bool_decide _ = false |- _ => apply bool_decide_eq_false in H
  | H : String.eqb _ _ = true |- _ => apply String.eqb_eq in H
  | H : String.eqb _ _ = false |- _ => apply String.eqb_neq in H
  | H : (_ <? _) = true |- _ => apply Z.ltb_lt in H
  | H : (_ <? _) = false |- _ => apply Z.ltb_ge in H
  | H : (_ <=? _) = true |- _ => apply Z.leb_le in H
  | H : (_ <=? _) = false |- _ => apply Z.leb_gt in H
  | H : (_ =? _) = true |- _ => apply Z.eqb_eq in H
  | H : (_ =? _) = false |- _ => apply Z.eqb_neq in H
  end.

(** Case analysis on the scrutinee of the goal's outermost test. *)
Ltac split_if :=
  match goal with
  | |- context [if ?b then _ else _] => destruct b eqn:?
  end.

Ltac split_match_in H :=
  match type of H with
  | context [match ?x with _ => _ end] => destruct x eqn:?
  end.
