(* ===== verification/Model.v ===== *)
(** Core domain types (src/model.rs): the entities the index stores, with the
    source's field names. Each struct is a record in a module of its own name,
    so [Feed.title] is the field [title] of [Feed]. [String] is [string]
    (UTF-8 bytes), [i64] is [Z], [f64] is [spec_float], [Option] is [option],
    [Vec] is [list], [BTreeMap] is [gmap].

    Also the pure functions of the file on those types: recipient sets and the
    copy summary. The read rule for links, [web_link_for_read], is in
    LiveList.v. *)

From Stdlib Require Import Floats.SpecFloat.
From S2P Require Import Prelude.

(** [f64]: the IEEE 754 binary64 values of the Standard Library. *)
Definition f64 : Type := spec_float.

#[export] Instance f64_eq_dec : EqDecision f64.
Proof. unfold f64. solve_decision. Defined.

(** The kind of a payment route. *)
Module RouteType.
Inductive RouteType : Type :=
  | Node
  | Wallet
  | Keysend
  | Lnaddress.
#[export] Instance eq_dec : EqDecision RouteType.
Proof. solve_decision. Defined.
End RouteType.
Abbreviation RouteType := RouteType.RouteType.
#[export] Existing Instance RouteType.eq_dec.

(** The form of a value time split; [Remote] is the default. *)
Module ValueTimeSplitForm.
Inductive ValueTimeSplitForm : Type :=
  | Remote
  | Local.
#[export] Instance eq_dec : EqDecision ValueTimeSplitForm.
Proof. solve_decision. Defined.
End ValueTimeSplitForm.
Abbreviation ValueTimeSplitForm := ValueTimeSplitForm.ValueTimeSplitForm.
#[export] Existing Instance ValueTimeSplitForm.eq_dec.

(** What a feed block names. *)
Module FeedBlockKind.
Inductive FeedBlockKind : Type :=
  | Guid
  | Url.
#[export] Instance eq_dec : EqDecision FeedBlockKind.
Proof. solve_decision. Defined.
End FeedBlockKind.
Abbreviation FeedBlockKind := FeedBlockKind.FeedBlockKind.
#[export] Existing Instance FeedBlockKind.eq_dec.

(** Wire type of [ArtistUpserted] events signed before release 0.3.0. *)
Module Artist.
Record Artist : Type := mk {
  artist_id : string;
  name : string;
  name_lower : string;
  sort_name : option string;
  type_id : option Z;
  area : option string;
  img_url : option string;
  url : option string;
  begin_year : option Z;
  end_year : option Z;
  created_at : Z;
  updated_at : Z
}.
#[export] Instance eq_dec : EqDecision Artist.
Proof. solve_decision. Defined.
End Artist.
Abbreviation Artist := Artist.Artist.
#[export] Existing Instance Artist.eq_dec.

(** Entry of an [ArtistCredit]. *)
Module ArtistCreditName.
Record ArtistCreditName : Type := mk {
  id : Z;
  artist_credit_id : Z;
  artist_id : string;
  position : Z;
  name : string;
  join_phrase : string
}.
#[export] Instance eq_dec : EqDecision ArtistCreditName.
Proof. solve_decision. Defined.
End ArtistCreditName.
Abbreviation ArtistCreditName := ArtistCreditName.ArtistCreditName.
#[export] Existing Instance ArtistCreditName.eq_dec.

(** Wire type of [ArtistCreditCreated] events signed before release 0.3.0. *)
Module ArtistCredit.
Record ArtistCredit : Type := mk {
  id : Z;
  display_name : string;
  feed_guid : option string;
  created_at : Z;
  names : list ArtistCreditName
}.
#[export] Instance eq_dec : EqDecision ArtistCredit.
Proof. solve_decision. Defined.
End ArtistCredit.
Abbreviation ArtistCredit := ArtistCredit.ArtistCredit.
#[export] Existing Instance ArtistCredit.eq_dec.

(** A release-shaped row. *)
Module Feed.
Record Feed : Type := mk {
  feed_guid : string;
  feed_url : string;
  title : string;
  title_lower : string;
  description : option string;
  image_url : option string;
  publisher : option string;
  language : option string;
  explicit : bool;
  itunes_type : option string;
  release_artist : option string;
  release_artist_sort : option string;
  release_date : option Z;
  release_kind : option string;
  episode_count : Z;
  newest_item_at : option Z;
  oldest_item_at : option Z;
  created_at : Z;
  updated_at : Z;
  raw_medium : option string;
  last_build_date : option Z;
  release_artist_source : option string
}.
#[export] Instance eq_dec : EqDecision Feed.
Proof. solve_decision. Defined.
End Feed.
Abbreviation Feed := Feed.Feed.
#[export] Existing Instance Feed.eq_dec.

(** A track-shaped row. *)
Module Track.
Record Track : Type := mk {
  track_guid : string;
  feed_guid : string;
  title : string;
  title_lower : string;
  pub_date : option Z;
  duration_secs : option Z;
  enclosure_url : option string;
  enclosure_type : option string;
  enclosure_bytes : option Z;
  track_number : option Z;
  season : option Z;
  image_url : option string;
  publisher : option string;
  language : option string;
  explicit : bool;
  description : option string;
  track_artist : option string;
  track_artist_sort : option string;
  created_at : Z;
  updated_at : Z
}.
#[export] Instance eq_dec : EqDecision Track.
Proof. solve_decision. Defined.
End Track.
Abbreviation Track := Track.Track.
#[export] Existing Instance Track.eq_dec.

(** A payment route of a track. *)
Module PaymentRoute.
Record PaymentRoute : Type := mk {
  id : option Z;
  track_guid : string;
  feed_guid : string;
  recipient_name : option string;
  route_type : RouteType;
  address : string;
  custom_key : option string;
  custom_value : option string;
  split : Z;
  fee : bool
}.
#[export] Instance eq_dec : EqDecision PaymentRoute.
Proof. solve_decision. Defined.
End PaymentRoute.
Abbreviation PaymentRoute := PaymentRoute.PaymentRoute.
#[export] Existing Instance PaymentRoute.eq_dec.

(** A feed-level payment route: the fallback of a track with none. *)
Module FeedPaymentRoute.
Record FeedPaymentRoute : Type := mk {
  id : option Z;
  feed_guid : string;
  recipient_name : option string;
  route_type : RouteType;
  address : string;
  custom_key : option string;
  custom_value : option string;
  split : Z;
  fee : bool
}.
#[export] Instance eq_dec : EqDecision FeedPaymentRoute.
Proof. solve_decision. Defined.
End FeedPaymentRoute.
Abbreviation FeedPaymentRoute := FeedPaymentRoute.FeedPaymentRoute.
#[export] Existing Instance FeedPaymentRoute.eq_dec.

(** The value block of a musicL feed. *)
Module FeedListValueRaw.
Record FeedListValueRaw : Type := mk {
  id : option Z;
  feed_guid : string;
  recipient_name : option string;
  route_type : RouteType;
  address : string;
  custom_key : option string;
  custom_value : option string;
  split : Z;
  fee : bool;
  position : Z
}.
#[export] Instance eq_dec : EqDecision FeedListValueRaw.
Proof. solve_decision. Defined.
End FeedListValueRaw.
Abbreviation FeedListValueRaw := FeedListValueRaw.FeedListValueRaw.
#[export] Existing Instance FeedListValueRaw.eq_dec.

(** One recipient of a payment-route set. *)
Module RouteRecipient.
Record RouteRecipient : Type := mk {
  address : string;
  custom_key : option string;
  custom_value : option string;
  split : Z
}.
#[export] Instance eq_dec : EqDecision RouteRecipient.
Proof. solve_decision. Defined.
End RouteRecipient.
Abbreviation RouteRecipient := RouteRecipient.RouteRecipient.
#[export] Existing Instance RouteRecipient.eq_dec.

(** One recipient of a local value time split. *)
Module ValueTimeSplitRecipient.
Record ValueTimeSplitRecipient : Type := mk {
  recipient_name : option string;
  route_type : RouteType;
  address : string;
  custom_key : option string;
  custom_value : option string;
  split : Z;
  fee : bool
}.
#[export] Instance eq_dec : EqDecision ValueTimeSplitRecipient.
Proof. solve_decision. Defined.
End ValueTimeSplitRecipient.
Abbreviation ValueTimeSplitRecipient := ValueTimeSplitRecipient.ValueTimeSplitRecipient.
#[export] Existing Instance ValueTimeSplitRecipient.eq_dec.

(** A value time split with the values its source states. *)
Module ValueTimeSplit.
Record ValueTimeSplit : Type := mk {
  id : option Z;
  source_feed_guid : string;
  source_track_guid : string;
  position : Z;
  form : ValueTimeSplitForm;
  start_time_secs : f64;
  duration_secs : option f64;
  remote_feed_guid : option string;
  remote_item_guid : option string;
  remote_start_time_secs : option f64;
  remote_percentage : option f64;
  recipients : list ValueTimeSplitRecipient;
  created_at : Z
}.
#[export] Instance eq_dec : EqDecision ValueTimeSplit.
Proof. solve_decision. Defined.
End ValueTimeSplit.
Abbreviation ValueTimeSplit := ValueTimeSplit.ValueTimeSplit.
#[export] Existing Instance ValueTimeSplit.eq_dec.

(** A feed-level podcast:remoteItem. *)
Module FeedRemoteItemRaw.
Record FeedRemoteItemRaw : Type := mk {
  id : option Z;
  feed_guid : string;
  position : Z;
  medium : option string;
  remote_feed_guid : string;
  remote_feed_url : option string;
  rel : option string;
  source : string;
  remote_item_guid : option string;
  remote_item_title : option string
}.
#[export] Instance eq_dec : EqDecision FeedRemoteItemRaw.
Proof. solve_decision. Defined.
End FeedRemoteItemRaw.
Abbreviation FeedRemoteItemRaw := FeedRemoteItemRaw.FeedRemoteItemRaw.
#[export] Existing Instance FeedRemoteItemRaw.eq_dec.

(** A track-level podcast:remoteItem. *)
Module TrackRemoteItemRaw.
Record TrackRemoteItemRaw : Type := mk {
  id : option Z;
  feed_guid : string;
  track_guid : string;
  position : Z;
  medium : option string;
  remote_feed_guid : string;
  remote_feed_url : option string;
  rel : option string;
  source : string
}.
#[export] Instance eq_dec : EqDecision TrackRemoteItemRaw.
Proof. solve_decision. Defined.
End TrackRemoteItemRaw.
Abbreviation TrackRemoteItemRaw := TrackRemoteItemRaw.TrackRemoteItemRaw.
#[export] Existing Instance TrackRemoteItemRaw.eq_dec.

(** A stored live item. *)
Module LiveEvent.
Record LiveEvent : Type := mk {
  live_item_guid : string;
  feed_guid : string;
  title : string;
  content_link : option string;
  status : string;
  scheduled_start : option Z;
  scheduled_end : option Z;
  created_at : Z;
  updated_at : Z;
  live_value_uri : option string;
  live_value_protocol : option string
}.
#[export] Instance eq_dec : EqDecision LiveEvent.
Proof. solve_decision. Defined.
End LiveEvent.
Abbreviation LiveEvent := LiveEvent.LiveEvent.
#[export] Existing Instance LiveEvent.eq_dec.

(** A staged contributor claim. *)
Module SourceContributorClaim.
Record SourceContributorClaim : Type := mk {
  id : option Z;
  feed_guid : string;
  entity_type : string;
  entity_id : string;
  position : Z;
  name : string;
  role : option string;
  role_norm : option string;
  group_name : option string;
  href : option string;
  img : option string;
  npub : option string;
  source : string;
  extraction_path : string;
  observed_at : Z
}.
#[export] Instance eq_dec : EqDecision SourceContributorClaim.
Proof. solve_decision. Defined.
End SourceContributorClaim.
Abbreviation SourceContributorClaim := SourceContributorClaim.SourceContributorClaim.
#[export] Existing Instance SourceContributorClaim.eq_dec.

(** A staged entity-ID claim. *)
Module SourceEntityIdClaim.
Record SourceEntityIdClaim : Type := mk {
  id : option Z;
  feed_guid : string;
  entity_type : string;
  entity_id : string;
  position : Z;
  scheme : string;
  value : string;
  source : string;
  extraction_path : string;
  observed_at : Z
}.
#[export] Instance eq_dec : EqDecision SourceEntityIdClaim.
Proof. solve_decision. Defined.
End SourceEntityIdClaim.
Abbreviation SourceEntityIdClaim := SourceEntityIdClaim.SourceEntityIdClaim.
#[export] Existing Instance SourceEntityIdClaim.eq_dec.

(** A staged entity link. *)
Module SourceEntityLink.
Record SourceEntityLink : Type := mk {
  id : option Z;
  feed_guid : string;
  entity_type : string;
  entity_id : string;
  position : Z;
  link_type : string;
  url : string;
  source : string;
  extraction_path : string;
  observed_at : Z;
  label : option string
}.
#[export] Instance eq_dec : EqDecision SourceEntityLink.
Proof. solve_decision. Defined.
End SourceEntityLink.
Abbreviation SourceEntityLink := SourceEntityLink.SourceEntityLink.
#[export] Existing Instance SourceEntityLink.eq_dec.

(** A staged release claim. *)
Module SourceReleaseClaim.
Record SourceReleaseClaim : Type := mk {
  id : option Z;
  feed_guid : string;
  entity_type : string;
  entity_id : string;
  position : Z;
  claim_type : string;
  claim_value : string;
  source : string;
  extraction_path : string;
  observed_at : Z
}.
#[export] Instance eq_dec : EqDecision SourceReleaseClaim.
Proof. solve_decision. Defined.
End SourceReleaseClaim.
Abbreviation SourceReleaseClaim := SourceReleaseClaim.SourceReleaseClaim.
#[export] Existing Instance SourceReleaseClaim.eq_dec.

(** A staged item enclosure. *)
Module SourceItemEnclosure.
Record SourceItemEnclosure : Type := mk {
  id : option Z;
  feed_guid : string;
  entity_type : string;
  entity_id : string;
  position : Z;
  url : string;
  mime_type : option string;
  bytes : option Z;
  rel : option string;
  title : option string;
  is_primary : bool;
  source : string;
  extraction_path : string;
  observed_at : Z
}.
#[export] Instance eq_dec : EqDecision SourceItemEnclosure.
Proof. solve_decision. Defined.
End SourceItemEnclosure.
Abbreviation SourceItemEnclosure := SourceItemEnclosure.SourceItemEnclosure.
#[export] Existing Instance SourceItemEnclosure.eq_dec.

(** A staged item transcript. *)
Module SourceItemTranscript.
Record SourceItemTranscript : Type := mk {
  id : option Z;
  feed_guid : string;
  entity_type : string;
  entity_id : string;
  position : Z;
  url : string;
  mime_type : option string;
  language : option string;
  rel : option string;
  source : string;
  extraction_path : string;
  observed_at : Z
}.
#[export] Instance eq_dec : EqDecision SourceItemTranscript.
Proof. solve_decision. Defined.
End SourceItemTranscript.
Abbreviation SourceItemTranscript := SourceItemTranscript.SourceItemTranscript.
#[export] Existing Instance SourceItemTranscript.eq_dec.

(** A staged platform claim. *)
Module SourcePlatformClaim.
Record SourcePlatformClaim : Type := mk {
  id : option Z;
  feed_guid : string;
  platform_key : string;
  url : option string;
  owner_name : option string;
  source : string;
  extraction_path : string;
  observed_at : Z
}.
#[export] Instance eq_dec : EqDecision SourcePlatformClaim.
Proof. solve_decision. Defined.
End SourcePlatformClaim.
Abbreviation SourcePlatformClaim := SourcePlatformClaim.SourcePlatformClaim.
#[export] Existing Instance SourcePlatformClaim.eq_dec.

(** A durable block of a feed GUID or URL. *)
Module FeedBlock.
Record FeedBlock : Type := mk {
  block_id : string;
  kind : FeedBlockKind;
  value : string;
  reason : string;
  blocked_at : Z
}.
#[export] Instance eq_dec : EqDecision FeedBlock.
Proof. solve_decision. Defined.
End FeedBlock.
Abbreviation FeedBlock := FeedBlock.FeedBlock.
#[export] Existing Instance FeedBlock.eq_dec.

(** A channel-level remote item of a copy. *)
Module CopyRemoteItem.
Record CopyRemoteItem : Type := mk {
  medium : option string;
  feed_guid : string;
  feed_url : option string;
  item_guid : option string
}.
#[export] Instance eq_dec : EqDecision CopyRemoteItem.
Proof. solve_decision. Defined.
End CopyRemoteItem.
Abbreviation CopyRemoteItem := CopyRemoteItem.CopyRemoteItem.
#[export] Existing Instance CopyRemoteItem.eq_dec.

(** The summary of a mirror body. *)
Module CopySummary.
Record CopySummary : Type := mk {
  title : string;
  item_guids : list string;
  item_titles : option (list (option string));
  image_url : option string;
  remote_items : option (list CopyRemoteItem);
  item_durations : option (list (option Z));
  item_enclosure_urls : option (list (option string));
  item_pub_dates : option (list (option Z));
  author : option string;
  feed_recipients : list RouteRecipient;
  track_recipients : gmap string (list RouteRecipient)
}.
#[export] Instance eq_dec : EqDecision CopySummary.
Proof. solve_decision. Defined.
End CopySummary.
Abbreviation CopySummary := CopySummary.CopySummary.
#[export] Existing Instance CopySummary.eq_dec.


(** ** Recipient sets (ADR 0053 section 4) *)

(** [impl From<&PaymentRoute> for RouteRecipient]. *)
Definition recipient_of_route (route : PaymentRoute) : RouteRecipient :=
  RouteRecipient.mk (PaymentRoute.address route) (PaymentRoute.custom_key route)
    (PaymentRoute.custom_value route) (PaymentRoute.split route).

(** [impl From<&FeedPaymentRoute> for RouteRecipient]. *)
Definition recipient_of_feed_route (route : FeedPaymentRoute) : RouteRecipient :=
  RouteRecipient.mk (FeedPaymentRoute.address route)
    (FeedPaymentRoute.custom_key route) (FeedPaymentRoute.custom_value route)
    (FeedPaymentRoute.split route).

Definition recipient_set (routes : list PaymentRoute) : list RouteRecipient :=
  recipient_of_route <$> routes.

Definition feed_recipient_set (routes : list FeedPaymentRoute) : list RouteRecipient :=
  recipient_of_feed_route <$> routes.

(** [ValueTimeSplitForm::as_str]. *)
Definition value_time_split_form_as_str (f : ValueTimeSplitForm) : string :=
  match f with
  | ValueTimeSplitForm.Remote => "remote"
  | ValueTimeSplitForm.Local => "local"
  end.

(** [FeedBlockKind::as_str]. *)
Definition feed_block_kind_as_str (k : FeedBlockKind) : string :=
  match k with
  | FeedBlockKind.Guid => "guid"
  | FeedBlockKind.Url => "url"
  end.
