(* ===== verification/Event.v ===== *)
(** Signed events (src/event.rs): the event discriminant, the payload of each
    event, the signed envelope and the payload that its signature covers.

    What [serde] does with them is in Crates.v. *)

From S2P Require Import Prelude.
From S2P Require Import Model.

(** Discriminant of the domain action of an event. *)
Module EventType.
Inductive EventType : Type :=
  | FeedUpserted
  | FeedRetired
  | TrackUpserted
  | TrackRemoved
  | ArtistUpserted
  | RoutesReplaced
  | ArtistCreditCreated
  | FeedRoutesReplaced
  | FeedRemoteItemsReplaced
  | TrackRemoteItemsReplaced
  | FeedListValueReplaced
  | LiveEventsReplaced
  | SourceContributorClaimsReplaced
  | SourceEntityIdsReplaced
  | SourceEntityLinksReplaced
  | SourceReleaseClaimsReplaced
  | SourceItemEnclosuresReplaced
  | SourceItemTranscriptsReplaced
  | SourcePlatformClaimsReplaced
  | FeedUrlObserved
  | FeedBlocked
  | FeedUnblocked
  | FeedCopyObserved
  | FeedCopyResolved
  | FeedGuidChangeObserved
  | FeedGuidChangeDecided
  | FeedGuidSuperseded.
#[export] Instance eq_dec : EqDecision EventType.
Proof. solve_decision. Defined.
End EventType.
Abbreviation EventType := EventType.EventType.
#[export] Existing Instance EventType.eq_dec.

Module FeedUpsertedPayload.
Record FeedUpsertedPayload : Type := mk {
  feed : Feed;
  reason : option string
}.
#[export] Instance eq_dec : EqDecision FeedUpsertedPayload.
Proof. solve_decision. Defined.
End FeedUpsertedPayload.
Abbreviation FeedUpsertedPayload := FeedUpsertedPayload.FeedUpsertedPayload.
#[export] Existing Instance FeedUpsertedPayload.eq_dec.

Module FeedRetiredPayload.
Record FeedRetiredPayload : Type := mk {
  feed_guid : string;
  reason : option string
}.
#[export] Instance eq_dec : EqDecision FeedRetiredPayload.
Proof. solve_decision. Defined.
End FeedRetiredPayload.
Abbreviation FeedRetiredPayload := FeedRetiredPayload.FeedRetiredPayload.
#[export] Existing Instance FeedRetiredPayload.eq_dec.

Module TrackUpsertedPayload.
Record TrackUpsertedPayload : Type := mk {
  track : Track;
  routes : list PaymentRoute;
  value_time_splits : list ValueTimeSplit
}.
#[export] Instance eq_dec : EqDecision TrackUpsertedPayload.
Proof. solve_decision. Defined.
End TrackUpsertedPayload.
Abbreviation TrackUpsertedPayload := TrackUpsertedPayload.TrackUpsertedPayload.
#[export] Existing Instance TrackUpsertedPayload.eq_dec.

Module TrackRemovedPayload.
Record TrackRemovedPayload : Type := mk {
  track_guid : string;
  feed_guid : string
}.
#[export] Instance eq_dec : EqDecision TrackRemovedPayload.
Proof. solve_decision. Defined.
End TrackRemovedPayload.
Abbreviation TrackRemovedPayload := TrackRemovedPayload.TrackRemovedPayload.
#[export] Existing Instance TrackRemovedPayload.eq_dec.

Module ArtistUpsertedPayload.
Record ArtistUpsertedPayload : Type := mk {
  artist : Artist
}.
#[export] Instance eq_dec : EqDecision ArtistUpsertedPayload.
Proof. solve_decision. Defined.
End ArtistUpsertedPayload.
Abbreviation ArtistUpsertedPayload := ArtistUpsertedPayload.ArtistUpsertedPayload.
#[export] Existing Instance ArtistUpsertedPayload.eq_dec.

Module RoutesReplacedPayload.
Record RoutesReplacedPayload : Type := mk {
  track_guid : string;
  feed_guid : option string;
  routes : list PaymentRoute
}.
#[export] Instance eq_dec : EqDecision RoutesReplacedPayload.
Proof. solve_decision. Defined.
End RoutesReplacedPayload.
Abbreviation RoutesReplacedPayload := RoutesReplacedPayload.RoutesReplacedPayload.
#[export] Existing Instance RoutesReplacedPayload.eq_dec.

Module ArtistCreditCreatedPayload.
Record ArtistCreditCreatedPayload : Type := mk {
  artist_credit : ArtistCredit
}.
#[export] Instance eq_dec : EqDecision ArtistCreditCreatedPayload.
Proof. solve_decision. Defined.
End ArtistCreditCreatedPayload.
Abbreviation ArtistCreditCreatedPayload := ArtistCreditCreatedPayload.ArtistCreditCreatedPayload.
#[export] Existing Instance ArtistCreditCreatedPayload.eq_dec.

Module FeedRoutesReplacedPayload.
Record FeedRoutesReplacedPayload : Type := mk {
  feed_guid : string;
  routes : list FeedPaymentRoute
}.
#[export] Instance eq_dec : EqDecision FeedRoutesReplacedPayload.
Proof. solve_decision. Defined.
End FeedRoutesReplacedPayload.
Abbreviation FeedRoutesReplacedPayload := FeedRoutesReplacedPayload.FeedRoutesReplacedPayload.
#[export] Existing Instance FeedRoutesReplacedPayload.eq_dec.

Module FeedRemoteItemsReplacedPayload.
Record FeedRemoteItemsReplacedPayload : Type := mk {
  feed_guid : string;
  remote_items : list FeedRemoteItemRaw
}.
#[export] Instance eq_dec : EqDecision FeedRemoteItemsReplacedPayload.
Proof. solve_decision. Defined.
End FeedRemoteItemsReplacedPayload.
Abbreviation FeedRemoteItemsReplacedPayload := FeedRemoteItemsReplacedPayload.FeedRemoteItemsReplacedPayload.
#[export] Existing Instance FeedRemoteItemsReplacedPayload.eq_dec.

Module TrackRemoteItemsReplacedPayload.
Record TrackRemoteItemsReplacedPayload : Type := mk {
  track_guid : string;
  feed_guid : option string;
  remote_items : list TrackRemoteItemRaw
}.
#[export] Instance eq_dec : EqDecision TrackRemoteItemsReplacedPayload.
Proof. solve_decision. Defined.
End TrackRemoteItemsReplacedPayload.
Abbreviation TrackRemoteItemsReplacedPayload := TrackRemoteItemsReplacedPayload.TrackRemoteItemsReplacedPayload.
#[export] Existing Instance TrackRemoteItemsReplacedPayload.eq_dec.

Module FeedListValueReplacedPayload.
Record FeedListValueReplacedPayload : Type := mk {
  feed_guid : string;
  list_values : list FeedListValueRaw
}.
#[export] Instance eq_dec : EqDecision FeedListValueReplacedPayload.
Proof. solve_decision. Defined.
End FeedListValueReplacedPayload.
Abbreviation FeedListValueReplacedPayload := FeedListValueReplacedPayload.FeedListValueReplacedPayload.
#[export] Existing Instance FeedListValueReplacedPayload.eq_dec.

Module LiveEventsReplacedPayload.
Record LiveEventsReplacedPayload : Type := mk {
  feed_guid : string;
  live_events : list LiveEvent
}.
#[export] Instance eq_dec : EqDecision LiveEventsReplacedPayload.
Proof. solve_decision. Defined.
End LiveEventsReplacedPayload.
Abbreviation LiveEventsReplacedPayload := LiveEventsReplacedPayload.LiveEventsReplacedPayload.
#[export] Existing Instance LiveEventsReplacedPayload.eq_dec.

Module SourceContributorClaimsReplacedPayload.
Record SourceContributorClaimsReplacedPayload : Type := mk {
  feed_guid : string;
  claims : list SourceContributorClaim
}.
#[export] Instance eq_dec : EqDecision SourceContributorClaimsReplacedPayload.
Proof. solve_decision. Defined.
End SourceContributorClaimsReplacedPayload.
Abbreviation SourceContributorClaimsReplacedPayload := SourceContributorClaimsReplacedPayload.SourceContributorClaimsReplacedPayload.
#[export] Existing Instance SourceContributorClaimsReplacedPayload.eq_dec.

Module SourceEntityIdsReplacedPayload.
Record SourceEntityIdsReplacedPayload : Type := mk {
  feed_guid : string;
  claims : list SourceEntityIdClaim
}.
#[export] Instance eq_dec : EqDecision SourceEntityIdsReplacedPayload.
Proof. solve_decision. Defined.
End SourceEntityIdsReplacedPayload.
Abbreviation SourceEntityIdsReplacedPayload := SourceEntityIdsReplacedPayload.SourceEntityIdsReplacedPayload.
#[export] Existing Instance SourceEntityIdsReplacedPayload.eq_dec.

Module SourceEntityLinksReplacedPayload.
Record SourceEntityLinksReplacedPayload : Type := mk {
  feed_guid : string;
  links : list SourceEntityLink
}.
#[export] Instance eq_dec : EqDecision SourceEntityLinksReplacedPayload.
Proof. solve_decision. Defined.
End SourceEntityLinksReplacedPayload.
Abbreviation SourceEntityLinksReplacedPayload := SourceEntityLinksReplacedPayload.SourceEntityLinksReplacedPayload.
#[export] Existing Instance SourceEntityLinksReplacedPayload.eq_dec.

Module SourceReleaseClaimsReplacedPayload.
Record SourceReleaseClaimsReplacedPayload : Type := mk {
  feed_guid : string;
  claims : list SourceReleaseClaim
}.
#[export] Instance eq_dec : EqDecision SourceReleaseClaimsReplacedPayload.
Proof. solve_decision. Defined.
End SourceReleaseClaimsReplacedPayload.
Abbreviation SourceReleaseClaimsReplacedPayload := SourceReleaseClaimsReplacedPayload.SourceReleaseClaimsReplacedPayload.
#[export] Existing Instance SourceReleaseClaimsReplacedPayload.eq_dec.

Module SourceItemEnclosuresReplacedPayload.
Record SourceItemEnclosuresReplacedPayload : Type := mk {
  feed_guid : string;
  enclosures : list SourceItemEnclosure
}.
#[export] Instance eq_dec : EqDecision SourceItemEnclosuresReplacedPayload.
Proof. solve_decision. Defined.
End SourceItemEnclosuresReplacedPayload.
Abbreviation SourceItemEnclosuresReplacedPayload := SourceItemEnclosuresReplacedPayload.SourceItemEnclosuresReplacedPayload.
#[export] Existing Instance SourceItemEnclosuresReplacedPayload.eq_dec.

Module SourceItemTranscriptsReplacedPayload.
Record SourceItemTranscriptsReplacedPayload : Type := mk {
  feed_guid : string;
  transcripts : list SourceItemTranscript
}.
#[export] Instance eq_dec : EqDecision SourceItemTranscriptsReplacedPayload.
Proof. solve_decision. Defined.
End SourceItemTranscriptsReplacedPayload.
Abbreviation SourceItemTranscriptsReplacedPayload := SourceItemTranscriptsReplacedPayload.SourceItemTranscriptsReplacedPayload.
#[export] Existing Instance SourceItemTranscriptsReplacedPayload.eq_dec.

Module SourcePlatformClaimsReplacedPayload.
Record SourcePlatformClaimsReplacedPayload : Type := mk {
  feed_guid : string;
  claims : list SourcePlatformClaim
}.
#[export] Instance eq_dec : EqDecision SourcePlatformClaimsReplacedPayload.
Proof. solve_decision. Defined.
End SourcePlatformClaimsReplacedPayload.
Abbreviation SourcePlatformClaimsReplacedPayload := SourcePlatformClaimsReplacedPayload.SourcePlatformClaimsReplacedPayload.
#[export] Existing Instance SourcePlatformClaimsReplacedPayload.eq_dec.

Module FeedUrlObservedPayload.
Record FeedUrlObservedPayload : Type := mk {
  url : string;
  feed_guid : string;
  observed_at : Z
}.
#[export] Instance eq_dec : EqDecision FeedUrlObservedPayload.
Proof. solve_decision. Defined.
End FeedUrlObservedPayload.
Abbreviation FeedUrlObservedPayload := FeedUrlObservedPayload.FeedUrlObservedPayload.
#[export] Existing Instance FeedUrlObservedPayload.eq_dec.

Module FeedBlockedPayload.
Record FeedBlockedPayload : Type := mk {
  block_id : string;
  kind : FeedBlockKind;
  value : string;
  reason : string;
  blocked_at : Z
}.
#[export] Instance eq_dec : EqDecision FeedBlockedPayload.
Proof. solve_decision. Defined.
End FeedBlockedPayload.
Abbreviation FeedBlockedPayload := FeedBlockedPayload.FeedBlockedPayload.
#[export] Existing Instance FeedBlockedPayload.eq_dec.

Module FeedUnblockedPayload.
Record FeedUnblockedPayload : Type := mk {
  block_id : string
}.
#[export] Instance eq_dec : EqDecision FeedUnblockedPayload.
Proof. solve_decision. Defined.
End FeedUnblockedPayload.
Abbreviation FeedUnblockedPayload := FeedUnblockedPayload.FeedUnblockedPayload.
#[export] Existing Instance FeedUnblockedPayload.eq_dec.

Module FeedCopyObservedPayload.
Record FeedCopyObservedPayload : Type := mk {
  feed_guid : string;
  url : string;
  first_seen : Z;
  title : string;
  item_guids : list string;
  item_titles : option (list (option string));
  image_url : option string;
  remote_items : option (list CopyRemoteItem);
  item_durations : option (list (option Z));
  item_enclosure_urls : option (list (option string));
  item_pub_dates : option (list (option Z));
  author : option string;
  feed_recipients : list RouteRecipient;
  track_recipients : gmap string (list RouteRecipient);
  summary_digest : string
}.
#[export] Instance eq_dec : EqDecision FeedCopyObservedPayload.
Proof. solve_decision. Defined.
End FeedCopyObservedPayload.
Abbreviation FeedCopyObservedPayload := FeedCopyObservedPayload.FeedCopyObservedPayload.
#[export] Existing Instance FeedCopyObservedPayload.eq_dec.

Module FeedCopyResolvedPayload.
Record FeedCopyResolvedPayload : Type := mk {
  feed_guid : string;
  url : string;
  decision : string;
  reason : string;
  resolved_at : Z;
  resolved_digest : string;
  resolved_remote_items_digest : option string
}.
#[export] Instance eq_dec : EqDecision FeedCopyResolvedPayload.
Proof. solve_decision. Defined.
End FeedCopyResolvedPayload.
Abbreviation FeedCopyResolvedPayload := FeedCopyResolvedPayload.FeedCopyResolvedPayload.
#[export] Existing Instance FeedCopyResolvedPayload.eq_dec.

Module FeedGuidChangeObservedPayload.
Record FeedGuidChangeObservedPayload : Type := mk {
  source_url : string;
  old_guid : string;
  new_guid : string;
  first_seen : Z
}.
#[export] Instance eq_dec : EqDecision FeedGuidChangeObservedPayload.
Proof. solve_decision. Defined.
End FeedGuidChangeObservedPayload.
Abbreviation FeedGuidChangeObservedPayload := FeedGuidChangeObservedPayload.FeedGuidChangeObservedPayload.
#[export] Existing Instance FeedGuidChangeObservedPayload.eq_dec.

Module FeedGuidChangeDecidedPayload.
Record FeedGuidChangeDecidedPayload : Type := mk {
  source_url : string;
  old_guid : string;
  new_guid : string;
  decision : string;
  reason : string;
  decided_at : Z
}.
#[export] Instance eq_dec : EqDecision FeedGuidChangeDecidedPayload.
Proof. solve_decision. Defined.
End FeedGuidChangeDecidedPayload.
Abbreviation FeedGuidChangeDecidedPayload := FeedGuidChangeDecidedPayload.FeedGuidChangeDecidedPayload.
#[export] Existing Instance FeedGuidChangeDecidedPayload.eq_dec.

Module FeedGuidSupersededPayload.
Record FeedGuidSupersededPayload : Type := mk {
  old_guid : string;
  new_guid : string;
  source_url : string
}.
#[export] Instance eq_dec : EqDecision FeedGuidSupersededPayload.
Proof. solve_decision. Defined.
End FeedGuidSupersededPayload.
Abbreviation FeedGuidSupersededPayload := FeedGuidSupersededPayload.FeedGuidSupersededPayload.
#[export] Existing Instance FeedGuidSupersededPayload.eq_dec.

(** The payload of an event, one variant per [EventType]. *)
Module EventPayload.
Inductive EventPayload : Type :=
  | FeedUpserted (p : FeedUpsertedPayload)
  | FeedRetired (p : FeedRetiredPayload)
  | TrackUpserted (p : TrackUpsertedPayload)
  | TrackRemoved (p : TrackRemovedPayload)
  | ArtistUpserted (p : ArtistUpsertedPayload)
  | RoutesReplaced (p : RoutesReplacedPayload)
  | ArtistCreditCreated (p : ArtistCreditCreatedPayload)
  | FeedRoutesReplaced (p : FeedRoutesReplacedPayload)
  | FeedRemoteItemsReplaced (p : FeedRemoteItemsReplacedPayload)
  | TrackRemoteItemsReplaced (p : TrackRemoteItemsReplacedPayload)
  | FeedListValueReplaced (p : FeedListValueReplacedPayload)
  | LiveEventsReplaced (p : LiveEventsReplacedPayload)
  | SourceContributorClaimsReplaced (p : SourceContributorClaimsReplacedPayload)
  | SourceEntityIdsReplaced (p : SourceEntityIdsReplacedPayload)
  | SourceEntityLinksReplaced (p : SourceEntityLinksReplacedPayload)
  | SourceReleaseClaimsReplaced (p : SourceReleaseClaimsReplacedPayload)
  | SourceItemEnclosuresReplaced (p : SourceItemEnclosuresReplacedPayload)
  | SourceItemTranscriptsReplaced (p : SourceItemTranscriptsReplacedPayload)
  | SourcePlatformClaimsReplaced (p : SourcePlatformClaimsReplacedPayload)
  | FeedUrlObserved (p : FeedUrlObservedPayload)
  | FeedBlocked (p : FeedBlockedPayload)
  | FeedUnblocked (p : FeedUnblockedPayload)
  | FeedCopyObserved (p : FeedCopyObservedPayload)
  | FeedCopyResolved (p : FeedCopyResolvedPayload)
  | FeedGuidChangeObserved (p : FeedGuidChangeObservedPayload)
  | FeedGuidChangeDecided (p : FeedGuidChangeDecidedPayload)
  | FeedGuidSuperseded (p : FeedGuidSupersededPayload).
#[export] Instance eq_dec : EqDecision EventPayload.
Proof. solve_decision. Defined.
End EventPayload.
Abbreviation EventPayload := EventPayload.EventPayload.
#[export] Existing Instance EventPayload.eq_dec.

(** The tag [serde] writes for a payload variant. *)
Definition payload_type (p : EventPayload) : EventType :=
  match p with
  | EventPayload.FeedUpserted _ => EventType.FeedUpserted
  | EventPayload.FeedRetired _ => EventType.FeedRetired
  | EventPayload.TrackUpserted _ => EventType.TrackUpserted
  | EventPayload.TrackRemoved _ => EventType.TrackRemoved
  | EventPayload.ArtistUpserted _ => EventType.ArtistUpserted
  | EventPayload.RoutesReplaced _ => EventType.RoutesReplaced
  | EventPayload.ArtistCreditCreated _ => EventType.ArtistCreditCreated
  | EventPayload.FeedRoutesReplaced _ => EventType.FeedRoutesReplaced
  | EventPayload.FeedRemoteItemsReplaced _ => EventType.FeedRemoteItemsReplaced
  | EventPayload.TrackRemoteItemsReplaced _ => EventType.TrackRemoteItemsReplaced
  | EventPayload.FeedListValueReplaced _ => EventType.FeedListValueReplaced
  | EventPayload.LiveEventsReplaced _ => EventType.LiveEventsReplaced
  | EventPayload.SourceContributorClaimsReplaced _ => EventType.SourceContributorClaimsReplaced
  | EventPayload.SourceEntityIdsReplaced _ => EventType.SourceEntityIdsReplaced
  | EventPayload.SourceEntityLinksReplaced _ => EventType.SourceEntityLinksReplaced
  | EventPayload.SourceReleaseClaimsReplaced _ => EventType.SourceReleaseClaimsReplaced
  | EventPayload.SourceItemEnclosuresReplaced _ => EventType.SourceItemEnclosuresReplaced
  | EventPayload.SourceItemTranscriptsReplaced _ => EventType.SourceItemTranscriptsReplaced
  | EventPayload.SourcePlatformClaimsReplaced _ => EventType.SourcePlatformClaimsReplaced
  | EventPayload.FeedUrlObserved _ => EventType.FeedUrlObserved
  | EventPayload.FeedBlocked _ => EventType.FeedBlocked
  | EventPayload.FeedUnblocked _ => EventType.FeedUnblocked
  | EventPayload.FeedCopyObserved _ => EventType.FeedCopyObserved
  | EventPayload.FeedCopyResolved _ => EventType.FeedCopyResolved
  | EventPayload.FeedGuidChangeObserved _ => EventType.FeedGuidChangeObserved
  | EventPayload.FeedGuidChangeDecided _ => EventType.FeedGuidChangeDecided
  | EventPayload.FeedGuidSuperseded _ => EventType.FeedGuidSuperseded
  end.

(** [#[serde(rename_all = "snake_case")]] on [EventType]: the text of
    the [events.event_type] column. *)
Definition event_type_str (et : EventType) : string :=
  match et with
  | EventType.FeedUpserted => "feed_upserted"
  | EventType.FeedRetired => "feed_retired"
  | EventType.TrackUpserted => "track_upserted"
  | EventType.TrackRemoved => "track_removed"
  | EventType.ArtistUpserted => "artist_upserted"
  | EventType.RoutesReplaced => "routes_replaced"
  | EventType.ArtistCreditCreated => "artist_credit_created"
  | EventType.FeedRoutesReplaced => "feed_routes_replaced"
  | EventType.FeedRemoteItemsReplaced => "feed_remote_items_replaced"
  | EventType.TrackRemoteItemsReplaced => "track_remote_items_replaced"
  | EventType.FeedListValueReplaced => "feed_list_value_replaced"
  | EventType.LiveEventsReplaced => "live_events_replaced"
  | EventType.SourceContributorClaimsReplaced => "source_contributor_claims_replaced"
  | EventType.SourceEntityIdsReplaced => "source_entity_ids_replaced"
  | EventType.SourceEntityLinksReplaced => "source_entity_links_replaced"
  | EventType.SourceReleaseClaimsReplaced => "source_release_claims_replaced"
  | EventType.SourceItemEnclosuresReplaced => "source_item_enclosures_replaced"
  | EventType.SourceItemTranscriptsReplaced => "source_item_transcripts_replaced"
  | EventType.SourcePlatformClaimsReplaced => "source_platform_claims_replaced"
  | EventType.FeedUrlObserved => "feed_url_observed"
  | EventType.FeedBlocked => "feed_blocked"
  | EventType.FeedUnblocked => "feed_unblocked"
  | EventType.FeedCopyObserved => "feed_copy_observed"
  | EventType.FeedCopyResolved => "feed_copy_resolved"
  | EventType.FeedGuidChangeObserved => "feed_guid_change_observed"
  | EventType.FeedGuidChangeDecided => "feed_guid_change_decided"
  | EventType.FeedGuidSuperseded => "feed_guid_superseded"
  end.

(** The signed sync primitive replicated between nodes. *)
Module Event.
Record Event : Type := mk {
  event_id : string;
  event_type : EventType;
  payload : EventPayload;
  subject_guid : string;
  signed_by : string;
  signature : string;
  seq : Z;
  created_at : Z;
  warnings : list string;
  payload_json : string
}.
End Event.
Abbreviation Event := Event.Event.

(** What an event signature covers. *)
Module EventSigningPayload.
Record EventSigningPayload : Type := mk {
  event_id : string;
  event_type : EventType;
  payload_json : string;
  subject_guid : string;
  created_at : Z;
  seq : Z
}.
#[export] Instance eq_dec : EqDecision EventSigningPayload.
Proof. solve_decision. Defined.
End EventSigningPayload.
Abbreviation EventSigningPayload := EventSigningPayload.EventSigningPayload.
#[export] Existing Instance EventSigningPayload.eq_dec.
