(* ===== verification/Float64.v ===== *)
(** [f64] of Rust on the binary64 numbers of the Standard Library: the
    operations that the node uses, the bits of a number ([to_bits] and
    [from_bits]), and that the order of numbers is the order of their bits. *)

From Stdlib Require Import Floats.SpecFloat.
From S2P Require Import Prelude.
From S2P Require Import Model.

Definition f64_of (z : Z) : f64 := binary_normalize 53 1024 z 0 false.
Definition f64_add : f64 → f64 → f64 := SFadd 53 1024.
Definition f64_mul : f64 → f64 → f64 := SFmul 53 1024.
Definition f64_div : f64 → f64 → f64 := SFdiv 53 1024.

(** [f64::is_nan] or [f64::is_infinite]. *)
Definition is_finite (x : f64) : bool :=
  match x with S754_zero _ | S754_finite _ _ _ => true | _ => false end.

(** [f64::to_bits]: the sign, eleven bits of exponent, 52 of the mantissa. *)
Definition sign_bit (s : bool) : Z := if s then 2 ^ 63 else 0.

Definition to_bits (x : f64) : Z :=
  match x with
  | S754_zero s => sign_bit s
  | S754_infinity s => sign_bit s + 2047 * 2 ^ 52
  | S754_nan => 2047 * 2 ^ 52 + 2 ^ 51
  | S754_finite s m e => sign_bit s + (e + 1074) * 2 ^ 52 + Z.pos m
  end.

(** [f64::from_bits]. *)
Definition from_bits (bits : Z) : f64 :=
  let s := 2 ^ 63 <=? bits in
  let magnitude := if s then bits - 2 ^ 63 else bits in
  let exponent := magnitude / 2 ^ 52 in
  let mantissa := magnitude mod 2 ^ 52 in
  if exponent =? 2047 then (if mantissa =? 0 then S754_infinity s else S754_nan)
  else if exponent =? 0 then
    match mantissa with Z.pos m => S754_finite s m (-1074) | _ => S754_zero s end
  else
    match mantissa + 2 ^ 52 with
    | Z.pos m => S754_finite s m (exponent - 1075)
    | _ => S754_nan
    end.

(** ** Mantissas *)

Lemma digits_bound m : Z.pos m < 2 ^ Z.pos (digits2_pos m).
Proof.
  induction m as [m IH|m IH|]; cbn [digits2_pos]; [| |done];
    rewrite Pos2Z.inj_succ, Z.pow_succ_r by lia; lia.
Qed.

Lemma digits_lower m : 2 ^ (Z.pos (digits2_pos m) - 1) ≤ Z.pos m.
Proof.
  induction m as [m IH|m IH|]; cbn [digits2_pos]; [| |done];
    rewrite Pos2Z.inj_succ, <-Z.add_1_l, Z.add_simpl_l;
    replace (Z.pos (digits2_pos m)) with (Z.succ (Z.pos (digits2_pos m) - 1)) by lia;
    rewrite Z.pow_succ_r by lia; lia.
Qed.

Lemma binary64_mantissa m e : bounded 53 1024 m e = true → Z.pos m < 2 ^ 53.
Proof.
  unfold bounded, canonical_mantissa, fexp, SpecFloat.emin. intros [Hc _]%andb_true_iff.
  apply Z.eqb_eq in Hc.
  eapply Z.lt_le_trans; [apply digits_bound|]. apply Z.pow_le_mono_r; lia.
Qed.

(** The exponents of a number: a mantissa of 53 bits but at the least one. *)
Lemma binary64_exponent m e :
  bounded 53 1024 m e = true → -1074 ≤ e ≤ 971 ∧ (e = -1074 ∨ 2 ^ 52 ≤ Z.pos m).
Proof.
  unfold bounded, canonical_mantissa, fexp, SpecFloat.emin. intros [Hc He]%andb_true_iff.
  apply Z.eqb_eq in Hc. apply Z.leb_le in He. split; [lia|].
  destruct (decide (e = -1074)) as [|Hne]; [by left|right].
  pose proof (digits_lower m) as Hl.
  assert (Z.pos (digits2_pos m) - 1 = 52) as Hd by lia. by rewrite Hd in Hl.
Qed.

Lemma from_to_bits x :
  valid_binary 53 1024 x = true → is_finite x = true → from_bits (to_bits x) = x.
Proof.
  destruct x as [s|s| |s m e]; try done; [by destruct s|]. intros Hv _.
  pose proof (binary64_mantissa m e Hv) as Hm. destruct (binary64_exponent m e Hv) as [He Hn].
  set (mag := (e + 1074) * 2 ^ 52 + Z.pos m).
  assert (0 < mag < 2 ^ 63) as Hmag by (unfold mag; lia).
  assert (to_bits (S754_finite s m e) = sign_bit s + mag) as -> by (unfold mag; cbn [to_bits]; lia).
  unfold from_bits.
  assert ((2 ^ 63 <=? sign_bit s + mag) = s) as Hs.
  { destruct s; cbn [sign_bit]; [apply Z.leb_le|apply Z.leb_gt]; lia. }
  rewrite Hs. replace (if s then _ else _) with mag by (destruct s; cbn [sign_bit]; lia).
  destruct (decide (Z.pos m < 2 ^ 52)) as [Hlt|Hge].
  - assert (e = -1074) as -> by lia. assert (mag = Z.pos m) as -> by (unfold mag; lia).
    by rewrite Z.div_small, Z.mod_small by lia.
  - assert (mag = (e + 1075) * 2 ^ 52 + (Z.pos m - 2 ^ 52)) as -> by (unfold mag; lia).
    rewrite Z.div_add_l, Z.div_small, Z.add_0_r by lia.
    rewrite (Z.add_comm (_ * _)), Z.mod_add, Z.mod_small by lia.
    rewrite (proj2 (Z.eqb_neq _ _)), (proj2 (Z.eqb_neq _ _)) by lia.
    rewrite Z.sub_add. f_equal. lia.
Qed.

Lemma to_bits_range x : valid_binary 53 1024 x = true → 0 ≤ to_bits x < 2 ^ 64.
Proof.
  destruct x as [s|s| |s m e]; [by destruct s|by destruct s|done|]. intros Hv.
  pose proof (binary64_mantissa m e Hv). destruct (binary64_exponent m e Hv) as [? _].
  cbn [to_bits]. destruct s; cbn [sign_bit]; lia.
Qed.

(** ** Order *)

(** The bits as a signed number, which orders the finite numbers. *)
Definition bits_order (x : f64) : Z :=
  if to_bits x <? 2 ^ 63 then to_bits x else 2 ^ 63 - to_bits x.

Lemma bits_order_finite s m e :
  bounded 53 1024 m e = true →
  bits_order (S754_finite s m e)
  = (if s then -1 else 1) * ((e + 1074) * 2 ^ 52 + Z.pos m).
Proof.
  intros Hv. pose proof (binary64_mantissa m e Hv). destruct (binary64_exponent m e Hv) as [? _].
  unfold bits_order. cbn [to_bits].
  destruct s; cbn [sign_bit];
    [rewrite (proj2 (Z.ltb_ge _ _)) by lia|rewrite (proj2 (Z.ltb_lt _ _)) by lia]; lia.
Qed.

Lemma magnitude_compare m e m' e' :
  bounded 53 1024 m e = true → bounded 53 1024 m' e' = true →
  match e ?= e' with Eq => Pos.compare m m' | c => c end
  = ((e + 1074) * 2 ^ 52 + Z.pos m ?= (e' + 1074) * 2 ^ 52 + Z.pos m').
Proof.
  intros Hv Hv'.
  pose proof (binary64_mantissa m e Hv). destruct (binary64_exponent m e Hv) as [? Hn].
  pose proof (binary64_mantissa m' e' Hv'). destruct (binary64_exponent m' e' Hv') as [? Hn'].
  destruct (Z.compare_spec e e') as [<-|Hlt|Hgt].
  - rewrite Z.add_compare_mono_l. done.
  - symmetry. apply Z.compare_lt_iff. lia.
  - symmetry. apply Z.compare_gt_iff. lia.
Qed.

(** Equal is the same magnitude: the two zeros are equal. *)
Lemma compare_bits x y :
  valid_binary 53 1024 x = true → valid_binary 53 1024 y = true →
  is_finite x = true → is_finite y = true →
  SFcompare x y = Some (bits_order x ?= bits_order y).
Proof.
  assert (∀ s, bits_order (S754_zero s) = 0) as Hz by (intros []; done).
  destruct x as [s|?| |s m e]; try done; destruct y as [s'|?| |s' m' e']; try done;
    intros Hv Hv' _ _; cbn [SFcompare]; rewrite ?Hz, ?bits_order_finite by done; f_equal.
  - pose proof (binary64_exponent m' e' Hv') as [? _].
    destruct s'; symmetry; [apply Z.compare_gt_iff|apply Z.compare_lt_iff]; lia.
  - pose proof (binary64_exponent m e Hv) as [? _].
    destruct s; symmetry; [apply Z.compare_lt_iff|apply Z.compare_gt_iff]; lia.
  - pose proof (magnitude_compare m e m' e' Hv Hv') as Hc.
    pose proof (binary64_exponent m e Hv) as [? _]. pose proof (binary64_exponent m' e' Hv') as [? _].
    destruct s, s'.
    + transitivity (CompOpp (match e ?= e' with Eq => Pos.compare m m' | c => c end)).
      { destruct (e ?= e'); done. }
      rewrite Hc. generalize ((e + 1074) * 2 ^ 52 + Z.pos m) ((e' + 1074) * 2 ^ 52 + Z.pos m').
      intros a b. symmetry.
      destruct (Z.compare_spec a b) as [->|?|?]; cbn [CompOpp];
        [apply Z.compare_refl|apply Z.compare_gt_iff|apply Z.compare_lt_iff]; lia.
    + symmetry. apply Z.compare_lt_iff. lia.
    + symmetry. apply Z.compare_gt_iff. lia.
    + rewrite !Z.mul_1_l, <-Hc. by destruct (e ?= e').
Qed.
