(* ===== verification/SseRegistry.v ===== *)
(** The registry of the event streams (src/api.rs): one broadcast channel and
    one ring buffer for each feed, the connection slots, and the frames that
    the handlers publish.

    A channel of tokio is the list of the frames that were sent on it; what a
    slow receiver loses is tokio's. [publish] takes the lock of the channels
    and then the lock of the buffers, so two publications can interleave
    between the two; [SseStep] has a step for each. *)

From S2P Require Import Prelude.
From S2P Require Import Model.
From S2P Require Import Event.

Definition SSE_RING_BUFFER_SIZE : nat := 100.
Definition MAX_SSE_REGISTRY_FEEDS : nat := N.to_nat 10000.
Definition MAX_SSE_CONNECTIONS : Z := 1000.

(** The JSON of a frame: that of an event, or of a live item. *)
Module FramePayload.
Inductive FramePayload : Type :=
  | Event (payload : EventPayload)
  | Live (feed_guid live_item_guid title : string) (content_link : option string)
      (status : string) (scheduled_start scheduled_end : option Z).
End FramePayload.
Abbreviation FramePayload := FramePayload.FramePayload.

Module SseFrame.
Record SseFrame : Type := mk {
  event_type : string;
  subject_guid : string;
  payload : FramePayload;
  seq : Z
}.
End SseFrame.
Abbreviation SseFrame := SseFrame.SseFrame.

Module SseRegistry.
Record SseRegistry : Type := mk {
  senders : gmap string (list SseFrame);
  ring_buffers : gmap string (list SseFrame);
  active_connections : Z
}.
End SseRegistry.
Abbreviation SseRegistry := SseRegistry.SseRegistry.

(** [SseRegistry::new]. *)
Definition new_registry : SseRegistry := SseRegistry.mk ∅ ∅ 0.

Definition with_senders (s : gmap string (list SseFrame)) (r : SseRegistry) : SseRegistry :=
  SseRegistry.mk s (SseRegistry.ring_buffers r) (SseRegistry.active_connections r).

Definition with_rings (b : gmap string (list SseFrame)) (r : SseRegistry) : SseRegistry :=
  SseRegistry.mk (SseRegistry.senders r) b (SseRegistry.active_connections r).

Definition with_connections (n : Z) (r : SseRegistry) : SseRegistry :=
  SseRegistry.mk (SseRegistry.senders r) (SseRegistry.ring_buffers r) n.

(** ** Connections *)

Definition try_acquire_connection (r : SseRegistry) : SseRegistry * bool :=
  let current := SseRegistry.active_connections r in
  if current <? MAX_SSE_CONNECTIONS then (with_connections (current + 1) r, true) else (r, false).

(** [fetch_sub] of a [usize] wraps. *)
Definition release_connection (r : SseRegistry) : SseRegistry :=
  with_connections ((SseRegistry.active_connections r - 1) mod 2 ^ 64) r.

Definition feed_count (r : SseRegistry) : nat := size (SseRegistry.senders r).

(** ** Channels *)

(** The receiver is the position in the channel from which it reads. *)
Definition subscribe (feed_guid : string) (r : SseRegistry) : SseRegistry * option nat :=
  match SseRegistry.senders r !! feed_guid with
  | Some tx => (r, Some (length tx))
  | None =>
      if (MAX_SSE_REGISTRY_FEEDS <=? size (SseRegistry.senders r))%nat then (r, None)
      else (with_senders (<[feed_guid := []]> (SseRegistry.senders r)) r, Some O)
  end.

(** The first part of [publish]: [false] when the frame is dropped. *)
Definition send (feed_guid : string) (frame : SseFrame) (r : SseRegistry) : SseRegistry * bool :=
  match SseRegistry.senders r !! feed_guid with
  | Some tx => (with_senders (<[feed_guid := tx ++ [frame]]> (SseRegistry.senders r)) r, true)
  | None =>
      if (size (SseRegistry.senders r) <? MAX_SSE_REGISTRY_FEEDS)%nat
      then (with_senders (<[feed_guid := [frame]]> (SseRegistry.senders r)) r, true)
      else (r, false)
  end.

(** The second part of [publish]. *)
Definition append_ring (feed_guid : string) (frame : SseFrame) (r : SseRegistry) : SseRegistry :=
  let rings := SseRegistry.ring_buffers r in
  match rings !! feed_guid with
  | None =>
      if (MAX_SSE_REGISTRY_FEEDS <=? size rings)%nat then r
      else with_rings (<[feed_guid := [frame]]> rings) r
  | Some buf =>
      let buf := if (SSE_RING_BUFFER_SIZE <=? length buf)%nat then drop 1 buf else buf in
      with_rings (<[feed_guid := buf ++ [frame]]> rings) r
  end.

Definition publish (feed_guid : string) (frame : SseFrame) (r : SseRegistry) : SseRegistry :=
  let '(r, sent) := send feed_guid frame r in
  if sent then append_ring feed_guid frame r else r.

Definition recent_events (feed_guid : string) (r : SseRegistry) : list SseFrame :=
  unwrap_or [] (SseRegistry.ring_buffers r !! feed_guid).

(** ** Frames *)

Definition feed_guid_for_event (ev : Event) : option string :=
  match Event.payload ev with
  | EventPayload.FeedUpserted p => Some (Feed.feed_guid (FeedUpsertedPayload.feed p))
  | EventPayload.TrackUpserted p => Some (Track.feed_guid (TrackUpsertedPayload.track p))
  | EventPayload.FeedRetired p => Some (FeedRetiredPayload.feed_guid p)
  | EventPayload.TrackRemoved p => Some (TrackRemovedPayload.feed_guid p)
  | EventPayload.RoutesReplaced p => RoutesReplacedPayload.feed_guid p
  | EventPayload.FeedRoutesReplaced p => Some (FeedRoutesReplacedPayload.feed_guid p)
  | EventPayload.FeedRemoteItemsReplaced p => Some (FeedRemoteItemsReplacedPayload.feed_guid p)
  | EventPayload.TrackRemoteItemsReplaced p => TrackRemoteItemsReplacedPayload.feed_guid p
  | EventPayload.FeedListValueReplaced p => Some (FeedListValueReplacedPayload.feed_guid p)
  | EventPayload.LiveEventsReplaced p => Some (LiveEventsReplacedPayload.feed_guid p)
  | EventPayload.SourceContributorClaimsReplaced p =>
      Some (SourceContributorClaimsReplacedPayload.feed_guid p)
  | EventPayload.SourceEntityIdsReplaced p => Some (SourceEntityIdsReplacedPayload.feed_guid p)
  | EventPayload.SourceEntityLinksReplaced p => Some (SourceEntityLinksReplacedPayload.feed_guid p)
  | EventPayload.SourceReleaseClaimsReplaced p =>
      Some (SourceReleaseClaimsReplacedPayload.feed_guid p)
  | EventPayload.SourceItemEnclosuresReplaced p =>
      Some (SourceItemEnclosuresReplacedPayload.feed_guid p)
  | EventPayload.SourceItemTranscriptsReplaced p =>
      Some (SourceItemTranscriptsReplacedPayload.feed_guid p)
  | EventPayload.SourcePlatformClaimsReplaced p =>
      Some (SourcePlatformClaimsReplacedPayload.feed_guid p)
  | EventPayload.FeedUrlObserved p => Some (FeedUrlObservedPayload.feed_guid p)
  | EventPayload.FeedCopyObserved p => Some (FeedCopyObservedPayload.feed_guid p)
  | EventPayload.FeedCopyResolved p => Some (FeedCopyResolvedPayload.feed_guid p)
  | EventPayload.ArtistUpserted _ | EventPayload.ArtistCreditCreated _
  | EventPayload.FeedBlocked _ | EventPayload.FeedUnblocked _
  | EventPayload.FeedGuidChangeObserved _ | EventPayload.FeedGuidChangeDecided _
  | EventPayload.FeedGuidSuperseded _ => None
  end.

Definition publish_sse_frames (frames : list (string * SseFrame)) (r : SseRegistry) : SseRegistry :=
  foldl (λ r '(feed_guid, frame), publish feed_guid frame r) r frames.

Definition event_frame (ev : Event) : SseFrame :=
  SseFrame.mk (event_type_str (Event.event_type ev)) (Event.subject_guid ev)
    (FramePayload.Event (Event.payload ev)) (Event.seq ev).

Definition publish_events_to_sse (events : list Event) (r : SseRegistry) : SseRegistry :=
  foldl (λ r ev,
      match feed_guid_for_event ev with
      | Some feed_guid => publish feed_guid (event_frame ev) r
      | None => r
      end) r events.

(** ** Live items *)

Definition live_sse_payload (feed_guid : string) (e : LiveEvent) (status : string) : FramePayload :=
  FramePayload.Live feed_guid (LiveEvent.live_item_guid e) (LiveEvent.title e)
    (LiveEvent.content_link e) status (LiveEvent.scheduled_start e) (LiveEvent.scheduled_end e).

(** [HashMap] of a list: of two rows with one key, the last stays. *)
Definition by_live_guid (l : list LiveEvent) : gmap string LiveEvent :=
  foldl (λ m e, <[LiveEvent.live_item_guid e := e]> m) ∅ l.

(** [max] of the sequence numbers of the snapshot events of the feed. *)
Definition live_snapshot_seq (feed_guid : string) (events : list Event) : option Z :=
  match omap (λ ev, match Event.payload ev with
                    | EventPayload.LiveEventsReplaced p =>
                        if LiveEventsReplacedPayload.feed_guid p =s feed_guid
                        then Some (Event.seq ev) else None
                    | _ => None
                    end) events with
  | [] => None
  | q :: qs => Some (foldl Z.max q qs)
  end.

Definition live_frame (feed_guid kind status : string) (seq : Z) (e : LiveEvent) :
    string * SseFrame :=
  (feed_guid,
   SseFrame.mk kind (LiveEvent.live_item_guid e) (live_sse_payload feed_guid e status) seq).

(** A new row that is live, and was not. *)
Definition has_started (old_by_guid : gmap string LiveEvent) (e : LiveEvent) : bool :=
  (LiveEvent.status e =s "live")
  && negb (is_some_and (λ old, LiveEvent.status old =s "live")
             (old_by_guid !! LiveEvent.live_item_guid e)).

(** An old row that was to come or live, and is ended or gone. *)
Definition has_ended (new_by_guid : gmap string LiveEvent) (e : LiveEvent) : bool :=
  ((LiveEvent.status e =s "pending") || (LiveEvent.status e =s "live"))
  && is_none_or (λ new, LiveEvent.status new =s "ended")
       (new_by_guid !! LiveEvent.live_item_guid e).

Definition build_live_sse_frames_for_feed (feed_guid : string)
    (old_live_events new_live_events : list LiveEvent) (events : list Event) :
    list (string * SseFrame) :=
  match live_snapshot_seq feed_guid events with
  | None => []
  | Some seq =>
      (live_frame feed_guid "live_event_started" "live" seq
         <$> List.filter (has_started (by_live_guid old_live_events)) new_live_events)
      ++ (live_frame feed_guid "live_event_ended" "ended" seq
            <$> List.filter (has_ended (by_live_guid new_live_events)) old_live_events)
  end.

(** ** Interleaving *)

(** The registry, the frames that were sent and not yet put in a buffer, and
    the connections that are open. *)
Module SseState.
Record SseState : Type := mk {
  registry : SseRegistry;
  in_flight : list (string * SseFrame);
  open : nat
}.
End SseState.
Abbreviation SseState := SseState.SseState.

Inductive SseStep : SseState → SseState → Prop :=
  | step_send r flight n g frame r' :
      send g frame r = (r', true) →
      SseStep (SseState.mk r flight n) (SseState.mk r' (flight ++ [(g, frame)]) n)
  | step_send_full r flight n g frame r' :
      send g frame r = (r', false) →
      SseStep (SseState.mk r flight n) (SseState.mk r' flight n)
  | step_ring r before g frame after n :
      SseStep (SseState.mk r (before ++ (g, frame) :: after) n)
        (SseState.mk (append_ring g frame r) (before ++ after) n)
  | step_subscribe r flight n g r' rx :
      subscribe g r = (r', rx) →
      SseStep (SseState.mk r flight n) (SseState.mk r' flight n)
  | step_connect r flight n r' :
      try_acquire_connection r = (r', true) →
      SseStep (SseState.mk r flight n) (SseState.mk r' flight (S n))
  | step_refuse r flight n r' :
      try_acquire_connection r = (r', false) →
      SseStep (SseState.mk r flight n) (SseState.mk r' flight n)
  | step_disconnect r flight n :
      SseStep (SseState.mk r flight (S n)) (SseState.mk (release_connection r) flight n).

Definition sse_start : SseState := SseState.mk new_registry [] O.

Definition sse_reachable : SseState → Prop := rtc SseStep sse_start.
