(* ===== verification/Ingest.v ===== *)
(** Crawler-facing request and response types (src/ingest.rs). *)

From S2P Require Import Prelude.
From S2P Require Import Model.

Module RedirectHop.
Record RedirectHop : Type := mk {
  url : string;
  status : Z
}.
#[export] Instance eq_dec : EqDecision RedirectHop.
Proof. solve_decision. Defined.
End RedirectHop.
Abbreviation RedirectHop := RedirectHop.RedirectHop.
#[export] Existing Instance RedirectHop.eq_dec.

Module IngestBlockTag.
Record IngestBlockTag : Type := mk {
  id : option string;
  value : string
}.
#[export] Instance eq_dec : EqDecision IngestBlockTag.
Proof. solve_decision. Defined.
End IngestBlockTag.
Abbreviation IngestBlockTag := IngestBlockTag.IngestBlockTag.
#[export] Existing Instance IngestBlockTag.eq_dec.

Module IngestRemoteFeedRef.
Record IngestRemoteFeedRef : Type := mk {
  position : Z;
  medium : option string;
  remote_feed_guid : string;
  remote_feed_url : option string;
  rel : option string;
  item_guid : option string;
  item_title : option string;
  publisher_reference : bool
}.
#[export] Instance eq_dec : EqDecision IngestRemoteFeedRef.
Proof. solve_decision. Defined.
End IngestRemoteFeedRef.
Abbreviation IngestRemoteFeedRef := IngestRemoteFeedRef.IngestRemoteFeedRef.
#[export] Existing Instance IngestRemoteFeedRef.eq_dec.

Module IngestPerson.
Record IngestPerson : Type := mk {
  position : Z;
  name : string;
  role : option string;
  group_name : option string;
  href : option string;
  img : option string;
  npub : option string
}.
#[export] Instance eq_dec : EqDecision IngestPerson.
Proof. solve_decision. Defined.
End IngestPerson.
Abbreviation IngestPerson := IngestPerson.IngestPerson.
#[export] Existing Instance IngestPerson.eq_dec.

Module IngestEntityId.
Record IngestEntityId : Type := mk {
  position : Z;
  scheme : string;
  value : string
}.
#[export] Instance eq_dec : EqDecision IngestEntityId.
Proof. solve_decision. Defined.
End IngestEntityId.
Abbreviation IngestEntityId := IngestEntityId.IngestEntityId.
#[export] Existing Instance IngestEntityId.eq_dec.

Module IngestLink.
Record IngestLink : Type := mk {
  position : Z;
  link_type : string;
  url : string;
  extraction_path : string;
  label : option string
}.
#[export] Instance eq_dec : EqDecision IngestLink.
Proof. solve_decision. Defined.
End IngestLink.
Abbreviation IngestLink := IngestLink.IngestLink.
#[export] Existing Instance IngestLink.eq_dec.

Module IngestAlternateEnclosure.
Record IngestAlternateEnclosure : Type := mk {
  position : Z;
  url : string;
  mime_type : option string;
  bytes : option Z;
  rel : option string;
  title : option string;
  extraction_path : string
}.
#[export] Instance eq_dec : EqDecision IngestAlternateEnclosure.
Proof. solve_decision. Defined.
End IngestAlternateEnclosure.
Abbreviation IngestAlternateEnclosure := IngestAlternateEnclosure.IngestAlternateEnclosure.
#[export] Existing Instance IngestAlternateEnclosure.eq_dec.

Module IngestTranscript.
Record IngestTranscript : Type := mk {
  position : Z;
  url : string;
  mime_type : option string;
  language : option string;
  rel : option string
}.
#[export] Instance eq_dec : EqDecision IngestTranscript.
Proof. solve_decision. Defined.
End IngestTranscript.
Abbreviation IngestTranscript := IngestTranscript.IngestTranscript.
#[export] Existing Instance IngestTranscript.eq_dec.

Module IngestPaymentRoute.
Record IngestPaymentRoute : Type := mk {
  recipient_name : option string;
  route_type : RouteType;
  address : string;
  custom_key : option string;
  custom_value : option string;
  split : Z;
  fee : bool
}.
#[export] Instance eq_dec : EqDecision IngestPaymentRoute.
Proof. solve_decision. Defined.
End IngestPaymentRoute.
Abbreviation IngestPaymentRoute := IngestPaymentRoute.IngestPaymentRoute.
#[export] Existing Instance IngestPaymentRoute.eq_dec.

Module IngestValueTimeSplit.
Record IngestValueTimeSplit : Type := mk {
  form : ValueTimeSplitForm;
  start_time_secs : f64;
  duration_secs : option f64;
  remote_feed_guid : option string;
  remote_item_guid : option string;
  remote_start_time_secs : option f64;
  remote_percentage : option f64;
  recipients : list IngestPaymentRoute
}.
#[export] Instance eq_dec : EqDecision IngestValueTimeSplit.
Proof. solve_decision. Defined.
End IngestValueTimeSplit.
Abbreviation IngestValueTimeSplit := IngestValueTimeSplit.IngestValueTimeSplit.
#[export] Existing Instance IngestValueTimeSplit.eq_dec.

Module IngestLiveItemData.
Record IngestLiveItemData : Type := mk {
  live_item_guid : string;
  title : string;
  status : string;
  start_at : option Z;
  end_at : option Z;
  content_link : option string;
  pub_date : option Z;
  duration_secs : option Z;
  image_url : option string;
  language : option string;
  enclosure_url : option string;
  enclosure_type : option string;
  enclosure_bytes : option Z;
  alternate_enclosures : list IngestAlternateEnclosure;
  track_number : option Z;
  season : option Z;
  explicit : bool;
  description : option string;
  author_name : option string;
  live_value_uri : option string;
  live_value_protocol : option string;
  remote_items : list IngestRemoteFeedRef;
  persons : list IngestPerson;
  entity_ids : list IngestEntityId;
  links : list IngestLink;
  payment_routes : list IngestPaymentRoute;
  value_time_splits : list IngestValueTimeSplit;
  transcripts : list IngestTranscript
}.
#[export] Instance eq_dec : EqDecision IngestLiveItemData.
Proof. solve_decision. Defined.
End IngestLiveItemData.
Abbreviation IngestLiveItemData := IngestLiveItemData.IngestLiveItemData.
#[export] Existing Instance IngestLiveItemData.eq_dec.

Module IngestTrackData.
Record IngestTrackData : Type := mk {
  track_guid : string;
  title : string;
  pub_date : option Z;
  duration_secs : option Z;
  image_url : option string;
  language : option string;
  enclosure_url : option string;
  enclosure_type : option string;
  enclosure_bytes : option Z;
  alternate_enclosures : list IngestAlternateEnclosure;
  track_number : option Z;
  season : option Z;
  explicit : bool;
  description : option string;
  author_name : option string;
  remote_items : list IngestRemoteFeedRef;
  persons : list IngestPerson;
  entity_ids : list IngestEntityId;
  links : list IngestLink;
  payment_routes : list IngestPaymentRoute;
  value_time_splits : list IngestValueTimeSplit;
  transcripts : list IngestTranscript
}.
#[export] Instance eq_dec : EqDecision IngestTrackData.
Proof. solve_decision. Defined.
End IngestTrackData.
Abbreviation IngestTrackData := IngestTrackData.IngestTrackData.
#[export] Existing Instance IngestTrackData.eq_dec.

Module IngestFeedData.
Record IngestFeedData : Type := mk {
  feed_guid : string;
  title : string;
  description : option string;
  image_url : option string;
  language : option string;
  explicit : bool;
  itunes_type : option string;
  raw_medium : option string;
  author_name : option string;
  owner_name : option string;
  pub_date : option Z;
  last_build_date : option Z;
  new_feed_url : option string;
  locked : option bool;
  locked_owner : option string;
  remote_items : list IngestRemoteFeedRef;
  persons : list IngestPerson;
  entity_ids : list IngestEntityId;
  links : list IngestLink;
  feed_payment_routes : list IngestPaymentRoute;
  live_items : list IngestLiveItemData;
  blocks : list IngestBlockTag;
  tracks : list IngestTrackData
}.
#[export] Instance eq_dec : EqDecision IngestFeedData.
Proof. solve_decision. Defined.
End IngestFeedData.
Abbreviation IngestFeedData := IngestFeedData.IngestFeedData.
#[export] Existing Instance IngestFeedData.eq_dec.

Module IngestFeedRequest.
Record IngestFeedRequest : Type := mk {
  canonical_url : string;
  source_url : string;
  crawl_token : string;
  http_status : Z;
  content_hash : string;
  feed_data : option IngestFeedData;
  force_reingest : bool;
  redirects : list RedirectHop
}.
#[export] Instance eq_dec : EqDecision IngestFeedRequest.
Proof. solve_decision. Defined.
End IngestFeedRequest.
Abbreviation IngestFeedRequest := IngestFeedRequest.IngestFeedRequest.
#[export] Existing Instance IngestFeedRequest.eq_dec.

Module IngestResponse.
Record IngestResponse : Type := mk {
  accepted : bool;
  reason : option string;
  events_emitted : list string;
  no_change : bool;
  warnings : list string;
  source_url : option string
}.
#[export] Instance eq_dec : EqDecision IngestResponse.
Proof. solve_decision. Defined.
End IngestResponse.
Abbreviation IngestResponse := IngestResponse.IngestResponse.
#[export] Existing Instance IngestResponse.eq_dec.

