(* ===== verification/Crates.v ===== *)
(** The third-party code that the modelled code calls, as classes: that of
    every component, and the url and uuid crates. *)

From S2P Require Import Prelude.
From S2P Require Import Model.
From S2P Require Import Event.
From S2P Require Import Ingest.

(** The third-party crates the modelled code calls, as a class. Nothing of
    them is under src/, so nothing of them is defined here: an operation of
    the class is an argument of each definition that uses it, and what a
    theorem needs of one is a hypothesis of the theorem.

    [table_crates] at the end is a concrete instance: the JSON of a payload
    is its place in a table, the hash of a text is computed from its bytes. *)

Class Crates : Type := {
  (** [serde_json::to_string] of a payload struct. *)
  event_json : EventPayload → string;
  (** [serde_json::from_str] of [{"type": .., "data": ..}] to an
      [EventPayload], from the type and the data. *)
  parse_event : EventType → string → option EventPayload;
  (** [serde_json::to_string] of an [EventSigningPayload]. *)
  signing_json : EventSigningPayload → string;
  (** [serde_json::to_string(&(a, b))]. *)
  pair_json : string → string → string;
  (** [serde_json::to_vec] of the digest fields of a copy summary, and of a
      list of its remote items. *)
  copy_digest_json : list string → list RouteRecipient →
    gmap string (list RouteRecipient) → string;
  copy_items_json : list CopyRemoteItem → string;
  (** [siphasher::sip::SipHasher24] with zero keys over bytes: a [u64]. *)
  siphash24 : string → Z;
  (** [sha2::Sha256::digest] and [ed25519_dalek], on hexadecimal text: the
      public key of a secret key, the signature of a digest, and whether a
      signature verifies. *)
  sha256 : string → string;
  public_key : string → string;
  ed25519_sign : string → string → string;
  ed25519_verify : string → string → string → bool;
  (** [uuid::Uuid::new_v4] of the n-th call. *)
  new_v4 : nat → string;
  (** [str::to_lowercase] on text that is not ASCII, where it follows the
      Unicode tables. *)
  unicode_lowercase : string → string
}.

(** [serde] reads back what it wrote. *)
Definition decodes `{Crates} (p : EventPayload) : Prop :=
  parse_event (payload_type p) (event_json p) = Some p.

(** [str::to_lowercase]. *)
Fixpoint is_ascii (s : string) : bool :=
  match s with
  | EmptyString => true
  | String a r => (byte_of a <? 128) && is_ascii r
  end.

Definition to_lowercase `{Crates} (s : string) : string :=
  if is_ascii s then to_ascii_lowercase s else unicode_lowercase s.

(** ** A concrete instance *)

(** The place of [x] in [l]. *)
Fixpoint index_of {A} `{EqDecision A} (x : A) (l : list A) : nat :=
  match l with
  | [] => 0
  | y :: r => if decide (x = y) then 0 else S (index_of x r)
  end.

Lemma index_of_lookup {A} `{EqDecision A} (x : A) l :
  x ∈ l → l !! index_of x l = Some x.
Proof.
  induction l as [|y l IH]; simpl; [set_solver|].
  intros Hx. case_decide; [by subst|]. apply IH. set_solver.
Qed.

Lemma index_of_out {A} `{EqDecision A} (x : A) l : x ∉ l → index_of x l = length l.
Proof.
  induction l as [|y l IH]; simpl; intros Hx; [done|].
  rewrite decide_False by set_solver. f_equal. apply IH. set_solver.
Qed.

(** Unary notation of a number. *)
Fixpoint tally (n : nat) : string :=
  match n with
  | O => ""
  | S m => String "1" (tally m)
  end.

Fixpoint byte_sum (s : string) : Z :=
  match s with
  | EmptyString => 7
  | String a r => (byte_of a + 131 * byte_sum r) mod 2 ^ 64
  end.

Definition table_crates (payloads : list EventPayload) : Crates := {|
  event_json := λ p, String "{" (tally (index_of p payloads));
  parse_event := λ t s,
    match payloads !! pred (String.length s) with
    | Some p => if decide (payload_type p = t) then Some p else None
    | None => None
    end;
  signing_json := λ p, (EventSigningPayload.event_id p ++ EventSigningPayload.payload_json p
    ++ EventSigningPayload.subject_guid p ++ pretty (EventSigningPayload.seq p))%string;
  pair_json := λ a b,
    String "[" (String "034" (tally (String.length a) ++ "," ++ a ++ b)%string);
  copy_digest_json := λ items feed tracks, String.concat "," items;
  copy_items_json := λ items, String.concat "," (CopyRemoteItem.feed_guid <$> items);
  siphash24 := byte_sum;
  sha256 := λ s, pretty (byte_sum s);
  public_key := λ k, ("pub" ++ k)%string;
  ed25519_sign := λ k d, (k ++ d)%string;
  ed25519_verify := λ p d s, p ++ d =s "pub" ++ s;
  new_v4 := λ n, ("id" ++ tally n)%string;
  unicode_lowercase := to_ascii_lowercase
|}.

Lemma tally_length n : String.length (tally n) = n.
Proof. induction n; simpl; congruence. Qed.

Lemma table_decodes l p : p ∈ l → @decodes (table_crates l) p.
Proof.
  intros Hp. unfold decodes. cbn. rewrite tally_length, index_of_lookup by done.
  by rewrite decide_True.
Qed.

(** The instance's signatures verify, with the key that made them. *)
Lemma table_verify l k d :
  @ed25519_verify (table_crates l) (@public_key (table_crates l) k) d
    (@ed25519_sign (table_crates l) k d) = true.
Proof. cbn. apply String.eqb_refl. Qed.

(** What the node asks of the [url] and [uuid] crates, and the tests on URLs and
    GUIDs that are built on it (src/model.rs, src/api.rs, src/ingest.rs). *)

Class Web : Type := {
  (** [url::Url::parse], when it is [Ok]: the scheme and [host_str]. *)
  parse_url : string → option (string * option string);
  (** Whether [uuid::Uuid::parse_str] is [Ok]. *)
  parse_uuid : string → bool;
  (** [uuid::Uuid::new_v5] in [GUID_ORIGIN_NAMESPACE], as text. *)
  new_v5 : string → string
}.

(** A concrete instance: [scheme://host/rest] has its scheme and host, a UUID
    is a text of 36 bytes, and the derived GUID repeats the name. *)
Fixpoint before (c : ascii) (s : string) : string :=
  match s with
  | EmptyString => ""
  | String a r => if Ascii.eqb a c then "" else String a (before c r)
  end.

(** [str::split_once] of ["://"]. *)
Fixpoint split_scheme (s : string) : option (string * string) :=
  match s with
  | EmptyString => None
  | String a r =>
      if String.prefix "://" s then Some (""%string, String.substring 3 (String.length s - 3) s)
      else match split_scheme r with
           | Some (b, c) => Some (String a b, c)
           | None => None
           end
  end.

Definition plain_web : Web := {|
  parse_url := λ s,
    match split_scheme s with
    | Some (scheme, rest) => Some (scheme, Some (before "/"%char rest))
    | None => None
    end;
  parse_uuid := λ s, (String.length s =? 36)%nat;
  new_v5 := λ name, ("v5-" ++ name)%string
|}.

Section web.
Context `{Web}.

(** ** GUIDs derived from a URL *)

(** [str::strip_suffix] of ["/"]. *)
Fixpoint strip_slash (s : string) : string :=
  match s with
  | EmptyString => ""
  | String a EmptyString => if Ascii.eqb a "/"%char then "" else s
  | String a r => String a (strip_slash r)
  end.

Definition guid_origin_matches (feed_guid url : string) : bool :=
  let without_scheme :=
    match split_scheme url with Some (_, rest) => rest | None => url end in
  let name := strip_slash without_scheme in
  eq_ignore_ascii_case (new_v5 name) feed_guid.

(** ** URLs of a web page *)

Definition is_web_scheme (scheme : string) : bool := (scheme =s "http") || (scheme =s "https").

Definition web_url_or_none (value : option string) : option string :=
  match value with
  | None => None
  | Some raw =>
      match parse_url raw with
      | Some (scheme, _) => if is_web_scheme scheme then Some raw else None
      | None => None
      end
  end.

Definition is_non_web (value : option string) : bool :=
  is_some value && negb (is_some (web_url_or_none value)).

Definition is_non_web_scheme (value : option string) : bool :=
  is_some_and (λ v,
    is_some_and (λ '(scheme, _), negb (is_web_scheme scheme)) (parse_url v)) value.

Definition url_host (url : string) : option string :=
  parsed ← parse_url url; parsed.2.

(** [source_gone_url_host] *)
Definition source_gone_url_host (url : string) : option string :=
  to_ascii_lowercase <$> url_host url.

(** [live::is_confirming_relay] *)
Definition is_confirming_relay (uri : option string) (hosts : list string) : bool :=
  match uri with
  | None => false
  | Some uri =>
      match parse_url uri with
      | None => false
      | Some (scheme, host) =>
          if scheme ≠s "https" then false
          else match host with
               | None => false
               | Some host => existsb (λ listed, eq_ignore_ascii_case listed host) hosts
               end
      end
  end.

(** ** Platforms *)

Definition classify_platform_url (url : string) : option string :=
  match (λ h, to_ascii_lowercase (str_trim h)) <$> url_host url with
  | None => None
  | Some host =>
      if (host =s "wavlake.com") || (host =s "www.wavlake.com") then Some "wavlake"
      else if (host =s "fountain.fm") || (host =s "www.fountain.fm")
              || (host =s "feeds.fountain.fm") then Some "fountain"
      else if (host =s "rssblue.com") || (host =s "www.rssblue.com")
              || (host =s "feeds.rssblue.com") then Some "rss_blue"
      else if (host =s "podhome.fm") || (host =s "serve.podhome.fm") then Some "podhome"
      else if (host =s "justcast.com") || (host =s "feed.justcast.com") then Some "justcast"
      else None
  end%string.
End web.

Definition classify_platform_owner (owner_name : string) : option string :=
  let name := to_ascii_lowercase (str_trim owner_name) in
  (if name =s "wavlake" then Some "wavlake"
   else if name =s "fountain" then Some "fountain"
   else if (name =s "rss blue") || (name =s "rssblue") then Some "rss_blue"
   else if name =s "podhome" then Some "podhome"
   else if name =s "justcast" then Some "justcast"
   else None)%string.

(** ** The [podcast:block] tags of a body (ADR 0057) *)

Definition INDEX_SLUG : string := "musicindex".

Definition source_blocks_this_index `{Crates} (blocks : list IngestBlockTag) : bool :=
  let normalized := λ text, to_lowercase (str_trim text) in
  let is_this_index := λ tag,
    is_some_and (λ id, normalized id =s INDEX_SLUG) (IngestBlockTag.id tag) in
  let has := λ (this_index : bool) value,
    existsb (λ tag,
      (if this_index then is_this_index tag
       else is_none_or (λ id, str_is_empty (str_trim id)) (IngestBlockTag.id tag))
      && (normalized (IngestBlockTag.value tag) =s value)) blocks in
  if has true "no"%string then false
  else has true "yes"%string || has false "yes"%string.
