(* ===== verification/Live.v ===== *)
(** The rules for a live item (src/live.rs, ADR 0064): which items of a
    submission become rows, and which rows a view shows. *)

From S2P Require Import Prelude.
From S2P Require Import Model.
From S2P Require Import Ingest.

Definition MAX_ACTIVE_LIVE_ROWS : nat := 10.
Definition MAX_ENDED_LIVE_ROWS : nat := 10.
Definition MAX_UNRELAYED_LIVE_SECS : Z := 21600.

Definition has_relay_link (item : IngestLiveItemData) : bool :=
  is_some_and (λ uri, negb (str_is_empty uri)) (IngestLiveItemData.live_value_uri item).

(** [end_at - start_at] wraps in the release profile. *)
Definition is_banned_live_item (item : IngestLiveItemData) : bool :=
  if negb (eq_ignore_ascii_case (IngestLiveItemData.status item) "live")
     || has_relay_link item then false
  else match IngestLiveItemData.start_at item, IngestLiveItemData.end_at item with
       | Some start_at, Some end_at => MAX_UNRELAYED_LIVE_SECS <? i64_sub end_at start_at
       | _, _ => true
       end.

(** ** Selection *)

Definition known_status (item : IngestLiveItemData) : bool :=
  let s := to_ascii_lowercase (IngestLiveItemData.status item) in
  (s =s "pending") || (s =s "live") || (s =s "ended").

Definition is_ended (item : IngestLiveItemData) : bool :=
  eq_ignore_ascii_case (IngestLiveItemData.status item) "ended".

Definition item_guid (item : IngestLiveItemData) : string :=
  IngestLiveItemData.live_item_guid item.

Definition unknown_status_warning (item : IngestLiveItemData) : string :=
  "dropped live item " ++ item_guid item ++ ": unknown status "
  ++ IngestLiveItemData.status item ++ " (ADR 0064 section 4)".

Definition duplicate_warning (item : IngestLiveItemData) : string :=
  "dropped duplicate live_item_guid " ++ item_guid item ++ " (ADR 0064 section 4)".

Definition banned_warning (item : IngestLiveItemData) : string :=
  "dropped live item " ++ item_guid item
  ++ ": no relay link and no start/end window of at most "
  ++ pretty (MAX_UNRELAYED_LIVE_SECS / 3600) ++ " hours (ADR 0064 section 4)".

Definition active_warning (item : IngestLiveItemData) : string :=
  "dropped live item " ++ item_guid item ++ ": more than "
  ++ pretty MAX_ACTIVE_LIVE_ROWS ++ " pending or live items (ADR 0064 section 4)".

Definition ended_warning (item : IngestLiveItemData) : string :=
  "dropped live item " ++ item_guid item ++ ": more than "
  ++ pretty MAX_ENDED_LIVE_ROWS ++ " ended items (ADR 0064 section 4)".

(** The loop of steps 1 and 3: what passes the test, and a warning for each
    item that does not. *)
Fixpoint keep_items (keep : IngestLiveItemData → bool) (warn : IngestLiveItemData → string)
    (items : list IngestLiveItemData) : list IngestLiveItemData * list string :=
  match items with
  | [] => ([], [])
  | item :: rest =>
      let '(kept, warnings) := keep_items keep warn rest in
      if keep item then (item :: kept, warnings) else (kept, warn item :: warnings)
  end.

(** Step 2. *)
Fixpoint first_of_guid (seen : list string) (items : list IngestLiveItemData) :
    list IngestLiveItemData * list string :=
  match items with
  | [] => ([], [])
  | item :: rest =>
      if decide (item_guid item ∈ seen) then
        let '(kept, warnings) := first_of_guid seen rest in
        (kept, duplicate_warning item :: warnings)
      else
        let '(kept, warnings) := first_of_guid (item_guid item :: seen) rest in
        (item :: kept, warnings)
  end.

(** Step 4. *)
Fixpoint active_loop (active_kept : nat) (items : list IngestLiveItemData) :
    list string * list string :=
  match items with
  | [] => ([], [])
  | item :: rest =>
      if is_ended item then active_loop active_kept rest
      else if (active_kept <? MAX_ACTIVE_LIVE_ROWS)%nat then
        let '(guids, warnings) := active_loop (S active_kept) rest in
        (item_guid item :: guids, warnings)
      else
        let '(guids, warnings) := active_loop active_kept rest in
        (guids, active_warning item :: warnings)
  end.

(** The order of step 5: the newest [start_at] first, none last. *)
Definition newest_first (a b : IngestLiveItemData) : bool :=
  match IngestLiveItemData.start_at a, IngestLiveItemData.start_at b with
  | Some a_start, Some b_start => b_start <=? a_start
  | Some _, None => true
  | None, Some _ => false
  | None, None => true
  end.

Definition ended_items (survivors : list IngestLiveItemData) : list IngestLiveItemData :=
  sort_by newest_first (List.filter is_ended survivors).

Definition select_live_items (items : list IngestLiveItemData) :
    list IngestLiveItemData * list string :=
  let '(known, warnings1) := keep_items known_status unknown_status_warning items in
  let '(deduped, warnings2) := first_of_guid [] known in
  let '(survivors, warnings3) :=
    keep_items (λ i, negb (is_banned_live_item i)) banned_warning deduped in
  let '(active_guids, warnings4) := active_loop 0 survivors in
  let ended := ended_items survivors in
  let kept_guids := active_guids ++ (item_guid <$> take MAX_ENDED_LIVE_ROWS ended) in
  let warnings5 := ended_warning <$> drop MAX_ENDED_LIVE_ROWS ended in
  (List.filter (λ i, bool_decide (item_guid i ∈ kept_guids)) survivors,
   warnings1 ++ warnings2 ++ warnings3 ++ warnings4 ++ warnings5).

(** ** Views *)

Definition LIVE_END_MARGIN_SECS : Z := 3600.
Definition PENDING_START_MARGIN_SECS : Z := 3600.

Definition in_now_view (row : LiveEvent) (now : Z) (confirming : bool) : bool :=
  if negb (eq_ignore_ascii_case (LiveEvent.status row) "live") then false
  else if confirming then true
  else match LiveEvent.scheduled_end row with
       | None => true
       | Some scheduled_end => now <? i64_add scheduled_end LIVE_END_MARGIN_SECS
       end.

Definition in_upcoming_view (row : LiveEvent) (now : Z) : bool :=
  if negb (eq_ignore_ascii_case (LiveEvent.status row) "pending") then false
  else match LiveEvent.scheduled_end row with
       | Some scheduled_end => now <? scheduled_end
       | None =>
           match LiveEvent.scheduled_start row with
           | Some scheduled_start => now <? i64_add scheduled_start PENDING_START_MARGIN_SECS
           | None => false
           end
       end.

(** ** Facts of the selection *)

(** What steps 1 to 3 leave. *)
Definition survivors (items : list IngestLiveItemData) : list IngestLiveItemData :=
  let known := (keep_items known_status unknown_status_warning items).1 in
  let deduped := (first_of_guid [] known).1 in
  (keep_items (λ i, negb (is_banned_live_item i)) banned_warning deduped).1.

Lemma keep_items_filter keep warn items :
  (keep_items keep warn items).1 = List.filter keep items.
Proof.
  induction items as [|i items IH]; [done|]. cbn [keep_items List.filter]. rewrite <-IH.
  destruct (keep_items keep warn items), (keep i); done.
Qed.

Lemma keep_items_count keep warn items :
  (length (keep_items keep warn items).1 + length (keep_items keep warn items).2
   = length items)%nat.
Proof.
  induction items as [|i items IH]; [done|]. cbn [keep_items].
  destruct (keep_items keep warn items), (keep i); cbn in *; lia.
Qed.

Lemma first_of_guid_dedupe seen items :
  (first_of_guid seen items).1 = dedupe_go item_guid seen items.
Proof.
  revert seen. induction items as [|i items IH]; intros seen; [done|].
  cbn [first_of_guid dedupe_go]. case_decide.
  - rewrite <-IH. by destruct (first_of_guid seen items).
  - rewrite <-IH. by destruct (first_of_guid (item_guid i :: seen) items).
Qed.

Lemma first_of_guid_count seen items :
  (length (first_of_guid seen items).1 + length (first_of_guid seen items).2
   = length items)%nat.
Proof.
  revert seen. induction items as [|i items IH]; intros seen; [done|].
  cbn [first_of_guid]. case_decide.
  - specialize (IH seen). destruct (first_of_guid seen items); cbn in *; lia.
  - specialize (IH (item_guid i :: seen)).
    destruct (first_of_guid (item_guid i :: seen) items); cbn in *; lia.
Qed.

Definition active_items (l : list IngestLiveItemData) : list IngestLiveItemData :=
  List.filter (λ i, negb (is_ended i)) l.

Lemma active_loop_take n l :
  (n ≤ MAX_ACTIVE_LIVE_ROWS)%nat →
  active_loop n l =
  (item_guid <$> take (MAX_ACTIVE_LIVE_ROWS - n) (active_items l),
   active_warning <$> drop (MAX_ACTIVE_LIVE_ROWS - n) (active_items l)).
Proof.
  revert n. induction l as [|i l IH]; intros n Hn.
  { unfold active_items. cbn [List.filter]. by rewrite take_nil, drop_nil. }
  cbn [active_loop active_items List.filter]. destruct (is_ended i); [by apply IH|].
  cbn [negb]. destruct (n <? MAX_ACTIVE_LIVE_ROWS)%nat eqn:E.
  - apply Nat.ltb_lt in E. rewrite IH by lia.
    replace (MAX_ACTIVE_LIVE_ROWS - n)%nat with (S (MAX_ACTIVE_LIVE_ROWS - S n)) by lia. done.
  - apply Nat.ltb_ge in E. rewrite IH by lia.
    by replace (MAX_ACTIVE_LIVE_ROWS - n)%nat with 0%nat by lia.
Qed.

(** Elements of a list are told apart by their keys, so picking by key gives
    the picked ones. *)
Lemma filter_keys {A K} `{EqDecision K} (key : A → K) (l s : list A) :
  NoDup (key <$> l) → NoDup s → (∀ x, x ∈ s → x ∈ l) →
  List.filter (λ x, bool_decide (key x ∈ key <$> s)) l ≡ₚ s.
Proof.
  intros Hl Hs Hsub. apply NoDup_Permutation; [|done|].
  - eapply sublist_NoDup; [apply filter_sublist|]. by eapply NoDup_fmap_1.
  - intros x. rewrite elem_of_filterb, bool_decide_eq_true. split.
    + intros [(y & Hk & Hy)%list_elem_of_fmap Hx].
      assert (x = y) as ->; [|done]. eapply (NoDup_fmap_inj key l); eauto.
    + intros Hx. split; [by apply list_elem_of_fmap_2|auto].
Qed.

Lemma survivors_sublist items : sublist (survivors items) items.
Proof.
  unfold survivors. rewrite !keep_items_filter, first_of_guid_dedupe.
  etrans; [apply filter_sublist|]. etrans; [apply dedupe_go_sublist|]. apply filter_sublist.
Qed.

Lemma survivors_NoDup items : NoDup (item_guid <$> survivors items).
Proof.
  unfold survivors. rewrite keep_items_filter, first_of_guid_dedupe.
  eapply sublist_NoDup; [apply sublist_fmap, filter_sublist|apply dedupe_go_NoDup].
Qed.

Lemma survivors_status items i :
  i ∈ survivors items → known_status i = true ∧ is_banned_live_item i = false.
Proof.
  unfold survivors. rewrite !keep_items_filter, first_of_guid_dedupe, elem_of_filterb.
  intros [Hb Hi]. split; [|by apply negb_true_iff].
  eapply sublist_elem in Hi; [|apply dedupe_go_sublist].
  by apply elem_of_filterb in Hi as [? _].
Qed.

(** The rows that steps 4 and 5 choose. *)
Definition chosen (items : list IngestLiveItemData) : list IngestLiveItemData :=
  take MAX_ACTIVE_LIVE_ROWS (active_items (survivors items))
  ++ take MAX_ENDED_LIVE_ROWS (ended_items (survivors items)).

Lemma ended_items_perm l : ended_items l ≡ₚ List.filter is_ended l.
Proof. apply sort_by_perm. Qed.

Lemma active_ended_perm l : active_items l ++ ended_items l ≡ₚ l.
Proof.
  rewrite ended_items_perm. unfold active_items.
  induction l as [|i l IH]; [done|]. cbn [List.filter]. destruct (is_ended i); cbn [negb].
  - rewrite <-Permutation_middle. by constructor.
  - cbn [app]. by constructor.
Qed.

Lemma chosen_elem items i : i ∈ chosen items → i ∈ survivors items.
Proof.
  intros Hi. rewrite <-(active_ended_perm (survivors items)).
  apply elem_of_app in Hi as [Hi|Hi]; apply elem_of_take in Hi as (n & Hn & _);
    apply list_elem_of_lookup_2 in Hn; set_solver.
Qed.

Lemma chosen_NoDup items : NoDup (chosen items).
Proof.
  assert (NoDup (active_items (survivors items) ++ ended_items (survivors items))) as H.
  { rewrite active_ended_perm. eapply NoDup_fmap_1, survivors_NoDup. }
  eapply sublist_NoDup; [|exact H].
  apply sublist_app; apply sublist_take.
Qed.

Lemma select_live_items_chosen items :
  (select_live_items items).1
  = List.filter (λ i, bool_decide (item_guid i ∈ item_guid <$> chosen items)) (survivors items).
Proof.
  unfold select_live_items, survivors, chosen, survivors.
  destruct (keep_items known_status _ items) as [known w1]. cbn [fst].
  destruct (first_of_guid [] known) as [deduped w2]. cbn [fst].
  destruct (keep_items _ banned_warning deduped) as [left w3]. cbn [fst].
  rewrite active_loop_take by (unfold MAX_ACTIVE_LIVE_ROWS; lia).
  rewrite Nat.sub_0_r. cbn [fst]. by rewrite fmap_app.
Qed.

Lemma select_live_items_perm items : (select_live_items items).1 ≡ₚ chosen items.
Proof.
  rewrite select_live_items_chosen.
  apply filter_keys; [apply survivors_NoDup|apply chosen_NoDup|apply chosen_elem].
Qed.

Lemma select_live_items_warnings items :
  length (select_live_items items).2
  = (length (keep_items known_status unknown_status_warning items).2
     + length (first_of_guid [] (keep_items known_status unknown_status_warning items).1).2
     + length (keep_items (λ i, negb (is_banned_live_item i)) banned_warning
         (first_of_guid [] (keep_items known_status unknown_status_warning items).1).1).2
     + length (drop MAX_ACTIVE_LIVE_ROWS (active_items (survivors items)))
     + length (drop MAX_ENDED_LIVE_ROWS (ended_items (survivors items))))%nat.
Proof.
  unfold select_live_items, survivors.
  destruct (keep_items known_status _ items) as [known w1]. cbn [fst snd].
  destruct (first_of_guid [] known) as [deduped w2]. cbn [fst snd].
  destruct (keep_items _ banned_warning deduped) as [left w3]. cbn [fst snd].
  rewrite active_loop_take by (unfold MAX_ACTIVE_LIVE_ROWS; lia).
  rewrite Nat.sub_0_r. cbn [snd]. rewrite !length_app, !length_fmap. lia.
Qed.

(** One warning for each item that is not kept. *)
Lemma select_live_items_count items :
  (length (select_live_items items).1 + length (select_live_items items).2
   = length items)%nat.
Proof.
  rewrite select_live_items_warnings, select_live_items_perm. unfold chosen.
  pose proof (keep_items_count known_status unknown_status_warning items) as H1.
  pose proof (first_of_guid_count []
    (keep_items known_status unknown_status_warning items).1) as H2.
  pose proof (keep_items_count (λ i, negb (is_banned_live_item i)) banned_warning
    (first_of_guid [] (keep_items known_status unknown_status_warning items).1).1) as H3.
  fold (survivors items) in H3.
  pose proof (Permutation_length (active_ended_perm (survivors items))) as H4.
  rewrite length_app in H4 |- *.
  rewrite <-(take_drop MAX_ACTIVE_LIVE_ROWS (active_items (survivors items))) in H4 at 1.
  rewrite <-(take_drop MAX_ENDED_LIVE_ROWS (ended_items (survivors items))) in H4 at 1.
  rewrite !length_app in H4. lia.
Qed.

(** The chosen active and ended items, apart. *)
Lemma chosen_active items :
  active_items (chosen items) = take MAX_ACTIVE_LIVE_ROWS (active_items (survivors items)).
Proof.
  unfold active_items at 1. unfold chosen. rewrite List.filter_app.
  rewrite filter_all, filter_none, app_nil_r; [done| |].
  - intros x Hx. eapply sublist_elem in Hx; [|apply sublist_take]. unfold ended_items in Hx.
    rewrite sort_by_perm in Hx. apply elem_of_filterb in Hx as [-> _]. done.
  - intros x Hx. eapply sublist_elem in Hx; [|apply sublist_take].
    by apply elem_of_filterb in Hx as [? _].
Qed.

Lemma chosen_ended items :
  List.filter is_ended (chosen items)
  = take MAX_ENDED_LIVE_ROWS (ended_items (survivors items)).
Proof.
  unfold chosen. rewrite List.filter_app, filter_none, filter_all; [done| |].
  - intros x Hx. eapply sublist_elem in Hx; [|apply sublist_take]. unfold ended_items in Hx.
    rewrite sort_by_perm in Hx. by apply elem_of_filterb in Hx as [? _].
  - intros x Hx. eapply sublist_elem in Hx; [|apply sublist_take].
    apply elem_of_filterb in Hx as [Hx _]. by apply negb_true_iff.
Qed.

Lemma newest_first_total a b : newest_first a b = true ∨ newest_first b a = true.
Proof.
  unfold newest_first.
  destruct (IngestLiveItemData.start_at a), (IngestLiveItemData.start_at b); auto.
  rewrite !Z.leb_le. lia.
Qed.

Lemma newest_first_trans a b c :
  newest_first a b = true → newest_first b c = true → newest_first a c = true.
Proof.
  unfold newest_first.
  destruct (IngestLiveItemData.start_at a), (IngestLiveItemData.start_at b),
    (IngestLiveItemData.start_at c); auto; try done.
  rewrite !Z.leb_le. lia.
Qed.

(** What is taken of the ended items comes before what is dropped. *)
Lemma ended_taken_first n l i j :
  i ∈ take n (ended_items l) → j ∈ drop n (ended_items l) → newest_first i j = true.
Proof.
  assert (StronglySorted (leR newest_first) (ended_items l)) as Hs.
  { apply sort_by_sorted; [apply newest_first_total|apply newest_first_trans]. }
  rewrite <-(take_drop n (ended_items l)) in Hs. intros Hi Hj.
  induction (take n (ended_items l)) as [|x t IH]; [set_solver|].
  cbn [app] in Hs. apply StronglySorted_inv in Hs as [Hs Hx].
  apply elem_of_cons in Hi as [->|Hi]; [|auto].
  rewrite List.Forall_forall in Hx. apply Hx, list_elem_of_In. set_solver.
Qed.
