(* ===== verification/Claims.v ===== *)
(** The rows that a submission claims (src/api.rs): value time splits,
    contributors, ids, links, enclosures, transcripts, platforms, release
    claims, and the artist of the release. *)

From S2P Require Import Prelude.
From S2P Require Import Model.
From S2P Require Import Ingest.
From S2P Require Import Event.
From S2P Require Import Crates.

(** [i64::try_from(n).unwrap_or(i64::MAX)] of a [usize]. *)
Definition i64_of_usize (n : nat) : Z := Z.min (Z.of_nat n) i64_max.

(** ** Text *)

Definition non_empty_trimmed (value : option string) : option string :=
  match value with
  | None => None
  | Some v => let v := str_trim v in if str_is_empty v then None else Some v
  end.

Definition normalize_role (role : option string) : option string :=
  match role with
  | None => None
  | Some role =>
      let role := str_trim role in
      if str_is_empty role then None
      else Some (String.concat " " (to_ascii_lowercase <$> split_whitespace role))
  end.

(** ** Artist and publisher (ADR 0049 §5) *)

Definition is_platform_owner_name (name : string) : bool := is_some (classify_platform_owner name).

Definition derive_release_artist (feed_data : IngestFeedData) : string * string :=
  match non_empty_trimmed (IngestFeedData.author_name feed_data) with
  | Some author_name => (author_name, "itunes_author"%string)
  | None =>
      match non_empty_trimmed (IngestFeedData.owner_name feed_data) with
      | Some owner_name =>
          if negb (is_platform_owner_name owner_name)
          then (owner_name, "itunes_owner"%string)
          else ("Unknown Artist"%string, "placeholder"%string)
      | None => ("Unknown Artist"%string, "placeholder"%string)
      end
  end.

Definition derive_publisher_name (feed_data : IngestFeedData) : option string :=
  non_empty_trimmed (IngestFeedData.owner_name feed_data).

(** ** Value time splits (ADR 0073) *)

Definition non_blank (value : option string) : bool :=
  is_some_and (λ text, negb (str_is_empty (str_trim text))) value.

Definition value_time_split_valid (v : IngestValueTimeSplit) : bool :=
  let no_recipients :=
    match IngestValueTimeSplit.recipients v with [] => true | _ => false end in
  match IngestValueTimeSplit.form v with
  | ValueTimeSplitForm.Remote =>
      non_blank (IngestValueTimeSplit.remote_feed_guid v) && no_recipients
  | ValueTimeSplitForm.Local =>
      negb no_recipients && negb (non_blank (IngestValueTimeSplit.remote_feed_guid v))
      && negb (non_blank (IngestValueTimeSplit.remote_item_guid v))
  end.

Definition value_time_split_recipient (r : IngestPaymentRoute) : ValueTimeSplitRecipient :=
  ValueTimeSplitRecipient.mk (IngestPaymentRoute.recipient_name r)
    (IngestPaymentRoute.route_type r) (IngestPaymentRoute.address r)
    (IngestPaymentRoute.custom_key r) (IngestPaymentRoute.custom_value r)
    (IngestPaymentRoute.split r) (IngestPaymentRoute.fee r).

Fixpoint value_time_splits_from (index : nat) (feed_guid track_guid : string)
    (splits : list IngestValueTimeSplit) (now : Z) : list ValueTimeSplit :=
  match splits with
  | [] => []
  | v :: rest =>
      if negb (value_time_split_valid v)
      then value_time_splits_from (S index) feed_guid track_guid rest now
      else
        ValueTimeSplit.mk None feed_guid track_guid (i64_of_usize index)
          (IngestValueTimeSplit.form v) (IngestValueTimeSplit.start_time_secs v)
          (IngestValueTimeSplit.duration_secs v) (IngestValueTimeSplit.remote_feed_guid v)
          (IngestValueTimeSplit.remote_item_guid v)
          (IngestValueTimeSplit.remote_start_time_secs v)
          (IngestValueTimeSplit.remote_percentage v)
          (value_time_split_recipient <$> IngestValueTimeSplit.recipients v) now
        :: value_time_splits_from (S index) feed_guid track_guid rest now
  end.

Definition build_value_time_splits (feed_guid track_guid : string)
    (splits : list IngestValueTimeSplit) (now : Z) : list ValueTimeSplit :=
  value_time_splits_from 0 feed_guid track_guid splits now.

(** ** Claims of an entity *)

Definition build_source_contributor_claims (feed_guid entity_type entity_id : string)
    (persons : list IngestPerson) (now : Z) : list SourceContributorClaim :=
  imap (λ position person,
    SourceContributorClaim.mk None feed_guid entity_type entity_id
      (wrap64 (Z.of_nat position)) (IngestPerson.name person) (IngestPerson.role person)
      (normalize_role (IngestPerson.role person)) (IngestPerson.group_name person)
      (IngestPerson.href person) (IngestPerson.img person) (IngestPerson.npub person)
      "podcast_person" (entity_type ++ ".podcast:person") now) persons.

Definition build_source_entity_id_claims (feed_guid entity_type entity_id : string)
    (entity_ids : list IngestEntityId) (now : Z) : list SourceEntityIdClaim :=
  (λ claim,
    SourceEntityIdClaim.mk None feed_guid entity_type entity_id
      (IngestEntityId.position claim) (IngestEntityId.scheme claim)
      (IngestEntityId.value claim) "podcast_txt" (entity_type ++ ".podcast:txt") now)
  <$> dedupe_by (λ c, (IngestEntityId.scheme c, IngestEntityId.value c)) entity_ids.

Definition default_link_path (link_type : string) : string :=
  (if link_type =s "self_feed" then "feed.atom:link[@rel='self']"
   else if link_type =s "website" then "feed.link[*]"
   else if link_type =s "web_page" then "entity.link[*]"
   else if link_type =s "content_stream" then "live_item.@contentLink"
   else "entity.link")%string.

Definition build_source_entity_links (feed_guid entity_type entity_id : string)
    (links : list IngestLink) (now : Z) : list SourceEntityLink :=
  (λ link,
    let extraction_path :=
      if str_is_empty (str_trim (IngestLink.extraction_path link))
      then default_link_path (IngestLink.link_type link)
      else IngestLink.extraction_path link in
    SourceEntityLink.mk None feed_guid entity_type entity_id (IngestLink.position link)
      (IngestLink.link_type link) (IngestLink.url link)
      (if IngestLink.link_type link =s "funding" then "podcast_funding" else "rss_link")
      extraction_path now (IngestLink.label link))
  <$> dedupe_by (λ l, (IngestLink.link_type l, IngestLink.url l)) links.

(** The loop over the alternate enclosures: the URLs seen and the number of
    rows so far. *)
Fixpoint alternate_rows (feed_guid entity_type entity_id : string) (now : Z)
    (seen : list string) (len : nat) (alternates : list IngestAlternateEnclosure) :
    list SourceItemEnclosure :=
  match alternates with
  | [] => []
  | enclosure :: rest =>
      let url := str_trim (IngestAlternateEnclosure.url enclosure) in
      if str_is_empty url || bool_decide (url ∈ seen)
      then alternate_rows feed_guid entity_type entity_id now seen len rest
      else
        SourceItemEnclosure.mk None feed_guid entity_type entity_id (i64_of_usize len) url
          (IngestAlternateEnclosure.mime_type enclosure)
          (IngestAlternateEnclosure.bytes enclosure) (IngestAlternateEnclosure.rel enclosure)
          (IngestAlternateEnclosure.title enclosure) false "podcast_alternate_enclosure"
          (if str_is_empty (str_trim (IngestAlternateEnclosure.extraction_path enclosure))
           then entity_type ++ ".podcast:alternateEnclosure"
           else IngestAlternateEnclosure.extraction_path enclosure) now
        :: alternate_rows feed_guid entity_type entity_id now (url :: seen) (S len) rest
  end.

Definition build_source_item_enclosures (feed_guid entity_type entity_id : string)
    (primary_url primary_mime_type : option string) (primary_bytes : option Z)
    (alternate_enclosures : list IngestAlternateEnclosure) (now : Z) :
    list SourceItemEnclosure :=
  match non_empty_trimmed primary_url with
  | Some url =>
      SourceItemEnclosure.mk None feed_guid entity_type entity_id 0 url primary_mime_type
        primary_bytes None None true "rss_enclosure" (entity_type ++ ".enclosure") now
      :: alternate_rows feed_guid entity_type entity_id now [url] 1 alternate_enclosures
  | None => alternate_rows feed_guid entity_type entity_id now [] 0 alternate_enclosures
  end.

Definition build_source_item_transcripts (feed_guid entity_type entity_id : string)
    (transcripts : list IngestTranscript) (now : Z) : list SourceItemTranscript :=
  imap (λ len transcript,
    SourceItemTranscript.mk None feed_guid entity_type entity_id (i64_of_usize len)
      (str_trim (IngestTranscript.url transcript)) (IngestTranscript.mime_type transcript)
      (IngestTranscript.language transcript) (IngestTranscript.rel transcript)
      "podcast_transcript" (entity_type ++ ".podcast:transcript") now)
    (List.filter (λ t, negb (str_is_empty (str_trim (IngestTranscript.url t)))) transcripts).

(** ** Platforms *)

Definition platform_row (feed_guid platform_key : string) (url owner_name : option string)
    (extraction_path : string) (now : Z) : SourcePlatformClaim :=
  SourcePlatformClaim.mk None feed_guid platform_key url owner_name "platform_classifier"
    extraction_path now.

(** What the [HashSet] of the function holds of a claim. *)
Definition platform_key_of (c : SourcePlatformClaim) :
    string * option string * option string * string :=
  (SourcePlatformClaim.platform_key c, SourcePlatformClaim.url c,
   SourcePlatformClaim.owner_name c, SourcePlatformClaim.extraction_path c).

Definition build_source_platform_claims `{Web} (feed_guid canonical_url : string)
    (owner_name : option string) (links : list IngestLink) (now : Z) :
    list SourcePlatformClaim :=
  let of_url :=
    match classify_platform_url canonical_url with
    | Some platform_key =>
        [platform_row feed_guid platform_key (Some (str_trim canonical_url)) None
           "request.canonical_url" now]
    | None => []
    end in
  let of_links :=
    omap (λ link,
      platform_key ← classify_platform_url (IngestLink.url link);
      let extraction_path :=
        if str_is_empty (str_trim (IngestLink.extraction_path link)) then "feed.link"%string
        else IngestLink.extraction_path link in
      Some (platform_row feed_guid platform_key (Some (str_trim (IngestLink.url link))) None
              extraction_path now)) links in
  let of_owner :=
    match non_empty_trimmed owner_name with
    | Some owner_name =>
        match classify_platform_owner owner_name with
        | Some platform_key =>
            [platform_row feed_guid platform_key None (Some owner_name) "feed.owner_name" now]
        | None => []
        end
    | None => []
    end in
  dedupe_by platform_key_of (of_url ++ of_links ++ of_owner).

(** ** Release claims *)

Definition push_source_release_claim (claims : list SourceReleaseClaim)
    (feed_guid entity_type entity_id claim_type : string) (claim_value : option string)
    (extraction_path : string) (now : Z) : list SourceReleaseClaim :=
  match non_empty_trimmed claim_value with
  | None => claims
  | Some claim_value =>
      claims ++ [SourceReleaseClaim.mk None feed_guid entity_type entity_id 0 claim_type
                   claim_value "rss_metadata" extraction_path now]
  end.
