(* ===== verification/Medium.v ===== *)
(** Channel-level [podcast:medium] values (src/medium.rs). *)

From S2P Require Import Prelude.

Definition MUSIC : string := "music".
Definition PUBLISHER : string := "publisher".
Definition MUSICL : string := "musicL".

Definition is_music (raw_medium : option string) : bool :=
  is_some_and (λ medium, eq_ignore_ascii_case medium MUSIC) raw_medium.

Definition is_publisher (raw_medium : option string) : bool :=
  is_some_and (λ medium, eq_ignore_ascii_case medium PUBLISHER) raw_medium.

Definition is_musicl (raw_medium : option string) : bool :=
  is_some_and (λ medium, eq_ignore_ascii_case medium MUSICL) raw_medium.

Definition resolver_excluded (raw_medium : option string) : bool := is_musicl raw_medium.

Definition payment_exempt (raw_medium : option string) : bool :=
  is_publisher raw_medium || is_musicl raw_medium.

(** A feed is of at most one of the media the node treats apart. *)
Lemma medium_cases m :
  (is_music m = true ∧ is_publisher m = false ∧ is_musicl m = false)
  ∨ (is_music m = false ∧ is_publisher m = true ∧ is_musicl m = false)
  ∨ (is_music m = false ∧ is_publisher m = false ∧ is_musicl m = true)
  ∨ (is_music m = false ∧ is_publisher m = false ∧ is_musicl m = false).
Proof.
  unfold is_music, is_publisher, is_musicl, eq_ignore_ascii_case.
  destruct m as [m|]; cbn [is_some_and]; [|tauto].
  generalize (to_ascii_lowercase m). intros s.
  destruct (s =s to_ascii_lowercase MUSIC) eqn:H1;
    destruct (s =s to_ascii_lowercase PUBLISHER) eqn:H2;
    destruct (s =s to_ascii_lowercase MUSICL) eqn:H3; try tauto; bool_facts; subst; done.
Qed.
