(* ===== verification/Store.v ===== *)
(** The SQLite database of a node (src/db.rs, the tables of migrations/).

    [Db] is the record of the tables the modelled code reads and writes. A
    table whose primary key is text is a [gmap]; a table with an integer
    [id] is the list of its rows in [id] order, each row stored in the form
    its [SELECT] reads back ([NULLIF] on the custom record included). SQLite
    gives a new row the [id] one above the largest, so an insert appends.

    Constraints of the schema are checks of the insert: [REFERENCES] (the
    connection runs with [foreign_keys = ON]), [UNIQUE], and [CHECK]. A
    statement that breaks one changes nothing and fails; the statements
    before it in the same transaction stay, until the transaction rolls
    back.

    [DB] is the monad of code that runs on a connection: the state it leaves
    is given on an error too. [transaction] is [Connection::transaction]
    with [commit] at the end: an early [?] drops it and restores the state. *)

From S2P Require Import Prelude.
From S2P Require Import Model.
From S2P Require Import Event.

(** ** Errors *)

(** Why a statement failed. *)
Inductive SqlError : Type :=
  | ForeignKey
  | Unique
  | Check.

#[export] Instance sql_error_eq_dec : EqDecision SqlError.
Proof. solve_decision. Defined.

Inductive DbError : Type :=
  | Rusqlite (e : SqlError)
  | Json
  | Poisoned
  | Other (msg : string).

#[export] Instance db_error_eq_dec : EqDecision DbError.
Proof. solve_decision. Defined.

(** ** Rows that are not entities of src/model.rs *)

Module EventRow.
Record EventRow : Type := mk {
  event_id : string;
  event_type : EventType;
  payload_json : string;
  subject_guid : string;
  created_at : Z;
  warnings : list string
}.
#[export] Instance eq_dec : EqDecision EventRow.
Proof. solve_decision. Defined.
End EventRow.
Abbreviation EventRow := EventRow.EventRow.
#[export] Existing Instance EventRow.eq_dec.

Module FeedUrlObservation.
Record FeedUrlObservation : Type := mk {
  url : string;
  feed_guid : string;
  observed_at : Z
}.
#[export] Instance eq_dec : EqDecision FeedUrlObservation.
Proof. solve_decision. Defined.
End FeedUrlObservation.
Abbreviation FeedUrlObservation := FeedUrlObservation.FeedUrlObservation.
#[export] Existing Instance FeedUrlObservation.eq_dec.

Module FeedCopyRow.
Record FeedCopyRow : Type := mk {
  feed_guid : string;
  url : string;
  first_seen : Z;
  last_seen : option Z;
  title : string;
  item_guids : list string;
  item_titles : option (list (option string));
  image_url : option string;
  remote_items : option (list CopyRemoteItem);
  item_durations : option (list (option Z));
  item_enclosure_urls : option (list (option string));
  item_pub_dates : option (list (option Z));
  author : option string;
  feed_recipients : list RouteRecipient;
  track_recipients : gmap string (list RouteRecipient);
  summary_digest : string;
  remote_items_digest : option string;
  resolution : option string;
  resolution_reason : option string;
  resolved_at : option Z;
  resolved_digest : option string;
  resolved_remote_items_digest : option string
}.
#[export] Instance eq_dec : EqDecision FeedCopyRow.
Proof. solve_decision. Defined.
End FeedCopyRow.
Abbreviation FeedCopyRow := FeedCopyRow.FeedCopyRow.
#[export] Existing Instance FeedCopyRow.eq_dec.

Module SourceGoneAnswer.
Record SourceGoneAnswer : Type := mk {
  feed_guid : string;
  source_url : string;
  first_gone_at : Z;
  last_gone_at : Z;
  last_status : Z
}.
#[export] Instance eq_dec : EqDecision SourceGoneAnswer.
Proof. solve_decision. Defined.
End SourceGoneAnswer.
Abbreviation SourceGoneAnswer := SourceGoneAnswer.SourceGoneAnswer.
#[export] Existing Instance SourceGoneAnswer.eq_dec.

Module RetiredSourceHold.
Record RetiredSourceHold : Type := mk {
  feed_guid : string;
  source_url : string;
  reason : string;
  retired_at : Z;
  released_at : option Z
}.
#[export] Instance eq_dec : EqDecision RetiredSourceHold.
Proof. solve_decision. Defined.
End RetiredSourceHold.
Abbreviation RetiredSourceHold := RetiredSourceHold.RetiredSourceHold.
#[export] Existing Instance RetiredSourceHold.eq_dec.

Module PeerNode.
Record PeerNode : Type := mk {
  node_pubkey : string;
  node_url : string;
  discovered_at : Z;
  last_push_at : option Z;
  consecutive_failures : Z
}.
#[export] Instance eq_dec : EqDecision PeerNode.
Proof. solve_decision. Defined.
End PeerNode.
Abbreviation PeerNode := PeerNode.PeerNode.
#[export] Existing Instance PeerNode.eq_dec.

Module MoveState.
Record MoveState : Type := mk {
  arrival_tag : option string;
  return_count : Z;
  last_return_at : option Z
}.
#[export] Instance eq_dec : EqDecision MoveState.
Proof. solve_decision. Defined.
End MoveState.
Abbreviation MoveState := MoveState.MoveState.
#[export] Existing Instance MoveState.eq_dec.

Module FeedMoveWrite.
Record FeedMoveWrite : Type := mk {
  old_url : string;
  new_url : string;
  arrival_tag : option string;
  return_values : option (Z * Z)
}.
#[export] Instance eq_dec : EqDecision FeedMoveWrite.
Proof. solve_decision. Defined.
End FeedMoveWrite.
Abbreviation FeedMoveWrite := FeedMoveWrite.FeedMoveWrite.
#[export] Existing Instance FeedMoveWrite.eq_dec.

Module GuidChangeRow.
Record GuidChangeRow : Type := mk {
  source_url : string;
  old_guid : string;
  new_guid : string;
  first_seen : Z;
  last_seen : option Z;
  decision : option string;
  decision_reason : option string;
  decided_at : option Z
}.
#[export] Instance eq_dec : EqDecision GuidChangeRow.
Proof. solve_decision. Defined.
End GuidChangeRow.
Abbreviation GuidChangeRow := GuidChangeRow.GuidChangeRow.
#[export] Existing Instance GuidChangeRow.eq_dec.

Module GuidSupersessionRow.
Record GuidSupersessionRow : Type := mk {
  old_guid : string;
  new_guid : string;
  source_url : string;
  superseded_at : Z
}.
#[export] Instance eq_dec : EqDecision GuidSupersessionRow.
Proof. solve_decision. Defined.
End GuidSupersessionRow.
Abbreviation GuidSupersessionRow := GuidSupersessionRow.GuidSupersessionRow.
#[export] Existing Instance GuidSupersessionRow.eq_dec.

(** A row of [feeds]: the columns of [Feed] and the local columns that no
    event carries. The derived columns [title_sort] and [feed_host] are
    functions of [title] and [feed_url] and have no reader in the model. *)
Module FeedRow.
Record FeedRow : Type := mk {
  feed : Feed;
  declared_self_url : option string;
  declared_new_feed_url : option string;
  podcast_locked : option Z;
  locked_owner : option string
}.
#[export] Instance eq_dec : EqDecision FeedRow.
Proof. solve_decision. Defined.
End FeedRow.
Abbreviation FeedRow := FeedRow.FeedRow.
#[export] Existing Instance FeedRow.eq_dec.

(** A row whose feed column can be [NULL]: [value_time_splits] and
    [track_remote_items_raw] rows from before feed-scoped track identity. *)
Module Scoped.
Record Scoped (R : Type) : Type := mk {
  feed : option string;
  row : R
}.
Arguments mk {R} feed row.
Arguments feed {R} s.
Arguments row {R} s.
#[export] Instance eq_dec {R} `{EqDecision R} : EqDecision (Scoped R).
Proof. solve_decision. Defined.
End Scoped.
Abbreviation Scoped := Scoped.Scoped.
#[export] Existing Instance Scoped.eq_dec.

(** A row of [events]. *)
Module LogRow.
Record LogRow : Type := mk {
  event_id : string;
  event_type : EventType;
  payload_json : string;
  subject_guid : string;
  signed_by : string;
  signature : string;
  seq : Z;
  created_at : Z;
  warnings : list string
}.
#[export] Instance eq_dec : EqDecision LogRow.
Proof. solve_decision. Defined.
End LogRow.
Abbreviation LogRow := LogRow.LogRow.
#[export] Existing Instance LogRow.eq_dec.

(** The text columns of one [search_index] row. *)
Module IndexRow.
Record IndexRow : Type := mk {
  name : string;
  title : string;
  description : string
}.
#[export] Instance eq_dec : EqDecision IndexRow.
Proof. solve_decision. Defined.
End IndexRow.
Abbreviation IndexRow := IndexRow.IndexRow.
#[export] Existing Instance IndexRow.eq_dec.

(** ** The state *)

Record Db : Type := mkDb {
  feeds : gmap string FeedRow;
  tracks : gmap (string * string) Track;
  payment_routes : list PaymentRoute;
  feed_payment_routes : list FeedPaymentRoute;
  feed_list_value_raw : list FeedListValueRaw;
  value_time_splits : list (Scoped ValueTimeSplit);
  feed_remote_items_raw : list FeedRemoteItemRaw;
  track_remote_items_raw : list (Scoped TrackRemoteItemRaw);
  live_events : list LiveEvent;
  source_contributor_claims : list SourceContributorClaim;
  source_entity_ids : list SourceEntityIdClaim;
  source_entity_links : list SourceEntityLink;
  source_release_claims : list SourceReleaseClaim;
  source_item_enclosures : list SourceItemEnclosure;
  source_item_transcripts : list SourceItemTranscript;
  source_platform_claims : list SourcePlatformClaim;
  events : list LogRow;
  feed_crawl_cache : gmap string (string * Z);
  feed_url_observations : gmap string FeedUrlObservation;
  source_gone_answers : gmap string SourceGoneAnswer;
  retired_source_holds : gmap string RetiredSourceHold;
  feed_blocks : list FeedBlock;
  feed_copies : gmap (string * string) FeedCopyRow;
  feed_copy_overflow : gmap string Z;
  feed_guid_changes : gmap string GuidChangeRow;
  feed_guid_supersessions : gmap string GuidSupersessionRow;
  node_sync_state : gmap string (Z * Z);
  peer_nodes : gmap string PeerNode;
  entity_quality : gmap (string * string) (Z * Z);
  search_index : gmap Z IndexRow;
  search_entities : gmap Z (string * string);
  feed_left_urls : gset (string * string);
  feed_move_state : gmap string (MoveState * bool)
}.

Definition empty_db : Db :=
  mkDb ∅ ∅ [] [] [] [] [] [] [] [] [] [] [] [] [] [] [] ∅ ∅ ∅ ∅ [] ∅ ∅ ∅ ∅ ∅ ∅ ∅ ∅ ∅ ∅ ∅.

(** Setters, one per table. *)
Definition set_feeds (x : gmap string FeedRow) (db : Db) : Db :=
  mkDb x (tracks db) (payment_routes db) (feed_payment_routes db) (feed_list_value_raw db) (value_time_splits db) (feed_remote_items_raw db) (track_remote_items_raw db) (live_events db) (source_contributor_claims db) (source_entity_ids db) (source_entity_links db) (source_release_claims db) (source_item_enclosures db) (source_item_transcripts db) (source_platform_claims db) (events db) (feed_crawl_cache db) (feed_url_observations db) (source_gone_answers db) (retired_source_holds db) (feed_blocks db) (feed_copies db) (feed_copy_overflow db) (feed_guid_changes db) (feed_guid_supersessions db) (node_sync_state db) (peer_nodes db) (entity_quality db) (search_index db) (search_entities db) (feed_left_urls db) (feed_move_state db).
Definition set_tracks (x : gmap (string * string) Track) (db : Db) : Db :=
  mkDb (feeds db) x (payment_routes db) (feed_payment_routes db) (feed_list_value_raw db) (value_time_splits db) (feed_remote_items_raw db) (track_remote_items_raw db) (live_events db) (source_contributor_claims db) (source_entity_ids db) (source_entity_links db) (source_release_claims db) (source_item_enclosures db) (source_item_transcripts db) (source_platform_claims db) (events db) (feed_crawl_cache db) (feed_url_observations db) (source_gone_answers db) (retired_source_holds db) (feed_blocks db) (feed_copies db) (feed_copy_overflow db) (feed_guid_changes db) (feed_guid_supersessions db) (node_sync_state db) (peer_nodes db) (entity_quality db) (search_index db) (search_entities db) (feed_left_urls db) (feed_move_state db).
Definition set_payment_routes (x : list PaymentRoute) (db : Db) : Db :=
  mkDb (feeds db) (tracks db) x (feed_payment_routes db) (feed_list_value_raw db) (value_time_splits db) (feed_remote_items_raw db) (track_remote_items_raw db) (live_events db) (source_contributor_claims db) (source_entity_ids db) (source_entity_links db) (source_release_claims db) (source_item_enclosures db) (source_item_transcripts db) (source_platform_claims db) (events db) (feed_crawl_cache db) (feed_url_observations db) (source_gone_answers db) (retired_source_holds db) (feed_blocks db) (feed_copies db) (feed_copy_overflow db) (feed_guid_changes db) (feed_guid_supersessions db) (node_sync_state db) (peer_nodes db) (entity_quality db) (search_index db) (search_entities db) (feed_left_urls db) (feed_move_state db).
Definition set_feed_payment_routes (x : list FeedPaymentRoute) (db : Db) : Db :=
  mkDb (feeds db) (tracks db) (payment_routes db) x (feed_list_value_raw db) (value_time_splits db) (feed_remote_items_raw db) (track_remote_items_raw db) (live_events db) (source_contributor_claims db) (source_entity_ids db) (source_entity_links db) (source_release_claims db) (source_item_enclosures db) (source_item_transcripts db) (source_platform_claims db) (events db) (feed_crawl_cache db) (feed_url_observations db) (source_gone_answers db) (retired_source_holds db) (feed_blocks db) (feed_copies db) (feed_copy_overflow db) (feed_guid_changes db) (feed_guid_supersessions db) (node_sync_state db) (peer_nodes db) (entity_quality db) (search_index db) (search_entities db) (feed_left_urls db) (feed_move_state db).
Definition set_feed_list_value_raw (x : list FeedListValueRaw) (db : Db) : Db :=
  mkDb (feeds db) (tracks db) (payment_routes db) (feed_payment_routes db) x (value_time_splits db) (feed_remote_items_raw db) (track_remote_items_raw db) (live_events db) (source_contributor_claims db) (source_entity_ids db) (source_entity_links db) (source_release_claims db) (source_item_enclosures db) (source_item_transcripts db) (source_platform_claims db) (events db) (feed_crawl_cache db) (feed_url_observations db) (source_gone_answers db) (retired_source_holds db) (feed_blocks db) (feed_copies db) (feed_copy_overflow db) (feed_guid_changes db) (feed_guid_supersessions db) (node_sync_state db) (peer_nodes db) (entity_quality db) (search_index db) (search_entities db) (feed_left_urls db) (feed_move_state db).
Definition set_value_time_splits (x : list (Scoped ValueTimeSplit)) (db : Db) : Db :=
  mkDb (feeds db) (tracks db) (payment_routes db) (feed_payment_routes db) (feed_list_value_raw db) x (feed_remote_items_raw db) (track_remote_items_raw db) (live_events db) (source_contributor_claims db) (source_entity_ids db) (source_entity_links db) (source_release_claims db) (source_item_enclosures db) (source_item_transcripts db) (source_platform_claims db) (events db) (feed_crawl_cache db) (feed_url_observations db) (source_gone_answers db) (retired_source_holds db) (feed_blocks db) (feed_copies db) (feed_copy_overflow db) (feed_guid_changes db) (feed_guid_supersessions db) (node_sync_state db) (peer_nodes db) (entity_quality db) (search_index db) (search_entities db) (feed_left_urls db) (feed_move_state db).
Definition set_feed_remote_items_raw (x : list FeedRemoteItemRaw) (db : Db) : Db :=
  mkDb (feeds db) (tracks db) (payment_routes db) (feed_payment_routes db) (feed_list_value_raw db) (value_time_splits db) x (track_remote_items_raw db) (live_events db) (source_contributor_claims db) (source_entity_ids db) (source_entity_links db) (source_release_claims db) (source_item_enclosures db) (source_item_transcripts db) (source_platform_claims db) (events db) (feed_crawl_cache db) (feed_url_observations db) (source_gone_answers db) (retired_source_holds db) (feed_blocks db) (feed_copies db) (feed_copy_overflow db) (feed_guid_changes db) (feed_guid_supersessions db) (node_sync_state db) (peer_nodes db) (entity_quality db) (search_index db) (search_entities db) (feed_left_urls db) (feed_move_state db).
Definition set_track_remote_items_raw (x : list (Scoped TrackRemoteItemRaw)) (db : Db) : Db :=
  mkDb (feeds db) (tracks db) (payment_routes db) (feed_payment_routes db) (feed_list_value_raw db) (value_time_splits db) (feed_remote_items_raw db) x (live_events db) (source_contributor_claims db) (source_entity_ids db) (source_entity_links db) (source_release_claims db) (source_item_enclosures db) (source_item_transcripts db) (source_platform_claims db) (events db) (feed_crawl_cache db) (feed_url_observations db) (source_gone_answers db) (retired_source_holds db) (feed_blocks db) (feed_copies db) (feed_copy_overflow db) (feed_guid_changes db) (feed_guid_supersessions db) (node_sync_state db) (peer_nodes db) (entity_quality db) (search_index db) (search_entities db) (feed_left_urls db) (feed_move_state db).
Definition set_live_events (x : list LiveEvent) (db : Db) : Db :=
  mkDb (feeds db) (tracks db) (payment_routes db) (feed_payment_routes db) (feed_list_value_raw db) (value_time_splits db) (feed_remote_items_raw db) (track_remote_items_raw db) x (source_contributor_claims db) (source_entity_ids db) (source_entity_links db) (source_release_claims db) (source_item_enclosures db) (source_item_transcripts db) (source_platform_claims db) (events db) (feed_crawl_cache db) (feed_url_observations db) (source_gone_answers db) (retired_source_holds db) (feed_blocks db) (feed_copies db) (feed_copy_overflow db) (feed_guid_changes db) (feed_guid_supersessions db) (node_sync_state db) (peer_nodes db) (entity_quality db) (search_index db) (search_entities db) (feed_left_urls db) (feed_move_state db).
Definition set_source_contributor_claims (x : list SourceContributorClaim) (db : Db) : Db :=
  mkDb (feeds db) (tracks db) (payment_routes db) (feed_payment_routes db) (feed_list_value_raw db) (value_time_splits db) (feed_remote_items_raw db) (track_remote_items_raw db) (live_events db) x (source_entity_ids db) (source_entity_links db) (source_release_claims db) (source_item_enclosures db) (source_item_transcripts db) (source_platform_claims db) (events db) (feed_crawl_cache db) (feed_url_observations db) (source_gone_answers db) (retired_source_holds db) (feed_blocks db) (feed_copies db) (feed_copy_overflow db) (feed_guid_changes db) (feed_guid_supersessions db) (node_sync_state db) (peer_nodes db) (entity_quality db) (search_index db) (search_entities db) (feed_left_urls db) (feed_move_state db).
Definition set_source_entity_ids (x : list SourceEntityIdClaim) (db : Db) : Db :=
  mkDb (feeds db) (tracks db) (payment_routes db) (feed_payment_routes db) (feed_list_value_raw db) (value_time_splits db) (feed_remote_items_raw db) (track_remote_items_raw db) (live_events db) (source_contributor_claims db) x (source_entity_links db) (source_release_claims db) (source_item_enclosures db) (source_item_transcripts db) (source_platform_claims db) (events db) (feed_crawl_cache db) (feed_url_observations db) (source_gone_answers db) (retired_source_holds db) (feed_blocks db) (feed_copies db) (feed_copy_overflow db) (feed_guid_changes db) (feed_guid_supersessions db) (node_sync_state db) (peer_nodes db) (entity_quality db) (search_index db) (search_entities db) (feed_left_urls db) (feed_move_state db).
Definition set_source_entity_links (x : list SourceEntityLink) (db : Db) : Db :=
  mkDb (feeds db) (tracks db) (payment_routes db) (feed_payment_routes db) (feed_list_value_raw db) (value_time_splits db) (feed_remote_items_raw db) (track_remote_items_raw db) (live_events db) (source_contributor_claims db) (source_entity_ids db) x (source_release_claims db) (source_item_enclosures db) (source_item_transcripts db) (source_platform_claims db) (events db) (feed_crawl_cache db) (feed_url_observations db) (source_gone_answers db) (retired_source_holds db) (feed_blocks db) (feed_copies db) (feed_copy_overflow db) (feed_guid_changes db) (feed_guid_supersessions db) (node_sync_state db) (peer_nodes db) (entity_quality db) (search_index db) (search_entities db) (feed_left_urls db) (feed_move_state db).
Definition set_source_release_claims (x : list SourceReleaseClaim) (db : Db) : Db :=
  mkDb (feeds db) (tracks db) (payment_routes db) (feed_payment_routes db) (feed_list_value_raw db) (value_time_splits db) (feed_remote_items_raw db) (track_remote_items_raw db) (live_events db) (source_contributor_claims db) (source_entity_ids db) (source_entity_links db) x (source_item_enclosures db) (source_item_transcripts db) (source_platform_claims db) (events db) (feed_crawl_cache db) (feed_url_observations db) (source_gone_answers db) (retired_source_holds db) (feed_blocks db) (feed_copies db) (feed_copy_overflow db) (feed_guid_changes db) (feed_guid_supersessions db) (node_sync_state db) (peer_nodes db) (entity_quality db) (search_index db) (search_entities db) (feed_left_urls db) (feed_move_state db).
Definition set_source_item_enclosures (x : list SourceItemEnclosure) (db : Db) : Db :=
  mkDb (feeds db) (tracks db) (payment_routes db) (feed_payment_routes db) (feed_list_value_raw db) (value_time_splits db) (feed_remote_items_raw db) (track_remote_items_raw db) (live_events db) (source_contributor_claims db) (source_entity_ids db) (source_entity_links db) (source_release_claims db) x (source_item_transcripts db) (source_platform_claims db) (events db) (feed_crawl_cache db) (feed_url_observations db) (source_gone_answers db) (retired_source_holds db) (feed_blocks db) (feed_copies db) (feed_copy_overflow db) (feed_guid_changes db) (feed_guid_supersessions db) (node_sync_state db) (peer_nodes db) (entity_quality db) (search_index db) (search_entities db) (feed_left_urls db) (feed_move_state db).
Definition set_source_item_transcripts (x : list SourceItemTranscript) (db : Db) : Db :=
  mkDb (feeds db) (tracks db) (payment_routes db) (feed_payment_routes db) (feed_list_value_raw db) (value_time_splits db) (feed_remote_items_raw db) (track_remote_items_raw db) (live_events db) (source_contributor_claims db) (source_entity_ids db) (source_entity_links db) (source_release_claims db) (source_item_enclosures db) x (source_platform_claims db) (events db) (feed_crawl_cache db) (feed_url_observations db) (source_gone_answers db) (retired_source_holds db) (feed_blocks db) (feed_copies db) (feed_copy_overflow db) (feed_guid_changes db) (feed_guid_supersessions db) (node_sync_state db) (peer_nodes db) (entity_quality db) (search_index db) (search_entities db) (feed_left_urls db) (feed_move_state db).
Definition set_source_platform_claims (x : list SourcePlatformClaim) (db : Db) : Db :=
  mkDb (feeds db) (tracks db) (payment_routes db) (feed_payment_routes db) (feed_list_value_raw db) (value_time_splits db) (feed_remote_items_raw db) (track_remote_items_raw db) (live_events db) (source_contributor_claims db) (source_entity_ids db) (source_entity_links db) (source_release_claims db) (source_item_enclosures db) (source_item_transcripts db) x (events db) (feed_crawl_cache db) (feed_url_observations db) (source_gone_answers db) (retired_source_holds db) (feed_blocks db) (feed_copies db) (feed_copy_overflow db) (feed_guid_changes db) (feed_guid_supersessions db) (node_sync_state db) (peer_nodes db) (entity_quality db) (search_index db) (search_entities db) (feed_left_urls db) (feed_move_state db).
Definition set_events (x : list LogRow) (db : Db) : Db :=
  mkDb (feeds db) (tracks db) (payment_routes db) (feed_payment_routes db) (feed_list_value_raw db) (value_time_splits db) (feed_remote_items_raw db) (track_remote_items_raw db) (live_events db) (source_contributor_claims db) (source_entity_ids db) (source_entity_links db) (source_release_claims db) (source_item_enclosures db) (source_item_transcripts db) (source_platform_claims db) x (feed_crawl_cache db) (feed_url_observations db) (source_gone_answers db) (retired_source_holds db) (feed_blocks db) (feed_copies db) (feed_copy_overflow db) (feed_guid_changes db) (feed_guid_supersessions db) (node_sync_state db) (peer_nodes db) (entity_quality db) (search_index db) (search_entities db) (feed_left_urls db) (feed_move_state db).
Definition set_feed_crawl_cache (x : gmap string (string * Z)) (db : Db) : Db :=
  mkDb (feeds db) (tracks db) (payment_routes db) (feed_payment_routes db) (feed_list_value_raw db) (value_time_splits db) (feed_remote_items_raw db) (track_remote_items_raw db) (live_events db) (source_contributor_claims db) (source_entity_ids db) (source_entity_links db) (source_release_claims db) (source_item_enclosures db) (source_item_transcripts db) (source_platform_claims db) (events db) x (feed_url_observations db) (source_gone_answers db) (retired_source_holds db) (feed_blocks db) (feed_copies db) (feed_copy_overflow db) (feed_guid_changes db) (feed_guid_supersessions db) (node_sync_state db) (peer_nodes db) (entity_quality db) (search_index db) (search_entities db) (feed_left_urls db) (feed_move_state db).
Definition set_feed_url_observations (x : gmap string FeedUrlObservation) (db : Db) : Db :=
  mkDb (feeds db) (tracks db) (payment_routes db) (feed_payment_routes db) (feed_list_value_raw db) (value_time_splits db) (feed_remote_items_raw db) (track_remote_items_raw db) (live_events db) (source_contributor_claims db) (source_entity_ids db) (source_entity_links db) (source_release_claims db) (source_item_enclosures db) (source_item_transcripts db) (source_platform_claims db) (events db) (feed_crawl_cache db) x (source_gone_answers db) (retired_source_holds db) (feed_blocks db) (feed_copies db) (feed_copy_overflow db) (feed_guid_changes db) (feed_guid_supersessions db) (node_sync_state db) (peer_nodes db) (entity_quality db) (search_index db) (search_entities db) (feed_left_urls db) (feed_move_state db).
Definition set_source_gone_answers (x : gmap string SourceGoneAnswer) (db : Db) : Db :=
  mkDb (feeds db) (tracks db) (payment_routes db) (feed_payment_routes db) (feed_list_value_raw db) (value_time_splits db) (feed_remote_items_raw db) (track_remote_items_raw db) (live_events db) (source_contributor_claims db) (source_entity_ids db) (source_entity_links db) (source_release_claims db) (source_item_enclosures db) (source_item_transcripts db) (source_platform_claims db) (events db) (feed_crawl_cache db) (feed_url_observations db) x (retired_source_holds db) (feed_blocks db) (feed_copies db) (feed_copy_overflow db) (feed_guid_changes db) (feed_guid_supersessions db) (node_sync_state db) (peer_nodes db) (entity_quality db) (search_index db) (search_entities db) (feed_left_urls db) (feed_move_state db).
Definition set_retired_source_holds (x : gmap string RetiredSourceHold) (db : Db) : Db :=
  mkDb (feeds db) (tracks db) (payment_routes db) (feed_payment_routes db) (feed_list_value_raw db) (value_time_splits db) (feed_remote_items_raw db) (track_remote_items_raw db) (live_events db) (source_contributor_claims db) (source_entity_ids db) (source_entity_links db) (source_release_claims db) (source_item_enclosures db) (source_item_transcripts db) (source_platform_claims db) (events db) (feed_crawl_cache db) (feed_url_observations db) (source_gone_answers db) x (feed_blocks db) (feed_copies db) (feed_copy_overflow db) (feed_guid_changes db) (feed_guid_supersessions db) (node_sync_state db) (peer_nodes db) (entity_quality db) (search_index db) (search_entities db) (feed_left_urls db) (feed_move_state db).
Definition set_feed_blocks (x : list FeedBlock) (db : Db) : Db :=
  mkDb (feeds db) (tracks db) (payment_routes db) (feed_payment_routes db) (feed_list_value_raw db) (value_time_splits db) (feed_remote_items_raw db) (track_remote_items_raw db) (live_events db) (source_contributor_claims db) (source_entity_ids db) (source_entity_links db) (source_release_claims db) (source_item_enclosures db) (source_item_transcripts db) (source_platform_claims db) (events db) (feed_crawl_cache db) (feed_url_observations db) (source_gone_answers db) (retired_source_holds db) x (feed_copies db) (feed_copy_overflow db) (feed_guid_changes db) (feed_guid_supersessions db) (node_sync_state db) (peer_nodes db) (entity_quality db) (search_index db) (search_entities db) (feed_left_urls db) (feed_move_state db).
Definition set_feed_copies (x : gmap (string * string) FeedCopyRow) (db : Db) : Db :=
  mkDb (feeds db) (tracks db) (payment_routes db) (feed_payment_routes db) (feed_list_value_raw db) (value_time_splits db) (feed_remote_items_raw db) (track_remote_items_raw db) (live_events db) (source_contributor_claims db) (source_entity_ids db) (source_entity_links db) (source_release_claims db) (source_item_enclosures db) (source_item_transcripts db) (source_platform_claims db) (events db) (feed_crawl_cache db) (feed_url_observations db) (source_gone_answers db) (retired_source_holds db) (feed_blocks db) x (feed_copy_overflow db) (feed_guid_changes db) (feed_guid_supersessions db) (node_sync_state db) (peer_nodes db) (entity_quality db) (search_index db) (search_entities db) (feed_left_urls db) (feed_move_state db).
Definition set_feed_copy_overflow (x : gmap string Z) (db : Db) : Db :=
  mkDb (feeds db) (tracks db) (payment_routes db) (feed_payment_routes db) (feed_list_value_raw db) (value_time_splits db) (feed_remote_items_raw db) (track_remote_items_raw db) (live_events db) (source_contributor_claims db) (source_entity_ids db) (source_entity_links db) (source_release_claims db) (source_item_enclosures db) (source_item_transcripts db) (source_platform_claims db) (events db) (feed_crawl_cache db) (feed_url_observations db) (source_gone_answers db) (retired_source_holds db) (feed_blocks db) (feed_copies db) x (feed_guid_changes db) (feed_guid_supersessions db) (node_sync_state db) (peer_nodes db) (entity_quality db) (search_index db) (search_entities db) (feed_left_urls db) (feed_move_state db).
Definition set_feed_guid_changes (x : gmap string GuidChangeRow) (db : Db) : Db :=
  mkDb (feeds db) (tracks db) (payment_routes db) (feed_payment_routes db) (feed_list_value_raw db) (value_time_splits db) (feed_remote_items_raw db) (track_remote_items_raw db) (live_events db) (source_contributor_claims db) (source_entity_ids db) (source_entity_links db) (source_release_claims db) (source_item_enclosures db) (source_item_transcripts db) (source_platform_claims db) (events db) (feed_crawl_cache db) (feed_url_observations db) (source_gone_answers db) (retired_source_holds db) (feed_blocks db) (feed_copies db) (feed_copy_overflow db) x (feed_guid_supersessions db) (node_sync_state db) (peer_nodes db) (entity_quality db) (search_index db) (search_entities db) (feed_left_urls db) (feed_move_state db).
Definition set_feed_guid_supersessions (x : gmap string GuidSupersessionRow) (db : Db) : Db :=
  mkDb (feeds db) (tracks db) (payment_routes db) (feed_payment_routes db) (feed_list_value_raw db) (value_time_splits db) (feed_remote_items_raw db) (track_remote_items_raw db) (live_events db) (source_contributor_claims db) (source_entity_ids db) (source_entity_links db) (source_release_claims db) (source_item_enclosures db) (source_item_transcripts db) (source_platform_claims db) (events db) (feed_crawl_cache db) (feed_url_observations db) (source_gone_answers db) (retired_source_holds db) (feed_blocks db) (feed_copies db) (feed_copy_overflow db) (feed_guid_changes db) x (node_sync_state db) (peer_nodes db) (entity_quality db) (search_index db) (search_entities db) (feed_left_urls db) (feed_move_state db).
Definition set_node_sync_state (x : gmap string (Z * Z)) (db : Db) : Db :=
  mkDb (feeds db) (tracks db) (payment_routes db) (feed_payment_routes db) (feed_list_value_raw db) (value_time_splits db) (feed_remote_items_raw db) (track_remote_items_raw db) (live_events db) (source_contributor_claims db) (source_entity_ids db) (source_entity_links db) (source_release_claims db) (source_item_enclosures db) (source_item_transcripts db) (source_platform_claims db) (events db) (feed_crawl_cache db) (feed_url_observations db) (source_gone_answers db) (retired_source_holds db) (feed_blocks db) (feed_copies db) (feed_copy_overflow db) (feed_guid_changes db) (feed_guid_supersessions db) x (peer_nodes db) (entity_quality db) (search_index db) (search_entities db) (feed_left_urls db) (feed_move_state db).
Definition set_peer_nodes (x : gmap string PeerNode) (db : Db) : Db :=
  mkDb (feeds db) (tracks db) (payment_routes db) (feed_payment_routes db) (feed_list_value_raw db) (value_time_splits db) (feed_remote_items_raw db) (track_remote_items_raw db) (live_events db) (source_contributor_claims db) (source_entity_ids db) (source_entity_links db) (source_release_claims db) (source_item_enclosures db) (source_item_transcripts db) (source_platform_claims db) (events db) (feed_crawl_cache db) (feed_url_observations db) (source_gone_answers db) (retired_source_holds db) (feed_blocks db) (feed_copies db) (feed_copy_overflow db) (feed_guid_changes db) (feed_guid_supersessions db) (node_sync_state db) x (entity_quality db) (search_index db) (search_entities db) (feed_left_urls db) (feed_move_state db).
Definition set_entity_quality (x : gmap (string * string) (Z * Z)) (db : Db) : Db :=
  mkDb (feeds db) (tracks db) (payment_routes db) (feed_payment_routes db) (feed_list_value_raw db) (value_time_splits db) (feed_remote_items_raw db) (track_remote_items_raw db) (live_events db) (source_contributor_claims db) (source_entity_ids db) (source_entity_links db) (source_release_claims db) (source_item_enclosures db) (source_item_transcripts db) (source_platform_claims db) (events db) (feed_crawl_cache db) (feed_url_observations db) (source_gone_answers db) (retired_source_holds db) (feed_blocks db) (feed_copies db) (feed_copy_overflow db) (feed_guid_changes db) (feed_guid_supersessions db) (node_sync_state db) (peer_nodes db) x (search_index db) (search_entities db) (feed_left_urls db) (feed_move_state db).
Definition set_search_index (x : gmap Z IndexRow) (db : Db) : Db :=
  mkDb (feeds db) (tracks db) (payment_routes db) (feed_payment_routes db) (feed_list_value_raw db) (value_time_splits db) (feed_remote_items_raw db) (track_remote_items_raw db) (live_events db) (source_contributor_claims db) (source_entity_ids db) (source_entity_links db) (source_release_claims db) (source_item_enclosures db) (source_item_transcripts db) (source_platform_claims db) (events db) (feed_crawl_cache db) (feed_url_observations db) (source_gone_answers db) (retired_source_holds db) (feed_blocks db) (feed_copies db) (feed_copy_overflow db) (feed_guid_changes db) (feed_guid_supersessions db) (node_sync_state db) (peer_nodes db) (entity_quality db) x (search_entities db) (feed_left_urls db) (feed_move_state db).
Definition set_search_entities (x : gmap Z (string * string)) (db : Db) : Db :=
  mkDb (feeds db) (tracks db) (payment_routes db) (feed_payment_routes db) (feed_list_value_raw db) (value_time_splits db) (feed_remote_items_raw db) (track_remote_items_raw db) (live_events db) (source_contributor_claims db) (source_entity_ids db) (source_entity_links db) (source_release_claims db) (source_item_enclosures db) (source_item_transcripts db) (source_platform_claims db) (events db) (feed_crawl_cache db) (feed_url_observations db) (source_gone_answers db) (retired_source_holds db) (feed_blocks db) (feed_copies db) (feed_copy_overflow db) (feed_guid_changes db) (feed_guid_supersessions db) (node_sync_state db) (peer_nodes db) (entity_quality db) (search_index db) x (feed_left_urls db) (feed_move_state db).
Definition set_feed_left_urls (x : gset (string * string)) (db : Db) : Db :=
  mkDb (feeds db) (tracks db) (payment_routes db) (feed_payment_routes db) (feed_list_value_raw db) (value_time_splits db) (feed_remote_items_raw db) (track_remote_items_raw db) (live_events db) (source_contributor_claims db) (source_entity_ids db) (source_entity_links db) (source_release_claims db) (source_item_enclosures db) (source_item_transcripts db) (source_platform_claims db) (events db) (feed_crawl_cache db) (feed_url_observations db) (source_gone_answers db) (retired_source_holds db) (feed_blocks db) (feed_copies db) (feed_copy_overflow db) (feed_guid_changes db) (feed_guid_supersessions db) (node_sync_state db) (peer_nodes db) (entity_quality db) (search_index db) (search_entities db) x (feed_move_state db).
Definition set_feed_move_state (x : gmap string (MoveState * bool)) (db : Db) : Db :=
  mkDb (feeds db) (tracks db) (payment_routes db) (feed_payment_routes db) (feed_list_value_raw db) (value_time_splits db) (feed_remote_items_raw db) (track_remote_items_raw db) (live_events db) (source_contributor_claims db) (source_entity_ids db) (source_entity_links db) (source_release_claims db) (source_item_enclosures db) (source_item_transcripts db) (source_platform_claims db) (events db) (feed_crawl_cache db) (feed_url_observations db) (source_gone_answers db) (retired_source_holds db) (feed_blocks db) (feed_copies db) (feed_copy_overflow db) (feed_guid_changes db) (feed_guid_supersessions db) (node_sync_state db) (peer_nodes db) (entity_quality db) (search_index db) (search_entities db) (feed_left_urls db) x.

(** ** Code that runs on a connection *)

Definition DB (A : Type) : Type := Db → Db * result DbError A.

#[export] Instance db_ret : MRet DB := λ A a db, (db, Ok a).
#[export] Instance db_bind : MBind DB := λ A B k m db,
  match m db with
  | (db', Ok a) => k a db'
  | (db', Err e) => (db', Err e)
  end.

Definition throw {A} (e : DbError) : DB A := λ db, (db, Err e).

(** A read of the state. *)
Definition query {A} (f : Db → A) : DB A := λ db, (db, Ok (f db)).

(** A statement that cannot break a constraint. *)
Definition execute (f : Db → Db) : DB unit := λ db, (f db, Ok tt).

(** [for x in l { f(x)?; }] *)
Fixpoint for_each {A} (f : A → DB unit) (l : list A) : DB unit :=
  match l with
  | [] => mret tt
  | x :: r => _ ← f x; for_each f r
  end.

Definition transaction {A} (m : DB A) : DB A := λ db,
  match m db with
  | (db', Ok a) => (db', Ok a)
  | (_, Err e) => (db, Err e)
  end.

Lemma transaction_err {A} (m : DB A) db db' e :
  transaction m db = (db', Err e) → db' = db.
Proof. unfold transaction. destruct (m db) as [? [|]]; congruence. Qed.

Lemma transaction_run {A} (m : DB A) db db' a :
  transaction m db = (db', Ok a) → m db = (db', Ok a).
Proof. unfold transaction. destruct (m db) as [? [|]]; congruence. Qed.

Lemma for_each_app {A} (f : A → DB unit) l k db :
  for_each f (l ++ k) db =
  match for_each f l db with
  | (db', Ok _) => for_each f k db'
  | r => r
  end.
Proof.
  revert db. induction l as [|x l IH]; intros db; simpl; [done|].
  unfold mbind, db_bind. destruct (f x db) as [db' [[]|e]]; [apply IH|done].
Qed.

(** A relation between states that every step of a loop keeps. *)
Lemma for_each_invariant {A} (P : Db → Prop) (f : A → DB unit) l :
  (∀ x db, x ∈ l → P db → P (f x db).1) → ∀ db, P db → P (for_each f l db).1.
Proof.
  induction l as [|x l IH]; intros Hf db Hdb; simpl; [done|].
  unfold mbind, db_bind. pose proof (Hf x db) as Hx.
  destruct (f x db) as [db' [[]|e]]; simpl in *.
  - apply IH; [|apply Hx; set_solver]. intros; apply Hf; set_solver.
  - apply Hx; set_solver.
Qed.

(** ** Tables of rows

    What the statements on a row table need: where the table is, the foreign
    key and the [CHECK] of a row, its [UNIQUE] key (none when a column of
    the key is [NULL]), the form in which a row is stored, and its [id]. *)

Record Table (R K : Type) : Type := mkTable {
  tbl_get : Db → list R;
  tbl_set : list R → Db → Db;
  tbl_fk : R → Db → bool;
  tbl_check : R → bool;
  tbl_key : R → option K;
  tbl_store : Z → R → R;
  tbl_id : R → option Z
}.
Arguments mkTable {R K}.
Arguments tbl_get {R K}.
Arguments tbl_set {R K}.
Arguments tbl_fk {R K}.
Arguments tbl_check {R K}.
Arguments tbl_key {R K}.
Arguments tbl_store {R K}.
Arguments tbl_id {R K}.

(** The laws that make a [Table] one: the setter and the getter agree, the
    foreign key does not read the table itself, and storing a row keeps
    what the constraints look at. *)
Class TableLaws {R K} (T : Table R K) : Prop := {
  tbl_get_set : ∀ l db, tbl_get T (tbl_set T l db) = l;
  tbl_set_set : ∀ l k db, tbl_set T l (tbl_set T k db) = tbl_set T l db;
  tbl_set_get : ∀ db, tbl_set T (tbl_get T db) db = db;
  tbl_fk_set : ∀ r l db, tbl_fk T r (tbl_set T l db) = tbl_fk T r db;
  tbl_key_store : ∀ n r, tbl_key T (tbl_store T n r) = tbl_key T r
}.

Section statements.
Context {R K : Type} `{EqDecision K} (T : Table R K).

(** The rowid SQLite gives the next row. *)
Definition next_id (l : list R) : Z := 1 + foldr Z.max 0 (omap (tbl_id T) l).

Definition key_taken (l : list R) (r : R) : bool :=
  match tbl_key T r with
  | None => false
  | Some k => existsb (λ x, tbl_key T x == Some k) l
  end.

(** [INSERT INTO t ... VALUES ...] *)
Definition insert (r : R) : DB unit := λ db,
  if negb (tbl_check T r) then (db, Err (Rusqlite Check))
  else if key_taken (tbl_get T db) r then (db, Err (Rusqlite Unique))
  else if negb (tbl_fk T r db) then (db, Err (Rusqlite ForeignKey))
  else (tbl_set T (tbl_get T db ++ [tbl_store T (next_id (tbl_get T db)) r]) db, Ok tt).

(** [DELETE FROM t WHERE p] *)
Definition delete_where (p : R → bool) : DB unit :=
  execute (λ db, tbl_set T (List.filter (negb ∘ p) (tbl_get T db)) db).

(** The rows an insert loop stores, given the rows before it. *)
Fixpoint stored_after (l : list R) (rows : list R) : list R :=
  match rows with
  | [] => l
  | r :: rs => stored_after (l ++ [tbl_store T (next_id l) r]) rs
  end.

(** When each insert of the loop satisfies its constraints. *)
Fixpoint acceptable (db : Db) (l rows : list R) : bool :=
  match rows with
  | [] => true
  | r :: rs =>
      tbl_check T r && negb (key_taken l r) && tbl_fk T r db
      && acceptable db (l ++ [tbl_store T (next_id l) r]) rs
  end.

Context `{!TableLaws T}.

Lemma acceptable_set k rows db l :
  acceptable (tbl_set T k db) l rows = acceptable db l rows.
Proof using TableLaws0.
  revert l. induction rows as [|r rows IH]; intros l; simpl; [done|].
  by rewrite tbl_fk_set, IH.
Qed.

(** The keys of rows that have one. *)
Definition keys (rows : list R) : list K := omap (tbl_key T) rows.

Lemma key_taken_false l r :
  key_taken l r = false ↔ ∀ k, tbl_key T r = Some k → k ∉ keys l.
Proof using Type.
  unfold key_taken, keys. destruct (tbl_key T r) as [k|]; [|done].
  rewrite <-not_true_iff_false, existsb_exists. split.
  - intros Hn k' [= <-] (x & Hx & Hk)%list_elem_of_omap. apply Hn. exists x.
    by rewrite <-list_elem_of_In, bool_decide_eq_true.
  - intros Hn (x & Hx & Hk%bool_decide_eq_true). apply (Hn k eq_refl), list_elem_of_omap.
    exists x. by rewrite list_elem_of_In.
Qed.

(** Acceptance does not depend on the order of the loop. *)
Lemma acceptable_spec db l rows :
  acceptable db l rows = true ↔
  (∀ r, r ∈ rows → tbl_check T r = true ∧ tbl_fk T r db = true ∧ key_taken l r = false)
  ∧ NoDup (keys rows).
Proof using TableLaws0.
  revert l. induction rows as [|r rows IH]; intros l; cbn [acceptable].
  { split; [|done]. intros _. split; [set_solver|apply NoDup_nil_2]. }
  rewrite !andb_true_iff, IH, negb_true_iff. unfold keys. cbn [omap list_omap].
  assert (∀ x, key_taken (l ++ [tbl_store T (next_id l) r]) x = false
    ↔ key_taken l x = false ∧ (∀ k, tbl_key T x = Some k → tbl_key T r ≠ Some k)) as Hsplit.
  { intros x. rewrite !key_taken_false. unfold keys.
    rewrite omap_app. cbn [omap list_omap]. rewrite tbl_key_store.
    setoid_rewrite not_elem_of_app. split.
    - intros Hx. split; intros k Hk; destruct (Hx k Hk) as [H1 H2]; [done|].
      intros Hr. rewrite Hr in H2. apply H2. left.
    - intros [H1 H2] k Hk. split; [auto|]. specialize (H2 k Hk).
      destruct (tbl_key T r) as [kr|]; [|apply not_elem_of_nil].
      intros [= ->]%list_elem_of_singleton. done. }
  split.
  - intros (((Hc & Hk) & Hf) & Hall & Hnd). split.
    + intros x [->|Hx]%elem_of_cons; [done|].
      destruct (Hall x Hx) as (? & ? & [? _]%Hsplit). done.
    + destruct (tbl_key T r) as [kr|] eqn:E; [|done]. apply NoDup_cons. split; [|done].
      intros (x & Hx & Hkx)%list_elem_of_omap. destruct (Hall x Hx) as (_ & _ & [_ Hn]%Hsplit).
      by apply (Hn kr).
  - intros [Hall Hnd]. destruct (Hall r) as (? & ? & ?); [left|].
    split_and!; [done..| |by destruct (tbl_key T r); [apply NoDup_cons in Hnd as [_ ?]|]].
    intros x Hx. destruct (Hall x) as (? & ? & ?); [by right|]. split_and!; [done..|].
    apply Hsplit. split; [done|]. intros k Hk Hr. rewrite Hr in Hnd.
    apply NoDup_cons in Hnd as [Hn _]. apply Hn, list_elem_of_omap. eauto.
Qed.

Lemma acceptable_perm db l rows rows' :
  rows ≡ₚ rows' → acceptable db l rows = true → acceptable db l rows' = true.
Proof using TableLaws0.
  intros Hp. rewrite !acceptable_spec. unfold keys. intros [Hall Hnd]. split.
  - intros r. rewrite <-Hp. apply Hall.
  - by rewrite <-Hp.
Qed.

(** An insert loop succeeds when its rows are acceptable, and then the
    table holds the old rows and the new ones in order. *)
Lemma insert_all_ok rows db :
  acceptable db (tbl_get T db) rows = true →
  for_each insert rows db
    = (tbl_set T (stored_after (tbl_get T db) rows) db, Ok tt).
Proof using TableLaws0.
  revert db. induction rows as [|r rows IH]; intros db Ha; simpl in *.
  { by rewrite tbl_set_get. }
  apply andb_true_iff in Ha as [[[Hc Hk]%andb_true_iff Hf]%andb_true_iff Ha].
  unfold mbind, db_bind, insert. rewrite negb_true_iff in Hk.
  rewrite Hc, Hk, Hf. simpl.
  rewrite IH; rewrite tbl_get_set; [by rewrite tbl_set_set|].
  by rewrite acceptable_set.
Qed.

(** It fails when they are not. *)
Lemma insert_all_err rows db :
  acceptable db (tbl_get T db) rows = false →
  is_ok (for_each insert rows db).2 = false.
Proof using TableLaws0.
  revert db. induction rows as [|r rows IH]; intros db Ha; simpl in *; [done|].
  unfold mbind, db_bind, insert.
  destruct (tbl_check T r), (key_taken (tbl_get T db) r) eqn:Hk,
    (tbl_fk T r db); simpl in *; try done.
  apply IH. by rewrite tbl_get_set, acceptable_set.
Qed.

(** The rows that the loop adds, whatever was before them. *)
Lemma stored_after_app l rows :
  ∃ new, stored_after l rows = l ++ new ∧ length new = length rows
    ∧ ∀ i r, rows !! i = Some r → ∃ n, new !! i = Some (tbl_store T n r).
Proof using Type.
  revert l. induction rows as [|r rows IH]; intros l; simpl.
  { exists []. rewrite app_nil_r. split_and!; [done|done|]. by intros [|]. }
  destruct (IH (l ++ [tbl_store T (next_id l) r])) as (new & Hn & Hl & Hi).
  exists (tbl_store T (next_id l) r :: new). split_and!.
  - rewrite Hn, <-app_assoc. done.
  - simpl. by rewrite Hl.
  - intros [|i] r'; simpl; [intros [= ->]; eauto|apply Hi].
Qed.

(** Rows stored by a loop, seen through a projection that storing keeps. *)
Lemma stored_after_view {F} (f : R → F) l rows :
  (∀ n r, f (tbl_store T n r) = f r) →
  f <$> stored_after l rows = (f <$> l) ++ (f <$> rows).
Proof using Type.
  intros Hf. revert l. induction rows as [|r rows IH]; intros l; simpl.
  { by rewrite app_nil_r. }
  rewrite IH, fmap_app, <-app_assoc. simpl. by rewrite Hf.
Qed.

Lemma delete_where_run p db :
  delete_where p db
    = (tbl_set T (List.filter (negb ∘ p) (tbl_get T db)) db, Ok tt).
Proof using Type. done. Qed.
End statements.

(** ** [ORDER BY]

    SQLite compares columns left to right; [NULL] comes first, an integer
    by value, a text by its bytes ([BINARY] collation). *)

Inductive SqlVal : Type :=
  | VNull
  | VInt (z : Z)
  | VText (s : string).

#[export] Instance sql_val_eq_dec : EqDecision SqlVal.
Proof. solve_decision. Defined.

Definition v_opt_text (o : option string) : SqlVal :=
  match o with Some s => VText s | None => VNull end.

Definition val_le (a b : SqlVal) : bool :=
  match a, b with
  | VNull, _ => true
  | _, VNull => false
  | VInt x, VInt y => x <=? y
  | VInt _, VText _ => true
  | VText _, VInt _ => false
  | VText x, VText y => String.leb x y
  end.

(** [a] comes before [b] or ties with it. *)
Fixpoint cols_le (a b : list SqlVal) : bool :=
  match a, b with
  | [], _ => true
  | _ :: _, [] => false
  | x :: xs, y :: ys =>
      if val_le x y then (if val_le y x then cols_le xs ys else true) else false
  end.

Definition order_by {R} (cols : R → list SqlVal) (l : list R) : list R :=
  sort_by (λ a b, cols_le (cols a) (cols b)) l.

Lemma val_le_total a b : val_le a b = true ∨ val_le b a = true.
Proof.
  destruct a as [|x|x], b as [|y|y]; simpl; auto.
  - rewrite !Z.leb_le. lia.
  - apply (String.leb_total x y).
Qed.

Lemma val_le_trans a b c : val_le a b = true → val_le b c = true → val_le a c = true.
Proof.
  destruct a as [|x|x], b as [|y|y], c as [|z|z]; simpl; try done.
  - rewrite !Z.leb_le. lia.
  - intros Hxy Hyz. apply Is_true_true.
    apply (transitivity (R := String.le) (y := y)); by apply Is_true_true.
Qed.

Lemma val_le_antisym a b : val_le a b = true → val_le b a = true → a = b.
Proof.
  destruct a as [|x|x], b as [|y|y]; simpl; try done.
  - rewrite !Z.leb_le. intros. f_equal. lia.
  - intros Hxy Hyx. f_equal. apply (anti_symm String.le); by apply Is_true_true.
Qed.

Lemma cols_le_total a b : cols_le a b = true ∨ cols_le b a = true.
Proof.
  revert b. induction a as [|x xs IH]; intros [|y ys]; simpl; auto.
  destruct (val_le x y) eqn:Hxy, (val_le y x) eqn:Hyx; auto.
  destruct (val_le_total x y); congruence.
Qed.

Lemma cols_le_trans a b c : cols_le a b = true → cols_le b c = true → cols_le a c = true.
Proof.
  revert b c. induction a as [|x xs IH]; intros [|y ys] [|z zs]; simpl; try done.
  destruct (val_le x y) eqn:Hxy; [|done]. destruct (val_le y z) eqn:Hyz; [|done].
  rewrite (val_le_trans x y z) by done.
  destruct (val_le z x) eqn:Hzx; [|done].
  rewrite (val_le_trans y z x), (val_le_trans z x y) by done. apply IH.
Qed.

#[export] Hint Resolve cols_le_total cols_le_trans val_le_total : stophammer.

Lemma order_by_perm {R} (cols : R → list SqlVal) l : order_by cols l ≡ₚ l.
Proof. apply sort_by_perm. Qed.

Lemma order_by_sorted {R} (cols : R → list SqlVal) l :
  StronglySorted (λ a b, cols_le (cols a) (cols b) = true) (order_by cols l).
Proof.
  apply (sort_by_sorted (λ a b, cols_le (cols a) (cols b))).
  - intros; apply cols_le_total.
  - intros a b c. apply cols_le_trans.
Qed.

(** Rows in order already are left as they are. *)
Lemma order_by_id {R} (cols : R → list SqlVal) l :
  StronglySorted (λ a b, cols_le (cols a) (cols b) = true) l → order_by cols l = l.
Proof. apply sort_by_id. Qed.

(** Sorting commutes with a projection that the columns factor through. *)
Lemma order_by_fmap {R F} (f : R → F) (cols : F → list SqlVal) l :
  f <$> order_by (λ r, cols (f r)) l = order_by cols (f <$> l).
Proof.
  unfold order_by. induction l as [|x l IH]; [done|].
  rewrite fmap_cons. cbn [sort_by]. rewrite <-IH. generalize (sort_by (λ a b, cols_le (cols (f a)) (cols (f b))) l).
  intros k. clear IH. induction k as [|y k IHk]; [done|].
  rewrite fmap_cons. cbn [insert_sorted].
  destruct (cols_le (cols (f x)) (cols (f y))); [done|].
  by rewrite fmap_cons, IHk.
Qed.

(** ** Loops *)

Lemma for_each_fmap {A B} (g : A → B) (f : B → DB unit) l db :
  for_each (λ x, f (g x)) l db = for_each f (g <$> l) db.
Proof.
  revert db. induction l as [|x l IH]; intros db; simpl; [done|].
  unfold mbind, db_bind. destruct (f (g x) db) as [db' [[]|e]]; [apply IH|done].
Qed.

Lemma bind_tt (m : DB unit) db : mbind (λ _, mret tt) m db = m db.
Proof. unfold mbind, db_bind. by destruct (m db) as [d [[]|e]]. Qed.

Lemma bind_assoc {A B C} (m : DB A) (k : A → DB B) (j : B → DB C) db :
  mbind j (mbind k m) db = mbind (λ a, mbind j (k a)) m db.
Proof. unfold mbind, db_bind. by destruct (m db) as [d [a|e]]. Qed.

Lemma bind_cong {A B} (m n : DB A) (k j : A → DB B) db :
  m db = n db → (∀ a d, k a d = j a d) → mbind k m db = mbind j n db.
Proof. intros Hm Hk. unfold mbind, db_bind. rewrite Hm. by destruct (n db) as [d [a|e]]. Qed.

(** A sequence that succeeds, step by step. *)
Lemma bind_ok {A B} (m : DB A) (k : A → DB B) db db' b :
  mbind k m db = (db', Ok b) → ∃ d a, m db = (d, Ok a) ∧ k a d = (db', Ok b).
Proof. unfold mbind, db_bind. destruct (m db) as [d [a|e]]; [eauto|done]. Qed.

Lemma for_each_ok {A} (f : A → DB unit) x l db db' :
  for_each f (x :: l) db = (db', Ok tt) →
  ∃ d, f x db = (d, Ok tt) ∧ for_each f l d = (db', Ok tt).
Proof. intros (d & [] & ? & ?)%bind_ok. eauto. Qed.

Lemma for_each_app_ok {A} (f : A → DB unit) l k db db' :
  for_each f (l ++ k) db = (db', Ok tt) ↔
  ∃ d, for_each f l db = (d, Ok tt) ∧ for_each f k d = (db', Ok tt).
Proof.
  rewrite for_each_app. destruct (for_each f l db) as [d [[]|e]]; split.
  - eauto.
  - by intros (? & [= <-] & ?).
  - done.
  - by intros (? & [=] & ?).
Qed.

Lemma for_each_at {A} (f : A → DB unit) l x db db' :
  for_each f l db = (db', Ok tt) → x ∈ l →
  ∃ l1 l2 d1 d2, l = l1 ++ x :: l2 ∧ for_each f l1 db = (d1, Ok tt)
    ∧ f x d1 = (d2, Ok tt) ∧ for_each f l2 d2 = (db', Ok tt).
Proof.
  intros Hf (l1 & l2 & ->)%list_elem_of_split.
  apply for_each_app_ok in Hf as (d1 & H1 & (d2 & Hx & H2)%for_each_ok).
  exists l1, l2, d1, d2. done.
Qed.

(** Two statements that succeed on the same states, with the same effect. *)
Definition same_ok {A} (m n : DB A) : Prop :=
  ∀ db db' a, m db = (db', Ok a) ↔ n db = (db', Ok a).

Lemma same_ok_ext {A} (m n : DB A) : (∀ db, m db = n db) → same_ok m n.
Proof. intros H db db' a. by rewrite H. Qed.

Lemma same_ok_trans {A} (m n o : DB A) : same_ok m n → same_ok n o → same_ok m o.
Proof. intros H1 H2 db db' a. by rewrite (H1 db db' a), (H2 db db' a). Qed.

Lemma same_ok_bind {A B} (m n : DB A) (k j : A → DB B) :
  same_ok m n → (∀ a, same_ok (k a) (j a)) → same_ok (mbind k m) (mbind j n).
Proof.
  intros Hm Hk db db' b. unfold mbind, db_bind. split; intros H.
  - destruct (m db) as [db1 [a|e]] eqn:E; [|done].
    apply Hm in E. rewrite E. by apply Hk.
  - destruct (n db) as [db1 [a|e]] eqn:E; [|done].
    apply Hm in E. rewrite E. by apply Hk.
Qed.

Lemma same_ok_for_each {A} (f g : A → DB unit) l :
  (∀ x, x ∈ l → same_ok (f x) (g x)) → same_ok (for_each f l) (for_each g l).
Proof.
  induction l as [|x l IH]; intros Hf; simpl; [done|].
  apply same_ok_bind; [apply Hf; set_solver|]. intros _. apply IH. set_solver.
Qed.

(** A new row's [id] is above every other. *)
Lemma next_id_fresh {R K} (T : Table R K) l r i :
  r ∈ l → tbl_id T r = Some i → i < next_id T l.
Proof.
  unfold next_id. induction l as [|x l IH]; [set_solver|].
  intros [->|Hr]%elem_of_cons Hi; simpl.
  - rewrite Hi. simpl. lia.
  - specialize (IH Hr Hi). unfold omap in *. destruct (tbl_id T x); simpl; lia.
Qed.

(** ** Frames

    [Keeps g m]: running [m] leaves what [g] reads of the state as it was. *)

Class Keeps {A B} (g : Db → A) (m : DB B) : Prop := keeps : ∀ db, g (m db).1 = g db.

Section keeps.
Context {G : Type} (g : Db → G).

#[export] Instance keeps_ret {A} (a : A) : Keeps g (mret a).
Proof. done. Qed.
#[export] Instance keeps_throw {A} e : Keeps g (@throw A e).
Proof. done. Qed.
#[export] Instance keeps_query {A} (f : Db → A) : Keeps g (query f).
Proof. done. Qed.
#[export] Instance keeps_bind {A B} (m : DB A) (k : A → DB B) :
  Keeps g m → (∀ a, Keeps g (k a)) → Keeps g (mbind k m).
Proof.
  intros Hm Hk db. unfold mbind, db_bind. specialize (Hm db).
  destruct (m db) as [db' [a|e]]; simpl in *; [by rewrite Hk|done].
Qed.
#[export] Instance keeps_for_each {A} (f : A → DB unit) l :
  (∀ x, Keeps g (f x)) → Keeps g (for_each f l).
Proof. intros Hf. induction l as [|x l IH]; simpl; apply _. Qed.
#[export] Instance keeps_if {A} (b : bool) (m n : DB A) :
  Keeps g m → Keeps g n → Keeps g (if b then m else n).
Proof. by destruct b. Qed.
#[export] Instance keeps_option {A B} (o : option A) (k : A → DB B) (n : DB B) :
  (∀ a, Keeps g (k a)) → Keeps g n →
  Keeps g (match o with Some a => k a | None => n end).
Proof. by destruct o. Qed.
#[export] Instance keeps_pair {A B C} (p : A * B) (k : A → B → DB C) :
  (∀ a b, Keeps g (k a b)) → Keeps g (let '(a, b) := p in k a b).
Proof. by destruct p. Qed.
#[export] Instance keeps_transaction {A} (m : DB A) : Keeps g m → Keeps g (transaction m).
Proof.
  intros Hm db. unfold transaction. specialize (Hm db).
  by destruct (m db) as [db' [a|e]].
Qed.
Lemma keeps_execute (f : Db → Db) : (∀ db, g (f db) = g db) → Keeps g (execute f).
Proof. intros Hf db. apply Hf. Qed.
Lemma keeps_delete_where {R K} (T : Table R K) p :
  (∀ l db, g (tbl_set T l db) = g db) → Keeps g (delete_where T p).
Proof. intros Hf db. apply Hf. Qed.
Lemma keeps_insert {R K} `{EqDecision K} (T : Table R K) r :
  (∀ l db, g (tbl_set T l db) = g db) → Keeps g (insert T r).
Proof. intros Hf db. unfold insert. repeat split_if; [done..|]. apply Hf. Qed.
End keeps.

(** A statement on one table keeps the others. *)
#[export] Hint Extern 0 (Keeps _ (execute _)) =>
  apply keeps_execute; intros; reflexivity : typeclass_instances.
#[export] Hint Extern 0 (Keeps _ (delete_where _ _)) =>
  apply keeps_delete_where; intros; reflexivity : typeclass_instances.
#[export] Hint Extern 0 (Keeps _ (insert _ _)) =>
  apply keeps_insert; intros; reflexivity : typeclass_instances.

(** Code that does not fail. *)
Class Total {B} (m : DB B) : Prop := total : ∀ db, is_ok (m db).2 = true.

#[export] Instance total_ret {A} (a : A) : Total (mret a).
Proof. done. Qed.
#[export] Instance total_query {A} (f : Db → A) : Total (query f).
Proof. done. Qed.
#[export] Instance total_execute f : Total (execute f).
Proof. done. Qed.
#[export] Instance total_delete_where {R K} (T : Table R K) p : Total (delete_where T p).
Proof. done. Qed.
#[export] Instance total_bind {A B} (m : DB A) (k : A → DB B) :
  Total m → (∀ a, Total (k a)) → Total (mbind k m).
Proof.
  intros Hm Hk db. unfold mbind, db_bind. specialize (Hm db).
  destruct (m db) as [db' [a|e]]; simpl in *; [apply Hk|done].
Qed.
#[export] Instance total_for_each {A} (f : A → DB unit) l :
  (∀ x, Total (f x)) → Total (for_each f l).
Proof. intros Hf. induction l as [|x l IH]; simpl; apply _. Qed.
#[export] Instance total_if {A} (b : bool) (m n : DB A) :
  Total m → Total n → Total (if b then m else n).
Proof. by destruct b. Qed.

(** A step that keeps [g] can be skipped when only [g] matters. *)
Lemma bind_keep {A B G} (g : Db → G) (P : G → Prop) (m : DB A) (k : A → DB B) db :
  Total m → Keeps g m →
  (∀ a db1, g db1 = g db → P (g (k a db1).1)) → P (g (mbind k m db).1).
Proof.
  intros Hm Hg Hk. unfold mbind, db_bind. specialize (Hm db). specialize (Hg db).
  destruct (m db) as [db1 [a|e]]; simpl in *; [by apply Hk|done].
Qed.

Lemma bind_delete {R K B} (T : Table R K) `{!TableLaws T} (P : list R → Prop) p
    (k : unit → DB B) db :
  (∀ db1, tbl_get T db1 = List.filter (negb ∘ p) (tbl_get T db) →
     P (tbl_get T (k tt db1).1)) →
  P (tbl_get T (mbind k (delete_where T p) db).1).
Proof.
  intros Hk. unfold mbind, db_bind. rewrite delete_where_run. apply Hk. apply tbl_get_set.
Qed.

(** ** Invariants *)

Class Preserves {B} (P : Db → Prop) (m : DB B) : Prop :=
  preserves : ∀ db, P db → P (m db).1.

Section preserves.
Context (P : Db → Prop).

#[export] Instance preserves_ret {A} (a : A) : Preserves P (mret a).
Proof. intros db H. exact H. Qed.
#[export] Instance preserves_throw {A} e : Preserves P (@throw A e).
Proof. intros db H. exact H. Qed.
#[export] Instance preserves_query {A} (f : Db → A) : Preserves P (query f).
Proof. intros db H. exact H. Qed.
#[export] Instance preserves_bind {A B} (m : DB A) (k : A → DB B) :
  Preserves P m → (∀ a, Preserves P (k a)) → Preserves P (mbind k m).
Proof.
  intros Hm Hk db H. unfold mbind, db_bind. specialize (Hm db H).
  destruct (m db) as [db' [a|e]]; simpl in *; [by apply Hk|done].
Qed.
#[export] Instance preserves_for_each {A} (f : A → DB unit) l :
  (∀ x, Preserves P (f x)) → Preserves P (for_each f l).
Proof. intros Hf. induction l as [|x l IH]; simpl; apply _. Qed.
#[export] Instance preserves_if {A} (b : bool) (m n : DB A) :
  Preserves P m → Preserves P n → Preserves P (if b then m else n).
Proof. by destruct b. Qed.
#[export] Instance preserves_option {A B} (o : option A) (k : A → DB B) (n : DB B) :
  (∀ a, Preserves P (k a)) → Preserves P n →
  Preserves P (match o with Some a => k a | None => n end).
Proof. by destruct o. Qed.
#[export] Instance preserves_pair {A B C} (p : A * B) (k : A → B → DB C) :
  (∀ a b, Preserves P (k a b)) → Preserves P (let '(a, b) := p in k a b).
Proof. by destruct p. Qed.
#[export] Instance preserves_transaction {A} (m : DB A) :
  Preserves P m → Preserves P (transaction m).
Proof.
  intros Hm db H. unfold transaction. specialize (Hm db H).
  by destruct (m db) as [db' [a|e]].
Qed.
End preserves.

(** Code that succeeds from the states of [P] and stays in them. *)
Class Safe {B} (P : Db → Prop) (m : DB B) : Prop :=
  safe : ∀ db, P db → is_ok (m db).2 = true ∧ P (m db).1.

Section safe.
Context (P : Db → Prop).

Lemma safe_total {A} (m : DB A) : Total m → Preserves P m → Safe P m.
Proof. intros Ht Hp db Hd. split; [apply Ht|by apply Hp]. Qed.
Lemma safe_bind {A B} (m : DB A) (k : A → DB B) :
  Safe P m → (∀ a, Safe P (k a)) → Safe P (mbind k m).
Proof.
  intros Hm Hk db Hd. unfold mbind, db_bind. destruct (Hm db Hd) as [Ho Hp].
  destruct (m db) as [d [a|e]]; [by apply Hk|done].
Qed.
Lemma safe_for_each {A} (f : A → DB unit) l : (∀ x, Safe P (f x)) → Safe P (for_each f l).
Proof.
  intros Hf. induction l as [|x l IH]; cbn; [by intros db ?|]. apply safe_bind; auto.
Qed.
Lemma safe_ok (m : DB unit) db : Safe P m → P db → ∃ db', m db = (db', Ok tt) ∧ P db'.
Proof.
  intros Hm Hd. destruct (Hm db Hd) as [Ho Hp]. destruct (m db) as [d [[]|e]]; [eauto|done].
Qed.
End safe.
