(* ===== verification/Verify.v ===== *)
(** The checks of a submission (src/verify.rs, src/verifiers/): the crawl
    token, the verifiers, the chain that runs them in order, and the assembly
    of the chain from the environment. A panic at startup is [None]. *)

From S2P Require Import Prelude.
From S2P Require Import Model.
From S2P Require Import Ingest.
From S2P Require Import Event.
From S2P Require Import Medium.
From S2P Require Import Crates.
From S2P Require Import Store.

(** ** Results and context *)

Module VerifyResult.
Inductive VerifyResult : Type :=
  | Pass
  | Warn (msg : string)
  | Fail (msg : string).
End VerifyResult.
Abbreviation VerifyResult := VerifyResult.VerifyResult.

(** The request and the tables of the reader connection. The field [existing]
    of the source is read by no verifier. *)
Module IngestContext.
Record IngestContext : Type := mk {
  request : IngestFeedRequest;
  db : Db
}.
End IngestContext.
Abbreviation IngestContext := IngestContext.IngestContext.

(** The trait [Verifier]. *)
Module Verifier.
Record Verifier : Type := mk {
  name : string;
  verify : IngestContext → VerifyResult
}.
End Verifier.
Abbreviation Verifier := Verifier.Verifier.

Module VerifierChain.
Record VerifierChain : Type := mk {
  crawl_token : string;
  verifiers : list Verifier
}.
End VerifierChain.
Abbreviation VerifierChain := VerifierChain.VerifierChain.

Definition feed_data_of (ctx : IngestContext) : option IngestFeedData :=
  IngestFeedRequest.feed_data (IngestContext.request ctx).

(** ** The verifiers *)

Definition NO_CHANGE_SENTINEL : string := "NO_CHANGE".

Definition content_hash_verify (ctx : IngestContext) : VerifyResult :=
  let request := IngestContext.request ctx in
  if IngestFeedRequest.force_reingest request then VerifyResult.Pass
  else if is_some_and (λ feed, is_publisher (IngestFeedData.raw_medium feed)) (feed_data_of ctx)
  then VerifyResult.Pass
  else
    let last_hash := fst <$> feed_crawl_cache (IngestContext.db ctx)
                               !! IngestFeedRequest.canonical_url request in
    match last_hash with
    | Some h =>
        if h =s IngestFeedRequest.content_hash request
        then VerifyResult.Fail NO_CHANGE_SENTINEL
        else VerifyResult.Pass
    | None => VerifyResult.Pass
    end.

Definition medium_music_verify (ctx : IngestContext) : VerifyResult :=
  match (feed ← feed_data_of ctx; IngestFeedData.raw_medium feed) with
  | Some raw_medium =>
      if is_music (Some raw_medium) then VerifyResult.Pass
      else if is_publisher (Some raw_medium) then
        let has_music_child :=
          is_some_and (λ f,
            existsb (λ ri, is_music (IngestRemoteFeedRef.medium ri))
              (IngestFeedData.remote_items f)) (feed_data_of ctx) in
        if has_music_child then VerifyResult.Pass
        else VerifyResult.Fail "publisher feed has no remoteItem with medium='music'"
      else if is_musicl (Some raw_medium) then VerifyResult.Pass
      else VerifyResult.Fail
             ("medium is '" ++ raw_medium ++ "', expected 'music', 'publisher', or 'musicL'")
  | None =>
      VerifyResult.Fail "podcast:medium absent — must be 'music', 'publisher', or 'musicL'"
  end.

Definition BAD_GUIDS : list string := ["c9c7bad3-4712-514e-9ebd-d1e208fa1b76"%string].

Definition feed_guid_verify `{Web} (ctx : IngestContext) : VerifyResult :=
  match IngestFeedData.feed_guid <$> feed_data_of ctx with
  | None => VerifyResult.Pass
  | Some guid =>
      if bool_decide (guid ∈ BAD_GUIDS) then VerifyResult.Fail ("known bad guid: " ++ guid)
      else if negb (parse_uuid guid) then VerifyResult.Fail ("invalid uuid: " ++ guid)
      else VerifyResult.Pass
  end.

Definition valid_recipient (r : IngestPaymentRoute) : bool :=
  negb (str_is_empty (IngestPaymentRoute.address r)) && (0 <? IngestPaymentRoute.split r).

Definition validate_routes (context : string) (routes : list IngestPaymentRoute) :
    result string unit :=
  if existsb valid_recipient routes then Ok tt
  else Err (context ++ " podcast:value block has no valid recipient "
                    ++ "(all routes have empty address or zero split)")%string.

(** The loop over the tracks of [V4VPaymentVerifier]. *)
Fixpoint v4v_tracks (feed_routes_valid : bool) (tracks : list IngestTrackData) : VerifyResult :=
  match tracks with
  | [] => VerifyResult.Pass
  | track :: rest =>
      match IngestTrackData.payment_routes track with
      | [] =>
          if feed_routes_valid then v4v_tracks feed_routes_valid rest
          else VerifyResult.Fail
                 ("track '" ++ IngestTrackData.track_guid track
                  ++ "' declares no podcast:value block, and the feed has no "
                  ++ "feed-level block to fall back to")
      | routes =>
          match validate_routes ("track '" ++ IngestTrackData.track_guid track ++ "'") routes with
          | Err msg => VerifyResult.Fail msg
          | Ok _ => v4v_tracks feed_routes_valid rest
          end
      end
  end.

Definition v4v_payment_verify (ctx : IngestContext) : VerifyResult :=
  match feed_data_of ctx with
  | None => VerifyResult.Pass
  | Some feed_data =>
      if payment_exempt (IngestFeedData.raw_medium feed_data) then VerifyResult.Pass
      else
        let feed_routes_valid :=
          match IngestFeedData.feed_payment_routes feed_data with
          | [] => Ok false
          | routes => let? _ := validate_routes "feed" routes in Ok true
          end in
        match feed_routes_valid with
        | Err msg => VerifyResult.Fail msg
        | Ok feed_routes_valid =>
            if (match IngestFeedData.tracks feed_data with [] => true | _ => false end)
               && negb feed_routes_valid
            then VerifyResult.Fail
                   ("no feed-level podcast:value block and no tracks — feed does not "
                    ++ "participate in V4V")
            else v4v_tracks feed_routes_valid (IngestFeedData.tracks feed_data)
        end
  end.

(** [iter().sum()] of [i64]s wraps in the release profile. *)
Definition split_sum (routes : list IngestPaymentRoute) : Z :=
  foldl (λ sum r, i64_add sum (IngestPaymentRoute.split r)) 0 routes.

Fixpoint route_sum_tracks (tracks : list IngestTrackData) : VerifyResult :=
  match tracks with
  | [] => VerifyResult.Pass
  | track :: rest =>
      match IngestTrackData.payment_routes track with
      | [] => route_sum_tracks rest
      | routes =>
          let sum := split_sum routes in
          if negb (sum =? 100) then
            VerifyResult.Fail ("track '" ++ IngestTrackData.track_guid track
              ++ "' payment splits sum to " ++ pretty sum ++ " (expected 100)")
          else route_sum_tracks rest
      end
  end.

Definition payment_route_sum_verify (ctx : IngestContext) : VerifyResult :=
  match feed_data_of ctx with
  | None => VerifyResult.Pass
  | Some feed_data => route_sum_tracks (IngestFeedData.tracks feed_data)
  end.

Fixpoint enclosure_tracks (tracks : list IngestTrackData) : VerifyResult :=
  match tracks with
  | [] => VerifyResult.Pass
  | track :: rest =>
      match IngestTrackData.enclosure_type track with
      | Some mime =>
          if starts_with mime "video/" then
            VerifyResult.Warn ("track '" ++ IngestTrackData.track_guid track
              ++ "' has video enclosure type '" ++ mime ++ "'")
          else enclosure_tracks rest
      | None => enclosure_tracks rest
      end
  end.

Definition enclosure_type_verify (ctx : IngestContext) : VerifyResult :=
  match feed_data_of ctx with
  | None => VerifyResult.Pass
  | Some feed_data => enclosure_tracks (IngestFeedData.tracks feed_data)
  end.

(** ** The chain *)

(** [VerifierChain::new] panics on a blank token. *)
Definition chain_new (crawl_token : string) (verifiers : list Verifier) : option VerifierChain :=
  if str_is_empty (str_trim crawl_token) then None
  else Some (VerifierChain.mk crawl_token verifiers).

Definition token_matches `{Crates} (provided expected : string) : bool :=
  sha256 provided =s sha256 expected.

Definition authenticate `{Crates} (chain : VerifierChain) (req : IngestFeedRequest) :
    result string unit :=
  if token_matches (IngestFeedRequest.crawl_token req) (VerifierChain.crawl_token chain)
  then Ok tt
  else Err "[crawl_token] invalid crawl token"%string.

Definition tagged (v : Verifier) (msg : string) : string :=
  ("[" ++ Verifier.name v ++ "] " ++ msg)%string.

Fixpoint run_verifiers (vs : list Verifier) (ctx : IngestContext) (warnings : list string) :
    result string (list string) :=
  match vs with
  | [] => Ok warnings
  | v :: rest =>
      match Verifier.verify v ctx with
      | VerifyResult.Pass => run_verifiers rest ctx warnings
      | VerifyResult.Warn msg => run_verifiers rest ctx (warnings ++ [tagged v msg])
      | VerifyResult.Fail msg => Err (tagged v msg)
      end
  end.

(** [VerifierChain::run] *)
Definition run (chain : VerifierChain) (ctx : IngestContext) : result string (list string) :=
  run_verifiers (VerifierChain.verifiers chain) ctx [].

(** ** Assembly *)

Definition DEFAULT_CHAIN : string :=
  "content_hash,medium_music,feed_guid,v4v_payment,enclosure_type".

Definition csv_names (raw : string) : list string :=
  List.filter (λ s, negb (str_is_empty s)) (str_trim <$> split_on ","%char raw).

(** [ChainSpec::from_env], from the value of [VERIFIER_CHAIN]. *)
Definition from_env (var : option string) : list string :=
  match csv_names (unwrap_or "" var) with
  | [] => csv_names DEFAULT_CHAIN
  | names => names
  end.

(** One turn of the loop of [build_chain]: a panic, a skipped name, or a
    verifier. *)
Definition verifier_of_name `{Web} (name : string) : option (option Verifier) :=
  (if name =s "crawl_token" then None
   else if name =s "feed_blocklist" then Some None
   else if name =s "content_hash" then Some (Some (Verifier.mk name content_hash_verify))
   else if name =s "medium_music" then Some (Some (Verifier.mk name medium_music_verify))
   else if name =s "feed_guid" then Some (Some (Verifier.mk name feed_guid_verify))
   else if name =s "v4v_payment" then Some (Some (Verifier.mk name v4v_payment_verify))
   else if name =s "payment_route_sum"
        then Some (Some (Verifier.mk name payment_route_sum_verify))
   else if name =s "enclosure_type" then Some (Some (Verifier.mk name enclosure_type_verify))
   else None)%string.

Definition build_chain `{Web} (names : list string) (crawl_token : string) :
    option VerifierChain :=
  verifiers ← mapM verifier_of_name names;
  chain_new crawl_token (omap id verifiers).

Definition require_crawl_token (value : string) : result string unit :=
  if str_is_empty (str_trim value) then
    Err ("CRAWL_TOKEN must not be empty or white space only (ADR 0051 section 4: "
         ++ "the node checks the crawl token before any database read, and cannot "
         ++ "start without one)")%string
  else Ok tt.

(** ** Facts *)

Definition fails (v : Verifier) (ctx : IngestContext) : Prop :=
  ∃ msg, Verifier.verify v ctx = VerifyResult.Fail msg.

Definition warning_of (ctx : IngestContext) (v : Verifier) : option string :=
  match Verifier.verify v ctx with
  | VerifyResult.Warn msg => Some (tagged v msg)
  | _ => None
  end.

(** The chain accepts exactly when no verifier fails, with the warnings of
    all of them in order. *)
Lemma run_verifiers_ok vs ctx ws ws' :
  run_verifiers vs ctx ws = Ok ws' ↔
  Forall (λ v, ¬ fails v ctx) vs ∧ ws' = ws ++ omap (warning_of ctx) vs.
Proof.
  revert ws. induction vs as [|v vs IH]; intros ws; simpl.
  - rewrite app_nil_r. split; [intros [= ->]; by repeat constructor|by intros [_ ->]].
  - rewrite Forall_cons. unfold fails at 1, warning_of at 1.
    destruct (Verifier.verify v ctx) eqn:E; simpl.
    + rewrite IH. naive_solver.
    + rewrite IH, <-(assoc_L (++)). simpl. naive_solver.
    + naive_solver.
Qed.

(** The first verifier that fails gives the reason. *)
Lemma run_verifiers_err vs ctx ws reason :
  run_verifiers vs ctx ws = Err reason ↔
  ∃ before v after msg, vs = before ++ v :: after ∧ Forall (λ v, ¬ fails v ctx) before
    ∧ Verifier.verify v ctx = VerifyResult.Fail msg ∧ reason = tagged v msg.
Proof.
  revert ws. induction vs as [|v vs IH]; intros ws; simpl.
  - split; [done|]. intros (b & v & a & msg & Hv & _). by destruct b.
  - assert (∀ (Hv : ¬ fails v ctx),
      (∃ before v0 after msg, vs = before ++ v0 :: after ∧ Forall (λ v, ¬ fails v ctx) before
         ∧ Verifier.verify v0 ctx = VerifyResult.Fail msg ∧ reason = tagged v0 msg)
      ↔ (∃ before v0 after msg, v :: vs = before ++ v0 :: after
           ∧ Forall (λ v, ¬ fails v ctx) before
           ∧ Verifier.verify v0 ctx = VerifyResult.Fail msg ∧ reason = tagged v0 msg)) as Hskip.
    { intros Hv. split.
      - intros (b & w & a & msg & -> & Hb & Hw). exists (v :: b), w, a, msg. naive_solver.
      - intros (b & w & a & msg & Heq & Hb & Hw). destruct b as [|x b]; simplify_eq/=.
        + exfalso. apply Hv. exists msg. tauto.
        + apply Forall_cons in Hb as [_ Hb]. by exists b, w, a, msg. }
    destruct (Verifier.verify v ctx) eqn:E.
    + rewrite IH. apply Hskip. by intros [m Hm]; rewrite E in Hm.
    + rewrite IH. apply Hskip. by intros [m Hm]; rewrite E in Hm.
    + split.
      * intros [= <-]. exists [], v, vs, msg. by repeat constructor.
      * intros (b & w & a & m & Heq & Hb & Hw & ->). destruct b as [|x b]; simplify_eq/=.
        -- by rewrite E in Hw; simplify_eq.
        -- apply Forall_cons in Hb as [Hx _]. exfalso. apply Hx. by exists msg.
Qed.

(** *** What each verifier asks *)

Definition has_recipient (routes : list IngestPaymentRoute) : Prop :=
  ∃ r, r ∈ routes ∧ IngestPaymentRoute.address r ≠ ""%string ∧ 0 < IngestPaymentRoute.split r.

Lemma validate_routes_ok context routes :
  validate_routes context routes = Ok tt ↔ has_recipient routes.
Proof.
  unfold validate_routes, has_recipient.
  destruct (existsb valid_recipient routes) eqn:E.
  - split; [intros _|done]. apply existsb_exists in E as (r & Hr & Hv).
    unfold valid_recipient, str_is_empty in Hv. bool_facts.
    exists r. split; [by apply list_elem_of_In|done].
  - split; [done|]. intros (r & Hr & Ha & Hs). exfalso.
    rewrite <-not_true_iff_false in E. apply E, existsb_exists. exists r.
    split; [by apply list_elem_of_In|]. unfold valid_recipient, str_is_empty.
    apply andb_true_iff. rewrite negb_true_iff, String.eqb_neq, Z.ltb_lt. done.
Qed.

(** The routes that pay a track: its own, else those of the feed. *)
Definition paying_routes (feed : IngestFeedData) (track : IngestTrackData) :
    list IngestPaymentRoute :=
  match IngestTrackData.payment_routes track with
  | [] => IngestFeedData.feed_payment_routes feed
  | routes => routes
  end.

(** The rules of ADR 0048: a declared feed block is valid, a feed without
    tracks has one, and every track is paid by a valid recipient. *)
Definition covered (feed : IngestFeedData) : Prop :=
  (IngestFeedData.feed_payment_routes feed ≠ [] →
     has_recipient (IngestFeedData.feed_payment_routes feed))
  ∧ (IngestFeedData.tracks feed = [] → IngestFeedData.feed_payment_routes feed ≠ [])
  ∧ (∀ track, track ∈ IngestFeedData.tracks feed → has_recipient (paying_routes feed track)).

Lemma no_recipient : ¬ has_recipient [].
Proof. intros (r & Hr & _). set_solver. Qed.

Lemma v4v_tracks_pass feed (valid : bool) tracks :
  (valid = true ↔ has_recipient (IngestFeedData.feed_payment_routes feed)) →
  v4v_tracks valid tracks = VerifyResult.Pass ↔
  (∀ track, track ∈ tracks → has_recipient (paying_routes feed track)).
Proof.
  intros Hvalid. induction tracks as [|t ts IH]; simpl; [set_solver|].
  assert ((∀ track, track ∈ t :: ts → has_recipient (paying_routes feed track)) ↔
    has_recipient (paying_routes feed t)
    ∧ (∀ track, track ∈ ts → has_recipient (paying_routes feed track))) as -> by set_solver.
  unfold paying_routes at 1. destruct (IngestTrackData.payment_routes t) as [|r rs].
  - destruct valid.
    + rewrite IH. tauto.
    + split; [done|]. intros [Hr _]. apply Hvalid in Hr. done.
  - destruct (validate_routes _ (r :: rs)) as [[]|msg] eqn:E.
    + apply validate_routes_ok in E. rewrite IH. tauto.
    + split; [done|]. intros [Hr _].
      apply (validate_routes_ok ("track '" ++ IngestTrackData.track_guid t ++ "'")%string) in Hr.
      congruence.
Qed.

Lemma v4v_payment_spec ctx feed :
  feed_data_of ctx = Some feed →
  v4v_payment_verify ctx = VerifyResult.Pass ↔
  payment_exempt (IngestFeedData.raw_medium feed) = true ∨ covered feed.
Proof.
  intros Hf. unfold v4v_payment_verify, covered. rewrite Hf.
  destruct (payment_exempt _); [tauto|].
  destruct (IngestFeedData.feed_payment_routes feed) as [|r rs] eqn:Er.
  - assert (false = true ↔ has_recipient (IngestFeedData.feed_payment_routes feed)) as Hv.
    { rewrite Er. split; [done|]. by intros ?%no_recipient. }
    destruct (IngestFeedData.tracks feed) as [|t ts] eqn:Et; simpl negb; cbn [andb].
    + split; [done|]. intros [?|(_ & H & _)]; [done|]. by destruct (H eq_refl).
    + rewrite (v4v_tracks_pass feed false (t :: ts) Hv). naive_solver.
  - destruct (validate_routes "feed" (r :: rs)) as [[]|msg] eqn:E; cbn [rbind].
    + apply validate_routes_ok in E.
      assert (true = true ↔ has_recipient (IngestFeedData.feed_payment_routes feed)) as Hv
        by (by rewrite Er).
      rewrite andb_false_r, (v4v_tracks_pass feed true _ Hv). naive_solver.
    + split; [done|]. intros [?|(H & _)]; [done|].
      apply (validate_routes_ok "feed") in H; congruence.
Qed.
