(* ===== verification/Tables.v ===== *)
(** The row tables of the schema (migrations/): for each one the [Table] of
    its constraints and the proof of the [TableLaws]. *)

From S2P Require Import Prelude.
From S2P Require Import Model.
From S2P Require Import Store.

(** ** Foreign keys *)

(** [REFERENCES feeds(feed_guid)]. *)
Definition feed_exists (db : Db) (feed_guid : string) : bool :=
  is_some (feeds db !! feed_guid).

(** [REFERENCES tracks(feed_guid, track_guid)]. *)
Definition track_exists (db : Db) (feed_guid track_guid : string) : bool :=
  is_some (tracks db !! (feed_guid, track_guid)).

(** ** Stored forms

    [custom_key] and [custom_value] are stored with [unwrap_or("")] and read
    back with [NULLIF(.., '')]. *)

Definition custom_column (o : option string) : option string :=
  match o with
  | Some s => if str_is_empty s then None else Some s
  | None => None
  end.

Lemma custom_column_idemp o : custom_column (custom_column o) = custom_column o.
Proof. destruct o as [s|]; simpl; [|done]. destruct (str_is_empty s) eqn:H; simpl; by rewrite ?H. Qed.

Definition store_payment_route (n : Z) (r : PaymentRoute) : PaymentRoute :=
  PaymentRoute.mk (Some n) (PaymentRoute.track_guid r)
    (PaymentRoute.feed_guid r) (PaymentRoute.recipient_name r)
    (PaymentRoute.route_type r) (PaymentRoute.address r)
    (custom_column (PaymentRoute.custom_key r))
    (custom_column (PaymentRoute.custom_value r)) (PaymentRoute.split r)
    (PaymentRoute.fee r).

Definition store_feed_payment_route (n : Z) (r : FeedPaymentRoute) : FeedPaymentRoute :=
  FeedPaymentRoute.mk (Some n) (FeedPaymentRoute.feed_guid r)
    (FeedPaymentRoute.recipient_name r) (FeedPaymentRoute.route_type r)
    (FeedPaymentRoute.address r)
    (custom_column (FeedPaymentRoute.custom_key r))
    (custom_column (FeedPaymentRoute.custom_value r))
    (FeedPaymentRoute.split r) (FeedPaymentRoute.fee r).

Definition store_feed_list_value_raw (n : Z) (r : FeedListValueRaw) : FeedListValueRaw :=
  FeedListValueRaw.mk (Some n) (FeedListValueRaw.feed_guid r)
    (FeedListValueRaw.recipient_name r) (FeedListValueRaw.route_type r)
    (FeedListValueRaw.address r)
    (custom_column (FeedListValueRaw.custom_key r))
    (custom_column (FeedListValueRaw.custom_value r))
    (FeedListValueRaw.split r) (FeedListValueRaw.fee r)
    (FeedListValueRaw.position r).

Definition store_feed_remote_item_raw (n : Z) (r : FeedRemoteItemRaw) : FeedRemoteItemRaw :=
  FeedRemoteItemRaw.mk (Some n) (FeedRemoteItemRaw.feed_guid r)
    (FeedRemoteItemRaw.position r) (FeedRemoteItemRaw.medium r)
    (FeedRemoteItemRaw.remote_feed_guid r)
    (FeedRemoteItemRaw.remote_feed_url r) (FeedRemoteItemRaw.rel r)
    (FeedRemoteItemRaw.source r) (FeedRemoteItemRaw.remote_item_guid r)
    (FeedRemoteItemRaw.remote_item_title r).

Definition store_track_remote_item_raw (n : Z) (r : TrackRemoteItemRaw) : TrackRemoteItemRaw :=
  TrackRemoteItemRaw.mk (Some n) (TrackRemoteItemRaw.feed_guid r)
    (TrackRemoteItemRaw.track_guid r) (TrackRemoteItemRaw.position r)
    (TrackRemoteItemRaw.medium r) (TrackRemoteItemRaw.remote_feed_guid r)
    (TrackRemoteItemRaw.remote_feed_url r) (TrackRemoteItemRaw.rel r)
    (TrackRemoteItemRaw.source r).

Definition store_source_contributor_claim (n : Z) (r : SourceContributorClaim) : SourceContributorClaim :=
  SourceContributorClaim.mk (Some n) (SourceContributorClaim.feed_guid r)
    (SourceContributorClaim.entity_type r)
    (SourceContributorClaim.entity_id r) (SourceContributorClaim.position r)
    (SourceContributorClaim.name r) (SourceContributorClaim.role r)
    (SourceContributorClaim.role_norm r)
    (SourceContributorClaim.group_name r) (SourceContributorClaim.href r)
    (SourceContributorClaim.img r) (SourceContributorClaim.npub r)
    (SourceContributorClaim.source r)
    (SourceContributorClaim.extraction_path r)
    (SourceContributorClaim.observed_at r).

Definition store_source_entity_id_claim (n : Z) (r : SourceEntityIdClaim) : SourceEntityIdClaim :=
  SourceEntityIdClaim.mk (Some n) (SourceEntityIdClaim.feed_guid r)
    (SourceEntityIdClaim.entity_type r) (SourceEntityIdClaim.entity_id r)
    (SourceEntityIdClaim.position r) (SourceEntityIdClaim.scheme r)
    (SourceEntityIdClaim.value r) (SourceEntityIdClaim.source r)
    (SourceEntityIdClaim.extraction_path r)
    (SourceEntityIdClaim.observed_at r).

Definition store_source_entity_link (n : Z) (r : SourceEntityLink) : SourceEntityLink :=
  SourceEntityLink.mk (Some n) (SourceEntityLink.feed_guid r)
    (SourceEntityLink.entity_type r) (SourceEntityLink.entity_id r)
    (SourceEntityLink.position r) (SourceEntityLink.link_type r)
    (SourceEntityLink.url r) (SourceEntityLink.source r)
    (SourceEntityLink.extraction_path r) (SourceEntityLink.observed_at r)
    (SourceEntityLink.label r).

Definition store_source_release_claim (n : Z) (r : SourceReleaseClaim) : SourceReleaseClaim :=
  SourceReleaseClaim.mk (Some n) (SourceReleaseClaim.feed_guid r)
    (SourceReleaseClaim.entity_type r) (SourceReleaseClaim.entity_id r)
    (SourceReleaseClaim.position r) (SourceReleaseClaim.claim_type r)
    (SourceReleaseClaim.claim_value r) (SourceReleaseClaim.source r)
    (SourceReleaseClaim.extraction_path r)
    (SourceReleaseClaim.observed_at r).

Definition store_source_item_enclosure (n : Z) (r : SourceItemEnclosure) : SourceItemEnclosure :=
  SourceItemEnclosure.mk (Some n) (SourceItemEnclosure.feed_guid r)
    (SourceItemEnclosure.entity_type r) (SourceItemEnclosure.entity_id r)
    (SourceItemEnclosure.position r) (SourceItemEnclosure.url r)
    (SourceItemEnclosure.mime_type r) (SourceItemEnclosure.bytes r)
    (SourceItemEnclosure.rel r) (SourceItemEnclosure.title r)
    (SourceItemEnclosure.is_primary r) (SourceItemEnclosure.source r)
    (SourceItemEnclosure.extraction_path r)
    (SourceItemEnclosure.observed_at r).

Definition store_source_item_transcript (n : Z) (r : SourceItemTranscript) : SourceItemTranscript :=
  SourceItemTranscript.mk (Some n) (SourceItemTranscript.feed_guid r)
    (SourceItemTranscript.entity_type r) (SourceItemTranscript.entity_id r)
    (SourceItemTranscript.position r) (SourceItemTranscript.url r)
    (SourceItemTranscript.mime_type r) (SourceItemTranscript.language r)
    (SourceItemTranscript.rel r) (SourceItemTranscript.source r)
    (SourceItemTranscript.extraction_path r)
    (SourceItemTranscript.observed_at r).

Definition store_source_platform_claim (n : Z) (r : SourcePlatformClaim) : SourcePlatformClaim :=
  SourcePlatformClaim.mk (Some n) (SourcePlatformClaim.feed_guid r)
    (SourcePlatformClaim.platform_key r) (SourcePlatformClaim.url r)
    (SourcePlatformClaim.owner_name r) (SourcePlatformClaim.source r)
    (SourcePlatformClaim.extraction_path r)
    (SourcePlatformClaim.observed_at r).

Definition store_value_time_split (n : Z) (r : ValueTimeSplit) : ValueTimeSplit :=
  ValueTimeSplit.mk (Some n) (ValueTimeSplit.source_feed_guid r)
    (ValueTimeSplit.source_track_guid r) (ValueTimeSplit.position r)
    (ValueTimeSplit.form r) (ValueTimeSplit.start_time_secs r)
    (ValueTimeSplit.duration_secs r) (ValueTimeSplit.remote_feed_guid r)
    (ValueTimeSplit.remote_item_guid r)
    (ValueTimeSplit.remote_start_time_secs r)
    (ValueTimeSplit.remote_percentage r) (ValueTimeSplit.recipients r)
    (ValueTimeSplit.created_at r).

(** ** Checks *)

(** [CHECK(entity_type IN ('feed', 'track', 'live_item'))]. *)
Definition entity_type_ok (s : string) : bool :=
  (s =s "feed") || (s =s "track") || (s =s "live_item").

(** [CHECK(entity_type IN ('track', 'live_item'))]. *)
Definition item_type_ok (s : string) : bool :=
  (s =s "track") || (s =s "live_item").

(** [CHECK(status IN ('pending', 'live', 'ended'))]. *)
Definition live_status_ok (s : string) : bool :=
  (s =s "pending") || (s =s "live") || (s =s "ended").

(** ** Tables *)

Definition payment_routes_table : Table PaymentRoute (list SqlVal) := {|
  tbl_get := payment_routes;
  tbl_set := set_payment_routes;
  tbl_fk := λ r db, track_exists db (PaymentRoute.feed_guid r) (PaymentRoute.track_guid r);
  tbl_check := λ r, 0 <=? PaymentRoute.split r;
  tbl_key := λ _, None;
  tbl_store := store_payment_route;
  tbl_id := PaymentRoute.id
|}.

Definition feed_payment_routes_table : Table FeedPaymentRoute (list SqlVal) := {|
  tbl_get := feed_payment_routes;
  tbl_set := set_feed_payment_routes;
  tbl_fk := λ r db, feed_exists db (FeedPaymentRoute.feed_guid r);
  tbl_check := λ r, 0 <=? FeedPaymentRoute.split r;
  tbl_key := λ _, None;
  tbl_store := store_feed_payment_route;
  tbl_id := FeedPaymentRoute.id
|}.

Definition feed_list_value_raw_table : Table FeedListValueRaw (list SqlVal) := {|
  tbl_get := feed_list_value_raw;
  tbl_set := set_feed_list_value_raw;
  tbl_fk := λ r db, feed_exists db (FeedListValueRaw.feed_guid r);
  tbl_check := λ r, 0 <=? FeedListValueRaw.split r;
  tbl_key := λ _, None;
  tbl_store := store_feed_list_value_raw;
  tbl_id := FeedListValueRaw.id
|}.

Definition feed_remote_items_raw_table : Table FeedRemoteItemRaw (list SqlVal) := {|
  tbl_get := feed_remote_items_raw;
  tbl_set := set_feed_remote_items_raw;
  tbl_fk := λ r db, feed_exists db (FeedRemoteItemRaw.feed_guid r);
  tbl_check := λ r, true;
  tbl_key := λ r, Some [VText (FeedRemoteItemRaw.feed_guid r); VInt (FeedRemoteItemRaw.position r)];
  tbl_store := store_feed_remote_item_raw;
  tbl_id := FeedRemoteItemRaw.id
|}.

Definition source_contributor_claims_table : Table SourceContributorClaim (list SqlVal) := {|
  tbl_get := source_contributor_claims;
  tbl_set := set_source_contributor_claims;
  tbl_fk := λ r db, feed_exists db (SourceContributorClaim.feed_guid r);
  tbl_check := λ r, entity_type_ok (SourceContributorClaim.entity_type r);
  tbl_key := λ r, Some [VText (SourceContributorClaim.feed_guid r); VText (SourceContributorClaim.entity_type r); VText (SourceContributorClaim.entity_id r); VInt (SourceContributorClaim.position r); VText (SourceContributorClaim.source r)];
  tbl_store := store_source_contributor_claim;
  tbl_id := SourceContributorClaim.id
|}.

Definition source_entity_ids_table : Table SourceEntityIdClaim (list SqlVal) := {|
  tbl_get := source_entity_ids;
  tbl_set := set_source_entity_ids;
  tbl_fk := λ r db, feed_exists db (SourceEntityIdClaim.feed_guid r);
  tbl_check := λ r, entity_type_ok (SourceEntityIdClaim.entity_type r);
  tbl_key := λ r, Some [VText (SourceEntityIdClaim.feed_guid r); VText (SourceEntityIdClaim.entity_type r); VText (SourceEntityIdClaim.entity_id r); VText (SourceEntityIdClaim.scheme r); VText (SourceEntityIdClaim.value r)];
  tbl_store := store_source_entity_id_claim;
  tbl_id := SourceEntityIdClaim.id
|}.

Definition source_entity_links_table : Table SourceEntityLink (list SqlVal) := {|
  tbl_get := source_entity_links;
  tbl_set := set_source_entity_links;
  tbl_fk := λ r db, feed_exists db (SourceEntityLink.feed_guid r);
  tbl_check := λ r, entity_type_ok (SourceEntityLink.entity_type r);
  tbl_key := λ r, Some [VText (SourceEntityLink.feed_guid r); VText (SourceEntityLink.entity_type r); VText (SourceEntityLink.entity_id r); VText (SourceEntityLink.link_type r); VText (SourceEntityLink.url r)];
  tbl_store := store_source_entity_link;
  tbl_id := SourceEntityLink.id
|}.

Definition source_release_claims_table : Table SourceReleaseClaim (list SqlVal) := {|
  tbl_get := source_release_claims;
  tbl_set := set_source_release_claims;
  tbl_fk := λ r db, feed_exists db (SourceReleaseClaim.feed_guid r);
  tbl_check := λ r, entity_type_ok (SourceReleaseClaim.entity_type r);
  tbl_key := λ r, Some [VText (SourceReleaseClaim.feed_guid r); VText (SourceReleaseClaim.entity_type r); VText (SourceReleaseClaim.entity_id r); VText (SourceReleaseClaim.claim_type r); VInt (SourceReleaseClaim.position r)];
  tbl_store := store_source_release_claim;
  tbl_id := SourceReleaseClaim.id
|}.

Definition source_item_enclosures_table : Table SourceItemEnclosure (list SqlVal) := {|
  tbl_get := source_item_enclosures;
  tbl_set := set_source_item_enclosures;
  tbl_fk := λ r db, feed_exists db (SourceItemEnclosure.feed_guid r);
  tbl_check := λ r, item_type_ok (SourceItemEnclosure.entity_type r);
  tbl_key := λ r, Some [VText (SourceItemEnclosure.feed_guid r); VText (SourceItemEnclosure.entity_type r); VText (SourceItemEnclosure.entity_id r); VInt (SourceItemEnclosure.position r); VText (SourceItemEnclosure.url r)];
  tbl_store := store_source_item_enclosure;
  tbl_id := SourceItemEnclosure.id
|}.

Definition source_item_transcripts_table : Table SourceItemTranscript (list SqlVal) := {|
  tbl_get := source_item_transcripts;
  tbl_set := set_source_item_transcripts;
  tbl_fk := λ r db, feed_exists db (SourceItemTranscript.feed_guid r);
  tbl_check := λ r, item_type_ok (SourceItemTranscript.entity_type r);
  tbl_key := λ r, Some [VText (SourceItemTranscript.feed_guid r); VText (SourceItemTranscript.entity_type r); VText (SourceItemTranscript.entity_id r); VInt (SourceItemTranscript.position r); VText (SourceItemTranscript.url r)];
  tbl_store := store_source_item_transcript;
  tbl_id := SourceItemTranscript.id
|}.

Definition source_platform_claims_table : Table SourcePlatformClaim (list SqlVal) := {|
  tbl_get := source_platform_claims;
  tbl_set := set_source_platform_claims;
  tbl_fk := λ r db, feed_exists db (SourcePlatformClaim.feed_guid r);
  tbl_check := λ r, true;
  tbl_key := λ _, None;
  tbl_store := store_source_platform_claim;
  tbl_id := SourcePlatformClaim.id
|}.

(** The primary key of [live_events] is [(feed_guid, live_item_guid)]; the
    table has no [id]. *)
Definition live_events_table : Table LiveEvent (list SqlVal) := {|
  tbl_get := live_events;
  tbl_set := set_live_events;
  tbl_fk := λ r db, feed_exists db (LiveEvent.feed_guid r);
  tbl_check := λ r, live_status_ok (LiveEvent.status r);
  tbl_key := λ r, Some [VText (LiveEvent.feed_guid r); VText (LiveEvent.live_item_guid r)];
  tbl_store := λ _ r, r;
  tbl_id := λ _, None
|}.

(** A [NULL] feed column satisfies the foreign key and the [UNIQUE] key. *)
Definition track_remote_items_raw_table :
    Table (Scoped TrackRemoteItemRaw) (list SqlVal) := {|
  tbl_get := track_remote_items_raw;
  tbl_set := set_track_remote_items_raw;
  tbl_fk := λ s db,
    match Scoped.feed s with
    | None => true
    | Some f => track_exists db f (TrackRemoteItemRaw.track_guid (Scoped.row s))
    end;
  tbl_check := λ _, true;
  tbl_key := λ s,
    match Scoped.feed s with
    | None => None
    | Some f => Some [VText f; VText (TrackRemoteItemRaw.track_guid (Scoped.row s));
                      VInt (TrackRemoteItemRaw.position (Scoped.row s))]
    end;
  tbl_store := λ n s,
    Scoped.mk (Scoped.feed s) (store_track_remote_item_raw n (Scoped.row s));
  tbl_id := λ s, TrackRemoteItemRaw.id (Scoped.row s)
|}.

(** The row of a split, without its recipients: they are a table of their
    own in the schema, and a field of the split here. *)
Definition value_time_splits_table :
    Table (Scoped ValueTimeSplit) (list SqlVal) := {|
  tbl_get := value_time_splits;
  tbl_set := set_value_time_splits;
  tbl_fk := λ s db,
    match Scoped.feed s with
    | None => true
    | Some f => track_exists db f (ValueTimeSplit.source_track_guid (Scoped.row s))
    end;
  tbl_check := λ s,
    (ValueTimeSplit.form (Scoped.row s) == ValueTimeSplitForm.Local)
    || is_some (ValueTimeSplit.remote_feed_guid (Scoped.row s));
  tbl_key := λ _, None;
  tbl_store := λ n s,
    Scoped.mk (Scoped.feed s) (store_value_time_split n (Scoped.row s));
  tbl_id := λ s, ValueTimeSplit.id (Scoped.row s)
|}.

(** ** Laws *)

Ltac table_laws :=
  split; intros; repeat match goal with d : Db |- _ => destruct d end; done.

#[export] Instance payment_routes_laws : TableLaws payment_routes_table.
Proof. table_laws. Qed.
#[export] Instance feed_payment_routes_laws : TableLaws feed_payment_routes_table.
Proof. table_laws. Qed.
#[export] Instance feed_list_value_raw_laws : TableLaws feed_list_value_raw_table.
Proof. table_laws. Qed.
#[export] Instance feed_remote_items_raw_laws : TableLaws feed_remote_items_raw_table.
Proof. table_laws. Qed.
#[export] Instance source_contributor_claims_laws : TableLaws source_contributor_claims_table.
Proof. table_laws. Qed.
#[export] Instance source_entity_ids_laws : TableLaws source_entity_ids_table.
Proof. table_laws. Qed.
#[export] Instance source_entity_links_laws : TableLaws source_entity_links_table.
Proof. table_laws. Qed.
#[export] Instance source_release_claims_laws : TableLaws source_release_claims_table.
Proof. table_laws. Qed.
#[export] Instance source_item_enclosures_laws : TableLaws source_item_enclosures_table.
Proof. table_laws. Qed.
#[export] Instance source_item_transcripts_laws : TableLaws source_item_transcripts_table.
Proof. table_laws. Qed.
#[export] Instance source_platform_claims_laws : TableLaws source_platform_claims_table.
Proof. table_laws. Qed.
#[export] Instance live_events_laws : TableLaws live_events_table.
Proof. table_laws. Qed.
#[export] Instance track_remote_items_raw_laws : TableLaws track_remote_items_raw_table.
Proof. table_laws. Qed.
#[export] Instance value_time_splits_laws : TableLaws value_time_splits_table.
Proof. table_laws. Qed.
