(* ===== verification/Snapshot.v ===== *)
(** Row lists that are replaced as a whole.

    Most of what an event carries is such a list: all the rows of one feed,
    or of one track. [snap_replace] deletes the rows of a scope and inserts
    the new ones; [snap_get] reads them. The class [Snapshot] is what a list
    says of itself, [SnapshotLaws] is what the theorems here need of it, and
    [SnapshotDiff] adds the comparison that decides whether an ingest emits an
    event. RowLists.v has the instances. *)

From S2P Require Import Prelude.
From S2P Require Import Store.

(** [existing.iter().zip(new.iter()).any(f)]. *)
Definition any_zip {A} (f : A → A → bool) (l k : list A) : bool :=
  existsb (uncurry f) (zip l k).

Lemma any_zip_false {A F} (f : A → F) (d : A → A → bool) l k :
  (∀ a b, d a b = false ↔ f a = f b) →
  (length l != length k) || any_zip d l k = false ↔ f <$> l = f <$> k.
Proof.
  intros Hd. rewrite orb_false_iff, bne_false. unfold any_zip. split.
  - revert k. induction l as [|a l IH]; intros [|b k] [Hl Hz]; simpl in *;
      try done. apply orb_false_iff in Hz as [Hz1 Hz2].
    f_equal; [by apply Hd|]. apply IH. split; [lia|done].
  - revert k. induction l as [|a l IH]; intros [|b k] Hf; simpl in *; try done.
    injection Hf as Hab Hlk. destruct (IH k Hlk) as [? ?].
    split; [lia|]. apply orb_false_iff. split; [by apply Hd|done].
Qed.

(** The operations of a list. [X] is the type of the scopes. [snap_in x] is
    the condition of the [DELETE] and of the [SELECT] for [x]; [snap_own x]
    holds of the rows that a replace of [x] writes; [snap_exists] is what
    their foreign key asks. [snap_fields] leaves out [id] and the times;
    [snap_norm] is what storing a row does to it. *)
Class Snapshot {R X : Type} (T : Table R (list SqlVal)) : Type := mkSnapshot {
  snap_in : X → R → bool;
  snap_own : X → R → bool;
  snap_exists : X → Db → bool;
  snap_dedupe : list R → list R;
  snap_order : R → list SqlVal;
  snap_type : Type;
  snap_fields : R → snap_type;
  snap_norm : snap_type → snap_type;
  snap_cols : snap_type → list SqlVal
}.

Class SnapshotLaws {R X} (T : Table R (list SqlVal)) `{!Snapshot (X := X) T} : Prop := {
  snap_table_laws :: TableLaws T;
  snap_own_in : ∀ x r, snap_own x r = true → snap_in x r = true;
  snap_fk : ∀ x r db, snap_own x r = true → tbl_fk T r db = snap_exists x db;
  snap_clash : ∀ x r s k, snap_own x r = true →
    tbl_key T r = Some k → tbl_key T s = Some k → snap_in x s = true;
  snap_in_store : ∀ x n r, snap_in x (tbl_store T n r) = snap_in x r;
  snap_fields_store : ∀ n r,
    snap_fields (tbl_store T n r) = snap_norm (snap_fields r);
  snap_store_store : ∀ m n r, tbl_store T m (tbl_store T n r) = tbl_store T m r;
  snap_norm_idemp : ∀ v, snap_norm (snap_norm v) = snap_norm v;
  snap_cols_norm : ∀ v, snap_cols (snap_norm v) = snap_cols v;
  snap_order_fields : ∀ r, snap_order r = snap_cols (snap_fields r);
  snap_dedupe_sublist : ∀ l, sublist (snap_dedupe l) l
}.

(** The comparison of a stored list with a new one. *)
Class SnapshotDiff {R X} (T : Table R (list SqlVal)) `{!Snapshot (X := X) T} : Type :=
  mkSnapshotDiff {
  snap_changed : list R → list R → bool;
  snap_changed_spec : ∀ l k,
    snap_changed l k = false ↔ snap_fields <$> l = snap_fields <$> k
}.

Section snapshot.
Context {R X : Type} (T : Table R (list SqlVal)).
Context `{!Snapshot (X := X) T, !SnapshotLaws (X := X) T}.
Implicit Types (db : Db) (rows l : list R) (x y : X).

(** The rows of one scope, in [id] order. *)
Definition snap_rows x db : list R := List.filter (snap_in x) (tbl_get T db).

(** The read. *)
Definition snap_get x : DB (list R) :=
  query (λ db, order_by snap_order (snap_rows x db)).

(** The write. *)
Definition snap_replace x rows : DB unit :=
  _ ← delete_where T (snap_in x);
  for_each (insert T) (snap_dedupe rows).

(** What a reader of scope [x] sees, up to [id] and times. *)
Definition snap_view x db : list snap_type :=
  snap_fields <$> order_by snap_order (snap_rows x db).

(** The whole rows of a scope, but for the [id] that a node gives them. *)
Definition snap_bare x db : list R := tbl_store T 0 <$> snap_rows x db.

(** A scope is the same on two nodes: their readers see the same, and the rows
    are the same in all columns. *)
Definition snap_same x db db' : Prop :=
  snap_view x db' = snap_view x db ∧ snap_bare x db' ≡ₚ snap_bare x db.

(** Rows as the table stores them. *)
Definition snap_normal db : Prop :=
  ∀ r, r ∈ tbl_get T db → snap_norm (snap_fields r) = snap_fields r.

Definition others x db : list R := List.filter (negb ∘ snap_in x) (tbl_get T db).

Definition owned x rows : Prop := Forall (λ r, snap_own x r = true) rows.

Lemma snap_view_alt x db :
  snap_view x db = order_by snap_cols (snap_fields <$> snap_rows x db).
Proof using SnapshotLaws0.
  unfold snap_view. rewrite <-order_by_fmap. f_equal. unfold order_by.
  induction (snap_rows x db) as [|r l IH]; simpl; [done|]. rewrite IH.
  generalize (sort_by (λ a b, cols_le (snap_cols (snap_fields a))
    (snap_cols (snap_fields b))) l). intros k. clear IH.
  induction k as [|s k IH]; simpl; [done|].
  rewrite !snap_order_fields, IH. done.
Qed.

(** Only the rows of the loop itself can clash. *)
Lemma key_taken_others x l r :
  snap_own x r = true → (∀ s, s ∈ l → snap_in x s = false) →
  key_taken T l r = false.
Proof using SnapshotLaws0.
  intros Hr Hl. unfold key_taken. destruct (tbl_key T r) as [k|] eqn:Hk; [|done].
  apply not_true_iff_false. rewrite existsb_exists. intros (s & Hs & Hsk).
  apply bool_decide_eq_true in Hsk. apply list_elem_of_In, Hl in Hs.
  rewrite (snap_clash x r s k) in Hs by done. done.
Qed.

Lemma key_taken_app l k r :
  key_taken T (l ++ k) r = key_taken T l r || key_taken T k r.
Proof using Type.
  unfold key_taken. destruct (tbl_key T r); [|done]. apply existsb_app.
Qed.

Lemma key_taken_keys l k r :
  (tbl_key T <$> l) = (tbl_key T <$> k) → key_taken T l r = key_taken T k r.
Proof using Type.
  unfold key_taken. destruct (tbl_key T r) as [v|]; [|done].
  revert k. induction l as [|a l IH]; intros [|b k]; simpl; try done.
  intros [= Hab Hlk]. by rewrite Hab, (IH k).
Qed.

(** Whether a loop for scope [x] is acceptable does not depend on the rows
    of other scopes, nor on anything of the state but that [x] exists. *)
Lemma acceptable_transfer x rows db1 db2 l1 l2 k1 k2 :
  owned x rows →
  (∀ s, s ∈ l1 → snap_in x s = false) → (∀ s, s ∈ l2 → snap_in x s = false) →
  tbl_key T <$> k1 = tbl_key T <$> k2 →
  snap_exists x db2 = true →
  acceptable T db1 (l1 ++ k1) rows = true →
  acceptable T db2 (l2 ++ k2) rows = true.
Proof using SnapshotLaws0.
  intros Hf H1 H2. revert k1 k2.
  induction rows as [|r rows IH]; intros k1 k2 Hk Hex Ha; simpl in *; [done|].
  apply Forall_cons in Hf as [Hr Hf].
  apply andb_true_iff in Ha as [[[Hc Hkt]%andb_true_iff Hfk]%andb_true_iff Ha].
  rewrite Hc, (snap_fk x), Hex by done.
  rewrite key_taken_app, (key_taken_others x) in Hkt by done.
  rewrite key_taken_app, (key_taken_others x), <-(key_taken_keys k1 k2) by done.
  simpl in *. rewrite Hkt. simpl. rewrite <-app_assoc in *.
  eapply IH; [done| |done|exact Ha].
  rewrite !fmap_app, Hk. simpl. by rewrite !(tbl_key_store (T := T)).
Qed.

Lemma others_out x db s : s ∈ others x db → snap_in x s = false.
Proof using Type.
  unfold others. intros [Hs _]%elem_of_filterb. by apply negb_true_iff in Hs.
Qed.

Lemma owned_dedupe x rows : owned x rows → owned x (snap_dedupe rows).
Proof using SnapshotLaws0.
  unfold owned. rewrite !Forall_forall. intros H r Hr. apply H.
  eapply sublist_elem; [apply snap_dedupe_sublist|done].
Qed.

(** The rows that an insert loop for [x] adds are rows of [x]. *)
Lemma stored_new x l rows :
  owned x rows →
  ∃ new, stored_after T l rows = l ++ new
    ∧ (∀ s, s ∈ new → snap_in x s = true)
    ∧ snap_fields <$> new = snap_norm ∘ snap_fields <$> rows
    ∧ tbl_store T 0 <$> new = tbl_store T 0 <$> rows
    ∧ (∀ s, s ∈ new → ∃ n r, r ∈ rows ∧ s = tbl_store T n r).
Proof using SnapshotLaws0.
  intros Hrows. destruct (stored_after_app T l rows) as (new & Hn & Hlen & Hi).
  exists new. split; [done|].
  assert (∀ i s, new !! i = Some s →
    ∃ n r, rows !! i = Some r ∧ s = tbl_store T n r) as Hnew.
  { intros i s Hs. destruct (lookup_lt_is_Some_2 rows i) as [r Hr].
    { rewrite <-Hlen. by eapply lookup_lt_Some. }
    destruct (Hi i r Hr) as [n Hs']. simplify_eq. eauto. }
  split_and!.
  - intros s [i Hs]%list_elem_of_lookup.
    destruct (Hnew i s Hs) as (n & r & Hr & ->).
    rewrite (snap_in_store (T := T)). apply (snap_own_in (T := T)).
    by eapply Forall_lookup_1 in Hrows.
  - apply list_eq. intros i. rewrite !list_lookup_fmap.
    destruct (rows !! i) as [r|] eqn:Hr.
    + destruct (Hi i r Hr) as [n ->]. simpl. by rewrite (snap_fields_store (T := T)).
    + rewrite lookup_ge_None_2; [done|]. rewrite Hlen. by apply lookup_ge_None.
  - apply list_eq. intros i. rewrite !list_lookup_fmap.
    destruct (rows !! i) as [r|] eqn:Hr.
    + destruct (Hi i r Hr) as [n ->]. simpl. by rewrite (snap_store_store (T := T)).
    + rewrite lookup_ge_None_2; [done|]. rewrite Hlen. by apply lookup_ge_None.
  - intros s [i Hs]%list_elem_of_lookup.
    destruct (Hnew i s Hs) as (n & r & Hr & ->). exists n, r.
    split; [by eapply list_elem_of_lookup_2|done].
Qed.

(** What a replace does, when it succeeds. *)
Lemma snap_replace_inv x rows db db' :
  snap_replace x rows db = (db', Ok tt) →
  db' = tbl_set T (stored_after T (others x db) (snap_dedupe rows)) db
  ∧ acceptable T db (others x db) (snap_dedupe rows) = true.
Proof using SnapshotLaws0.
  unfold snap_replace, mbind, db_bind. rewrite delete_where_run.
  fold (others x db). set (db1 := tbl_set T (others x db) db).
  assert (tbl_get T db1 = others x db) as Hg by apply tbl_get_set.
  destruct (acceptable T db1 (tbl_get T db1) (snap_dedupe rows)) eqn:Ha.
  - rewrite (insert_all_ok T _ _ Ha). intros [= <-].
    rewrite Hg in *. unfold db1 in *. rewrite tbl_set_set.
    split; [done|]. by rewrite (acceptable_set T) in Ha.
  - apply insert_all_err in Ha; [|apply _]. intros H. by rewrite H in Ha.
Qed.

Lemma snap_replace_ok x rows db :
  acceptable T db (others x db) (snap_dedupe rows) = true →
  snap_replace x rows db
    = (tbl_set T (stored_after T (others x db) (snap_dedupe rows)) db, Ok tt).
Proof using SnapshotLaws0.
  intros Ha. unfold snap_replace, mbind, db_bind. rewrite delete_where_run.
  fold (others x db). rewrite (insert_all_ok T); rewrite tbl_get_set.
  - by rewrite tbl_set_set.
  - by rewrite (acceptable_set T).
Qed.

(** The rows of [x] after a replace of [x]. *)
Lemma snap_replace_rows x rows db db' :
  owned x rows →
  snap_replace x rows db = (db', Ok tt) →
  snap_fields <$> snap_rows x db' = snap_norm ∘ snap_fields <$> snap_dedupe rows.
Proof using SnapshotLaws0.
  intros Hf [-> Ha]%snap_replace_inv. unfold snap_rows. rewrite tbl_get_set.
  destruct (stored_new x (others x db) (snap_dedupe rows)) as (new & -> & Hin & Hn & _);
    [by apply owned_dedupe|].
  rewrite List.filter_app, filter_none by (apply others_out).
  by rewrite filter_all by done.
Qed.

Lemma snap_replace_bare x rows db db' :
  owned x rows →
  snap_replace x rows db = (db', Ok tt) →
  snap_bare x db' = tbl_store T 0 <$> snap_dedupe rows.
Proof using SnapshotLaws0.
  intros Hf [-> Ha]%snap_replace_inv. unfold snap_bare, snap_rows. rewrite tbl_get_set.
  destruct (stored_new x (others x db) (snap_dedupe rows)) as (new & -> & Hin & _ & Hb & _);
    [by apply owned_dedupe|].
  rewrite List.filter_app, filter_none by (apply others_out).
  by rewrite filter_all by done.
Qed.

(** After a replace of [x] the reader of [x] sees the rows of the call. *)
Lemma snap_replace_view x rows db db' :
  owned x rows →
  snap_replace x rows db = (db', Ok tt) →
  snap_view x db' = order_by snap_cols (snap_norm ∘ snap_fields <$> snap_dedupe rows).
Proof using SnapshotLaws0.
  intros Hf Hr. rewrite snap_view_alt. by rewrite (snap_replace_rows x rows db).
Qed.

(** ... and a reader of a scope with no row in common sees what it saw. *)
Lemma snap_replace_frame x y rows db db' :
  owned x rows →
  (∀ r, snap_in x r = true → snap_in y r = false) →
  snap_replace x rows db = (db', Ok tt) →
  snap_rows y db' = snap_rows y db.
Proof using SnapshotLaws0.
  intros Hf Hxy [-> Ha]%snap_replace_inv. unfold snap_rows.
  rewrite tbl_get_set.
  destruct (stored_new x (others x db) (snap_dedupe rows)) as (new & -> & Hin & _);
    [by apply owned_dedupe|].
  rewrite List.filter_app, (filter_none _ new), app_nil_r by auto.
  unfold others. induction (tbl_get T db) as [|r l IH]; simpl; [done|].
  destruct (snap_in x r) eqn:Hx; simpl; [by rewrite Hxy|].
  by rewrite IH.
Qed.

(** A replace that one node accepts, another node with the scope accepts,
    and the scope is then the same on both. *)
Lemma snap_replay x rows p p' r :
  owned x rows →
  snap_replace x rows p = (p', Ok tt) →
  snap_exists x r = true →
  ∃ r', snap_replace x rows r = (r', Ok tt) ∧ snap_same x p' r'.
Proof using SnapshotLaws0.
  intros Hf Hp Hex. pose proof Hp as [_ Ha]%snap_replace_inv.
  assert (acceptable T r (others x r) (snap_dedupe rows) = true) as Ha'.
  { rewrite <-(app_nil_r (others x r)). rewrite <-(app_nil_r (others x p)) in Ha.
    eapply acceptable_transfer; eauto using others_out, owned_dedupe. }
  eexists. split; [by apply snap_replace_ok|]. split.
  - rewrite (snap_replace_view x rows p p') by done.
    eapply snap_replace_view; [done|]. by apply snap_replace_ok.
  - rewrite (snap_replace_bare x rows p p') by done.
    erewrite snap_replace_bare; [done|done|]. by apply snap_replace_ok.
Qed.

(** As [snap_replay], with the rows of the second node in another order. *)
Lemma snap_accept x rows rows' p p' r :
  owned x rows → owned x rows' → snap_dedupe rows' ≡ₚ snap_dedupe rows →
  snap_replace x rows p = (p', Ok tt) →
  snap_exists x r = true →
  ∃ r', snap_replace x rows' r = (r', Ok tt).
Proof using SnapshotLaws0.
  intros Hf Hf' Hd [_ Ha]%snap_replace_inv Hex. eexists. apply snap_replace_ok.
  eapply (acceptable_perm T); [exact (Permutation_sym Hd)|].
  rewrite <-(app_nil_r (others x r)). rewrite <-(app_nil_r (others x p)) in Ha.
  eapply acceptable_transfer; eauto using others_out, owned_dedupe.
Qed.

(** When a replace succeeds. *)
Lemma snap_replace_succeeds x rows db :
  owned x rows →
  is_ok (snap_replace x rows db).2 = true ↔
  (∀ r, r ∈ snap_dedupe rows → tbl_check T r = true ∧ snap_exists x db = true)
  ∧ NoDup (keys T (snap_dedupe rows)).
Proof using SnapshotLaws0.
  intros Hf. pose proof (owned_dedupe x rows Hf) as Ho. unfold owned in Ho.
  rewrite Forall_forall in Ho.
  transitivity (acceptable T db (others x db) (snap_dedupe rows) = true).
  - destruct (acceptable T db (others x db) (snap_dedupe rows)) eqn:Ha.
    + by rewrite (snap_replace_ok x rows db Ha).
    + split; [|done]. intros Hok. destruct (snap_replace x rows db) as [d [[]|e]] eqn:Hr; [|done].
      apply snap_replace_inv in Hr as [_ Hr]. congruence.
  - rewrite (acceptable_spec T). split; intros [H1 H2]; split; try done; intros r Hr.
    + destruct (H1 r Hr) as (? & Hfk & _). split; [done|]. by rewrite <-(snap_fk x r) by auto.
    + destruct (H1 r Hr) as (? & Hex). split_and!; [done| |].
      * by rewrite (snap_fk x) by auto.
      * eapply key_taken_others; [by apply Ho|apply others_out].
Qed.

Lemma snap_view_get x db db' :
  tbl_get T db' = tbl_get T db → snap_view x db' = snap_view x db.
Proof using Type. unfold snap_view, snap_rows. by intros ->. Qed.

Lemma snap_view_rows x db db' :
  snap_rows x db' = snap_rows x db → snap_view x db' = snap_view x db.
Proof using Type. unfold snap_view. by intros ->. Qed.

Lemma snap_same_rows x db db1 db2 :
  snap_rows x db2 = snap_rows x db1 → snap_same x db db1 → snap_same x db db2.
Proof using Type. unfold snap_same, snap_view, snap_bare. by intros ->. Qed.

Lemma snap_same_from x db db' db1 :
  snap_rows x db = snap_rows x db' → snap_same x db' db1 → snap_same x db db1.
Proof using Type. unfold snap_same, snap_view, snap_bare. by intros ->. Qed.

Lemma snap_same_get x db db1 db2 :
  tbl_get T db2 = tbl_get T db1 → snap_same x db db1 → snap_same x db db2.
Proof using Type. intros Hg. apply snap_same_rows. unfold snap_rows. by rewrite Hg. Qed.

Lemma snap_same_nil x db db' : snap_rows x db = [] → snap_rows x db' = [] → snap_same x db db'.
Proof using Type. unfold snap_same, snap_view, snap_bare. by intros -> ->. Qed.

Lemma keeps_snap_replace {G} (g : Db → G) x rows :
  (∀ l db, g (tbl_set T l db) = g db) → Keeps g (snap_replace x rows).
Proof using Type.
  intros Hg. unfold snap_replace. apply keeps_bind; [by apply keeps_delete_where|].
  intros _. apply keeps_for_each. intros r. by apply keeps_insert.
Qed.

Lemma snap_view_norm x p : snap_normal p → snap_norm <$> snap_view x p = snap_view x p.
Proof using Type.
  intros Hn. unfold snap_view. rewrite <-list_fmap_compose. apply list_fmap_ext.
  intros i r Hr. apply Hn. apply list_elem_of_lookup_2 in Hr.
  rewrite order_by_perm in Hr. by apply elem_of_filterb in Hr as [_ Hr].
Qed.

(** A replace with what the reader sees already changes nothing he sees:
    the diff may leave the event out. *)
Lemma snap_unchanged `{!SnapshotDiff T} x rows p p' :
  owned x rows →
  snap_dedupe rows = rows → snap_normal p →
  snap_changed (order_by snap_order (snap_rows x p)) rows = false →
  snap_replace x rows p = (p', Ok tt) →
  snap_view x p' = snap_view x p.
Proof using SnapshotLaws0.
  intros Hf Hd Hn Hc%snap_changed_spec Hr.
  rewrite (snap_replace_view x rows p p') by done.
  rewrite Hd, list_fmap_compose, <-Hc. fold (snap_view x p).
  rewrite snap_view_norm by done.
  rewrite snap_view_alt. apply order_by_id, order_by_sorted.
Qed.

Lemma snap_normal_replace x rows db :
  snap_normal db → snap_normal (snap_replace x rows db).1.
Proof using SnapshotLaws0.
  intros Hn. unfold snap_replace, mbind, db_bind. rewrite delete_where_run.
  apply (for_each_invariant snap_normal).
  - intros r d _ Hd. unfold insert. repeat split_if; simpl; try done.
    intros s. rewrite tbl_get_set. intros [Hs|Hs]%elem_of_app; [by apply Hd|].
    apply list_elem_of_singleton in Hs as ->.
    by rewrite (snap_fields_store (T := T)), snap_norm_idemp.
  - intros s. rewrite tbl_get_set. intros [_ Hs]%elem_of_filterb. by apply Hn.
Qed.
End snapshot.
