(* ===== verification/RowLists.v ===== *)
(** The row lists of a feed and of a track (src/db.rs): for each one its
    reads, its write and its comparison; then the live-event rows of a feed. *)

From S2P Require Import Prelude.
From S2P Require Import Model.
From S2P Require Import Store.
From S2P Require Import Tables.
From S2P Require Import Snapshot.

(** The feed-scoped row lists of src/db.rs: for each one the [dedupe_*], the
    [get_*_for_feed] read, the [replace_*] write and the [*_changed]
    comparison, as the source has them; then each one as an instance of
    [Snapshot]. *)

(** ** [feed_payment_routes] *)

Definition get_feed_payment_routes_for_feed (feed_guid : string) : DB (list FeedPaymentRoute) :=
  query (λ db, List.filter (λ r, FeedPaymentRoute.feed_guid r =s feed_guid) (feed_payment_routes db)).

Definition replace_feed_payment_routes (feed_guid : string) (routes : list FeedPaymentRoute) : DB unit :=
  _ ← delete_where feed_payment_routes_table (λ r, FeedPaymentRoute.feed_guid r =s feed_guid);
  for_each (insert feed_payment_routes_table) routes.

Definition feed_routes_changed (existing new : list FeedPaymentRoute) : bool :=
  (length existing != length new)
  || any_zip (λ a b,
       (FeedPaymentRoute.recipient_name a != FeedPaymentRoute.recipient_name b)
       || (FeedPaymentRoute.route_type a != FeedPaymentRoute.route_type b)
       || (FeedPaymentRoute.address a != FeedPaymentRoute.address b)
       || (FeedPaymentRoute.custom_key a != FeedPaymentRoute.custom_key b)
       || (FeedPaymentRoute.custom_value a != FeedPaymentRoute.custom_value b)
       || (FeedPaymentRoute.split a != FeedPaymentRoute.split b)
       || (FeedPaymentRoute.fee a != FeedPaymentRoute.fee b))
       existing new.

(** What [feed_routes_changed] compares. *)
Definition feed_payment_routes_fields (r : FeedPaymentRoute) :=
  (FeedPaymentRoute.recipient_name r, FeedPaymentRoute.route_type r,
   FeedPaymentRoute.address r, FeedPaymentRoute.custom_key r,
   FeedPaymentRoute.custom_value r, FeedPaymentRoute.split r,
   FeedPaymentRoute.fee r).

(** ** [feed_list_value_raw] *)

Definition feed_list_value_raw_order (r : FeedListValueRaw) : list SqlVal :=
  [VInt (FeedListValueRaw.position r)].

Definition get_feed_list_value_raw_for_feed (feed_guid : string) : DB (list FeedListValueRaw) :=
  query (λ db, order_by feed_list_value_raw_order
    (List.filter (λ r, FeedListValueRaw.feed_guid r =s feed_guid) (feed_list_value_raw db))).

Definition replace_feed_list_value_raw (feed_guid : string) (list_values : list FeedListValueRaw) : DB unit :=
  _ ← delete_where feed_list_value_raw_table (λ r, FeedListValueRaw.feed_guid r =s feed_guid);
  for_each (insert feed_list_value_raw_table) list_values.

Definition feed_list_values_changed (existing new : list FeedListValueRaw) : bool :=
  (length existing != length new)
  || any_zip (λ a b,
       (FeedListValueRaw.recipient_name a != FeedListValueRaw.recipient_name b)
       || (FeedListValueRaw.route_type a != FeedListValueRaw.route_type b)
       || (FeedListValueRaw.address a != FeedListValueRaw.address b)
       || (FeedListValueRaw.custom_key a != FeedListValueRaw.custom_key b)
       || (FeedListValueRaw.custom_value a != FeedListValueRaw.custom_value b)
       || (FeedListValueRaw.split a != FeedListValueRaw.split b)
       || (FeedListValueRaw.fee a != FeedListValueRaw.fee b)
       || (FeedListValueRaw.position a != FeedListValueRaw.position b))
       existing new.

(** What [feed_list_values_changed] compares. *)
Definition feed_list_value_raw_fields (r : FeedListValueRaw) :=
  (FeedListValueRaw.recipient_name r, FeedListValueRaw.route_type r,
   FeedListValueRaw.address r, FeedListValueRaw.custom_key r,
   FeedListValueRaw.custom_value r, FeedListValueRaw.split r,
   FeedListValueRaw.fee r, FeedListValueRaw.position r).

(** ** [feed_remote_items_raw] *)

Definition feed_remote_items_raw_order (r : FeedRemoteItemRaw) : list SqlVal :=
  [VInt (FeedRemoteItemRaw.position r)].

Definition get_feed_remote_items_for_feed (feed_guid : string) : DB (list FeedRemoteItemRaw) :=
  query (λ db, order_by feed_remote_items_raw_order
    (List.filter (λ r, FeedRemoteItemRaw.feed_guid r =s feed_guid) (feed_remote_items_raw db))).

Definition replace_feed_remote_items_raw (feed_guid : string) (remote_items : list FeedRemoteItemRaw) : DB unit :=
  _ ← delete_where feed_remote_items_raw_table (λ r, FeedRemoteItemRaw.feed_guid r =s feed_guid);
  for_each (insert feed_remote_items_raw_table) remote_items.

Definition feed_remote_items_changed (existing new : list FeedRemoteItemRaw) : bool :=
  (length existing != length new)
  || any_zip (λ a b,
       (FeedRemoteItemRaw.position a != FeedRemoteItemRaw.position b)
       || (FeedRemoteItemRaw.medium a != FeedRemoteItemRaw.medium b)
       || (FeedRemoteItemRaw.remote_feed_guid a != FeedRemoteItemRaw.remote_feed_guid b)
       || (FeedRemoteItemRaw.remote_feed_url a != FeedRemoteItemRaw.remote_feed_url b)
       || (FeedRemoteItemRaw.rel a != FeedRemoteItemRaw.rel b)
       || (FeedRemoteItemRaw.source a != FeedRemoteItemRaw.source b)
       || (FeedRemoteItemRaw.remote_item_guid a != FeedRemoteItemRaw.remote_item_guid b)
       || (FeedRemoteItemRaw.remote_item_title a != FeedRemoteItemRaw.remote_item_title b))
       existing new.

(** What [feed_remote_items_changed] compares. *)
Definition feed_remote_items_raw_fields (r : FeedRemoteItemRaw) :=
  (FeedRemoteItemRaw.position r, FeedRemoteItemRaw.medium r,
   FeedRemoteItemRaw.remote_feed_guid r, FeedRemoteItemRaw.remote_feed_url r,
   FeedRemoteItemRaw.rel r, FeedRemoteItemRaw.source r,
   FeedRemoteItemRaw.remote_item_guid r, FeedRemoteItemRaw.remote_item_title r).

(** ** [source_contributor_claims] *)

Definition dedupe_source_contributor_claims (claims : list SourceContributorClaim) : list SourceContributorClaim :=
  dedupe_by (λ r, [VText (SourceContributorClaim.feed_guid r);
                    VText (SourceContributorClaim.entity_type r);
                    VText (SourceContributorClaim.entity_id r);
                    VInt (SourceContributorClaim.position r);
                    VText (SourceContributorClaim.source r)]) claims.

Definition source_contributor_claims_order (r : SourceContributorClaim) : list SqlVal :=
  [VText (SourceContributorClaim.entity_type r);
   VText (SourceContributorClaim.entity_id r);
   VInt (SourceContributorClaim.position r)].

Definition get_source_contributor_claims_for_feed (feed_guid : string) : DB (list SourceContributorClaim) :=
  query (λ db, order_by source_contributor_claims_order
    (List.filter (λ r, SourceContributorClaim.feed_guid r =s feed_guid) (source_contributor_claims db))).

Definition replace_source_contributor_claims_for_feed (feed_guid : string) (claims : list SourceContributorClaim) : DB unit :=
  _ ← delete_where source_contributor_claims_table (λ r, SourceContributorClaim.feed_guid r =s feed_guid);
  for_each (insert source_contributor_claims_table) (dedupe_source_contributor_claims claims).

Definition source_contributor_claims_changed (existing new : list SourceContributorClaim) : bool :=
  (length existing != length new)
  || any_zip (λ a b,
       (SourceContributorClaim.feed_guid a != SourceContributorClaim.feed_guid b)
       || (SourceContributorClaim.entity_type a != SourceContributorClaim.entity_type b)
       || (SourceContributorClaim.entity_id a != SourceContributorClaim.entity_id b)
       || (SourceContributorClaim.position a != SourceContributorClaim.position b)
       || (SourceContributorClaim.name a != SourceContributorClaim.name b)
       || (SourceContributorClaim.role a != SourceContributorClaim.role b)
       || (SourceContributorClaim.group_name a != SourceContributorClaim.group_name b)
       || (SourceContributorClaim.href a != SourceContributorClaim.href b)
       || (SourceContributorClaim.img a != SourceContributorClaim.img b)
       || (SourceContributorClaim.npub a != SourceContributorClaim.npub b)
       || (SourceContributorClaim.source a != SourceContributorClaim.source b)
       || (SourceContributorClaim.extraction_path a != SourceContributorClaim.extraction_path b))
       existing new.

(** What [source_contributor_claims_changed] compares. *)
Definition source_contributor_claims_fields (r : SourceContributorClaim) :=
  (SourceContributorClaim.feed_guid r, SourceContributorClaim.entity_type r,
   SourceContributorClaim.entity_id r, SourceContributorClaim.position r,
   SourceContributorClaim.name r, SourceContributorClaim.role r,
   SourceContributorClaim.group_name r, SourceContributorClaim.href r,
   SourceContributorClaim.img r, SourceContributorClaim.npub r,
   SourceContributorClaim.source r, SourceContributorClaim.extraction_path r).

(** ** [source_entity_ids] *)

Definition dedupe_source_entity_ids (claims : list SourceEntityIdClaim) : list SourceEntityIdClaim :=
  dedupe_by (λ r, [VText (SourceEntityIdClaim.feed_guid r);
                    VText (SourceEntityIdClaim.entity_type r);
                    VText (SourceEntityIdClaim.entity_id r);
                    VText (SourceEntityIdClaim.scheme r);
                    VText (SourceEntityIdClaim.value r)]) claims.

Definition source_entity_ids_order (r : SourceEntityIdClaim) : list SqlVal :=
  [VText (SourceEntityIdClaim.entity_type r);
   VText (SourceEntityIdClaim.entity_id r);
   VInt (SourceEntityIdClaim.position r);
   VText (SourceEntityIdClaim.scheme r); VText (SourceEntityIdClaim.value r)].

Definition get_source_entity_ids_for_feed (feed_guid : string) : DB (list SourceEntityIdClaim) :=
  query (λ db, order_by source_entity_ids_order
    (List.filter (λ r, SourceEntityIdClaim.feed_guid r =s feed_guid) (source_entity_ids db))).

Definition replace_source_entity_ids_for_feed (feed_guid : string) (claims : list SourceEntityIdClaim) : DB unit :=
  _ ← delete_where source_entity_ids_table (λ r, SourceEntityIdClaim.feed_guid r =s feed_guid);
  for_each (insert source_entity_ids_table) (dedupe_source_entity_ids claims).

Definition source_entity_ids_changed (existing new : list SourceEntityIdClaim) : bool :=
  (length existing != length new)
  || any_zip (λ a b,
       (SourceEntityIdClaim.feed_guid a != SourceEntityIdClaim.feed_guid b)
       || (SourceEntityIdClaim.entity_type a != SourceEntityIdClaim.entity_type b)
       || (SourceEntityIdClaim.entity_id a != SourceEntityIdClaim.entity_id b)
       || (SourceEntityIdClaim.position a != SourceEntityIdClaim.position b)
       || (SourceEntityIdClaim.scheme a != SourceEntityIdClaim.scheme b)
       || (SourceEntityIdClaim.value a != SourceEntityIdClaim.value b)
       || (SourceEntityIdClaim.source a != SourceEntityIdClaim.source b)
       || (SourceEntityIdClaim.extraction_path a != SourceEntityIdClaim.extraction_path b))
       existing new.

(** What [source_entity_ids_changed] compares. *)
Definition source_entity_ids_fields (r : SourceEntityIdClaim) :=
  (SourceEntityIdClaim.feed_guid r, SourceEntityIdClaim.entity_type r,
   SourceEntityIdClaim.entity_id r, SourceEntityIdClaim.position r,
   SourceEntityIdClaim.scheme r, SourceEntityIdClaim.value r,
   SourceEntityIdClaim.source r, SourceEntityIdClaim.extraction_path r).

(** ** [source_entity_links] *)

Definition dedupe_source_entity_links (links : list SourceEntityLink) : list SourceEntityLink :=
  dedupe_by (λ r, [VText (SourceEntityLink.feed_guid r);
                    VText (SourceEntityLink.entity_type r);
                    VText (SourceEntityLink.entity_id r);
                    VText (SourceEntityLink.link_type r);
                    VText (SourceEntityLink.url r)]) links.

Definition source_entity_links_order (r : SourceEntityLink) : list SqlVal :=
  [VText (SourceEntityLink.entity_type r);
   VText (SourceEntityLink.entity_id r); VInt (SourceEntityLink.position r);
   VText (SourceEntityLink.link_type r); VText (SourceEntityLink.url r)].

Definition get_source_entity_links_for_feed (feed_guid : string) : DB (list SourceEntityLink) :=
  query (λ db, order_by source_entity_links_order
    (List.filter (λ r, SourceEntityLink.feed_guid r =s feed_guid) (source_entity_links db))).

Definition replace_source_entity_links_for_feed (feed_guid : string) (links : list SourceEntityLink) : DB unit :=
  _ ← delete_where source_entity_links_table (λ r, SourceEntityLink.feed_guid r =s feed_guid);
  for_each (insert source_entity_links_table) (dedupe_source_entity_links links).

Definition source_entity_links_changed (existing new : list SourceEntityLink) : bool :=
  (length existing != length new)
  || any_zip (λ a b,
       (SourceEntityLink.feed_guid a != SourceEntityLink.feed_guid b)
       || (SourceEntityLink.entity_type a != SourceEntityLink.entity_type b)
       || (SourceEntityLink.entity_id a != SourceEntityLink.entity_id b)
       || (SourceEntityLink.position a != SourceEntityLink.position b)
       || (SourceEntityLink.link_type a != SourceEntityLink.link_type b)
       || (SourceEntityLink.url a != SourceEntityLink.url b)
       || (SourceEntityLink.source a != SourceEntityLink.source b)
       || (SourceEntityLink.extraction_path a != SourceEntityLink.extraction_path b)
       || (SourceEntityLink.label a != SourceEntityLink.label b))
       existing new.

(** What [source_entity_links_changed] compares. *)
Definition source_entity_links_fields (r : SourceEntityLink) :=
  (SourceEntityLink.feed_guid r, SourceEntityLink.entity_type r,
   SourceEntityLink.entity_id r, SourceEntityLink.position r,
   SourceEntityLink.link_type r, SourceEntityLink.url r,
   SourceEntityLink.source r, SourceEntityLink.extraction_path r,
   SourceEntityLink.label r).

(** ** [source_release_claims] *)

Definition dedupe_source_release_claims (claims : list SourceReleaseClaim) : list SourceReleaseClaim :=
  dedupe_by (λ r, [VText (SourceReleaseClaim.feed_guid r);
                    VText (SourceReleaseClaim.entity_type r);
                    VText (SourceReleaseClaim.entity_id r);
                    VText (SourceReleaseClaim.claim_type r);
                    VInt (SourceReleaseClaim.position r)]) claims.

Definition source_release_claims_order (r : SourceReleaseClaim) : list SqlVal :=
  [VText (SourceReleaseClaim.entity_type r);
   VText (SourceReleaseClaim.entity_id r);
   VText (SourceReleaseClaim.claim_type r);
   VInt (SourceReleaseClaim.position r)].

Definition get_source_release_claims_for_feed (feed_guid : string) : DB (list SourceReleaseClaim) :=
  query (λ db, order_by source_release_claims_order
    (List.filter (λ r, SourceReleaseClaim.feed_guid r =s feed_guid) (source_release_claims db))).

Definition replace_source_release_claims_for_feed (feed_guid : string) (claims : list SourceReleaseClaim) : DB unit :=
  _ ← delete_where source_release_claims_table (λ r, SourceReleaseClaim.feed_guid r =s feed_guid);
  for_each (insert source_release_claims_table) (dedupe_source_release_claims claims).

Definition source_release_claims_changed (existing new : list SourceReleaseClaim) : bool :=
  (length existing != length new)
  || any_zip (λ a b,
       (SourceReleaseClaim.feed_guid a != SourceReleaseClaim.feed_guid b)
       || (SourceReleaseClaim.entity_type a != SourceReleaseClaim.entity_type b)
       || (SourceReleaseClaim.entity_id a != SourceReleaseClaim.entity_id b)
       || (SourceReleaseClaim.position a != SourceReleaseClaim.position b)
       || (SourceReleaseClaim.claim_type a != SourceReleaseClaim.claim_type b)
       || (SourceReleaseClaim.claim_value a != SourceReleaseClaim.claim_value b)
       || (SourceReleaseClaim.source a != SourceReleaseClaim.source b)
       || (SourceReleaseClaim.extraction_path a != SourceReleaseClaim.extraction_path b))
       existing new.

(** What [source_release_claims_changed] compares. *)
Definition source_release_claims_fields (r : SourceReleaseClaim) :=
  (SourceReleaseClaim.feed_guid r, SourceReleaseClaim.entity_type r,
   SourceReleaseClaim.entity_id r, SourceReleaseClaim.position r,
   SourceReleaseClaim.claim_type r, SourceReleaseClaim.claim_value r,
   SourceReleaseClaim.source r, SourceReleaseClaim.extraction_path r).

(** ** [source_item_enclosures] *)

Definition dedupe_source_item_enclosures (enclosures : list SourceItemEnclosure) : list SourceItemEnclosure :=
  dedupe_by (λ r, [VText (SourceItemEnclosure.feed_guid r);
                    VText (SourceItemEnclosure.entity_type r);
                    VText (SourceItemEnclosure.entity_id r);
                    VInt (SourceItemEnclosure.position r);
                    VText (SourceItemEnclosure.url r)]) enclosures.

Definition source_item_enclosures_order (r : SourceItemEnclosure) : list SqlVal :=
  [VText (SourceItemEnclosure.entity_type r);
   VText (SourceItemEnclosure.entity_id r);
   VInt (SourceItemEnclosure.position r); VText (SourceItemEnclosure.url r)].

Definition get_source_item_enclosures_for_feed (feed_guid : string) : DB (list SourceItemEnclosure) :=
  query (λ db, order_by source_item_enclosures_order
    (List.filter (λ r, SourceItemEnclosure.feed_guid r =s feed_guid) (source_item_enclosures db))).

Definition replace_source_item_enclosures_for_feed (feed_guid : string) (enclosures : list SourceItemEnclosure) : DB unit :=
  _ ← delete_where source_item_enclosures_table (λ r, SourceItemEnclosure.feed_guid r =s feed_guid);
  for_each (insert source_item_enclosures_table) (dedupe_source_item_enclosures enclosures).

Definition source_item_enclosures_changed (existing new : list SourceItemEnclosure) : bool :=
  (length existing != length new)
  || any_zip (λ a b,
       (SourceItemEnclosure.feed_guid a != SourceItemEnclosure.feed_guid b)
       || (SourceItemEnclosure.entity_type a != SourceItemEnclosure.entity_type b)
       || (SourceItemEnclosure.entity_id a != SourceItemEnclosure.entity_id b)
       || (SourceItemEnclosure.position a != SourceItemEnclosure.position b)
       || (SourceItemEnclosure.url a != SourceItemEnclosure.url b)
       || (SourceItemEnclosure.mime_type a != SourceItemEnclosure.mime_type b)
       || (SourceItemEnclosure.bytes a != SourceItemEnclosure.bytes b)
       || (SourceItemEnclosure.rel a != SourceItemEnclosure.rel b)
       || (SourceItemEnclosure.title a != SourceItemEnclosure.title b)
       || (SourceItemEnclosure.is_primary a != SourceItemEnclosure.is_primary b)
       || (SourceItemEnclosure.source a != SourceItemEnclosure.source b)
       || (SourceItemEnclosure.extraction_path a != SourceItemEnclosure.extraction_path b))
       existing new.

(** What [source_item_enclosures_changed] compares. *)
Definition source_item_enclosures_fields (r : SourceItemEnclosure) :=
  (SourceItemEnclosure.feed_guid r, SourceItemEnclosure.entity_type r,
   SourceItemEnclosure.entity_id r, SourceItemEnclosure.position r,
   SourceItemEnclosure.url r, SourceItemEnclosure.mime_type r,
   SourceItemEnclosure.bytes r, SourceItemEnclosure.rel r,
   SourceItemEnclosure.title r, SourceItemEnclosure.is_primary r,
   SourceItemEnclosure.source r, SourceItemEnclosure.extraction_path r).

(** ** [source_item_transcripts] *)

Definition dedupe_source_item_transcripts (transcripts : list SourceItemTranscript) : list SourceItemTranscript :=
  dedupe_by (λ r, [VText (SourceItemTranscript.feed_guid r);
                    VText (SourceItemTranscript.entity_type r);
                    VText (SourceItemTranscript.entity_id r);
                    VInt (SourceItemTranscript.position r);
                    VText (SourceItemTranscript.url r)]) transcripts.

Definition source_item_transcripts_order (r : SourceItemTranscript) : list SqlVal :=
  [VText (SourceItemTranscript.entity_type r);
   VText (SourceItemTranscript.entity_id r);
   VInt (SourceItemTranscript.position r); VText (SourceItemTranscript.url r)].

Definition get_source_item_transcripts_for_feed (feed_guid : string) : DB (list SourceItemTranscript) :=
  query (λ db, order_by source_item_transcripts_order
    (List.filter (λ r, SourceItemTranscript.feed_guid r =s feed_guid) (source_item_transcripts db))).

Definition replace_source_item_transcripts_for_feed (feed_guid : string) (transcripts : list SourceItemTranscript) : DB unit :=
  _ ← delete_where source_item_transcripts_table (λ r, SourceItemTranscript.feed_guid r =s feed_guid);
  for_each (insert source_item_transcripts_table) (dedupe_source_item_transcripts transcripts).

Definition source_item_transcripts_changed (existing new : list SourceItemTranscript) : bool :=
  (length existing != length new)
  || any_zip (λ a b,
       (SourceItemTranscript.feed_guid a != SourceItemTranscript.feed_guid b)
       || (SourceItemTranscript.entity_type a != SourceItemTranscript.entity_type b)
       || (SourceItemTranscript.entity_id a != SourceItemTranscript.entity_id b)
       || (SourceItemTranscript.position a != SourceItemTranscript.position b)
       || (SourceItemTranscript.url a != SourceItemTranscript.url b)
       || (SourceItemTranscript.mime_type a != SourceItemTranscript.mime_type b)
       || (SourceItemTranscript.language a != SourceItemTranscript.language b)
       || (SourceItemTranscript.rel a != SourceItemTranscript.rel b)
       || (SourceItemTranscript.source a != SourceItemTranscript.source b)
       || (SourceItemTranscript.extraction_path a != SourceItemTranscript.extraction_path b))
       existing new.

(** What [source_item_transcripts_changed] compares. *)
Definition source_item_transcripts_fields (r : SourceItemTranscript) :=
  (SourceItemTranscript.feed_guid r, SourceItemTranscript.entity_type r,
   SourceItemTranscript.entity_id r, SourceItemTranscript.position r,
   SourceItemTranscript.url r, SourceItemTranscript.mime_type r,
   SourceItemTranscript.language r, SourceItemTranscript.rel r,
   SourceItemTranscript.source r, SourceItemTranscript.extraction_path r).

(** ** [source_platform_claims] *)

Definition source_platform_claims_order (r : SourcePlatformClaim) : list SqlVal :=
  [VText (SourcePlatformClaim.platform_key r);
   VText (SourcePlatformClaim.extraction_path r);
   v_opt_text (SourcePlatformClaim.url r);
   v_opt_text (SourcePlatformClaim.owner_name r)].

Definition get_source_platform_claims_for_feed (feed_guid : string) : DB (list SourcePlatformClaim) :=
  query (λ db, order_by source_platform_claims_order
    (List.filter (λ r, SourcePlatformClaim.feed_guid r =s feed_guid) (source_platform_claims db))).

Definition replace_source_platform_claims_for_feed (feed_guid : string) (claims : list SourcePlatformClaim) : DB unit :=
  _ ← delete_where source_platform_claims_table (λ r, SourcePlatformClaim.feed_guid r =s feed_guid);
  for_each (insert source_platform_claims_table) claims.

Definition source_platform_claims_changed (existing new : list SourcePlatformClaim) : bool :=
  (length existing != length new)
  || any_zip (λ a b,
       (SourcePlatformClaim.feed_guid a != SourcePlatformClaim.feed_guid b)
       || (SourcePlatformClaim.platform_key a != SourcePlatformClaim.platform_key b)
       || (SourcePlatformClaim.url a != SourcePlatformClaim.url b)
       || (SourcePlatformClaim.owner_name a != SourcePlatformClaim.owner_name b)
       || (SourcePlatformClaim.source a != SourcePlatformClaim.source b)
       || (SourcePlatformClaim.extraction_path a != SourcePlatformClaim.extraction_path b))
       existing new.

(** What [source_platform_claims_changed] compares. *)
Definition source_platform_claims_fields (r : SourcePlatformClaim) :=
  (SourcePlatformClaim.feed_guid r, SourcePlatformClaim.platform_key r,
   SourcePlatformClaim.url r, SourcePlatformClaim.owner_name r,
   SourcePlatformClaim.source r, SourcePlatformClaim.extraction_path r).

(** ** Instances *)

#[export] Instance feed_payment_routes_snapshot : Snapshot feed_payment_routes_table := {|
  snap_in := λ f r, FeedPaymentRoute.feed_guid r =s f;
  snap_own := λ f r, FeedPaymentRoute.feed_guid r =s f;
  snap_exists := λ f db, feed_exists db f;
  snap_dedupe := λ l, l;
  snap_order := λ _, [];
  snap_fields := feed_payment_routes_fields;
  snap_norm := λ '(recipient_name, route_type, address, custom_key, custom_value, split, fee),
    (recipient_name, route_type, address, custom_column custom_key, custom_column custom_value, split, fee);
  snap_cols := λ _, []
|}.

#[export] Instance feed_list_value_raw_snapshot : Snapshot feed_list_value_raw_table := {|
  snap_in := λ f r, FeedListValueRaw.feed_guid r =s f;
  snap_own := λ f r, FeedListValueRaw.feed_guid r =s f;
  snap_exists := λ f db, feed_exists db f;
  snap_dedupe := λ l, l;
  snap_order := feed_list_value_raw_order;
  snap_fields := feed_list_value_raw_fields;
  snap_norm := λ '(recipient_name, route_type, address, custom_key, custom_value, split, fee, position),
    (recipient_name, route_type, address, custom_column custom_key, custom_column custom_value, split, fee, position);
  snap_cols := λ '(_, _, _, _, _, _, _, position),
    [VInt position]
|}.

#[export] Instance feed_remote_items_raw_snapshot : Snapshot feed_remote_items_raw_table := {|
  snap_in := λ f r, FeedRemoteItemRaw.feed_guid r =s f;
  snap_own := λ f r, FeedRemoteItemRaw.feed_guid r =s f;
  snap_exists := λ f db, feed_exists db f;
  snap_dedupe := λ l, l;
  snap_order := feed_remote_items_raw_order;
  snap_fields := feed_remote_items_raw_fields;
  snap_norm := λ x, x;
  snap_cols := λ '(position, _, _, _, _, _, _, _),
    [VInt position]
|}.

#[export] Instance source_contributor_claims_snapshot : Snapshot source_contributor_claims_table := {|
  snap_in := λ f r, SourceContributorClaim.feed_guid r =s f;
  snap_own := λ f r, SourceContributorClaim.feed_guid r =s f;
  snap_exists := λ f db, feed_exists db f;
  snap_dedupe := dedupe_source_contributor_claims;
  snap_order := source_contributor_claims_order;
  snap_fields := source_contributor_claims_fields;
  snap_norm := λ x, x;
  snap_cols := λ '(_, entity_type, entity_id, position, _, _, _, _, _, _, _, _),
    [VText entity_type; VText entity_id; VInt position]
|}.

#[export] Instance source_entity_ids_snapshot : Snapshot source_entity_ids_table := {|
  snap_in := λ f r, SourceEntityIdClaim.feed_guid r =s f;
  snap_own := λ f r, SourceEntityIdClaim.feed_guid r =s f;
  snap_exists := λ f db, feed_exists db f;
  snap_dedupe := dedupe_source_entity_ids;
  snap_order := source_entity_ids_order;
  snap_fields := source_entity_ids_fields;
  snap_norm := λ x, x;
  snap_cols := λ '(_, entity_type, entity_id, position, scheme, value, _, _),
    [VText entity_type; VText entity_id; VInt position; VText scheme; VText value]
|}.

#[export] Instance source_entity_links_snapshot : Snapshot source_entity_links_table := {|
  snap_in := λ f r, SourceEntityLink.feed_guid r =s f;
  snap_own := λ f r, SourceEntityLink.feed_guid r =s f;
  snap_exists := λ f db, feed_exists db f;
  snap_dedupe := dedupe_source_entity_links;
  snap_order := source_entity_links_order;
  snap_fields := source_entity_links_fields;
  snap_norm := λ x, x;
  snap_cols := λ '(_, entity_type, entity_id, position, link_type, url, _, _, _),
    [VText entity_type; VText entity_id; VInt position; VText link_type; VText url]
|}.

#[export] Instance source_release_claims_snapshot : Snapshot source_release_claims_table := {|
  snap_in := λ f r, SourceReleaseClaim.feed_guid r =s f;
  snap_own := λ f r, SourceReleaseClaim.feed_guid r =s f;
  snap_exists := λ f db, feed_exists db f;
  snap_dedupe := dedupe_source_release_claims;
  snap_order := source_release_claims_order;
  snap_fields := source_release_claims_fields;
  snap_norm := λ x, x;
  snap_cols := λ '(_, entity_type, entity_id, position, claim_type, _, _, _),
    [VText entity_type; VText entity_id; VText claim_type; VInt position]
|}.

#[export] Instance source_item_enclosures_snapshot : Snapshot source_item_enclosures_table := {|
  snap_in := λ f r, SourceItemEnclosure.feed_guid r =s f;
  snap_own := λ f r, SourceItemEnclosure.feed_guid r =s f;
  snap_exists := λ f db, feed_exists db f;
  snap_dedupe := dedupe_source_item_enclosures;
  snap_order := source_item_enclosures_order;
  snap_fields := source_item_enclosures_fields;
  snap_norm := λ x, x;
  snap_cols := λ '(_, entity_type, entity_id, position, url, _, _, _, _, _, _, _),
    [VText entity_type; VText entity_id; VInt position; VText url]
|}.

#[export] Instance source_item_transcripts_snapshot : Snapshot source_item_transcripts_table := {|
  snap_in := λ f r, SourceItemTranscript.feed_guid r =s f;
  snap_own := λ f r, SourceItemTranscript.feed_guid r =s f;
  snap_exists := λ f db, feed_exists db f;
  snap_dedupe := dedupe_source_item_transcripts;
  snap_order := source_item_transcripts_order;
  snap_fields := source_item_transcripts_fields;
  snap_norm := λ x, x;
  snap_cols := λ '(_, entity_type, entity_id, position, url, _, _, _, _, _),
    [VText entity_type; VText entity_id; VInt position; VText url]
|}.

#[export] Instance source_platform_claims_snapshot : Snapshot source_platform_claims_table := {|
  snap_in := λ f r, SourcePlatformClaim.feed_guid r =s f;
  snap_own := λ f r, SourcePlatformClaim.feed_guid r =s f;
  snap_exists := λ f db, feed_exists db f;
  snap_dedupe := λ l, l;
  snap_order := source_platform_claims_order;
  snap_fields := source_platform_claims_fields;
  snap_norm := λ x, x;
  snap_cols := λ '(_, platform_key, url, owner_name, _, extraction_path),
    [VText platform_key; VText extraction_path; v_opt_text url; v_opt_text owner_name]
|}.

(** ** Laws *)

(** For a table whose [UNIQUE] key starts with the feed GUID, or that has
    none. *)
Ltac feed_clash :=
  let x := fresh "x" in let r := fresh "r" in let s := fresh "s" in
  let Hr := fresh "Hr" in let Hk := fresh "Hk" in let Hs := fresh "Hs" in
  intros x r s k Hr Hk Hs; cbn in *;
  first [ discriminate
        | injection Hk as <-; injection Hs as Hs _; by rewrite Hs ].

Ltac snapshot_laws :=
  split;
  [ apply _
  | done
  | intros x r db Hr%String.eqb_eq; cbn in *; by subst
  | feed_clash
  | done
  | done
  | intros m n []; cbv -[custom_column]; by rewrite ?custom_column_idemp
  | intros x; repeat (destruct x as [x ?]); cbn; by rewrite ?custom_column_idemp
  | intros x; repeat (destruct x as [x ?]); done
  | done
  | intros l; first [apply dedupe_by_sublist | done] ].

#[export] Instance feed_payment_routes_snapshot_laws : SnapshotLaws feed_payment_routes_table.
Proof. snapshot_laws. Qed.
#[export] Instance feed_list_value_raw_snapshot_laws : SnapshotLaws feed_list_value_raw_table.
Proof. snapshot_laws. Qed.
#[export] Instance feed_remote_items_raw_snapshot_laws : SnapshotLaws feed_remote_items_raw_table.
Proof. snapshot_laws. Qed.
#[export] Instance source_contributor_claims_snapshot_laws : SnapshotLaws source_contributor_claims_table.
Proof. snapshot_laws. Qed.
#[export] Instance source_entity_ids_snapshot_laws : SnapshotLaws source_entity_ids_table.
Proof. snapshot_laws. Qed.
#[export] Instance source_entity_links_snapshot_laws : SnapshotLaws source_entity_links_table.
Proof. snapshot_laws. Qed.
#[export] Instance source_release_claims_snapshot_laws : SnapshotLaws source_release_claims_table.
Proof. snapshot_laws. Qed.
#[export] Instance source_item_enclosures_snapshot_laws : SnapshotLaws source_item_enclosures_table.
Proof. snapshot_laws. Qed.
#[export] Instance source_item_transcripts_snapshot_laws : SnapshotLaws source_item_transcripts_table.
Proof. snapshot_laws. Qed.
#[export] Instance source_platform_claims_snapshot_laws : SnapshotLaws source_platform_claims_table.
Proof. snapshot_laws. Qed.

(** ** Comparisons *)

(** The fields agree when each comparison of the diff finds them equal. *)
Ltac snapshot_diff fields :=
  intros l k; apply any_zip_false; intros a b;
  change (snap_fields a = snap_fields b) with (fields a = fields b);
  unfold fields; rewrite ?orb_false_iff, ?bne_false, ?pair_equal_spec;
  tauto.

#[export] Instance feed_payment_routes_diff : SnapshotDiff feed_payment_routes_table.
Proof. refine (mkSnapshotDiff _ _ _ _ feed_routes_changed _). snapshot_diff feed_payment_routes_fields. Defined.
#[export] Instance feed_list_value_raw_diff : SnapshotDiff feed_list_value_raw_table.
Proof. refine (mkSnapshotDiff _ _ _ _ feed_list_values_changed _). snapshot_diff feed_list_value_raw_fields. Defined.
#[export] Instance feed_remote_items_raw_diff : SnapshotDiff feed_remote_items_raw_table.
Proof. refine (mkSnapshotDiff _ _ _ _ feed_remote_items_changed _). snapshot_diff feed_remote_items_raw_fields. Defined.
#[export] Instance source_contributor_claims_diff : SnapshotDiff source_contributor_claims_table.
Proof. refine (mkSnapshotDiff _ _ _ _ source_contributor_claims_changed _). snapshot_diff source_contributor_claims_fields. Defined.
#[export] Instance source_entity_ids_diff : SnapshotDiff source_entity_ids_table.
Proof. refine (mkSnapshotDiff _ _ _ _ source_entity_ids_changed _). snapshot_diff source_entity_ids_fields. Defined.
#[export] Instance source_entity_links_diff : SnapshotDiff source_entity_links_table.
Proof. refine (mkSnapshotDiff _ _ _ _ source_entity_links_changed _). snapshot_diff source_entity_links_fields. Defined.
#[export] Instance source_release_claims_diff : SnapshotDiff source_release_claims_table.
Proof. refine (mkSnapshotDiff _ _ _ _ source_release_claims_changed _). snapshot_diff source_release_claims_fields. Defined.
#[export] Instance source_item_enclosures_diff : SnapshotDiff source_item_enclosures_table.
Proof. refine (mkSnapshotDiff _ _ _ _ source_item_enclosures_changed _). snapshot_diff source_item_enclosures_fields. Defined.
#[export] Instance source_item_transcripts_diff : SnapshotDiff source_item_transcripts_table.
Proof. refine (mkSnapshotDiff _ _ _ _ source_item_transcripts_changed _). snapshot_diff source_item_transcripts_fields. Defined.
#[export] Instance source_platform_claims_diff : SnapshotDiff source_platform_claims_table.
Proof. refine (mkSnapshotDiff _ _ _ _ source_platform_claims_changed _). snapshot_diff source_platform_claims_fields. Defined.

(** ** The operations are those of the interface *)

Lemma replace_feed_payment_routes_eq f l : replace_feed_payment_routes f l = snap_replace feed_payment_routes_table f l.
Proof. done. Qed.
Lemma replace_feed_list_value_raw_eq f l : replace_feed_list_value_raw f l = snap_replace feed_list_value_raw_table f l.
Proof. done. Qed.
Lemma replace_feed_remote_items_raw_eq f l : replace_feed_remote_items_raw f l = snap_replace feed_remote_items_raw_table f l.
Proof. done. Qed.
Lemma replace_source_contributor_claims_for_feed_eq f l : replace_source_contributor_claims_for_feed f l = snap_replace source_contributor_claims_table f l.
Proof. done. Qed.
Lemma replace_source_entity_ids_for_feed_eq f l : replace_source_entity_ids_for_feed f l = snap_replace source_entity_ids_table f l.
Proof. done. Qed.
Lemma replace_source_entity_links_for_feed_eq f l : replace_source_entity_links_for_feed f l = snap_replace source_entity_links_table f l.
Proof. done. Qed.
Lemma replace_source_release_claims_for_feed_eq f l : replace_source_release_claims_for_feed f l = snap_replace source_release_claims_table f l.
Proof. done. Qed.
Lemma replace_source_item_enclosures_for_feed_eq f l : replace_source_item_enclosures_for_feed f l = snap_replace source_item_enclosures_table f l.
Proof. done. Qed.
Lemma replace_source_item_transcripts_for_feed_eq f l : replace_source_item_transcripts_for_feed f l = snap_replace source_item_transcripts_table f l.
Proof. done. Qed.
Lemma replace_source_platform_claims_for_feed_eq f l : replace_source_platform_claims_for_feed f l = snap_replace source_platform_claims_table f l.
Proof. done. Qed.

(** The row lists of a track (src/db.rs): payment routes, value-time splits
    with their recipients, and remote items. A row of the last two whose feed
    column is [NULL] comes from before feed-scoped track identity: it is a
    row of each track with that GUID. *)

(** [feed = ?1 OR feed IS NULL]. *)
Definition in_feed_or_null (feed_guid : string) (feed : option string) : bool :=
  match feed with
  | Some f => f =s feed_guid
  | None => true
  end.

(** [if guid.is_empty() { feed_guid } else { guid }]. *)
Definition or_feed (guid feed_guid : string) : string :=
  if str_is_empty guid then feed_guid else guid.

(** ** Payment routes *)

Definition get_payment_routes_for_track (track_guid : string) : DB (list PaymentRoute) :=
  query (λ db, List.filter (λ r, PaymentRoute.track_guid r =s track_guid)
    (payment_routes db)).

Definition get_payment_routes_for_feed_track (feed_guid track_guid : string) :
    DB (list PaymentRoute) :=
  query (λ db, List.filter (λ r, (PaymentRoute.feed_guid r =s feed_guid)
    && (PaymentRoute.track_guid r =s track_guid)) (payment_routes db)).

Definition replace_payment_routes (track_guid : string) (routes : list PaymentRoute) :
    DB unit :=
  _ ← delete_where payment_routes_table (λ r, PaymentRoute.track_guid r =s track_guid);
  for_each (insert payment_routes_table) routes.

(** The row of a route under the feed and the track of the call. *)
Definition route_of_track (feed_guid track_guid : string) (r : PaymentRoute) : PaymentRoute :=
  PaymentRoute.mk None track_guid feed_guid (PaymentRoute.recipient_name r)
    (PaymentRoute.route_type r) (PaymentRoute.address r)
    (PaymentRoute.custom_key r) (PaymentRoute.custom_value r)
    (PaymentRoute.split r) (PaymentRoute.fee r).

Definition replace_payment_routes_for_feed_track (feed_guid track_guid : string)
    (routes : list PaymentRoute) : DB unit :=
  _ ← delete_where payment_routes_table (λ r,
        (PaymentRoute.feed_guid r =s feed_guid)
        && (PaymentRoute.track_guid r =s track_guid));
  for_each (λ r, insert payment_routes_table (route_of_track feed_guid track_guid r))
    routes.

(** ** Value-time splits *)

(** [INSERT INTO value_time_split_recipients], the recipient being a field of
    its split here. The position is the place in the list. *)
Definition store_recipient (r : ValueTimeSplitRecipient) : ValueTimeSplitRecipient :=
  ValueTimeSplitRecipient.mk (ValueTimeSplitRecipient.recipient_name r)
    (ValueTimeSplitRecipient.route_type r) (ValueTimeSplitRecipient.address r)
    (custom_column (ValueTimeSplitRecipient.custom_key r))
    (custom_column (ValueTimeSplitRecipient.custom_value r))
    (ValueTimeSplitRecipient.split r) (ValueTimeSplitRecipient.fee r).

Definition with_recipients (l : list ValueTimeSplitRecipient) (s : ValueTimeSplit) :
    ValueTimeSplit :=
  ValueTimeSplit.mk (ValueTimeSplit.id s) (ValueTimeSplit.source_feed_guid s)
    (ValueTimeSplit.source_track_guid s) (ValueTimeSplit.position s)
    (ValueTimeSplit.form s) (ValueTimeSplit.start_time_secs s)
    (ValueTimeSplit.duration_secs s) (ValueTimeSplit.remote_feed_guid s)
    (ValueTimeSplit.remote_item_guid s) (ValueTimeSplit.remote_start_time_secs s)
    (ValueTimeSplit.remote_percentage s) l (ValueTimeSplit.created_at s).

Definition push_recipient (split_id : Z) (r : ValueTimeSplitRecipient)
    (s : Scoped ValueTimeSplit) : Scoped ValueTimeSplit :=
  if ValueTimeSplit.id (Scoped.row s) == Some split_id then
    Scoped.mk (Scoped.feed s)
      (with_recipients (ValueTimeSplit.recipients (Scoped.row s) ++ [store_recipient r])
         (Scoped.row s))
  else s.

Definition insert_recipient (split_id : Z) (r : ValueTimeSplitRecipient) : DB unit := λ db,
  if 0 <=? ValueTimeSplitRecipient.split r then
    (set_value_time_splits (push_recipient split_id r <$> value_time_splits db) db, Ok tt)
  else (db, Err (Rusqlite Check)).

(** The row of a split under the feed and the track of the call. *)
Definition split_of_track (source_feed_guid : option string) (source_track_guid : string)
    (s : ValueTimeSplit) : Scoped ValueTimeSplit :=
  Scoped.mk source_feed_guid
    (ValueTimeSplit.mk None (unwrap_or "" source_feed_guid) source_track_guid
       (ValueTimeSplit.position s) (ValueTimeSplit.form s)
       (ValueTimeSplit.start_time_secs s) (ValueTimeSplit.duration_secs s)
       (ValueTimeSplit.remote_feed_guid s) (ValueTimeSplit.remote_item_guid s)
       (ValueTimeSplit.remote_start_time_secs s) (ValueTimeSplit.remote_percentage s)
       [] (ValueTimeSplit.created_at s)).

(** [last_insert_rowid] is the [id] the insert gave. *)
Definition insert_value_time_split (source_feed_guid : option string)
    (source_track_guid : string) (s : ValueTimeSplit) : DB unit :=
  split_id ← query (λ db, next_id value_time_splits_table (value_time_splits db));
  _ ← insert value_time_splits_table (split_of_track source_feed_guid source_track_guid s);
  for_each (insert_recipient split_id) (ValueTimeSplit.recipients s).

Definition in_split_scope (feed_guid track_guid : string) (s : Scoped ValueTimeSplit) : bool :=
  (ValueTimeSplit.source_track_guid (Scoped.row s) =s track_guid)
  && in_feed_or_null feed_guid (Scoped.feed s).

Definition value_time_splits_order (s : Scoped ValueTimeSplit) : list SqlVal :=
  [VInt (ValueTimeSplit.position (Scoped.row s))].

Definition get_value_time_splits_for_feed_track (feed_guid track_guid : string) :
    DB (list ValueTimeSplit) :=
  query (λ db, Scoped.row <$> order_by value_time_splits_order
    (List.filter (in_split_scope feed_guid track_guid) (value_time_splits db))).

Definition replace_value_time_splits_for_feed_track
    (source_feed_guid source_track_guid : string) (splits : list ValueTimeSplit) : DB unit :=
  _ ← delete_where value_time_splits_table (in_split_scope source_feed_guid source_track_guid);
  for_each (λ s, insert_value_time_split
      (Some (or_feed (ValueTimeSplit.source_feed_guid s) source_feed_guid))
      source_track_guid s)
    splits.

(** ** Track remote items *)

Definition get_track_remote_items_for_track (track_guid : string) :
    DB (list TrackRemoteItemRaw) :=
  query (λ db, Scoped.row <$>
    order_by (λ s, [VInt (TrackRemoteItemRaw.position (Scoped.row s))])
      (List.filter (λ s, TrackRemoteItemRaw.track_guid (Scoped.row s) =s track_guid)
         (track_remote_items_raw db))).

Definition in_item_scope (feed_guid track_guid : string) (s : Scoped TrackRemoteItemRaw) : bool :=
  (TrackRemoteItemRaw.track_guid (Scoped.row s) =s track_guid)
  && in_feed_or_null feed_guid (Scoped.feed s).

Definition track_remote_items_order (s : Scoped TrackRemoteItemRaw) : list SqlVal :=
  [VInt (TrackRemoteItemRaw.position (Scoped.row s))].

Definition get_track_remote_items_for_feed_track (feed_guid track_guid : string) :
    DB (list TrackRemoteItemRaw) :=
  query (λ db, Scoped.row <$> order_by track_remote_items_order
    (List.filter (in_item_scope feed_guid track_guid) (track_remote_items_raw db))).

(** The row of an item under a feed column and a track; [unwrap_or_default]
    reads a [NULL] feed as the empty text. *)
Definition item_of_track (feed : option string) (track_guid : string)
    (item : TrackRemoteItemRaw) : Scoped TrackRemoteItemRaw :=
  Scoped.mk feed
    (TrackRemoteItemRaw.mk None (unwrap_or "" feed) track_guid
       (TrackRemoteItemRaw.position item) (TrackRemoteItemRaw.medium item)
       (TrackRemoteItemRaw.remote_feed_guid item)
       (TrackRemoteItemRaw.remote_feed_url item) (TrackRemoteItemRaw.rel item)
       (TrackRemoteItemRaw.source item)).

Definition replace_track_remote_items_raw (track_guid : string)
    (remote_items : list TrackRemoteItemRaw) : DB unit :=
  _ ← delete_where track_remote_items_raw_table
        (λ s, TrackRemoteItemRaw.track_guid (Scoped.row s) =s track_guid);
  for_each (λ item, insert track_remote_items_raw_table
      (item_of_track None (TrackRemoteItemRaw.track_guid item) item))
    remote_items.

Definition replace_track_remote_items_raw_for_feed_track (feed_guid track_guid : string)
    (remote_items : list TrackRemoteItemRaw) : DB unit :=
  _ ← delete_where track_remote_items_raw_table (in_item_scope feed_guid track_guid);
  for_each (λ item, insert track_remote_items_raw_table
      (item_of_track (Some (or_feed (TrackRemoteItemRaw.feed_guid item) feed_guid))
         track_guid item))
    remote_items.

Definition track_remote_items_changed (existing new : list TrackRemoteItemRaw) : bool :=
  (length existing != length new)
  || any_zip (λ a b,
       (TrackRemoteItemRaw.position a != TrackRemoteItemRaw.position b)
       || (TrackRemoteItemRaw.medium a != TrackRemoteItemRaw.medium b)
       || (TrackRemoteItemRaw.remote_feed_guid a != TrackRemoteItemRaw.remote_feed_guid b)
       || (TrackRemoteItemRaw.remote_feed_url a != TrackRemoteItemRaw.remote_feed_url b)
       || (TrackRemoteItemRaw.source a != TrackRemoteItemRaw.source b))
       existing new.

(** ** Instances *)

Definition payment_routes_fields (r : PaymentRoute) :=
  (PaymentRoute.recipient_name r, PaymentRoute.route_type r, PaymentRoute.address r,
   PaymentRoute.custom_key r, PaymentRoute.custom_value r, PaymentRoute.split r,
   PaymentRoute.fee r).

#[export] Instance payment_routes_snapshot :
    Snapshot (X := string * string) payment_routes_table := {|
  snap_in := λ '(f, t) r,
    (PaymentRoute.feed_guid r =s f) && (PaymentRoute.track_guid r =s t);
  snap_own := λ '(f, t) r,
    (PaymentRoute.feed_guid r =s f) && (PaymentRoute.track_guid r =s t);
  snap_exists := λ '(f, t) db, track_exists db f t;
  snap_dedupe := λ l, l;
  snap_order := λ _, [];
  snap_fields := payment_routes_fields;
  snap_norm := λ '(n, ty, a, k, v, s, e), (n, ty, a, custom_column k, custom_column v, s, e);
  snap_cols := λ _, []
|}.

#[export] Instance payment_routes_snapshot_laws :
  SnapshotLaws (X := string * string) payment_routes_table.
Proof.
  split; try apply _; try done.
  - intros [f t] r db [Hf%String.eqb_eq Ht%String.eqb_eq]%andb_true_iff.
    simpl in *. by subst.
  - by intros [f t].
  - intros m n []; cbv -[custom_column]. by rewrite !custom_column_idemp.
  - intros v. repeat (destruct v as [v ?]). cbn. by rewrite !custom_column_idemp.
Qed.

(** The splits as rows that carry their recipients: what
    [insert_value_time_split] leaves when it succeeds. *)
Definition full_splits_table : Table (Scoped ValueTimeSplit) (list SqlVal) := {|
  tbl_get := value_time_splits;
  tbl_set := set_value_time_splits;
  tbl_fk := tbl_fk value_time_splits_table;
  tbl_check := λ s, tbl_check value_time_splits_table s
    && forallb (λ r, 0 <=? ValueTimeSplitRecipient.split r)
         (ValueTimeSplit.recipients (Scoped.row s));
  tbl_key := λ _, None;
  tbl_store := λ n s, Scoped.mk (Scoped.feed s)
    (with_recipients (store_recipient <$> ValueTimeSplit.recipients (Scoped.row s))
       (store_value_time_split n (Scoped.row s)));
  tbl_id := λ s, ValueTimeSplit.id (Scoped.row s)
|}.

#[export] Instance full_splits_laws : TableLaws full_splits_table.
Proof. table_laws. Qed.

Definition full_split (feed track_guid : string) (s : ValueTimeSplit) : Scoped ValueTimeSplit :=
  Scoped.mk (Some feed)
    (with_recipients (ValueTimeSplit.recipients s)
       (Scoped.row (split_of_track (Some feed) track_guid s))).

Lemma insert_recipients rs n l s db :
  (∀ x, x ∈ l → ValueTimeSplit.id (Scoped.row x) ≠ Some n) →
  ValueTimeSplit.id (Scoped.row s) = Some n →
  let db1 := set_value_time_splits (l ++ [s]) db in
  if forallb (λ r, 0 <=? ValueTimeSplitRecipient.split r) rs then
    for_each (insert_recipient n) rs db1
    = (set_value_time_splits (l ++ [Scoped.mk (Scoped.feed s)
         (with_recipients (ValueTimeSplit.recipients (Scoped.row s)
            ++ (store_recipient <$> rs)) (Scoped.row s))]) db, Ok tt)
  else is_ok (for_each (insert_recipient n) rs db1).2 = false.
Proof.
  intros Hl. revert s. induction rs as [|r rs IH]; intros s Hs; simpl.
  { rewrite app_nil_r. destruct s as [f []]. done. }
  unfold mbind, db_bind.
  destruct (0 <=? ValueTimeSplitRecipient.split r) eqn:Hr; cbn [andb].
  2:{ unfold insert_recipient at 1. by rewrite Hr. }
  assert (∀ d, insert_recipient n r d
    = (set_value_time_splits (push_recipient n r <$> value_time_splits d) d, Ok tt)) as ->
    by (intros d; unfold insert_recipient; by rewrite Hr).
  cbn [value_time_splits set_value_time_splits].
  assert (push_recipient n r <$> (l ++ [s]) = l ++ [push_recipient n r s]) as ->.
  { rewrite fmap_app. f_equal. rewrite <-(list_fmap_id l) at 2.
    apply list_fmap_ext. intros i x Hx%list_elem_of_lookup_2%Hl.
    unfold push_recipient. by rewrite bool_decide_eq_false_2. }
  unfold push_recipient at 1 2. rewrite bool_decide_eq_true_2 by done.
  specialize (IH (Scoped.mk (Scoped.feed s)
    (with_recipients (ValueTimeSplit.recipients (Scoped.row s) ++ [store_recipient r])
       (Scoped.row s))) Hs).
  cbn [Scoped.row Scoped.feed with_recipients ValueTimeSplit.recipients] in IH.
  rewrite <-app_assoc in IH. exact IH.
Qed.

Lemma insert_value_time_split_full feed track s :
  same_ok (insert_value_time_split (Some feed) track s)
          (insert full_splits_table (full_split feed track s)).
Proof.
  intros db db' []. unfold insert_value_time_split, query, mbind, db_bind.
  unfold insert. cbn [tbl_check tbl_key tbl_fk tbl_get tbl_set key_taken
    full_splits_table value_time_splits_table].
  set (n := next_id value_time_splits_table (value_time_splits db)).
  change (next_id full_splits_table (value_time_splits db)) with n.
  unfold key_taken. cbn [tbl_key full_splits_table value_time_splits_table].
  unfold full_split, split_of_track, with_recipients. cbn.
  destruct (_ || _) eqn:Hform; cbn; [|by split].
  destruct (track_exists db feed track) eqn:Hfk; cbn.
  2:{ destruct (forallb _ _); by split. }
  pose proof (insert_recipients (ValueTimeSplit.recipients s) n (value_time_splits db)
    (Scoped.mk (Some feed) (store_value_time_split n
      (Scoped.row (split_of_track (Some feed) track s)))) db) as H.
  specialize (H ltac:(intros x Hx Hn;
    pose proof (next_id_fresh value_time_splits_table _ _ _ Hx Hn); lia) eq_refl).
  cbn in H. destruct (forallb _ _); cbn.
  - unfold split_of_track in H. cbn in H. rewrite H. by split.
  - split; [|done]. intros Heq. cbn in Heq. rewrite Heq in H. done.
Qed.

Definition value_time_splits_fields (s : Scoped ValueTimeSplit) :=
  let r := Scoped.row s in
  (ValueTimeSplit.position r, ValueTimeSplit.form r, ValueTimeSplit.start_time_secs r,
   ValueTimeSplit.duration_secs r, ValueTimeSplit.remote_feed_guid r,
   ValueTimeSplit.remote_item_guid r, ValueTimeSplit.remote_start_time_secs r,
   ValueTimeSplit.remote_percentage r, ValueTimeSplit.recipients r,
   ValueTimeSplit.created_at r).

#[export] Instance value_time_splits_snapshot :
    Snapshot (X := string * string) full_splits_table := {|
  snap_in := λ '(f, t), in_split_scope f t;
  snap_own := λ '(f, t) s, (Scoped.feed s == Some f)
    && (ValueTimeSplit.source_track_guid (Scoped.row s) =s t);
  snap_exists := λ '(f, t) db, track_exists db f t;
  snap_dedupe := λ l, l;
  snap_order := value_time_splits_order;
  snap_fields := value_time_splits_fields;
  snap_norm := λ '(p, f, s, d, g, i, rs, rp, recipients, c),
    (p, f, s, d, g, i, rs, rp, store_recipient <$> recipients, c);
  snap_cols := λ '(p, _, _, _, _, _, _, _, _, _), [VInt p]
|}.

Lemma store_recipient_idemp r : store_recipient (store_recipient r) = store_recipient r.
Proof. unfold store_recipient. cbn. by rewrite !custom_column_idemp. Qed.

#[export] Instance value_time_splits_snapshot_laws :
  SnapshotLaws (X := string * string) full_splits_table.
Proof.
  split; try apply _; try done.
  - intros [f t] r [Hf%bool_decide_eq_true Ht]%andb_true_iff. cbn.
    unfold in_split_scope. rewrite Ht, Hf. cbn. apply String.eqb_refl.
  - intros [f t] r db [Hf%bool_decide_eq_true Ht%String.eqb_eq]%andb_true_iff.
    cbn. by rewrite Hf, Ht.
  - by intros [f t].
  - intros m n [f r]. cbn. unfold store_value_time_split, with_recipients. cbn.
    rewrite <-list_fmap_compose. do 2 f_equal. apply list_fmap_ext. intros. apply store_recipient_idemp.
  - intros v. repeat (destruct v as [v ?]). cbn. do 2 f_equal.
    rewrite <-list_fmap_compose. apply list_fmap_ext. intros. apply store_recipient_idemp.
  - intros v. repeat (destruct v as [v ?]). done.
Qed.

Definition track_remote_items_fields (s : Scoped TrackRemoteItemRaw) :=
  let r := Scoped.row s in
  (TrackRemoteItemRaw.position r, TrackRemoteItemRaw.medium r,
   TrackRemoteItemRaw.remote_feed_guid r, TrackRemoteItemRaw.remote_feed_url r,
   TrackRemoteItemRaw.rel r, TrackRemoteItemRaw.source r).

#[export] Instance track_remote_items_snapshot :
    Snapshot (X := string * string) track_remote_items_raw_table := {|
  snap_in := λ '(f, t), in_item_scope f t;
  snap_own := λ '(f, t) s, (Scoped.feed s == Some f)
    && (TrackRemoteItemRaw.track_guid (Scoped.row s) =s t);
  snap_exists := λ '(f, t) db, track_exists db f t;
  snap_dedupe := λ l, l;
  snap_order := track_remote_items_order;
  snap_fields := track_remote_items_fields;
  snap_norm := λ v, v;
  snap_cols := λ '(p, _, _, _, _, _), [VInt p]
|}.

#[export] Instance track_remote_items_snapshot_laws :
  SnapshotLaws (X := string * string) track_remote_items_raw_table.
Proof.
  split; try apply _; try done.
  - intros [f t] r [Hf%bool_decide_eq_true Ht]%andb_true_iff. cbn.
    unfold in_item_scope. rewrite Ht, Hf. cbn. apply String.eqb_refl.
  - intros [f t] r db [Hf%bool_decide_eq_true Ht%String.eqb_eq]%andb_true_iff.
    cbn. by rewrite Hf, Ht.
  - intros [f t] r s k [Hf%bool_decide_eq_true Ht%String.eqb_eq]%andb_true_iff.
    cbn. rewrite Hf. intros [= <-]. unfold in_item_scope.
    destruct (Scoped.feed s); [|done]. intros [= -> -> _]. cbn.
    by rewrite Ht, !String.eqb_refl.
  - by intros [f t].
Qed.

(** ** The operations are those of the interface *)

Lemma replace_payment_routes_for_feed_track_eq f t routes db :
  replace_payment_routes_for_feed_track f t routes db
  = snap_replace payment_routes_table (f, t) (route_of_track f t <$> routes) db.
Proof.
  unfold replace_payment_routes_for_feed_track, snap_replace, mbind, db_bind.
  rewrite !delete_where_run. apply for_each_fmap.
Qed.

Lemma replace_value_time_splits_for_feed_track_eq f t splits :
  same_ok (replace_value_time_splits_for_feed_track f t splits)
    (snap_replace full_splits_table (f, t)
       ((λ s, full_split (or_feed (ValueTimeSplit.source_feed_guid s) f) t s) <$> splits)).
Proof.
  unfold replace_value_time_splits_for_feed_track, snap_replace.
  apply same_ok_bind; [done|]. intros _ db db' []. cbn [snap_dedupe value_time_splits_snapshot].
  rewrite <-for_each_fmap. apply same_ok_for_each.
  intros s _. apply insert_value_time_split_full.
Qed.

Lemma replace_track_remote_items_raw_for_feed_track_eq f t items db :
  replace_track_remote_items_raw_for_feed_track f t items db
  = snap_replace track_remote_items_raw_table (f, t)
      ((λ i, item_of_track (Some (or_feed (TrackRemoteItemRaw.feed_guid i) f)) t i) <$> items) db.
Proof.
  unfold replace_track_remote_items_raw_for_feed_track, snap_replace, mbind, db_bind.
  rewrite !delete_where_run. apply for_each_fmap.
Qed.

(** The live-event rows of a feed (src/db.rs): the reads, the replace, and the
    comparison of an ingest, which is on lists sorted by [live_item_guid]. *)

(** ** Operations *)

Definition dedupe_live_events (live_events : list LiveEvent) : list LiveEvent :=
  dedupe_by LiveEvent.live_item_guid live_events.

Definition by_item_guid (a b : LiveEvent) : bool :=
  String.leb (LiveEvent.live_item_guid a) (LiveEvent.live_item_guid b).

Definition dedupe_and_sort_live_events (live_events : list LiveEvent) : list LiveEvent :=
  sort_by by_item_guid (dedupe_live_events live_events).

(** [ORDER BY COALESCE(scheduled_start, created_at), live_item_guid]. *)
Definition live_events_order (e : LiveEvent) : list SqlVal :=
  [VInt (unwrap_or (LiveEvent.created_at e) (LiveEvent.scheduled_start e));
   VText (LiveEvent.live_item_guid e)].

Definition get_live_events_for_feed (feed_guid : string) : DB (list LiveEvent) :=
  query (λ db, order_by live_events_order
    (List.filter (λ e, LiveEvent.feed_guid e =s feed_guid) (live_events db))).

(** The row value comparison [(feed_guid, live_item_guid) > (?1, ?2)]. *)
Definition after_cursor (cursor : option (string * string)) (e : LiveEvent) : bool :=
  match cursor with
  | Some (feed_guid, live_item_guid) =>
      negb (cols_le [VText (LiveEvent.feed_guid e); VText (LiveEvent.live_item_guid e)]
              [VText feed_guid; VText live_item_guid])
  | None => true
  end.

Definition get_live_events_after_cursor (cursor : option (string * string)) :
    DB (list LiveEvent) :=
  query (λ db, order_by
    (λ e, [VText (LiveEvent.feed_guid e); VText (LiveEvent.live_item_guid e)])
    (List.filter (λ e, feed_exists db (LiveEvent.feed_guid e) && after_cursor cursor e)
       (live_events db))).

Definition replace_live_events_for_feed (feed_guid : string) (live_events : list LiveEvent) :
    DB unit :=
  _ ← delete_where live_events_table (λ e, LiveEvent.feed_guid e =s feed_guid);
  for_each (insert live_events_table) (dedupe_live_events live_events).

Definition live_events_changed (existing new : list LiveEvent) : bool :=
  (length existing != length new)
  || any_zip (λ a b,
       (LiveEvent.live_item_guid a != LiveEvent.live_item_guid b)
       || (LiveEvent.title a != LiveEvent.title b)
       || (LiveEvent.content_link a != LiveEvent.content_link b)
       || (LiveEvent.status a != LiveEvent.status b)
       || (LiveEvent.scheduled_start a != LiveEvent.scheduled_start b)
       || (LiveEvent.scheduled_end a != LiveEvent.scheduled_end b)
       || (LiveEvent.live_value_uri a != LiveEvent.live_value_uri b)
       || (LiveEvent.live_value_protocol a != LiveEvent.live_value_protocol b))
       existing new.

(** ** The instance

    A reader of the interface sees the rows by [live_item_guid], which is the
    order of the comparison: the times that the SQL orders by are not part of
    what an event decides on. *)

Definition live_events_fields (e : LiveEvent) :=
  (LiveEvent.live_item_guid e, LiveEvent.title e, LiveEvent.content_link e,
   LiveEvent.status e, LiveEvent.scheduled_start e, LiveEvent.scheduled_end e,
   LiveEvent.live_value_uri e, LiveEvent.live_value_protocol e).

#[export] Instance live_events_snapshot : Snapshot (X := string) live_events_table := {|
  snap_in := λ f e, LiveEvent.feed_guid e =s f;
  snap_own := λ f e, LiveEvent.feed_guid e =s f;
  snap_exists := λ f db, feed_exists db f;
  snap_dedupe := dedupe_live_events;
  snap_order := λ e, [VText (LiveEvent.live_item_guid e)];
  snap_fields := live_events_fields;
  snap_norm := λ v, v;
  snap_cols := λ '(g, _, _, _, _, _, _, _), [VText g]
|}.

#[export] Instance live_events_snapshot_laws : SnapshotLaws (X := string) live_events_table.
Proof.
  split; try apply _; try done.
  - intros x r db Hr%String.eqb_eq. cbn. by subst.
  - intros x r s k Hr. cbn. intros [= <-] [= Hs _]. by rewrite Hs.
  - intros l. apply dedupe_by_sublist.
Qed.

#[export] Instance live_events_diff : SnapshotDiff (X := string) live_events_table.
Proof.
  refine (mkSnapshotDiff _ _ _ _ live_events_changed _).
  intros l k. apply any_zip_false. intros a b.
  change (snap_fields a = snap_fields b)
    with (live_events_fields a = live_events_fields b).
  unfold live_events_fields. rewrite ?orb_false_iff, ?bne_false, ?pair_equal_spec.
  tauto.
Defined.

Lemma replace_live_events_for_feed_eq f l :
  replace_live_events_for_feed f l = snap_replace live_events_table f l.
Proof. done. Qed.

(** ** The sorted list *)

Lemma by_item_guid_le a b :
  by_item_guid a b
  = cols_le [VText (LiveEvent.live_item_guid a)] [VText (LiveEvent.live_item_guid b)].
Proof.
  unfold by_item_guid. cbn.
  by repeat destruct (String.leb (LiveEvent.live_item_guid _) _).
Qed.

Lemma sort_by_ext {A} (f g : A → A → bool) l :
  (∀ a b, f a b = g a b) → sort_by f l = sort_by g l.
Proof.
  intros H. induction l as [|x l IH]; cbn; [done|]. rewrite IH.
  generalize (sort_by g l). intros k. induction k as [|y k IHk]; cbn; [done|].
  by rewrite H, IHk.
Qed.

Lemma dedupe_and_sort_live_events_order l :
  dedupe_and_sort_live_events l
  = order_by (λ e, [VText (LiveEvent.live_item_guid e)]) (dedupe_live_events l).
Proof. apply sort_by_ext. intros. apply by_item_guid_le. Qed.

(** Each [live_item_guid] once, in increasing order. *)
Lemma dedupe_and_sort_NoDup l :
  NoDup (LiveEvent.live_item_guid <$> dedupe_and_sort_live_events l).
Proof.
  unfold dedupe_and_sort_live_events. rewrite sort_by_perm. apply dedupe_by_NoDup.
Qed.

Lemma dedupe_and_sort_fixed l :
  dedupe_live_events (dedupe_and_sort_live_events l) = dedupe_and_sort_live_events l.
Proof. apply dedupe_by_id, dedupe_and_sort_NoDup. Qed.

Lemma dedupe_and_sort_owned f l :
  owned live_events_table f l →
  owned live_events_table f (dedupe_and_sort_live_events l).
Proof.
  intros Hl. unfold owned, dedupe_and_sort_live_events. rewrite sort_by_perm.
  exact (owned_dedupe live_events_table f l Hl).
Qed.

(** The event carries the sorted list, the ingest writes the list of the
    feed: a reader sees the same rows. *)
Lemma live_view_sorted l :
  let cols := snap_cols (X := string) (T := live_events_table) in
  order_by cols (live_events_fields <$> dedupe_and_sort_live_events l)
  = order_by cols (live_events_fields <$> dedupe_live_events l).
Proof.
  intros cols. rewrite dedupe_and_sort_live_events_order.
  rewrite (order_by_fmap live_events_fields cols).
  apply order_by_id, order_by_sorted.
Qed.
