(* ===== verification/Search.v ===== *)
(** The full-text index (src/search.rs): the deterministic row id, the
    truncation of a field, the write and the delete of an entry, and the
    quoted phrases of a query. *)

From S2P Require Import Prelude.
From S2P Require Import Model.
From S2P Require Import Event.
From S2P Require Import Crates.
From S2P Require Import Store.

(** ** Fields *)

Definition MAX_FTS_FIELD_BYTES : nat := Z.to_nat 10000.

(** [str::is_char_boundary]. *)
Definition is_char_boundary (s : string) (n : nat) : bool :=
  match n with
  | O => true
  | _ =>
      match String.get n s with
      | Some a => negb (is_continuation a)
      | None => bool_decide (n = String.length s)
      end
  end.

(** [while end > 0 && !s.is_char_boundary(end) { end -= 1; }] *)
Fixpoint boundary_at_or_before (s : string) (n : nat) : nat :=
  match n with
  | O => O
  | S m => if is_char_boundary s n then n else boundary_at_or_before s m
  end.

Definition truncate_fts_field (s : string) : string :=
  if (String.length s <=? MAX_FTS_FIELD_BYTES)%nat then s
  else String.substring 0 (boundary_at_or_before s MAX_FTS_FIELD_BYTES) s.

(** ** The index *)

Section index.
Context `{Crates}.

(** [format!("{entity_type}\0{entity_id}")], hashed, masked to 63 bits. *)
Definition rowid_for (entity_type entity_id : string) : Z :=
  Z.land (siphash24 (entity_type ++ String Ascii.zero entity_id)%string)
    0x7FFFFFFFFFFFFFFF.

Definition entity_at (rowid : Z) : DB (option (string * string)) :=
  query (λ db, search_entities db !! rowid).

(** [INSERT INTO search_index]: a rowid that the table holds is refused. *)
Definition insert_index_row (rowid : Z) (row : IndexRow) : DB unit := λ db,
  if is_some (search_index db !! rowid) then (db, Err (Rusqlite Unique))
  else (set_search_index (<[rowid := row]> (search_index db)) db, Ok tt).

Definition populate_search_index (entity_type entity_id name title description : string) :
    DB unit :=
  let rowid := rowid_for entity_type entity_id in
  let row := IndexRow.mk (truncate_fts_field name) (truncate_fts_field title)
               (truncate_fts_field description) in
  existing ← entity_at rowid;
  if is_some_and (λ '(existing_type, existing_id),
       (existing_type ≠s entity_type) || (existing_id ≠s entity_id)) existing
  then mret tt
  else
    _ ← (if is_some existing
         then execute (λ db, set_search_index (delete rowid (search_index db)) db)
         else mret tt);
    _ ← insert_index_row rowid row;
    execute (λ db,
      set_search_entities (<[rowid := (entity_type, entity_id)]> (search_entities db)) db).

Definition delete_from_search_index (entity_type entity_id : string) : DB unit :=
  let rowid := rowid_for entity_type entity_id in
  exists_ ← query (λ db, is_some (search_entities db !! rowid));
  _ ← (if (exists_ : bool)
       then execute (λ db, set_search_index (delete rowid (search_index db)) db)
       else mret tt);
  execute (λ db, set_search_entities (delete rowid (search_entities db)) db).

(** The two tables hold the same rows, each at the row id of its entity. *)
Definition index_ok (db : Db) : Prop :=
  dom (search_index db) = dom (search_entities db)
  ∧ ∀ rowid ty id, search_entities db !! rowid = Some (ty, id) → rowid = rowid_for ty id.

(** What [populate_search_index] does to an index that is in step. *)
Lemma populate_run ty id n t d db :
  index_ok db →
  populate_search_index ty id n t d db =
  if is_some_and (λ '(ety, eid), (ety ≠s ty) || (eid ≠s id))
       (search_entities db !! rowid_for ty id)
  then (db, Ok tt)
  else (set_search_entities
          (<[rowid_for ty id := (ty, id)]> (search_entities db))
          (set_search_index
             (<[rowid_for ty id := IndexRow.mk (truncate_fts_field n)
                  (truncate_fts_field t) (truncate_fts_field d)]> (search_index db)) db),
        Ok tt).
Proof using Type.
  intros [Hdom Hid]. unfold populate_search_index, entity_at, query, mbind, db_bind.
  destruct (search_entities db !! rowid_for ty id) as [[ety eid]|] eqn:He; cbn [is_some_and is_some].
  - destruct (_ || _); [done|]. unfold execute, insert_index_row. cbn.
    rewrite lookup_delete_eq. cbn. by rewrite insert_delete_eq.
  - unfold insert_index_row. cbn.
    assert (search_index db !! rowid_for ty id = None) as ->; [|done].
    apply not_elem_of_dom. rewrite Hdom. by apply not_elem_of_dom.
Qed.

Lemma populate_index_ok ty id n t d db :
  index_ok db →
  is_ok (populate_search_index ty id n t d db).2 = true
  ∧ index_ok (populate_search_index ty id n t d db).1.
Proof using Type.
  intros Hok. rewrite populate_run by done. destruct (is_some_and _ _); [done|].
  split; [done|]. destruct Hok as [Hdom Hid]. split; cbn.
  - by rewrite !dom_insert_L, Hdom.
  - intros r ty' id' [[<- [= -> ->]]|[_ Hr]]%lookup_insert_Some; [done|]. by apply Hid.
Qed.

Lemma delete_index_ok ty id db :
  index_ok db →
  is_ok (delete_from_search_index ty id db).2 = true
  ∧ index_ok (delete_from_search_index ty id db).1.
Proof using Type.
  intros [Hdom Hid]. unfold delete_from_search_index, query, mbind, db_bind.
  destruct (search_entities db !! rowid_for ty id) as [e|] eqn:He; cbn.
  - split; [done|]. split; cbn; [by rewrite !dom_delete_L, Hdom|].
    intros r ty' id' [_ Hr]%lookup_delete_Some. by apply Hid.
  - split; [done|]. rewrite delete_id by done. split; [done|]. apply Hid.
Qed.

(** The entry of an entity: its text, when the index holds it. *)
Definition entry (ty id : string) (db : Db) : option IndexRow :=
  if search_entities db !! rowid_for ty id == Some (ty, id)
  then search_index db !! rowid_for ty id else None.

Lemma rowid_for_range ty id : 0 ≤ rowid_for ty id ≤ i64_max.
Proof using Type.
  unfold rowid_for, i64_max. change 0x7FFFFFFFFFFFFFFF with (Z.ones 63).
  rewrite Z.land_ones by lia.
  pose proof (Z.mod_pos_bound (siphash24 (ty ++ String Ascii.zero id)%string) (2 ^ 63)). lia.
Qed.
End index.

(** ** Query phrases *)

Definition quote : ascii := "034"%char.
Definition quoted (s : string) : string := String quote (s ++ String quote "").

(** [str::find] of a one-byte pattern: what is before it and what is after. *)
Fixpoint find_split (c : ascii) (s : string) : option (string * string) :=
  match s with
  | EmptyString => None
  | String a r =>
      if Ascii.eqb a c then Some (""%string, r)
      else match find_split c r with
           | Some (before, after) => Some (String a before, after)
           | None => None
           end
  end.

(** [str::replace] of each double quote by two. *)
Fixpoint double_quotes (s : string) : string :=
  match s with
  | EmptyString => EmptyString
  | String a r =>
      if Ascii.eqb a quote then String quote (String quote (double_quotes r))
      else String a (double_quotes r)
  end.

Definition push_words (phrases : list string) (text : string) : list string :=
  phrases ++ ((λ word, quoted (double_quotes word)) <$> split_whitespace text).

(** The [while let] loop; each turn drops two quotes of [rest], so its length
    is fuel enough. *)
Fixpoint phrases_loop (fuel : nat) (phrases : list string) (rest : string) :
    list string * string :=
  match fuel with
  | O => (phrases, rest)
  | S n =>
      match find_split quote rest with
      | None => (phrases, rest)
      | Some (before, after) =>
          match find_split quote after with
          | None => (phrases, rest)
          | Some (inner, rest') =>
              let phrases := push_words phrases before in
              let words := split_whitespace inner in
              let phrases :=
                match words with
                | [] => phrases
                | _ => phrases ++ [quoted (String.concat " " words)]
                end in
              phrases_loop n phrases rest'
          end
      end
  end.

Definition fts5_phrases (input : string) : list string :=
  let cleaned := unchars (List.filter (λ c, negb (is_control c)) (chars input)) in
  let '(phrases, rest) := phrases_loop (S (String.length cleaned)) [] cleaned in
  push_words phrases rest.

Definition fts5_query_from_words (input : string) : string :=
  String.concat " " (fts5_phrases input).

(** ** Each phrase is one quoted string

    A string that an FTS5 query takes literally: quotes around a text whose
    own quotes are doubled. *)

Definition literal (p : string) : Prop :=
  ∃ w, w ≠ ""%string ∧ p = quoted (double_quotes w).

Fixpoint no_quote (s : string) : bool :=
  match s with
  | EmptyString => true
  | String a r => negb (Ascii.eqb a quote) && no_quote r
  end.

Lemma double_quotes_id s : no_quote s = true → double_quotes s = s.
Proof.
  induction s as [|a s IH]; simpl; [done|].
  intros [Ha%negb_true_iff Hs]%andb_true_iff. by rewrite Ha, IH.
Qed.

Lemma no_quote_app s t : no_quote (s ++ t)%string = no_quote s && no_quote t.
Proof. induction s as [|a s IH]; simpl; [done|]. by rewrite IH, andb_assoc. Qed.

Lemma find_split_spec c s b a :
  find_split c s = Some (b, a) →
  s = (b ++ String c a)%string ∧ (c = quote → no_quote b = true).
Proof.
  revert b. induction s as [|x s IH]; intros b; simpl; [done|].
  destruct (Ascii.eqb x c) eqn:Hx.
  - apply Ascii.eqb_eq in Hx as ->. by intros [= <- <-].
  - destruct (find_split c s) as [[b' a']|]; [|done]. intros [= <- <-].
    destruct (IH b' eq_refl) as [-> Hq]. split; [done|]. intros ->. simpl.
    rewrite Hx. by apply Hq.
Qed.

Lemma chars_no_quote s : no_quote s = true → Forall (λ c, no_quote c = true) (chars s).
Proof.
  induction s as [|a s IH]; simpl; [constructor|].
  intros [Ha Hs]%andb_true_iff. specialize (IH Hs).
  destruct (chars s) as [|[|b c] cs].
  - repeat constructor. cbn. by rewrite Ha.
  - constructor; [cbn; by rewrite Ha|done].
  - apply Forall_cons in IH as [Hbc IH].
    destruct (is_continuation b); repeat constructor; try done; cbn; by rewrite Ha.
Qed.

Lemma unchars_cons c cs : unchars (c :: cs) = (c ++ unchars cs)%string.
Proof.
  unfold unchars. destruct cs as [|d cs]; [|done]. by rewrite str_app_nil_r.
Qed.

Lemma unchars_no_quote cs :
  Forall (λ c, no_quote c = true) cs → no_quote (unchars cs) = true.
Proof.
  induction 1 as [|c cs Hc _ IH]; [done|]. by rewrite unchars_cons, no_quote_app, Hc, IH.
Qed.

Lemma chars_nonempty s : Forall (λ c, c ≠ ""%string) (chars s).
Proof.
  induction s as [|a s IH]; simpl; [constructor|].
  destruct (chars s) as [|[|b c] cs]; [by repeat constructor|by constructor|].
  apply Forall_cons in IH as [_ IH]. destruct (is_continuation b); by repeat constructor.
Qed.

(** A property of the characters is one of the words. *)
Lemma words_of_ind (P : string → Prop) cs word :
  Forall P cs → Forall P word →
  Forall (λ w, ∃ l, l ≠ [] ∧ Forall P l ∧ w = unchars l) (words_of cs word).
Proof.
  intros Hcs. revert word. induction Hcs as [|c cs Hc Hcs IH]; intros word Hw; simpl.
  - destruct word as [|x word]; [constructor|]. constructor; [|constructor].
    by exists (x :: word).
  - destruct (is_whitespace c).
    + destruct word as [|x word]; [by apply IH|].
      constructor; [by exists (x :: word)|]. by apply IH.
    + apply IH, Forall_app. by split; [|repeat constructor].
Qed.

Lemma split_whitespace_nonempty s : Forall (λ w, w ≠ ""%string) (split_whitespace s).
Proof.
  eapply List.Forall_impl; [|apply (words_of_ind (λ c, c ≠ ""%string)); [apply chars_nonempty|constructor]].
  intros w (l & Hl & HP & ->). destruct HP as [|[] l Hc HP]; [done|done|].
  by rewrite unchars_cons.
Qed.

Lemma split_whitespace_no_quote s :
  no_quote s = true → Forall (λ w, no_quote w = true) (split_whitespace s).
Proof.
  intros Hs. eapply List.Forall_impl;
    [|apply (words_of_ind (λ c, no_quote c = true)); [by apply chars_no_quote|constructor]].
  intros w (l & _ & HP & ->). by apply unchars_no_quote.
Qed.

Lemma push_words_literal phrases text :
  Forall literal phrases → Forall literal (push_words phrases text).
Proof.
  intros Hp. apply Forall_app. split; [done|]. apply Forall_fmap.
  eapply List.Forall_impl; [|apply split_whitespace_nonempty]. intros w Hw. by exists w.
Qed.

Lemma concat_no_quote ws :
  Forall (λ w, no_quote w = true) ws → no_quote (String.concat " " ws) = true.
Proof.
  induction 1 as [|w ws Hw _ IH]; [done|].
  destruct ws; simpl in *; [done|]. by rewrite !no_quote_app, Hw, IH.
Qed.

Lemma phrases_loop_literal fuel phrases rest :
  Forall literal phrases → Forall literal (phrases_loop fuel phrases rest).1.
Proof.
  revert phrases rest. induction fuel as [|n IH]; intros phrases rest Hp; simpl; [done|].
  destruct (find_split quote rest) as [[before after]|]; [|done].
  destruct (find_split quote after) as [[inner rest']|] eqn:Hi; [|done].
  apply IH. apply find_split_spec in Hi as [_ Hi]. specialize (Hi eq_refl).
  pose proof (split_whitespace_no_quote _ Hi) as Hq.
  pose proof (split_whitespace_nonempty inner) as Hne.
  destruct (split_whitespace inner) as [|w ws]; [by apply push_words_literal|].
  apply Forall_app. split; [by apply push_words_literal|]. repeat constructor.
  exists (String.concat " " (w :: ws)). rewrite double_quotes_id by (by apply concat_no_quote).
  split; [|done]. apply Forall_cons in Hne as [Hw _]. destruct w; [done|]. by destruct ws.
Qed.

Lemma phrases_literal input : Forall literal (fts5_phrases input).
Proof.
  unfold fts5_phrases. destruct (phrases_loop _ _ _) as [phrases rest] eqn:E.
  apply push_words_literal. replace phrases with (phrases, rest).1 by done. rewrite <-E.
  by apply phrases_loop_literal.
Qed.

(** The fuel is enough: the loop stops where the source's does, with at most
    one quote left. *)
Lemma phrases_loop_done fuel phrases rest :
  (String.length rest < fuel)%nat →
  match find_split quote (phrases_loop fuel phrases rest).2 with
  | Some (_, after) => find_split quote after = None
  | None => True
  end.
Proof.
  revert phrases rest. induction fuel as [|n IH]; intros phrases rest Hf; simpl; [lia|].
  destruct (find_split quote rest) as [[before after]|] eqn:Ho; cbn; [|by rewrite Ho].
  destruct (find_split quote after) as [[inner rest']|] eqn:Hi; cbn; [|by rewrite Ho].
  apply IH. apply find_split_spec in Ho as [-> _]. apply find_split_spec in Hi as [-> _].
  rewrite str_length_app in Hf. simpl in Hf. rewrite str_length_app in Hf.
  simpl in Hf. lia.
Qed.

Example phrases_example :
  fts5_phrases (String quote ("a  b" ++ String quote " c"))
  = [quoted "a b"; quoted "c"].
Proof. vm_compute. reflexivity. Qed.

(** ** Truncation *)

Lemma boundary_le s n : (boundary_at_or_before s n ≤ n)%nat.
Proof. induction n as [|n IH]; cbn [boundary_at_or_before]; [done|]. destruct (is_char_boundary _ _); lia. Qed.

Lemma boundary_is s n : is_char_boundary s (boundary_at_or_before s n) = true.
Proof.
  induction n as [|n IH]; cbn [boundary_at_or_before]; [done|].
  by destruct (is_char_boundary s (S n)) eqn:E.
Qed.
