(* ===== verification/Catalog.v ===== *)
(** The [feeds] and [tracks] rows (src/db.rs): the reads, the two upserts, and
    the class of a submission. *)

From S2P Require Import Prelude.
From S2P Require Import Model.
From S2P Require Import Store.
From S2P Require Import Tables.

(** ** Reads *)

Definition get_feed_by_guid (feed_guid : string) : DB (option Feed) :=
  query (λ db, FeedRow.feed <$> feeds db !! feed_guid).

(** The feeds, by GUID. *)
Definition all_feeds (db : Db) : list Feed :=
  (FeedRow.feed ∘ snd) <$> map_to_list (feeds db).

Definition by_url (a b : Feed) : bool := String.leb (Feed.feed_url a) (Feed.feed_url b).

(** [WHERE feed_url = ?1], on a [UNIQUE] column. *)
Definition get_existing_feed (feed_url : string) : DB (option Feed) :=
  query (λ db, head (List.filter (λ f, Feed.feed_url f =s feed_url) (all_feeds db))).

Definition get_track_for_feed (feed_guid track_guid : string) : DB (option Track) :=
  query (λ db, tracks db !! (feed_guid, track_guid)).

(** The tracks of a feed, in the order of the primary key. *)
Definition tracks_of (feed_guid : string) (db : Db) : list Track :=
  sort_by (λ a b, String.leb (Track.track_guid a) (Track.track_guid b))
    (snd <$> List.filter (λ '((f, _), _), f =s feed_guid) (map_to_list (tracks db))).

Definition get_tracks_for_feed (feed_guid : string) : DB (list Track) :=
  query (tracks_of feed_guid).

Definition get_tracks_by_guid (track_guid : string) : DB (list Track) := query (λ db,
  sort_by (λ a b, String.leb (Track.feed_guid a) (Track.feed_guid b))
    (snd <$> List.filter (λ '((_, t), _), t =s track_guid) (map_to_list (tracks db)))).

Definition get_track_by_guid (track_guid : string) : DB (option Track) :=
  tracks ← get_tracks_by_guid track_guid;
  match tracks with
  | [] => mret None
  | [track] => mret (Some track)
  | _ => throw (Other ("track_guid " ++ track_guid
           ++ " is ambiguous; resolve with feed scope"))
  end.

(** ** Upserts

    The conflict target is the primary key, so a clash on the [UNIQUE]
    [feed_url] with another record is an error, not an update. An update
    keeps [created_at] and the columns that no [Feed] carries. *)

Definition url_taken (db : Db) (feed_guid feed_url : string) : bool :=
  existsb (λ f, (Feed.feed_url f =s feed_url) && (Feed.feed_guid f ≠s feed_guid))
    (all_feeds db).

Definition feed_created (created_at : Z) (f : Feed) : Feed :=
  Feed.mk (Feed.feed_guid f) (Feed.feed_url f) (Feed.title f) (Feed.title_lower f)
    (Feed.description f) (Feed.image_url f) (Feed.publisher f) (Feed.language f)
    (Feed.explicit f) (Feed.itunes_type f) (Feed.release_artist f)
    (Feed.release_artist_sort f) (Feed.release_date f) (Feed.release_kind f)
    (Feed.episode_count f) (Feed.newest_item_at f) (Feed.oldest_item_at f) created_at
    (Feed.updated_at f) (Feed.raw_medium f) (Feed.last_build_date f)
    (Feed.release_artist_source f).

(** The row after the upsert. *)
Definition merge_feed (old : option FeedRow) (f : Feed) : FeedRow :=
  match old with
  | Some row =>
      FeedRow.mk (feed_created (Feed.created_at (FeedRow.feed row)) f)
        (FeedRow.declared_self_url row) (FeedRow.declared_new_feed_url row)
        (FeedRow.podcast_locked row) (FeedRow.locked_owner row)
  | None => FeedRow.mk f None None None None
  end.

Definition upsert_feed (feed : Feed) : DB unit := λ db,
  if url_taken db (Feed.feed_guid feed) (Feed.feed_url feed)
  then (db, Err (Rusqlite Unique))
  else (set_feeds (<[Feed.feed_guid feed :=
          merge_feed (feeds db !! Feed.feed_guid feed) feed]> (feeds db)) db, Ok tt).

Definition track_created (created_at : Z) (t : Track) : Track :=
  Track.mk (Track.track_guid t) (Track.feed_guid t) (Track.title t) (Track.title_lower t)
    (Track.pub_date t) (Track.duration_secs t) (Track.enclosure_url t)
    (Track.enclosure_type t) (Track.enclosure_bytes t) (Track.track_number t)
    (Track.season t) (Track.image_url t) (Track.publisher t) (Track.language t)
    (Track.explicit t) (Track.description t) (Track.track_artist t)
    (Track.track_artist_sort t) created_at (Track.updated_at t).

Definition merge_track (old : option Track) (t : Track) : Track :=
  match old with
  | Some o => track_created (Track.created_at o) t
  | None => t
  end.

Definition upsert_track (track : Track) : DB unit := λ db,
  let key := (Track.feed_guid track, Track.track_guid track) in
  if feed_exists db (Track.feed_guid track)
  then (set_tracks (<[key := merge_track (tracks db !! key) track]> (tracks db)) db, Ok tt)
  else (db, Err (Rusqlite ForeignKey)).

(** ** The class of a submission *)

Module SubmissionClass.
Inductive SubmissionClass : Type :=
  | RecordConflict
  | GuidChange (held_guid : string)
  | Update
  | Mirror (source_url : string)
  | NewFeed.
#[export] Instance eq_dec : EqDecision SubmissionClass.
Proof. solve_decision. Defined.
End SubmissionClass.
Abbreviation SubmissionClass := SubmissionClass.SubmissionClass.
#[export] Existing Instance SubmissionClass.eq_dec.

(** The second query can match one row per URL; the index on [feed_url] gives
    them in URL order. *)
Definition classify_submission (feed_guid source_url canonical_url : string) :
    DB SubmissionClass :=
  held_url ← query (λ db, (Feed.feed_url ∘ FeedRow.feed) <$> feeds db !! feed_guid);
  conflicting_guid ← query (λ db, Feed.feed_guid <$> head (sort_by by_url
    (List.filter (λ f, ((Feed.feed_url f =s source_url) || (Feed.feed_url f =s canonical_url))
       && (Feed.feed_guid f ≠s feed_guid)) (all_feeds db))));
  match conflicting_guid with
  | Some held_guid =>
      mret (if is_some held_url then SubmissionClass.RecordConflict
            else SubmissionClass.GuidChange held_guid)
  | None =>
      mret match held_url with
           | Some url =>
               if (url =s source_url) || (url =s canonical_url) then SubmissionClass.Update
               else SubmissionClass.Mirror url
           | None => SubmissionClass.NewFeed
           end
  end.

(** ** The rows of the two tables are filed under their own keys *)

Definition catalog_ok (db : Db) : Prop :=
  (∀ g row, feeds db !! g = Some row → Feed.feed_guid (FeedRow.feed row) = g)
  ∧ (∀ f t tr, tracks db !! (f, t) = Some tr →
       Track.feed_guid tr = f ∧ Track.track_guid tr = t ∧ feed_exists db f = true)
  ∧ (∀ g1 g2 r1 r2, feeds db !! g1 = Some r1 → feeds db !! g2 = Some r2 →
       Feed.feed_url (FeedRow.feed r1) = Feed.feed_url (FeedRow.feed r2) → g1 = g2).

Lemma elem_of_all_feeds db f :
  f ∈ all_feeds db ↔ ∃ g row, feeds db !! g = Some row ∧ FeedRow.feed row = f.
Proof.
  unfold all_feeds. rewrite list_elem_of_fmap. split.
  - intros ([g row] & -> & H%elem_of_map_to_list). eauto.
  - intros (g & row & H & <-). exists (g, row). split; [done|]. by apply elem_of_map_to_list.
Qed.

Lemma url_taken_false db g u :
  url_taken db g u = false ↔
  ∀ g' row, feeds db !! g' = Some row →
    Feed.feed_url (FeedRow.feed row) = u → Feed.feed_guid (FeedRow.feed row) = g.
Proof.
  unfold url_taken. rewrite <-not_true_iff_false, existsb_exists. split.
  - intros Hn g' row Hr Hu. destruct (decide (Feed.feed_guid (FeedRow.feed row) = g)) as [|Hne]; [done|].
    destruct Hn. exists (FeedRow.feed row). split.
    + apply list_elem_of_In, elem_of_all_feeds. eauto.
    + rewrite andb_true_iff, String.eqb_eq, negb_true_iff, String.eqb_neq. done.
  - intros H (f & Hin & [Hu%String.eqb_eq Hg]%andb_true_iff).
    apply list_elem_of_In, elem_of_all_feeds in Hin as (g' & row & Hr & <-).
    rewrite negb_true_iff, String.eqb_neq in Hg. by eapply Hg, H.
Qed.

Lemma merge_feed_guid old f : Feed.feed_guid (FeedRow.feed (merge_feed old f)) = Feed.feed_guid f.
Proof. by destruct old. Qed.

Lemma merge_feed_url old f : Feed.feed_url (FeedRow.feed (merge_feed old f)) = Feed.feed_url f.
Proof. by destruct old. Qed.

Lemma feed_exists_insert db g row h :
  feed_exists db h = true → feed_exists (set_feeds (<[g := row]> (feeds db)) db) h = true.
Proof.
  unfold feed_exists. cbn. intros H. destruct (decide (g = h)) as [->|Hne].
  - by rewrite lookup_insert_eq.
  - by rewrite lookup_insert_ne.
Qed.

Lemma upsert_feed_ok f db : catalog_ok db → catalog_ok (upsert_feed f db).1.
Proof.
  intros (Hf & Ht & Hu). unfold upsert_feed. destruct (url_taken _ _ _) eqn:Hurl; [done|].
  rewrite url_taken_false in Hurl. cbn. split_and!; cbn.
  - intros g row [[<- <-]|[_ Hr]]%lookup_insert_Some; [apply merge_feed_guid|eauto].
  - intros f' t tr Htr. destruct (Ht f' t tr Htr) as (? & ? & ?).
    split_and!; [done..|]. by apply feed_exists_insert.
  - intros g1 g2 r1 r2.
    intros [[<- <-]|[Hn1 H1]]%lookup_insert_Some [[<- <-]|[Hn2 H2]]%lookup_insert_Some;
      [done| | |eauto]; rewrite merge_feed_url; intros Heq.
    + rewrite <-(Hf g2 r2 H2). symmetry. eauto.
    + rewrite <-(Hf g1 r1 H1). eauto.
Qed.

Lemma upsert_track_ok t db : catalog_ok db → catalog_ok (upsert_track t db).1.
Proof.
  intros (Hf & Ht & Hu). unfold upsert_track.
  destruct (feed_exists db (Track.feed_guid t)) eqn:He; [|done]. split_and!; cbn; [done| |done].
  intros f' g tr [[[= <- <-] <-]|[_ Hr]]%lookup_insert_Some; [|by apply Ht].
  split_and!; [by destruct (tracks db !! _)..|done].
Qed.
