(* ===== verification/Quality.v ===== *)
(** Quality scores (src/quality.rs): how complete a feed or a track is, from 0
    to 100, kept in [entity_quality]. *)

From S2P Require Import Prelude.
From S2P Require Import Model.
From S2P Require Import Store.
From S2P Require Import RowLists.
From S2P Require Import Catalog.

(** [if c { score += n; }] *)
Definition points (c : bool) (n : Z) : Z := if c then n else 0.

Definition nonempty (s : string) : bool := negb (str_is_empty s).

(** ** Scores *)

(** The columns of [FeedFields]. [title] is [NOT NULL]. *)
Definition feed_fields_quality (f : Feed) : Z :=
  points (nonempty (Feed.title f)) 10
  + points (is_some_and nonempty (Feed.description f)) 15
  + points (is_some (Feed.image_url f)) 15
  + points (is_some (Feed.language f)) 5
  + points (0 <? Feed.episode_count f) 5
  + points (is_some_and nonempty (Feed.release_artist f)) 10
  + points (is_some (Feed.newest_item_at f)) 5
  + points (Feed.explicit f) 5
  + points (is_some (Feed.itunes_type f)) 5.

Definition compute_feed_quality (feed_guid : string) : DB Z := query (λ db,
  let score :=
    match feeds db !! feed_guid with
    | Some row => feed_fields_quality (FeedRow.feed row)
    | None => 0
    end in
  let has_tracks := existsb (λ '((f, _), _), f =s feed_guid) (map_to_list (tracks db)) in
  let has_routes :=
    existsb (λ r, FeedPaymentRoute.feed_guid r =s feed_guid) (feed_payment_routes db)
    || existsb (λ r, PaymentRoute.feed_guid r =s feed_guid) (payment_routes db) in
  score + points has_tracks 10 + points has_routes 15).

Definition track_fields_quality (release_artist : option string) (t : Track) : Z :=
  let has_track_artist := is_some_and nonempty (Track.track_artist t) in
  let has_feed_release_artist :=
    if has_track_artist then false else is_some_and nonempty release_artist in
  points (nonempty (Track.title t)) 10
  + points (is_some (Track.enclosure_url t)) 15
  + points (is_some (Track.enclosure_type t)) 5
  + points (is_some_and (λ d, 0 <? d) (Track.duration_secs t)) 10
  + points (is_some (Track.pub_date t)) 5
  + points (is_some_and nonempty (Track.description t)) 10
  + points (has_track_artist || has_feed_release_artist) 5
  + points (is_some (Track.track_number t)) 5
  + points (is_some (Track.season t)) 5.

Definition compute_track_quality_for_feed_track (feed_guid track_guid : string) : DB Z :=
  query (λ db,
  let release_artist := row ← feeds db !! feed_guid; Feed.release_artist (FeedRow.feed row) in
  let score :=
    match tracks db !! (feed_guid, track_guid) with
    | Some t => track_fields_quality release_artist t
    | None => 0
    end in
  let has_routes := existsb (λ r, (PaymentRoute.feed_guid r =s feed_guid)
    && (PaymentRoute.track_guid r =s track_guid)) (payment_routes db) in
  let has_vts := existsb (in_split_scope feed_guid track_guid) (value_time_splits db) in
  score + points has_routes 20 + points has_vts 10).

Definition compute_track_quality (track_guid : string) : DB Z :=
  tracks ← get_tracks_by_guid track_guid;
  match tracks with
  | [] => mret 0
  | [track] =>
      compute_track_quality_for_feed_track (Track.feed_guid track) (Track.track_guid track)
  | _ => throw (Other ("track_guid " ++ track_guid
           ++ " is ambiguous; compute quality with feed scope"))
  end.

(** ** Storage *)

Definition store_quality (now : Z) (entity_type entity_id : string) (score : Z) : DB unit :=
  execute (λ db, set_entity_quality
    (<[(entity_type, entity_id) := (score, now)]> (entity_quality db)) db).

Definition get_quality (entity_type entity_id : string) : DB Z := query (λ db,
  match entity_quality db !! (entity_type, entity_id) with
  | Some (score, _) => score
  | None => 0
  end).

(** ** Bounds *)

Lemma points_bounds c n : 0 ≤ n → 0 ≤ points c n ≤ n.
Proof. destruct c; simpl; lia. Qed.

Ltac score_bounds :=
  repeat match goal with
  | |- context [points ?c ?n] =>
      lazymatch goal with
      | _ : 0 ≤ points c n ≤ n |- _ => fail
      | _ => pose proof (points_bounds c n ltac:(lia))
      end
  end; lia.

Lemma feed_fields_quality_bounds f : 0 ≤ feed_fields_quality f ≤ 75.
Proof. unfold feed_fields_quality. score_bounds. Qed.

Lemma track_fields_quality_bounds a t : 0 ≤ track_fields_quality a t ≤ 70.
Proof. unfold track_fields_quality. cbv zeta. score_bounds. Qed.
