(* ===== verification/Feeds.v ===== *)
(** Cascading deletes and the read models of a feed (src/db.rs):
    [delete_track_sql], [delete_feed_sql] and
    [sync_source_read_models_for_feed]. *)

From S2P Require Import Prelude.
From S2P Require Import Model.
From S2P Require Import Event.
From S2P Require Import Crates.
From S2P Require Import Medium.
From S2P Require Import Store.
From S2P Require Import Tables.
From S2P Require Import Snapshot.
From S2P Require Import RowLists.

From S2P Require Import Search.
From S2P Require Import Catalog.
From S2P Require Import Quality.

Section feeds.
Context `{Crates}.

Definition canonical_track_entity_id (feed_guid track_guid : string) : string :=
  pair_json feed_guid track_guid.

(** ** Read models *)

Definition sync_entry (is_kept : bool) (entity_type entity_id name title description : string) :
    DB unit :=
  if is_kept then populate_search_index entity_type entity_id name title description
  else delete_from_search_index entity_type entity_id.

Definition sync_track (now : Z) (music : bool) (track : Track) : DB unit :=
  let id := canonical_track_entity_id (Track.feed_guid track) (Track.track_guid track) in
  _ ← sync_entry music "track" id (unwrap_or "" (Track.track_artist track))
        (Track.title track) (unwrap_or "" (Track.description track));
  track_score ← compute_track_quality_for_feed_track (Track.feed_guid track)
                  (Track.track_guid track);
  store_quality now "track" id track_score.

Definition sync_source_read_models_for_feed (now : Z) (feed_guid : string) : DB unit :=
  feed ← get_feed_by_guid feed_guid;
  match feed with
  | None => mret tt
  | Some feed =>
      let music := is_music (Feed.raw_medium feed) in
      let publisher := is_publisher (Feed.raw_medium feed) in
      _ ← for_each (λ '(entity_type, keep),
            sync_entry keep entity_type (Feed.feed_guid feed)
              (unwrap_or "" (Feed.release_artist feed)) (Feed.title feed)
              (unwrap_or "" (Feed.description feed)))
            [("feed"%string, music); ("publisher"%string, publisher)];
      feed_score ← compute_feed_quality (Feed.feed_guid feed);
      _ ← store_quality now "feed" (Feed.feed_guid feed) feed_score;
      tracks ← get_tracks_for_feed feed_guid;
      for_each (sync_track now music) tracks
  end.

(** ** Deletes *)

Definition delete_quality (keys : list (string * string)) : DB unit :=
  execute (λ db, set_entity_quality (foldr delete (entity_quality db) keys) db).

Definition delete_track_row (feed_guid track_guid : string) : DB unit :=
  execute (λ db, set_tracks (delete (feed_guid, track_guid) (tracks db)) db).

(** The trigger on [tracks] deletes what the statements before deleted. *)
Definition delete_track_sql (feed_guid track_guid : string) : DB unit :=
  let id := canonical_track_entity_id feed_guid track_guid in
  _ ← delete_from_search_index "track" id;
  _ ← delete_where value_time_splits_table (in_split_scope feed_guid track_guid);
  _ ← delete_where payment_routes_table (λ r,
        (PaymentRoute.feed_guid r =s feed_guid)
        && (PaymentRoute.track_guid r =s track_guid));
  _ ← delete_quality [("track"%string, id); ("track"%string, track_guid)];
  _ ← delete_where track_remote_items_raw_table (in_item_scope feed_guid track_guid);
  delete_track_row feed_guid track_guid.

Definition delete_track (feed_guid track_guid : string) : DB unit :=
  transaction (delete_track_sql feed_guid track_guid).

(** [feed IS NULL] and the track. *)
Definition null_split (track_guid : string) (s : Scoped ValueTimeSplit) : bool :=
  (ValueTimeSplit.source_track_guid (Scoped.row s) =s track_guid)
  && negb (is_some (Scoped.feed s)).

Definition null_item (track_guid : string) (s : Scoped TrackRemoteItemRaw) : bool :=
  (TrackRemoteItemRaw.track_guid (Scoped.row s) =s track_guid)
  && negb (is_some (Scoped.feed s)).

(** The last statement also runs the trigger on [feeds], which deletes the
    [feed_list_value_raw] rows, and the cascade of [source_gone_answers]. *)
Definition delete_feed_row (feed_guid : string) : DB unit :=
  _ ← delete_where feed_list_value_raw_table (λ r, FeedListValueRaw.feed_guid r =s feed_guid);
  _ ← execute (λ db, set_source_gone_answers (delete feed_guid (source_gone_answers db)) db);
  execute (λ db, set_feeds (delete feed_guid (feeds db)) db).

Definition delete_feed_sql (feed_guid : string) : DB unit :=
  rows ← get_tracks_for_feed feed_guid;
  let track_guids := Track.track_guid <$> rows in
  _ ← delete_from_search_index "feed" feed_guid;
  _ ← delete_from_search_index "publisher" feed_guid;
  _ ← for_each (λ t, delete_from_search_index "track" (canonical_track_entity_id feed_guid t))
        track_guids;
  _ ← delete_where value_time_splits_table (λ s, Scoped.feed s == Some feed_guid);
  _ ← for_each (λ t, delete_where value_time_splits_table (null_split t)) track_guids;
  _ ← delete_where payment_routes_table (λ r, PaymentRoute.feed_guid r =s feed_guid);
  _ ← delete_where track_remote_items_raw_table (λ s, Scoped.feed s == Some feed_guid);
  _ ← for_each (λ t, delete_where track_remote_items_raw_table (null_item t)) track_guids;
  _ ← delete_where feed_payment_routes_table (λ r, FeedPaymentRoute.feed_guid r =s feed_guid);
  _ ← for_each (λ t, delete_quality [("track"%string, canonical_track_entity_id feed_guid t);
                                     ("track"%string, t)]) track_guids;
  _ ← delete_quality [("feed"%string, feed_guid)];
  _ ← delete_where feed_remote_items_raw_table (λ r, FeedRemoteItemRaw.feed_guid r =s feed_guid);
  _ ← delete_where live_events_table (λ e, LiveEvent.feed_guid e =s feed_guid);
  _ ← delete_where source_contributor_claims_table (λ r, SourceContributorClaim.feed_guid r =s feed_guid);
  _ ← delete_where source_entity_ids_table (λ r, SourceEntityIdClaim.feed_guid r =s feed_guid);
  _ ← delete_where source_entity_links_table (λ r, SourceEntityLink.feed_guid r =s feed_guid);
  _ ← delete_where source_release_claims_table (λ r, SourceReleaseClaim.feed_guid r =s feed_guid);
  _ ← delete_where source_item_enclosures_table (λ r, SourceItemEnclosure.feed_guid r =s feed_guid);
  _ ← delete_where source_item_transcripts_table (λ r, SourceItemTranscript.feed_guid r =s feed_guid);
  _ ← delete_where source_platform_claims_table (λ r, SourcePlatformClaim.feed_guid r =s feed_guid);
  _ ← execute (λ db, set_feed_copies (filter (λ '((g, _), _), g ≠ feed_guid) (feed_copies db)) db);
  _ ← execute (λ db, set_feed_copy_overflow (delete feed_guid (feed_copy_overflow db)) db);
  _ ← execute (λ db, set_feed_left_urls (filter (λ '(g, _), g ≠ feed_guid) (feed_left_urls db)) db);
  _ ← execute (λ db, set_feed_move_state (delete feed_guid (feed_move_state db)) db);
  _ ← execute (λ db, set_tracks (filter (λ '((f, _), _), f ≠ feed_guid) (tracks db)) db);
  delete_feed_row feed_guid.

Definition delete_feed (feed_guid : string) : DB unit :=
  transaction (delete_feed_sql feed_guid).
End feeds.

(** ** What the deletes leave

    [rows_left T db m]: the rows of [T] after [m]. Steps on other tables are
    skipped. *)

#[export] Instance delete_index_total `{Crates} ty id : Total (delete_from_search_index ty id).
Proof. unfold delete_from_search_index. apply _. Qed.

#[export] Instance delete_index_keeps `{Crates} {G} (g : Db → G) ty id :
  (∀ x db, g (set_search_index x db) = g db) →
  (∀ x db, g (set_search_entities x db) = g db) →
  Keeps g (delete_from_search_index ty id).
Proof.
  intros H1 H2 db. unfold delete_from_search_index, query, mbind, db_bind, execute.
  destruct (is_some _); simpl; by rewrite H2, ?H1.
Qed.
#[export] Hint Extern 0 (Keeps _ (delete_from_search_index _ _)) =>
  apply delete_index_keeps; intros; reflexivity : typeclass_instances.

Ltac skip_step :=
  apply (bind_keep _ (λ v, v = _)); [apply _|apply _|];
  let a := fresh "a" in let db' := fresh "db" in let E := fresh "E" in
  intros a db' E; try rewrite <-E; clear E.

Ltac total_steps :=
  repeat lazymatch goal with
  | |- Total (delete_from_search_index _ _) => apply delete_index_total
  | |- Total (mbind _ _) => apply total_bind; [|intros ?]
  | |- Total (delete_where _ _) => apply total_delete_where
  | |- Total (execute _) => apply total_execute
  | |- Total (for_each _ _) => apply total_for_each; intros ?
  | |- Total (get_tracks_for_feed _) => apply total_query
  end.

(** The only step on table [T] is one delete. *)
Ltac one_delete T :=
  repeat skip_step; apply (bind_delete T (λ v, v = _));
  let db' := fresh "db" in let E := fresh "E" in
  intros db' E; etrans; [|exact E]; clear E; repeat skip_step; reflexivity.

Lemma for_each_delete {R K A} (T : Table R K) `{!TableLaws T} (p : A → R → bool) l db :
  for_each (λ x, delete_where T (p x)) l db
  = (tbl_set T (List.filter (λ r, negb (existsb (λ x, p x r) l)) (tbl_get T db)) db, Ok tt).
Proof.
  revert db. induction l as [|x l IH]; intros db; simpl.
  { rewrite filter_all by done. by rewrite tbl_set_get. }
  unfold mbind, db_bind. rewrite delete_where_run, IH, tbl_get_set, tbl_set_set.
  do 2 f_equal. clear. induction (tbl_get T db) as [|r k IHk]; simpl; [done|].
  destruct (p x r); simpl; [done|]. destruct (existsb _ _); simpl; by rewrite IHk.
Qed.

(** A delete of the rows of a scope and then of the [NULL] rows of each track
    of the feed. *)
Lemma bind_delete_each {R K A B} (T : Table R K) `{!TableLaws T} (P : list R → Prop)
    (p : A → R → bool) l (k : unit → DB B) db :
  (∀ db1, tbl_get T db1
      = List.filter (λ r, negb (existsb (λ x, p x r) l)) (tbl_get T db) →
    P (tbl_get T (k tt db1).1)) →
  P (tbl_get T (mbind k (for_each (λ x, delete_where T (p x)) l) db).1).
Proof.
  intros Hk. unfold mbind, db_bind. rewrite for_each_delete by done.
  apply Hk. apply tbl_get_set.
Qed.

Section cascade.
Context `{Crates}.

#[export] Instance delete_feed_total f : Total (delete_feed_sql f).
Proof using Type. unfold delete_feed_sql, delete_feed_row, delete_quality. total_steps. Qed.

#[export] Instance delete_track_total f t : Total (delete_track_sql f t).
Proof using Type. unfold delete_track_sql, delete_track_row, delete_quality. total_steps. Qed.

Lemma bind_tracks {B} f (k : list Track → DB B) db :
  mbind k (get_tracks_for_feed f) db = k (tracks_of f db) db.
Proof using Type. done. Qed.

(** The lists of the feed go, and only they. *)
Lemma delete_feed_lists f db :
  let db' := (delete_feed_sql f db).1 in
  tbl_get feed_payment_routes_table db' = others feed_payment_routes_table f db
∧ tbl_get feed_list_value_raw_table db' = others feed_list_value_raw_table f db
∧ tbl_get feed_remote_items_raw_table db' = others feed_remote_items_raw_table f db
∧ tbl_get live_events_table db' = others live_events_table f db
∧ tbl_get source_contributor_claims_table db' = others source_contributor_claims_table f db
∧ tbl_get source_entity_ids_table db' = others source_entity_ids_table f db
∧ tbl_get source_entity_links_table db' = others source_entity_links_table f db
∧ tbl_get source_release_claims_table db' = others source_release_claims_table f db
∧ tbl_get source_item_enclosures_table db' = others source_item_enclosures_table f db
∧ tbl_get source_item_transcripts_table db' = others source_item_transcripts_table f db
∧ tbl_get source_platform_claims_table db' = others source_platform_claims_table f db.
Proof using Type.
  unfold delete_feed_sql, delete_feed_row, delete_quality. rewrite bind_tracks. cbv zeta.
  unfold others. split_and!.
  - one_delete feed_payment_routes_table.
  - one_delete feed_list_value_raw_table.
  - one_delete feed_remote_items_raw_table.
  - one_delete live_events_table.
  - one_delete source_contributor_claims_table.
  - one_delete source_entity_ids_table.
  - one_delete source_entity_links_table.
  - one_delete source_release_claims_table.
  - one_delete source_item_enclosures_table.
  - one_delete source_item_transcripts_table.
  - one_delete source_platform_claims_table.
Qed.

Definition feed_track_guids f db : list string := Track.track_guid <$> tracks_of f db.

Lemma delete_feed_track_lists f db :
  let db' := (delete_feed_sql f db).1 in
  payment_routes db'
    = List.filter (λ r, negb (PaymentRoute.feed_guid r =s f)) (payment_routes db)
  ∧ value_time_splits db'
    = List.filter (λ s, negb (existsb (λ t, null_split t s) (feed_track_guids f db)))
        (List.filter (λ s, negb (Scoped.feed s == Some f)) (value_time_splits db))
  ∧ track_remote_items_raw db'
    = List.filter (λ s, negb (existsb (λ t, null_item t s) (feed_track_guids f db)))
        (List.filter (λ s, negb (Scoped.feed s == Some f)) (track_remote_items_raw db)).
Proof using Type.
  unfold delete_feed_sql, delete_feed_row, delete_quality. rewrite bind_tracks. cbv zeta.
  fold (feed_track_guids f db). split_and!.
  - change payment_routes with (tbl_get payment_routes_table).
    one_delete payment_routes_table.
  - change value_time_splits with (tbl_get value_time_splits_table).
    repeat skip_step. apply (bind_delete value_time_splits_table (λ v, v = _)).
    intros ? E1. apply (bind_delete_each value_time_splits_table (λ v, v = _)).
    intros ? E2. rewrite E1 in E2. etrans; [|exact E2]. clear. repeat skip_step. reflexivity.
  - change track_remote_items_raw with (tbl_get track_remote_items_raw_table).
    repeat skip_step. apply (bind_delete track_remote_items_raw_table (λ v, v = _)).
    intros ? E1. apply (bind_delete_each track_remote_items_raw_table (λ v, v = _)).
    intros ? E2. rewrite E1 in E2. etrans; [|exact E2]. clear. repeat skip_step. reflexivity.
Qed.

Lemma delete_feed_catalog f db :
  let db' := (delete_feed_sql f db).1 in
  tracks db' = filter (λ '((g, _), _), g ≠ f) (tracks db) ∧ feeds db' = delete f (feeds db).
Proof using Type.
  unfold delete_feed_sql, delete_feed_row, delete_quality. rewrite bind_tracks. cbv zeta.
  split; repeat skip_step; reflexivity.
Qed.
End cascade.
