(* ===== verification/Integrity.v ===== *)
(** Referential integrity of the store: each row's feed or track is there
    ([refs_ok]), and the rows of [feeds] and [tracks] are filed under their
    own keys ([catalog_ok] of Catalog.v). Each statement keeps both, and the
    cascading deletes leave no row behind that refers to what they delete. *)

From S2P Require Import Prelude.
From S2P Require Import Model.
From S2P Require Import Event.
From S2P Require Import Crates.
From S2P Require Import Store.
From S2P Require Import Tables.
From S2P Require Import Snapshot.
From S2P Require Import RowLists.
From S2P Require Import Search.
From S2P Require Import Catalog.
From S2P Require Import Quality.
From S2P Require Import Feeds.

(** Each row of the table refers to something that exists. *)
Definition refs {R K} (T : Table R K) (db : Db) : Prop :=
  ∀ r, r ∈ tbl_get T db → tbl_fk T r db = true.

Definition refs_ok (db : Db) : Prop :=
  refs payment_routes_table db
  ∧ refs value_time_splits_table db
  ∧ refs track_remote_items_raw_table db
  ∧ refs feed_payment_routes_table db
  ∧ refs feed_list_value_raw_table db
  ∧ refs feed_remote_items_raw_table db
  ∧ refs live_events_table db
  ∧ refs source_contributor_claims_table db
  ∧ refs source_entity_ids_table db
  ∧ refs source_entity_links_table db
  ∧ refs source_release_claims_table db
  ∧ refs source_item_enclosures_table db
  ∧ refs source_item_transcripts_table db
  ∧ refs source_platform_claims_table db.

Definition store_ok (db : Db) : Prop := catalog_ok db ∧ refs_ok db.

(** ** Statements on the lists *)

Lemma refs_delete {R K} (T : Table R K) `{!TableLaws T} p db :
  refs T db → refs T (tbl_set T (List.filter (negb ∘ p) (tbl_get T db)) db).
Proof.
  intros H r. rewrite tbl_get_set, tbl_fk_set. intros [_ Hr]%elem_of_filterb. by apply H.
Qed.

Lemma refs_insert {R K} (T : Table R K) `{!TableLaws T} n r db :
  tbl_fk T (tbl_store T n r) db = tbl_fk T r db → tbl_fk T r db = true →
  refs T db → refs T (tbl_set T (tbl_get T db ++ [tbl_store T n r]) db).
Proof.
  intros Hs Hr H s. rewrite tbl_get_set, tbl_fk_set.
  intros [Hin| ->%list_elem_of_singleton]%elem_of_app; [by apply H|congruence].
Qed.

(** A change to one table leaves the references of the others as they are. *)
Ltac refs_cases tac :=
  match goal with
  | H : refs_ok _ |- _ =>
      destruct H as (?&?&?&?&?&?&?&?&?&?&?&?&?&?);
      split_and!; first [assumption | tac]
  end.

Ltac table_preserves :=
  let d := fresh "db" in let Hc := fresh "Hc" in let Hr := fresh "Hr" in
  intros d [Hc Hr]; split; [exact Hc|];
  refs_cases ltac:(apply refs_delete; [apply _|assumption]).

Ltac insert_preserves :=
  let d := fresh "db" in let Hc := fresh "Hc" in let Hr := fresh "Hr" in
  intros d [Hc Hr]; unfold insert;
  repeat split_if; bool_facts; try (by split);
  split; [exact Hc|];
  refs_cases ltac:(apply refs_insert; [apply _|reflexivity|assumption|assumption]).

#[export] Hint Extern 0 (Preserves store_ok (delete_where _ _)) =>
  table_preserves : typeclass_instances.
#[export] Hint Extern 0 (Preserves store_ok (insert _ _)) =>
  insert_preserves : typeclass_instances.
(** A statement on a table without references. *)
#[export] Hint Extern 0 (Preserves store_ok (execute _)) =>
  (let d := fresh "db" in let Hd := fresh "Hd" in intros d Hd; exact Hd) : typeclass_instances.

(** ** Feeds and tracks *)

#[export] Instance upsert_feed_preserves f : Preserves store_ok (upsert_feed f).
Proof.
  intros db [Hc Hr]. split; [by apply upsert_feed_ok|].
  unfold upsert_feed. destruct (url_taken _ _ _); [done|]. cbn [fst].
  set (db' := set_feeds _ db).
  assert (∀ g, feed_exists db g = true → feed_exists db' g = true) as Hf
    by (intros; by apply feed_exists_insert).
  destruct Hr as (H1&H2&H3&H4&H5&H6&H7&H8&H9&H10&H11&H12&H13&H14).
  split_and!; [exact H1|exact H2|exact H3|..]; intros r Hr; apply Hf;
    [exact (H4 r Hr)|exact (H5 r Hr)|exact (H6 r Hr)|exact (H7 r Hr)|exact (H8 r Hr)
    |exact (H9 r Hr)|exact (H10 r Hr)|exact (H11 r Hr)|exact (H12 r Hr)|exact (H13 r Hr)
    |exact (H14 r Hr)].
Qed.

#[export] Instance upsert_track_preserves t : Preserves store_ok (upsert_track t).
Proof.
  intros db [Hc Hr]. split; [by apply upsert_track_ok|].
  unfold upsert_track. destruct (feed_exists db (Track.feed_guid t)); [|done]. cbn [fst].
  set (db' := set_tracks _ db).
  assert (∀ f g, track_exists db f g = true → track_exists db' f g = true) as Ht.
  { intros f g. unfold track_exists, db'. cbn.
    destruct (decide ((Track.feed_guid t, Track.track_guid t) = (f, g))) as [->|Hne];
      [by rewrite lookup_insert_eq|by rewrite lookup_insert_ne]. }
  destruct Hr as (H1&H2&H3&Hr).
  split; [|split; [|split; [|exact Hr]]]; intros r Hr'.
  - apply Ht. exact (H1 r Hr').
  - specialize (H2 r Hr'). cbn in *. destruct (Scoped.feed r); [by apply Ht|done].
  - specialize (H3 r Hr'). cbn in *. destruct (Scoped.feed r); [by apply Ht|done].
Qed.

#[export] Instance push_recipient_preserves n r : Preserves store_ok (insert_recipient n r).
Proof.
  intros db [Hc Hr]. unfold insert_recipient. destruct (0 <=? _); [|done].
  split; [exact Hc|]. destruct Hr as (H1&H2&Hr).
  split; [exact H1|split; [|exact Hr]].
  intros s (s0 & -> & Hs)%list_elem_of_fmap. specialize (H2 s0 Hs).
  unfold push_recipient. by case_bool_decide.
Qed.

(** ** Cascades *)

Section cascades.
Context `{Crates}.

Lemma track_exists_left f db g t :
  g ≠ f → track_exists db g t = true →
  track_exists (delete_feed_sql f db).1 g t = true.
Proof using Type.
  unfold track_exists. destruct (delete_feed_catalog f db) as [-> _].
  intros Hg Ht. destruct (tracks db !! (g, t)) as [tr|] eqn:E; [|done].
  assert (filter (λ '((h, _), _), h ≠ f) (tracks db) !! (g, t) = Some tr) as ->; [|done].
  by apply map_lookup_filter_Some.
Qed.

Lemma feed_exists_left f db g :
  g ≠ f → feed_exists db g = true → feed_exists (delete_feed_sql f db).1 g = true.
Proof using Type.
  unfold feed_exists. destruct (delete_feed_catalog f db) as [_ ->].
  intros Hg. by rewrite lookup_delete_ne.
Qed.

Lemma in_split_feed db f s :
  s ∈ value_time_splits (delete_feed_sql f db).1 →
  s ∈ value_time_splits db ∧ Scoped.feed s ≠ Some f.
Proof using Type.
  destruct (delete_feed_track_lists f db) as (_ & -> & _).
  intros [_ [Hn Hs]%elem_of_filterb]%elem_of_filterb. by bool_facts.
Qed.

Lemma in_item_feed db f s :
  s ∈ track_remote_items_raw (delete_feed_sql f db).1 →
  s ∈ track_remote_items_raw db ∧ Scoped.feed s ≠ Some f.
Proof using Type.
  destruct (delete_feed_track_lists f db) as (_ & _ & ->).
  intros [_ [Hn Hs]%elem_of_filterb]%elem_of_filterb. by bool_facts.
Qed.

Lemma delete_feed_catalog_ok f db : catalog_ok db → catalog_ok (delete_feed_sql f db).1.
Proof using Type.
  intros (Hf & Ht & Hu). pose proof (feed_exists_left f db) as Hleft.
  destruct (delete_feed_catalog f db) as [Htr Hfe]. split_and!.
  - intros g row. rewrite Hfe. intros [_ Hr]%lookup_delete_Some. eauto.
  - intros g t tr. rewrite Htr. intros [Hr Hg]%map_lookup_filter_Some.
    destruct (Ht g t tr Hr) as (? & ? & ?). auto.
  - intros g1 g2 r1 r2. rewrite Hfe.
    intros [_ H1]%lookup_delete_Some [_ H2]%lookup_delete_Some. eauto.
Qed.

(** The rows of a feed list that are left refer to a feed that is left. *)
Lemma refs_others {R} (T : Table R (list SqlVal)) `{!Snapshot (X := string) T} f db
    (guid : R → string) :
  (∀ r d, tbl_fk T r d = feed_exists d (guid r)) →
  (∀ r, snap_in f r = (guid r =s f)) →
  tbl_get T (delete_feed_sql f db).1 = others T f db →
  refs T db → refs T (delete_feed_sql f db).1.
Proof using Type.
  intros Hfk Hin Ht Hr r. rewrite Ht. intros [Ho Hr']%elem_of_filterb.
  cbn in Ho. rewrite Hin in Ho. rewrite Hfk. bool_facts.
  apply feed_exists_left; [done|]. rewrite <-Hfk. by apply Hr.
Qed.

#[export] Instance delete_feed_sql_preserves f : Preserves store_ok (delete_feed_sql f).
Proof using Type.
  intros db [Hc Hr]. split; [by apply delete_feed_catalog_ok|].
  destruct Hr as (H1&H2&H3&H4&H5&H6&H7&H8&H9&H10&H11&H12&H13&H14).
  destruct (delete_feed_lists f db) as (E4&E5&E6&E7&E8&E9&E10&E11&E12&E13&E14).
  split_and!;
    [| | |eapply refs_others; [intros; reflexivity|intros; reflexivity|done|done]..].
  - intros r. cbn. destruct (delete_feed_track_lists f db) as (-> & _ & _).
    intros [Hf Hr]%elem_of_filterb. bool_facts. apply track_exists_left; [done|].
    exact (H1 r Hr).
  - intros s [Hs Hf]%in_split_feed. specialize (H2 s Hs). cbn in *.
    destruct (Scoped.feed s); [|done]. apply track_exists_left; [congruence|done].
  - intros s [Hs Hf]%in_item_feed. specialize (H3 s Hs). cbn in *.
    destruct (Scoped.feed s); [|done]. apply track_exists_left; [congruence|done].
Qed.
End cascades.

Section track_cascade.
Context `{Crates}.

(** What a delete of a track leaves. *)
Lemma delete_track_lists f t db :
  let db' := (delete_track_sql f t db).1 in
  payment_routes db' = others payment_routes_table (f, t) db
  ∧ value_time_splits db' = others full_splits_table (f, t) db
  ∧ track_remote_items_raw db' = others track_remote_items_raw_table (f, t) db
  ∧ tracks db' = delete (f, t) (tracks db)
  ∧ feeds db' = feeds db.
Proof using Type.
  unfold delete_track_sql, delete_track_row, delete_quality. cbv zeta. unfold others.
  split_and!.
  - change payment_routes with (tbl_get payment_routes_table).
    one_delete payment_routes_table.
  - change value_time_splits with (tbl_get value_time_splits_table).
    change (tbl_get full_splits_table) with (tbl_get value_time_splits_table).
    one_delete value_time_splits_table.
  - change track_remote_items_raw with (tbl_get track_remote_items_raw_table).
    one_delete track_remote_items_raw_table.
  - repeat skip_step. reflexivity.
  - repeat skip_step. reflexivity.
Qed.

(** The other tables are not touched. *)
#[export] Instance delete_track_keeps {G} (g : Db → G) f t :
  (∀ x db, g (set_search_index x db) = g db) →
  (∀ x db, g (set_search_entities x db) = g db) →
  (∀ x db, g (set_value_time_splits x db) = g db) →
  (∀ x db, g (set_payment_routes x db) = g db) →
  (∀ x db, g (set_entity_quality x db) = g db) →
  (∀ x db, g (set_track_remote_items_raw x db) = g db) →
  (∀ x db, g (set_tracks x db) = g db) →
  Keeps g (delete_track_sql f t).
Proof using Type.
  intros H1 H2 H3 H4 H5 H6 H7. unfold delete_track_sql, delete_track_row, delete_quality.
  repeat first
    [ apply keeps_bind; [|intros _]
    | apply delete_index_keeps; assumption
    | apply keeps_delete_where; assumption
    | apply keeps_execute; intros; auto ].
Qed.

Lemma track_exists_kept f t db g u :
  (g, u) ≠ (f, t) → track_exists db g u = true →
  track_exists (delete_track_sql f t db).1 g u = true.
Proof using Type.
  unfold track_exists. destruct (delete_track_lists f t db) as (_&_&_&->&_).
  intros Hn. by rewrite lookup_delete_ne.
Qed.

#[export] Instance delete_track_sql_preserves f t : Preserves store_ok (delete_track_sql f t).
Proof using Type.
  intros db [(Hf&Ht&Hu) Hr].
  destruct (delete_track_lists f t db) as (E1&E2&E3&E4&E5).
  assert (∀ g, feed_exists (delete_track_sql f t db).1 g = feed_exists db g) as Hfe
    by (intros; unfold feed_exists; by rewrite E5).
  split; [split_and!|].
  - rewrite E5. apply Hf.
  - intros g u tr. rewrite E4, Hfe. intros [_ Htr]%lookup_delete_Some. by apply Ht.
  - rewrite E5. apply Hu.
  - destruct Hr as (H1&H2&H3&Hr). split; [|split; [|split]].
    + intros r. cbn. rewrite E1. intros [Ho Hr']%elem_of_filterb. cbn in Ho.
      apply track_exists_kept; [|exact (H1 r Hr')]. intros [= Eg Eu].
      by rewrite Eg, Eu, !String.eqb_refl in Ho.
    + intros s. cbn. rewrite E2. intros [Ho Hs]%elem_of_filterb. cbn in Ho.
      specialize (H2 s Hs). cbn in H2. unfold in_split_scope in Ho.
      destruct (Scoped.feed s); [|done]. apply track_exists_kept; [|done].
      intros [= Eg Eu]. cbn in Ho. by rewrite Eg, Eu, !String.eqb_refl in Ho.
    + intros s. cbn. rewrite E3. intros [Ho Hs]%elem_of_filterb. cbn in Ho.
      specialize (H3 s Hs). cbn in H3. unfold in_item_scope in Ho.
      destruct (Scoped.feed s); [|done]. apply track_exists_kept; [|done].
      intros [= Eg Eu]. cbn in Ho. by rewrite Eg, Eu, !String.eqb_refl in Ho.
    + clear -Hr Hfe. destruct Hr as (H4&H5&H6&H7&H8&H9&H10&H11&H12&H13&H14).
      assert (∀ (R : Type) (T : Table R (list SqlVal)) (guid : R → string),
        (∀ r d, tbl_fk T r d = feed_exists d (guid r)) → Keeps (tbl_get T) (delete_track_sql f t) →
        refs T db → refs T (delete_track_sql f t db).1) as Hk.
      { intros R T guid Hfk HK HT r. rewrite (HK db), Hfk, Hfe, <-(Hfk r db). apply HT. }
      split_and!; (eapply Hk; [intros; reflexivity| |done]);
        apply delete_track_keeps; reflexivity.
Qed.
End track_cascade.

(** ** Reads and writes of the other components *)

#[export] Instance populate_preserves `{Crates} ty id n t d :
  Preserves store_ok (populate_search_index ty id n t d).
Proof.
  intros db H1. unfold populate_search_index, entity_at, query, mbind, db_bind.
  destruct (is_some_and _ _); [done|]. destruct (is_some _); unfold insert_index_row; cbn;
    by destruct (is_some _).
Qed.

#[export] Instance delete_index_preserves `{Crates} ty id :
  Preserves store_ok (delete_from_search_index ty id).
Proof. unfold delete_from_search_index. apply _. Qed.

#[export] Instance sync_preserves `{Crates} now f :
  Preserves store_ok (sync_source_read_models_for_feed now f).
Proof.
  unfold sync_source_read_models_for_feed, sync_track, sync_entry, store_quality,
    get_feed_by_guid, get_tracks_for_feed, compute_feed_quality,
    compute_track_quality_for_feed_track.
  apply _.
Qed.

#[export] Instance replace_routes_preserves f t l :
  Preserves store_ok (replace_payment_routes_for_feed_track f t l).
Proof. unfold replace_payment_routes_for_feed_track. apply _. Qed.

#[export] Instance replace_splits_preserves f t l :
  Preserves store_ok (replace_value_time_splits_for_feed_track f t l).
Proof.
  unfold replace_value_time_splits_for_feed_track, insert_value_time_split. apply _.
Qed.

#[export] Instance replace_items_preserves f t l :
  Preserves store_ok (replace_track_remote_items_raw_for_feed_track f t l).
Proof. unfold replace_track_remote_items_raw_for_feed_track. apply _. Qed.
