(* ===== verification/EventLog.v ===== *)
(** The signed event log (src/db.rs, src/signing.rs): inserts that assign the
    sequence number, the signature over it, the idempotent insert of a
    replica, the reads after a cursor, and the sync cursors of a node. *)

From S2P Require Import Prelude.
From S2P Require Import Model.
From S2P Require Import Event.
From S2P Require Import Crates.
From S2P Require Import Store.

(** ** Log rows *)

Definition max_seq (l : list LogRow) : Z := foldr (λ r, Z.max (LogRow.seq r)) 0 l.

(** [(SELECT COALESCE(MAX(seq),0)+1 FROM events)]. *)
Definition next_seq (db : Db) : Z :=
  match events db with
  | [] => 1
  | r :: l => 1 + foldr (λ r, Z.max (LogRow.seq r)) (LogRow.seq r) l
  end.

Definition event_id_taken (db : Db) (event_id : string) : bool :=
  existsb (λ r, LogRow.event_id r =s event_id) (events db).

Section log.
Context `{Crates}.

(** *** Signatures (src/signing.rs) *)

Definition digest_of (event_id : string) (event_type : EventType)
    (payload_json subject_guid : string) (created_at seq : Z) : string :=
  sha256 (signing_json
    (EventSigningPayload.mk event_id event_type payload_json subject_guid created_at seq)).

(** [NodeSigner::sign_event]: the public key and the signature. [signer] is
    the secret key of the node. *)
Definition sign_event (signer : string) (event_id : string) (event_type : EventType)
    (payload_json subject_guid : string) (created_at seq : Z) : string * string :=
  (public_key signer,
   ed25519_sign signer
     (digest_of event_id event_type payload_json subject_guid created_at seq)).

(** Whether [verify_event_signature] gives [Ok]. *)
Definition verify_event_signature (event : Event) : bool :=
  negb (str_is_empty (Event.payload_json event))
  && ed25519_verify (Event.signed_by event)
       (digest_of (Event.event_id event) (Event.event_type event)
          (Event.payload_json event) (Event.subject_guid event)
          (Event.created_at event) (Event.seq event))
       (Event.signature event).

(** *** Inserts *)

Definition update_event_signature (event_id signed_by signature : string) : DB unit :=
  execute (λ db, set_events
    ((λ r, if LogRow.event_id r =s event_id
           then LogRow.mk (LogRow.event_id r) (LogRow.event_type r)
                  (LogRow.payload_json r) (LogRow.subject_guid r) signed_by signature
                  (LogRow.seq r) (LogRow.created_at r) (LogRow.warnings r)
           else r) <$> events db) db).

(** [INSERT INTO events ... RETURNING seq]; [event_id] is the primary key. *)
Definition insert_log_row (row : Z → LogRow) : DB Z := λ db,
  let r := row (next_seq db) in
  if event_id_taken db (LogRow.event_id r) then (db, Err (Rusqlite Unique))
  else (set_events (events db ++ [r]) db, Ok (next_seq db)).

Definition insert_event (event_id : string) (event_type : EventType)
    (payload_json subject_guid : string) (signer : string) (created_at : Z)
    (warnings : list string) : DB (Z * string * string) :=
  seq ← insert_log_row (λ seq, LogRow.mk event_id event_type payload_json subject_guid
          (public_key signer) "" seq created_at warnings);
  let '(signed_by, signature) :=
    sign_event signer event_id event_type payload_json subject_guid created_at seq in
  _ ← update_event_signature event_id signed_by signature;
  mret (seq, signed_by, signature).

(** [INSERT OR IGNORE]: [None] when the [event_id] has a row. *)
Definition insert_event_idempotent (event_id : string) (event_type : EventType)
    (payload_json subject_guid signed_by signature : string) (created_at : Z)
    (warnings : list string) : DB (option Z) := λ db,
  if event_id_taken db event_id then (db, Ok None)
  else (set_events (events db ++ [LogRow.mk event_id event_type payload_json subject_guid
          signed_by signature (next_seq db) created_at warnings]) db,
        Ok (Some (next_seq db))).

(** *** Reads *)

Definition by_seq (a b : LogRow) : bool := LogRow.seq a <=? LogRow.seq b.

Definition event_of_row (r : LogRow) : result DbError Event :=
  match parse_event (LogRow.event_type r) (LogRow.payload_json r) with
  | Some payload =>
      Ok (Event.mk (LogRow.event_id r) (LogRow.event_type r) payload
            (LogRow.subject_guid r) (LogRow.signed_by r) (LogRow.signature r)
            (LogRow.seq r) (LogRow.created_at r) (LogRow.warnings r)
            (LogRow.payload_json r))
  | None => Err Json
  end.

(** [for row in rows { ...?; events.push(..) }] *)
Fixpoint collect_results {A B E} (f : A → result E B) (l : list A) : result E (list B) :=
  match l with
  | [] => Ok []
  | x :: r =>
      let? y := f x in
      let? ys := collect_results f r in
      Ok (y :: ys)
  end.

(** The rows of the query: [WHERE seq > ?1 ORDER BY seq ASC LIMIT ?2]. *)
Definition rows_since (after_seq limit : Z) (db : Db) : list LogRow :=
  take (Z.to_nat limit)
    (sort_by by_seq (List.filter (λ r, after_seq <? LogRow.seq r) (events db))).

Definition get_events_since (after_seq limit : Z) : DB (list Event) := λ db,
  let safe_limit := Z.max limit 1 in
  (db, collect_results event_of_row (rows_since after_seq safe_limit db)).

Definition get_event_refs_since (since_seq limit : Z) : DB (list (string * Z) * bool) :=
  query (λ db,
    let limit := Z.max limit 1 in
    let fetch_limit := Z.min (limit + 1) i64_max in
    let refs := (λ r, (LogRow.event_id r, LogRow.seq r)) <$>
      take (Z.to_nat fetch_limit)
        (sort_by by_seq (List.filter (λ r, since_seq <=? LogRow.seq r) (events db))) in
    let truncated := limit <? Z.of_nat (length refs) in
    (if truncated then take (Z.to_nat limit) refs else refs, truncated)).
End log.

(** *** Cursors *)

(** [ON CONFLICT ... last_seq = MAX(last_seq, excluded.last_seq)]. *)
Definition upsert_node_sync_state (node_pubkey : string) (last_seq last_seen_at : Z) : DB unit :=
  execute (λ db, set_node_sync_state
    (<[node_pubkey :=
        match node_sync_state db !! node_pubkey with
        | Some (old, _) => (Z.max old last_seq, last_seen_at)
        | None => (last_seq, last_seen_at)
        end]> (node_sync_state db)) db).

Definition get_node_sync_cursor (node_pubkey : string) : DB Z := query (λ db,
  match node_sync_state db !! node_pubkey with
  | Some (last_seq, _) => last_seq
  | None => 0
  end).

(** ** The log invariant

    Sequence numbers increase from 1 in the order of the rows, and no
    [event_id] has two rows. *)

Definition log_ok (db : Db) : Prop :=
  StronglySorted Z.lt (LogRow.seq <$> events db)
  ∧ (∀ r, r ∈ events db → 1 ≤ LogRow.seq r)
  ∧ NoDup (LogRow.event_id <$> events db).

Lemma next_seq_above db r : r ∈ events db → LogRow.seq r < next_seq db.
Proof.
  unfold next_seq. destruct (events db) as [|r0 l]; [set_solver|].
  assert (∀ l, LogRow.seq r0 ≤ foldr (λ r, Z.max (LogRow.seq r)) (LogRow.seq r0) l) as H0
    by (intros k; induction k; simpl; lia).
  intros [->|Hr]%elem_of_cons; [specialize (H0 l); lia|].
  induction l as [|x l IH]; [set_solver|]. simpl.
  apply elem_of_cons in Hr as [->|Hr]; [lia|]. specialize (IH Hr). lia.
Qed.

Lemma next_seq_pos db : log_ok db → 1 ≤ next_seq db.
Proof.
  intros (_ & Hpos & _). destruct (events db) as [|r l] eqn:E.
  - unfold next_seq. by rewrite E.
  - assert (r ∈ events db) as Hr by (rewrite E; left).
    pose proof (next_seq_above db r Hr). rewrite <-E in Hpos. specialize (Hpos r Hr). lia.
Qed.

Lemma event_id_taken_false db id :
  event_id_taken db id = false ↔ id ∉ LogRow.event_id <$> events db.
Proof.
  unfold event_id_taken. rewrite <-not_true_iff_false, existsb_exists, list_elem_of_fmap.
  split; intros Hn Hex; apply Hn.
  - destruct Hex as (r & -> & Hr). exists r.
    split; [by apply list_elem_of_In|apply String.eqb_refl].
  - destruct Hex as (r & Hr%list_elem_of_In & Hid%String.eqb_eq). by exists r.
Qed.

(** A row with the next sequence number and a new id extends the log. *)
Lemma log_ok_extend db r :
  log_ok db → event_id_taken db (LogRow.event_id r) = false → LogRow.seq r = next_seq db →
  log_ok (set_events (events db ++ [r]) db).
Proof.
  intros Hok Hid Hseq. pose proof (next_seq_pos db Hok) as Hnp.
  destruct Hok as (Hs & Hp & Hn). split_and!; cbn [events set_events].
  - rewrite fmap_app. assert (∀ x, x ∈ LogRow.seq <$> events db → x < LogRow.seq r) as Hlt.
    { intros x (y & -> & Hy)%list_elem_of_fmap. rewrite Hseq. by apply next_seq_above. }
    revert Hs Hlt. generalize (LogRow.seq <$> events db). intros l Hs Hlt.
    induction Hs as [|x l Hs IH Hx]; simpl; [repeat constructor|].
    constructor; [apply IH; intros; apply Hlt; set_solver|].
    apply Forall_app. split; [done|]. repeat constructor. apply Hlt. set_solver.
  - intros x [Hx| ->%list_elem_of_singleton]%elem_of_app; [by apply Hp|lia].
  - rewrite fmap_app. apply NoDup_app. split_and!; [done| |apply NoDup_singleton].
    intros x Hx. simpl. intros ->%list_elem_of_singleton.
    by apply event_id_taken_false in Hid.
Qed.
