(* ===== verification/Diff.v ===== *)
(** The event rows of an ingest (src/db.rs, [build_diff_events]): every event
    of a feed that is new, and for a known feed the events of what differs
    from the stored rows.

    [Uuid::new_v4] is called once per row, in order: a builder takes the id,
    and [number_rows] draws the ids of a list of rows. *)

From S2P Require Import Prelude.
From S2P Require Import Model.
From S2P Require Import Event.
From S2P Require Import Crates.
From S2P Require Import Store.
From S2P Require Import Snapshot.
From S2P Require Import RowLists.
From S2P Require Import Catalog.

(** [TrackIngestBundle]. *)
Definition TrackIngestBundle : Type :=
  Track * list PaymentRoute * list ValueTimeSplit * list TrackRemoteItemRaw.

(** What [build_diff_events] and [ingest_transaction] take of one submission. *)
Module IngestBundle.
Record IngestBundle : Type := mk {
  feed : Feed;
  remote_items : list FeedRemoteItemRaw;
  source_contributor_claims : list SourceContributorClaim;
  source_entity_ids : list SourceEntityIdClaim;
  source_entity_links : list SourceEntityLink;
  source_release_claims : list SourceReleaseClaim;
  source_item_enclosures : list SourceItemEnclosure;
  source_item_transcripts : list SourceItemTranscript;
  source_platform_claims : list SourcePlatformClaim;
  feed_routes : list FeedPaymentRoute;
  feed_list_values : list FeedListValueRaw;
  live_events : list LiveEvent;
  tracks : list TrackIngestBundle
}.
End IngestBundle.
Abbreviation IngestBundle := IngestBundle.IngestBundle.

(** ** Comparisons *)

Definition feed_fields_changed (existing new : Feed) : bool :=
  (Feed.title existing != Feed.title new)
  || (Feed.description existing != Feed.description new)
  || (Feed.image_url existing != Feed.image_url new)
  || (Feed.publisher existing != Feed.publisher new)
  || (Feed.language existing != Feed.language new)
  || (Feed.explicit existing != Feed.explicit new)
  || (Feed.itunes_type existing != Feed.itunes_type new)
  || (Feed.release_artist existing != Feed.release_artist new)
  || (Feed.release_artist_sort existing != Feed.release_artist_sort new)
  || (Feed.release_date existing != Feed.release_date new)
  || (Feed.release_kind existing != Feed.release_kind new)
  || (Feed.raw_medium existing != Feed.raw_medium new)
  || (Feed.feed_url existing != Feed.feed_url new).

(** What [feed_fields_changed] compares. *)
Definition feed_content (f : Feed) :=
  (Feed.title f, Feed.description f, Feed.image_url f, Feed.publisher f,
   Feed.language f, Feed.explicit f, Feed.itunes_type f,
   Feed.release_artist f, Feed.release_artist_sort f, Feed.release_date f,
   Feed.release_kind f, Feed.raw_medium f, Feed.feed_url f).

Definition track_fields_changed (existing new : Track) : bool :=
  (Track.title existing != Track.title new)
  || (Track.pub_date existing != Track.pub_date new)
  || (Track.duration_secs existing != Track.duration_secs new)
  || (Track.image_url existing != Track.image_url new)
  || (Track.language existing != Track.language new)
  || (Track.enclosure_url existing != Track.enclosure_url new)
  || (Track.enclosure_type existing != Track.enclosure_type new)
  || (Track.enclosure_bytes existing != Track.enclosure_bytes new)
  || (Track.track_number existing != Track.track_number new)
  || (Track.season existing != Track.season new)
  || (Track.explicit existing != Track.explicit new)
  || (Track.description existing != Track.description new)
  || (Track.publisher existing != Track.publisher new)
  || (Track.track_artist existing != Track.track_artist new)
  || (Track.track_artist_sort existing != Track.track_artist_sort new).

(** What [track_fields_changed] compares. *)
Definition track_content (t : Track) :=
  (Track.title t, Track.pub_date t, Track.duration_secs t, Track.image_url
   t, Track.language t, Track.enclosure_url t, Track.enclosure_type t,
   Track.enclosure_bytes t, Track.track_number t, Track.season t,
   Track.explicit t, Track.description t, Track.publisher t,
   Track.track_artist t, Track.track_artist_sort t).

Lemma feed_fields_changed_spec a b :
  feed_fields_changed a b = false ↔ feed_content a = feed_content b.
Proof.
  unfold feed_fields_changed, feed_content.
  rewrite ?orb_false_iff, ?bne_false, ?pair_equal_spec. tauto.
Qed.

Lemma track_fields_changed_spec a b :
  track_fields_changed a b = false ↔ track_content a = track_content b.
Proof.
  unfold track_fields_changed, track_content.
  rewrite ?orb_false_iff, ?bne_false, ?pair_equal_spec. tauto.
Qed.

(** ** Builders *)

Section diff.
Context `{Crates}.

Definition build_feed_upserted_event (feed : Feed) (now : Z) (warnings : list string)
    (event_id : string) : EventRow :=
  EventRow.mk event_id EventType.FeedUpserted
    (event_json (EventPayload.FeedUpserted (FeedUpsertedPayload.mk feed None)))
    (Feed.feed_guid feed) now warnings.

Definition build_feed_routes_event (feed : Feed) (routes : list FeedPaymentRoute) (now : Z)
    (warnings : list string) (event_id : string) : EventRow :=
  EventRow.mk event_id EventType.FeedRoutesReplaced
    (event_json (EventPayload.FeedRoutesReplaced
       (FeedRoutesReplacedPayload.mk (Feed.feed_guid feed) routes)))
    (Feed.feed_guid feed) now warnings.

Definition build_feed_list_value_event (feed : Feed) (list_values : list FeedListValueRaw) (now : Z)
    (warnings : list string) (event_id : string) : EventRow :=
  EventRow.mk event_id EventType.FeedListValueReplaced
    (event_json (EventPayload.FeedListValueReplaced
       (FeedListValueReplacedPayload.mk (Feed.feed_guid feed) list_values)))
    (Feed.feed_guid feed) now warnings.

Definition build_feed_remote_items_event (feed : Feed) (remote_items : list FeedRemoteItemRaw) (now : Z)
    (warnings : list string) (event_id : string) : EventRow :=
  EventRow.mk event_id EventType.FeedRemoteItemsReplaced
    (event_json (EventPayload.FeedRemoteItemsReplaced
       (FeedRemoteItemsReplacedPayload.mk (Feed.feed_guid feed) remote_items)))
    (Feed.feed_guid feed) now warnings.

Definition build_live_events_event (feed : Feed) (live_events : list LiveEvent) (now : Z)
    (warnings : list string) (event_id : string) : EventRow :=
  EventRow.mk event_id EventType.LiveEventsReplaced
    (event_json (EventPayload.LiveEventsReplaced
       (LiveEventsReplacedPayload.mk (Feed.feed_guid feed) live_events)))
    (Feed.feed_guid feed) now warnings.

Definition build_source_contributor_claims_event (feed : Feed) (claims : list SourceContributorClaim) (now : Z)
    (warnings : list string) (event_id : string) : EventRow :=
  EventRow.mk event_id EventType.SourceContributorClaimsReplaced
    (event_json (EventPayload.SourceContributorClaimsReplaced
       (SourceContributorClaimsReplacedPayload.mk (Feed.feed_guid feed) claims)))
    (Feed.feed_guid feed) now warnings.

Definition build_source_entity_ids_event (feed : Feed) (claims : list SourceEntityIdClaim) (now : Z)
    (warnings : list string) (event_id : string) : EventRow :=
  EventRow.mk event_id EventType.SourceEntityIdsReplaced
    (event_json (EventPayload.SourceEntityIdsReplaced
       (SourceEntityIdsReplacedPayload.mk (Feed.feed_guid feed) claims)))
    (Feed.feed_guid feed) now warnings.

Definition build_source_entity_links_event (feed : Feed) (links : list SourceEntityLink) (now : Z)
    (warnings : list string) (event_id : string) : EventRow :=
  EventRow.mk event_id EventType.SourceEntityLinksReplaced
    (event_json (EventPayload.SourceEntityLinksReplaced
       (SourceEntityLinksReplacedPayload.mk (Feed.feed_guid feed) links)))
    (Feed.feed_guid feed) now warnings.

Definition build_source_release_claims_event (feed : Feed) (claims : list SourceReleaseClaim) (now : Z)
    (warnings : list string) (event_id : string) : EventRow :=
  EventRow.mk event_id EventType.SourceReleaseClaimsReplaced
    (event_json (EventPayload.SourceReleaseClaimsReplaced
       (SourceReleaseClaimsReplacedPayload.mk (Feed.feed_guid feed) claims)))
    (Feed.feed_guid feed) now warnings.

Definition build_source_item_enclosures_event (feed : Feed) (enclosures : list SourceItemEnclosure) (now : Z)
    (warnings : list string) (event_id : string) : EventRow :=
  EventRow.mk event_id EventType.SourceItemEnclosuresReplaced
    (event_json (EventPayload.SourceItemEnclosuresReplaced
       (SourceItemEnclosuresReplacedPayload.mk (Feed.feed_guid feed) enclosures)))
    (Feed.feed_guid feed) now warnings.

Definition build_source_item_transcripts_event (feed : Feed) (transcripts : list SourceItemTranscript) (now : Z)
    (warnings : list string) (event_id : string) : EventRow :=
  EventRow.mk event_id EventType.SourceItemTranscriptsReplaced
    (event_json (EventPayload.SourceItemTranscriptsReplaced
       (SourceItemTranscriptsReplacedPayload.mk (Feed.feed_guid feed) transcripts)))
    (Feed.feed_guid feed) now warnings.

Definition build_source_platform_claims_event (feed : Feed) (claims : list SourcePlatformClaim) (now : Z)
    (warnings : list string) (event_id : string) : EventRow :=
  EventRow.mk event_id EventType.SourcePlatformClaimsReplaced
    (event_json (EventPayload.SourcePlatformClaimsReplaced
       (SourcePlatformClaimsReplacedPayload.mk (Feed.feed_guid feed) claims)))
    (Feed.feed_guid feed) now warnings.

Definition build_track_remote_items_event (track : Track)
    (remote_items : list TrackRemoteItemRaw) (now : Z) (warnings : list string)
    (event_id : string) : EventRow :=
  EventRow.mk event_id EventType.TrackRemoteItemsReplaced
    (event_json (EventPayload.TrackRemoteItemsReplaced
       (TrackRemoteItemsReplacedPayload.mk (Track.track_guid track)
          (Some (Track.feed_guid track)) remote_items)))
    (Track.track_guid track) now warnings.

Definition build_track_upserted_event (track : Track) (routes : list PaymentRoute)
    (vts : list ValueTimeSplit) (now : Z) (warnings : list string)
    (event_id : string) : EventRow :=
  EventRow.mk event_id EventType.TrackUpserted
    (event_json (EventPayload.TrackUpserted (TrackUpsertedPayload.mk track routes vts)))
    (Track.track_guid track) now warnings.

(** [if c { event_rows.push(row) }] *)
Definition push_if {A} (c : bool) (row : A) : list A := if c then [row] else [].

Definition is_nonempty {A} (l : list A) : bool := match l with [] => false | _ => true end.

(** Draws the ids of the rows, from the n-th call of [new_v4] on. *)
Definition number_rows (n : nat) (rows : list (string → EventRow)) : list EventRow :=
  imap (λ i row, row (new_v4 (n + i))) rows.

(** ** [build_all_events] *)

Definition build_all_events (b : IngestBundle) (now : Z) (warnings : list string) :
    list (string → EventRow) :=
  let feed := IngestBundle.feed b in
  let sorted_live_events := dedupe_and_sort_live_events (IngestBundle.live_events b) in
  [build_feed_upserted_event feed now warnings]
  ++ push_if (is_nonempty (IngestBundle.feed_routes b))
       (build_feed_routes_event feed (IngestBundle.feed_routes b) now warnings)
  ++ push_if (is_nonempty (IngestBundle.feed_list_values b))
       (build_feed_list_value_event feed (IngestBundle.feed_list_values b) now warnings)
  ++ push_if (is_nonempty (IngestBundle.remote_items b))
       (build_feed_remote_items_event feed (IngestBundle.remote_items b) now warnings)
  ++ push_if (is_nonempty (IngestBundle.source_contributor_claims b))
       (build_source_contributor_claims_event feed
          (IngestBundle.source_contributor_claims b) now warnings)
  ++ push_if (is_nonempty (IngestBundle.source_entity_ids b))
       (build_source_entity_ids_event feed
          (IngestBundle.source_entity_ids b) now warnings)
  ++ push_if (is_nonempty (IngestBundle.source_entity_links b))
       (build_source_entity_links_event feed
          (IngestBundle.source_entity_links b) now warnings)
  ++ push_if (is_nonempty (IngestBundle.source_release_claims b))
       (build_source_release_claims_event feed
          (IngestBundle.source_release_claims b) now warnings)
  ++ push_if (is_nonempty (IngestBundle.source_item_enclosures b))
       (build_source_item_enclosures_event feed
          (IngestBundle.source_item_enclosures b) now warnings)
  ++ push_if (is_nonempty (IngestBundle.source_item_transcripts b))
       (build_source_item_transcripts_event feed
          (IngestBundle.source_item_transcripts b) now warnings)
  ++ push_if (is_nonempty (IngestBundle.source_platform_claims b))
       (build_source_platform_claims_event feed
          (IngestBundle.source_platform_claims b) now warnings)
  ++ push_if (is_nonempty sorted_live_events)
       (build_live_events_event feed sorted_live_events now warnings)
  ++ concat ((λ '(track, routes, vts, track_remote_items),
       [build_track_upserted_event track routes vts now warnings]
       ++ push_if (is_nonempty track_remote_items)
            (build_track_remote_items_event track track_remote_items now warnings))
       <$> IngestBundle.tracks b).

(** ** [build_changed_events] *)

(** The rows of one track, against the track stored under its GUID. *)
Definition track_changed_events (existing_tracks : list Track) (now : Z)
    (warnings : list string) (bundle : TrackIngestBundle) :
    DB (list (string → EventRow)) :=
  let '(track, routes, vts, track_remote_items) := bundle in
  let existing := List.find (λ t, Track.track_guid t =s Track.track_guid track)
                    existing_tracks in
  existing_remote_items ← get_track_remote_items_for_feed_track
    (Track.feed_guid track) (Track.track_guid track);
  let is_new_or_changed := is_none_or (λ e, track_fields_changed e track) existing in
  if is_new_or_changed then
    let emptied := is_some existing && is_nonempty existing_remote_items in
    mret ([build_track_upserted_event track routes vts now warnings]
      ++ push_if (is_nonempty track_remote_items || emptied)
           (build_track_remote_items_event track track_remote_items now warnings))
  else
    mret (push_if (track_remote_items_changed existing_remote_items track_remote_items)
      (build_track_remote_items_event track track_remote_items now warnings)).

(** [for x in l { rows.extend(f(x)?) }] *)
Fixpoint flat_map_db {A B} (f : A → DB (list B)) (l : list A) : DB (list B) :=
  match l with
  | [] => mret []
  | x :: r => ys ← f x; zs ← flat_map_db f r; mret (ys ++ zs)
  end.

Definition build_changed_events (b : IngestBundle) (now : Z) (warnings : list string)
    (existing_feed : Feed) : DB (list (string → EventRow)) :=
  let feed := IngestBundle.feed b in
  let feed_guid := Feed.feed_guid feed in
  existing_routes ← get_feed_payment_routes_for_feed feed_guid;
  existing_list_values ← get_feed_list_value_raw_for_feed feed_guid;
  existing_remote_items ← get_feed_remote_items_for_feed feed_guid;
  existing_source_contributor_claims ← get_source_contributor_claims_for_feed feed_guid;
  existing_source_entity_ids ← get_source_entity_ids_for_feed feed_guid;
  existing_source_entity_links ← get_source_entity_links_for_feed feed_guid;
  existing_source_release_claims ← get_source_release_claims_for_feed feed_guid;
  existing_source_item_enclosures ← get_source_item_enclosures_for_feed feed_guid;
  existing_source_item_transcripts ← get_source_item_transcripts_for_feed feed_guid;
  existing_source_platform_claims ← get_source_platform_claims_for_feed feed_guid;
  existing_live_events ← get_live_events_for_feed feed_guid;
  let existing_live_events := sort_by by_item_guid existing_live_events in
  let sorted_live_events := dedupe_and_sort_live_events (IngestBundle.live_events b) in
  existing_tracks ← get_tracks_for_feed feed_guid;
  track_rows ← flat_map_db (track_changed_events existing_tracks now warnings)
                 (IngestBundle.tracks b);
  mret (
    push_if (feed_fields_changed existing_feed feed)
      (build_feed_upserted_event feed now warnings)
    ++ push_if (feed_routes_changed existing_routes (IngestBundle.feed_routes b))
         (build_feed_routes_event feed (IngestBundle.feed_routes b) now warnings)
    ++ push_if (feed_list_values_changed existing_list_values (IngestBundle.feed_list_values b))
         (build_feed_list_value_event feed (IngestBundle.feed_list_values b) now warnings)
    ++ push_if (feed_remote_items_changed existing_remote_items (IngestBundle.remote_items b))
         (build_feed_remote_items_event feed (IngestBundle.remote_items b) now warnings)
    ++ push_if (source_contributor_claims_changed existing_source_contributor_claims
                  (IngestBundle.source_contributor_claims b))
         (build_source_contributor_claims_event feed
            (IngestBundle.source_contributor_claims b) now warnings)
    ++ push_if (source_entity_ids_changed existing_source_entity_ids
                  (IngestBundle.source_entity_ids b))
         (build_source_entity_ids_event feed
            (IngestBundle.source_entity_ids b) now warnings)
    ++ push_if (source_entity_links_changed existing_source_entity_links
                  (IngestBundle.source_entity_links b))
         (build_source_entity_links_event feed
            (IngestBundle.source_entity_links b) now warnings)
    ++ push_if (source_release_claims_changed existing_source_release_claims
                  (IngestBundle.source_release_claims b))
         (build_source_release_claims_event feed
            (IngestBundle.source_release_claims b) now warnings)
    ++ push_if (source_item_enclosures_changed existing_source_item_enclosures
                  (IngestBundle.source_item_enclosures b))
         (build_source_item_enclosures_event feed
            (IngestBundle.source_item_enclosures b) now warnings)
    ++ push_if (source_item_transcripts_changed existing_source_item_transcripts
                  (IngestBundle.source_item_transcripts b))
         (build_source_item_transcripts_event feed
            (IngestBundle.source_item_transcripts b) now warnings)
    ++ push_if (source_platform_claims_changed existing_source_platform_claims
                  (IngestBundle.source_platform_claims b))
         (build_source_platform_claims_event feed
            (IngestBundle.source_platform_claims b) now warnings)
    ++ push_if (live_events_changed existing_live_events sorted_live_events)
         (build_live_events_event feed sorted_live_events now warnings)
    ++ track_rows).

Definition build_diff_events (b : IngestBundle) (now : Z) (warnings : list string)
    (uuids : nat) : DB (list EventRow) :=
  existing_feed ← get_feed_by_guid (Feed.feed_guid (IngestBundle.feed b));
  match existing_feed with
  | None => mret (number_rows uuids (build_all_events b now warnings))
  | Some ef =>
      rows ← build_changed_events b now warnings ef;
      mret (number_rows uuids rows)
  end.
End diff.
