(* ===== verification/Bundle.v ===== *)
(** The bundle of a submission (src/api.rs, steps 3 to 9 of
    [handle_ingest_feed]): the rows that the body of a feed stands for, and
    the warnings for its URLs that are not of the web. *)

From S2P Require Import Prelude.
From S2P Require Import Model.
From S2P Require Import Ingest.
From S2P Require Import Event.
From S2P Require Import Medium.
From S2P Require Import Crates.
From S2P Require Import Live.
From S2P Require Import Claims.
From S2P Require Import Store.
From S2P Require Import RowLists.
From S2P Require Import Diff.

Definition MAX_TRACKS_PER_INGEST : nat := 500.

(** ** Warnings (ADR 0054) *)

Definition bad_links `{Web} (links : list IngestLink) : bool :=
  existsb (λ link, is_non_web (Some (IngestLink.url link))) links.

Definition bad_remote_items `{Web} (items : list IngestRemoteFeedRef) : bool :=
  existsb (λ item, is_non_web (IngestRemoteFeedRef.remote_feed_url item)) items.

Definition bad_hrefs `{Web} (persons : list IngestPerson) : bool :=
  existsb (λ person, is_non_web (IngestPerson.href person)) persons.

Definition bad_imgs `{Web} (persons : list IngestPerson) : bool :=
  existsb (λ person, is_non_web (IngestPerson.img person)) persons.

Definition non_web_url_warnings `{Web} (feed_data : IngestFeedData)
    (tracks : list IngestTrackData) (live_items : list IngestLiveItemData) : list string :=
  let bad_image_url := is_non_web (IngestFeedData.image_url feed_data)
    || existsb (λ t, is_non_web (IngestTrackData.image_url t)) tracks in
  let bad_enclosure_url := existsb (λ t, is_non_web (IngestTrackData.enclosure_url t)) tracks in
  let bad_url := bad_links (IngestFeedData.links feed_data)
    || existsb (λ t, bad_links (IngestTrackData.links t)
         || existsb (λ alt, is_non_web (Some (IngestAlternateEnclosure.url alt)))
              (IngestTrackData.alternate_enclosures t)
         || existsb (λ tr, is_non_web (Some (IngestTranscript.url tr)))
              (IngestTrackData.transcripts t)) tracks in
  let bad_remote_feed_url := bad_remote_items (IngestFeedData.remote_items feed_data)
    || existsb (λ t, bad_remote_items (IngestTrackData.remote_items t)) tracks in
  let bad_href := bad_hrefs (IngestFeedData.persons feed_data)
    || existsb (λ t, bad_hrefs (IngestTrackData.persons t)) tracks in
  let bad_img := bad_imgs (IngestFeedData.persons feed_data)
    || existsb (λ t, bad_imgs (IngestTrackData.persons t)) tracks in
  let bad_content_link :=
    existsb (λ item, is_non_web (IngestLiveItemData.content_link item)) live_items in
  let bad_live_value_uri :=
    existsb (λ item, is_non_web_scheme (IngestLiveItemData.live_value_uri item)) live_items in
  (if bad_image_url then ["non-web URL in image_url"%string] else [])
  ++ (if bad_enclosure_url then ["non-web URL in enclosure_url"%string] else [])
  ++ (if bad_url then ["non-web URL in url"%string] else [])
  ++ (if bad_remote_feed_url then ["non-web URL in remote_feed_url"%string] else [])
  ++ (if bad_href then ["non-web URL in href"%string] else [])
  ++ (if bad_img then ["non-web URL in img"%string] else [])
  ++ (if bad_content_link then ["non-web URL in content_link"%string] else [])
  ++ (if bad_live_value_uri then ["non-web URL in live_value_uri"%string] else []).

(** ** Rows of the feed *)

Section bundle.
Context `{Crates} `{Web}.
Context (canonical_url feed_url : string) (feed_data : IngestFeedData) (now : Z).

Definition bundle_guid : string := IngestFeedData.feed_guid feed_data.

Definition body_is_musicl : bool := is_musicl (IngestFeedData.raw_medium feed_data).

(** A [musicL] body gives no item of its own. *)
Definition body_tracks : list IngestTrackData :=
  if body_is_musicl then [] else IngestFeedData.tracks feed_data.

Definition body_live_items : list IngestLiveItemData * list string :=
  select_live_items (if body_is_musicl then [] else IngestFeedData.live_items feed_data).

Definition feed_remote_item (item : IngestRemoteFeedRef) : FeedRemoteItemRaw :=
  FeedRemoteItemRaw.mk None bundle_guid (IngestRemoteFeedRef.position item)
    (IngestRemoteFeedRef.medium item) (IngestRemoteFeedRef.remote_feed_guid item)
    (IngestRemoteFeedRef.remote_feed_url item) (IngestRemoteFeedRef.rel item)
    (if IngestRemoteFeedRef.publisher_reference item then "podcast_publisher"
     else "podcast_remote_item")
    (IngestRemoteFeedRef.item_guid item) (IngestRemoteFeedRef.item_title item).

Definition body_pub_dates : list Z := omap IngestTrackData.pub_date body_tracks.

(** [Iterator::max] and [Iterator::min]. *)
Definition iter_max (l : list Z) : option Z :=
  match l with [] => None | x :: r => Some (foldl Z.max x r) end.

Definition iter_min (l : list Z) : option Z :=
  match l with [] => None | x :: r => Some (foldl Z.min x r) end.

Definition body_release_date : option Z :=
  match IngestFeedData.pub_date feed_data with
  | Some d => Some d
  | None => iter_min body_pub_dates
  end.

Definition bundle_feed_row : Feed :=
  let '(artist_name, release_artist_source) := derive_release_artist feed_data in
  Feed.mk bundle_guid feed_url (IngestFeedData.title feed_data)
    (to_lowercase (IngestFeedData.title feed_data)) (IngestFeedData.description feed_data)
    (IngestFeedData.image_url feed_data) (derive_publisher_name feed_data)
    (IngestFeedData.language feed_data) (IngestFeedData.explicit feed_data)
    (IngestFeedData.itunes_type feed_data) (Some artist_name) None body_release_date
    (Some "unknown"%string) (wrap64 (Z.of_nat (length body_tracks))) (iter_max body_pub_dates)
    (iter_min body_pub_dates) now now (IngestFeedData.raw_medium feed_data)
    (IngestFeedData.last_build_date feed_data) (Some release_artist_source).

Definition feed_payment_route (r : IngestPaymentRoute) : FeedPaymentRoute :=
  FeedPaymentRoute.mk None bundle_guid (IngestPaymentRoute.recipient_name r)
    (IngestPaymentRoute.route_type r) (IngestPaymentRoute.address r)
    (IngestPaymentRoute.custom_key r) (IngestPaymentRoute.custom_value r)
    (IngestPaymentRoute.split r) (IngestPaymentRoute.fee r).

Definition body_feed_routes : list FeedPaymentRoute :=
  if body_is_musicl then []
  else feed_payment_route <$> IngestFeedData.feed_payment_routes feed_data.

Definition body_list_values : list FeedListValueRaw :=
  if body_is_musicl then
    imap (λ idx r,
      FeedListValueRaw.mk None bundle_guid (IngestPaymentRoute.recipient_name r)
        (IngestPaymentRoute.route_type r) (IngestPaymentRoute.address r)
        (IngestPaymentRoute.custom_key r) (IngestPaymentRoute.custom_value r)
        (IngestPaymentRoute.split r) (IngestPaymentRoute.fee r) (wrap64 (Z.of_nat idx)))
      (IngestFeedData.feed_payment_routes feed_data)
  else [].

Definition live_event_row (item : IngestLiveItemData) : LiveEvent :=
  LiveEvent.mk (IngestLiveItemData.live_item_guid item) bundle_guid
    (IngestLiveItemData.title item) (IngestLiveItemData.content_link item)
    (IngestLiveItemData.status item) (IngestLiveItemData.start_at item)
    (IngestLiveItemData.end_at item) now now (IngestLiveItemData.live_value_uri item)
    (IngestLiveItemData.live_value_protocol item).

Definition feed_release_claims : list SourceReleaseClaim :=
  let push claims claim_type value path :=
    push_source_release_claim claims bundle_guid "feed" bundle_guid claim_type value path now in
  let claims := push [] "release_date"%string (pretty <$> body_release_date)
    (if is_some (IngestFeedData.pub_date feed_data) then "feed.pub_date"
     else "oldest_item.pub_date")%string in
  let claims := push claims "last_build_date"%string
    (pretty <$> IngestFeedData.last_build_date feed_data) "feed.last_build_date"%string in
  let claims := push claims "description"%string (IngestFeedData.description feed_data)
    "feed.description"%string in
  let claims := push claims "language"%string (IngestFeedData.language feed_data)
    "feed.language"%string in
  let claims := push claims "image_url"%string (IngestFeedData.image_url feed_data)
    "feed.image_url"%string in
  let claims := push claims "raw_medium"%string (IngestFeedData.raw_medium feed_data)
    "feed.raw_medium"%string in
  push claims "itunes_type"%string (IngestFeedData.itunes_type feed_data)
    "feed.itunes_type"%string.

(** The release claims of a track or of a live item. *)
Definition item_release_claims (entity_type guid : string) (pub_date : option Z)
    (description : option string) : list SourceReleaseClaim :=
  let claims := push_source_release_claim [] bundle_guid entity_type guid "release_date"
    (pretty <$> pub_date) (entity_type ++ ".pub_date") now in
  push_source_release_claim claims bundle_guid entity_type guid "description" description
    (entity_type ++ ".description") now.

(** ** Rows of a track *)

Definition body_track (t : IngestTrackData) : Track :=
  Track.mk (IngestTrackData.track_guid t) bundle_guid (IngestTrackData.title t)
    (to_lowercase (IngestTrackData.title t)) (IngestTrackData.pub_date t)
    (IngestTrackData.duration_secs t) (IngestTrackData.enclosure_url t)
    (IngestTrackData.enclosure_type t) (IngestTrackData.enclosure_bytes t)
    (IngestTrackData.track_number t) (IngestTrackData.season t)
    (IngestTrackData.image_url t) (Feed.publisher bundle_feed_row)
    (match IngestTrackData.language t with
     | Some l => Some l
     | None => IngestFeedData.language feed_data
     end)
    (IngestTrackData.explicit t) (IngestTrackData.description t)
    (Some (unwrap_or (derive_release_artist feed_data).1 (IngestTrackData.author_name t)))
    None now now.

Definition track_route (t : IngestTrackData) (r : IngestPaymentRoute) : PaymentRoute :=
  PaymentRoute.mk None (IngestTrackData.track_guid t) bundle_guid
    (IngestPaymentRoute.recipient_name r) (IngestPaymentRoute.route_type r)
    (IngestPaymentRoute.address r) (IngestPaymentRoute.custom_key r)
    (IngestPaymentRoute.custom_value r) (IngestPaymentRoute.split r)
    (IngestPaymentRoute.fee r).

Definition track_remote_item (t : IngestTrackData) (r : IngestRemoteFeedRef) :
    TrackRemoteItemRaw :=
  TrackRemoteItemRaw.mk None bundle_guid (IngestTrackData.track_guid t)
    (IngestRemoteFeedRef.position r) (IngestRemoteFeedRef.medium r)
    (IngestRemoteFeedRef.remote_feed_guid r) (IngestRemoteFeedRef.remote_feed_url r)
    (IngestRemoteFeedRef.rel r) "podcast_remote_item".

Definition track_tuple (t : IngestTrackData) : TrackIngestBundle :=
  (body_track t, track_route t <$> IngestTrackData.payment_routes t,
   build_value_time_splits bundle_guid (IngestTrackData.track_guid t)
     (IngestTrackData.value_time_splits t) now,
   track_remote_item t <$> IngestTrackData.remote_items t).

(** ** The bundle *)

Definition body_contributors : list SourceContributorClaim :=
  build_source_contributor_claims bundle_guid "feed" bundle_guid
    (IngestFeedData.persons feed_data) now
  ++ flat_map (λ t, build_source_contributor_claims bundle_guid "track"
       (IngestTrackData.track_guid t) (IngestTrackData.persons t) now) body_tracks
  ++ flat_map (λ i, build_source_contributor_claims bundle_guid "live_item"
       (IngestLiveItemData.live_item_guid i) (IngestLiveItemData.persons i) now)
       body_live_items.1.

Definition body_entity_ids : list SourceEntityIdClaim :=
  build_source_entity_id_claims bundle_guid "feed" bundle_guid
    (IngestFeedData.entity_ids feed_data) now
  ++ flat_map (λ t, build_source_entity_id_claims bundle_guid "track"
       (IngestTrackData.track_guid t) (IngestTrackData.entity_ids t) now) body_tracks
  ++ flat_map (λ i, build_source_entity_id_claims bundle_guid "live_item"
       (IngestLiveItemData.live_item_guid i) (IngestLiveItemData.entity_ids i) now)
       body_live_items.1.

Definition body_entity_links : list SourceEntityLink :=
  build_source_entity_links bundle_guid "feed" bundle_guid
    (IngestFeedData.links feed_data) now
  ++ flat_map (λ t, build_source_entity_links bundle_guid "track"
       (IngestTrackData.track_guid t) (IngestTrackData.links t) now) body_tracks
  ++ flat_map (λ i, build_source_entity_links bundle_guid "live_item"
       (IngestLiveItemData.live_item_guid i) (IngestLiveItemData.links i) now)
       body_live_items.1.

Definition body_release_claims : list SourceReleaseClaim :=
  feed_release_claims
  ++ flat_map (λ t, item_release_claims "track" (IngestTrackData.track_guid t)
       (IngestTrackData.pub_date t) (IngestTrackData.description t)) body_tracks
  ++ flat_map (λ i, item_release_claims "live_item" (IngestLiveItemData.live_item_guid i)
       (IngestLiveItemData.pub_date i) (IngestLiveItemData.description i))
       body_live_items.1.

Definition body_enclosures : list SourceItemEnclosure :=
  flat_map (λ t, build_source_item_enclosures bundle_guid "track"
    (IngestTrackData.track_guid t) (IngestTrackData.enclosure_url t)
    (IngestTrackData.enclosure_type t) (IngestTrackData.enclosure_bytes t)
    (IngestTrackData.alternate_enclosures t) now) body_tracks
  ++ flat_map (λ i, build_source_item_enclosures bundle_guid "live_item"
       (IngestLiveItemData.live_item_guid i) (IngestLiveItemData.enclosure_url i)
       (IngestLiveItemData.enclosure_type i) (IngestLiveItemData.enclosure_bytes i)
       (IngestLiveItemData.alternate_enclosures i) now) body_live_items.1.

Definition body_transcripts : list SourceItemTranscript :=
  flat_map (λ t, build_source_item_transcripts bundle_guid "track"
    (IngestTrackData.track_guid t) (IngestTrackData.transcripts t) now) body_tracks
  ++ flat_map (λ i, build_source_item_transcripts bundle_guid "live_item"
       (IngestLiveItemData.live_item_guid i) (IngestLiveItemData.transcripts i) now)
       body_live_items.1.

Definition build_bundle : IngestBundle :=
  IngestBundle.mk bundle_feed_row
    (feed_remote_item <$> IngestFeedData.remote_items feed_data)
    (dedupe_source_contributor_claims body_contributors)
    (dedupe_source_entity_ids body_entity_ids)
    (dedupe_source_entity_links body_entity_links)
    (dedupe_source_release_claims body_release_claims)
    (dedupe_source_item_enclosures body_enclosures)
    (dedupe_source_item_transcripts body_transcripts)
    (build_source_platform_claims bundle_guid canonical_url
       (IngestFeedData.owner_name feed_data) (IngestFeedData.links feed_data) now)
    body_feed_routes body_list_values (live_event_row <$> body_live_items.1)
    (track_tuple <$> body_tracks).
End bundle.
