(* ===== verification/Moves.v ===== *)
(** Source moves (src/db.rs, ADR 0083): the URLs a record left, its declared
    URLs, the arrival tag, and the wait after a return. *)

From S2P Require Import Prelude.
From S2P Require Import Model.
From S2P Require Import Store.

(** ** Left URLs *)

Definition get_left_urls (feed_guid : string) : DB (list string) := query (λ db,
  sort_by String.leb (snd <$> List.filter (λ '(g, _), g =s feed_guid)
    (elements (feed_left_urls db)))).

Definition add_left_url (feed_guid url : string) : DB unit :=
  execute (λ db, set_feed_left_urls ({[(feed_guid, url)]} ∪ feed_left_urls db) db).

Definition remove_left_url (feed_guid url : string) : DB unit :=
  execute (λ db, set_feed_left_urls (feed_left_urls db ∖ {[(feed_guid, url)]}) db).

(** ** Declared columns of the feed row *)

Definition update_feed_row (feed_guid : string) (f : FeedRow → FeedRow) : DB unit :=
  execute (λ db, set_feeds (alter f feed_guid (feeds db)) db).

Definition get_declared_self_url (feed_guid : string) : DB (option string) := query (λ db,
  row ← feeds db !! feed_guid; FeedRow.declared_self_url row).

Definition set_declared_self_url (feed_guid : string) (declared_self_url : option string) :
    DB unit :=
  update_feed_row feed_guid (λ row,
    FeedRow.mk (FeedRow.feed row) declared_self_url (FeedRow.declared_new_feed_url row)
      (FeedRow.podcast_locked row) (FeedRow.locked_owner row)).

Definition get_declared_new_feed_url (feed_guid : string) : DB (option string) := query (λ db,
  row ← feeds db !! feed_guid; FeedRow.declared_new_feed_url row).

Definition set_feed_move_declarations (feed_guid : string)
    (declared_new_feed_url : option string) (locked : option bool)
    (locked_owner : option string) : DB unit :=
  update_feed_row feed_guid (λ row,
    FeedRow.mk (FeedRow.feed row) (FeedRow.declared_self_url row) declared_new_feed_url
      ((λ b : bool, if b then 1 else 0) <$> locked) locked_owner).

Definition clear_declared_new_feed_url (feed_guid : string) : DB unit :=
  update_feed_row feed_guid (λ row,
    FeedRow.mk (FeedRow.feed row) (FeedRow.declared_self_url row) None
      (FeedRow.podcast_locked row) (FeedRow.locked_owner row)).

(** ** The wait after a return *)

Definition RETURN_WAIT_BASE_SECS : Z := 3600.
Definition RETURN_WAIT_LIMIT_SECS : Z := 604800.
Definition RETURN_COUNT_RESET_SECS : Z := 2592000.

Definition saturating (z : Z) : Z := Z.max i64_min (Z.min i64_max z).

Definition effective_return_count (count : Z) (last_return_at : option Z) (now : Z) : Z :=
  match last_return_at with
  | Some last =>
      if (0 <? count) && (saturating (now - last) <? RETURN_COUNT_RESET_SECS)
      then count else 0
  | None => 0
  end.

(** [u32::try_from(n).unwrap_or(u32::MAX)]. *)
Definition to_u32 (n : Z) : Z :=
  if (0 <=? n) && (n <? 2 ^ 32) then n else 2 ^ 32 - 1.

Definition return_cooldown_end (count : Z) (last_return_at : option Z) (now : Z) : option Z :=
  let effective := effective_return_count count last_return_at now in
  if effective <? 1 then None
  else
    let shift := Z.min (to_u32 (effective - 1)) 20 in
    let wait := Z.min (wrap64 (Z.shiftl RETURN_WAIT_BASE_SECS shift)) RETURN_WAIT_LIMIT_SECS in
    (λ last, saturating (last + wait)) <$> last_return_at.

(** ** The move state; the flag is the [arrival_pending] column *)

Definition get_move_state (feed_guid : string) : DB MoveState := query (λ db,
  match feed_move_state db !! feed_guid with
  | Some (s, _) => s
  | None => MoveState.mk None 0 None
  end).

Definition clear_arrival_tag_unless (feed_guid : string) (tag : option string) : DB unit :=
  execute (λ db, set_feed_move_state (alter (λ '(s, pending),
    (MoveState.mk
       (if pending : bool then tag
        else if MoveState.arrival_tag s == tag then MoveState.arrival_tag s else None)
       (MoveState.return_count s) (MoveState.last_return_at s), false))
    feed_guid (feed_move_state db)) db).

Definition write_feed_move (feed_guid : string) (mv : FeedMoveWrite) : DB unit :=
  _ ← add_left_url feed_guid (FeedMoveWrite.old_url mv);
  _ ← remove_left_url feed_guid (FeedMoveWrite.new_url mv);
  _ ← execute (λ db, set_feed_move_state (<[feed_guid :=
        match feed_move_state db !! feed_guid with
        | Some (s, _) => (MoveState.mk (FeedMoveWrite.arrival_tag mv)
            (MoveState.return_count s) (MoveState.last_return_at s), false)
        | None => (MoveState.mk (FeedMoveWrite.arrival_tag mv) 0 None, false)
        end]> (feed_move_state db)) db);
  match FeedMoveWrite.return_values mv with
  | Some (count, at_) =>
      execute (λ db, set_feed_move_state (alter (λ '(s, pending),
        (MoveState.mk (MoveState.arrival_tag s) count (Some at_), pending))
        feed_guid (feed_move_state db)) db)
  | None => mret tt
  end.

Definition write_relocation_state (feed_guid old_url new_url : string) : DB unit :=
  _ ← add_left_url feed_guid old_url;
  _ ← remove_left_url feed_guid new_url;
  execute (λ db, set_feed_move_state (<[feed_guid :=
    match feed_move_state db !! feed_guid with
    | Some (s, _) => (MoveState.mk None 0 (MoveState.last_return_at s), true)
    | None => (MoveState.mk None 0 None, true)
    end]> (feed_move_state db)) db).

(** ** Facts *)

Lemma saturating_id z : in_i64 z → saturating z = z.
Proof. unfold saturating, in_i64. lia. Qed.

Lemma shift_pow c : 1 ≤ c → in_i64 c →
  Z.min (wrap64 (Z.shiftl RETURN_WAIT_BASE_SECS (Z.min (to_u32 (c - 1)) 20)))
    RETURN_WAIT_LIMIT_SECS
  = Z.min (3600 * 2 ^ (c - 1)) 604800.
Proof.
  intros Hc Hi. unfold to_u32.
  assert (Z.min (if (0 <=? c - 1) && (c - 1 <? 2 ^ 32) then c - 1 else 2 ^ 32 - 1) 20
    = Z.min (c - 1) 20) as ->.
  { destruct (0 <=? c - 1) eqn:E1, (c - 1 <? 2 ^ 32) eqn:E2; cbn [andb]; bool_facts; lia. }
  rewrite Z.shiftl_mul_pow2 by lia. unfold RETURN_WAIT_BASE_SECS, RETURN_WAIT_LIMIT_SECS.
  assert (2 ^ Z.min (c - 1) 20 ≤ 2 ^ 20) by (apply Z.pow_le_mono_r; lia).
  assert (0 < 2 ^ Z.min (c - 1) 20) by (apply Z.pow_pos_nonneg; lia).
  rewrite wrap64_id by (unfold in_i64, i64_min, i64_max; lia).
  destruct (decide (c - 1 ≤ 20)); [by rewrite Z.min_l with (n := c - 1) by lia|].
  rewrite (Z.min_r (c - 1)) by lia.
  assert (2 ^ 20 ≤ 2 ^ (c - 1)) by (apply Z.pow_le_mono_r; lia). lia.
Qed.
