(* ===== verification/IngestTx.v ===== *)
(** [ingest_transaction] of src/db.rs: one submission written in one
    transaction. The feed row, its lists, the tracks with theirs, the removal
    of tracks that the submission leaves out, the signed events, the read
    models, and a move of the source. *)

From S2P Require Import Prelude.
From S2P Require Import Model.
From S2P Require Import Event.
From S2P Require Import Crates.
From S2P Require Import Store.
From S2P Require Import Tables.
From S2P Require Import Snapshot.
From S2P Require Import RowLists.
From S2P Require Import Catalog.
From S2P Require Import Feeds.
From S2P Require Import EventLog.
From S2P Require Import Diff.
From S2P Require Import Moves.

(** The lists of a submission that [ingest_transaction] dedupes first. *)
Definition dedupe_bundle (b : IngestBundle) : IngestBundle :=
  IngestBundle.mk (IngestBundle.feed b) (IngestBundle.remote_items b)
    (dedupe_source_contributor_claims (IngestBundle.source_contributor_claims b))
    (dedupe_source_entity_ids (IngestBundle.source_entity_ids b))
    (dedupe_source_entity_links (IngestBundle.source_entity_links b))
    (dedupe_source_release_claims (IngestBundle.source_release_claims b))
    (dedupe_source_item_enclosures (IngestBundle.source_item_enclosures b))
    (dedupe_source_item_transcripts (IngestBundle.source_item_transcripts b))
    (IngestBundle.source_platform_claims b) (IngestBundle.feed_routes b)
    (IngestBundle.feed_list_values b) (IngestBundle.live_events b)
    (IngestBundle.tracks b).

Section ingest.
Context `{Crates}.
(** The order in which a [HashSet] gives its elements. *)
Context (hash_order : list string → list string).

(** [DELETE FROM t WHERE feed_guid = ?1] and the insert loop. *)
Definition replace_rows {R} (T : Table R (list SqlVal)) (in_feed : R → bool) (rows : list R) :
    DB unit :=
  _ ← delete_where T in_feed;
  for_each (insert T) rows.

(** Steps 3b to 3k: the lists of the feed. *)
Definition ingest_feed_lists (b : IngestBundle) : DB unit :=
  let g := Feed.feed_guid (IngestBundle.feed b) in
  _ ← replace_rows feed_payment_routes_table (λ r, FeedPaymentRoute.feed_guid r =s g)
        (IngestBundle.feed_routes b);
  _ ← replace_rows feed_remote_items_raw_table (λ r, FeedRemoteItemRaw.feed_guid r =s g)
        (IngestBundle.remote_items b);
  _ ← replace_feed_list_value_raw g (IngestBundle.feed_list_values b);
  _ ← replace_rows live_events_table (λ r, LiveEvent.feed_guid r =s g)
        (dedupe_live_events (IngestBundle.live_events b));
  _ ← replace_rows source_contributor_claims_table (λ r, SourceContributorClaim.feed_guid r =s g)
        (IngestBundle.source_contributor_claims b);
  _ ← replace_rows source_entity_ids_table (λ r, SourceEntityIdClaim.feed_guid r =s g)
        (IngestBundle.source_entity_ids b);
  _ ← replace_rows source_entity_links_table (λ r, SourceEntityLink.feed_guid r =s g)
        (IngestBundle.source_entity_links b);
  _ ← replace_rows source_release_claims_table (λ r, SourceReleaseClaim.feed_guid r =s g)
        (IngestBundle.source_release_claims b);
  _ ← replace_rows source_item_enclosures_table (λ r, SourceItemEnclosure.feed_guid r =s g)
        (IngestBundle.source_item_enclosures b);
  _ ← replace_rows source_item_transcripts_table (λ r, SourceItemTranscript.feed_guid r =s g)
        (IngestBundle.source_item_transcripts b);
  replace_rows source_platform_claims_table (λ r, SourcePlatformClaim.feed_guid r =s g)
    (IngestBundle.source_platform_claims b).

(** Step 4 for one track. *)
Definition ingest_track (bundle : TrackIngestBundle) : DB unit :=
  let '(track, routes, splits, remote_items) := bundle in
  let f := Track.feed_guid track in
  let t := Track.track_guid track in
  _ ← upsert_track track;
  _ ← delete_where payment_routes_table (λ r,
        (PaymentRoute.feed_guid r =s f) && (PaymentRoute.track_guid r =s t));
  _ ← for_each (λ r, insert payment_routes_table (route_of_track f t r)) routes;
  _ ← delete_where value_time_splits_table (in_split_scope f t);
  _ ← for_each (λ s, insert_value_time_split
          (Some (or_feed (ValueTimeSplit.source_feed_guid s) f)) t s) splits;
  _ ← delete_where track_remote_items_raw_table (in_item_scope f t);
  for_each (λ i, insert track_remote_items_raw_table
      (item_of_track (Some (or_feed (TrackRemoteItemRaw.feed_guid i) f)) t i)) remote_items.

Definition track_removed_event (feed : Feed) (removed_guid : string) (event_id : string) :
    EventRow :=
  EventRow.mk event_id EventType.TrackRemoved
    (event_json (EventPayload.TrackRemoved
       (TrackRemovedPayload.mk removed_guid (Feed.feed_guid feed))))
    removed_guid (Feed.updated_at feed) [].

(** Step 4b: one GUID of [existing_guids]. *)
Definition remove_if_stale (feed : Feed) (new_guids : list string) (removed_guid : string) :
    DB (list (string → EventRow)) :=
  if bool_decide (removed_guid ∈ new_guids) then mret []
  else
    track_opt ← get_track_for_feed (Feed.feed_guid feed) removed_guid;
    _ ← (if is_some track_opt then delete_track_sql (Feed.feed_guid feed) removed_guid
         else mret tt);
    mret [track_removed_event feed removed_guid].

(** Step 5. *)
Fixpoint insert_events (signer : string) (rows : list EventRow) :
    DB (list (Z * string * string)) :=
  match rows with
  | [] => mret []
  | er :: rest =>
      s ← insert_event (EventRow.event_id er) (EventRow.event_type er)
            (EventRow.payload_json er) (EventRow.subject_guid er) signer
            (EventRow.created_at er) (EventRow.warnings er);
      ss ← insert_events signer rest;
      mret (s :: ss)
  end.

Definition ingest_body (now : Z) (uuids : nat) (b : IngestBundle)
    (event_rows : list EventRow) (feed_move : option FeedMoveWrite) (signer : string) :
    DB (list (Z * string * string)) :=
  let feed := IngestBundle.feed b in
  let g := Feed.feed_guid feed in
  _ ← upsert_feed feed;
  _ ← execute (λ db, set_source_gone_answers (delete g (source_gone_answers db)) db);
  _ ← execute (λ db, set_retired_source_holds
        (delete (to_lowercase g) (retired_source_holds db)) db);
  _ ← ingest_feed_lists b;
  existing_guids ← query (λ db, feed_track_guids g db);
  _ ← for_each ingest_track (IngestBundle.tracks b);
  let new_guids := (λ bundle : TrackIngestBundle, Track.track_guid bundle.1.1.1)
                     <$> IngestBundle.tracks b in
  removals ← flat_map_db (remove_if_stale feed new_guids) (hash_order existing_guids);
  let all_event_rows := event_rows ++ number_rows uuids removals in
  seqs ← insert_events signer all_event_rows;
  _ ← sync_source_read_models_for_feed now g;
  _ ← match feed_move with
      | Some mv => write_feed_move g mv
      | None => mret tt
      end;
  mret seqs.

Definition ingest_transaction (now : Z) (uuids : nat) (b : IngestBundle)
    (event_rows : list EventRow) (feed_move : option FeedMoveWrite) (signer : string) :
    DB (list (Z * string * string)) :=
  transaction (ingest_body now uuids (dedupe_bundle b) event_rows feed_move signer).
End ingest.
