(* ===== verification/Blocks.v ===== *)
(** Durable blocks of feed GUIDs and URLs (src/db.rs, src/blocks.rs,
    [FeedBlockKind] of src/model.rs). *)

From S2P Require Import Prelude.
From S2P Require Import Model.
From S2P Require Import Event.
From S2P Require Import Crates.
From S2P Require Import Store.
From S2P Require Import EventLog.

Section blocks.
Context `{Crates}.

(** [FeedBlockKind::normalize]. *)
Definition normalize (kind : FeedBlockKind) (value : string) : string :=
  match kind with
  | FeedBlockKind.Guid => to_lowercase (str_trim value)
  | FeedBlockKind.Url => str_trim value
  end.

(** Whether a row has the id, or the pair of kind and value. *)
Definition block_clash (b c : FeedBlock) : bool :=
  (FeedBlock.block_id b =s FeedBlock.block_id c)
  || ((FeedBlock.kind b == FeedBlock.kind c) && (FeedBlock.value b =s FeedBlock.value c)).

Definition insert_feed_block (block : FeedBlock) : DB bool := λ db,
  let value := normalize (FeedBlock.kind block) (FeedBlock.value block) in
  let row := FeedBlock.mk (FeedBlock.block_id block) (FeedBlock.kind block) value
               (FeedBlock.reason block) (FeedBlock.blocked_at block) in
  if existsb (block_clash row) (feed_blocks db) then (db, Ok false)
  else
    let db := set_feed_blocks (feed_blocks db ++ [row]) db in
    match FeedBlock.kind block with
    | FeedBlockKind.Url =>
        (set_feed_copies (filter (λ '((_, url), _), url ≠ value) (feed_copies db)) db, Ok true)
    | FeedBlockKind.Guid => (db, Ok true)
    end.

Definition delete_feed_block (block_id : string) : DB bool := λ db,
  (set_feed_blocks
     (List.filter (λ b, FeedBlock.block_id b ≠s block_id) (feed_blocks db)) db,
   Ok (existsb (λ b, FeedBlock.block_id b =s block_id) (feed_blocks db))).

Definition get_feed_block_by_pair (kind : FeedBlockKind) (value : string) :
    DB (option FeedBlock) := query (λ db,
  List.find (λ b, (FeedBlock.kind b == kind)
    && (FeedBlock.value b =s normalize kind value)) (feed_blocks db)).

Fixpoint find_url_block (urls : list string) : DB (option FeedBlock) :=
  match urls with
  | [] => mret None
  | url :: rest =>
      if str_is_empty url then find_url_block rest
      else
        block ← get_feed_block_by_pair FeedBlockKind.Url url;
        match block with
        | Some b => mret (Some b)
        | None => find_url_block rest
        end
  end.

Definition find_feed_block (feed_guid : option string) (urls : list string) :
    DB (option FeedBlock) :=
  block ← match feed_guid with
          | Some guid => get_feed_block_by_pair FeedBlockKind.Guid guid
          | None => mret None
          end;
  match block with
  | Some b => mret (Some b)
  | None => find_url_block urls
  end.

(** *** Seeding from the environment (src/blocks.rs) *)

Definition SEEDED_REASON : string := "seeded from environment".

(** [read_csv_env], from the value of the variable. *)
Definition read_csv_env (var : option string) : list string :=
  List.filter (λ v, negb (str_is_empty v))
    (str_trim <$> split_on ","%char (unwrap_or "" var)).

Definition blocks_from_env (guids urls : option string) : list (FeedBlockKind * string) :=
  ((λ v, (FeedBlockKind.Guid, v)) <$> read_csv_env guids)
  ++ ((λ v, (FeedBlockKind.Url, v)) <$> read_csv_env urls).

(** The loop; each turn makes one or two calls of [new_v4], the second one
    only when a row was written. *)
Fixpoint seed_loop (uuids : nat) (entries : list (FeedBlockKind * string))
    (signer : string) (now : Z) (written : Z) : DB Z :=
  match entries with
  | [] => mret written
  | (kind, value) :: rest =>
      let block := FeedBlock.mk (new_v4 uuids) kind (normalize kind value)
                     SEEDED_REASON now in
      inserted ← insert_feed_block block;
      if negb inserted then seed_loop (S uuids) rest signer now written
      else
        let payload := EventPayload.FeedBlocked
          (FeedBlockedPayload.mk (FeedBlock.block_id block) (FeedBlock.kind block)
             (FeedBlock.value block) (FeedBlock.reason block)
             (FeedBlock.blocked_at block)) in
        _ ← insert_event (new_v4 (S uuids)) EventType.FeedBlocked (event_json payload)
              (FeedBlock.block_id block) signer now [];
        seed_loop (S (S uuids)) rest signer now (written + 1)
  end.

Definition seed_blocks (uuids : nat) (entries : list (FeedBlockKind * string))
    (signer : string) (now : Z) : DB Z :=
  transaction (seed_loop uuids entries signer now 0).

(** At most one row per id and per pair of kind and value. *)
Definition blocks_ok (db : Db) : Prop :=
  NoDup (FeedBlock.block_id <$> feed_blocks db)
  ∧ NoDup ((λ b, (FeedBlock.kind b, FeedBlock.value b)) <$> feed_blocks db).
End blocks.
