(* ===== verification/GuidChange.v ===== *)
(** Observed GUID changes of a source URL and the supersession links (src/db.rs,
    ADR 0052), and the URL observations (ADR 0049). *)

From S2P Require Import Prelude.
From S2P Require Import Model.
From S2P Require Import Store.

(** ** [feed_url_observations] *)

Definition get_feed_url_observation (url : string) : DB (option FeedUrlObservation) :=
  query (λ db, feed_url_observations db !! url).

Definition upsert_feed_url_observation (url feed_guid : string) (observed_at : Z) : DB unit :=
  execute (λ db, set_feed_url_observations
    (<[url := FeedUrlObservation.mk url feed_guid observed_at]> (feed_url_observations db)) db).

Definition record_feed_url_observation (url feed_guid : string) (now : Z) :
    DB (option FeedUrlObservation) :=
  row ← get_feed_url_observation url;
  let observation := FeedUrlObservation.mk url feed_guid now in
  match row with
  | None =>
      _ ← upsert_feed_url_observation url feed_guid now;
      mret (Some observation)
  | Some row =>
      if FeedUrlObservation.feed_guid row =s feed_guid then mret None
      else
        _ ← upsert_feed_url_observation url feed_guid now;
        mret (Some observation)
  end.

(** ** [feed_guid_changes] *)

Definition get_guid_change (source_url : string) : DB (option GuidChangeRow) :=
  query (λ db, feed_guid_changes db !! source_url).

Definition upsert_guid_change (source_url old_guid new_guid : string) (first_seen : Z) :
    DB unit :=
  execute (λ db, set_feed_guid_changes (<[source_url :=
    match feed_guid_changes db !! source_url with
    | None => GuidChangeRow.mk source_url old_guid new_guid first_seen None None None None
    | Some r =>
        if GuidChangeRow.new_guid r =s new_guid then
          GuidChangeRow.mk source_url old_guid new_guid (GuidChangeRow.first_seen r)
            (GuidChangeRow.last_seen r) (GuidChangeRow.decision r)
            (GuidChangeRow.decision_reason r) (GuidChangeRow.decided_at r)
        else
          GuidChangeRow.mk source_url old_guid new_guid first_seen
            (GuidChangeRow.last_seen r) None None None
    end]> (feed_guid_changes db)) db).

Definition touch_guid_change_last_seen (source_url : string) (now : Z) : DB unit :=
  execute (λ db, set_feed_guid_changes (alter (λ r,
    GuidChangeRow.mk (GuidChangeRow.source_url r) (GuidChangeRow.old_guid r)
      (GuidChangeRow.new_guid r) (GuidChangeRow.first_seen r) (Some now)
      (GuidChangeRow.decision r) (GuidChangeRow.decision_reason r)
      (GuidChangeRow.decided_at r)) source_url (feed_guid_changes db)) db).

Definition delete_guid_change (source_url : string) : DB unit :=
  execute (λ db, set_feed_guid_changes (delete source_url (feed_guid_changes db)) db).

Definition set_guid_change_decision (source_url decision decision_reason : string)
    (decided_at : Z) : DB unit :=
  execute (λ db, set_feed_guid_changes (alter (λ r,
    GuidChangeRow.mk (GuidChangeRow.source_url r) (GuidChangeRow.old_guid r)
      (GuidChangeRow.new_guid r) (GuidChangeRow.first_seen r) (GuidChangeRow.last_seen r)
      (Some decision) (Some decision_reason) (Some decided_at))
    source_url (feed_guid_changes db)) db).

(** ** [feed_guid_supersessions] *)

Definition insert_guid_supersession (old_guid new_guid source_url : string)
    (superseded_at : Z) : DB unit :=
  execute (λ db,
    match feed_guid_supersessions db !! old_guid with
    | Some _ => db
    | None => set_feed_guid_supersessions (<[old_guid :=
        GuidSupersessionRow.mk old_guid new_guid source_url superseded_at]>
        (feed_guid_supersessions db)) db
    end).

Definition get_guid_supersession (old_guid : string) : DB (option GuidSupersessionRow) :=
  query (λ db, feed_guid_supersessions db !! old_guid).
