(* ===== verification/Copies.v ===== *)
(** Mirror copies of a feed (src/db.rs, src/model.rs, ADR 0058): the summary of
    a body, its digests, the stored row, and what makes a copy open. *)

From S2P Require Import Prelude.
From S2P Require Import Model.
From S2P Require Import Ingest.
From S2P Require Import Event.
From S2P Require Import Crates.
From S2P Require Import Store.
From S2P Require Import RowLists.
From S2P Require Import Catalog.

(** ** Summaries *)

(** [impl From<&IngestPaymentRoute> for RouteRecipient]. *)
Definition recipient_of_ingest_route (route : IngestPaymentRoute) : RouteRecipient :=
  RouteRecipient.mk (IngestPaymentRoute.address route)
    (IngestPaymentRoute.custom_key route) (IngestPaymentRoute.custom_value route)
    (IngestPaymentRoute.split route).

(** [Option::filter] of a text that is not empty. *)
Definition nonempty_text (o : option string) : option string :=
  match o with
  | Some s => if str_is_empty s then None else Some s
  | None => None
  end.

(** [copy_summary]; [BTreeMap::insert] of a repeated GUID keeps the last. *)
Definition copy_summary (feed : IngestFeedData) : CopySummary :=
  let tracks := IngestFeedData.tracks feed in
  CopySummary.mk (IngestFeedData.title feed)
    (IngestTrackData.track_guid <$> tracks)
    (Some ((λ t, nonempty_text (Some (IngestTrackData.title t))) <$> tracks))
    (IngestFeedData.image_url feed)
    (Some ((λ i, CopyRemoteItem.mk (IngestRemoteFeedRef.medium i)
              (IngestRemoteFeedRef.remote_feed_guid i)
              (IngestRemoteFeedRef.remote_feed_url i) (IngestRemoteFeedRef.item_guid i))
           <$> IngestFeedData.remote_items feed))
    (Some (IngestTrackData.duration_secs <$> tracks))
    (Some ((λ t, nonempty_text (IngestTrackData.enclosure_url t)) <$> tracks))
    (Some (IngestTrackData.pub_date <$> tracks))
    (nonempty_text (IngestFeedData.author_name feed))
    (recipient_of_ingest_route <$> IngestFeedData.feed_payment_routes feed)
    (foldl (λ m t, <[IngestTrackData.track_guid t :=
        recipient_of_ingest_route <$> IngestTrackData.payment_routes t]> m) ∅ tracks).

(** The derived [Ord] of [CopyRemoteItem]: the fields in order, [None] first. *)
Definition copy_item_cols (i : CopyRemoteItem) : list SqlVal :=
  [v_opt_text (CopyRemoteItem.medium i); VText (CopyRemoteItem.feed_guid i);
   v_opt_text (CopyRemoteItem.feed_url i); v_opt_text (CopyRemoteItem.item_guid i)].

(** The elements of a [BTreeSet], in order. *)
Definition btree_set (items : list CopyRemoteItem) : list CopyRemoteItem :=
  order_by copy_item_cols (dedupe_by id items).

Section digests.
Context `{Crates}.

Definition summary_digest (summary : CopySummary) : string :=
  sha256 (copy_digest_json (CopySummary.item_guids summary)
    (CopySummary.feed_recipients summary) (CopySummary.track_recipients summary)).

Definition remote_items_digest (summary : CopySummary) : option string :=
  (λ items, sha256 (copy_items_json (btree_set items))) <$> CopySummary.remote_items summary.
End digests.

(** ** Rows *)

Definition MAX_COPIES_PER_GUID : Z := 20.

Definition get_feed_copy (feed_guid url : string) : DB (option FeedCopyRow) :=
  query (λ db, feed_copies db !! (feed_guid, url)).

Definition copies_of (feed_guid : string) (db : Db) : list FeedCopyRow :=
  snd <$> List.filter (λ '((g, _), _), g =s feed_guid) (map_to_list (feed_copies db)).

Definition list_feed_copies (feed_guid : string) : DB (list FeedCopyRow) :=
  query (λ db, sort_by (λ a b, FeedCopyRow.first_seen a <=? FeedCopyRow.first_seen b)
    (copies_of feed_guid db)).

Definition count_feed_copies (feed_guid : string) : DB Z :=
  query (λ db, Z.of_nat (length (copies_of feed_guid db))).

(** [ON CONFLICT] keeps [first_seen], [last_seen] and the resolution. *)
Definition upsert_feed_copy_summary (feed_guid url : string) (first_seen : Z)
    (summary : CopySummary) (digest : string) (remote_items_digest : option string) : DB unit :=
  execute (λ db,
    let old := feed_copies db !! (feed_guid, url) in
    set_feed_copies (<[(feed_guid, url) :=
      FeedCopyRow.mk feed_guid url
        (match old with Some r => FeedCopyRow.first_seen r | None => first_seen end)
        (r ← old; FeedCopyRow.last_seen r)
        (CopySummary.title summary) (CopySummary.item_guids summary)
        (CopySummary.item_titles summary) (CopySummary.image_url summary)
        (CopySummary.remote_items summary) (CopySummary.item_durations summary)
        (CopySummary.item_enclosure_urls summary) (CopySummary.item_pub_dates summary)
        (CopySummary.author summary) (CopySummary.feed_recipients summary)
        (CopySummary.track_recipients summary) digest remote_items_digest
        (r ← old; FeedCopyRow.resolution r) (r ← old; FeedCopyRow.resolution_reason r)
        (r ← old; FeedCopyRow.resolved_at r) (r ← old; FeedCopyRow.resolved_digest r)
        (r ← old; FeedCopyRow.resolved_remote_items_digest r)]> (feed_copies db)) db).

Definition with_copy (feed_guid url : string) (f : FeedCopyRow → FeedCopyRow) : DB unit :=
  execute (λ db, set_feed_copies (alter f (feed_guid, url) (feed_copies db)) db).

Definition touch_feed_copy_last_seen (feed_guid url : string) (now : Z) : DB unit :=
  with_copy feed_guid url (λ r,
    FeedCopyRow.mk (FeedCopyRow.feed_guid r) (FeedCopyRow.url r) (FeedCopyRow.first_seen r)
      (Some now) (FeedCopyRow.title r) (FeedCopyRow.item_guids r) (FeedCopyRow.item_titles r)
      (FeedCopyRow.image_url r) (FeedCopyRow.remote_items r) (FeedCopyRow.item_durations r)
      (FeedCopyRow.item_enclosure_urls r) (FeedCopyRow.item_pub_dates r)
      (FeedCopyRow.author r) (FeedCopyRow.feed_recipients r) (FeedCopyRow.track_recipients r)
      (FeedCopyRow.summary_digest r) (FeedCopyRow.remote_items_digest r)
      (FeedCopyRow.resolution r) (FeedCopyRow.resolution_reason r)
      (FeedCopyRow.resolved_at r) (FeedCopyRow.resolved_digest r)
      (FeedCopyRow.resolved_remote_items_digest r)).

Definition increment_copy_overflow (feed_guid : string) : DB unit :=
  execute (λ db, set_feed_copy_overflow (<[feed_guid :=
    match feed_copy_overflow db !! feed_guid with Some n => n + 1 | None => 1 end]>
    (feed_copy_overflow db)) db).

Definition get_copy_overflow (feed_guid : string) : DB Z :=
  query (λ db, unwrap_or 0 (feed_copy_overflow db !! feed_guid)).

Definition set_feed_copy_resolution (feed_guid url decision reason : string)
    (resolved_at : Z) (resolved_digest : string)
    (resolved_remote_items_digest : option string) : DB unit :=
  with_copy feed_guid url (λ r,
    FeedCopyRow.mk (FeedCopyRow.feed_guid r) (FeedCopyRow.url r) (FeedCopyRow.first_seen r)
      (FeedCopyRow.last_seen r) (FeedCopyRow.title r) (FeedCopyRow.item_guids r)
      (FeedCopyRow.item_titles r) (FeedCopyRow.image_url r) (FeedCopyRow.remote_items r)
      (FeedCopyRow.item_durations r) (FeedCopyRow.item_enclosure_urls r)
      (FeedCopyRow.item_pub_dates r) (FeedCopyRow.author r) (FeedCopyRow.feed_recipients r)
      (FeedCopyRow.track_recipients r) (FeedCopyRow.summary_digest r)
      (FeedCopyRow.remote_items_digest r) (Some decision) (Some reason) (Some resolved_at)
      (Some resolved_digest) resolved_remote_items_digest).

(** ** Comparison with the source record *)

(** [RecipientKey], with its derived [Ord]. *)
Definition recipient_key (r : RouteRecipient) : list SqlVal :=
  [VText (RouteRecipient.address r); v_opt_text (RouteRecipient.custom_key r);
   v_opt_text (RouteRecipient.custom_value r); VInt (RouteRecipient.split r)].

Definition recipient_sets_equal (a b : list RouteRecipient) : bool :=
  if length a != length b then false
  else sort_by cols_le (recipient_key <$> a) == sort_by cols_le (recipient_key <$> b).

Definition copy_resolution_holds (row : FeedCopyRow) : bool :=
  is_some_and (λ digest, digest =s FeedCopyRow.summary_digest row)
    (FeedCopyRow.resolved_digest row)
  && is_none_or (λ digest, Some digest == FeedCopyRow.remote_items_digest row)
       (FeedCopyRow.resolved_remote_items_digest row).

Definition is_open_copy (differs_tracks differs_recipients differs_remote_items : bool)
    (row : FeedCopyRow) : bool :=
  (differs_tracks || differs_recipients || differs_remote_items)
  && negb (copy_resolution_holds row).
