(* ===== verification/Links.v ===== *)
(** The publisher view (src/query.rs, src/db.rs): the links between albums and
    publisher feeds, and what is derived from them. *)

From S2P Require Import Prelude.
From S2P Require Import Model.
From S2P Require Import Crates.
From S2P Require Import Medium.
From S2P Require Import Store.
From S2P Require Import Tables.
From S2P Require Import RowLists.

(** The publisher view (src/query.rs, with the resolver and the two searches
    of src/db.rs): which feed a remote item names, the link between an album
    and a publisher feed seen from either side, the roles that the two sides
    state, and what is derived from the rows of a feed.

    The queries only read, so each is a function of the database. *)

(** [get_feed]. *)
Definition get_feed (db : Db) (feed_guid : string) : option Feed :=
  FeedRow.feed <$> feeds db !! feed_guid.

(** [get_feed_remote_items_for_feed]. *)
Definition remote_items (db : Db) (feed_guid : string) : list FeedRemoteItemRaw :=
  order_by feed_remote_items_raw_order
    (List.filter (λ r, FeedRemoteItemRaw.feed_guid r =s feed_guid) (feed_remote_items_raw db)).

(** ** The resolver (ADR 0049) *)

Module ListedFeedResolution.
Inductive ListedFeedResolution : Type :=
  | Guid (feed_guid : string)
  | FeedUrl (feed_guid : string) (observed_at : Z)
  | Unresolved.
End ListedFeedResolution.
Abbreviation ListedFeedResolution := ListedFeedResolution.ListedFeedResolution.

Definition resolution_feed_guid (r : ListedFeedResolution) : option string :=
  match r with
  | ListedFeedResolution.Guid feed_guid => Some feed_guid
  | ListedFeedResolution.FeedUrl feed_guid _ => Some feed_guid
  | ListedFeedResolution.Unresolved => None
  end.

Definition resolution_kind (r : ListedFeedResolution) : string :=
  match r with
  | ListedFeedResolution.Guid _ => "guid"
  | ListedFeedResolution.FeedUrl _ _ => "feed_url"
  | ListedFeedResolution.Unresolved => "unresolved"
  end.

Definition resolution_observed_at (r : ListedFeedResolution) : option Z :=
  match r with
  | ListedFeedResolution.FeedUrl _ observed_at => Some observed_at
  | _ => None
  end.

(** The [feed_url] column is [UNIQUE]. *)
Definition feed_indexed_by_stored_url (db : Db) (url : string) : option (string * Z) :=
  (λ f, (Feed.feed_guid f, Feed.created_at f)) <$>
    List.find (λ f, Feed.feed_url f =s url) ((FeedRow.feed ∘ snd) <$> map_to_list (feeds db)).

Definition resolve_listed_feed (db : Db) (listed_feed_guid : string)
    (listed_feed_url : option string) : ListedFeedResolution :=
  if feed_exists db listed_feed_guid then ListedFeedResolution.Guid listed_feed_guid
  else
    match listed_feed_url with
    | None => ListedFeedResolution.Unresolved
    | Some url =>
        let stored :=
          match feed_indexed_by_stored_url db url with
          | Some (feed_guid, created_at) => ListedFeedResolution.FeedUrl feed_guid created_at
          | None => ListedFeedResolution.Unresolved
          end in
        match feed_url_observations db !! url with
        | Some observation =>
            if feed_exists db (FeedUrlObservation.feed_guid observation)
            then ListedFeedResolution.FeedUrl (FeedUrlObservation.feed_guid observation)
                   (FeedUrlObservation.observed_at observation)
            else stored
        | None => stored
        end
    end.

(** The resolution of a stored item. *)
Definition resolve_item (db : Db) (item : FeedRemoteItemRaw) : ListedFeedResolution :=
  resolve_listed_feed db (FeedRemoteItemRaw.remote_feed_guid item)
    (FeedRemoteItemRaw.remote_feed_url item).

(** ** Roles *)

(** [BTreeSet<String>], as the sorted list of its elements. *)
Definition string_set (l : list string) : list string :=
  sort_by String.leb (dedupe_by id l).

(** [<[&str]>::join]. *)
Definition join (sep : string) (parts : list string) : string := String.concat sep parts.

Definition contains_char (c : ascii) (s : string) : bool :=
  existsb (Ascii.eqb c) (String.list_ascii_of_string s).

Definition rel_roles (value : string) : list string :=
  if contains_char "," value then
    List.filter (λ role, negb (str_is_empty role))
      ((λ part, to_ascii_lowercase (join " " (split_whitespace part))) <$> split_on "," value)
  else to_ascii_lowercase <$> split_whitespace value.

Definition normalize_rel (value : string) : option string :=
  match string_set (rel_roles value) with
  | [] => None
  | roles => Some (join ", " roles)
  end.

Definition resolve_role (publisher_rel music_rel : option string) : option string * string :=
  match publisher_rel ≫= normalize_rel, music_rel ≫= normalize_rel with
  | Some value, None => (Some value, "publisher_rel"%string)
  | None, Some value => (Some value, "music_rel"%string)
  | Some publisher_value, Some music_value =>
      if publisher_value =s music_value then (Some publisher_value, "publisher_rel"%string)
      else (None, "conflict"%string)
  | None, None => (None, "default"%string)
  end.

Definition role_agreement (publisher_rel music_rel : option string) : option string :=
  match publisher_rel ≫= normalize_rel, music_rel ≫= normalize_rel with
  | Some publisher_value, Some music_value =>
      Some (if publisher_value =s music_value then "both" else "conflict")%string
  | Some _, None | None, Some _ => Some "one_side"%string
  | None, None => None
  end.

(** [str::split] on [", "]. *)
Fixpoint split_comma_space (s : string) : list string :=
  match s with
  | EmptyString => [""%string]
  | String a r =>
      match r with
      | String b r' =>
          if Ascii.eqb a "," && Ascii.eqb b " " then ""%string :: split_comma_space r'
          else match split_comma_space r with
               | p :: ps => String a p :: ps
               | [] => [String a ""]
               end
      | EmptyString => [String a ""]
      end
  end.

Definition rel_tokens (value : string) : list string :=
  match normalize_rel value with
  | Some roles => split_comma_space roles
  | None => []
  end.

(** ** Rows of the view *)

Module PublisherResponse.
Record PublisherResponse : Type := mk {
  direction : string;
  remote_feed_guid : string;
  remote_feed_url : option string;
  remote_feed_medium : option string;
  publisher_feed_guid : string;
  publisher_feed_url : option string;
  music_feed_guid : string;
  music_feed_url : option string;
  music_names_publisher : bool;
  publisher_lists_music : bool;
  publisher_link_resolution : string;
  publisher_link_observed_at : option Z;
  reciprocal_declared : bool;
  reciprocal_medium : option string;
  two_way_validated : bool;
  publisher_rel : option string;
  music_rel : option string;
  role : option string;
  role_source : string;
  role_agreement : option string;
  remote_feed_title : option string;
  remote_feed_image_url : option string;
  remote_release_artist : option string;
  remote_release_artist_source : option string;
  remote_episode_count : option Z;
  album_names_as : option string;
  album_names_rank : option Z
}.
End PublisherResponse.
Abbreviation PublisherResponse := PublisherResponse.PublisherResponse.

Module NamedFeedSummary.
Record NamedFeedSummary : Type := mk {
  title : option string;
  image_url : option string;
  release_artist : option string;
  release_artist_source : option string;
  episode_count : option Z
}.
End NamedFeedSummary.
Abbreviation NamedFeedSummary := NamedFeedSummary.NamedFeedSummary.

Module PublisherLinkFacts.
Record PublisherLinkFacts : Type := mk {
  music_names_publisher : bool;
  publisher_lists_music : bool;
  publisher_link_resolution : string;
  publisher_link_observed_at : option Z;
  reciprocal_medium : option string;
  publisher_feed_guid : string;
  publisher_feed_url : option string;
  music_feed_guid : string;
  music_feed_url : option string;
  matched_item_rel : option string;
  matched_item_source : option string;
  album_names_rank : option Z;
  named_feed_guid : option string
}.
End PublisherLinkFacts.
Abbreviation PublisherLinkFacts := PublisherLinkFacts.PublisherLinkFacts.

(** The remote item of a row, of a feed or of a track. *)
Module PublisherRowItem.
Record PublisherRowItem : Type := mk {
  medium : option string;
  remote_feed_guid : string;
  remote_feed_url : option string;
  rel : option string;
  source : string;
  position : Z
}.
End PublisherRowItem.
Abbreviation PublisherRowItem := PublisherRowItem.PublisherRowItem.

Definition is_album_publisher_link (source : string) : bool := source =s "podcast_publisher".

(** An item with the medium [publisher] that is a publisher link. *)
Definition is_publisher_link (item : FeedRemoteItemRaw) : bool :=
  (FeedRemoteItemRaw.medium item == Some "publisher"%string)
  && is_album_publisher_link (FeedRemoteItemRaw.source item).

Definition is_music_item (item : FeedRemoteItemRaw) : bool :=
  FeedRemoteItemRaw.medium item == Some "music"%string.

Definition album_names_as_value (source : string) : option string :=
  if is_album_publisher_link source then Some "publisher"%string else None.

(** [u32::try_from(index + 1)] fails above [u32::MAX]. *)
Definition album_item_rank (items : list FeedRemoteItemRaw) (matched_position : Z) : option Z :=
  match list_find (λ item, FeedRemoteItemRaw.position item = matched_position)
          (List.filter is_publisher_link items) with
  | Some (index, _) =>
      let rank := Z.of_nat index + 1 in
      if rank <? 2 ^ 32 then Some rank else None
  | None => None
  end.

Definition publisher_direction (medium : option string) : option string :=
  if medium == Some "publisher"%string then Some "music_to_publisher"%string
  else if medium == Some "music"%string then Some "publisher_to_music"%string
  else None.

Section view.
Context `{Web}.

Definition named_feed_summary (db : Db) (feed_guid : option string) : NamedFeedSummary :=
  match feed_guid ≫= get_feed db with
  | Some f =>
      NamedFeedSummary.mk (Some (Feed.title f)) (web_url_or_none (Feed.image_url f))
        (Feed.release_artist f) (Feed.release_artist_source f) (Some (Feed.episode_count f))
  | None => NamedFeedSummary.mk None None None None None
  end.

Definition resolved_or_declared (db : Db) (resolution : ListedFeedResolution)
    (declared_guid : string) (declared_url : option string) : string * option string :=
  match resolution_feed_guid resolution with
  | None => (declared_guid, declared_url)
  | Some feed_guid =>
      (feed_guid,
       match Feed.feed_url <$> get_feed db feed_guid with
       | Some url => Some url
       | None => declared_url
       end)
  end.

(** The first of the items that resolves to [feed_guid]. *)
Definition matching_item (db : Db) (feed_guid : string) (items : list FeedRemoteItemRaw) :
    option FeedRemoteItemRaw :=
  List.find (λ candidate, resolution_feed_guid (resolve_item db candidate) == Some feed_guid) items.

Definition music_to_publisher_facts (db : Db) (current_feed : Feed) (listed_guid : string)
    (listed_url : option string) : PublisherLinkFacts :=
  let publisher_resolution := resolve_listed_feed db listed_guid listed_url in
  let '(publisher_feed_guid, publisher_feed_url) :=
    resolved_or_declared db publisher_resolution listed_guid listed_url in
  let matched :=
    publisher_guid ← resolution_feed_guid publisher_resolution;
    matching_item db (Feed.feed_guid current_feed)
      (List.filter is_music_item (remote_items db publisher_guid)) in
  PublisherLinkFacts.mk true (is_some matched)
    (match matched with Some c => resolution_kind (resolve_item db c) | None => "unresolved" end)
    (c ← matched; resolution_observed_at (resolve_item db c))
    (c ← matched; FeedRemoteItemRaw.medium c)
    publisher_feed_guid publisher_feed_url
    (Feed.feed_guid current_feed) (Some (Feed.feed_url current_feed))
    (c ← matched; FeedRemoteItemRaw.rel c) None None
    (resolution_feed_guid publisher_resolution).

Definition publisher_to_music_facts (db : Db) (current_feed : Feed) (listed_guid : string)
    (listed_url : option string) : PublisherLinkFacts :=
  let music_resolution := resolve_listed_feed db listed_guid listed_url in
  let '(music_feed_guid, music_feed_url) :=
    resolved_or_declared db music_resolution listed_guid listed_url in
  let album_items :=
    match resolution_feed_guid music_resolution with
    | Some album_guid => remote_items db album_guid
    | None => []
    end in
  let matched :=
    matching_item db (Feed.feed_guid current_feed) (List.filter is_publisher_link album_items) in
  PublisherLinkFacts.mk (is_some matched) true (resolution_kind music_resolution)
    (resolution_observed_at music_resolution)
    (c ← matched; FeedRemoteItemRaw.medium c)
    (Feed.feed_guid current_feed) (Some (Feed.feed_url current_feed))
    music_feed_guid music_feed_url
    (c ← matched; FeedRemoteItemRaw.rel c)
    (FeedRemoteItemRaw.source <$> matched)
    (c ← matched; album_item_rank album_items (FeedRemoteItemRaw.position c))
    (resolution_feed_guid music_resolution).

Definition build_publisher_row (db : Db) (current_feed : Feed)
    (current_feed_remote_items : list FeedRemoteItemRaw) (item : PublisherRowItem) :
    option PublisherResponse :=
  direction ← publisher_direction (PublisherRowItem.medium item);
  let to_publisher := direction =s "music_to_publisher" in
  let remote_feed_guid := PublisherRowItem.remote_feed_guid item in
  let remote_feed_url := PublisherRowItem.remote_feed_url item in
  let facts :=
    (if to_publisher then music_to_publisher_facts else publisher_to_music_facts)
      db current_feed remote_feed_guid remote_feed_url in
  let reciprocal_declared := PublisherLinkFacts.music_names_publisher facts
                             && PublisherLinkFacts.publisher_lists_music facts in
  let own_rel := PublisherRowItem.rel item in
  let matched_rel := PublisherLinkFacts.matched_item_rel facts in
  let '(publisher_rel, music_rel) :=
    if to_publisher then (matched_rel, own_rel) else (own_rel, matched_rel) in
  let '(role, role_source) := resolve_role publisher_rel music_rel in
  let summary := named_feed_summary db (PublisherLinkFacts.named_feed_guid facts) in
  Some (PublisherResponse.mk direction remote_feed_guid (web_url_or_none remote_feed_url)
    (f ← get_feed db remote_feed_guid; Feed.raw_medium f)
    (PublisherLinkFacts.publisher_feed_guid facts)
    (web_url_or_none (PublisherLinkFacts.publisher_feed_url facts))
    (PublisherLinkFacts.music_feed_guid facts)
    (web_url_or_none (PublisherLinkFacts.music_feed_url facts))
    (PublisherLinkFacts.music_names_publisher facts)
    (PublisherLinkFacts.publisher_lists_music facts)
    (PublisherLinkFacts.publisher_link_resolution facts)
    (PublisherLinkFacts.publisher_link_observed_at facts)
    reciprocal_declared (PublisherLinkFacts.reciprocal_medium facts) reciprocal_declared
    publisher_rel music_rel role role_source (role_agreement publisher_rel music_rel)
    (NamedFeedSummary.title summary) (NamedFeedSummary.image_url summary)
    (NamedFeedSummary.release_artist summary) (NamedFeedSummary.release_artist_source summary)
    (NamedFeedSummary.episode_count summary)
    (if to_publisher then album_names_as_value (PublisherRowItem.source item)
     else PublisherLinkFacts.matched_item_source facts ≫= album_names_as_value)
    (if to_publisher
     then album_item_rank current_feed_remote_items (PublisherRowItem.position item)
     else PublisherLinkFacts.album_names_rank facts)).

Definition row_item (item : FeedRemoteItemRaw) : PublisherRowItem :=
  PublisherRowItem.mk (FeedRemoteItemRaw.medium item) (FeedRemoteItemRaw.remote_feed_guid item)
    (FeedRemoteItemRaw.remote_feed_url item) (FeedRemoteItemRaw.rel item)
    (FeedRemoteItemRaw.source item) (FeedRemoteItemRaw.position item).

(** A bare item with the medium [publisher] is a raw fact, not a link. *)
Definition is_bare_publisher (item : FeedRemoteItemRaw) : bool :=
  (FeedRemoteItemRaw.medium item == Some "publisher"%string)
  && negb (is_album_publisher_link (FeedRemoteItemRaw.source item)).

Definition load_publisher (db : Db) (feed_guid : string) : list PublisherResponse :=
  match get_feed db feed_guid with
  | None => []
  | Some current_feed =>
      let items := remote_items db feed_guid in
      omap (λ item, build_publisher_row db current_feed items (row_item item))
        (List.filter (λ item, negb (is_bare_publisher item)) items)
  end.
End view.

(** What is derived from the publisher view (src/query.rs, src/db.rs): the
    confirmed links of a feed and their facts, the artists of a publisher
    feed, the named feeds of a release, the level of a release, the two
    searches for the feeds that name a feed, and the link statistics. *)

(** [sort_key] (src/model.rs). *)
Definition sort_key `{Crates} (text : string) : string :=
  to_lowercase (join " " (split_whitespace text)).

Definition is_confirmed_link (row : PublisherResponse) : bool :=
  PublisherResponse.two_way_validated row
  && (PublisherResponse.role_agreement row != Some "conflict"%string).

Definition is_to_publisher (row : PublisherResponse) : bool :=
  PublisherResponse.direction row =s "music_to_publisher".

Definition is_to_music (row : PublisherResponse) : bool :=
  PublisherResponse.direction row =s "publisher_to_music".

Definition is_name_level_release (rows : list PublisherResponse) : bool :=
  forallb (λ row,
      (PublisherResponse.role_agreement row == Some "both"%string)
      && forallb (λ token, token ≠s "artist")
           (match PublisherResponse.role row with Some role => rel_tokens role | None => [] end))
    (List.filter (λ row, is_to_publisher row
                         && is_some (PublisherResponse.remote_feed_title row)) rows).

(** The variables of the loop of [confirmed_and_unconfirmed_release_artists];
    the two [HashSet]s are lists. *)
Module ArtistLists.
Record ArtistLists : Type := mk {
  confirmed_seen : list string;
  confirmed : list string;
  unconfirmed_seen : list string;
  unconfirmed : list string
}.
End ArtistLists.
Abbreviation ArtistLists := ArtistLists.ArtistLists.

Module LinkFacts.
Record LinkFacts : Type := mk {
  two_way_link_count : Z;
  stated_rels : list string;
  agreed_roles : list string;
  confirmed_release_artists : list string;
  first_named_count : Z
}.
End LinkFacts.
Abbreviation LinkFacts := LinkFacts.LinkFacts.

Module NamedFeedEntry.
Record NamedFeedEntry : Type := mk {
  publisher_feed_guid : string;
  remote_feed_title : option string;
  album_names_rank : option Z;
  role : option string;
  role_agreement : option string;
  two_way_validated : bool
}.
End NamedFeedEntry.
Abbreviation NamedFeedEntry := NamedFeedEntry.NamedFeedEntry.

Module CoCreditedFeedResponse.
Record CoCreditedFeedResponse : Type := mk {
  feed_guid : string;
  title : option string;
  roles : list string;
  album_count : Z
}.
End CoCreditedFeedResponse.
Abbreviation CoCreditedFeedResponse := CoCreditedFeedResponse.CoCreditedFeedResponse.

Module PublisherLinkStats.
Record PublisherLinkStats : Type := mk {
  listed_links : Z;
  resolved_by_guid : Z;
  resolved_by_feed_url : Z;
  unresolved : Z
}.
End PublisherLinkStats.
Abbreviation PublisherLinkStats := PublisherLinkStats.PublisherLinkStats.

(** [i64::try_from(len).unwrap_or(i64::MAX)]. *)
Definition i64_len {A} (l : list A) : Z := Z.min (Z.of_nat (length l)) i64_max.

Section facts.
Context `{Crates} `{Web}.

(** ** Release artists (ADR 0061) *)

Definition artist_step (s : ArtistLists) (row : PublisherResponse) : ArtistLists :=
  if (PublisherResponse.direction row ≠s "publisher_to_music")
     || (PublisherResponse.publisher_link_resolution row =s "unresolved") then s
  else if PublisherResponse.remote_release_artist_source row == Some "placeholder"%string then s
  else
    match PublisherResponse.remote_release_artist row with
    | None => s
    | Some artist =>
        let normalized := sort_key artist in
        if is_confirmed_link row then
          if bool_decide (normalized ∈ ArtistLists.confirmed_seen s) then s
          else ArtistLists.mk (normalized :: ArtistLists.confirmed_seen s)
                 (ArtistLists.confirmed s ++ [artist])
                 (ArtistLists.unconfirmed_seen s) (ArtistLists.unconfirmed s)
        else if bool_decide (normalized ∈ ArtistLists.unconfirmed_seen s) then s
        else ArtistLists.mk (ArtistLists.confirmed_seen s) (ArtistLists.confirmed s)
               (normalized :: ArtistLists.unconfirmed_seen s)
               (ArtistLists.unconfirmed s ++ [artist])
    end.

Definition confirmed_and_unconfirmed_release_artists (rows : list PublisherResponse) :
    list string * list string :=
  let s := foldl artist_step (ArtistLists.mk [] [] [] []) rows in
  (ArtistLists.confirmed s,
   List.filter (λ artist, negb (bool_decide (sort_key artist ∈ ArtistLists.confirmed_seen s)))
     (ArtistLists.unconfirmed s)).

(** ** Link facts (ADR 0068) *)

Definition link_facts (rows : list PublisherResponse) : LinkFacts :=
  let confirmed := List.filter (λ row,
    (PublisherResponse.direction row =s "publisher_to_music") && is_confirmed_link row) rows in
  let tokens := flat_map (λ row,
    match PublisherResponse.publisher_rel row with Some rel => rel_tokens rel | None => [] end) in
  LinkFacts.mk (i64_len confirmed)
    (string_set (tokens confirmed))
    (string_set (tokens (List.filter
       (λ row, PublisherResponse.role_agreement row == Some "both"%string) confirmed)))
    (confirmed_and_unconfirmed_release_artists rows).1
    (i64_len (List.filter (λ row, PublisherResponse.album_names_rank row == Some 1) confirmed)).

(** ** Named feeds (ADR 0071) *)

(** [NamedFeedEntry::from_rows]: sorted by rank, no rank last; stable. *)
Definition rank_le (a b : NamedFeedEntry) : bool :=
  match NamedFeedEntry.album_names_rank a, NamedFeedEntry.album_names_rank b with
  | Some x, Some y => x <=? y
  | Some _, None => true
  | None, Some _ => false
  | None, None => true
  end.

Definition named_feed_entries (rows : list PublisherResponse) : list NamedFeedEntry :=
  sort_by rank_le
    ((λ row, NamedFeedEntry.mk (PublisherResponse.publisher_feed_guid row)
        (PublisherResponse.remote_feed_title row) (PublisherResponse.album_names_rank row)
        (PublisherResponse.role row) (PublisherResponse.role_agreement row)
        (PublisherResponse.two_way_validated row))
     <$> List.filter (λ row, PublisherResponse.direction row =s "music_to_publisher") rows).

(** [resolve_publisher_feed]: the GUID and the title. *)
Definition resolve_publisher_feed (db : Db) (feed_guid : string) : option (string * string) :=
  item ← List.find is_publisher_link (remote_items db feed_guid);
  resolved_guid ← resolution_feed_guid (resolve_item db item);
  feed ← get_feed db resolved_guid;
  Some (Feed.feed_guid feed, Feed.title feed).

(** ** Co-credited feeds (ADR 0069) *)

(** The confirmed rows of the confirmed albums, with the album of each. *)
Definition co_credit_rows (db : Db) (publisher_guid : string) (rows : list PublisherResponse) :
    list (string * PublisherResponse) :=
  flat_map (λ row,
      (λ album_row, (PublisherResponse.music_feed_guid row, album_row)) <$>
        List.filter (λ album_row,
            (PublisherResponse.direction album_row =s "music_to_publisher")
            && is_confirmed_link album_row
            && (PublisherResponse.publisher_feed_guid album_row ≠s publisher_guid))
          (load_publisher db (PublisherResponse.music_feed_guid row)))
    (List.filter (λ row,
       (PublisherResponse.direction row =s "publisher_to_music") && is_confirmed_link row) rows).

(** The entry of one feed: the title of its first row, the roles, the albums. *)
Definition co_credit_entry (credits : list (string * PublisherResponse)) (feed_guid : string) :
    CoCreditedFeedResponse :=
  let own := List.filter (λ '(_, r), PublisherResponse.publisher_feed_guid r =s feed_guid)
               credits in
  CoCreditedFeedResponse.mk feed_guid
    ('(_, r) ← head own; PublisherResponse.remote_feed_title r)
    (string_set (List.filter (λ rel, negb (str_is_empty rel))
       (omap (λ '(_, r), str_trim <$> PublisherResponse.music_rel r) own)))
    (i64_len (string_set (fst <$> own))).

Definition co_credited_feeds (db : Db) (publisher_guid : string)
    (rows : list PublisherResponse) : list CoCreditedFeedResponse :=
  let credits := co_credit_rows db publisher_guid rows in
  let entries := co_credit_entry credits <$>
    string_set ((PublisherResponse.publisher_feed_guid ∘ snd) <$> credits) in
  sort_by (λ a b,
      if CoCreditedFeedResponse.album_count a =? CoCreditedFeedResponse.album_count b
      then String.leb (CoCreditedFeedResponse.feed_guid a) (CoCreditedFeedResponse.feed_guid b)
      else CoCreditedFeedResponse.album_count b <? CoCreditedFeedResponse.album_count a)
    entries.

(** ** The searches (ADR 0049, ADR 0076) *)

(** The rows of the two queries: publisher links, by the declared GUID and by
    the declared URL. *)
Definition links_by_guid (db : Db) (guid : string) : list FeedRemoteItemRaw :=
  List.filter (λ r, is_publisher_link r && (FeedRemoteItemRaw.remote_feed_guid r =s guid))
    (feed_remote_items_raw db).

Definition links_by_url (db : Db) (url : string) : list FeedRemoteItemRaw :=
  List.filter (λ r, is_publisher_link r && (FeedRemoteItemRaw.remote_feed_url r == Some url))
    (feed_remote_items_raw db).

(** The URLs that are observed for a GUID. *)
Definition observed_urls (db : Db) (guid : string) : list string :=
  fst <$> List.filter (λ '(_, o), FeedUrlObservation.feed_guid o =s guid)
            (map_to_list (feed_url_observations db)).

Definition names_feed (db : Db) (guid : string) (r : FeedRemoteItemRaw) : bool :=
  resolution_feed_guid (resolve_item db r) == Some guid.

(** The [HashSet] is a list with no repetition; its order is not defined. *)
Definition get_feeds_naming_feed (db : Db) (named_feed_guid : string) : list string :=
  let by_guid := List.filter (λ r,
      is_none_or (λ resolved, resolved =s named_feed_guid)
        (resolution_feed_guid (resolve_item db r)))
    (links_by_guid db named_feed_guid) in
  let by_url :=
    match get_feed db named_feed_guid with
    | None => []
    | Some feed =>
        flat_map (λ url, List.filter (names_feed db named_feed_guid) (links_by_url db url))
          (dedupe_by id (observed_urls db named_feed_guid ++ [Feed.feed_url feed]))
    end in
  dedupe_by id (FeedRemoteItemRaw.feed_guid <$> by_guid ++ by_url).

Definition get_publisher_album_release_artists (db : Db) (publisher_feed_guid : string) :
    list (string * string) :=
  let urls := observed_urls db publisher_feed_guid
    ++ match get_feed db publisher_feed_guid with
       | Some publisher_feed => [Feed.feed_url publisher_feed]
       | None => []
       end in
  let candidates :=
    List.filter (names_feed db publisher_feed_guid) (links_by_guid db publisher_feed_guid)
    ++ flat_map (λ url, List.filter (names_feed db publisher_feed_guid) (links_by_url db url))
         (dedupe_by id urls) in
  omap (λ feed_guid,
      feed ← get_feed db feed_guid;
      if Feed.release_artist_source feed == Some "itunes_author"%string
      then (λ artist, (Feed.feed_guid feed, artist)) <$> Feed.release_artist feed
      else None)
    (dedupe_by id (FeedRemoteItemRaw.feed_guid <$> candidates)).

(** [publisher_artist_count]: of the albums of one key, the one with the
    lowest GUID gives the text; the texts are sorted by key. *)
Definition publisher_artist_count (db : Db) (feed_guid : string) : Z * list string :=
  let albums := sort_by (λ a b, String.leb a.1 b.1)
                  (get_publisher_album_release_artists db feed_guid) in
  let by_normalized := sort_by (λ a b, String.leb a.1 b.1)
    (dedupe_by fst ((λ '(_, artist), (sort_key artist, artist)) <$> albums)) in
  (i64_len by_normalized, snd <$> by_normalized).

(** ** Statistics (ADR 0049) *)

Definition listed_links (db : Db) : list FeedRemoteItemRaw :=
  List.filter (λ r, is_music_item r
      && is_some_and (λ f, is_some_and (λ m, to_ascii_lowercase m =s "publisher")
                             (Feed.raw_medium f)) (get_feed db (FeedRemoteItemRaw.feed_guid r)))
    (feed_remote_items_raw db).

Definition get_publisher_link_stats (db : Db) : PublisherLinkStats :=
  let count kind := Z.of_nat (length (List.filter
    (λ r, resolution_kind (resolve_item db r) =s kind) (listed_links db))) in
  let resolved_by_guid := count "guid"%string in
  let resolved_by_feed_url := count "feed_url"%string in
  let unresolved := count "unresolved"%string in
  PublisherLinkStats.mk (resolved_by_guid + resolved_by_feed_url + unresolved)
    resolved_by_guid resolved_by_feed_url unresolved.
End facts.
