(* ===== verification/Observe.v ===== *)
(** The small transactions around an ingest (src/api.rs, src/db.rs): URL
    observations, copies, pending GUID changes and their transition, the
    retirement of a feed with its event, gone answers, holds, the crawl cache,
    and the relocation by an operator. Each signs the events it makes. *)

From S2P Require Import Prelude.
From S2P Require Import Model.
From S2P Require Import Ingest.
From S2P Require Import Event.
From S2P Require Import Crates.
From S2P Require Import Store.
From S2P Require Import Tables.
From S2P Require Import Catalog.
From S2P Require Import Feeds.
From S2P Require Import EventLog.
From S2P Require Import Diff.
From S2P Require Import Moves.
From S2P Require Import Blocks.
From S2P Require Import GuidChange.
From S2P Require Import Copies.

(** ** Signed rows *)

Module SignedEventRow.
Record SignedEventRow : Type := mk {
  row : EventRow;
  seq : Z;
  signed_by : string;
  signature : string
}.
End SignedEventRow.
Abbreviation SignedEventRow := SignedEventRow.SignedEventRow.

Section observe.
Context `{Crates}.
Context (signer : string).

Definition sign_event_row (row : EventRow) : DB SignedEventRow :=
  signed ← insert_event (EventRow.event_id row) (EventRow.event_type row)
             (EventRow.payload_json row) (EventRow.subject_guid row) signer
             (EventRow.created_at row) (EventRow.warnings row);
  let '(seq, signed_by, signature) := signed in
  mret (SignedEventRow.mk row seq signed_by signature).

Definition signed_row_to_event (signed : SignedEventRow) : result DbError Event :=
  let row := SignedEventRow.row signed in
  match parse_event (EventRow.event_type row) (EventRow.payload_json row) with
  | None => Err Json
  | Some payload =>
      Ok (Event.mk (EventRow.event_id row) (EventRow.event_type row) payload
            (EventRow.subject_guid row) (SignedEventRow.signed_by signed)
            (SignedEventRow.signature signed) (SignedEventRow.seq signed)
            (EventRow.created_at row) (EventRow.warnings row) (EventRow.payload_json row))
  end.

(** [map(signed_row_to_event).collect()?] *)
Definition signed_rows_to_events (rows : list SignedEventRow) : DB (list Event) := λ db,
  (db, collect_results signed_row_to_event rows).

Definition signed_ids (rows : list SignedEventRow) : list string :=
  (EventRow.event_id ∘ SignedEventRow.row) <$> rows.

(** An event row of a payload, with the id it draws. *)
Definition payload_row (payload : EventPayload) (subject_guid : string) (created_at : Z)
    (event_id : string) : EventRow :=
  EventRow.mk event_id (payload_type payload) (event_json payload) subject_guid created_at [].

(** ** URL observations (ADR 0049) *)

Definition feed_url_observed_event_row (observation : FeedUrlObservation) :
    string → EventRow :=
  payload_row
    (EventPayload.FeedUrlObserved
       (FeedUrlObservedPayload.mk (FeedUrlObservation.url observation)
          (FeedUrlObservation.feed_guid observation)
          (FeedUrlObservation.observed_at observation)))
    (FeedUrlObservation.feed_guid observation) (FeedUrlObservation.observed_at observation).

Fixpoint observe_urls (uuids : nat) (urls : list string) (feed_guid : string) (now : Z) :
    DB (list SignedEventRow) :=
  match urls with
  | [] => mret []
  | url :: rest =>
      observed ← record_feed_url_observation url feed_guid now;
      match observed with
      | Some observation =>
          signed ← sign_event_row (feed_url_observed_event_row observation (new_v4 uuids));
          more ← observe_urls (S uuids) rest feed_guid now;
          mret (signed :: more)
      | None => observe_urls uuids rest feed_guid now
      end
  end.

Definition record_feed_url_observations_for_ingest (uuids : nat)
    (canonical_url source_url feed_guid : string) (now : Z) : DB (list SignedEventRow) :=
  let urls := canonical_url :: (if source_url ≠s canonical_url then [source_url] else []) in
  transaction (observe_urls uuids urls feed_guid now).

(** ** Copies (ADR 0058) *)

Definition feed_copy_observed_event_row (feed_guid url : string) (first_seen : Z)
    (summary : CopySummary) (digest : string) (now : Z) : string → EventRow :=
  payload_row
    (EventPayload.FeedCopyObserved
       (FeedCopyObservedPayload.mk feed_guid url first_seen (CopySummary.title summary)
          (CopySummary.item_guids summary) (CopySummary.item_titles summary)
          (CopySummary.image_url summary) (CopySummary.remote_items summary)
          (CopySummary.item_durations summary) (CopySummary.item_enclosure_urls summary)
          (CopySummary.item_pub_dates summary) (CopySummary.author summary)
          (CopySummary.feed_recipients summary) (CopySummary.track_recipients summary)
          digest))
    feed_guid now.

(** Whether the stored row differs from the summary. *)
Definition copy_changed (summary : CopySummary) (digest : string)
    (remote_items_digest : option string) (row : FeedCopyRow) : bool :=
  (digest ≠s FeedCopyRow.summary_digest row)
  || (CopySummary.title summary ≠s FeedCopyRow.title row)
  || (CopySummary.item_titles summary != FeedCopyRow.item_titles row)
  || (CopySummary.image_url summary != FeedCopyRow.image_url row)
  || (remote_items_digest != FeedCopyRow.remote_items_digest row)
  || (CopySummary.item_durations summary != FeedCopyRow.item_durations row)
  || (CopySummary.item_enclosure_urls summary != FeedCopyRow.item_enclosure_urls row)
  || (CopySummary.item_pub_dates summary != FeedCopyRow.item_pub_dates row)
  || (CopySummary.author summary != FeedCopyRow.author row).

Definition record_feed_copy_for_ingest (uuids : nat) (feed_guid url : string)
    (feed_data : IngestFeedData) (now : Z) : DB (list SignedEventRow) :=
  let summary := copy_summary feed_data in
  let digest := summary_digest summary in
  let items_digest := remote_items_digest summary in
  transaction (
    existing ← get_feed_copy feed_guid url;
    match existing with
    | Some row =>
        _ ← touch_feed_copy_last_seen feed_guid url now;
        if copy_changed summary digest items_digest row then
          _ ← upsert_feed_copy_summary feed_guid url (FeedCopyRow.first_seen row) summary
                digest items_digest;
          signed ← sign_event_row
            (feed_copy_observed_event_row feed_guid url (FeedCopyRow.first_seen row) summary
               digest now (new_v4 uuids));
          mret [signed]
        else mret []
    | None =>
        count ← count_feed_copies feed_guid;
        if MAX_COPIES_PER_GUID <=? count then
          _ ← increment_copy_overflow feed_guid;
          mret []
        else
          _ ← upsert_feed_copy_summary feed_guid url now summary digest items_digest;
          _ ← touch_feed_copy_last_seen feed_guid url now;
          signed ← sign_event_row
            (feed_copy_observed_event_row feed_guid url now summary digest now (new_v4 uuids));
          mret [signed]
    end).

(** ** Pending GUID changes (ADR 0052) *)

Definition guid_change_observed_event_row (source_url old_guid new_guid : string)
    (first_seen now : Z) : string → EventRow :=
  payload_row
    (EventPayload.FeedGuidChangeObserved
       (FeedGuidChangeObservedPayload.mk source_url old_guid new_guid first_seen))
    old_guid now.

(** [GuidChangePendingOutcome]: [None] is [Rejected]. *)
Definition record_guid_change_pending_for_ingest (uuids : nat)
    (source_url old_guid new_guid : string) (now : Z) : DB (option (list SignedEventRow)) :=
  existing ← get_guid_change source_url;
  if is_some_and (λ row, (GuidChangeRow.new_guid row =s new_guid)
       && (GuidChangeRow.decision row == Some "reject"%string)) existing
  then mret None
  else
    let is_new_or_changed :=
      is_none_or (λ row, GuidChangeRow.new_guid row ≠s new_guid) existing in
    let first_seen :=
      if is_new_or_changed then now
      else match existing with Some row => GuidChangeRow.first_seen row | None => now end in
    transaction (
      _ ← upsert_guid_change source_url old_guid new_guid first_seen;
      _ ← touch_guid_change_last_seen source_url now;
      if is_new_or_changed then
        signed ← sign_event_row
          (guid_change_observed_event_row source_url old_guid new_guid first_seen now
             (new_v4 uuids));
        mret (Some [signed])
      else mret (Some [])).

Definition record_guid_change_return_for_ingest (uuids : nat) (source_url guid : string)
    (now : Z) : DB (list SignedEventRow) :=
  existing ← get_guid_change source_url;
  match existing with
  | None => mret []
  | Some _ =>
      transaction (
        _ ← delete_guid_change source_url;
        delete_marker ← sign_event_row
          (guid_change_observed_event_row source_url guid guid now now (new_v4 uuids));
        mret [delete_marker])
  end.

Definition feed_retired_event_row (feed_guid reason : string) (now : Z) : string → EventRow :=
  payload_row (EventPayload.FeedRetired (FeedRetiredPayload.mk feed_guid (Some reason)))
    feed_guid now.

Definition feed_guid_superseded_event_row (old_guid new_guid source_url : string) (now : Z) :
    string → EventRow :=
  payload_row
    (EventPayload.FeedGuidSuperseded (FeedGuidSupersededPayload.mk old_guid new_guid source_url))
    old_guid now.

Definition guid_change_transition (uuids : nat) (old_guid new_guid source_url : string)
    (now : Z) : DB (list SignedEventRow) :=
  transaction (
    _ ← delete_feed_sql old_guid;
    retired ← sign_event_row
      (feed_retired_event_row old_guid "guid_superseded" now (new_v4 uuids));
    _ ← insert_guid_supersession old_guid new_guid source_url now;
    superseded ← sign_event_row
      (feed_guid_superseded_event_row old_guid new_guid source_url now (new_v4 (S uuids)));
    pending ← get_guid_change source_url;
    match pending with
    | Some _ =>
        _ ← delete_guid_change source_url;
        marker ← sign_event_row
          (guid_change_observed_event_row source_url old_guid old_guid now now
             (new_v4 (S (S uuids))));
        mret [retired; superseded; marker]
    | None => mret [retired; superseded]
    end).

(** ** Retirement with its event (ADR 0053, 0057, 0067, 0079) *)

(** [from_str::<FeedRetiredPayload>], and the same of the tagged text. *)
Definition parse_retired (payload_json : string) : option FeedRetiredPayload :=
  match parse_event EventType.FeedRetired payload_json with
  | Some (EventPayload.FeedRetired p) => Some p
  | _ => None
  end.

Definition write_hold (feed_guid source_url payload_json : string) (created_at : Z) : DB unit :=
  match parse_retired payload_json with
  | None => throw Json
  | Some p =>
      execute (λ db, set_retired_source_holds
        (<[to_lowercase feed_guid :=
           RetiredSourceHold.mk (to_lowercase feed_guid) source_url
             (unwrap_or "" (FeedRetiredPayload.reason p)) created_at None]>
           (retired_source_holds db)) db)
  end.

Fixpoint block_events (uuids : nat) (blocks : list FeedBlock) (created_at : Z) :
    DB (list Event) :=
  match blocks with
  | [] => mret []
  | block :: rest =>
      inserted ← insert_feed_block block;
      if negb inserted then block_events uuids rest created_at
      else
        let payload := EventPayload.FeedBlocked
          (FeedBlockedPayload.mk (FeedBlock.block_id block) (FeedBlock.kind block)
             (FeedBlock.value block) (FeedBlock.reason block) (FeedBlock.blocked_at block)) in
        signed ← sign_event_row
          (payload_row payload (FeedBlock.block_id block) created_at (new_v4 uuids));
        ev ← signed_rows_to_events [signed];
        more ← block_events (S uuids) rest created_at;
        mret (ev ++ more)
  end.

Definition delete_feed_with_event (uuids : nat) (feed_guid event_id payload_json subject_guid : string)
    (created_at : Z) (warnings : list string) (blocks : list FeedBlock) : DB (list Event) :=
  transaction (
    hold_source_url ← (match blocks with
      | [] => query (λ db, (Feed.feed_url ∘ FeedRow.feed) <$> feeds db !! feed_guid)
      | _ => mret None
      end);
    _ ← delete_feed_sql feed_guid;
    _ ← match hold_source_url with
        | Some source_url => write_hold feed_guid source_url payload_json created_at
        | None => mret tt
        end;
    signed ← sign_event_row
      (EventRow.mk event_id EventType.FeedRetired payload_json subject_guid created_at warnings);
    retired ← signed_rows_to_events [signed];
    blocked ← block_events uuids blocks created_at;
    mret (retired ++ blocked)).

(** ** Gone answers (ADR 0067) *)

Definition feed_guid_for_source_url (source_url : string) : DB (option string) :=
  query (λ db, Feed.feed_guid <$>
    List.find (λ f, Feed.feed_url f =s source_url) (all_feeds db)).

Definition get_source_gone_answer (feed_guid : string) : DB (option SourceGoneAnswer) :=
  query (λ db, source_gone_answers db !! feed_guid).

Definition record_source_gone_answer (feed_guid source_url : string) (now status : Z) : DB unit :=
  λ db,
    if negb (feed_exists db feed_guid) && negb (is_some (source_gone_answers db !! feed_guid))
    then (db, Err (Rusqlite ForeignKey))
    else (set_source_gone_answers
            (<[feed_guid :=
               match source_gone_answers db !! feed_guid with
               | None => SourceGoneAnswer.mk feed_guid source_url now now status
               | Some r => SourceGoneAnswer.mk (SourceGoneAnswer.feed_guid r)
                             (SourceGoneAnswer.source_url r)
                             (SourceGoneAnswer.first_gone_at r) now status
               end]> (source_gone_answers db)) db, Ok tt).

(** ** Holds (ADR 0079) *)

Definition get_retired_source_hold (feed_guid : string) : DB (option RetiredSourceHold) :=
  query (λ db, retired_source_holds db !! to_lowercase feed_guid).

(** SQLite's [lower] folds ASCII only. *)
Definition release_retired_source_hold (feed_guid : string) (released_at : Z) : DB bool := λ db,
  let key := to_ascii_lowercase feed_guid in
  match retired_source_holds db !! key with
  | Some h =>
      match RetiredSourceHold.released_at h with
      | None =>
          (set_retired_source_holds
             (<[key := RetiredSourceHold.mk (RetiredSourceHold.feed_guid h)
                  (RetiredSourceHold.source_url h) (RetiredSourceHold.reason h)
                  (RetiredSourceHold.retired_at h) (Some released_at)]>
                (retired_source_holds db)) db, Ok true)
      | Some _ => (db, Ok false)
      end
  | None => (db, Ok false)
  end.

(** ** The crawl cache *)

Definition upsert_feed_crawl_cache (feed_url content_hash : string) (crawled_at : Z) : DB unit :=
  execute (λ db, set_feed_crawl_cache
    (<[feed_url := (content_hash, crawled_at)]> (feed_crawl_cache db)) db).

(** ** Relocation by an operator (ADR 0058) *)

Definition set_source_url (feed_guid new_url : string) : DB unit :=
  update_feed_row feed_guid (λ row,
    let f := FeedRow.feed row in
    FeedRow.mk
      (Feed.mk (Feed.feed_guid f) new_url (Feed.title f) (Feed.title_lower f)
         (Feed.description f) (Feed.image_url f) (Feed.publisher f) (Feed.language f)
         (Feed.explicit f) (Feed.itunes_type f) (Feed.release_artist f)
         (Feed.release_artist_sort f) (Feed.release_date f) (Feed.release_kind f)
         (Feed.episode_count f) (Feed.newest_item_at f) (Feed.oldest_item_at f)
         (Feed.created_at f) (Feed.updated_at f) (Feed.raw_medium f) None
         (Feed.release_artist_source f))
      (FeedRow.declared_self_url row) (FeedRow.declared_new_feed_url row)
      (FeedRow.podcast_locked row) (FeedRow.locked_owner row)).

(** [RelocateOutcome]: [None] is [Conflict]. *)
Definition relocate_feed (uuids : nat) (feed_guid new_url reason : string) (now : Z) :
    DB (option SignedEventRow) :=
  conflict ← query (λ db, existsb (λ f,
    (Feed.feed_url f =s new_url) && (Feed.feed_guid f ≠s feed_guid)) (all_feeds db));
  if conflict : bool then mret None
  else
    old_url ← query (λ db, (Feed.feed_url ∘ FeedRow.feed) <$> feeds db !! feed_guid);
    match old_url with
    | None => throw (Other ("feed " ++ feed_guid ++ " vanished before relocation")%string)
    | Some old_url =>
        _ ← set_source_url feed_guid new_url;
        _ ← set_declared_self_url feed_guid None;
        _ ← clear_declared_new_feed_url feed_guid;
        _ ← write_relocation_state feed_guid old_url new_url;
        feed ← get_feed_by_guid feed_guid;
        match feed with
        | None => throw (Other ("feed " ++ feed_guid ++ " vanished after relocation")%string)
        | Some feed =>
            signed ← sign_event_row
              (payload_row (EventPayload.FeedUpserted
                 (FeedUpsertedPayload.mk feed (Some reason))) feed_guid now (new_v4 uuids));
            mret (Some signed)
        end
    end.
End observe.
