(* ===== verification/Submit.v ===== *)
(** A submission (src/api.rs, [handle_ingest_feed]): the token, a report of a
    gone source, the read phase on a snapshot of the database, the decision
    that the classification asks for, and the ingest.

    A handler gives its reply in [DB]: an [Err] is the status 500 of a
    database error, [Refused] another error status, [Answer] the response and
    the events that are sent on. The frames of the live views and the log
    lines are left out. *)

From S2P Require Import Prelude.
From S2P Require Import Model.
From S2P Require Import Ingest.
From S2P Require Import Event.
From S2P Require Import Medium.
From S2P Require Import Crates.
From S2P Require Import Live.
From S2P Require Import Store.
From S2P Require Import Verify.
From S2P Require Import Snapshot.
From S2P Require Import Catalog.
From S2P Require Import Feeds.
From S2P Require Import EventLog.
From S2P Require Import Diff.
From S2P Require Import Bundle.
From S2P Require Import Moves.
From S2P Require Import IngestTx.
From S2P Require Import Blocks.
From S2P Require Import GuidChange.
From S2P Require Import Copies.
From S2P Require Import Observe.

(** ** Replies *)

Module Reply.
Inductive Reply : Type :=
  | Refused (status : Z) (message : string)
  | Answer (response : IngestResponse) (fanout_events : list Event).
End Reply.
Abbreviation Reply := Reply.Reply.

(** An unaccepted response with no event and no warning. *)
Definition rejection (reason : string) : Reply :=
  Reply.Answer (IngestResponse.mk false (Some reason) [] false [] None) [].

(** The calls of [unix_now] of one request, by their place. *)
Module Clock.
Record Clock : Type := mk {
  at_read : Z;
  at_decision : Z;
  at_move : Z;
  at_ingest : Z
}.
End Clock.
Abbreviation Clock := Clock.Clock.

(** What the read phase leaves. A blocked submission gives the same reply as
    one that a verifier refuses with the reason [blocked]. *)
Module ReadPhaseOutcome.
Inductive ReadPhaseOutcome : Type :=
  | Verified (warnings : list string)
  | NoChange
  | Rejected (reason : string).
End ReadPhaseOutcome.
Abbreviation ReadPhaseOutcome := ReadPhaseOutcome.ReadPhaseOutcome.

(** What the match on the classification leaves for the ingest: the variables
    [warnings], [record_move], [move_return], [prefix_events] and
    [pending_guid_transition] of the handler. *)
Module Admission.
Record Admission : Type := mk {
  warnings : list string;
  record_move : option (string * string * string);
  move_return : option (Z * Z);
  prefix_events : list SignedEventRow;
  pending_guid_transition : option string
}.
End Admission.
Abbreviation Admission := Admission.Admission.

(** ** Moves (ADR 0052, ADR 0083) *)

Module MoveTarget.
Record MoveTarget : Type := mk {
  new_feed_url : string;
  trigger : string;
  return_values : option (Z * Z)
}.
End MoveTarget.
Abbreviation MoveTarget := MoveTarget.MoveTarget.

Module MoveDecision.
Inductive MoveDecision : Type :=
  | NoTrigger
  | Move (target : MoveTarget)
  | Refused (target_url : string)
  | WaitingRedirect (target_url : string).
End MoveDecision.
Abbreviation MoveDecision := MoveDecision.MoveDecision.

Definition is_move (d : MoveDecision) : bool :=
  match d with MoveDecision.Move _ => true | _ => false end.

Definition refused_move_warning (target_url : string) : string :=
  ("move to " ++ target_url ++ " refused: the record left that URL (ADR 0083)")%string.

(** [i64::saturating_add]. *)
Definition next_return_values (state : MoveState) (now : Z) : Z * Z :=
  let effective :=
    effective_return_count (MoveState.return_count state) (MoveState.last_return_at state) now in
  (saturating (effective + 1), now).

Definition is_waiting (state : MoveState) (now : Z) : bool :=
  is_some_and (λ end_, now <? end_)
    (return_cooldown_end (MoveState.return_count state) (MoveState.last_return_at state) now).

(** The declared URL that names the submission, with its trigger. *)
Definition mirror_trigger (feed_guid source_url canonical_url : string) :
    DB (option (string * string)) :=
  let is_own url := (url =s source_url) || (url =s canonical_url) in
  declared_new ← get_declared_new_feed_url feed_guid;
  if is_some_and is_own declared_new then
    mret ((λ u, (u, "new-feed-url"%string)) <$> declared_new)
  else
    declared_self ← get_declared_self_url feed_guid;
    if is_some_and is_own declared_self then
      mret ((λ u, (u, "self link"%string)) <$> declared_self)
    else mret None.

Definition move_target (feed_guid source_url canonical_url : string)
    (redirects : list RedirectHop) (body : IngestFeedData) (now : Z) : DB MoveDecision :=
  class ← classify_submission feed_guid source_url canonical_url;
  match class with
  | SubmissionClass.Mirror _ =>
      trigger ← mirror_trigger feed_guid source_url canonical_url;
      match trigger with
      | None => mret MoveDecision.NoTrigger
      | Some (new_feed_url, trigger) =>
          left_urls ← get_left_urls feed_guid;
          if negb (bool_decide (new_feed_url ∈ left_urls))
          then mret (MoveDecision.Move (MoveTarget.mk new_feed_url trigger None))
          else
            state ← get_move_state feed_guid;
            let tag_at_new_url := IngestFeedData.new_feed_url body == Some new_feed_url in
            let declared_is_arrival := MoveState.arrival_tag state == Some new_feed_url in
            if (trigger =s "new-feed-url") && tag_at_new_url && negb declared_is_arrival
               && negb (is_waiting state now)
            then mret (MoveDecision.Move (MoveTarget.mk new_feed_url trigger
                         (Some (next_return_values state now))))
            else mret (MoveDecision.Refused new_feed_url)
      end
  | SubmissionClass.Update =>
      stored_source_url ← query (λ db, (Feed.feed_url ∘ FeedRow.feed) <$> feeds db !! feed_guid);
      match stored_source_url with
      | None => mret MoveDecision.NoTrigger
      | Some stored_source_url =>
          if (source_url ≠s stored_source_url)
             || (match redirects with [] => true | _ => false end)
             || (canonical_url =s stored_source_url)
             || negb (forallb (λ hop, (RedirectHop.status hop =? 301)
                                      || (RedirectHop.status hop =? 308)) redirects)
          then mret MoveDecision.NoTrigger
          else
            left_urls ← get_left_urls feed_guid;
            if bool_decide (canonical_url ∈ left_urls) then
              state ← get_move_state feed_guid;
              if is_waiting state now then mret (MoveDecision.WaitingRedirect canonical_url)
              else mret (MoveDecision.Move (MoveTarget.mk canonical_url "permanent redirect"
                           (Some (next_return_values state now))))
            else mret (MoveDecision.Move
                   (MoveTarget.mk canonical_url "permanent redirect" None))
      end
  | _ => mret MoveDecision.NoTrigger
  end.

Section submit.
Context `{Crates} `{Web}.
Context (hash_order : list string → list string).
Context (signer : string).

(** ** A gone source (ADR 0067) *)

Definition SOURCE_GONE_RETIRE_AFTER_SECS : Z := 24 * 60 * 60.

Definition source_gone_report_counts (req : IngestFeedRequest) (hosts : list string) : bool :=
  (IngestFeedRequest.source_url req =s IngestFeedRequest.canonical_url req)
  && (match IngestFeedRequest.redirects req with [] => true | _ => false end)
  && (if IngestFeedRequest.http_status req =? 410 then true
      else if IngestFeedRequest.http_status req =? 404 then
        is_some_and (λ host, bool_decide (host ∈ hosts))
          (source_gone_url_host (IngestFeedRequest.source_url req))
      else false).

Definition retire_for_source_gone (uuids : nat) (feed_guid : string) (now : Z) :
    DB (list Event) :=
  delete_feed_with_event signer (S uuids) feed_guid (new_v4 uuids)
    (event_json (EventPayload.FeedRetired
       (FeedRetiredPayload.mk feed_guid (Some "source_gone"%string))))
    feed_guid now [] [].

Definition retired_response (reason : string) (retirement_events : list Event) : Reply :=
  Reply.Answer (IngestResponse.mk false (Some reason) (Event.event_id <$> retirement_events)
                  false [] None) retirement_events.

(** [now - row.first_gone_at] wraps in the release profile. *)
Definition handle_source_gone_report (uuids : nat) (hosts : list string)
    (req : IngestFeedRequest) (now : Z) : DB Reply :=
  let source_url := IngestFeedRequest.source_url req in
  block ← find_feed_block None [source_url; IngestFeedRequest.canonical_url req];
  match block with
  | Some _ => mret (rejection "blocked")
  | None =>
      feed_guid ← (if source_gone_report_counts req hosts
                   then feed_guid_for_source_url source_url else mret None);
      match feed_guid with
      | None => mret (rejection "source_gone_ignored")
      | Some feed_guid =>
          existing ← get_source_gone_answer feed_guid;
          if is_some_and (λ row, SOURCE_GONE_RETIRE_AFTER_SECS <=?
                            i64_sub now (SourceGoneAnswer.first_gone_at row)) existing
          then
            retirement_events ← retire_for_source_gone uuids feed_guid now;
            mret (retired_response "source_gone" retirement_events)
          else
            _ ← record_source_gone_answer feed_guid source_url now
                  (IngestFeedRequest.http_status req);
            mret (rejection "source_gone_observed")
      end
  end.

(** ** The read phase *)

Definition is_no_change_reason (reason : string) : bool :=
  reason =s ("[content_hash] " ++ NO_CHANGE_SENTINEL).

Definition force_reingest_of (req : IngestFeedRequest) : IngestFeedRequest :=
  IngestFeedRequest.mk (IngestFeedRequest.canonical_url req) (IngestFeedRequest.source_url req)
    (IngestFeedRequest.crawl_token req) (IngestFeedRequest.http_status req)
    (IngestFeedRequest.content_hash req) (IngestFeedRequest.feed_data req) true
    (IngestFeedRequest.redirects req).

(** The verifier chain, on the request that a move has forced. *)
Definition verify_request (chain : VerifierChain) (now : Z) (req : IngestFeedRequest) :
    DB ReadPhaseOutcome :=
  forced ← (match IngestFeedRequest.feed_data req with
    | Some feed_data =>
        decision ← move_target (IngestFeedData.feed_guid feed_data)
          (IngestFeedRequest.source_url req) (IngestFeedRequest.canonical_url req)
          (IngestFeedRequest.redirects req) feed_data now;
        mret (is_move decision)
    | None => mret false
    end);
  let req := if forced : bool then force_reingest_of req else req in
  verdict ← query (λ db, run chain (IngestContext.mk req db));
  mret (match verdict with
        | Err reason =>
            if is_no_change_reason reason then ReadPhaseOutcome.NoChange
            else ReadPhaseOutcome.Rejected reason
        | Ok warnings => ReadPhaseOutcome.Verified warnings
        end).

Definition read_phase (chain : VerifierChain) (now : Z) (req : IngestFeedRequest) :
    DB ReadPhaseOutcome :=
  block ← find_feed_block (IngestFeedData.feed_guid <$> IngestFeedRequest.feed_data req)
            [IngestFeedRequest.source_url req; IngestFeedRequest.canonical_url req];
  match block with
  | Some _ => mret (ReadPhaseOutcome.Rejected "blocked")
  | None => verify_request chain now req
  end.

(** ** Observations of a body that changes no record *)

(** The copies of a mirror: at [canonical_url], and at [source_url] when it
    is another URL than that and than the source of the record. *)
Definition record_mirror_copies (uuids : nat) (req : IngestFeedRequest)
    (feed_data : IngestFeedData) (record_url : string) (now : Z) : DB (list SignedEventRow) :=
  let feed_guid := IngestFeedData.feed_guid feed_data in
  let source_url := IngestFeedRequest.source_url req in
  let canonical_url := IngestFeedRequest.canonical_url req in
  copy_rows ← record_feed_copy_for_ingest signer uuids feed_guid canonical_url feed_data now;
  if (source_url ≠s record_url) && (source_url ≠s canonical_url) then
    more ← record_feed_copy_for_ingest signer (uuids + length copy_rows)%nat feed_guid
             source_url feed_data now;
    mret (copy_rows ++ more)
  else mret copy_rows.

(** The URL observations, then the copies when the body is a mirror of the
    record at [mirror_of]: the ids, and the events to send on. *)
Definition observe_body (uuids : nat) (req : IngestFeedRequest) (feed_data : IngestFeedData)
    (mirror_of : option string) (now : Z) : DB (list string * list Event) :=
  url_observation_rows ← record_feed_url_observations_for_ingest signer uuids
    (IngestFeedRequest.canonical_url req) (IngestFeedRequest.source_url req)
    (IngestFeedData.feed_guid feed_data) now;
  copy_rows ← match mirror_of with
              | Some record_url =>
                  record_mirror_copies (uuids + length url_observation_rows)%nat req
                    feed_data record_url now
              | None => mret []
              end;
  observed ← signed_rows_to_events url_observation_rows;
  copied ← signed_rows_to_events copy_rows;
  mret (signed_ids url_observation_rows ++ signed_ids copy_rows, observed ++ copied).

Definition no_change_phase (uuids : nat) (req : IngestFeedRequest) (now : Z) : DB Reply :=
  let accepted ids evs := Reply.Answer (IngestResponse.mk true None ids true [] None) evs in
  match IngestFeedRequest.feed_data req with
  | None => mret (accepted [] [])
  | Some feed_data =>
      classification ← classify_submission (IngestFeedData.feed_guid feed_data)
        (IngestFeedRequest.source_url req) (IngestFeedRequest.canonical_url req);
      match classification with
      | SubmissionClass.RecordConflict => mret (rejection "record_conflict")
      | SubmissionClass.GuidChange _ => mret (rejection "guid_change_pending")
      | SubmissionClass.Mirror record_url =>
          '(ids, evs) ← observe_body uuids req feed_data (Some record_url) now;
          mret (accepted ids evs)
      | _ =>
          '(ids, evs) ← observe_body uuids req feed_data None now;
          mret (accepted ids evs)
      end
  end.

(** ** The decision *)

Definition moved_warning (old_url : string) (target : MoveTarget) : string :=
  ("moved from " ++ old_url ++ " to " ++ MoveTarget.new_feed_url target ++ " (ADR 0052 "
   ++ MoveTarget.trigger target ++ ")")%string.

Definition admit_move (old_url : string) (target : MoveTarget) (warnings : list string)
    (prefix_events : list SignedEventRow) : Admission :=
  Admission.mk (warnings ++ [moved_warning old_url target])
    (Some (old_url, MoveTarget.new_feed_url target, MoveTarget.trigger target))
    (MoveTarget.return_values target) prefix_events None.

Section decide.
Context (clock : Clock) (uuids : nat) (req : IngestFeedRequest) (feed_data : IngestFeedData)
  (warnings : list string).

Definition req_guid : string := IngestFeedData.feed_guid feed_data.

Definition decide_move : DB MoveDecision :=
  move_target req_guid (IngestFeedRequest.source_url req)
    (IngestFeedRequest.canonical_url req) (IngestFeedRequest.redirects req) feed_data
    (Clock.at_move clock).

(** An older body does not replace a newer one (ADR 0053). *)
Definition is_stale (stored : option Feed) : bool :=
  match (f ← stored; Feed.last_build_date f), IngestFeedData.last_build_date feed_data with
  | Some stored_last_build_date, Some submitted_last_build_date =>
      submitted_last_build_date <? stored_last_build_date
  | _, _ => false
  end.

Definition update_case : DB (Reply + Admission) :=
  stored ← get_feed_by_guid req_guid;
  if is_stale stored then mret (inl (rejection "stale_submission"))
  else if source_blocks_this_index (IngestFeedData.blocks feed_data) then
    retirement_events ← delete_feed_with_event signer (S uuids) req_guid (new_v4 uuids)
      (event_json (EventPayload.FeedRetired
         (FeedRetiredPayload.mk req_guid (Some "podcast_block"%string))))
      req_guid (Clock.at_decision clock) warnings [];
    mret (inl (retired_response "source_blocked" retirement_events))
  else
    prefix_events ← record_guid_change_return_for_ingest signer uuids
      (IngestFeedRequest.source_url req) req_guid (Clock.at_decision clock);
    decision ← decide_move;
    mret (inr match decision with
      | MoveDecision.Move target =>
          admit_move (IngestFeedRequest.source_url req) target warnings prefix_events
      | MoveDecision.WaitingRedirect target_url =>
          Admission.mk (warnings ++ [refused_move_warning target_url]) None None prefix_events
            None
      | _ => Admission.mk warnings None None prefix_events None
      end).

Definition new_feed_case : DB (Reply + Admission) :=
  hold ← get_retired_source_hold req_guid;
  if is_some_and (λ hold, negb (is_some (RetiredSourceHold.released_at hold))
       && (RetiredSourceHold.source_url hold ≠s IngestFeedRequest.source_url req)
       && (RetiredSourceHold.source_url hold ≠s IngestFeedRequest.canonical_url req)) hold
  then mret (inl (rejection "retired_source_conflict"))
  else if source_blocks_this_index (IngestFeedData.blocks feed_data)
  then mret (inl (rejection "source_blocked"))
  else mret (inr (Admission.mk warnings None None [] None)).

Definition mirror_case (record_url : string) : DB (Reply + Admission) :=
  decision ← decide_move;
  match decision with
  | MoveDecision.Move target => mret (inr (admit_move record_url target warnings []))
  | _ =>
      let refusal_warnings :=
        match decision with
        | MoveDecision.Refused target_url => [refused_move_warning target_url]
        | _ => []
        end in
      '(ids, evs) ← observe_body uuids req feed_data (Some record_url)
                      (Clock.at_decision clock);
      mret (inl (Reply.Answer
        (IngestResponse.mk false (Some "source_conflict"%string) ids false refusal_warnings
           (Some record_url)) evs))
  end.

Definition guid_change_case (held_guid : string) : DB (Reply + Admission) :=
  row ← get_guid_change (IngestFeedRequest.source_url req);
  let approved := is_some_and (λ row, (GuidChangeRow.new_guid row =s req_guid)
    && (GuidChangeRow.decision row == Some "approve"%string)) row in
  let guid_origin := guid_origin_matches req_guid (IngestFeedRequest.source_url req) in
  if guid_origin || approved then
    let trigger := if guid_origin then "UUIDv5"%string else "approved"%string in
    mret (inr (Admission.mk
      (warnings ++ [("GUID changed from " ++ held_guid ++ " to " ++ req_guid
                     ++ " (ADR 0052 " ++ trigger ++ ")")%string])
      None None [] (Some held_guid)))
  else
    outcome ← record_guid_change_pending_for_ingest signer uuids
      (IngestFeedRequest.source_url req) held_guid req_guid (Clock.at_decision clock);
    match outcome with
    | None => mret (inl (rejection "guid_change_rejected"))
    | Some rows =>
        evs ← signed_rows_to_events rows;
        mret (inl (Reply.Answer
          (IngestResponse.mk false (Some "guid_change_pending"%string) (signed_ids rows) false
             [] None) evs))
    end.

Definition decide_phase : DB (Reply + Admission) :=
  class ← classify_submission req_guid (IngestFeedRequest.source_url req)
            (IngestFeedRequest.canonical_url req);
  match class with
  | SubmissionClass.Update => update_case
  | SubmissionClass.NewFeed => new_feed_case
  | SubmissionClass.Mirror record_url => mirror_case record_url
  | SubmissionClass.RecordConflict => mret (inl (rejection "record_conflict"))
  | SubmissionClass.GuidChange held_guid => guid_change_case held_guid
  end.
End decide.

(** ** The ingest *)

(** Step 7b: the URL of the record. *)
Definition feed_url_of (req : IngestFeedRequest) (feed_guid : string) (adm : Admission) :
    DB string :=
  match Admission.record_move adm with
  | Some (_, new_feed_url, _) => mret new_feed_url
  | None =>
      stored ← get_feed_by_guid feed_guid;
      mret match stored with
           | Some f => Feed.feed_url f
           | None => IngestFeedRequest.canonical_url req
           end
  end.

Definition feed_move_of (feed_data : IngestFeedData) (adm : Admission) : option FeedMoveWrite :=
  match Admission.record_move adm with
  | Some (old_feed_url, new_feed_url, _) =>
      Some (FeedMoveWrite.mk old_feed_url new_feed_url (IngestFeedData.new_feed_url feed_data)
              (Admission.move_return adm))
  | None => None
  end.

(** Step 11a. *)
Definition record_declarations (feed_data : IngestFeedData) (adm : Admission) : DB unit :=
  let feed_guid := IngestFeedData.feed_guid feed_data in
  let declared_self_url :=
    IngestLink.url <$> List.find (λ link, IngestLink.link_type link =s "self_feed")
                         (IngestFeedData.links feed_data) in
  _ ← set_declared_self_url feed_guid declared_self_url;
  _ ← set_feed_move_declarations feed_guid (IngestFeedData.new_feed_url feed_data)
        (IngestFeedData.locked feed_data) (IngestFeedData.locked_owner feed_data);
  match Admission.record_move adm with
  | None => clear_arrival_tag_unless feed_guid (IngestFeedData.new_feed_url feed_data)
  | Some _ => mret tt
  end.

(** [events_for_fanout.zip(seqs)]: the rows that the ingest adds for removed
    tracks are not among the first. *)
Definition zip_signed (rows : list EventRow) (seqs : list (Z * string * string)) :
    list SignedEventRow :=
  zip_with (λ row s, SignedEventRow.mk row s.1.1 s.1.2 s.2) rows seqs.

Definition transition_phase (uuids : nat) (req : IngestFeedRequest)
    (feed_data : IngestFeedData) (adm : Admission) (now : Z) : DB (list SignedEventRow) :=
  match Admission.pending_guid_transition adm with
  | Some old_guid =>
      guid_change_transition signer uuids old_guid (IngestFeedData.feed_guid feed_data)
        (IngestFeedRequest.source_url req) now
  | None => mret []
  end.

Definition too_many_tracks (n : nat) : Reply :=
  Reply.Refused 400 ("feed contains " ++ pretty n ++ " tracks, maximum is "
                     ++ pretty MAX_TRACKS_PER_INGEST).

(** Steps 10 to 14, after the rows are built. *)
Definition write_phase (uuids : nat) (req : IngestFeedRequest) (feed_data : IngestFeedData)
    (adm : Admission) (warnings : list string) (b : IngestBundle) (now : Z) : DB Reply :=
  let feed_guid := IngestFeedData.feed_guid feed_data in
  event_rows ← build_diff_events b now warnings uuids;
  let uuids := (uuids + length event_rows)%nat in
  transition_rows ← transition_phase uuids req feed_data adm now;
  let prefix_events := Admission.prefix_events adm ++ transition_rows in
  let uuids := (uuids + length transition_rows)%nat in
  seqs ← ingest_transaction hash_order now uuids b event_rows (feed_move_of feed_data adm)
           signer;
  let uuids := (uuids + (length seqs - length event_rows))%nat in
  _ ← record_declarations feed_data adm;
  url_observation_rows ← record_feed_url_observations_for_ingest signer uuids
    (IngestFeedRequest.canonical_url req) (IngestFeedRequest.source_url req) feed_guid now;
  _ ← upsert_feed_crawl_cache (IngestFeedRequest.canonical_url req)
        (IngestFeedRequest.content_hash req) now;
  let event_ids := signed_ids prefix_events ++ (EventRow.event_id <$> event_rows)
                   ++ signed_ids url_observation_rows in
  fanout_events ← signed_rows_to_events
    (prefix_events ++ zip_signed event_rows seqs ++ url_observation_rows);
  mret (Reply.Answer (IngestResponse.mk true None event_ids false warnings None) fanout_events).

Definition admit_phase (uuids : nat) (req : IngestFeedRequest) (feed_data : IngestFeedData)
    (adm : Admission) (now : Z) : DB Reply :=
  let tracks := body_tracks feed_data in
  let '(live_items, live_selection_warnings) := body_live_items feed_data in
  let warnings := Admission.warnings adm ++ live_selection_warnings in
  if (MAX_TRACKS_PER_INGEST <? length tracks)%nat then mret (too_many_tracks (length tracks))
  else
    let warnings := warnings ++ non_web_url_warnings feed_data tracks live_items in
    feed_url ← feed_url_of req (IngestFeedData.feed_guid feed_data) adm;
    write_phase uuids req feed_data adm warnings
      (build_bundle (IngestFeedRequest.canonical_url req) feed_url feed_data now) now.

(** ** The handler *)

(** After the read phase; [uuids] counts the calls of [new_v4] so far. *)
Definition mutate_phase (clock : Clock) (uuids : nat) (req : IngestFeedRequest)
    (outcome : ReadPhaseOutcome) : DB Reply :=
  match outcome with
  | ReadPhaseOutcome.Rejected reason => mret (rejection reason)
  | ReadPhaseOutcome.NoChange => no_change_phase uuids req (Clock.at_decision clock)
  | ReadPhaseOutcome.Verified warnings =>
      match IngestFeedRequest.feed_data req with
      | None => mret (Reply.Refused 400 "feed_data is required for successful ingest")
      | Some feed_data =>
          decision ← decide_phase clock uuids req feed_data warnings;
          match decision with
          | inl reply => mret reply
          | inr adm =>
              admit_phase (uuids + length (Admission.prefix_events adm))%nat req feed_data adm
                (Clock.at_ingest clock)
          end
      end
  end.

(** [reader] is the database when the read phase took its connection. *)
Definition handle_ingest_feed (chain : VerifierChain) (hosts : list string) (clock : Clock)
    (uuids : nat) (req : IngestFeedRequest) (reader : Db) : DB Reply :=
  match authenticate chain req with
  | Err reason => mret (rejection reason)
  | Ok _ =>
      if negb (is_some (IngestFeedRequest.feed_data req))
         && ((IngestFeedRequest.http_status req =? 404)
             || (IngestFeedRequest.http_status req =? 410))
      then handle_source_gone_report uuids hosts req (Clock.at_decision clock)
      else
        match read_phase chain (Clock.at_read clock) req reader with
        | (_, Err e) => throw e
        | (_, Ok outcome) => mutate_phase clock uuids req outcome
        end
  end.
End submit.
