(* ===== verification/Admin.v ===== *)
(** The routes of the operator (src/api.rs, with [delete_track_with_event],
    [list_feed_blocks] and [get_guid_change_for_old_guid] of src/db.rs): the
    admin token, and one handler for each route.

    A handler gives its reply in [DB]: an [Err] is the status 500 of a
    database error, [Refused] another error status, [Done] the status, the
    body and the events that are sent on to the peers. *)

From S2P Require Import Prelude.
From S2P Require Import Model.
From S2P Require Import Event.
From S2P Require Import Crates.
From S2P Require Import Store.
From S2P Require Import RowLists.
From S2P Require Import Catalog.
From S2P Require Import Feeds.
From S2P Require Import EventLog.
From S2P Require Import Moves.
From S2P Require Import Blocks.
From S2P Require Import GuidChange.
From S2P Require Import Copies.
From S2P Require Import Observe.

Module AdminReply.
Inductive AdminReply (A : Type) : Type :=
  | Refused (status : Z) (message : string)
  | Done (status : Z) (body : A) (fanout_events : list Event).
Arguments Refused {A} status message.
Arguments Done {A} status body fanout_events.
End AdminReply.
Abbreviation AdminReply := AdminReply.AdminReply.

(** The header [X-Admin-Token]: absent, not visible ASCII, or its text. *)
Definition AdminHeader : Type := option (option string).

(** ** Request bodies *)

Module CreateBlockRequest.
Record CreateBlockRequest : Type := mk {
  kind : FeedBlockKind;
  value : string;
  reason : string
}.
End CreateBlockRequest.
Abbreviation CreateBlockRequest := CreateBlockRequest.CreateBlockRequest.

Module PatchFeedRequest.
Record PatchFeedRequest : Type := mk {
  feed_url : option string;
  reason : option string
}.
End PatchFeedRequest.
Abbreviation PatchFeedRequest := PatchFeedRequest.PatchFeedRequest.

Module ResolveCopyRequest.
Record ResolveCopyRequest : Type := mk {
  url : string;
  decision : string;
  reason : string
}.
End ResolveCopyRequest.
Abbreviation ResolveCopyRequest := ResolveCopyRequest.ResolveCopyRequest.

Module GuidChangeDecisionRequest.
Record GuidChangeDecisionRequest : Type := mk {
  decision : string;
  reason : string
}.
End GuidChangeDecisionRequest.
Abbreviation GuidChangeDecisionRequest := GuidChangeDecisionRequest.GuidChangeDecisionRequest.

Module AmbiguousTrackGuidCandidate.
Record AmbiguousTrackGuidCandidate : Type := mk {
  feed_guid : string;
  href : string
}.
End AmbiguousTrackGuidCandidate.
Abbreviation AmbiguousTrackGuidCandidate :=
  AmbiguousTrackGuidCandidate.AmbiguousTrackGuidCandidate.

(** The bodies of the answers: none, the row of a block, the id of the block
    that is in the way, the blocks, the ids of the signed events, and the
    candidates of an ambiguous track GUID. *)
Module AdminBody.
Inductive AdminBody : Type :=
  | Empty
  | Block (block : FeedBlock)
  | BlockConflict (block_id : string)
  | ListBlocks (blocks : list FeedBlock)
  | ResolveCopy (event_ids : list string)
  | GuidChangeDecision (event_id : string)
  | AmbiguousTrackGuid (track_guid : string) (candidates : list AmbiguousTrackGuidCandidate).
End AdminBody.
Abbreviation AdminBody := AdminBody.AdminBody.

(** The result of the transaction of a copy resolution. *)
Module ResolveCopyOutcome.
Inductive ResolveCopyOutcome : Type :=
  | NotFound
  | Conflict
  | Resolved (events : list SignedEventRow).
End ResolveCopyOutcome.
Abbreviation ResolveCopyOutcome := ResolveCopyOutcome.ResolveCopyOutcome.

(** The routes that ask for the admin token. *)
Module AdminRequest.
Inductive AdminRequest : Type :=
  | RetireFeed (guid : string) (block : option bool)
  | RemoveTrack (guid track_guid : string)
  | CreateBlock (req : CreateBlockRequest)
  | ListBlocks
  | DeleteRetiredSourceHold (guid : string)
  | DeleteBlock (block_id : string)
  | PatchFeed (guid : string) (req : PatchFeedRequest)
  | ResolveCopy (guid : string) (req : ResolveCopyRequest)
  | DecideGuidChange (guid : string) (req : GuidChangeDecisionRequest)
  | PatchTrack (guid : string) (enclosure_url : option string)
  | PatchFeedTrack (feed_guid track_guid : string) (enclosure_url : option string).
End AdminRequest.
Abbreviation AdminRequest := AdminRequest.AdminRequest.

Section admin.
Context `{Crates}.
Context (signer : string).

Definition AdminDB : Type := DB (AdminReply AdminBody).

(** ** The token *)

Definition check_admin_token (header : AdminHeader) (expected : string) :
    result string unit :=
  if str_is_empty expected then Err "admin token not configured on this node"%string
  else
    let provided := unwrap_or "" (h ← header; h) in
    if sha256 provided =s sha256 expected then Ok tt
    else Err "invalid or missing X-Admin-Token"%string.

Definition with_admin_token (header : AdminHeader) (admin_token : string)
    (handler : AdminDB) : AdminDB :=
  match check_admin_token header admin_token with
  | Err message => mret (AdminReply.Refused 403 message)
  | Ok _ => handler
  end.

Definition refuse (status : Z) (message : string) : AdminDB :=
  mret (AdminReply.Refused status message).

(** The events of the signed rows, read after the commit, and the answer. *)
Definition answer (status : Z) (body : AdminBody) (rows : list SignedEventRow) : AdminDB :=
  events ← signed_rows_to_events rows;
  mret (AdminReply.Done status body events).

(** ** [DELETE /v1/feeds/{guid}] *)

Definition retirement_blocks (uuids : nat) (feed : Feed) (now : Z) : list FeedBlock :=
  [FeedBlock.mk (new_v4 uuids) FeedBlockKind.Guid (Feed.feed_guid feed) "retired" now;
   FeedBlock.mk (new_v4 (S uuids)) FeedBlockKind.Url (Feed.feed_url feed) "retired" now].

Definition handle_retire_feed (uuids : nat) (now : Z) (header : AdminHeader)
    (admin_token : string) (guid : string) (block : option bool) : AdminDB :=
  let block := unwrap_or true block in
  with_admin_token header admin_token (
    if negb block && negb (is_some header) then
      refuse 403 "ADR 0053 Section 1: block=false needs the X-Admin-Token header"
    else
      found ← get_feed_by_guid guid;
      match found with
      | None => refuse 404 ("feed " ++ guid ++ " not found")
      | Some feed =>
          let payload_json := event_json
            (EventPayload.FeedRetired
               (FeedRetiredPayload.mk guid (Some "admin retired via API"%string))) in
          let '(blocks, uuids') :=
            if block then (retirement_blocks (S uuids) feed now, (uuids + 3)%nat)
            else ([], S uuids) in
          events ← delete_feed_with_event signer uuids' guid (new_v4 uuids) payload_json
                     guid now [] blocks;
          mret (AdminReply.Done 204 AdminBody.Empty events)
      end).

(** ** [DELETE /v1/feeds/{guid}/tracks/{track_guid}] *)

Definition delete_track_with_event (feed_guid track_guid event_id payload_json
    subject_guid : string) (created_at : Z) (warnings : list string) : DB SignedEventRow :=
  transaction (
    _ ← delete_track_sql feed_guid track_guid;
    sign_event_row signer
      (EventRow.mk event_id EventType.TrackRemoved payload_json subject_guid created_at
         warnings)).

Definition handle_remove_track (uuids : nat) (now : Z) (header : AdminHeader)
    (admin_token : string) (guid track_guid : string) : AdminDB :=
  with_admin_token header admin_token (
    found ← get_track_for_feed guid track_guid;
    match found with
    | None => refuse 404 ("track " ++ track_guid ++ " not found")
    | Some _ =>
        let payload := EventPayload.TrackRemoved (TrackRemovedPayload.mk track_guid guid) in
        signed ← delete_track_with_event guid track_guid (new_v4 uuids)
                   (event_json payload) track_guid now [];
        answer 204 AdminBody.Empty [signed]
    end).

(** ** [POST /v1/blocks], [GET /v1/blocks], [DELETE /v1/blocks/{block_id}] *)

Definition feed_blocked_row (block : FeedBlock) (now : Z) : string → EventRow :=
  payload_row
    (EventPayload.FeedBlocked
       (FeedBlockedPayload.mk (FeedBlock.block_id block) (FeedBlock.kind block)
          (FeedBlock.value block) (FeedBlock.reason block) (FeedBlock.blocked_at block)))
    (FeedBlock.block_id block) now.

(** [CreateBlockOutcome]: the id of the row that is there, or the new row. *)
Definition create_block (uuids : nat) (now : Z) (kind : FeedBlockKind)
    (value reason : string) : DB (string + FeedBlock * SignedEventRow) :=
  transaction (
    existing ← get_feed_block_by_pair kind value;
    match existing with
    | Some existing => mret (inl (FeedBlock.block_id existing))
    | None =>
        let block := FeedBlock.mk (new_v4 uuids) kind value reason now in
        _ ← insert_feed_block block;
        signed ← sign_event_row signer (feed_blocked_row block now (new_v4 (S uuids)));
        mret (inr (block, signed))
    end).

Definition handle_create_block (uuids : nat) (now : Z) (header : AdminHeader)
    (admin_token : string) (req : CreateBlockRequest) : AdminDB :=
  with_admin_token header admin_token (
    let kind := CreateBlockRequest.kind req in
    let value := normalize kind (CreateBlockRequest.value req) in
    let reason := str_trim (CreateBlockRequest.reason req) in
    if str_is_empty value || str_is_empty reason
    then refuse 400 "value and reason must not be empty"
    else
      outcome ← create_block uuids now kind value reason;
      match outcome with
      | inl block_id => answer 409 (AdminBody.BlockConflict block_id) []
      | inr (block, signed) => answer 201 (AdminBody.Block block) [signed]
      end).

Definition list_feed_blocks : DB (list FeedBlock) := query feed_blocks.

Definition handle_list_blocks (header : AdminHeader) (admin_token : string) : AdminDB :=
  with_admin_token header admin_token (
    blocks ← list_feed_blocks;
    answer 200 (AdminBody.ListBlocks
      (sort_by (λ a b, FeedBlock.blocked_at a <=? FeedBlock.blocked_at b) blocks)) []).

Definition feed_unblocked_row (block_id : string) (now : Z) : string → EventRow :=
  payload_row (EventPayload.FeedUnblocked (FeedUnblockedPayload.mk block_id)) block_id now.

Definition remove_block (uuids : nat) (now : Z) (block_id : string) :
    DB (option SignedEventRow) :=
  transaction (
    deleted ← delete_feed_block block_id;
    if negb deleted then mret None
    else
      signed ← sign_event_row signer (feed_unblocked_row block_id now (new_v4 uuids));
      mret (Some signed)).

Definition handle_delete_block (uuids : nat) (now : Z) (header : AdminHeader)
    (admin_token : string) (block_id : string) : AdminDB :=
  with_admin_token header admin_token (
    removed ← remove_block uuids now block_id;
    match removed with
    | None => refuse 404 ("block " ++ block_id ++ " not found")
    | Some signed => answer 204 AdminBody.Empty [signed]
    end).

(** ** [DELETE /v1/retired-source-holds/{guid}] *)

Definition handle_delete_retired_source_hold (now : Z) (header : AdminHeader)
    (admin_token : string) (guid : string) : AdminDB :=
  with_admin_token header admin_token (
    let none := refuse 404 "no active retired source hold for this GUID" in
    hold ← get_retired_source_hold guid;
    match hold with
    | None => none
    | Some _ =>
        released ← release_retired_source_hold guid now;
        if released : bool then answer 204 AdminBody.Empty [] else none
    end).

(** ** [PATCH /v1/feeds/{guid}] *)

Definition handle_patch_feed (uuids : nat) (now : Z) (header : AdminHeader)
    (admin_token : string) (guid : string) (req : PatchFeedRequest) : AdminDB :=
  with_admin_token header admin_token (
    found ← get_feed_by_guid guid;
    match found, PatchFeedRequest.feed_url req with
    | None, _ => refuse 404 ("feed " ++ guid ++ " not found")
    | Some _, None => answer 204 AdminBody.Empty []
    | Some _, Some new_url =>
        let reason := str_trim (unwrap_or "" (PatchFeedRequest.reason req)) in
        if str_is_empty reason
        then refuse 400 "reason must not be empty when patching feed_url"
        else
          relocated ← transaction (relocate_feed signer uuids guid new_url reason now);
          match relocated with
          | None => refuse 409 (new_url ++ " is already the source URL of another record")
          | Some signed => answer 204 AdminBody.Empty [signed]
          end
    end).

(** ** [POST /v1/feeds/{guid}/copies/resolve] *)

Definition feed_copy_resolved_row (feed_guid decision reason : string) (row : FeedCopyRow)
    (now : Z) : string → EventRow :=
  payload_row
    (EventPayload.FeedCopyResolved
       (FeedCopyResolvedPayload.mk feed_guid (FeedCopyRow.url row) decision reason now
          (FeedCopyRow.summary_digest row) (FeedCopyRow.remote_items_digest row)))
    feed_guid now.

(** The event of the resolution, then its columns. *)
Definition settle_copy (uuids : nat) (now : Z) (feed_guid decision reason : string)
    (row : FeedCopyRow) : DB SignedEventRow :=
  signed ← sign_event_row signer
    (feed_copy_resolved_row feed_guid decision reason row now (new_v4 uuids));
  _ ← set_feed_copy_resolution feed_guid (FeedCopyRow.url row) decision reason now
        (FeedCopyRow.summary_digest row) (FeedCopyRow.remote_items_digest row);
  mret signed.

Definition resolve_copy (uuids : nat) (now : Z) (feed_guid url decision reason : string) :
    DB ResolveCopyOutcome :=
  transaction (
    feed ← get_feed_by_guid feed_guid;
    copy ← get_feed_copy feed_guid url;
    match feed, copy with
    | Some _, Some row =>
        if decision =s "relocate" then
          relocated ← relocate_feed signer uuids feed_guid (FeedCopyRow.url row) reason now;
          match relocated with
          | None => mret ResolveCopyOutcome.Conflict
          | Some moved =>
              signed ← settle_copy (S uuids) now feed_guid decision reason row;
              mret (ResolveCopyOutcome.Resolved [moved; signed])
          end
        else
          signed ← settle_copy uuids now feed_guid decision reason row;
          mret (ResolveCopyOutcome.Resolved [signed])
    | _, _ => mret ResolveCopyOutcome.NotFound
    end).

(** [got] is the [{:?}] of the decision, which the message ends with. *)
Definition handle_resolve_copy (uuids : nat) (now : Z) (header : AdminHeader)
    (admin_token : string) (got : string → string) (guid : string)
    (req : ResolveCopyRequest) : AdminDB :=
  with_admin_token header admin_token (
    let reason := str_trim (ResolveCopyRequest.reason req) in
    let decision := ResolveCopyRequest.decision req in
    if str_is_empty reason then refuse 400 "reason must not be empty"
    else if (decision ≠s "keep_source") && (decision ≠s "relocate") then
      refuse 400 ("decision must be 'keep_source' or 'relocate', got " ++ got decision)
    else
      outcome ← resolve_copy uuids now guid (ResolveCopyRequest.url req) decision reason;
      match outcome with
      | ResolveCopyOutcome.NotFound =>
          refuse 404 ("feed " ++ guid ++ " not found, or it has no copy at that url")
      | ResolveCopyOutcome.Conflict =>
          refuse 409 "the copy's url is already the source URL of another record"
      | ResolveCopyOutcome.Resolved events =>
          answer 200 (AdminBody.ResolveCopy (signed_ids events)) events
      end).

(** ** [POST /v1/feeds/{guid}/guid-change] *)

(** [ORDER BY first_seen DESC LIMIT 1]; of two rows with one [first_seen]
    the query gives any. *)
Definition get_guid_change_for_old_guid (old_guid : string) : DB (option GuidChangeRow) :=
  query (λ db, head (sort_by
    (λ a b, GuidChangeRow.first_seen b <=? GuidChangeRow.first_seen a)
    (List.filter (λ r, GuidChangeRow.old_guid r =s old_guid)
       (snd <$> map_to_list (feed_guid_changes db))))).

Definition feed_guid_change_decided_row (row : GuidChangeRow) (decision reason : string)
    (now : Z) : string → EventRow :=
  payload_row
    (EventPayload.FeedGuidChangeDecided
       (FeedGuidChangeDecidedPayload.mk (GuidChangeRow.source_url row)
          (GuidChangeRow.old_guid row) (GuidChangeRow.new_guid row) decision reason now))
    (GuidChangeRow.old_guid row) now.

(** [GuidChangeDecisionOutcome]: [None] is [NotFound]. *)
Definition decide_guid_change (uuids : nat) (now : Z) (guid decision reason : string) :
    DB (option SignedEventRow) :=
  transaction (
    pending ← get_guid_change_for_old_guid guid;
    match pending with
    | None => mret None
    | Some row =>
        _ ← set_guid_change_decision (GuidChangeRow.source_url row) decision reason now;
        signed ← sign_event_row signer
          (feed_guid_change_decided_row row decision reason now (new_v4 uuids));
        mret (Some signed)
    end).

Definition handle_guid_change_decision (uuids : nat) (now : Z) (header : AdminHeader)
    (admin_token : string) (got : string → string) (guid : string)
    (req : GuidChangeDecisionRequest) : AdminDB :=
  with_admin_token header admin_token (
    let reason := str_trim (GuidChangeDecisionRequest.reason req) in
    let decision := GuidChangeDecisionRequest.decision req in
    if str_is_empty reason then refuse 400 "reason must not be empty"
    else if (decision ≠s "approve") && (decision ≠s "reject") then
      refuse 400 ("decision must be 'approve' or 'reject', got " ++ got decision)
    else
      decided ← decide_guid_change uuids now guid decision reason;
      match decided with
      | None => refuse 404 ("no pending GUID change names " ++ guid ++ " as its old GUID")
      | Some signed =>
          answer 200 (AdminBody.GuidChangeDecision
                        (EventRow.event_id (SignedEventRow.row signed))) [signed]
      end).

(** ** [PATCH /v1/tracks/{guid}], [PATCH /v1/feeds/{guid}/tracks/{track_guid}] *)

Definition canonical_track_href (feed_guid track_guid : string) : string :=
  "/v1/feeds/" ++ feed_guid ++ "/tracks/" ++ track_guid.

Definition ambiguous_track_candidates_for_tracks (tracks : list Track) :
    list AmbiguousTrackGuidCandidate :=
  (λ track, AmbiguousTrackGuidCandidate.mk (Track.feed_guid track)
     (canonical_track_href (Track.feed_guid track) (Track.track_guid track))) <$> tracks.

Definition with_enclosure_url (new_url : string) (t : Track) : Track :=
  Track.mk (Track.track_guid t) (Track.feed_guid t) (Track.title t) (Track.title_lower t)
    (Track.pub_date t) (Track.duration_secs t) (Some new_url) (Track.enclosure_type t)
    (Track.enclosure_bytes t) (Track.track_number t) (Track.season t) (Track.image_url t)
    (Track.publisher t) (Track.language t) (Track.explicit t) (Track.description t)
    (Track.track_artist t) (Track.track_artist_sort t) (Track.created_at t)
    (Track.updated_at t).

Definition set_enclosure_url (feed_guid track_guid new_url : string) : DB unit :=
  execute (λ db, set_tracks
    (alter (with_enclosure_url new_url) (feed_guid, track_guid) (tracks db)) db).

Definition patch_track (uuids : nat) (now : Z) (feed_guid track_guid new_url : string) :
    DB SignedEventRow :=
  transaction (
    _ ← set_enclosure_url feed_guid track_guid new_url;
    updated ← get_track_for_feed feed_guid track_guid;
    match updated with
    | None => throw (Other ("track " ++ track_guid ++ " vanished after update"))
    | Some updated_track =>
        routes ← get_payment_routes_for_feed_track feed_guid track_guid;
        splits ← get_value_time_splits_for_feed_track feed_guid track_guid;
        sign_event_row signer
          (payload_row (EventPayload.TrackUpserted
             (TrackUpsertedPayload.mk updated_track routes splits)) track_guid now
             (new_v4 uuids))
    end).

Definition patch_resolved_track (uuids : nat) (now : Z) (header : AdminHeader)
    (admin_token : string) (track : Track) (track_guid : string)
    (enclosure_url : option string) : AdminDB :=
  with_admin_token header admin_token (
    match enclosure_url with
    | None => answer 204 AdminBody.Empty []
    | Some new_url =>
        signed ← patch_track uuids now (Track.feed_guid track) track_guid new_url;
        answer 204 AdminBody.Empty [signed]
    end).

Definition handle_patch_track (uuids : nat) (now : Z) (header : AdminHeader)
    (admin_token : string) (guid : string) (enclosure_url : option string) : AdminDB :=
  tracks ← get_tracks_by_guid guid;
  match tracks with
  | [] => refuse 404 ("track " ++ guid ++ " not found")
  | [track] => patch_resolved_track uuids now header admin_token track guid enclosure_url
  | _ => answer 409 (AdminBody.AmbiguousTrackGuid guid
                       (ambiguous_track_candidates_for_tracks tracks)) []
  end.

Definition handle_patch_feed_track (uuids : nat) (now : Z) (header : AdminHeader)
    (admin_token : string) (feed_guid track_guid : string)
    (enclosure_url : option string) : AdminDB :=
  found ← get_track_for_feed feed_guid track_guid;
  match found with
  | None => refuse 404 ("track " ++ track_guid ++ " not found in feed " ++ feed_guid)
  | Some track =>
      patch_resolved_track uuids now header admin_token track track_guid enclosure_url
  end.

(** ** The routes *)

(** The routes of [build_router] that ask for the admin token. *)
Definition admin_route (uuids : nat) (now : Z) (header : AdminHeader)
    (admin_token : string) (got : string → string) (req : AdminRequest) : AdminDB :=
  match req with
  | AdminRequest.RetireFeed guid block =>
      handle_retire_feed uuids now header admin_token guid block
  | AdminRequest.RemoveTrack guid track_guid =>
      handle_remove_track uuids now header admin_token guid track_guid
  | AdminRequest.CreateBlock req => handle_create_block uuids now header admin_token req
  | AdminRequest.ListBlocks => handle_list_blocks header admin_token
  | AdminRequest.DeleteRetiredSourceHold guid =>
      handle_delete_retired_source_hold now header admin_token guid
  | AdminRequest.DeleteBlock block_id =>
      handle_delete_block uuids now header admin_token block_id
  | AdminRequest.PatchFeed guid req =>
      handle_patch_feed uuids now header admin_token guid req
  | AdminRequest.ResolveCopy guid req =>
      handle_resolve_copy uuids now header admin_token got guid req
  | AdminRequest.DecideGuidChange guid req =>
      handle_guid_change_decision uuids now header admin_token got guid req
  | AdminRequest.PatchTrack guid enclosure_url =>
      handle_patch_track uuids now header admin_token guid enclosure_url
  | AdminRequest.PatchFeedTrack feed_guid track_guid enclosure_url =>
      handle_patch_feed_track uuids now header admin_token feed_guid track_guid enclosure_url
  end.
End admin.
