(* ===== verification/Apply.v ===== *)
(** Applying replicated events (src/apply.rs): one event inside a
    transaction, one event in a transaction of its own, and a batch in one
    transaction. *)

From S2P Require Import Prelude.
From S2P Require Import Model.
From S2P Require Import Event.
From S2P Require Import Crates.
From S2P Require Import Store.
From S2P Require Import RowLists.
From S2P Require Import Catalog.
From S2P Require Import Feeds.
From S2P Require Import EventLog.
From S2P Require Import Blocks.
From S2P Require Import GuidChange.
From S2P Require Import Copies.

(** Fixed cursor key for primary-sync progress. *)
Definition SYNC_CURSOR_KEY : string := "primary_sync_cursor".

Module ApplyOutcome.
Inductive ApplyOutcome : Type :=
  | Applied (seq : Z)
  | Duplicate.
#[export] Instance eq_dec : EqDecision ApplyOutcome.
Proof. solve_decision. Defined.
End ApplyOutcome.
Abbreviation ApplyOutcome := ApplyOutcome.ApplyOutcome.
#[export] Existing Instance ApplyOutcome.eq_dec.

Module ApplySummary.
Record ApplySummary : Type := mk {
  applied : Z;
  duplicate : Z;
  rejected : Z;
  max_seq : Z
}.
#[export] Instance eq_dec : EqDecision ApplySummary.
Proof. solve_decision. Defined.
End ApplySummary.
Abbreviation ApplySummary := ApplySummary.ApplySummary.
#[export] Existing Instance ApplySummary.eq_dec.

Section apply.
Context `{Crates}.

(** The payload of the signed bytes, not the one the event came with. *)
Definition deserialize_verified_payload (ev : Event) : DB EventPayload := λ db,
  match parse_event (Event.event_type ev) (Event.payload_json ev) with
  | Some p => (db, Ok p)
  | None => (db, Err Json)
  end.

(** Discards the value of a statement. *)
Definition ignore {A} (m : DB A) : DB unit := _ ← m; mret tt.

(** The [match] on the payload. *)
Definition apply_payload (now : Z) (created_at : Z) (payload : EventPayload) : DB unit :=
  match payload with
  | EventPayload.ArtistUpserted _ | EventPayload.ArtistCreditCreated _ => mret tt
  | EventPayload.FeedUpserted p =>
      _ ← upsert_feed (FeedUpsertedPayload.feed p);
      sync_source_read_models_for_feed now (Feed.feed_guid (FeedUpsertedPayload.feed p))
  | EventPayload.TrackUpserted p =>
      let track := TrackUpsertedPayload.track p in
      _ ← upsert_track track;
      _ ← replace_payment_routes_for_feed_track (Track.feed_guid track)
            (Track.track_guid track) (TrackUpsertedPayload.routes p);
      _ ← replace_value_time_splits_for_feed_track (Track.feed_guid track)
            (Track.track_guid track) (TrackUpsertedPayload.value_time_splits p);
      sync_source_read_models_for_feed now (Track.feed_guid track)
  | EventPayload.RoutesReplaced p =>
      match RoutesReplacedPayload.feed_guid p with
      | Some feed_guid =>
          replace_payment_routes_for_feed_track feed_guid
            (RoutesReplacedPayload.track_guid p) (RoutesReplacedPayload.routes p)
      | None =>
          replace_payment_routes (RoutesReplacedPayload.track_guid p)
            (RoutesReplacedPayload.routes p)
      end
  | EventPayload.FeedRoutesReplaced p =>
      replace_feed_payment_routes (FeedRoutesReplacedPayload.feed_guid p)
        (FeedRoutesReplacedPayload.routes p)
  | EventPayload.FeedRemoteItemsReplaced p =>
      replace_feed_remote_items_raw (FeedRemoteItemsReplacedPayload.feed_guid p)
        (FeedRemoteItemsReplacedPayload.remote_items p)
  | EventPayload.FeedListValueReplaced p =>
      replace_feed_list_value_raw (FeedListValueReplacedPayload.feed_guid p)
        (FeedListValueReplacedPayload.list_values p)
  | EventPayload.TrackRemoteItemsReplaced p =>
      match TrackRemoteItemsReplacedPayload.feed_guid p with
      | Some feed_guid =>
          replace_track_remote_items_raw_for_feed_track feed_guid
            (TrackRemoteItemsReplacedPayload.track_guid p)
            (TrackRemoteItemsReplacedPayload.remote_items p)
      | None =>
          replace_track_remote_items_raw (TrackRemoteItemsReplacedPayload.track_guid p)
            (TrackRemoteItemsReplacedPayload.remote_items p)
      end
  | EventPayload.LiveEventsReplaced p =>
      replace_live_events_for_feed (LiveEventsReplacedPayload.feed_guid p)
        (LiveEventsReplacedPayload.live_events p)
  | EventPayload.SourceContributorClaimsReplaced p =>
      replace_source_contributor_claims_for_feed
        (SourceContributorClaimsReplacedPayload.feed_guid p)
        (SourceContributorClaimsReplacedPayload.claims p)
  | EventPayload.SourceEntityIdsReplaced p =>
      replace_source_entity_ids_for_feed (SourceEntityIdsReplacedPayload.feed_guid p)
        (SourceEntityIdsReplacedPayload.claims p)
  | EventPayload.SourceEntityLinksReplaced p =>
      replace_source_entity_links_for_feed (SourceEntityLinksReplacedPayload.feed_guid p)
        (SourceEntityLinksReplacedPayload.links p)
  | EventPayload.SourceReleaseClaimsReplaced p =>
      replace_source_release_claims_for_feed (SourceReleaseClaimsReplacedPayload.feed_guid p)
        (SourceReleaseClaimsReplacedPayload.claims p)
  | EventPayload.SourceItemEnclosuresReplaced p =>
      replace_source_item_enclosures_for_feed (SourceItemEnclosuresReplacedPayload.feed_guid p)
        (SourceItemEnclosuresReplacedPayload.enclosures p)
  | EventPayload.SourceItemTranscriptsReplaced p =>
      replace_source_item_transcripts_for_feed
        (SourceItemTranscriptsReplacedPayload.feed_guid p)
        (SourceItemTranscriptsReplacedPayload.transcripts p)
  | EventPayload.SourcePlatformClaimsReplaced p =>
      replace_source_platform_claims_for_feed (SourcePlatformClaimsReplacedPayload.feed_guid p)
        (SourcePlatformClaimsReplacedPayload.claims p)
  | EventPayload.FeedUrlObserved p =>
      upsert_feed_url_observation (FeedUrlObservedPayload.url p)
        (FeedUrlObservedPayload.feed_guid p) (FeedUrlObservedPayload.observed_at p)
  | EventPayload.FeedBlocked p =>
      ignore (insert_feed_block (FeedBlock.mk (FeedBlockedPayload.block_id p)
        (FeedBlockedPayload.kind p) (FeedBlockedPayload.value p)
        (FeedBlockedPayload.reason p) (FeedBlockedPayload.blocked_at p)))
  | EventPayload.FeedUnblocked p =>
      ignore (delete_feed_block (FeedUnblockedPayload.block_id p))
  | EventPayload.FeedCopyObserved p =>
      let summary := CopySummary.mk (FeedCopyObservedPayload.title p)
        (FeedCopyObservedPayload.item_guids p) (FeedCopyObservedPayload.item_titles p)
        (FeedCopyObservedPayload.image_url p) (FeedCopyObservedPayload.remote_items p)
        (FeedCopyObservedPayload.item_durations p)
        (FeedCopyObservedPayload.item_enclosure_urls p)
        (FeedCopyObservedPayload.item_pub_dates p) (FeedCopyObservedPayload.author p)
        (FeedCopyObservedPayload.feed_recipients p)
        (FeedCopyObservedPayload.track_recipients p) in
      upsert_feed_copy_summary (FeedCopyObservedPayload.feed_guid p)
        (FeedCopyObservedPayload.url p) (FeedCopyObservedPayload.first_seen p) summary
        (FeedCopyObservedPayload.summary_digest p) (remote_items_digest summary)
  | EventPayload.FeedCopyResolved p =>
      set_feed_copy_resolution (FeedCopyResolvedPayload.feed_guid p)
        (FeedCopyResolvedPayload.url p) (FeedCopyResolvedPayload.decision p)
        (FeedCopyResolvedPayload.reason p) (FeedCopyResolvedPayload.resolved_at p)
        (FeedCopyResolvedPayload.resolved_digest p)
        (FeedCopyResolvedPayload.resolved_remote_items_digest p)
  | EventPayload.FeedGuidChangeObserved p =>
      if FeedGuidChangeObservedPayload.new_guid p =s FeedGuidChangeObservedPayload.old_guid p
      then delete_guid_change (FeedGuidChangeObservedPayload.source_url p)
      else upsert_guid_change (FeedGuidChangeObservedPayload.source_url p)
             (FeedGuidChangeObservedPayload.old_guid p)
             (FeedGuidChangeObservedPayload.new_guid p)
             (FeedGuidChangeObservedPayload.first_seen p)
  | EventPayload.FeedGuidChangeDecided p =>
      set_guid_change_decision (FeedGuidChangeDecidedPayload.source_url p)
        (FeedGuidChangeDecidedPayload.decision p) (FeedGuidChangeDecidedPayload.reason p)
        (FeedGuidChangeDecidedPayload.decided_at p)
  | EventPayload.FeedGuidSuperseded p =>
      insert_guid_supersession (FeedGuidSupersededPayload.old_guid p)
        (FeedGuidSupersededPayload.new_guid p) (FeedGuidSupersededPayload.source_url p)
        created_at
  | EventPayload.FeedRetired p =>
      feed_opt ← get_feed_by_guid (FeedRetiredPayload.feed_guid p);
      if is_some feed_opt then delete_feed_sql (FeedRetiredPayload.feed_guid p) else mret tt
  | EventPayload.TrackRemoved p =>
      track_opt ← get_track_for_feed (TrackRemovedPayload.feed_guid p)
                    (TrackRemovedPayload.track_guid p);
      if is_some track_opt
      then delete_track_sql (TrackRemovedPayload.feed_guid p) (TrackRemovedPayload.track_guid p)
      else mret tt
  end.

Definition apply_single_event_inner (now : Z) (ev : Event) : DB ApplyOutcome :=
  seq_opt ← insert_event_idempotent (Event.event_id ev) (Event.event_type ev)
    (Event.payload_json ev) (Event.subject_guid ev) (Event.signed_by ev)
    (Event.signature ev) (Event.created_at ev) (Event.warnings ev);
  match seq_opt with
  | None => mret ApplyOutcome.Duplicate
  | Some seq =>
      verified_payload ← deserialize_verified_payload ev;
      _ ← apply_payload now (Event.created_at ev) verified_payload;
      mret (ApplyOutcome.Applied seq)
  end.

Definition apply_single_event (now : Z) (ev : Event) : DB ApplyOutcome :=
  transaction (
    outcome ← apply_single_event_inner now ev;
    _ ← match outcome with
        | ApplyOutcome.Applied _ =>
            upsert_node_sync_state SYNC_CURSOR_KEY (Event.seq ev) now
        | ApplyOutcome.Duplicate => mret tt
        end;
    mret outcome).

(** ** Batches *)

(** A live-event change to announce after the commit. *)
Definition LiveDiff : Type := string * list LiveEvent * list LiveEvent.

(** What the loop of [apply_events] carries: the summary, the applied
    events with their local [seq], the live diffs, the largest primary
    [seq]. *)
Definition BatchState : Type :=
  ApplySummary * list (Event * Z) * list LiveDiff * Z.

(** The state before an event that replaces live events is kept first. *)
Definition live_diff_of (ev : Event) : DB (list LiveDiff) :=
  payload ← deserialize_verified_payload ev;
  match payload with
  | EventPayload.LiveEventsReplaced p =>
      old ← get_live_events_for_feed (LiveEventsReplacedPayload.feed_guid p);
      mret [(LiveEventsReplacedPayload.feed_guid p, old,
             LiveEventsReplacedPayload.live_events p)]
  | _ => mret []
  end.

(** One turn. An error of [apply_single_event_inner] is counted, and what
    the event wrote before the error stays in the transaction. *)
Definition batch_step (now : Z) (ev : Event) (st : BatchState) : DB BatchState := λ db,
  let '(sum, applied, diffs, max_primary_seq) := st in
  match live_diff_of ev db with
  | (db, Err e) => (db, Err e)
  | (db, Ok new_diffs) =>
      let diffs := diffs ++ new_diffs in
      match apply_single_event_inner now ev db with
      | (db, Ok (ApplyOutcome.Applied local_seq)) =>
          let max_seq := Z.max (Z.max (ApplySummary.max_seq sum) local_seq) (Event.seq ev) in
          (db, Ok (ApplySummary.mk (ApplySummary.applied sum + 1)
                     (ApplySummary.duplicate sum) (ApplySummary.rejected sum) max_seq,
                   applied ++ [(ev, local_seq)], diffs,
                   Z.max max_primary_seq (Event.seq ev)))
      | (db, Ok ApplyOutcome.Duplicate) =>
          (db, Ok (ApplySummary.mk (ApplySummary.applied sum)
                     (ApplySummary.duplicate sum + 1) (ApplySummary.rejected sum)
                     (ApplySummary.max_seq sum),
                   applied, diffs, Z.max max_primary_seq (Event.seq ev)))
      | (db, Err _) =>
          (db, Ok (ApplySummary.mk (ApplySummary.applied sum)
                     (ApplySummary.duplicate sum) (ApplySummary.rejected sum + 1)
                     (ApplySummary.max_seq sum),
                   applied, diffs, max_primary_seq))
      end
  end.

Fixpoint batch_loop (now : Z) (evs : list Event) (st : BatchState) : DB BatchState :=
  match evs with
  | [] => mret st
  | ev :: rest => st ← batch_step now ev st; batch_loop now rest st
  end.

Definition batch_start : BatchState := (ApplySummary.mk 0 0 0 0, [], [], 0).

Definition apply_batch (now : Z) (verified : list Event) : DB BatchState :=
  transaction (
    st ← batch_loop now verified batch_start;
    let '(sum, applied, diffs, max_primary_seq) := st in
    _ ← (if 0 <? max_primary_seq
         then upsert_node_sync_state SYNC_CURSOR_KEY max_primary_seq now
         else mret tt);
    mret st).

(** [apply_events]: the summary, and what is published after the commit. *)
Definition apply_events (now : Z) (events : list Event) (db : Db) :
    Db * ApplySummary * list (Event * Z) * list LiveDiff :=
  let verified := List.filter verify_event_signature events in
  let rejected := Z.of_nat (length events) - Z.of_nat (length verified) in
  match verified with
  | [] => (db, ApplySummary.mk 0 0 rejected 0, [], [])
  | _ =>
      match apply_batch now verified db with
      | (db, Err _) =>
          (db, ApplySummary.mk 0 0 (rejected + Z.of_nat (length verified)) 0, [], [])
      | (db, Ok (sum, applied, diffs, _)) =>
          (db, ApplySummary.mk (ApplySummary.applied sum) (ApplySummary.duplicate sum)
                 (rejected + ApplySummary.rejected sum)
                 (Z.max 0 (ApplySummary.max_seq sum)),
           applied, diffs)
      end
  end.
End apply.
