(* ===== verification/Sync.v ===== *)
(** The sync endpoints of a primary (src/sync.rs, src/api.rs): the page of the
    log, the reconciliation, the registration of a peer and its rows (src/db.rs),
    and the push of new events to the peers. *)

From S2P Require Import Prelude.
From S2P Require Import Model.
From S2P Require Import Event.
From S2P Require Import Crates.
From S2P Require Import Store.
From S2P Require Import EventLog.

(** A reply of a handler: the status and message of an [ApiError], or a body. *)
Module SyncReply.
Inductive SyncReply (A : Type) : Type :=
  | Refused (status : Z) (message : string)
  | Answer (body : A).
Arguments Refused {A} status message.
Arguments Answer {A} body.
End SyncReply.
Abbreviation SyncReply := SyncReply.SyncReply.

(** [check_sync_token]; an absent header is the empty text. *)
Definition check_sync_token `{Crates} (provided : string) (sync_token : option string) :
    result string unit :=
  match sync_token with
  | None => Err "sync token not configured on this node"%string
  | Some expected_sync =>
      if str_is_empty expected_sync then Err "sync token not configured on this node"%string
      else if sha256 provided =s sha256 expected_sync then Ok tt
      else Err "invalid or missing X-Sync-Token"%string
  end.

(** The guard that each sync handler starts with. *)
Definition with_sync_token `{Crates} {A} (provided : string) (sync_token : option string)
    (handler : DB (SyncReply A)) : DB (SyncReply A) :=
  match check_sync_token provided sync_token with
  | Err message => mret (SyncReply.Refused 403 message)
  | Ok _ => handler
  end.

(** ** [GET /sync/events] *)

Module SyncEventsResponse.
Record SyncEventsResponse : Type := mk {
  events : list Event;
  has_more : bool;
  next_seq : Z
}.
End SyncEventsResponse.
Abbreviation SyncEventsResponse := SyncEventsResponse.SyncEventsResponse.

Definition clamp (lo hi n : Z) : Z := Z.max lo (Z.min hi n).

Definition sync_events `{Crates} (after_seq : Z) (limit : option Z) : DB SyncEventsResponse :=
  let capped_limit := clamp 1 1000 (unwrap_or 500 limit) in
  events ← get_events_since after_seq capped_limit;
  mret (SyncEventsResponse.mk events (Z.of_nat (length events) =? capped_limit)
          (match list.last events with Some e => Event.seq e | None => after_seq end)).

Definition handle_sync_events `{Crates} (sync_token : option string) (provided : string)
    (after_seq : Z) (limit : option Z) : DB (SyncReply SyncEventsResponse) :=
  with_sync_token provided sync_token
    (response ← sync_events after_seq limit; mret (SyncReply.Answer response)).

(** ** [POST /sync/reconcile] *)

Definition MAX_RECONCILE_HAVE : nat := 10000.
Definition MAX_RECONCILE_REFS : Z := 50000.
Definition MAX_RECONCILE_EVENTS : Z := 10000.

(** [EventRef]. *)
Definition EventRef : Type := string * Z.

Module ReconcileRequest.
Record ReconcileRequest : Type := mk {
  node_pubkey : string;
  have : list EventRef;
  since_seq : Z
}.
End ReconcileRequest.
Abbreviation ReconcileRequest := ReconcileRequest.ReconcileRequest.

Module ReconcileResponse.
Record ReconcileResponse : Type := mk {
  send_to_node : list Event;
  unknown_to_us : list EventRef;
  has_more : bool;
  next_seq : Z
}.
End ReconcileResponse.
Abbreviation ReconcileResponse := ReconcileResponse.ReconcileResponse.

(** [iter().map(|r| r.seq).max().unwrap_or(default)]. *)
Definition max_ref_seq (default : Z) (refs : list EventRef) : Z :=
  match refs with
  | [] => default
  | r :: rest => foldl (λ m r, Z.max m r.2) r.2 rest
  end.

Definition reconcile `{Crates} (req : ReconcileRequest) : DB ReconcileResponse :=
  let have := ReconcileRequest.have req in
  let since_seq := ReconcileRequest.since_seq req in
  '(our_refs, refs_truncated) ← get_event_refs_since since_seq MAX_RECONCILE_REFS;
  let our_ids := fst <$> our_refs in
  let their_ids := fst <$> have in
  let missing id := bool_decide (id ∈ our_ids) && negb (bool_decide (id ∈ their_ids)) in
  let unknown_to_us := List.filter (λ r, negb (bool_decide (r.1 ∈ our_ids))) have in
  all_events ← get_events_since since_seq MAX_RECONCILE_EVENTS;
  let events_capped := MAX_RECONCILE_EVENTS <=? Z.of_nat (length all_events) in
  mret (ReconcileResponse.mk
    (List.filter (λ e, missing (Event.event_id e)) all_events)
    unknown_to_us (refs_truncated || events_capped) (max_ref_seq since_seq our_refs)).

Definition handle_sync_reconcile `{Crates} (sync_token : option string) (provided : string)
    (req : ReconcileRequest) : DB (SyncReply ReconcileResponse) :=
  with_sync_token provided sync_token
    (if (MAX_RECONCILE_HAVE <? length (ReconcileRequest.have req))%nat
     then mret (SyncReply.Refused 400
            ("have array exceeds maximum size of " ++ pretty MAX_RECONCILE_HAVE)%string)
     else response ← reconcile req; mret (SyncReply.Answer response)).

(** ** Peer rows *)

Definition MAX_PEER_FAILURES : Z := 10.

(** In the order of the table, which the query leaves open. *)
Definition get_push_peers : DB (list PeerNode) := query (λ db,
  List.filter (λ p, PeerNode.consecutive_failures p <? MAX_PEER_FAILURES)
    (snd <$> map_to_list (peer_nodes db))).

Definition push_subscribers_at_start : DB (gmap string string) :=
  peers ← get_push_peers;
  mret (list_to_map ((λ p, (PeerNode.node_pubkey p, PeerNode.node_url p)) <$> peers)).

Definition upsert_peer_node (node_pubkey node_url : string) (now : Z) : DB unit :=
  execute (λ db, set_peer_nodes (<[node_pubkey :=
    match peer_nodes db !! node_pubkey with
    | Some p => PeerNode.mk (PeerNode.node_pubkey p) node_url (PeerNode.discovered_at p)
                  (PeerNode.last_push_at p) (PeerNode.consecutive_failures p)
    | None => PeerNode.mk node_pubkey node_url now None 0
    end]> (peer_nodes db)) db).

Definition update_peer (node_pubkey : string) (f : PeerNode → PeerNode) : DB unit :=
  execute (λ db, set_peer_nodes (alter f node_pubkey (peer_nodes db)) db).

Definition with_failures (failures : Z) (p : PeerNode) : PeerNode :=
  PeerNode.mk (PeerNode.node_pubkey p) (PeerNode.node_url p) (PeerNode.discovered_at p)
    (PeerNode.last_push_at p) failures.

Definition record_push_success (node_pubkey : string) (now : Z) : DB unit :=
  update_peer node_pubkey (λ p,
    PeerNode.mk (PeerNode.node_pubkey p) (PeerNode.node_url p) (PeerNode.discovered_at p)
      (Some now) 0).

(** SQLite makes an integer sum that overflows a real, which the STRICT column
    refuses; a count of failures does not get there. *)
Definition increment_peer_failures (node_pubkey : string) : DB unit :=
  update_peer node_pubkey (λ p, with_failures (PeerNode.consecutive_failures p + 1) p).

Definition reset_peer_failures (node_pubkey : string) : DB unit :=
  update_peer node_pubkey (with_failures 0).

(** ** [GET /sync/peers] *)

Module PeerEntry.
Record PeerEntry : Type := mk {
  node_pubkey : string;
  node_url : string;
  last_push_at : option Z
}.
End PeerEntry.
Abbreviation PeerEntry := PeerEntry.PeerEntry.

Definition handle_sync_peers `{Crates} (sync_token : option string) (provided : string) :
    DB (SyncReply (list PeerEntry)) :=
  with_sync_token provided sync_token
    (peers ← get_push_peers;
     mret (SyncReply.Answer ((λ p,
       PeerEntry.mk (PeerNode.node_pubkey p) (PeerNode.node_url p) (PeerNode.last_push_at p))
       <$> peers))).

(** ** [POST /sync/register] *)

Definition SYNC_REGISTER_MAX_SKEW_SECS : Z := 600.

Module RegisterRequest.
Record RegisterRequest : Type := mk {
  node_pubkey : string;
  node_url : string;
  signed_at : option Z;
  signature : option string
}.
End RegisterRequest.
Abbreviation RegisterRequest := RegisterRequest.RegisterRequest.

Section register.
Context `{Crates}.
(** [serde_json::to_string] of a [RegisterSigningPayload]. *)
Context (register_json : string → string → Z → string).
(** What the address check and the ownership check of a push URL give: they
    ask the DNS and the peer itself. *)
Context (check_target : string → string → result (Z * string) unit).

(** [i64::abs] wraps. *)
Definition i64_abs (z : Z) : Z := wrap64 (Z.abs z).

(** The message of a bad signature is here without the text of the error. *)
Definition handle_sync_register (sync_token : option string) (provided : string) (now : Z)
    (req : RegisterRequest) (subscribers : gmap string string) :
    DB (SyncReply (gmap string string)) :=
  let node_pubkey := RegisterRequest.node_pubkey req in
  let node_url := RegisterRequest.node_url req in
  with_sync_token provided sync_token
    match RegisterRequest.signed_at req, RegisterRequest.signature req with
    | Some signed_at, Some signature_hex =>
        if SYNC_REGISTER_MAX_SKEW_SECS <? i64_abs (i64_sub now signed_at) then
          mret (SyncReply.Refused 400
            ("sync/register signed_at is outside the allowed skew window of "
             ++ pretty SYNC_REGISTER_MAX_SKEW_SECS ++ " seconds")%string)
        else if negb (ed25519_verify node_pubkey
                        (sha256 (register_json node_pubkey node_url signed_at)) signature_hex)
        then mret (SyncReply.Refused 403 "invalid sync/register signature")
        else
          match check_target node_url node_pubkey with
          | Err (status, message) => mret (SyncReply.Refused status message)
          | Ok _ =>
              _ ← upsert_peer_node node_pubkey node_url now;
              _ ← reset_peer_failures node_pubkey;
              mret (SyncReply.Answer (<[node_pubkey := node_url]> subscribers))
          end
    | _, _ => mret (SyncReply.Refused 400 "sync/register requires signed_at and signature")
    end.
End register.

(** ** Push *)

Definition PUSH_MAX_ATTEMPTS : nat := 3.
Definition PUSH_EVICTION_THRESHOLD : Z := MAX_PEER_FAILURES.

(** One attempt: a 2xx answer with the count of [rejected] that its body
    gives, if it is a [PushResponse]; or any other outcome. *)
Module PushAttempt.
Inductive PushAttempt : Type :=
  | Success (rejected : option Z)
  | Failed.
End PushAttempt.
Abbreviation PushAttempt := PushAttempt.PushAttempt.

(** The rows of the peers, and the cache of push URLs. *)
Definition PushState : Type := Db * gmap string string.

Definition handle_push_failure (pubkey : string) (st : PushState) : PushState :=
  let '(db, subscribers) := st in
  let db := (increment_peer_failures pubkey db).1 in
  let failures :=
    match peer_nodes db !! pubkey with
    | Some p => PeerNode.consecutive_failures p
    | None => 0
    end in
  (db, if PUSH_EVICTION_THRESHOLD <=? failures then delete pubkey subscribers
       else subscribers).

(** The state, and whether the peer rejected an event. *)
Definition check_push_response_rejections (pubkey : string) (rejected : option Z)
    (st : PushState) : PushState * bool :=
  if is_some_and (λ n, 0 <? n) rejected then (handle_push_failure pubkey st, true)
  else (st, false).

(** The loop over the attempts: it stops at the first 2xx answer. *)
Fixpoint push_attempts (fuel : nat) (pubkey : string) (attempt : nat → PushAttempt)
    (n : nat) (st : PushState) : PushState * bool :=
  match fuel with
  | O => (st, false)
  | S fuel =>
      match attempt n with
      | PushAttempt.Success rejected =>
          let '(st, had_rejections) := check_push_response_rejections pubkey rejected st in
          (st, negb had_rejections)
      | PushAttempt.Failed => push_attempts fuel pubkey attempt (S n) st
      end
  end.

(** One peer of [fan_out_push_inner]; [safe] is the address check of its URL. *)
Definition push_to_peer (now : Z) (safe : bool) (pubkey : string)
    (attempt : nat → PushAttempt) (st : PushState) : PushState :=
  if negb safe then st
  else
    let '((db, subscribers), success) :=
      push_attempts PUSH_MAX_ATTEMPTS pubkey attempt 0 st in
    if success then ((record_push_success pubkey now db).1, subscribers)
    else handle_push_failure pubkey (db, subscribers).

(** Each peer of the cache, once. The pushes run at the same time; one writes
    the row and the entry of its own peer only. *)
Definition fan_out_push (now : Z) (safe : string → bool)
    (attempt : string → nat → PushAttempt) (st : PushState) : PushState :=
  foldl (λ st '(pubkey, push_url), push_to_peer now (safe push_url) pubkey (attempt pubkey) st)
    st (map_to_list st.2).
