(* ===== verification/Paging.v ===== *)
(** Cursors, and the pages of the list routes (src/query.rs). *)

From S2P Require Import Prelude.

(** The cursors of the list routes (src/query.rs): the text of a position, its
    base64 form, and what each route reads back from it.

    A cursor is the sort key of a row with NUL between its parts. [String] of
    Rust holds UTF-8 only, so decoding checks the bytes. *)

(** [struct ApiError] (src/api.rs), without the [WWW-Authenticate] header. *)
Module ApiError.
Record ApiError : Type := mk { status : Z; message : string }.
#[export] Instance eq_dec : EqDecision ApiError.
Proof. solve_decision. Defined.
End ApiError.
Abbreviation ApiError := ApiError.ApiError.
#[export] Existing Instance ApiError.eq_dec.

Definition bad_request {A} (message : string) : result ApiError A := Err (ApiError.mk 400 message).

(** The [base64] crate: [URL_SAFE_NO_PAD]. *)
Class Base64 : Type := {
  base64_encode : string → string;
  base64_decode : string → option string
}.

(** What a cursor needs of it. *)
Class Base64Ok `(Base64) : Prop :=
  base64_round_trip bytes : base64_decode (base64_encode bytes) = Some bytes.

(** A codec that leaves the bytes as they are. *)
Definition plain_base64 : Base64 := {| base64_encode := id; base64_decode := Some |}.

Lemma plain_base64_ok : Base64Ok plain_base64.
Proof. done. Qed.

(** ** Text *)

(** The bytes that [String::from_utf8] takes. *)
Definition in_range (lo hi : Z) (a : ascii) : bool := (lo <=? byte_of a) && (byte_of a <=? hi).

Fixpoint utf8_valid (s : string) : bool :=
  match s with
  | EmptyString => true
  | String a r =>
      if in_range 0 127 a then utf8_valid r
      else
        match r with
        | EmptyString => false
        | String b r1 =>
            if in_range 194 223 a then is_continuation b && utf8_valid r1
            else
              match r1 with
              | EmptyString => false
              | String c r2 =>
                  if in_range 224 239 a then
                    in_range (if byte_of a =? 224 then 160 else 128)
                      (if byte_of a =? 237 then 159 else 191) b
                    && is_continuation c && utf8_valid r2
                  else
                    match r2 with
                    | EmptyString => false
                    | String d r3 =>
                        in_range 240 244 a
                        && in_range (if byte_of a =? 240 then 144 else 128)
                             (if byte_of a =? 244 then 143 else 191) b
                        && is_continuation c && is_continuation d && utf8_valid r3
                    end
              end
        end
  end.

Definition NUL : ascii := "000".

Fixpoint split_at_char (c : ascii) (s : string) : option (string * string) :=
  match s with
  | EmptyString => None
  | String a r =>
      if Ascii.eqb a c then Some (""%string, r)
      else (λ '(x, y), (String a x, y)) <$> split_at_char c r
  end.

(** [str::splitn] of a character. *)
Fixpoint splitn (n : nat) (c : ascii) (s : string) : list string :=
  match n with
  | O => []
  | S O => [s]
  | S n =>
      match split_at_char c s with
      | Some (x, y) => x :: splitn n c y
      | None => [s]
      end
  end.

Definition digit_of (a : ascii) : option Z :=
  let d := byte_of a - 48 in
  if (0 <=? d) && (d <=? 9) then Some d else None.

Fixpoint digits_from (value : Z) (s : string) : option Z :=
  match s with
  | EmptyString => Some value
  | String a r => d ← digit_of a; digits_from (10 * value + d) r
  end.

Definition parse_digits (s : string) : option Z :=
  if str_is_empty s then None else digits_from 0 s.

(** [str::parse::<i64>]: one optional sign, then digits; a value out of range
    is an error. *)
Definition parse_i64 (s : string) : option Z :=
  z ← match s with
      | String a r =>
          if Ascii.eqb a "-" then Z.opp <$> parse_digits r
          else if Ascii.eqb a "+" then parse_digits r
          else parse_digits s
      | EmptyString => None
      end;
  if (i64_min <=? z) && (z <=? i64_max) then Some z else None.

(** [str::parse] of an unsigned integer of [bits] bits. *)
Definition parse_unsigned (bits : Z) (s : string) : option Z :=
  z ← match s with
      | String a r => if Ascii.eqb a "+" then parse_digits r else parse_digits s
      | EmptyString => None
      end;
  if z <? 2 ^ bits then Some z else None.

Definition parse_u64 : string → option Z := parse_unsigned 64.
Definition parse_u8 : string → option Z := parse_unsigned 8.

(** ** Encoding *)

Section codec.
Context `{Base64}.

Definition encode_cursor (value : string) : string := base64_encode value.

Definition decode_cursor (cursor : string) : result ApiError string :=
  match base64_decode cursor with
  | None => bad_request "invalid cursor"
  | Some bytes =>
      if utf8_valid bytes then Ok bytes else bad_request "invalid cursor encoding"
  end.

(** A cursor with an integer and a text. *)
Definition encode_ts_cursor (key : Z * string) : string :=
  encode_cursor (pretty key.1 ++ String NUL key.2).

Definition parse_recent_cursor (cursor : string) : result ApiError (Z * string) :=
  let? decoded := decode_cursor cursor in
  match splitn 2 NUL decoded with
  | [ts; guid] =>
      match parse_i64 ts with
      | Some ts => Ok (ts, guid)
      | None => bad_request "invalid cursor timestamp"
      end
  | _ => bad_request "invalid cursor format"
  end.

(** A cursor with two texts. *)
Definition encode_pair_cursor (key : string * string) : string :=
  encode_cursor (key.1 ++ String NUL key.2).

Definition parse_by_name_cursor (cursor : string) : result ApiError (string * string) :=
  let? decoded := decode_cursor cursor in
  match splitn 2 NUL decoded with
  | [sort; guid] => Ok (sort, guid)
  | _ => bad_request "invalid cursor format"
  end.

(** A cursor with three texts. *)
Definition encode_names_cursor (key : string * string * string) : string :=
  encode_cursor (key.1.1 ++ String NUL (key.1.2 ++ String NUL key.2)).

Definition parse_artist_names_cursor (cursor : string) :
    result ApiError (string * string * string) :=
  let? decoded := decode_cursor cursor in
  match splitn 3 NUL decoded with
  | [sort; kind; key] => Ok (sort, kind, key)
  | _ => bad_request "invalid cursor format"
  end.
End codec.

(** ** Round trips *)

(** A text that a [String] can hold, and one that holds no NUL. *)
Definition text_ok (s : string) : Prop := utf8_valid s = true.

Definition has_nul (s : string) : bool := existsb (Ascii.eqb NUL) (String.list_ascii_of_string s).

Definition plain_text (s : string) : Prop := text_ok s ∧ has_nul s = false.

Lemma app_cons a r t : (String a r ++ t = String a (r ++ t))%string.
Proof. done. Qed.

Lemma utf8_app s t : utf8_valid s = true → utf8_valid (s ++ t) = utf8_valid t.
Proof.
  remember (String.length s) as n eqn:Hn. revert s Hn.
  induction n as [n IH] using lt_wf_ind. intros s -> Hs.
  assert (∀ r, (String.length r < String.length s)%nat → utf8_valid r = true →
    utf8_valid (r ++ t) = utf8_valid t) as IHr by (intros r Hl; by apply (IH _ Hl)).
  clear IH. destruct s as [|a r]; [done|]. rewrite ?app_cons. cbn [utf8_valid] in *.
  destruct (in_range 0 127 a); [apply (IHr r); [cbn; lia|done]|].
  destruct r as [|b r]; [done|]. rewrite ?app_cons in *.
  destruct (in_range 194 223 a).
  { apply andb_true_iff in Hs as [-> Hs]. apply (IHr r); [cbn; lia|done]. }
  destruct r as [|c r]; [done|]. rewrite ?app_cons in *.
  destruct (in_range 224 239 a).
  { rewrite !andb_true_iff in Hs. destruct Hs as [[-> ->] Hs]. apply (IHr r); [cbn; lia|done]. }
  destruct r as [|d r]; [done|]. rewrite ?app_cons in *.
  rewrite !andb_true_iff in Hs. destruct Hs as [[[[-> ->] ->] ->] Hs].
  apply (IHr r); [cbn; lia|done].
Qed.

Lemma text_ok_nul s t : text_ok s → text_ok t → text_ok (s ++ String NUL t).
Proof. unfold text_ok. intros Hs Ht. by rewrite utf8_app. Qed.

Lemma split_at_nul s t :
  has_nul s = false → split_at_char NUL (s ++ String NUL t) = Some (s, t).
Proof.
  induction s as [|a s IH]; [done|]. intros [Ha Hs]%orb_false_iff.
  rewrite app_cons. cbn [split_at_char]. rewrite Ascii.eqb_sym, Ha, IH; done.
Qed.

(** *** Integers *)

(** A text of digits, with a sign at most. *)
Definition number_char (a : ascii) : bool := in_range 48 57 a || Ascii.eqb a "-".

Fixpoint number_text (s : string) : bool :=
  match s with
  | EmptyString => true
  | String a r => number_char a && number_text r
  end.

Lemma number_text_plain s : number_text s = true → plain_text s.
Proof.
  unfold plain_text, text_ok, has_nul.
  induction s as [|a s IH]; [done|]. cbn [number_text]. intros [Ha Hs]%andb_true_iff.
  destruct (IH Hs) as [Hu Hn]. cbn [utf8_valid String.list_ascii_of_string existsb].
  rewrite Hn. apply orb_true_iff in Ha as [Ha|Ha%Ascii.eqb_eq].
  - unfold in_range in Ha. apply andb_true_iff in Ha as [H1%Z.leb_le H2%Z.leb_le].
    unfold in_range. rewrite (proj2 (Z.leb_le 0 _)), (proj2 (Z.leb_le _ 127)) by lia.
    split; [done|]. rewrite orb_false_r. apply Ascii.eqb_neq. intros <-. done.
  - subst a. by rewrite Hu.
Qed.

Lemma digit_char n :
  (n < 10)%N →
  digit_of (pretty_N_char n) = Some (Z.of_N n) ∧ number_char (pretty_N_char n) = true.
Proof.
  intros Hn.
  assert (n ∈ [0; 1; 2; 3; 4; 5; 6; 7; 8; 9]%N) as Hin.
  { repeat rewrite elem_of_cons. lia. }
  repeat (apply elem_of_cons in Hin as [->|Hin]; [done|]). by apply not_elem_of_nil in Hin.
Qed.

Lemma digits_pretty_go n : ∀ s, digits_from 0 (pretty_N_go n s) = digits_from (Z.of_N n) s.
Proof.
  induction (N.lt_wf_0 n) as [n _ IH]. intros s.
  destruct (decide (n = 0)%N) as [->|Hn]; [by rewrite pretty_N_go_0|].
  rewrite pretty_N_go_step by lia. rewrite IH by (apply N.div_lt; lia).
  cbn [digits_from]. destruct (digit_char (n mod 10)) as [-> _]; [by apply N.mod_lt|].
  cbn. f_equal. rewrite N2Z.inj_div, N2Z.inj_mod. pose proof (Z.div_mod (Z.of_N n) 10). lia.
Qed.

Lemma number_pretty_go n : ∀ s, number_text s = true → number_text (pretty_N_go n s) = true.
Proof.
  induction (N.lt_wf_0 n) as [n _ IH]. intros s Hs.
  destruct (decide (n = 0)%N) as [->|Hn]; [by rewrite pretty_N_go_0|].
  rewrite pretty_N_go_step by lia. apply IH; [apply N.div_lt; lia|].
  cbn [number_text]. destruct (digit_char (n mod 10)) as [_ ->]; [by apply N.mod_lt|done].
Qed.

Lemma number_pretty (z : Z) : number_text (pretty z) = true.
Proof.
  assert (∀ n : N, number_text (pretty n) = true) as Hp.
  { intros n. unfold pretty, pretty_N. case_decide; [done|]. by apply number_pretty_go. }
  destruct z as [|p|p]; [done|apply (Hp (N.pos p))|].
  change (number_text (pretty (N.pos p)) = true). apply Hp.
Qed.

(** The digits of a positive number: not empty, and no sign first. *)
Lemma pretty_pos p :
  parse_digits (pretty (N.pos p)) = Some (Z.pos p)
  ∧ ∃ a r, pretty (N.pos p) = String a r ∧ a ≠ "-"%char ∧ a ≠ "+"%char.
Proof.
  assert (digits_from 0 (pretty (N.pos p)) = Some (Z.pos p)) as Hd.
  { unfold pretty, pretty_N. rewrite decide_False by done. by rewrite digits_pretty_go. }
  destruct (pretty (N.pos p)) as [|a r] eqn:E; [done|].
  split; [exact Hd|]. exists a, r. split; [done|].
  cbn in Hd. destruct (digit_of a) eqn:Ea; [|done].
  split; intros ->; done.
Qed.

Lemma parse_pretty z : in_i64 z → parse_i64 (pretty z) = Some z.
Proof.
  intros [Hlo Hhi].
  assert ((i64_min <=? z) && (z <=? i64_max) = true) as Hr.
  { by rewrite (proj2 (Z.leb_le _ _) Hlo), (proj2 (Z.leb_le _ _) Hhi). }
  unfold parse_i64. destruct z as [|p|p].
  - done.
  - change (pretty (Z.pos p)) with (pretty (N.pos p)).
    destruct (pretty_pos p) as [Hp (a & r & E & H1 & H2)]. rewrite E in *.
    apply Ascii.eqb_neq in H1, H2. rewrite H1, H2, Hp. cbn [mbind option_bind]. by rewrite Hr.
  - change (pretty (Z.neg p)) with (String "-" (pretty (N.pos p))).
    destruct (pretty_pos p) as [Hp _]. rewrite Ascii.eqb_refl, Hp.
    cbn [fmap option_fmap option_map mbind option_bind].
    change (- Z.pos p) with (Z.neg p). by rewrite Hr.
Qed.

Section round_trips.
Context `{Base64Ok}.

Lemma decode_encode s : text_ok s → decode_cursor (encode_cursor s) = Ok s.
Proof using All.
  intros Hs. unfold decode_cursor, encode_cursor. rewrite base64_round_trip.
  by rewrite Hs.
Qed.

Lemma ts_cursor_round_trip key :
  in_i64 key.1 → text_ok key.2 → parse_recent_cursor (encode_ts_cursor key) = Ok key.
Proof using All.
  intros Hz Ht. destruct key as [z t]. cbn in *.
  destruct (number_text_plain (pretty z) (number_pretty z)) as [Hu Hn].
  unfold parse_recent_cursor, encode_ts_cursor. cbn [fst snd].
  rewrite decode_encode by by apply text_ok_nul. cbn [rbind splitn].
  rewrite split_at_nul, parse_pretty; done.
Qed.

Lemma pair_cursor_round_trip key :
  plain_text key.1 → text_ok key.2 → parse_by_name_cursor (encode_pair_cursor key) = Ok key.
Proof using All.
  intros [Hu Hn] Ht. destruct key as [s t]. cbn in *.
  unfold parse_by_name_cursor, encode_pair_cursor. cbn [fst snd].
  rewrite decode_encode by by apply text_ok_nul. cbn [rbind splitn].
  by rewrite split_at_nul.
Qed.

Lemma names_cursor_round_trip key :
  plain_text key.1.1 → plain_text key.1.2 → text_ok key.2 →
  parse_artist_names_cursor (encode_names_cursor key) = Ok key.
Proof using All.
  intros [Hu Hn] [Hu' Hn'] Ht. destruct key as [[s t] u]. cbn in *.
  unfold parse_artist_names_cursor, encode_names_cursor. cbn [fst snd].
  rewrite decode_encode by (apply text_ok_nul; [done|by apply text_ok_nul]).
  cbn [rbind splitn]. rewrite split_at_nul by done. by rewrite split_at_nul.
Qed.
End round_trips.

(** Keyset pages, and the walk of a client over them.

    A list route gives the rows after a position, in the order of their keys,
    at most [limit] of them, and the cursor of the last row when more remain.
    A client that follows the cursors reads a page for each state of the node
    that it meets. *)

(** ** Orders of keys *)

(** [before a b]: a row with the key [a] stands before one with the key [b]. *)
Class StrictTotal {K} (before : K → K → bool) : Prop := {
  before_irrefl a : before a a = false;
  before_trans a b c : before a b = true → before b c = true → before a c = true;
  before_total a b : before a b = true ∨ a = b ∨ before b a = true
}.

(** [Ord] of a tuple. *)
Definition pair_lt {A B} `{EqDecision A} (lt1 : A → A → bool) (lt2 : B → B → bool)
    (x y : A * B) : bool :=
  lt1 x.1 y.1 || ((x.1 == y.1) && lt2 x.2 y.2).

(** The other direction: a list that is newest first. *)
Definition descending {K} (lt : K → K → bool) (a b : K) : bool := lt b a.

#[export] Instance Z_ltb_total : StrictTotal Z.ltb.
Proof.
  split.
  - apply Z.ltb_irrefl.
  - intros a b c. rewrite !Z.ltb_lt. lia.
  - intros a b. rewrite !Z.ltb_lt. lia.
Qed.

Lemma string_ltb_lt a b : String.ltb a b = true ↔ String.leb a b = true ∧ a ≠ b.
Proof.
  unfold String.ltb, String.leb. split.
  - intros Hc. destruct (String.compare a b) eqn:E; try done. split; [done|].
    intros ->. pose proof (String.compare_antisym b b) as Ha. by rewrite E in Ha.
  - intros [Hc Hn]. destruct (String.compare a b) eqn:E; try done.
    by apply String.compare_eq_iff in E.
Qed.

#[export] Instance string_ltb_total : StrictTotal String.ltb.
Proof.
  split.
  - intros a. apply not_true_iff_false. rewrite string_ltb_lt. naive_solver.
  - intros a b c. rewrite !string_ltb_lt. intros [H1 N1] [H2 N2]. split.
    + apply Is_true_true.
      apply (transitivity (R := String.le) (y := b)); by apply Is_true_true.
    + intros ->. apply N1. apply (anti_symm String.le); by apply Is_true_true.
  - intros a b. destruct (decide (a = b)) as [|Hn]; [by right; left|].
    destruct (String.leb_total a b) as [H|H].
    + left. by apply string_ltb_lt.
    + right; right. apply string_ltb_lt. split; [done|congruence].
Qed.

#[export] Instance pair_lt_total {A B} `{EqDecision A} (lt1 : A → A → bool) (lt2 : B → B → bool) :
  StrictTotal lt1 → StrictTotal lt2 → StrictTotal (pair_lt lt1 lt2).
Proof.
  intros H1 H2. unfold pair_lt. split.
  - intros [a b]. cbn. by rewrite !before_irrefl, andb_false_r.
  - intros [a b] [a' b'] [a'' b'']. cbn. rewrite !orb_true_iff, !andb_true_iff, !bool_decide_eq_true.
    intros [?|[<- ?]] [?|[<- ?]]; eauto using before_trans.
  - intros [a b] [a' b']. cbn. rewrite !orb_true_iff, !andb_true_iff, !bool_decide_eq_true.
    destruct (before_total a a') as [?|[<-|?]]; [tauto| |tauto].
    destruct (before_total b b') as [?|[<-|?]]; tauto.
Qed.

Lemma descending_total {K} (lt : K → K → bool) :
  StrictTotal lt → StrictTotal (descending lt).
Proof.
  intros Hlt. unfold descending. split.
  - intros a. apply before_irrefl.
  - intros a b c Hb Ha. by apply (before_trans c b a).
  - intros a b. destruct (before_total a b) as [?|[?|?]]; auto.
Qed.

(** ** Pages *)

(** [Pagination] and [QueryResponse], without the [meta] of the node. *)
Module QueryResponse.
Record QueryResponse (T : Type) : Type := mk {
  data : list T;
  cursor : option string;
  has_more : bool
}.
#[global] Arguments mk {T}.
#[global] Arguments data {T}.
#[global] Arguments cursor {T}.
#[global] Arguments has_more {T}.
End QueryResponse.
Abbreviation QueryResponse := QueryResponse.QueryResponse.

Section pages.
Context {A K : Type} (before : K → K → bool) (key : A → K).

(** The rows after a position. *)
Definition rest (cursor : option K) (l : list A) : list A :=
  List.filter (λ a, is_none_or (λ k, before k (key a)) cursor) l.

(** The position of the next page, of the rows that remain. *)
Definition next_key (limit : nat) (remaining : list A) : option K :=
  if (limit <? length remaining)%nat then key <$> last (take limit remaining) else None.

(** Rows in the order of their keys, each key once. *)
Definition ordered (l : list A) : Prop := StronglySorted (λ a b, before (key a) (key b) = true) l.

(** The response with a page of rows, each shown by [show]. *)
Definition page_of {T} (encode : K → string) (show : A → T) (limit : nat)
    (remaining : list A) : QueryResponse T :=
  QueryResponse.mk (show <$> take limit remaining) (encode <$> next_key limit remaining)
    (limit <? length remaining)%nat.

Context `{!StrictTotal before}.

Lemma ordered_rest c l : ordered l → ordered (rest c l).
Proof using Type. intros Hl. eapply StronglySorted_sublist; [apply filter_sublist|exact Hl]. Qed.

Lemma elem_of_rest c l a :
  a ∈ rest c l ↔ a ∈ l ∧ ∀ k, c = Some k → before k (key a) = true.
Proof using Type.
  unfold rest. rewrite list_elem_of_In, List.filter_In, <-list_elem_of_In.
  destruct c as [k|]; cbn; [|naive_solver]. split; [|naive_solver].
  intros [H1 H2]. split; [done|]. by intros ? [= <-].
Qed.

Lemma ordered_NoDup l : ordered l → NoDup (key <$> l).
Proof using StrictTotal0.
  induction l as [|a l IH]; [constructor|]. intros [Hl Ha]%StronglySorted_inv.
  rewrite fmap_cons. constructor; [|by apply IH].
  intros (b & Hb & Hin)%list_elem_of_fmap. rewrite Forall_forall in Ha.
  specialize (Ha b Hin). cbn in Ha. rewrite <-Hb in Ha. by rewrite before_irrefl in Ha.
Qed.

(** In an ordered list the rows after a row are the rows behind it. *)
Lemma rest_behind l1 a l2 : ordered (l1 ++ a :: l2) → rest (Some (key a)) (l1 ++ a :: l2) = l2.
Proof using StrictTotal0.
  intros Ho. unfold rest. rewrite List.filter_app. cbn [List.filter is_none_or].
  rewrite before_irrefl.
  unfold ordered in Ho. apply StronglySorted_app in Ho as (H12 & H1 & H2).
  apply StronglySorted_inv in H2 as [H2 Ha]. rewrite filter_none, app_nil_l.
  - apply filter_all. intros b Hb. rewrite Forall_forall in Ha. by apply Ha.
  - intros b Hb. apply not_true_iff_false. intros Hab.
    assert (before (key b) (key a) = true) as Hba by (apply H12; [done|left]).
    pose proof (before_trans _ _ _ Hab Hba) as Hx. by rewrite before_irrefl in Hx.
Qed.

Lemma rest_rest k c l :
  (∀ j, c = Some j → before j k = true) → rest (Some k) (rest c l) = rest (Some k) l.
Proof using StrictTotal0.
  intros Hc. unfold rest. induction l as [|a l IH]; [done|]. cbn [List.filter].
  destruct (is_none_or _ c) eqn:E; cbn [List.filter]; rewrite IH; [done|].
  destruct c as [j|]; [|done]. cbn in *.
  destruct (before k (key a)) eqn:Ek; [|done].
  by rewrite (before_trans j k (key a)) in E by auto.
Qed.

Lemma rest_tail c l p a q :
  ordered l → rest c l = p ++ a :: q → rest (Some (key a)) l = q.
Proof using StrictTotal0.
  intros Ho E. pose proof (ordered_rest c l Ho) as Hr. rewrite E in Hr.
  rewrite <-(rest_rest (key a) c), E; [by apply rest_behind|].
  apply (elem_of_rest c l a). rewrite E. apply elem_of_app. right. left.
Qed.

(** A page that is not the last ends with a row, and the next starts behind it. *)
Lemma next_key_some limit l k :
  (0 < limit)%nat → next_key limit l = Some k →
  ∃ l1 a l2, l = l1 ++ a :: l2 ∧ take limit l = l1 ++ [a] ∧ k = key a
    ∧ drop limit l = l2 ∧ length l = (limit + length l2)%nat ∧ (0 < length l2)%nat.
Proof using Type.
  intros Hl. unfold next_key. destruct (limit <? length l)%nat eqn:E; [|done].
  apply Nat.ltb_lt in E.
  destruct (last (take limit l)) as [a|] eqn:Ea; [|done]. intros [= <-].
  apply last_Some in Ea as (l1 & El). exists l1, a, (drop limit l).
  split_and!; [|done|done|done| |].
  - rewrite <-(take_drop limit l) at 1. by rewrite El, <-app_assoc.
  - rewrite length_drop. lia.
  - rewrite length_drop. lia.
Qed.

Lemma next_key_total limit l :
  (0 < limit)%nat → (limit < length l)%nat → is_Some (next_key limit l).
Proof using Type.
  intros Hl Hlen. unfold next_key. rewrite (proj2 (Nat.ltb_lt _ _) Hlen).
  destruct (last (take limit l)) eqn:Ea; [by eexists|].
  apply last_None in Ea. apply (f_equal length) in Ea. rewrite length_take in Ea. cbn in Ea. lia.
Qed.

Lemma next_key_none limit l : (0 < limit)%nat → next_key limit l = None → take limit l = l.
Proof using Type.
  intros Hl Hn. apply take_ge. destruct (le_lt_dec (length l) limit) as [|Hlt]; [done|].
  destruct (next_key_total limit l Hl Hlt). congruence.
Qed.

Lemma rest_next limit c l k :
  ordered l → (0 < limit)%nat → next_key limit (rest c l) = Some k →
  rest (Some k) l = drop limit (rest c l) ∧ (∀ j, c = Some j → before j k = true).
Proof using StrictTotal0.
  intros Ho Hl Hk. apply next_key_some in Hk as (l1 & a & l2 & E & _ & -> & Hd & _); [|done].
  assert (∀ j, c = Some j → before j (key a) = true) as Hj.
  { apply (elem_of_rest c l a). rewrite E. apply elem_of_app. right. left. }
  split; [|done]. rewrite Hd, <-(rest_rest (key a) c l Hj).
  pose proof (ordered_rest c l Ho) as Ho'. rewrite E in Ho' |- *. by apply rest_behind.
Qed.
End pages.

(** A full page is a stretch that the walk can take. *)
Lemma page_of_stretch {A K T} (key : A → K) (encode : K → string) (show : A → T) limit l :
  (0 < limit)%nat →
  ∃ p q next, l = p ++ q
    ∧ page_of key encode show limit l
      = QueryResponse.mk (show <$> List.filter (λ _, true) p) (encode <$> next) (is_some next)
    ∧ match next with Some k => ∃ p' a, p = p' ++ [a] ∧ k = key a | None => q = [] end.
Proof.
  intros Hl. exists (take limit l), (drop limit l), (next_key key limit l).
  rewrite take_drop. split; [done|]. rewrite (filter_all (λ _, true)) by done.
  unfold page_of. destruct (next_key key limit l) as [k|] eqn:Ek.
  - pose proof Ek as (l1 & a & l2 & _ & Et & -> & _ & Hlen & Hpos)%next_key_some; [|done].
    rewrite (proj2 (Nat.ltb_lt _ _)) by lia. split; [done|]. by exists l1, a.
  - pose proof (next_key_none key limit l Hl Ek) as Ht.
    assert (length l ≤ limit)%nat.
    { rewrite <-Ht, length_take. lia. }
    rewrite (proj2 (Nat.ltb_ge _ _)) by done. split; [done|]. by apply drop_ge.
Qed.

(** ** The walk *)

Section walk.
Context {T : Type} (request : nat → option string → result ApiError (QueryResponse T)).

(** Request [n] meets the node in its state [n]; a client stops at a page with
    no cursor. [None]: an error, or [fuel] requests and no end. *)
Fixpoint walk (fuel n : nat) (cursor : option string) : option (list (list T)) :=
  match fuel with
  | O => None
  | S fuel =>
      match request n cursor with
      | Err _ => None
      | Ok r =>
          match QueryResponse.cursor r with
          | None => Some [QueryResponse.data r]
          | Some c => cons (QueryResponse.data r) <$> walk fuel (S n) (Some c)
          end
      end
  end.
End walk.

Section route.
Context {A K T : Type} (before : K → K → bool) `{!StrictTotal before} (key : A → K).
Context (encode : K → string) (good : K → Prop).
Context (request : nat → option string → result ApiError (QueryResponse T)).
Context (rows : nat → list A) (keep : nat → A → bool) (show : nat → A → T).

(** What a list route promises. The response to a position that it gave out
    shows the kept rows of a stretch [p] of the rows behind it. With a cursor,
    that is the key of the last row of [p]; with none, [p] is all of them. *)
Class ListRoute : Prop := {
  route_ordered n : ordered before key (rows n);
  route_good n a : a ∈ rows n → good (key a);
  route_page n c :
    (∀ k, c = Some k → good k) →
    ∃ p q next, rest before key c (rows n) = p ++ q
      ∧ request n (encode <$> c)
        = Ok (QueryResponse.mk (show n <$> List.filter (keep n) p) (encode <$> next) (is_some next))
      ∧ match next with Some k => ∃ p' a, p = p' ++ [a] ∧ k = key a | None => q = [] end
}.

Context `{!ListRoute}.

(** The pages of a walk from state [n], as rows. *)
Definition shown (parts : list (list A)) (n : nat) : list (list T) :=
  imap (λ i p, show (n + i) <$> p) parts.

Lemma shown_cons p parts n : shown (p :: parts) n = (show n <$> p) :: shown parts (S n).
Proof using Type.
  unfold shown. rewrite imap_cons. rewrite Nat.add_0_r. f_equal.
  apply imap_ext. intros i q _. unfold compose. by rewrite Nat.add_succ_r.
Qed.

(** The stretch of one page ends at its cursor, and the rest is behind it. *)
Lemma stretch_end c n p a q :
  rest before key c (rows n) = (p ++ [a]) ++ q →
  good (key a) ∧ (∀ j, c = Some j → before j (key a) = true)
  ∧ rest before key (Some (key a)) (rows n) = q
  ∧ (∀ x, x ∈ p ++ [a] → x = a ∨ before (key x) (key a) = true).
Proof using All.
  intros E. rewrite <-app_assoc in E. cbn in E.
  assert (a ∈ rest before key c (rows n)) as [Ha Hc]%elem_of_rest.
  { rewrite E. apply elem_of_app. right. left. }
  pose proof (ordered_rest before key c (rows n) (route_ordered n)) as Ho. rewrite E in Ho.
  split_and!; [by eapply route_good|done| |].
  - rewrite <-(rest_rest before key (key a) c) by done. rewrite E. by apply rest_behind.
  - intros x [Hx| ->%list_elem_of_singleton]%elem_of_app; [right|by left].
    apply StronglySorted_app in Ho as (H12 & _ & _). apply H12; [done|left].
Qed.

(** A walk over changing states delivers rows of increasing keys, each from the
    state that its request met, and misses no key that every state holds and
    keeps. *)
Lemma walk_changing fuel : ∀ n c pages,
  (∀ k, c = Some k → good k) →
  walk request fuel n (encode <$> c) = Some pages →
  ∃ parts, pages = shown parts n
    ∧ ordered before key (concat parts)
    ∧ (∀ a k, a ∈ concat parts → c = Some k → before k (key a) = true)
    ∧ (∀ i p, parts !! i = Some p → ∀ a, a ∈ p → a ∈ rows (n + i) ∧ keep (n + i) a = true)
    ∧ (∀ k, (∀ j, c = Some j → before j k = true) →
         (∀ i, (i < length parts)%nat →
            ∃ a, a ∈ rows (n + i) ∧ key a = k ∧ keep (n + i) a = true) →
         k ∈ key <$> concat parts).
Proof using All.
  induction fuel as [|fuel IH]; [done|]. intros n c pages Hc. cbn [walk].
  destruct (route_page n c Hc) as (p & q & next & E & -> & Hnext).
  cbn [QueryResponse.cursor QueryResponse.data].
  pose proof (ordered_rest before key c (rows n) (route_ordered n)) as Ho.
  assert (∀ x, x ∈ List.filter (keep n) p →
    x ∈ p ∧ x ∈ rows n ∧ keep n x = true ∧ ∀ j, c = Some j → before j (key x) = true) as Hkept.
  { intros x [Hk Hx]%elem_of_filterb. split; [done|].
    assert (x ∈ rest before key c (rows n)) as [? ?]%elem_of_rest; [|done].
    rewrite E. apply elem_of_app. by left. }
  destruct next as [k|]; cbn [fmap option_fmap option_map is_some].
  - destruct Hnext as (p' & a & -> & ->).
    destruct (stretch_end c n p' a q E) as (Hg & Hca & Hrest & Hle).
    destruct (walk request fuel (S n) (Some (encode (key a)))) as [ps|] eqn:Ew; [|done].
    intros [= <-].
    destruct (IH (S n) (Some (key a)) ps) as (parts & -> & Hs & Haft & Hin & Hall).
    { by intros ? [= <-]. }
    { exact Ew. }
    exists (List.filter (keep n) (p' ++ [a]) :: parts). rewrite E in Ho.
    split_and!.
    + by rewrite shown_cons.
    + cbn [concat]. apply StronglySorted_app. split_and!; [| |done].
      * intros x y [Hx _]%Hkept Hy. pose proof (Haft y _ Hy eq_refl) as Hy'.
        destruct (Hle x Hx) as [->|Hxa]; [done|]. by apply (before_trans _ (key a)).
      * apply StronglySorted_app in Ho as (_ & Ho & _).
        eapply StronglySorted_sublist; [apply filter_sublist|exact Ho].
    + intros x j Hx ->. cbn [concat] in Hx. apply elem_of_app in Hx as [Hx|Hx].
      * apply Hkept in Hx as (_ & _ & _ & Hj). by apply Hj.
      * apply (before_trans _ (key a)); [by apply Hca|by apply Haft].
    + intros [|i] r; [intros [= <-] x (_ & Hr & Hk & _)%Hkept; by rewrite Nat.add_0_r|].
      intros Hp x Hx. rewrite Nat.add_succ_r. by eapply (Hin i).
    + intros j Hj Hheld. cbn [concat]. rewrite fmap_app. apply elem_of_app.
      destruct (Hheld 0%nat) as (x & Hx & <- & Hk); [cbn; lia|]. rewrite Nat.add_0_r in Hx, Hk.
      assert (x ∈ (p' ++ [a]) ++ q) as [Hx'|Hx']%elem_of_app.
      { rewrite <-E. by apply elem_of_rest. }
      * left. apply list_elem_of_fmap. exists x. split; [done|]. by apply elem_of_filterb.
      * right. apply Hall.
        { intros ? [= <-]. rewrite <-Hrest in Hx'. apply elem_of_rest in Hx' as [_ Hx'].
          by apply Hx'. }
        intros i Hi. specialize (Hheld (S i)). rewrite Nat.add_succ_r in Hheld.
        apply Hheld. cbn. lia.
  - subst q. rewrite app_nil_r in E. intros [= <-].
    exists [List.filter (keep n) p]. cbn [concat]. rewrite app_nil_r. split_and!.
    + unfold shown. cbn. by rewrite Nat.add_0_r.
    + rewrite E in Ho. eapply StronglySorted_sublist; [apply filter_sublist|exact Ho].
    + intros x k (_ & _ & _ & Hj)%Hkept Hk. by apply Hj.
    + intros [|i] r; [|done]. intros [= <-] x (_ & Hr & Hk & _)%Hkept. by rewrite Nat.add_0_r.
    + intros k Hk Hheld. destruct (Hheld 0%nat) as (x & Hx & <- & Hkx); [cbn; lia|].
      rewrite Nat.add_0_r in Hx, Hkx. apply list_elem_of_fmap. exists x. split; [done|].
      apply elem_of_filterb. split; [done|]. rewrite <-E. by apply elem_of_rest.
Qed.

(** While the node is at rest the walk ends within one request for each row
    and one more, and its pages are the kept rows. *)
Lemma walk_fixed l kp s :
  (∀ n, rows n = l ∧ keep n = kp ∧ show n = s) →
  ∀ fuel n c, (∀ k, c = Some k → good k) →
  (length (rest before key c l) < fuel)%nat →
  ∃ pages, walk request fuel n (encode <$> c) = Some pages
    ∧ concat pages = s <$> List.filter kp (rest before key c l).
Proof using All.
  intros Hfix fuel. induction fuel as [|fuel IH]; [lia|]. intros n c Hc Hlen. cbn [walk].
  destruct (route_page n c Hc) as (p & q & next & E & -> & Hnext).
  cbn [QueryResponse.cursor QueryResponse.data].
  destruct (Hfix n) as (Hr & -> & ->). 
  destruct next as [k|]; cbn [fmap option_fmap option_map is_some].
  - destruct Hnext as (p' & a & -> & ->).
    destruct (stretch_end c n p' a q E) as (Hg & _ & Hrest & _). rewrite Hr in E, Hrest.
    destruct (IH (S n) (Some (key a))) as (pages & Ew & Hcat).
    { by intros ? [= <-]. }
    { rewrite Hrest. rewrite E, !length_app in Hlen. cbn in Hlen. lia. }
    cbn in Ew. rewrite Ew. eexists. split; [done|].
    cbn [concat]. rewrite Hcat, Hrest, E, <-fmap_app, <-List.filter_app. done.
  - subst q. rewrite app_nil_r, Hr in E. eexists. split; [done|].
    cbn [concat]. by rewrite app_nil_r, E.
Qed.
End route.

(** ** Walks from the start of a route *)

Section from_start.
Context {A K T : Type} {before : K → K → bool} {Hbefore : StrictTotal before} {key : A → K}.
Context {encode : K → string} {good : K → Prop}.
Context {request : nat → option string → result ApiError (QueryResponse T)}.
Context {rows : nat → list A} {keep : nat → A → bool} {show : nat → A → T}.
Context (Hroute : ListRoute before key encode good request rows keep show).

(** The walk ends while the node is at rest. *)
Lemma route_walk_ends l kp s :
  (∀ n, rows n = l ∧ keep n = kp ∧ show n = s) →
  ∃ pages, walk request (S (length l)) 0 None = Some pages
    ∧ concat pages = s <$> List.filter kp l.
Proof using Hbefore Hroute.
  intros Hfix. assert (rest before key None l = l) as Hl by by apply filter_all.
  destruct (walk_fixed before key encode good request rows keep show l kp s Hfix
    (S (length l)) 0 None) as (pages & Hw & Hc); [done|rewrite Hl; lia|].
  rewrite Hl in Hc. by exists pages.
Qed.

(** What a walk has read of the states that its requests met. *)
Lemma route_walk_reads fuel pages :
  walk request fuel 0 None = Some pages →
  ∃ parts, pages = imap (λ n part, show n <$> part) parts
    ∧ ordered before key (concat parts)
    ∧ (∀ n part a, parts !! n = Some part → a ∈ part → a ∈ rows n ∧ keep n a = true)
    ∧ (∀ k, (∀ n, (n < length pages)%nat → ∃ a, a ∈ rows n ∧ key a = k ∧ keep n a = true) →
         k ∈ key <$> concat parts).
Proof using Hbefore Hroute.
  intros Hw. destruct (walk_changing before key encode good request rows keep show fuel 0 None pages)
    as (parts & -> & Ho & _ & Hin & Hall); [done|exact Hw|].
  exists parts. split_and!; [done|done| |].
  - intros n part a Hp. by apply (Hin n part).
  - intros k Hk. apply Hall; [done|]. intros n Hn. apply Hk. unfold shown. by rewrite length_imap.
Qed.

(** The same of whole rows: a row that stays as it is, is read. *)
Lemma route_walk_keeps fuel pages :
  walk request fuel 0 None = Some pages →
  ∃ parts, pages = imap (λ n part, show n <$> part) parts
    ∧ NoDup (concat parts)
    ∧ (∀ n part a, parts !! n = Some part → a ∈ part → a ∈ rows n ∧ keep n a = true)
    ∧ (∀ a, (∀ n, (n < length pages)%nat → a ∈ rows n ∧ keep n a = true) → a ∈ concat parts).
Proof using Hbefore Hroute.
  intros Hw. destruct (route_walk_reads fuel pages Hw) as (parts & -> & Ho & Hin & Hall).
  exists parts. split_and!; [done| |done|].
  - by eapply (NoDup_fmap_1 key), (ordered_NoDup before key).
  - intros a Ha.
    assert (key a ∈ key <$> concat parts) as (b & Hb & Hc)%list_elem_of_fmap.
    { apply Hall. intros n Hn. exists a. destruct (Ha n Hn). by split_and!. }
    rewrite length_imap in Ha. pose proof Hc as Hp. apply list_elem_of_In, List.in_concat in Hp.
    destruct Hp as (part & Hp & Hbp). apply list_elem_of_In in Hp, Hbp.
    apply list_elem_of_lookup in Hp as [n Hn].
    destruct (Hin n part b Hn Hbp) as [Hbn _].
    destruct (Ha n) as [Han _]; [by eapply lookup_lt_Some|].
    assert (NoDup (key <$> rows n)) as Hd.
    { destruct Hroute as [Hro _ _]. apply (ordered_NoDup before key), Hro. }
    by rewrite (NoDup_fmap_inj key (rows n) a b Hd Han Hbn Hb).
Qed.
End from_start.
