(* ===== verification/Listings.v ===== *)
(** The list of the GUID changes, the copies of a feed and the list of the
    records with copies (src/query.rs; the differences of a copy, src/db.rs).

    Both lists are read whole, sorted in memory, and paged by the position of
    the first record behind the cursor. *)

From S2P Require Import Prelude.
From S2P Require Import Model.
From S2P Require Import Crates.
From S2P Require Import Store.
From S2P Require Import Tables.
From S2P Require Import RowLists.
From S2P Require Import Catalog.
From S2P Require Import Copies.
From S2P Require Import Sync.
From S2P Require Import Links.
From S2P Require Import Paging.

(** ** Parameters *)

Module ListQuery.
Record ListQuery : Type := mk {
  cursor : option string;
  limit : option Z;
  include : option string;
  medium : option string;
  stated_rel : option string;
  two_way_links : option string;
  from : option string;
  artist_key : option string;
  named_feed_guid : option string
}.
End ListQuery.
Abbreviation ListQuery := ListQuery.ListQuery.

Definition LIST_LIMIT_MAX : Z := 200.
Definition SEARCH_LIMIT_MAX : Z := 100.

(** The [capped_limit] of each query type. *)
Definition capped_limit (limit : option Z) : Z := clamp 1 LIST_LIMIT_MAX (unwrap_or 50 limit).

Definition includes (params : ListQuery) (field : string) : bool :=
  is_some_and (λ s, existsb (λ f, str_trim f =s field) (split_on "," s)) (ListQuery.include params).

(** ** Pages of a list in memory *)

Section in_memory.
Context {A K : Type} (before : K → K → bool) (key : A → K).

(** [position(..).unwrap_or(len)]: the first record behind the cursor. *)
Definition position_behind (k : K) (records : list A) : nat :=
  match list_find (λ r, before k (key r) = true) records with
  | Some (i, _) => i
  | None => length records
  end.

Definition memory_page (encode : K → string) (limit : nat) (start : nat) (records : list A) :
    QueryResponse A :=
  let remaining := drop (start `min` length records) records in
  let has_more := (limit <? length remaining)%nat in
  let page := take limit remaining in
  let next_cursor := if has_more then (encode ∘ key) <$> last page else None in
  QueryResponse.mk page next_cursor has_more.
End in_memory.

(** The order of both lists: a descending pair. *)
Definition newest_key_first : Z * string → Z * string → bool :=
  descending (pair_lt Z.ltb String.ltb).

Definition pair_geb (a b : Z * string) : bool := negb (newest_key_first b a).

(** ** GUID changes (ADR 0052 section 4) *)

Module GuidChangeResponse.
Record GuidChangeResponse : Type := mk {
  source_url : string;
  old_guid : string;
  new_guid : string;
  first_seen : Z;
  last_seen : option Z;
  decision : option string
}.
End GuidChangeResponse.
Abbreviation GuidChangeResponse := GuidChangeResponse.GuidChangeResponse.

Definition guid_change_response (row : GuidChangeRow) : GuidChangeResponse :=
  GuidChangeResponse.mk (GuidChangeRow.source_url row) (GuidChangeRow.old_guid row)
    (GuidChangeRow.new_guid row) (GuidChangeRow.first_seen row) (GuidChangeRow.last_seen row)
    (GuidChangeRow.decision row).

Definition guid_change_sort_key (row : GuidChangeResponse) : Z * string :=
  (GuidChangeResponse.first_seen row, GuidChangeResponse.source_url row).

Definition list_guid_changes (db : Db) : list GuidChangeRow :=
  sort_by (λ a b, GuidChangeRow.first_seen b <=? GuidChangeRow.first_seen a)
    (List.filter (λ r, is_none_or (λ d, d ≠s "reject") (GuidChangeRow.decision r))
       (snd <$> map_to_list (feed_guid_changes db))).

Definition guid_change_records (db : Db) : list GuidChangeResponse :=
  sort_by (λ a b, pair_geb (guid_change_sort_key a) (guid_change_sort_key b))
    (guid_change_response <$> list_guid_changes db).

(** ** The differences of a copy (ADR 0058 section 2) *)

(** The rows of a query, which does not fail. *)
Definition rows_of {A} (query : DB (list A)) (db : Db) : list A :=
  match (query db).2 with Ok rows => rows | Err _ => [] end.

Definition CopyEntryKey : Type :=
  option string * option string * option string * option string.

Definition copy_entry_key (db : Db) (feed_guid : string) (feed_url item_guid : option string) :
    CopyEntryKey :=
  match resolution_feed_guid (resolve_listed_feed db feed_guid feed_url) with
  | Some resolved => (Some resolved, None, None, item_guid)
  | None => (None, Some feed_guid, feed_url, item_guid)
  end.

(** Equality of two [HashSet]s. *)
Definition same_set {A} `{EqDecision A} (a b : list A) : bool :=
  forallb (λ x, bool_decide (x ∈ b)) a && forallb (λ x, bool_decide (x ∈ a)) b.

Definition copy_differences (db : Db) (feed_guid : string) (row : FeedCopyRow) :
    bool * bool * bool :=
  let tracks := rows_of (get_tracks_for_feed feed_guid) db in
  let differs_tracks :=
    negb (same_set (Track.track_guid <$> tracks) (FeedCopyRow.item_guids row)) in
  let current_feed_recipients :=
    feed_recipient_set (rows_of (get_feed_payment_routes_for_feed feed_guid) db) in
  let track_differs (track : Track) :=
    match FeedCopyRow.track_recipients row !! Track.track_guid track with
    | None => false
    | Some row_recipients =>
        negb (recipient_sets_equal
          (recipient_set (rows_of
             (get_payment_routes_for_feed_track feed_guid (Track.track_guid track)) db))
          row_recipients)
    end in
  let differs_recipients :=
    negb (recipient_sets_equal current_feed_recipients (FeedCopyRow.feed_recipients row))
    || existsb track_differs tracks in
  let differs_remote_items :=
    match FeedCopyRow.remote_items row with
    | None => false
    | Some row_items =>
        negb (same_set
          ((λ item, copy_entry_key db (FeedRemoteItemRaw.remote_feed_guid item)
                      (FeedRemoteItemRaw.remote_feed_url item)
                      (FeedRemoteItemRaw.remote_item_guid item)) <$> remote_items db feed_guid)
          ((λ item, copy_entry_key db (CopyRemoteItem.feed_guid item)
                      (CopyRemoteItem.feed_url item) (CopyRemoteItem.item_guid item)) <$> row_items))
    end in
  (differs_tracks, differs_recipients, differs_remote_items).

Definition is_open (db : Db) (feed_guid : string) (row : FeedCopyRow) : bool :=
  let '(differs_tracks, differs_recipients, differs_remote_items) :=
    copy_differences db feed_guid row in
  is_open_copy differs_tracks differs_recipients differs_remote_items row.

(** The loop of [open_copy_summary]. *)
Definition open_copy_step (db : Db) (feed_guid : string) (s : Z * option Z) (row : FeedCopyRow) :
    Z * option Z :=
  let '(count, newest_first_seen) := s in
  if is_open db feed_guid row then
    (count + 1,
     Some match newest_first_seen with
          | None => FeedCopyRow.first_seen row
          | Some seen => Z.max seen (FeedCopyRow.first_seen row)
          end)
  else s.

Definition open_copy_summary (db : Db) (feed_guid : string) : Z * option Z :=
  match copies_of feed_guid db with
  | [] => (0, None)
  | _ => foldl (open_copy_step db feed_guid) (0, None) (rows_of (list_feed_copies feed_guid) db)
  end.

(** ** The copies of one feed *)

Module FeedCopyResolutionResponse.
Record FeedCopyResolutionResponse : Type := mk {
  decision : string;
  reason : string;
  resolved_at : Z;
  current : bool
}.
End FeedCopyResolutionResponse.
Abbreviation FeedCopyResolutionResponse := FeedCopyResolutionResponse.FeedCopyResolutionResponse.

Module CopyRemoteItemResponse.
Record CopyRemoteItemResponse : Type := mk {
  medium : option string;
  feed_guid : string;
  feed_url : option string;
  item_guid : option string;
  resolved_feed_guid : option string;
  summary : NamedFeedSummary
}.
End CopyRemoteItemResponse.
Abbreviation CopyRemoteItemResponse := CopyRemoteItemResponse.CopyRemoteItemResponse.

Module FeedCopyResponse.
Record FeedCopyResponse : Type := mk {
  url : string;
  first_seen : Z;
  last_seen : option Z;
  title : string;
  item_guids : list string;
  item_titles : option (list (option string));
  image_url : option string;
  item_durations : option (list (option Z));
  item_enclosure_urls : option (list (option string));
  item_pub_dates : option (list (option Z));
  author : option string;
  differs_tracks : bool;
  differs_recipients : bool;
  differs_remote_items : bool;
  guid_origin : bool;
  open : bool;
  feed_recipients : list RouteRecipient;
  track_recipients : gmap string (list RouteRecipient);
  remote_items : option (list CopyRemoteItemResponse);
  resolution : option FeedCopyResolutionResponse
}.
End FeedCopyResponse.
Abbreviation FeedCopyResponse := FeedCopyResponse.FeedCopyResponse.

(** One item of [GET /v1/copies]. *)
Module CopyRecordResponse.
Record CopyRecordResponse : Type := mk {
  feed_guid : string;
  feed_url : string;
  title : string;
  feed_image_url : option string;
  copy_count : Z;
  copies_over_limit : Z;
  newest_first_seen : option Z
}.
End CopyRecordResponse.
Abbreviation CopyRecordResponse := CopyRecordResponse.CopyRecordResponse.

Definition copy_record_sort_key (record : CopyRecordResponse) : Z * string :=
  (unwrap_or (-1) (CopyRecordResponse.newest_first_seen record),
   CopyRecordResponse.feed_guid record).

(** [SELECT DISTINCT feed_guid FROM feed_copies]. *)
Definition list_feed_copy_guids (db : Db) : list string :=
  dedupe_by id ((fst ∘ fst) <$> map_to_list (feed_copies db)).

Section copies.
Context `{Web}.

Definition copy_remote_item_response (db : Db) (item : CopyRemoteItem) : CopyRemoteItemResponse :=
  let resolved := resolution_feed_guid
    (resolve_listed_feed db (CopyRemoteItem.feed_guid item) (CopyRemoteItem.feed_url item)) in
  CopyRemoteItemResponse.mk (CopyRemoteItem.medium item) (CopyRemoteItem.feed_guid item)
    (web_url_or_none (CopyRemoteItem.feed_url item)) (CopyRemoteItem.item_guid item) resolved
    (named_feed_summary db resolved).

Definition build_feed_copy_response (db : Db) (feed_guid : string) (row : FeedCopyRow) :
    FeedCopyResponse :=
  let '(differs_tracks, differs_recipients, differs_remote_items) :=
    copy_differences db feed_guid row in
  let open := is_open_copy differs_tracks differs_recipients differs_remote_items row in
  let current := copy_resolution_holds row in
  FeedCopyResponse.mk (FeedCopyRow.url row) (FeedCopyRow.first_seen row)
    (FeedCopyRow.last_seen row) (FeedCopyRow.title row) (FeedCopyRow.item_guids row)
    (FeedCopyRow.item_titles row) (web_url_or_none (FeedCopyRow.image_url row))
    (FeedCopyRow.item_durations row)
    ((λ urls : list (option string), web_url_or_none <$> urls) <$> FeedCopyRow.item_enclosure_urls row)
    (FeedCopyRow.item_pub_dates row) (FeedCopyRow.author row)
    differs_tracks differs_recipients differs_remote_items
    (guid_origin_matches feed_guid (FeedCopyRow.url row)) open
    (FeedCopyRow.feed_recipients row) (FeedCopyRow.track_recipients row)
    ((λ items : list CopyRemoteItem, copy_remote_item_response db <$> items) <$> FeedCopyRow.remote_items row)
    ((λ decision, FeedCopyResolutionResponse.mk decision
        (unwrap_or ""%string (FeedCopyRow.resolution_reason row))
        (unwrap_or 0 (FeedCopyRow.resolved_at row)) current) <$> FeedCopyRow.resolution row).

(** The rows and [copies_over_limit]. *)
Definition handle_get_feed_copies (db : Db) (feed_guid : string) :
    result ApiError (list FeedCopyResponse * Z) :=
  if negb (feed_exists db feed_guid) then Err (ApiError.mk 404 "feed not found")
  else
    Ok (build_feed_copy_response db feed_guid <$> rows_of (list_feed_copies feed_guid) db,
        unwrap_or 0 (feed_copy_overflow db !! feed_guid)).

(** ** The records with copies *)

Definition copy_record (db : Db) (feed_guid : string) : option CopyRecordResponse :=
  let '(copy_count, newest_first_seen) := open_copy_summary db feed_guid in
  let copies_over_limit := unwrap_or 0 (feed_copy_overflow db !! feed_guid) in
  if (copy_count =? 0) && (copies_over_limit =? 0) then None
  else
    feed ← get_feed db feed_guid;
    Some (CopyRecordResponse.mk feed_guid (Feed.feed_url feed) (Feed.title feed)
      (web_url_or_none (Feed.image_url feed)) copy_count copies_over_limit newest_first_seen).

Definition copy_records (db : Db) : list CopyRecordResponse :=
  sort_by (λ a b, pair_geb (copy_record_sort_key a) (copy_record_sort_key b))
    (omap (copy_record db) (list_feed_copy_guids db)).

Context `{Base64}.

(** The two list handlers share their page. *)
Definition list_page {A} (key : A → Z * string) (params : ListQuery) (records : list A) :
    result ApiError (QueryResponse A) :=
  let limit := Z.min (capped_limit (ListQuery.limit params)) SEARCH_LIMIT_MAX in
  let? start :=
    match ListQuery.cursor params with
    | Some cursor_str =>
        let? cursor := parse_recent_cursor cursor_str in
        Ok (position_behind newest_key_first key cursor records)
    | None => Ok O
    end in
  Ok (memory_page key encode_ts_cursor (Z.to_nat limit) start records).

Definition handle_list_copy_records (db : Db) (params : ListQuery) :
    result ApiError (QueryResponse CopyRecordResponse) :=
  list_page copy_record_sort_key params (copy_records db).

Definition handle_list_guid_changes (db : Db) (params : ListQuery) :
    result ApiError (QueryResponse GuidChangeResponse) :=
  list_page guid_change_sort_key params (guid_change_records db).
End copies.
