(* ===== verification/FeedIndex.v ===== *)
(** The feed lists (src/query.rs): the recent feeds, the feeds by name, and
    the artist names with their copy in memory.

    The two feed lists are queries with a keyset condition and a [LIMIT]; the
    filters on link facts are applied to the rows of one batch after another. *)

From S2P Require Import Prelude.
From S2P Require Import Model.
From S2P Require Import Medium.
From S2P Require Import Crates.
From S2P Require Import Store.
From S2P Require Import Tables.
From S2P Require Import Catalog.
From S2P Require Import Links.
From S2P Require Import Paging.
From S2P Require Import Listings.

(** ** Rows *)

Module PendingGuidChangeResponse.
Record PendingGuidChangeResponse : Type := mk {
  new_guid : string;
  first_seen : Z;
  last_seen : option Z;
  decision : option string
}.
End PendingGuidChangeResponse.
Abbreviation PendingGuidChangeResponse := PendingGuidChangeResponse.PendingGuidChangeResponse.

Definition pending_guid_change_response (row : GuidChangeRow) : PendingGuidChangeResponse :=
  PendingGuidChangeResponse.mk (GuidChangeRow.new_guid row) (GuidChangeRow.first_seen row)
    (GuidChangeRow.last_seen row) (GuidChangeRow.decision row).

(** [JOIN feeds f ON f.feed_url = c.source_url WHERE f.feed_guid = ?1]. *)
Definition get_pending_guid_change_for_feed (db : Db) (feed_guid : string) :
    option GuidChangeRow :=
  feed ← get_feed db feed_guid;
  feed_guid_changes db !! Feed.feed_url feed.

(** The fields of [FeedResponse] that a row of a list can set; the others are
    [None]. The columns of the row are those of [feed]. *)
Module FeedListItem.
Record FeedListItem : Type := mk {
  feed : Feed;
  image_url : option string;
  publisher_feed_title : option string;
  publisher_feed_guid : option string;
  confirmed_release_artists : option (list string);
  two_way_link_count : option Z;
  stated_rels : option (list string);
  agreed_roles : option (list string);
  first_named_count : option Z;
  copy_count : Z;
  named_feeds : option (list NamedFeedEntry);
  pending_guid_change : option PendingGuidChangeResponse;
  sort_name : option string
}.
End FeedListItem.
Abbreviation FeedListItem := FeedListItem.FeedListItem.

(** [?1 = 'all' OR lower(raw_medium) = ?1]: [lower] of [NULL] is [NULL]. *)
Definition of_medium (medium : string) (f : Feed) : bool :=
  (medium =s "all") || is_some_and (λ m, to_ascii_lowercase m =s medium) (Feed.raw_medium f).

(** [?n IS NULL OR feed_guid IN (..)]. *)
Definition in_guids (only_guids : option (list string)) (f : Feed) : bool :=
  is_none_or (λ guids, bool_decide (Feed.feed_guid f ∈ guids)) only_guids.

Definition recent_key (f : Feed) : Z * string :=
  (unwrap_or (-1) (Feed.newest_item_at f), Feed.feed_guid f).

(** The rows of the query, without [LIMIT]. *)
Definition recent_feeds (db : Db) (medium : string) (only_guids : option (list string)) : list Feed :=
  sort_by (λ a b, pair_geb (recent_key a) (recent_key b))
    (List.filter (λ f, of_medium medium f && in_guids only_guids f) (all_feeds db)).

Definition recent_feed_rows (db : Db) (medium : string) (after : option (Z * string))
    (only_guids : option (list string)) (count : nat) : list Feed :=
  take count (rest newest_key_first recent_key after (recent_feeds db medium only_guids)).

(** ** Filters on link facts (ADR 0068 section 4) *)

Definition LINK_FACT_FILTER_SCAN_MAX : nat := 1000.
Definition LINK_FACT_FILTER_BATCH : nat := 200.

Module LinkFactFilter.
Record LinkFactFilter : Type := mk {
  stated_rel : option string;
  no_two_way_links : bool
}.
End LinkFactFilter.
Abbreviation LinkFactFilter := LinkFactFilter.LinkFactFilter.

Definition filter_from_params (params : ListQuery) (medium : string) :
    result ApiError (option LinkFactFilter) :=
  if negb (is_some (ListQuery.stated_rel params))
     && negb (is_some (ListQuery.two_way_links params)) then Ok None
  else if medium ≠s "publisher" then
    bad_request "stated_rel and two_way_links need medium=publisher (ADR 0068 section 4)"
  else if is_some_and str_is_empty (ListQuery.stated_rel params) then
    bad_request "stated_rel must not be empty"
  else
    let? no_two_way_links :=
      match ListQuery.two_way_links params with
      | None => Ok false
      | Some v => if v =s "none" then Ok true else bad_request "two_way_links accepts only none"
      end in
    let? stated_rel :=
      match rel_tokens <$> ListQuery.stated_rel params with
      | None => Ok None
      | Some [token] => Ok (Some token)
      | Some _ => bad_request "stated_rel must be one role token"
      end in
    Ok (Some (LinkFactFilter.mk stated_rel no_two_way_links)).

Definition filter_keeps (filter : LinkFactFilter) (facts : LinkFacts) : bool :=
  is_none_or (λ rel, existsb (λ stated, stated =s rel) (LinkFacts.stated_rels facts))
    (LinkFactFilter.stated_rel filter)
  && (negb (LinkFactFilter.no_two_way_links filter) || (LinkFacts.two_way_link_count facts =? 0)).

Definition check_named_feed_guid (params : ListQuery) (medium : string) : result ApiError unit :=
  if negb (is_some (ListQuery.named_feed_guid params)) then Ok tt
  else if medium ≠s "music" then
    bad_request "named_feed_guid needs medium=music (ADR 0076 section 2)"
  else if is_some (ListQuery.artist_key params) then
    bad_request "named_feed_guid conflicts with artist_key (ADR 0076 section 2)"
  else Ok tt.

(** The variables of the loop of [filtered_recent_rows]. *)
Module Scan.
Record Scan : Type := mk {
  kept : list Feed;
  examined : nat;
  after : option (Z * string)
}.
End Scan.
Abbreviation Scan := Scan.Scan.

(** What the loop returns: the kept rows, [has_more], the next position. *)
Definition Scanned : Type := list Feed * bool * option (Z * string).

(** A row of the artist names; the five fields of the link facts are there
    together or not at all. *)
Module ArtistNameRow.
Record ArtistNameRow : Type := mk {
  kind : string;
  name : string;
  sort_name : string;
  key : string;
  feed_guid : option string;
  image_url : option string;
  release_count : option Z;
  facts : option LinkFacts
}.
End ArtistNameRow.
Abbreviation ArtistNameRow := ArtistNameRow.ArtistNameRow.

Module ArtistNameList.
Record ArtistNameList : Type := mk {
  rows : list ArtistNameRow;
  name_releases : gmap string (list string)
}.
End ArtistNameList.
Abbreviation ArtistNameList := ArtistNameList.ArtistNameList.

Module ArtistNameCacheEntry.
Record ArtistNameCacheEntry : Type := mk {
  names : ArtistNameList;
  seq_at_build : Z;
  built_at : Z
}.
End ArtistNameCacheEntry.
Abbreviation ArtistNameCacheEntry := ArtistNameCacheEntry.ArtistNameCacheEntry.

(** One release of the name level: its key, its GUID and its raw artist. *)
Module NamedRelease.
Record NamedRelease : Type := mk { key : string; feed_guid : string; raw_artist : string }.
End NamedRelease.
Abbreviation NamedRelease := NamedRelease.NamedRelease.

Section lists.
Context `{Crates} `{Web} `{Base64}.

Definition keeps_feed (db : Db) (filter : LinkFactFilter) (f : Feed) : bool :=
  filter_keeps filter (link_facts (load_publisher db (Feed.feed_guid f))).

(** The rows of one batch. [inl]: the loop returns. *)
Fixpoint scan_batch (db : Db) (limit : nat) (filter : LinkFactFilter) (batch : list Feed)
    (s : Scan) : Scanned + Scan :=
  match batch with
  | [] => inr s
  | row :: batch =>
      let examined := S (Scan.examined s) in
      let after := Some (recent_key row) in
      let keep := keeps_feed db filter row in
      let kept := if keep then Scan.kept s ++ [row] else Scan.kept s in
      if keep && (limit <? length kept)%nat then
        let kept := take limit kept in
        inl (kept, true, recent_key <$> last kept)
      else if (LINK_FACT_FILTER_SCAN_MAX <=? examined)%nat then inl (kept, true, after)
      else scan_batch db limit filter batch (Scan.mk kept examined after)
  end.

(** [fuel] bounds the batches; see [scan_fuel]. *)
Fixpoint scan_loop (fuel : nat) (db : Db) (medium : string) (limit : nat)
    (filter : LinkFactFilter) (s : Scan) : Scanned :=
  match fuel with
  | O => (Scan.kept s, false, None)
  | S fuel =>
      let batch := recent_feed_rows db medium (Scan.after s) None LINK_FACT_FILTER_BATCH in
      let at_end := (length batch <? LINK_FACT_FILTER_BATCH)%nat in
      match scan_batch db limit filter batch s with
      | inl r => r
      | inr s =>
          if at_end then (Scan.kept s, false, None)
          else scan_loop fuel db medium limit filter s
      end
  end.

(** A batch is full or the last, and [LINK_FACT_FILTER_SCAN_MAX] rows are
    five full batches. *)
Definition scan_fuel : nat := 6.

Definition filtered_recent_rows (db : Db) (medium : string) (after : option (Z * string))
    (limit : nat) (filter : LinkFactFilter) : Scanned :=
  scan_loop scan_fuel db medium limit filter (Scan.mk [] 0 after).

(** ** The two feed lists *)

Definition feed_list_row_to_response (db : Db) (r : Feed)
    (include_link_facts include_named_feeds : bool) : FeedListItem :=
  let publisher_feed := resolve_publisher_feed db (Feed.feed_guid r) in
  let copy_count := (open_copy_summary db (Feed.feed_guid r)).1 in
  let pending := pending_guid_change_response
    <$> get_pending_guid_change_for_feed db (Feed.feed_guid r) in
  let rows := load_publisher db (Feed.feed_guid r) in
  let named_feeds :=
    if include_named_feeds && is_music (Feed.raw_medium r)
    then Some (named_feed_entries rows) else None in
  let facts :=
    if include_link_facts && is_publisher (Feed.raw_medium r)
    then Some (link_facts rows) else None in
  FeedListItem.mk r (web_url_or_none (Feed.image_url r))
    (snd <$> publisher_feed) (fst <$> publisher_feed)
    (LinkFacts.confirmed_release_artists <$> facts) (LinkFacts.two_way_link_count <$> facts)
    (LinkFacts.stated_rels <$> facts) (LinkFacts.agreed_roles <$> facts)
    (LinkFacts.first_named_count <$> facts) copy_count named_feeds pending None.

(** The [medium] of a request. *)
Definition request_medium (params : ListQuery) : string :=
  to_lowercase (unwrap_or "music"%string (ListQuery.medium params)).

(** [Option::map(..).transpose()]. *)
Definition opt_parse {T} (parse : string → result ApiError T) (cursor : option string) :
    result ApiError (option T) :=
  match cursor with
  | None => Ok None
  | Some c => let? t := parse c in Ok (Some t)
  end.

Definition handle_get_recent_feeds (db : Db) (params : ListQuery) :
    result ApiError (QueryResponse FeedListItem) :=
  let limit := Z.to_nat (capped_limit (ListQuery.limit params)) in
  let medium := request_medium params in
  let? _ := check_named_feed_guid params medium in
  let only_guids := get_feeds_naming_feed db <$> ListQuery.named_feed_guid params in
  let? filter := filter_from_params params medium in
  let? after := opt_parse parse_recent_cursor (ListQuery.cursor params) in
  let '(items, has_more, next_after) :=
    match filter with
    | Some filter => filtered_recent_rows db medium after limit filter
    | None =>
        let rows := recent_feed_rows db medium after only_guids (limit + 1) in
        let has_more := (limit <? length rows)%nat in
        let items := take limit rows in
        (items, has_more, recent_key <$> last items)
    end in
  let next_cursor := if has_more then encode_ts_cursor <$> next_after else None in
  let include_link_facts := includes params "link_facts" || is_some filter in
  Ok (QueryResponse.mk
    ((λ r, feed_list_row_to_response db r include_link_facts (includes params "named_feeds"))
     <$> items) next_cursor has_more).

(** The stored [title_sort] is the sort key of the title. *)
Definition title_sort (f : Feed) : string := sort_key (Feed.title f).

Definition name_key (f : Feed) : string * string := (title_sort f, Feed.feed_guid f).

Definition name_first : string * string → string * string → bool := pair_lt String.ltb String.ltb.

Definition named_feeds (db : Db) (medium : string) (only_guids : option (list string)) : list Feed :=
  sort_by (λ a b, negb (name_first (name_key b) (name_key a)))
    (List.filter (λ f, of_medium medium f && in_guids only_guids f) (all_feeds db)).

Definition by_name_feed_rows (db : Db) (medium : string) (after : option (string * string))
    (from_floor : option string) (only_guids : option (list string)) (count : nat) : list Feed :=
  take count (List.filter (λ f, is_none_or (λ floor, String.leb floor (title_sort f)) from_floor)
    (rest name_first name_key after (named_feeds db medium only_guids))).

(** ** Artist names (ADR 0070) *)

Definition publisher_feed_rows (db : Db) : list Feed :=
  List.filter (λ f, is_some_and (λ m, to_ascii_lowercase m =s "publisher") (Feed.raw_medium f))
    (all_feeds db).

(** The GUID and the artist of each. *)
Definition music_feed_artist_rows (db : Db) : list (string * string) :=
  omap (λ f, (λ artist, (Feed.feed_guid f, artist)) <$> Feed.release_artist f)
    (List.filter (λ f, is_some_and (λ m, to_ascii_lowercase m =s "music") (Feed.raw_medium f))
       (all_feeds db)).

Definition publisher_name_row (db : Db) (f : Feed) : ArtistNameRow :=
  ArtistNameRow.mk "publisher" (Feed.title f) (sort_key (Feed.title f)) (Feed.feed_guid f)
    (Some (Feed.feed_guid f)) (web_url_or_none (Feed.image_url f)) None
    (Some (link_facts (load_publisher db (Feed.feed_guid f)))).

Definition named_releases (db : Db) : list NamedRelease :=
  omap (λ '(feed_guid, raw_artist),
      if str_is_empty (str_trim raw_artist) then None
      else if negb (is_name_level_release (load_publisher db feed_guid)) then None
      else Some (NamedRelease.mk (sort_key raw_artist) feed_guid raw_artist))
    (music_feed_artist_rows db).

(** The releases of one key. *)
Definition group_of (releases : list NamedRelease) (key : string) : list NamedRelease :=
  List.filter (λ r, NamedRelease.key r =s key) releases.

(** [ArtistNameGroup::name], over the counts in the order of the texts. *)
Definition group_step (raws : list string) (best : option (string * Z)) (raw : string) :
    option (string * Z) :=
  let count := i64_len (List.filter (String.eqb raw) raws) in
  match best with
  | Some (_, best_count) => if count <=? best_count then best else Some (raw, count)
  | None => Some (raw, count)
  end.

Definition group_name (raws : list string) : string :=
  match foldl (group_step raws) None (string_set raws) with
  | Some (raw, _) => raw
  | None => ""
  end.

Definition group_row (releases : list NamedRelease) (key : string) : ArtistNameRow :=
  let group := group_of releases key in
  ArtistNameRow.mk "name" (group_name (NamedRelease.raw_artist <$> group)) key key None None
    (Some (i64_len group)) None.

Definition artist_name_key (r : ArtistNameRow) : string * string * string :=
  (ArtistNameRow.sort_name r, ArtistNameRow.kind r, ArtistNameRow.key r).

Definition artist_name_first : string * string * string → string * string * string → bool :=
  pair_lt (pair_lt String.ltb String.ltb) String.ltb.

Definition build_artist_name_list (db : Db) : ArtistNameList :=
  let releases := named_releases db in
  let keys := string_set (NamedRelease.key <$> releases) in
  ArtistNameList.mk
    (sort_by (λ a b, negb (artist_name_first (artist_name_key b) (artist_name_key a)))
       ((publisher_name_row db <$> publisher_feed_rows db) ++ (group_row releases <$> keys)))
    (list_to_map ((λ key, (key, NamedRelease.feed_guid <$> group_of releases key)) <$> keys)).

(** [SELECT COALESCE(MAX(seq), 0) FROM events]. *)
Definition current_event_seq (db : Db) : Z :=
  match LogRow.seq <$> events db with
  | [] => 0
  | q :: qs => foldl Z.max q qs
  end.

Definition ARTIST_NAME_CACHE_MIN_REBUILD_INTERVAL : Z := 30.

(** [ArtistNameCache::get_or_build], at a reading of the clock; the copy after
    the call and the list. *)
Definition get_or_build (interval now : Z) (db : Db) (cache : option ArtistNameCacheEntry) :
    option ArtistNameCacheEntry * ArtistNameList :=
  let current_seq := current_event_seq db in
  let build :=
    let names := build_artist_name_list db in
    (Some (ArtistNameCacheEntry.mk names current_seq now), names) in
  match cache with
  | Some entry =>
      let same_seq := ArtistNameCacheEntry.seq_at_build entry =? current_seq in
      let recent_build := now - ArtistNameCacheEntry.built_at entry <? interval in
      if same_seq || recent_build then (cache, ArtistNameCacheEntry.names entry) else build
  | None => build
  end.

(** [<[T]>::partition_point] of a slice that the predicate splits: the rows of
    the first part. *)
Fixpoint partition_point {A} (pred : A → bool) (l : list A) : nat :=
  match l with
  | [] => O
  | x :: l => if pred x then S (partition_point pred l) else O
  end.

Definition without_link_facts (r : ArtistNameRow) : ArtistNameRow :=
  ArtistNameRow.mk (ArtistNameRow.kind r) (ArtistNameRow.name r) (ArtistNameRow.sort_name r)
    (ArtistNameRow.key r) (ArtistNameRow.feed_guid r) (ArtistNameRow.image_url r)
    (ArtistNameRow.release_count r) None.

Definition artist_names_start (params : ListQuery) (cursor_after : option (string * string * string))
    (all_rows : list ArtistNameRow) : nat :=
  match cursor_after with
  | Some k => partition_point (λ r, negb (artist_name_first k (artist_name_key r))) all_rows
  | None =>
      match sort_key <$> ListQuery.from params with
      | Some from => partition_point (λ r, String.ltb (ArtistNameRow.sort_name r) from) all_rows
      | None => O
      end
  end.

(** The body of [handle_get_artist_names] after the read of the copy. *)
Definition artist_names_page (list : ArtistNameList) (params : ListQuery) :
    result ApiError (QueryResponse ArtistNameRow) :=
  let limit := Z.to_nat (capped_limit (ListQuery.limit params)) in
  let all_rows := ArtistNameList.rows list in
  let? cursor_after := opt_parse parse_artist_names_cursor (ListQuery.cursor params) in
  let start := artist_names_start params cursor_after all_rows in
  let has_more := (limit <? length all_rows - start)%nat in
  let page := (λ row, if includes params "link_facts" then row else without_link_facts row)
                <$> take limit (drop start all_rows) in
  let next_cursor :=
    if has_more then (encode_names_cursor ∘ artist_name_key) <$> last page else None in
  Ok (QueryResponse.mk page next_cursor has_more).

Definition handle_get_artist_names (now : Z) (db : Db) (cache : option ArtistNameCacheEntry)
    (params : ListQuery) :
    option ArtistNameCacheEntry * result ApiError (QueryResponse ArtistNameRow) :=
  let '(cache, list) := get_or_build ARTIST_NAME_CACHE_MIN_REBUILD_INTERVAL now db cache in
  (cache, artist_names_page list params).

(** ** Feeds by name (ADR 0070 section 2) *)

(** The set of [artist_key] or of [named_feed_guid]; the check of both comes
    first. The copy of the names is read only for [artist_key]. *)
Definition by_name_guids (now : Z) (db : Db) (cache : option ArtistNameCacheEntry)
    (params : ListQuery) (medium : string) :
    option ArtistNameCacheEntry * result ApiError (option (list string)) :=
  match ListQuery.named_feed_guid params, ListQuery.artist_key params with
  | Some guid, _ => (cache, Ok (Some (get_feeds_naming_feed db guid)))
  | None, None => (cache, Ok None)
  | None, Some key =>
      if medium ≠s "music" then (cache, bad_request "artist_key needs medium=music")
      else
        let '(cache, list) := get_or_build ARTIST_NAME_CACHE_MIN_REBUILD_INTERVAL now db cache in
        (cache, Ok (Some (unwrap_or [] (ArtistNameList.name_releases list !! key))))
  end.

Definition with_sort_name (f : Feed) (item : FeedListItem) : FeedListItem :=
  FeedListItem.mk (FeedListItem.feed item) (FeedListItem.image_url item)
    (FeedListItem.publisher_feed_title item) (FeedListItem.publisher_feed_guid item)
    (FeedListItem.confirmed_release_artists item) (FeedListItem.two_way_link_count item)
    (FeedListItem.stated_rels item) (FeedListItem.agreed_roles item)
    (FeedListItem.first_named_count item) (FeedListItem.copy_count item)
    (FeedListItem.named_feeds item) (FeedListItem.pending_guid_change item)
    (Some (title_sort f)).

Definition handle_get_feeds_by_name (now : Z) (db : Db) (cache : option ArtistNameCacheEntry)
    (params : ListQuery) :
    option ArtistNameCacheEntry * result ApiError (QueryResponse FeedListItem) :=
  let limit := Z.to_nat (capped_limit (ListQuery.limit params)) in
  let medium := request_medium params in
  match opt_parse parse_by_name_cursor (ListQuery.cursor params) with
  | Err e => (cache, Err e)
  | Ok cursor_after =>
      let from_floor :=
        if is_some cursor_after then None else sort_key <$> ListQuery.from params in
      match check_named_feed_guid params medium with
      | Err e => (cache, Err e)
      | Ok _ =>
          let '(cache, only_guids) := by_name_guids now db cache params medium in
          (cache,
           let? only_guids := only_guids in
           let rows := by_name_feed_rows db medium cursor_after from_floor only_guids (limit + 1) in
           let has_more := (limit <? length rows)%nat in
           let rows := take limit rows in
           let next_cursor :=
             if has_more then (encode_pair_cursor ∘ name_key) <$> last rows else None in
           Ok (QueryResponse.mk
             ((λ r, with_sort_name r (feed_list_row_to_response db r
                 (includes params "link_facts") (includes params "named_feeds"))) <$> rows)
             next_cursor has_more))
      end
  end.
End lists.
