(* ===== verification/LiveList.v ===== *)
(** The live items of a feed and the list of them (src/query.rs, ADR 0064),
    and the link rule of a read (src/model.rs, ADR 0054 section 4a). *)

From S2P Require Import Prelude.
From S2P Require Import Model.
From S2P Require Import Crates.
From S2P Require Import Live.
From S2P Require Import Store.
From S2P Require Import RowLists.
From S2P Require Import Links.
From S2P Require Import Paging.
From S2P Require Import Listings.

(** ** Links of a read *)

Definition is_ascii_alphabetic (a : ascii) : bool := in_range 65 90 a || in_range 97 122 a.
Definition is_ascii_alphanumeric (a : ascii) : bool := is_ascii_alphabetic a || in_range 48 57 a.
Definition is_char (c a : ascii) : bool := Ascii.eqb c a.

Fixpoint scheme_tail (s : string) : bool :=
  match s with
  | EmptyString => false
  | String c r =>
      if is_char ":" c then true
      else if is_ascii_alphanumeric c || is_char "+" c || is_char "-" c || is_char "." c
      then scheme_tail r else false
  end.

Definition starts_with_uri_scheme (s : string) : bool :=
  match s with
  | EmptyString => false
  | String c r => if negb (is_ascii_alphabetic c) then false else scheme_tail r
  end.

Definition first_char (s : string) : option ascii := head (String.list_ascii_of_string s).
Definition last_char (s : string) : option ascii := last (String.list_ascii_of_string s).

Definition is_host_name_label (label : string) : bool :=
  let len := length (chars label) in
  (1 <=? len)%nat && (len <=? 63)%nat
  && forallb (λ c, is_ascii_alphanumeric c || is_char "-" c) (String.list_ascii_of_string label)
  && (first_char label != Some "-"%char) && (last_char label != Some "-"%char).

Definition is_host_name (candidate : string) : bool :=
  let labels := split_on "." candidate in
  match last labels with
  | None => false
  | Some final =>
      (2 <=? length labels)%nat && forallb is_host_name_label labels
      && (2 <=? String.length final)%nat
      && forallb is_ascii_alphabetic (String.list_ascii_of_string final)
  end.

(** The text before the first [/], [?] or [#]. *)
Fixpoint host_candidate (s : string) : string :=
  match s with
  | EmptyString => ""
  | String c r =>
      if is_char "/" c || is_char "?" c || is_char "#" c then "" else String c (host_candidate r)
  end.

Section live.
Context `{Web}.

Definition web_link_for_read (raw : string) : option string * bool :=
  let trimmed := str_trim raw in
  let has_no_scheme_or_space :=
    negb (starts_with_uri_scheme trimmed) && negb (existsb is_whitespace (chars trimmed)) in
  if has_no_scheme_or_space && is_host_name (host_candidate trimmed)
  then (web_url_or_none (Some ("https://" ++ trimmed)%string), true)
  else (web_url_or_none (Some trimmed), false).

Definition live_value_uri_response (uri : option string) : option string :=
  raw ← uri;
  if is_some (parse_url raw) then web_url_or_none (Some raw) else Some raw.
End live.

(** ** One row *)

Module LiveItemResponse.
Record LiveItemResponse : Type := mk {
  live_item_guid : string;
  title : string;
  status : string;
  content_link : option string;
  scheduled_start : option Z;
  scheduled_end : option Z;
  live_value_uri : option string;
  live_value_protocol : option string;
  confirming_relay : bool;
  in_now_view : bool;
  in_upcoming_view : bool;
  link : option string;
  link_scheme_added : bool
}.
End LiveItemResponse.
Abbreviation LiveItemResponse := LiveItemResponse.LiveItemResponse.

(** A row of the list: the row of the feed read, with its feed. *)
Module LiveItemListResponse.
Record LiveItemListResponse : Type := mk {
  feed_guid : string;
  feed_title : option string;
  feed_image_url : option string;
  row : LiveItemResponse
}.
End LiveItemListResponse.
Abbreviation LiveItemListResponse := LiveItemListResponse.LiveItemListResponse.

Definition is_item_link (link : SourceEntityLink) : bool :=
  (SourceEntityLink.link_type link =s "web_page")
  && (SourceEntityLink.extraction_path link =s "entity.link").

(** The map of the loop; [or_insert] keeps the first row. *)
Definition live_item_links_for_feed (db : Db) (feed_guid : string) : gmap string string :=
  foldl (λ links link,
      match links !! SourceEntityLink.entity_id link with
      | Some _ => links
      | None => <[SourceEntityLink.entity_id link := SourceEntityLink.url link]> links
      end) ∅
    (List.filter (λ link, (SourceEntityLink.entity_type link =s "live_item") && is_item_link link)
       (rows_of (get_source_entity_links_for_feed feed_guid) db)).

(** [ORDER BY position, link_type, url]. *)
Definition get_source_entity_links_for_feed_entity (db : Db)
    (feed_guid entity_type entity_id : string) : list SourceEntityLink :=
  order_by (λ r, [VInt (SourceEntityLink.position r); VText (SourceEntityLink.link_type r);
                  VText (SourceEntityLink.url r)])
    (List.filter (λ r, (SourceEntityLink.feed_guid r =s feed_guid)
                       && (SourceEntityLink.entity_type r =s entity_type)
                       && (SourceEntityLink.entity_id r =s entity_id)) (source_entity_links db)).

Definition live_item_link_for_feed_item (db : Db) (feed_guid live_item_guid : string) :
    option string :=
  SourceEntityLink.url <$>
    List.find is_item_link
      (get_source_entity_links_for_feed_entity db feed_guid "live_item" live_item_guid).

(** ** The query *)

Module LiveItemsQuery.
Record LiveItemsQuery : Type := mk {
  view : option string;
  status : option string;
  live_value : option string;
  ends_after : option Z;
  starts_after : option Z;
  cursor : option string;
  limit : option Z
}.
End LiveItemsQuery.
Abbreviation LiveItemsQuery := LiveItemsQuery.LiveItemsQuery.

Module LiveItemView.
Inductive LiveItemView : Type := Now | Upcoming | All.
#[export] Instance eq_dec : EqDecision LiveItemView.
Proof. solve_decision. Defined.
End LiveItemView.
Abbreviation LiveItemView := LiveItemView.LiveItemView.
#[export] Existing Instance LiveItemView.eq_dec.

Module LiveItemFilters.
Record LiveItemFilters : Type := mk {
  view : LiveItemView;
  status : option string;
  live_value : option string;
  ends_after : option Z;
  starts_after : option Z
}.
End LiveItemFilters.
Abbreviation LiveItemFilters := LiveItemFilters.LiveItemFilters.

Definition view_of (text : string) : result ApiError LiveItemView :=
  if text =s "now" then Ok LiveItemView.Now
  else if text =s "upcoming" then Ok LiveItemView.Upcoming
  else if text =s "all" then Ok LiveItemView.All
  else bad_request ("unknown view: " ++ text).

Definition validate_live_items_query (params : LiveItemsQuery) : result ApiError LiveItemFilters :=
  let? view := view_of (unwrap_or "now"%string (LiveItemsQuery.view params)) in
  let has_raw_filter :=
    is_some (LiveItemsQuery.status params) || is_some (LiveItemsQuery.live_value params)
    || is_some (LiveItemsQuery.ends_after params) || is_some (LiveItemsQuery.starts_after params) in
  if has_raw_filter && (view != LiveItemView.All) then
    bad_request "status, live_value, ends_after and starts_after apply only with view=all"
  else
    let? _ :=
      match LiveItemsQuery.status params with
      | Some status =>
          if (status =s "pending") || (status =s "live") || (status =s "ended") then Ok tt
          else bad_request ("unknown status: " ++ status)
      | None => Ok tt
      end in
    let? _ :=
      match LiveItemsQuery.live_value params with
      | Some live_value =>
          if (live_value =s "set") || (live_value =s "none") then Ok tt
          else bad_request ("unknown live_value: " ++ live_value)
      | None => Ok tt
      end in
    Ok (LiveItemFilters.mk view (LiveItemsQuery.status params) (LiveItemsQuery.live_value params)
      (LiveItemsQuery.ends_after params) (LiveItemsQuery.starts_after params)).

Definition matches_raw_filters (event : LiveEvent) (status live_value : option string)
    (ends_after starts_after : option Z) : bool :=
  let status_ok := is_none_or (λ want, eq_ignore_ascii_case (LiveEvent.status event) want) status in
  let live_value_ok := is_none_or (λ want,
    let has_link := is_some_and (λ uri, negb (str_is_empty uri)) (LiveEvent.live_value_uri event) in
    Bool.eqb has_link (want =s "set")) live_value in
  let ends_after_ok := is_none_or (λ after,
    is_some_and (λ e, after <? e) (LiveEvent.scheduled_end event)) ends_after in
  let starts_after_ok := is_none_or (λ after,
    is_some_and (λ start, after <? start) (LiveEvent.scheduled_start event)) starts_after in
  status_ok && live_value_ok && ends_after_ok && starts_after_ok.

(** The position of a live event: its primary key. *)
Definition live_key (event : LiveEvent) : string * string :=
  (LiveEvent.feed_guid event, LiveEvent.live_item_guid event).

Section list.
Context `{Web} `{Base64}.

Definition live_item_response (event : LiveEvent) (hosts : list string) (now : Z)
    (link : option string) : LiveItemResponse :=
  let confirming_relay := is_confirming_relay (LiveEvent.live_value_uri event) hosts in
  let '(link, link_scheme_added) :=
    match link with Some raw => web_link_for_read raw | None => (None, false) end in
  LiveItemResponse.mk (LiveEvent.live_item_guid event) (LiveEvent.title event)
    (LiveEvent.status event) (web_url_or_none (LiveEvent.content_link event))
    (LiveEvent.scheduled_start event) (LiveEvent.scheduled_end event)
    (live_value_uri_response (LiveEvent.live_value_uri event))
    (LiveEvent.live_value_protocol event) confirming_relay
    (in_now_view event now confirming_relay) (in_upcoming_view event now)
    link link_scheme_added.

(** [live_items] of a feed read. *)
Definition build_live_items_response (db : Db) (feed_guid : string) (hosts : list string)
    (now : Z) : list LiveItemResponse :=
  let links := live_item_links_for_feed db feed_guid in
  (λ event, live_item_response event hosts now (links !! LiveEvent.live_item_guid event))
    <$> sort_by by_item_guid (rows_of (get_live_events_for_feed feed_guid) db).

Definition live_event_matches (event : LiveEvent) (filters : LiveItemFilters) (now : Z)
    (hosts : list string) : bool :=
  match LiveItemFilters.view filters with
  | LiveItemView.Now =>
      let confirming := is_confirming_relay (LiveEvent.live_value_uri event) hosts in
      in_now_view event now confirming
  | LiveItemView.Upcoming => in_upcoming_view event now
  | LiveItemView.All =>
      matches_raw_filters event (LiveItemFilters.status filters)
        (LiveItemFilters.live_value filters) (LiveItemFilters.ends_after filters)
        (LiveItemFilters.starts_after filters)
  end.

Definition live_item_list_response (db : Db) (event : LiveEvent) (hosts : list string) (now : Z) :
    LiveItemListResponse :=
  let link := live_item_link_for_feed_item db (LiveEvent.feed_guid event)
                (LiveEvent.live_item_guid event) in
  let feed := named_feed_summary db (Some (LiveEvent.feed_guid event)) in
  LiveItemListResponse.mk (LiveEvent.feed_guid event) (NamedFeedSummary.title feed)
    (NamedFeedSummary.image_url feed) (live_item_response event hosts now link).

Definition list_live_items (db : Db) (params : LiveItemsQuery) (now : Z) (hosts : list string) :
    result ApiError (QueryResponse LiveItemListResponse) :=
  let? filters := validate_live_items_query params in
  let limit := Z.to_nat (capped_limit (LiveItemsQuery.limit params)) in
  let? cursor_pair :=
    match LiveItemsQuery.cursor params with
    | Some cursor_str => let? position := parse_by_name_cursor cursor_str in Ok (Some position)
    | None => Ok None
    end in
  let events := rows_of (get_live_events_after_cursor cursor_pair) db in
  let matching_events := List.filter (λ e, live_event_matches e filters now hosts) events in
  let has_more := (limit <? length matching_events)%nat in
  let page := take limit matching_events in
  let next_cursor := if has_more then (encode_pair_cursor ∘ live_key) <$> last page else None in
  Ok (QueryResponse.mk ((λ e, live_item_list_response db e hosts now) <$> page)
        next_cursor has_more).
End list.
