(* ===== verification/Detail.v ===== *)
(** The detail routes of a feed and of a track (src/query.rs): the parts of a
    response, and the routes. *)

From Stdlib Require Import Floats.SpecFloat.
From S2P Require Import Prelude.
From S2P Require Import Model.
From S2P Require Import Float64.
From S2P Require Import Crates.
From S2P Require Import Medium.
From S2P Require Import Store.
From S2P Require Import Tables.
From S2P Require Import RowLists.
From S2P Require Import Catalog.
From S2P Require Import Links.
From S2P Require Import Admin.
From S2P Require Import Paging.
From S2P Require Import Listings.
From S2P Require Import FeedIndex.
From S2P Require Import LiveList.

(** The parts of a detail response (src/query.rs): the rows of a feed or of a
    track as a client reads them, and the reads of src/db.rs for one entity.

    Every URL of a row that came from RSS goes through [web_url_or_none] or
    [web_link_for_read]. *)

(** ** Reads of one entity

    [ORDER BY .., id]: the rows of a table stand in the order of their ids. *)

Definition claim_order (r : SourceContributorClaim) : list SqlVal :=
  [VInt (SourceContributorClaim.position r); VText (SourceContributorClaim.name r)].

Definition get_source_contributor_claims_for_entity (db : Db) (entity_type entity_id : string) :
    list SourceContributorClaim :=
  order_by claim_order
    (List.filter (λ r, (SourceContributorClaim.entity_type r =s entity_type)
                       && (SourceContributorClaim.entity_id r =s entity_id)) (source_contributor_claims db)).

Definition get_source_contributor_claims_for_feed_entity (db : Db)
    (feed_guid entity_type entity_id : string) : list SourceContributorClaim :=
  order_by claim_order
    (List.filter (λ r, (SourceContributorClaim.feed_guid r =s feed_guid)
                       && (SourceContributorClaim.entity_type r =s entity_type)
                       && (SourceContributorClaim.entity_id r =s entity_id)) (source_contributor_claims db)).

Definition get_effective_source_contributor_claims_for_track (db : Db)
    (feed_guid track_guid : string) : list SourceContributorClaim :=
  match get_source_contributor_claims_for_feed_entity db feed_guid "track" track_guid with
  | [] => get_source_contributor_claims_for_feed_entity db feed_guid "feed" feed_guid
  | track_claims => track_claims
  end.

Definition entity_id_order (r : SourceEntityIdClaim) : list SqlVal :=
  [VInt (SourceEntityIdClaim.position r); VText (SourceEntityIdClaim.scheme r); VText (SourceEntityIdClaim.value r)].

Definition get_source_entity_ids_for_entity (db : Db) (entity_type entity_id : string) :
    list SourceEntityIdClaim :=
  order_by entity_id_order
    (List.filter (λ r, (SourceEntityIdClaim.entity_type r =s entity_type)
                       && (SourceEntityIdClaim.entity_id r =s entity_id)) (source_entity_ids db)).

Definition get_source_entity_ids_for_feed_entity (db : Db)
    (feed_guid entity_type entity_id : string) : list SourceEntityIdClaim :=
  order_by entity_id_order
    (List.filter (λ r, (SourceEntityIdClaim.feed_guid r =s feed_guid)
                       && (SourceEntityIdClaim.entity_type r =s entity_type)
                       && (SourceEntityIdClaim.entity_id r =s entity_id)) (source_entity_ids db)).

Definition entity_link_order (r : SourceEntityLink) : list SqlVal :=
  [VInt (SourceEntityLink.position r); VText (SourceEntityLink.link_type r); VText (SourceEntityLink.url r)].

Definition get_source_entity_links_for_entity (db : Db) (entity_type entity_id : string) :
    list SourceEntityLink :=
  order_by entity_link_order
    (List.filter (λ r, (SourceEntityLink.entity_type r =s entity_type)
                       && (SourceEntityLink.entity_id r =s entity_id)) (source_entity_links db)).

Definition release_claim_order (r : SourceReleaseClaim) : list SqlVal :=
  [VText (SourceReleaseClaim.claim_type r); VInt (SourceReleaseClaim.position r)].

Definition get_source_release_claims_for_entity (db : Db) (entity_type entity_id : string) :
    list SourceReleaseClaim :=
  order_by release_claim_order
    (List.filter (λ r, (SourceReleaseClaim.entity_type r =s entity_type)
                       && (SourceReleaseClaim.entity_id r =s entity_id)) (source_release_claims db)).

Definition get_source_release_claims_for_feed_entity (db : Db)
    (feed_guid entity_type entity_id : string) : list SourceReleaseClaim :=
  order_by release_claim_order
    (List.filter (λ r, (SourceReleaseClaim.feed_guid r =s feed_guid)
                       && (SourceReleaseClaim.entity_type r =s entity_type)
                       && (SourceReleaseClaim.entity_id r =s entity_id)) (source_release_claims db)).

Definition enclosure_order (r : SourceItemEnclosure) : list SqlVal :=
  [VInt (SourceItemEnclosure.position r); VText (SourceItemEnclosure.url r)].

Definition get_source_item_enclosures_for_feed_entity (db : Db)
    (feed_guid entity_type entity_id : string) : list SourceItemEnclosure :=
  order_by enclosure_order
    (List.filter (λ r, (SourceItemEnclosure.feed_guid r =s feed_guid)
                       && (SourceItemEnclosure.entity_type r =s entity_type)
                       && (SourceItemEnclosure.entity_id r =s entity_id)) (source_item_enclosures db)).

Definition transcript_order (r : SourceItemTranscript) : list SqlVal :=
  [VInt (SourceItemTranscript.position r); VText (SourceItemTranscript.url r)].

Definition get_source_item_transcripts_for_feed_entity (db : Db)
    (feed_guid entity_type entity_id : string) : list SourceItemTranscript :=
  order_by transcript_order
    (List.filter (λ r, (SourceItemTranscript.feed_guid r =s feed_guid)
                       && (SourceItemTranscript.entity_type r =s entity_type)
                       && (SourceItemTranscript.entity_id r =s entity_id)) (source_item_transcripts db)).

(** ** Rows *)

Module SourceContributorClaimResponse.
Record SourceContributorClaimResponse : Type := mk {
  entity_type : string;
  entity_id : string;
  position : Z;
  name : string;
  role : option string;
  role_norm : option string;
  group_name : option string;
  href : option string;
  img : option string;
  npub : option string;
  source : string;
  extraction_path : string;
  observed_at : Z
}.
End SourceContributorClaimResponse.
Abbreviation SourceContributorClaimResponse := SourceContributorClaimResponse.SourceContributorClaimResponse.

Module SourceEntityIdResponse.
Record SourceEntityIdResponse : Type := mk {
  entity_type : string;
  entity_id : string;
  position : Z;
  scheme : string;
  value : string;
  source : string;
  extraction_path : string;
  observed_at : Z
}.
End SourceEntityIdResponse.
Abbreviation SourceEntityIdResponse := SourceEntityIdResponse.SourceEntityIdResponse.

Module SourceEntityLinkResponse.
Record SourceEntityLinkResponse : Type := mk {
  entity_type : string;
  entity_id : string;
  position : Z;
  link_type : string;
  url : option string;
  url_scheme_added : bool;
  label : option string;
  source : string;
  extraction_path : string;
  observed_at : Z
}.
End SourceEntityLinkResponse.
Abbreviation SourceEntityLinkResponse := SourceEntityLinkResponse.SourceEntityLinkResponse.

Module SourceReleaseClaimResponse.
Record SourceReleaseClaimResponse : Type := mk {
  entity_type : string;
  entity_id : string;
  position : Z;
  claim_type : string;
  claim_value : string;
  source : string;
  extraction_path : string;
  observed_at : Z
}.
End SourceReleaseClaimResponse.
Abbreviation SourceReleaseClaimResponse := SourceReleaseClaimResponse.SourceReleaseClaimResponse.

Module SourcePlatformClaimResponse.
Record SourcePlatformClaimResponse : Type := mk {
  platform_key : string;
  url : option string;
  owner_name : option string;
  source : string;
  extraction_path : string;
  observed_at : Z
}.
End SourcePlatformClaimResponse.
Abbreviation SourcePlatformClaimResponse := SourcePlatformClaimResponse.SourcePlatformClaimResponse.

Module SourceItemTranscriptResponse.
Record SourceItemTranscriptResponse : Type := mk {
  entity_type : string;
  entity_id : string;
  position : Z;
  url : option string;
  mime_type : option string;
  language : option string;
  rel : option string;
  source : string;
  extraction_path : string;
  observed_at : Z
}.
End SourceItemTranscriptResponse.
Abbreviation SourceItemTranscriptResponse := SourceItemTranscriptResponse.SourceItemTranscriptResponse.

Module SourceItemEnclosureResponse.
Record SourceItemEnclosureResponse : Type := mk {
  entity_type : string;
  entity_id : string;
  position : Z;
  url : option string;
  mime_type : option string;
  bytes : option Z;
  rel : option string;
  title : option string;
  is_primary : bool;
  source : string;
  extraction_path : string;
  observed_at : Z
}.
End SourceItemEnclosureResponse.
Abbreviation SourceItemEnclosureResponse := SourceItemEnclosureResponse.SourceItemEnclosureResponse.

Module RouteResponse.
Record RouteResponse : Type := mk {
  recipient_name : option string;
  route_type : string;
  address : string;
  custom_key : option string;
  custom_value : option string;
  split : Z;
  fee : bool
}.
End RouteResponse.
Abbreviation RouteResponse := RouteResponse.RouteResponse.

Module NamedTrackSummary.
Record NamedTrackSummary : Type := mk {
  guid : option string;
  title : option string;
  duration_secs : option Z;
  image_url : option string
}.
End NamedTrackSummary.
Abbreviation NamedTrackSummary := NamedTrackSummary.NamedTrackSummary.

Module FeedRemoteItemResponse.
Record FeedRemoteItemResponse : Type := mk {
  position : Z;
  medium : option string;
  remote_feed_guid : string;
  remote_feed_url : option string;
  rel : option string;
  source : string;
  remote_feed_title : option string;
  remote_feed_image_url : option string;
  remote_release_artist : option string;
  remote_release_artist_source : option string;
  remote_episode_count : option Z;
  remote_item_guid : option string;
  remote_item_title : option string;
  remote_track_guid : option string;
  remote_track_title : option string;
  remote_track_duration_secs : option Z;
  remote_track_image_url : option string
}.
End FeedRemoteItemResponse.
Abbreviation FeedRemoteItemResponse := FeedRemoteItemResponse.FeedRemoteItemResponse.

Module TrackRemoteItemResponse.
Record TrackRemoteItemResponse : Type := mk {
  position : Z;
  medium : option string;
  remote_feed_guid : string;
  remote_feed_url : option string;
  rel : option string;
  source : string;
  remote_feed_title : option string;
  remote_feed_image_url : option string;
  remote_release_artist : option string;
  remote_release_artist_source : option string;
  remote_episode_count : option Z
}.
End TrackRemoteItemResponse.
Abbreviation TrackRemoteItemResponse := TrackRemoteItemResponse.TrackRemoteItemResponse.

Module VtsResponse.
Record VtsResponse : Type := mk {
  start_time_secs : Z;
  duration_secs : option Z;
  remote_feed_guid : string;
  remote_item_guid : string;
  remote_feed_title : option string;
  remote_feed_image_url : option string;
  remote_release_artist : option string;
  remote_release_artist_source : option string;
  remote_episode_count : option Z;
  remote_track_guid : option string;
  remote_track_title : option string;
  remote_track_duration_secs : option Z;
  remote_track_image_url : option string;
  split : Z;
  start_time : f64;
  duration : option f64;
  remote_start_time : option f64;
  remote_percentage : option f64
}.
End VtsResponse.
Abbreviation VtsResponse := VtsResponse.VtsResponse.

Module LocalVtsResponse.
Record LocalVtsResponse : Type := mk {
  position : Z;
  start_time : f64;
  duration : option f64;
  recipients : list RouteResponse
}.
End LocalVtsResponse.
Abbreviation LocalVtsResponse := LocalVtsResponse.LocalVtsResponse.

(** ** Payment routes *)

Definition route_type_text (t : RouteType) : string :=
  match t with
  | RouteType.Node => "node"
  | RouteType.Wallet => "wallet"
  | RouteType.Keysend => "keysend"
  | RouteType.Lnaddress => "lnaddress"
  end.

(** [NULLIF(.., '')] is in the rows that the table holds. *)
Definition feed_route_response (r : FeedPaymentRoute) : RouteResponse :=
  RouteResponse.mk (FeedPaymentRoute.recipient_name r)
    (route_type_text (FeedPaymentRoute.route_type r)) (FeedPaymentRoute.address r)
    (FeedPaymentRoute.custom_key r) (FeedPaymentRoute.custom_value r)
    (FeedPaymentRoute.split r) (FeedPaymentRoute.fee r).

Definition track_route_response (r : PaymentRoute) : RouteResponse :=
  RouteResponse.mk (PaymentRoute.recipient_name r)
    (route_type_text (PaymentRoute.route_type r)) (PaymentRoute.address r)
    (PaymentRoute.custom_key r) (PaymentRoute.custom_value r)
    (PaymentRoute.split r) (PaymentRoute.fee r).

Definition recipient_route_response (r : ValueTimeSplitRecipient) : RouteResponse :=
  RouteResponse.mk (ValueTimeSplitRecipient.recipient_name r)
    (route_type_text (ValueTimeSplitRecipient.route_type r)) (ValueTimeSplitRecipient.address r)
    (ValueTimeSplitRecipient.custom_key r) (ValueTimeSplitRecipient.custom_value r)
    (ValueTimeSplitRecipient.split r) (ValueTimeSplitRecipient.fee r).

(** [db::get_feed_payment_routes_for_feed], as both detail routes read it. *)
Definition feed_route_responses (db : Db) (feed_guid : string) : list RouteResponse :=
  feed_route_response <$>
    List.filter (λ r, FeedPaymentRoute.feed_guid r =s feed_guid) (feed_payment_routes db).

(** ** Times

    [f64::floor] and [as i64]: a value out of range gives the nearest [i64],
    and NaN gives 0. *)

Definition saturate_i64 (z : Z) : Z := Z.max i64_min (Z.min i64_max z).

Definition floor_as_i64 (x : f64) : Z :=
  match x with
  | S754_zero _ | S754_nan => 0
  | S754_infinity s => if s then i64_min else i64_max
  | S754_finite s m e =>
      let signed := if s then Z.neg m else Z.pos m in
      saturate_i64 (if 0 <=? e then signed * 2 ^ e else signed / 2 ^ (- e))
  end.

(** [f64::clamp]; NaN stays. *)
Definition f64_clamp (x lo hi : f64) : f64 :=
  if SFltb x lo then lo else if SFltb hi x then hi else x.

Section build.
Context `{Web}.

Definition contributor_claim_response (c : SourceContributorClaim) :
    SourceContributorClaimResponse :=
  SourceContributorClaimResponse.mk (SourceContributorClaim.entity_type c)
    (SourceContributorClaim.entity_id c) (SourceContributorClaim.position c)
    (SourceContributorClaim.name c) (SourceContributorClaim.role c)
    (SourceContributorClaim.role_norm c) (SourceContributorClaim.group_name c)
    (web_url_or_none (SourceContributorClaim.href c))
    (web_url_or_none (SourceContributorClaim.img c)) (SourceContributorClaim.npub c)
    (SourceContributorClaim.source c) (SourceContributorClaim.extraction_path c)
    (SourceContributorClaim.observed_at c).

Definition entity_id_response (c : SourceEntityIdClaim) : SourceEntityIdResponse :=
  SourceEntityIdResponse.mk (SourceEntityIdClaim.entity_type c)
    (SourceEntityIdClaim.entity_id c) (SourceEntityIdClaim.position c)
    (SourceEntityIdClaim.scheme c) (SourceEntityIdClaim.value c)
    (SourceEntityIdClaim.source c) (SourceEntityIdClaim.extraction_path c)
    (SourceEntityIdClaim.observed_at c).

Definition entity_link_response (link : SourceEntityLink) : SourceEntityLinkResponse :=
  let link_type := SourceEntityLink.link_type link in
  let '(url, url_scheme_added) :=
    if (link_type =s "website") || (link_type =s "web_page")
    then web_link_for_read (SourceEntityLink.url link)
    else (web_url_or_none (Some (SourceEntityLink.url link)), false) in
  SourceEntityLinkResponse.mk (SourceEntityLink.entity_type link)
    (SourceEntityLink.entity_id link) (SourceEntityLink.position link) link_type
    url url_scheme_added (SourceEntityLink.label link) (SourceEntityLink.source link)
    (SourceEntityLink.extraction_path link) (SourceEntityLink.observed_at link).

Definition release_claim_response (c : SourceReleaseClaim) : SourceReleaseClaimResponse :=
  SourceReleaseClaimResponse.mk (SourceReleaseClaim.entity_type c)
    (SourceReleaseClaim.entity_id c) (SourceReleaseClaim.position c)
    (SourceReleaseClaim.claim_type c) (SourceReleaseClaim.claim_value c)
    (SourceReleaseClaim.source c) (SourceReleaseClaim.extraction_path c)
    (SourceReleaseClaim.observed_at c).

Definition platform_claim_response (c : SourcePlatformClaim) : SourcePlatformClaimResponse :=
  SourcePlatformClaimResponse.mk (SourcePlatformClaim.platform_key c)
    (web_url_or_none (SourcePlatformClaim.url c)) (SourcePlatformClaim.owner_name c)
    (SourcePlatformClaim.source c) (SourcePlatformClaim.extraction_path c)
    (SourcePlatformClaim.observed_at c).

Definition enclosure_response (e : SourceItemEnclosure) : SourceItemEnclosureResponse :=
  SourceItemEnclosureResponse.mk (SourceItemEnclosure.entity_type e)
    (SourceItemEnclosure.entity_id e) (SourceItemEnclosure.position e)
    (web_url_or_none (Some (SourceItemEnclosure.url e))) (SourceItemEnclosure.mime_type e)
    (SourceItemEnclosure.bytes e) (SourceItemEnclosure.rel e) (SourceItemEnclosure.title e)
    (SourceItemEnclosure.is_primary e) (SourceItemEnclosure.source e)
    (SourceItemEnclosure.extraction_path e) (SourceItemEnclosure.observed_at e).

Definition transcript_response (t : SourceItemTranscript) : SourceItemTranscriptResponse :=
  SourceItemTranscriptResponse.mk (SourceItemTranscript.entity_type t)
    (SourceItemTranscript.entity_id t) (SourceItemTranscript.position t)
    (web_url_or_none (Some (SourceItemTranscript.url t))) (SourceItemTranscript.mime_type t)
    (SourceItemTranscript.language t) (SourceItemTranscript.rel t)
    (SourceItemTranscript.source t) (SourceItemTranscript.extraction_path t)
    (SourceItemTranscript.observed_at t).

(** ** Named feeds and tracks (ADR 0059) *)

Definition remote_item_summary (db : Db) (remote_feed_guid : string)
    (remote_feed_url : option string) : NamedFeedSummary :=
  named_feed_summary db
    (resolution_feed_guid (resolve_listed_feed db remote_feed_guid remote_feed_url)).

Definition no_track : NamedTrackSummary := NamedTrackSummary.mk None None None None.

Definition named_track_summary (db : Db) (feed_guid item_guid : string) : NamedTrackSummary :=
  match tracks db !! (feed_guid, item_guid) with
  | Some t =>
      NamedTrackSummary.mk (Some (Track.track_guid t)) (Some (Track.title t))
        (Track.duration_secs t) (web_url_or_none (Track.image_url t))
  | None => no_track
  end.

Definition feed_remote_item_response (db : Db) (item : FeedRemoteItemRaw) :
    FeedRemoteItemResponse :=
  let resolved := resolution_feed_guid (resolve_item db item) in
  let summary := named_feed_summary db resolved in
  let track :=
    match resolved, FeedRemoteItemRaw.remote_item_guid item with
    | Some feed_guid, Some item_guid => named_track_summary db feed_guid item_guid
    | _, _ => no_track
    end in
  FeedRemoteItemResponse.mk (FeedRemoteItemRaw.position item) (FeedRemoteItemRaw.medium item)
    (FeedRemoteItemRaw.remote_feed_guid item)
    (web_url_or_none (FeedRemoteItemRaw.remote_feed_url item)) (FeedRemoteItemRaw.rel item)
    (FeedRemoteItemRaw.source item) (NamedFeedSummary.title summary)
    (NamedFeedSummary.image_url summary) (NamedFeedSummary.release_artist summary)
    (NamedFeedSummary.release_artist_source summary) (NamedFeedSummary.episode_count summary)
    (FeedRemoteItemRaw.remote_item_guid item) (FeedRemoteItemRaw.remote_item_title item)
    (NamedTrackSummary.guid track) (NamedTrackSummary.title track)
    (NamedTrackSummary.duration_secs track) (NamedTrackSummary.image_url track).

Definition track_remote_item_response (db : Db) (item : TrackRemoteItemRaw) :
    TrackRemoteItemResponse :=
  let summary := remote_item_summary db (TrackRemoteItemRaw.remote_feed_guid item)
                   (TrackRemoteItemRaw.remote_feed_url item) in
  TrackRemoteItemResponse.mk (TrackRemoteItemRaw.position item) (TrackRemoteItemRaw.medium item)
    (TrackRemoteItemRaw.remote_feed_guid item)
    (web_url_or_none (TrackRemoteItemRaw.remote_feed_url item)) (TrackRemoteItemRaw.rel item)
    (TrackRemoteItemRaw.source item) (NamedFeedSummary.title summary)
    (NamedFeedSummary.image_url summary) (NamedFeedSummary.release_artist summary)
    (NamedFeedSummary.release_artist_source summary) (NamedFeedSummary.episode_count summary).

Definition load_track_remote_items (db : Db) (feed_guid track_guid : string) :
    list TrackRemoteItemResponse :=
  track_remote_item_response db
    <$> rows_of (get_track_remote_items_for_feed_track feed_guid track_guid) db.

(** ** Value time splits (ADR 0073) *)

(** [remote_percentage.unwrap_or(100.0).clamp(0.0, 100.0)]. *)
Definition effective_percentage (p : option f64) : f64 :=
  f64_clamp (unwrap_or (f64_of 100) p) (f64_of 0) (f64_of 100).

Definition vts_response_from_split (db : Db) (split : ValueTimeSplit) : option VtsResponse :=
  if ValueTimeSplit.form split != ValueTimeSplitForm.Remote then None
  else
    remote_feed_guid ← ValueTimeSplit.remote_feed_guid split;
    let remote_item_guid := unwrap_or ""%string (ValueTimeSplit.remote_item_guid split) in
    let feed := named_feed_summary db (Some remote_feed_guid) in
    let track :=
      if is_some (NamedFeedSummary.title feed) && negb (str_is_empty remote_item_guid)
      then named_track_summary db remote_feed_guid remote_item_guid else no_track in
    let remote_percentage := ValueTimeSplit.remote_percentage split in
    Some (VtsResponse.mk (floor_as_i64 (ValueTimeSplit.start_time_secs split))
      (floor_as_i64 <$> ValueTimeSplit.duration_secs split) remote_feed_guid remote_item_guid
      (NamedFeedSummary.title feed) (NamedFeedSummary.image_url feed)
      (NamedFeedSummary.release_artist feed) (NamedFeedSummary.release_artist_source feed)
      (NamedFeedSummary.episode_count feed) (NamedTrackSummary.guid track)
      (NamedTrackSummary.title track) (NamedTrackSummary.duration_secs track)
      (NamedTrackSummary.image_url track)
      (floor_as_i64 (effective_percentage remote_percentage))
      (ValueTimeSplit.start_time_secs split) (ValueTimeSplit.duration_secs split)
      (ValueTimeSplit.remote_start_time_secs split) remote_percentage).

Definition local_vts_response_from_split (split : ValueTimeSplit) : option LocalVtsResponse :=
  if ValueTimeSplit.form split != ValueTimeSplitForm.Local then None
  else
    Some (LocalVtsResponse.mk (ValueTimeSplit.position split)
      (ValueTimeSplit.start_time_secs split) (ValueTimeSplit.duration_secs split)
      (recipient_route_response <$> ValueTimeSplit.recipients split)).
End build.

(** The detail routes of a feed and of a track (src/query.rs): the response
    with the parts that the [include] of a request names, the answer for a
    GUID that a transition retired, and the answer for a track GUID that more
    than one feed has. *)

Definition FEED_INCLUDES : list string :=
  ["tracks"; "payment_routes"; "source_links"; "source_ids"; "source_contributors";
   "source_platforms"; "source_release_claims"; "remote_items"; "publisher"]%string.

Definition TRACK_INCLUDES : list string :=
  ["payment_routes"; "value_time_splits"; "local_value_time_splits"; "source_links";
   "source_ids"; "source_contributors"; "source_release_claims"; "source_enclosures";
   "source_transcripts"; "remote_items"; "publisher"]%string.

Module TrackSummary.
Record TrackSummary : Type := mk {
  track_guid : string;
  title : string;
  pub_date : option Z;
  duration_secs : option Z;
  image_url : option string;
  track_image_url : option string;
  feed_image_url : option string;
  track_number : option Z;
  publisher_text : option string
}.
End TrackSummary.
Abbreviation TrackSummary := TrackSummary.TrackSummary.

(** The columns that a response gives as they are stand in [row]; the fields
    that this route leaves null, since they belong to the lists, are left
    out. *)
Module FeedResponse.
Record FeedResponse : Type := mk {
  row : Feed;
  image_url : option string;
  publisher_feed_title : option string;
  publisher_feed_guid : option string;
  distinct_release_artist_count : option Z;
  distinct_release_artists : option (list string);
  confirmed_release_artist_count : option Z;
  confirmed_release_artists : option (list string);
  unconfirmed_release_artist_count : option Z;
  unconfirmed_release_artists : option (list string);
  copy_count : Z;
  tracks : option (list TrackSummary);
  payment_routes : option (list RouteResponse);
  source_links : option (list SourceEntityLinkResponse);
  source_ids : option (list SourceEntityIdResponse);
  source_contributors : option (list SourceContributorClaimResponse);
  source_platforms : option (list SourcePlatformClaimResponse);
  source_release_claims : option (list SourceReleaseClaimResponse);
  remote_items : option (list FeedRemoteItemResponse);
  publisher : option (list PublisherResponse);
  co_credited_feeds : option (list CoCreditedFeedResponse);
  pending_guid_change : option PendingGuidChangeResponse;
  live_items : list LiveItemResponse
}.
End FeedResponse.
Abbreviation FeedResponse := FeedResponse.FeedResponse.

(** A track joined with its feed; the columns of the track stand in [track].
    [image_url] is [COALESCE(t.image_url, f.image_url)]. *)
Module TrackRow.
Record TrackRow : Type := mk {
  track : Track;
  image_url : option string;
  feed_image_url : option string;
  feed_title : string;
  release_artist : option string;
  release_artist_source : option string
}.
End TrackRow.
Abbreviation TrackRow := TrackRow.TrackRow.

Module TrackResponse.
Record TrackResponse : Type := mk {
  row : Track;
  image_url : option string;
  track_image_url : option string;
  feed_image_url : option string;
  enclosure_url : option string;
  feed_title : string;
  release_artist : option string;
  release_artist_source : option string;
  payment_routes : option (list RouteResponse);
  value_time_splits : option (list VtsResponse);
  local_value_time_splits : option (list LocalVtsResponse);
  source_links : option (list SourceEntityLinkResponse);
  source_ids : option (list SourceEntityIdResponse);
  source_contributors : option (list SourceContributorClaimResponse);
  source_release_claims : option (list SourceReleaseClaimResponse);
  source_enclosures : option (list SourceItemEnclosureResponse);
  source_transcripts : option (list SourceItemTranscriptResponse);
  remote_items : option (list TrackRemoteItemResponse);
  publisher : option (list PublisherResponse)
}.
End TrackResponse.
Abbreviation TrackResponse := TrackResponse.TrackResponse.

Module FeedDetailOutcome.
Inductive FeedDetailOutcome : Type :=
  | Found (response : FeedResponse)
  | NotFound
  | Superseded (superseded_by : string).
End FeedDetailOutcome.
Abbreviation FeedDetailOutcome := FeedDetailOutcome.FeedDetailOutcome.

Module EitherTrackResponse.
Inductive EitherTrackResponse : Type :=
  | Found (response : TrackResponse)
  | Ambiguous (candidates : list AmbiguousTrackGuidCandidate).
End EitherTrackResponse.
Abbreviation EitherTrackResponse := EitherTrackResponse.EitherTrackResponse.

(** [Option::or]. *)
Definition option_or {A} (a b : option A) : option A :=
  match a with Some _ => a | None => b end.

(** [if params.includes(name)]. *)
Definition included {A} (params : ListQuery) (name : string) (a : A) : option A :=
  if includes params name then Some a else None.

(** [ORDER BY track_number ASC, pub_date DESC]; [NULL] is the smallest. *)
Definition opt_z_val (z : option Z) : SqlVal :=
  match z with Some z => VInt z | None => VNull end.

Definition summary_le (a b : Track) : bool :=
  let na := opt_z_val (Track.track_number a) in
  let nb := opt_z_val (Track.track_number b) in
  if val_le na nb && val_le nb na
  then val_le (opt_z_val (Track.pub_date b)) (opt_z_val (Track.pub_date a))
  else val_le na nb.

Section detail.
Context `{Crates} `{Web}.

(** ** Feeds *)

Definition track_summary (feed_artwork : option string) (t : Track) : TrackSummary :=
  let track_image_url := web_url_or_none (Track.image_url t) in
  TrackSummary.mk (Track.track_guid t) (Track.title t) (Track.pub_date t)
    (Track.duration_secs t) (option_or track_image_url feed_artwork) track_image_url
    feed_artwork (Track.track_number t) (Track.publisher t).

Definition track_summaries (db : Db) (feed_guid : string) (feed_artwork : option string) :
    list TrackSummary :=
  track_summary feed_artwork <$> sort_by summary_le (tracks_of feed_guid db).

Definition build_feed_response (db : Db) (hosts : list string) (now : Z) (f : Feed)
    (params : ListQuery) : FeedResponse :=
  let feed_guid := Feed.feed_guid f in
  let publisher_feed := resolve_publisher_feed db feed_guid in
  let copy_count := (open_copy_summary db feed_guid).1 in
  let pending := pending_guid_change_response <$> get_pending_guid_change_for_feed db feed_guid in
  let live_items := build_live_items_response db feed_guid hosts now in
  let image_url := web_url_or_none (Feed.image_url f) in
  let publisher_feed_rows := is_publisher (Feed.raw_medium f) in
  let derived {A} (a : A) : option A := if publisher_feed_rows then Some a else None in
  let '(count, artists) := publisher_artist_count db feed_guid in
  let rows := load_publisher db feed_guid in
  let '(confirmed, unconfirmed) := confirmed_and_unconfirmed_release_artists rows in
  FeedResponse.mk f image_url (snd <$> publisher_feed) (fst <$> publisher_feed)
    (derived count) (derived artists) (derived (i64_len confirmed)) (derived confirmed)
    (derived (i64_len unconfirmed)) (derived unconfirmed) copy_count
    (included params "tracks" (track_summaries db feed_guid image_url))
    (included params "payment_routes" (feed_route_responses db feed_guid))
    (included params "source_links"
       (entity_link_response <$> get_source_entity_links_for_entity db "feed" feed_guid))
    (included params "source_ids"
       (entity_id_response <$> get_source_entity_ids_for_entity db "feed" feed_guid))
    (included params "source_contributors"
       (contributor_claim_response
          <$> get_source_contributor_claims_for_entity db "feed" feed_guid))
    (included params "source_platforms"
       (platform_claim_response <$> rows_of (get_source_platform_claims_for_feed feed_guid) db))
    (included params "source_release_claims"
       (release_claim_response <$> get_source_release_claims_for_entity db "feed" feed_guid))
    (included params "remote_items"
       (feed_remote_item_response db <$> remote_items db feed_guid))
    (included params "publisher" rows)
    (if publisher_feed_rows
     then included params "publisher" (co_credited_feeds db feed_guid rows) else None)
    pending live_items.

(** The lookup, and then the answer. *)
Definition feed_detail (db : Db) (hosts : list string) (now : Z) (feed_guid : string)
    (params : ListQuery) : FeedDetailOutcome :=
  match get_feed db feed_guid with
  | None =>
      match feed_guid_supersessions db !! feed_guid with
      | Some supersession => FeedDetailOutcome.Superseded (GuidSupersessionRow.new_guid supersession)
      | None => FeedDetailOutcome.NotFound
      end
  | Some f => FeedDetailOutcome.Found (build_feed_response db hosts now f params)
  end.

(** The status and the body: a response, or [superseded_by] when the link
    names one. *)
Definition handle_get_feed (db : Db) (hosts : list string) (now : Z) (feed_guid : string)
    (params : ListQuery) : Z * (FeedResponse + option string) :=
  match feed_detail db hosts now feed_guid params with
  | FeedDetailOutcome.Found result => (200, inl result)
  | FeedDetailOutcome.NotFound => (404, inr None)
  | FeedDetailOutcome.Superseded superseded_by => (404, inr (Some superseded_by))
  end.

(** ** Tracks *)

Definition track_row (db : Db) (t : Track) : TrackRow :=
  let f := get_feed db (Track.feed_guid t) in
  let feed_image_url := f ≫= Feed.image_url in
  TrackRow.mk t (option_or (Track.image_url t) feed_image_url) feed_image_url
    (unwrap_or ""%string (Feed.title <$> f)) (f ≫= Feed.release_artist)
    (f ≫= Feed.release_artist_source).

(** [ORDER BY t.feed_guid ASC]. *)
Definition get_track_rows_by_guid (db : Db) (track_guid : string) : list TrackRow :=
  track_row db <$> rows_of (get_tracks_by_guid track_guid) db.

Definition get_track_row_for_feed (db : Db) (feed_guid track_guid : string) : option TrackRow :=
  track_row db <$> tracks db !! (feed_guid, track_guid).

Definition track_item (item : TrackRemoteItemRaw) : PublisherRowItem :=
  PublisherRowItem.mk (TrackRemoteItemRaw.medium item) (TrackRemoteItemRaw.remote_feed_guid item)
    (TrackRemoteItemRaw.remote_feed_url item) (TrackRemoteItemRaw.rel item)
    (TrackRemoteItemRaw.source item) (TrackRemoteItemRaw.position item).

Definition load_track_publisher (db : Db) (feed_guid track_guid : string) :
    result ApiError (list PublisherResponse) :=
  match tracks db !! (feed_guid, track_guid) with
  | None => Ok []
  | Some current_track =>
      match get_feed db (Track.feed_guid current_track) with
      | None => Err (ApiError.mk 500 "orphaned track")
      | Some current_feed =>
          Ok (omap (λ item, build_publisher_row db current_feed [] (track_item item))
                (rows_of (get_track_remote_items_for_feed_track feed_guid track_guid) db))
      end
  end.

(** The routes of a track, and those of its feed when it has none. *)
Definition track_payment_routes (db : Db) (feed_guid track_guid : string) : list RouteResponse :=
  match track_route_response
          <$> rows_of (get_payment_routes_for_feed_track feed_guid track_guid) db with
  | [] => feed_route_responses db feed_guid
  | routes => routes
  end.

Definition build_track_response (db : Db) (row : TrackRow) (params : ListQuery) :
    result ApiError TrackResponse :=
  let t := TrackRow.track row in
  let track_guid := Track.track_guid t in
  let feed_guid := Track.feed_guid t in
  let splits := rows_of (get_value_time_splits_for_feed_track feed_guid track_guid) db in
  let? publisher :=
    if includes params "publisher"
    then (let? rows := load_track_publisher db feed_guid track_guid in Ok (Some rows))
    else Ok None in
  Ok (TrackResponse.mk t (web_url_or_none (TrackRow.image_url row))
    (web_url_or_none (Track.image_url t)) (web_url_or_none (TrackRow.feed_image_url row))
    (web_url_or_none (Track.enclosure_url t)) (TrackRow.feed_title row)
    (TrackRow.release_artist row) (TrackRow.release_artist_source row)
    (included params "payment_routes" (track_payment_routes db feed_guid track_guid))
    (included params "value_time_splits" (omap (vts_response_from_split db) splits))
    (included params "local_value_time_splits" (omap local_vts_response_from_split splits))
    (included params "source_links"
       (entity_link_response
          <$> get_source_entity_links_for_feed_entity db feed_guid "track" track_guid))
    (included params "source_ids"
       (entity_id_response
          <$> get_source_entity_ids_for_feed_entity db feed_guid "track" track_guid))
    (included params "source_contributors"
       (contributor_claim_response
          <$> get_effective_source_contributor_claims_for_track db feed_guid track_guid))
    (included params "source_release_claims"
       (release_claim_response
          <$> get_source_release_claims_for_feed_entity db feed_guid "track" track_guid))
    (included params "source_enclosures"
       (enclosure_response
          <$> get_source_item_enclosures_for_feed_entity db feed_guid "track" track_guid))
    (included params "source_transcripts"
       (transcript_response
          <$> get_source_item_transcripts_for_feed_entity db feed_guid "track" track_guid))
    (included params "remote_items" (load_track_remote_items db feed_guid track_guid))
    publisher).

Definition handle_get_track (db : Db) (track_guid : string) (params : ListQuery) :
    result ApiError EitherTrackResponse :=
  match get_track_rows_by_guid db track_guid with
  | [] => Err (ApiError.mk 404 "track not found")
  | [row] =>
      let? resp := build_track_response db row params in
      Ok (EitherTrackResponse.Found resp)
  | rows =>
      Ok (EitherTrackResponse.Ambiguous
        (ambiguous_track_candidates_for_tracks (TrackRow.track <$> rows)))
  end.

Definition handle_get_feed_track (db : Db) (feed_guid track_guid : string) (params : ListQuery) :
    result ApiError TrackResponse :=
  match get_track_row_for_feed db feed_guid track_guid with
  | None =>
      Err (ApiError.mk 404 ("track " ++ track_guid ++ " not found in feed " ++ feed_guid))
  | Some row => build_track_response db row params
  end.
End detail.
