(* ===== verification/FetchGuard.v ===== *)
(** The guard of outgoing requests (src/fetch_guard.rs): the address test, the
    test of a URL, and the fetch that pins the addresses of each hop. *)

From S2P Require Import Prelude.

(** ** Addresses *)

(** [std::net::IpAddr]: an address is the number of its 32 or 128 bits. *)
Module IpAddr.
Inductive IpAddr : Type :=
  | V4 (v4 : Z)
  | V6 (v6 : Z).
#[export] Instance eq_dec : EqDecision IpAddr.
Proof. solve_decision. Defined.
End IpAddr.
Abbreviation IpAddr := IpAddr.IpAddr.

(** [Ipv4Addr::octets] and [Ipv6Addr::segments], by index. *)
Definition octet (v4 : Z) (i : Z) : Z := Z.land (Z.shiftr v4 (8 * (3 - i))) 255.
Definition segment (v6 : Z) (i : Z) : Z := Z.land (Z.shiftr v6 (16 * (7 - i))) 65535.

(** The classes of [std::net::Ipv4Addr]. *)
Definition is_loopback (v4 : Z) : bool := octet v4 0 =? 127.
Definition is_private (v4 : Z) : bool :=
  (octet v4 0 =? 10)
  || (octet v4 0 =? 172) && (16 <=? octet v4 1) && (octet v4 1 <=? 31)
  || (octet v4 0 =? 192) && (octet v4 1 =? 168).
Definition is_link_local (v4 : Z) : bool := (octet v4 0 =? 169) && (octet v4 1 =? 254).
Definition is_broadcast (v4 : Z) : bool := v4 =? 2 ^ 32 - 1.
Definition is_unspecified (v4 : Z) : bool := v4 =? 0.
Definition is_multicast (v4 : Z) : bool := (224 <=? octet v4 0) && (octet v4 0 <=? 239).

Definition is_public_ipv4 (v4 : Z) : bool :=
  let o := octet v4 in
  let documentation :=
    (o 0 =? 192) && (o 1 =? 0) && (o 2 =? 2)
    || (o 0 =? 198) && (o 1 =? 51) && (o 2 =? 100)
    || (o 0 =? 203) && (o 1 =? 0) && (o 2 =? 113) in
  let benchmark := (o 0 =? 198) && (Z.land (o 1) 0xFE =? 18) in
  let cgnat := (o 0 =? 100) && (Z.land (o 1) 0xC0 =? 64) in
  negb (is_loopback v4 || is_private v4 || is_link_local v4 || is_broadcast v4
        || is_unspecified v4 || is_multicast v4 || documentation || benchmark || cgnat).

(** [Ipv4Addr::new] of the bytes of the last two segments. *)
Definition embedded_ipv4 (v6 : Z) : Z :=
  let hi := segment v6 6 in
  let lo := segment v6 7 in
  Z.lor (Z.shiftl (Z.shiftr hi 8) 24)
    (Z.lor (Z.shiftl (Z.land hi 255) 16)
       (Z.lor (Z.shiftl (Z.shiftr lo 8) 8) (Z.land lo 255))).

Definition is_public_ipv6 (v6 : Z) : bool :=
  if (v6 =? 0) || (v6 =? 1) then false
  else
    let s := segment v6 in
    let is_v4_mapped := (s 0 =? 0) && (s 1 =? 0) && (s 2 =? 0) && (s 3 =? 0) && (s 4 =? 0)
                        && (s 5 =? 0xffff) in
    let is_v4_compatible := (s 0 =? 0) && (s 1 =? 0) && (s 2 =? 0) && (s 3 =? 0) && (s 4 =? 0)
                            && (s 5 =? 0) in
    let is_nat64 := (s 0 =? 0x0064) && (s 1 =? 0xff9b) && (s 2 =? 0) && (s 3 =? 0) && (s 4 =? 0)
                    && (s 5 =? 0) in
    if is_v4_mapped || is_v4_compatible || is_nat64 then is_public_ipv4 (embedded_ipv4 v6)
    else
      let ula := Z.land (s 0) 0xFE00 =? 0xFC00 in
      let link_local := Z.land (s 0) 0xFFC0 =? 0xFE80 in
      let multicast := Z.land (s 0) 0xFF00 =? 0xFF00 in
      let documentation := (s 0 =? 0x2001) && (s 1 =? 0x0db8) in
      negb (ula || link_local || multicast || documentation).

Definition is_public_ip (ip : IpAddr) : bool :=
  match ip with
  | IpAddr.V4 v4 => is_public_ipv4 v4
  | IpAddr.V6 v6 => is_public_ipv6 v6
  end.

Definition is_private_ip (ip : IpAddr) : bool := negb (is_public_ip ip).

(** ** URLs *)

(** What the code reads of a [url::Url]: its parts, the path, and its text. *)
Module Url.
Record Url : Type := mk {
  scheme : string;
  username : string;
  password : option string;
  host_str : option string;
  port_or_known_default : option Z;
  path : string;
  href : string
}.
End Url.
Abbreviation Url := Url.Url.

(** [std::net::SocketAddr]. *)
Definition SocketAddr : Type := IpAddr * Z.

(** A request of a client whose addresses are pinned. *)
Module Request.
Record Request : Type := mk {
  url : string;
  hostname : string;
  addrs : list SocketAddr
}.
End Request.
Abbreviation Request := Request.Request.

(** What a request gives: an error, or the status, the [Location] header, the
    [Content-Length] and the chunks of the body. *)
Module Reply.
Inductive Reply : Type :=
  | SendError (e : string)
  | Response (status : Z) (location : option (result string string))
      (content_length : option Z) (chunks : list (result string string)).
End Reply.

(** The functions of the [url] crate, of [std::net] and of the network, as
    far as they are outside of the program. *)
Module Net.
Class Net : Type := {
  (** [url::Url::parse] and [Url::join], with the text of the error. *)
  parse : string → result string Url;
  join : Url → string → result string Url;
  (** [str::parse::<IpAddr>], and the text of an address. *)
  parse_ip : string → option IpAddr;
  show_ip : IpAddr → string;
  (** [String::from_utf8]. *)
  from_utf8 : string → result string string
}.
End Net.
Abbreviation Net := Net.Net.

Section guard.
Context `{Net}.

Local Open Scope string_scope.
Local Open Scope Z_scope.

(** The resolver of the moment: [ToSocketAddrs::to_socket_addrs]. *)
Definition Dns : Type := string → result string (list SocketAddr).

Definition is_http (scheme : string) : bool := (scheme =s "http") || (scheme =s "https").

Definition port_of (url : Url) : Z := unwrap_or 443 (Url.port_or_known_default url).

Definition socket_text (host : string) (port : Z) : string := host ++ ":" ++ pretty port.

(** [for addr in &resolved { if is_private_ip(addr.ip()) { return Err(..) } }] *)
Fixpoint first_private (addrs : list SocketAddr) : option IpAddr :=
  match addrs with
  | [] => None
  | (ip, _) :: rest => if is_private_ip ip then Some ip else first_private rest
  end.

Definition validate_feed_url (dns : Dns) (feed_url : string) :
    result string (list SocketAddr) :=
  match Net.parse feed_url with
  | Err e => Err ("invalid feed URL: " ++ e)
  | Ok url =>
      if negb (is_http (Url.scheme url)) then Err ("disallowed URL scheme: " ++ Url.scheme url)
      else match Url.host_str url with
      | None => Err "feed URL has no host"
      | Some host =>
          match Net.parse_ip host with
          | Some ip =>
              if is_private_ip ip
              then Err ("feed URL targets a private/reserved IP: " ++ Net.show_ip ip)
              else Ok [(ip, port_of url)]
          | None =>
              match dns (socket_text host (port_of url)) with
              | Err e => Err ("DNS resolution failed for " ++ host ++ ": " ++ e)
              | Ok [] => Err ("DNS resolution returned no addresses for " ++ host)
              | Ok resolved =>
                  match first_private resolved with
                  | Some ip => Err ("feed URL hostname resolves to private/reserved IP: "
                                    ++ Net.show_ip ip)
                  | None => Ok resolved
                  end
              end
          end
      end
  end.

Definition is_url_ssrf_safe (dns : Dns) (url : Url) : bool :=
  if negb (is_http (Url.scheme url)) then false
  else if negb (str_is_empty (Url.username url)) || is_some (Url.password url) then false
  else match Url.host_str url with
  | None => false
  | Some host =>
      match Net.parse_ip host with
      | Some ip => negb (is_private_ip ip)
      | None =>
          match dns (socket_text host (port_of url)) with
          | Err _ => false
          | Ok addrs =>
              negb (match addrs with [] => true | _ => false end)
              && negb (existsb (λ a, is_private_ip a.1) addrs)
          end
      end
  end.

Definition resolve_and_validate_url (dns : Dns) (url : Url) :
    result string (string * list SocketAddr) :=
  if negb (is_http (Url.scheme url)) then Err ("disallowed URL scheme: " ++ Url.scheme url)
  else match Url.host_str url with
  | None => Err "URL has no host"
  | Some host =>
      let port := port_of url in
      match Net.parse_ip host with
      | Some ip =>
          if is_private_ip ip
          then Err ("URL targets a private/reserved IP: " ++ Net.show_ip ip)
          else Ok (host, [(ip, port)])
      | None =>
          match dns (socket_text host port) with
          | Err e => Err ("DNS resolution failed for " ++ host ++ ": " ++ e)
          | Ok [] => Err ("DNS resolution returned no addresses for " ++ host)
          | Ok addrs =>
              match first_private addrs with
              | Some ip => Err ("URL hostname resolves to private/reserved IP: "
                                ++ Net.show_ip ip)
              | None => Ok (host, addrs)
              end
          end
      end
  end.

Definition validate_node_url (dns : Dns) (node_url : string) : result string unit :=
  match Net.parse node_url with
  | Err e => Err ("invalid node URL: " ++ e)
  | Ok url =>
      if negb (is_url_ssrf_safe dns url)
      then Err ("node URL rejected: targets a private/reserved address or uses a disallowed scheme: "
                ++ node_url)
      else Ok tt
  end.

(** ** The fetch *)

(** The loop over the chunks of the body. *)
Fixpoint read_chunks (max_body_bytes : Z) (body : string) (chunks : list (result string string)) :
    result string string :=
  match chunks with
  | [] =>
      match Net.from_utf8 body with
      | Ok text => Ok text
      | Err e => Err ("RSS response is not valid UTF-8: " ++ e)
      end
  | Err e :: _ => Err ("RSS fetch error: " ++ e)
  | Ok chunk :: rest =>
      let body := body ++ chunk in
      if max_body_bytes <? Z.of_nat (String.length body)
      then Err ("RSS response exceeds " ++ pretty max_body_bytes ++ " bytes")
      else read_chunks max_body_bytes body rest
  end.

(** An answer that is no redirect. The text of a status is its number here. *)
Definition read_response (max_body_bytes status : Z) (content_length : option Z)
    (chunks : list (result string string)) : result string string :=
  if negb ((200 <=? status) && (status <? 300))
  then Err ("RSS fetch returned HTTP " ++ pretty status)
  else if is_some_and (λ cl, max_body_bytes <? cl) content_length
  then Err ("RSS response too large: " ++ pretty (unwrap_or 0 content_length)
            ++ " bytes (limit: " ++ pretty max_body_bytes ++ ")")
  else read_chunks max_body_bytes "" chunks.

(** One turn per hop, [left] turns after this one: the requests that are sent
    and the result. [expired n] says that no time is left at the n-th hop. *)
Fixpoint follow (left : nat) (max_redirects : nat) (max_body_bytes : Z) (hop : nat)
    (expired : nat → bool) (dns : nat → Dns) (http : nat → Request → Reply.Reply)
    (current : Request) : list Request * result string string :=
  if expired hop then ([], Err "redirect chain timed out")
  else
    match http hop current with
    | Reply.SendError e => ([current], Err ("RSS fetch failed: " ++ e))
    | Reply.Response status location content_length chunks =>
        if negb ((300 <=? status) && (status <? 400))
        then ([current], read_response max_body_bytes status content_length chunks)
        else
          match left with
          | O => ([current], Err ("too many redirects (max " ++ pretty max_redirects ++ ")"))
          | S fewer =>
              match location with
              | None => ([current], Err "redirect response missing Location header")
              | Some (Err e) => ([current], Err ("invalid Location header: " ++ e))
              | Some (Ok location) =>
                  match Net.parse (Request.url current) with
                  | Err e => ([current], Err ("invalid current URL: " ++ e))
                  | Ok base =>
                      match Net.join base location with
                      | Err e => ([current], Err ("invalid redirect Location: " ++ e))
                      | Ok next_url =>
                          match resolve_and_validate_url (dns hop) next_url with
                          | Err e => ([current], Err ("redirect to " ++ Url.href next_url
                                                      ++ " blocked: " ++ e))
                          | Ok (next_hostname, next_addrs) =>
                              let '(requests, result) :=
                                follow fewer max_redirects max_body_bytes (S hop) expired dns http
                                  (Request.mk (Url.href next_url) next_hostname next_addrs) in
                              (current :: requests, result)
                          end
                      end
                  end
              end
          end
    end.

Definition fetch_with_pinned_redirects (expired : nat → bool) (dns : nat → Dns)
    (http : nat → Request → Reply.Reply) (initial_url initial_hostname : string)
    (initial_addrs : list SocketAddr) (max_redirects : nat) (max_body_bytes : Z) :
    list Request * result string string :=
  follow max_redirects max_redirects max_body_bytes 0 expired dns http
    (Request.mk initial_url initial_hostname initial_addrs).
End guard.

(** The rate limit of the HTTP server (src/api.rs, src/main.rs): the key of a
    request, and the layer that asks the limiter. The limiter of the governor
    crate is an argument: whether it lets a key through. *)

Section limit.
Context `{Net}.

(** [u128::from(v6) & !((1u128 << 64) - 1)]. *)
Definition prefix_64 (v6 : Z) : Z :=
  Z.land v6 (Z.lxor (2 ^ 128 - 1) (Z.shiftl 1 64 - 1)).

(** [x_real_ip] is the header, when it is text. *)
Definition rate_limit_key (x_real_ip : option string) (peer : option IpAddr) (trust_proxy : bool) :
    string :=
  let forwarded := if trust_proxy then s ← x_real_ip; Net.parse_ip (str_trim s) else None in
  match (match forwarded with Some ip => Some ip | None => peer end) with
  | Some (IpAddr.V6 v6) => (Net.show_ip (IpAddr.V6 (prefix_64 v6)) ++ "/64")%string
  | Some (IpAddr.V4 v4) => Net.show_ip (IpAddr.V4 v4)
  | None => "unknown"%string
  end.

(** The layer: [None] when the request goes on to the router, else the status. *)
Definition apply_rate_limit (check_key : string → bool) (path : string)
    (x_real_ip : option string) (peer : option IpAddr) (trust_proxy : bool) : option Z :=
  if path =s "/health" then None
  else if check_key (rate_limit_key x_real_ip peer trust_proxy) then None
  else Some 429.
End limit.
