(* ===== verification/Tls.v ===== *)
(** The TLS certificate of a node (src/tls.rs, src/main.rs): the expiry in it,
    and how it is renewed. *)

From S2P Require Import Prelude.
From S2P Require Import Search.
From S2P Require Import Paging.
From S2P Require Import FetchGuard.

(** The expiry of a certificate (src/tls.rs): the walk over the ASN.1 elements
    of a DER certificate to its [notAfter], and the two forms of a time.

    A slice or an index out of range panics in Rust, and so does a slice of a
    [str] that cuts a character: the result of the readers tells a panic from
    the [None] of the code. The [time] crate is the class [Calendar]. *)

Definition bytes : Type := list ascii.

Inductive Stop : Type :=
  | NoValue
  | Panicked.

#[export] Instance stop_eq_dec : EqDecision Stop.
Proof. solve_decision. Defined.

(** The [?] of an [Option]. *)
Definition need {A} (o : option A) : result Stop A :=
  match o with Some a => Ok a | None => Err NoValue end.

Class Calendar : Type := {
  (** [Date::from_calendar_date], as the Unix time of its midnight. *)
  from_calendar_date : Z → Z → Z → option Z;
  (** [Time::from_hms], as seconds of the day. *)
  from_hms : Z → Z → Z → option Z
}.

(** ** Slices *)

Definition index_byte (data : bytes) (i : nat) : result Stop Z :=
  match data !! i with Some a => Ok (byte_of a) | None => Err Panicked end.

(** [&data[start..]] and [&data[start..stop]]. *)
Definition slice_from (data : bytes) (start : nat) : result Stop bytes :=
  if (start <=? length data)%nat then Ok (drop start data) else Err Panicked.

Definition slice (data : bytes) (start stop : nat) : result Stop bytes :=
  if (start <=? stop)%nat && (stop <=? length data)%nat
  then Ok (take (stop - start) (drop start data)) else Err Panicked.

(** [&s[start..stop]] of a [str]. *)
Definition str_slice (s : string) (start stop : nat) : result Stop string :=
  if (start <=? stop)%nat && (stop <=? String.length s)%nat
     && is_char_boundary s start && is_char_boundary s stop
  then Ok (String.substring start (stop - start) s) else Err Panicked.

(** ** Elements *)

(** [len.checked_shl(8)?.checked_add(b)?] of a [usize] of 64 bits: the shift is
    in range and drops high bits. *)
Definition push_length_byte (len : option Z) (b : ascii) : option Z :=
  l ← len;
  let l := (l * 2 ^ 8) mod 2 ^ 64 + byte_of b in
  if l <? 2 ^ 64 then Some l else None.

(** The length, and how many bytes it takes. *)
Definition asn1_read_length (data : bytes) : result Stop (Z * nat) :=
  if (length data =? 0)%nat then Err NoValue
  else
    let? first := index_byte data 0 in
    if first <? 0x80 then Ok (first, 1%nat)
    else
      let num_bytes := Z.to_nat (Z.land first 0x7f) in
      if (num_bytes =? 0)%nat || (4 <? num_bytes)%nat || (length data <? 1 + num_bytes)%nat
      then Err NoValue
      else
        let? digits := slice data 1 (1 + num_bytes) in
        let? len := need (foldl push_length_byte (Some 0) digits) in
        Ok (len, (1 + num_bytes)%nat).

(** The value, and how many bytes the element takes. *)
Definition asn1_read_tlv (data : bytes) : result Stop (bytes * nat) :=
  if (length data =? 0)%nat then Err NoValue
  else
    let? rest := slice_from data 1 in
    let? (len, len_size) := asn1_read_length rest in
    let header := (1 + len_size)%nat in
    if Z.of_nat (length data) <? Z.of_nat header + len then Err NoValue
    else
      let? value := slice data header (header + Z.to_nat len) in
      Ok (value, (header + Z.to_nat len)%nat).

Definition asn1_enter_sequence (data : bytes) : result Stop bytes :=
  if (length data =? 0)%nat then Err NoValue
  else
    let? tag := index_byte data 0 in
    if negb (tag =? 0x30) then Err NoValue
    else
      let? (inner, _) := asn1_read_tlv data in
      Ok inner.

(** ** Times *)

(** [str::parse::<i32>]. *)
Definition parse_i32 (s : string) : option Z :=
  z ← parse_i64 s;
  if (- 2 ^ 31 <=? z) && (z <? 2 ^ 31) then Some z else None.

Section time.
Context `{Calendar}.

(** The two digits from [at_] on, as a [u8]. *)
Definition two_digits (s : string) (at_ : nat) : result Stop Z :=
  let? part := str_slice s at_ (at_ + 2) in
  need (parse_u8 part).

(** The rest of both forms, from the month on. *)
Definition month_to_second (s : string) (year : Z) (at_ : nat) : result Stop Z :=
  let? month := two_digits s at_ in
  let? day := two_digits s (at_ + 2) in
  let? hour := two_digits s (at_ + 4) in
  let? min := two_digits s (at_ + 6) in
  let? sec := two_digits s (at_ + 8) in
  if negb ((1 <=? month) && (month <=? 12)) then Err NoValue
  else
    let? date := need (from_calendar_date year month day) in
    let? t := need (from_hms hour min sec) in
    Ok (date + t).

(** A [UTCTime] or a [GeneralizedTime], as Unix seconds. *)
Definition parse_asn1_time (tag : Z) (value : bytes) : result Stop Z :=
  let s := String.string_of_list_ascii value in
  if negb (utf8_valid s) then Err NoValue
  else if tag =? 0x17 then
    if (String.length s <? 13)%nat then Err NoValue
    else
      let? part := str_slice s 0 2 in
      let? yy := need (parse_i32 part) in
      month_to_second s (if 50 <=? yy then 1900 + yy else 2000 + yy) 2
  else if tag =? 0x18 then
    if (String.length s <? 15)%nat then Err NoValue
    else
      let? part := str_slice s 0 4 in
      let? year := need (parse_i32 part) in
      month_to_second s year 4
  else Err NoValue.

(** ** Certificates *)

Definition skip_element (data : bytes) (pos : nat) : result Stop nat :=
  let? rest := slice_from data pos in
  let? (_, consumed) := asn1_read_tlv rest in
  Ok (pos + consumed)%nat.

Definition expiry_from_der (der : bytes) : result Stop Z :=
  let? tbs := asn1_enter_sequence der in
  let? tbs_inner := asn1_enter_sequence tbs in
  let? has_version :=
    if (length tbs_inner =? 0)%nat then Ok false
    else let? tag := index_byte tbs_inner 0 in Ok (tag =? 0xa0) in
  let? pos := if (has_version : bool) then skip_element tbs_inner 0 else Ok 0%nat in
  let? pos := skip_element tbs_inner pos in
  let? pos := skip_element tbs_inner pos in
  let? pos := skip_element tbs_inner pos in
  let? rest := slice_from tbs_inner pos in
  let? validity_data := asn1_enter_sequence rest in
  let? (_, consumed) := asn1_read_tlv validity_data in
  let? remaining := slice_from validity_data consumed in
  if (length remaining =? 0)%nat then Err NoValue
  else
    let? tag := index_byte remaining 0 in
    let? (value, _) := asn1_read_tlv remaining in
    parse_asn1_time tag value.
End time.

(** The TLS certificate of a node (src/tls.rs, src/main.rs): when it is
    renewed, how it is provisioned, and which one the server uses.

    The PEM reader and the loader of rustls are the class [Pem], and the ACME
    client is the class [Acme], with the answers of the moment; they change
    between calls, so each call takes its own. The file system is a map from a
    path to the mode and the bytes of a file; what fails in it is the class
    [Disk]: a read of the account, the making of a directory, and a write, before
    or after it emptied the file. *)

Module Identifier.
Inductive Identifier : Type := Dns (name : string) | Ip (ip : IpAddr).
End Identifier.
Abbreviation Identifier := Identifier.Identifier.

(** One authorization of an order: its status, the token and the key
    authorization of its http-01 challenge, and what [set_ready] answers. *)
Module Authorization.
Record Authorization : Type := mk {
  valid : bool;
  http01 : option (string * string);
  set_ready : result string unit
}.
End Authorization.
Abbreviation Authorization := Authorization.Authorization.

Class Pem : Type := {
  (** [rustls_pemfile::read_all], the certificates only. *)
  parse_pem_certs : bytes → list bytes;
  (** [RustlsConfig::from_pem_file]. *)
  load_pem : bytes → bytes → result string unit
}.

Class Acme : Type := {
  Account : Type;
  Order : Type;
  production_url : string;
  staging_url : string;
  (** The stored credentials, read and restored; the text of an error is
      whole. *)
  restore_account : bytes → result string Account;
  (** A new account for a contact at a directory, with its credentials; the
      text of an error is whole. *)
  create_account : string → string → result string (Account * bytes);
  new_order : Account → Identifier → result string Order;
  authorizations : Order → list (result string Authorization);
  poll_ready : Order → result string unit;
  finalize : Order → result string bytes;
  poll_certificate : Order → result string bytes
}.

Module TlsConfig.
Record TlsConfig : Type := mk {
  domain : string;
  acme_email : string;
  cert_path : string;
  key_path : string;
  acme_account_path : string;
  staging : bool;
  acme_directory_url : option string
}.
End TlsConfig.
Abbreviation TlsConfig := TlsConfig.TlsConfig.

Definition RENEWAL_CHECK_INTERVAL_SECS : Z := 12 * 60 * 60.

(** The files of the node: the mode and the content. A file that cannot be read
    is one that is not there, where the code treats the two alike (the
    certificate and the key); [Disk.can_read] is the difference for the
    account. *)
Definition Files : Type := gmap string (Z * bytes).

Definition read_file (files : Files) (path : string) : option bytes := snd <$> files !! path.

(** What becomes of one write: the whole data is on disk, or the file is not
    opened, or it is opened, which empties it, and an error comes after some of
    its data. *)
Module WriteOutcome.
Inductive WriteOutcome : Type := Whole | NotOpened (error : string) | Cut (written : nat) (error : string).
End WriteOutcome.
Abbreviation WriteOutcome := WriteOutcome.WriteOutcome.

(** The disk as one provisioning meets it. *)
Class Disk : Type := {
  (** [std::fs::read] of a file that exists. *)
  can_read : string → result string unit;
  (** [std::fs::create_dir_all] of the parent of a path. *)
  create_parent : string → result string unit;
  write_outcome : string → bytes → WriteOutcome
}.

(** A write with the mode that a new file gets; an existing file keeps its
    own. *)
Definition write_with_mode `{Disk} (mode : Z) (path : string) (data : bytes) (files : Files) :
    Files * result string unit :=
  let put data := <[path := (unwrap_or mode (fst <$> files !! path), data)]> files in
  match write_outcome path data with
  | WriteOutcome.Whole => (put data, Ok tt)
  | WriteOutcome.NotOpened e => (files, Err e)
  | WriteOutcome.Cut written e => (put (take written data), Err e)
  end.

(** [std::fs::write]: a new file has the mode that the umask leaves, 0o644. *)
Definition write_file `{Disk} : string → bytes → Files → Files * result string unit :=
  write_with_mode 420.

(** [write_private_file]: the mode 0o600 is given to a file that it
    creates. *)
Definition write_private_file `{Disk} : string → bytes → Files → Files * result string unit :=
  write_with_mode 384.

(** ** Renewal *)

Section renewal.
Context `{Calendar} `{Pem}.

(** [Duration::whole_days] of nanoseconds. *)
Definition whole_days (nanos : Z) : Z := Z.quot nanos (86400 * 10 ^ 9).

(** [now] in nanoseconds. A panic of the walk is one of the check. *)
Definition cert_needs_renewal (now : Z) (files : Files) (cert_path : string) : result Stop bool :=
  match read_file files cert_path with
  | None => Ok true
  | Some pem_bytes =>
      match parse_pem_certs pem_bytes with
      | [] => Ok true
      | leaf_der :: _ =>
          match expiry_from_der leaf_der with
          | Err Panicked => Err Panicked
          | Err NoValue => Ok true
          | Ok not_after => Ok (whole_days (not_after * 10 ^ 9 - now) <? 30)
          end
      end
  end.
End renewal.

(** ** Provisioning *)

Section provision.
Context `{Net} `{Acme} `{Disk}.

Definition resolved_directory_url (config : TlsConfig) : string :=
  match TlsConfig.acme_directory_url config with
  | Some url => url
  | None => if TlsConfig.staging config then staging_url else production_url
  end.

(** The first authorization that is not valid. *)
Fixpoint process_authorizations (authzs : list (result string Authorization)) :
    result string (option (string * string)) :=
  match authzs with
  | [] => Ok None
  | Err e :: _ => Err ("ACME authorization error: " ++ e)%string
  | Ok authz :: authzs =>
      if Authorization.valid authz then process_authorizations authzs
      else
        match Authorization.http01 authz with
        | None => Err "no http-01 challenge offered by ACME server"%string
        | Some challenge =>
            match Authorization.set_ready authz with
            | Err e => Err ("ACME set_ready error: " ++ e)%string
            | Ok _ => Ok (Some challenge)
            end
        end
  end.

(** [map_err(|e| format!(..))]. *)
Definition acme_error {A} (step : string) (r : result string A) : result string A :=
  match r with
  | Ok a => Ok a
  | Err e => Err ("ACME " ++ step ++ " error: " ++ e)%string
  end.

(** The account, restored or created and stored. *)
Definition account_of (config : TlsConfig) (files : Files) : Files * result string Account :=
  let path := TlsConfig.acme_account_path config in
  match read_file files path with
  | Some raw => (files, let? _ := can_read path in restore_account raw)
  | None =>
      match (let? created := create_account ("mailto:" ++ TlsConfig.acme_email config)
                               (resolved_directory_url config) in
             let? _ := create_parent path in Ok created) with
      | Err e => (files, Err e)
      | Ok (account, credentials) =>
          let '(files, written) := write_private_file path credentials files in
          (files, let? _ := written in Ok account)
      end
  end.

Definition identifier_of (config : TlsConfig) : Identifier :=
  match Net.parse_ip (TlsConfig.domain config) with
  | Some ip => Identifier.Ip ip
  | None => Identifier.Dns (TlsConfig.domain config)
  end.

(** The order, up to the certificate chain and the private key. The challenge
    server runs while the order is polled. *)
Definition order_certificate (config : TlsConfig) (account : Account) :
    result string (bytes * bytes) :=
  let? order := acme_error "new_order" (new_order account (identifier_of config)) in
  let? challenge_info := process_authorizations (authorizations order) in
  match challenge_info with
  | None => Err "no pending authorizations found — nothing to challenge"%string
  | Some _ =>
      let? _ := acme_error "poll_ready" (poll_ready order) in
      let? private_key_pem := acme_error "finalize" (finalize order) in
      let? cert_chain_pem := acme_error "poll_certificate" (poll_certificate order) in
      Ok (cert_chain_pem, private_key_pem)
  end.

Definition provision_certificate (config : TlsConfig) (files : Files) :
    Files * result string unit :=
  match account_of config files with
  | (files, Err e) => (files, Err e)
  | (files, Ok account) =>
      match (let? issued := order_certificate config account in
             let? _ := create_parent (TlsConfig.cert_path config) in
             let? _ := create_parent (TlsConfig.key_path config) in
             Ok issued) with
      | Err e => (files, Err e)
      | Ok (cert_chain_pem, private_key_pem) =>
          match write_file (TlsConfig.cert_path config) cert_chain_pem files with
          | (files, Err e) => (files, Err e)
          | (files, Ok _) => write_private_file (TlsConfig.key_path config) private_key_pem files
          end
      end
  end.
End provision.

(** *** The challenge server *)

Module ChallengeState.
Record ChallengeState : Type := mk {
  token : string;
  key_auth : string;
  domain : string
}.
End ChallengeState.
Abbreviation ChallengeState := ChallengeState.ChallengeState.

(** A body, or a redirect. *)
Definition redirect_home (state : ChallengeState) : string + string :=
  inr ("https://" ++ ChallengeState.domain state ++ "/")%string.

Definition serve_challenge (req_token : string) (state : ChallengeState) : string + string :=
  if req_token =s ChallengeState.token state then inl (ChallengeState.key_auth state)
  else redirect_home state.

(** The router: [req_token] is the path parameter of the challenge route. *)
Definition run_challenge_server (req_token : option string) (state : ChallengeState) :
    string + string :=
  match req_token with
  | Some req_token => serve_challenge req_token state
  | None => redirect_home state
  end.

(** ** The server *)

(** The files, the chain and the key that rustls has loaded, and whether the
    renewal task lives. *)
Module TlsNode.
Record TlsNode : Type := mk {
  files : Files;
  served : bytes * bytes;
  renewing : bool
}.
End TlsNode.
Abbreviation TlsNode := TlsNode.TlsNode.

Section server.
Context `{Calendar} `{Pem} `{Net}.

(** One round of [spawn_renewal_task], behind its sleep: a panic ends the
    task, and an error of the provisioning is logged. *)
Definition renewal_round (config : TlsConfig) (node : TlsNode)
    (at_ : Acme * Disk * Z) : TlsNode :=
  let '(acme, disk, now) := at_ in
  if negb (TlsNode.renewing node) then node
  else
    match cert_needs_renewal now (TlsNode.files node) (TlsConfig.cert_path config) with
    | Err _ => TlsNode.mk (TlsNode.files node) (TlsNode.served node) false
    | Ok false => node
    | Ok true =>
        TlsNode.mk (provision_certificate config (TlsNode.files node)).1
          (TlsNode.served node) true
    end.

(** The TLS branch of [serve_with_optional_tls], up to the start of the server.
    [None]: the node does not start. *)
Definition start_tls `{Acme} `{Disk} (config : TlsConfig) (now : Z) (files : Files) : option TlsNode :=
  match cert_needs_renewal now files (TlsConfig.cert_path config) with
  | Err _ => None
  | Ok needs =>
      let '(files, ready) := if (needs : bool) then provision_certificate config files
                             else (files, Ok tt) in
      match ready, read_file files (TlsConfig.cert_path config),
            read_file files (TlsConfig.key_path config) with
      | Ok _, Some cert, Some key =>
          if is_ok (load_pem cert key) then Some (TlsNode.mk files (cert, key) true) else None
      | _, _, _ => None
      end
  end.
End server.
