(* ===== verification/Migrations.v ===== *)
(** What the open of a database does to an old one (src/db.rs): the
    migrations, and the repairs of the search index. *)

From S2P Require Import Prelude.
From S2P Require Import Model.
From S2P Require Import Crates.
From S2P Require Import Medium.
From S2P Require Import Store.
From S2P Require Import Search.
From S2P Require Import Catalog.
From S2P Require Import Feeds.

(** The schema migrations (src/db.rs): the runner, which gives each script the
    version of its place in the list, and what a start finds recorded.

    SQLite runs a script, with foreign keys on or off, on the rest of the
    database, of the type [S]: the class [Sqlite]. No script writes
    [schema_migrations]. The scripts are the files of src/migrations, here an
    argument. *)

Class Sqlite (S : Type) : Type := {
  (** [execute_batch] of a script. *)
  exec_script : bool → string → S → result DbError S;
  (** Whether [PRAGMA foreign_key_check] gives a row. *)
  fk_violation : S → bool
}.

Definition FOREIGN_KEYS_OFF_MARKER : string := "-- stophammer: foreign_keys=off".

(** [str::lines().next()]: [None] of the empty text, and no line ending. *)
Fixpoint line_before (s : string) : string :=
  match s with
  | EmptyString => EmptyString
  | String a r =>
      if Ascii.eqb a "010" then EmptyString
      else if Ascii.eqb a "013" && starts_with r (String "010" "") then EmptyString
      else String a (line_before r)
  end.

Definition first_line (s : string) : option string :=
  if str_is_empty s then None else Some (line_before s).

Definition needs_foreign_keys_off (sql : string) : bool :=
  first_line sql == Some FOREIGN_KEYS_OFF_MARKER.

(** ** The connection *)

(** [schema] is what the scripts work on; [applied] the rows of
    [schema_migrations], [None] when there is no such table. *)
Module Conn.
Record Conn (S : Type) : Type := mk {
  schema : S;
  applied : option (gmap Z Z);
  foreign_keys : bool
}.
#[global] Arguments mk {S}.
#[global] Arguments schema {S}.
#[global] Arguments applied {S}.
#[global] Arguments foreign_keys {S}.
End Conn.
Abbreviation Conn := Conn.Conn.

(** [SELECT COALESCE(MAX(version), 0)]. *)
Definition max_version (m : gmap Z Z) : Z :=
  match fst <$> map_to_list m with
  | [] => 0
  | v :: vs => foldr Z.max v vs
  end.

Section migrations.
Context {S : Type} `{Sqlite S}.

Definition recorded_migration_version (conn : Conn S) : Z :=
  match Conn.applied conn with
  | None => 0
  | Some m => max_version m
  end.

Definition migrations_can_advance (recorded_version : Z) (total : nat) : bool :=
  recorded_version <=? Z.of_nat total.

Definition set_foreign_keys (on : bool) (conn : Conn S) : Conn S :=
  Conn.mk (Conn.schema conn) (Conn.applied conn) on.

(** An error leaves the connection as it was: the transaction rolls back. *)
Definition run_one_migration (now : Z) (conn : Conn S) (sql : string) (version : Z)
    (needs_foreign_keys_off : bool) : Conn S * result DbError unit :=
  match exec_script (Conn.foreign_keys conn) sql (Conn.schema conn) with
  | Err e => (conn, Err e)
  | Ok s =>
      if needs_foreign_keys_off && fk_violation s
      then (conn, Err (Other ("migration " ++ pretty version
              ++ " left a foreign key violation with foreign keys off; rolled back")))
      else
        match Conn.applied conn with
        | None => (conn, Err (Other "no such table: schema_migrations"))
        | Some m =>
            if is_some (m !! version) then (conn, Err (Rusqlite Unique))
            else (Conn.mk s (Some (<[version := now]> m)) (Conn.foreign_keys conn), Ok tt)
        end
  end.

(** One round of the loop. *)
Definition migrate (now : Z) (conn : Conn S) (sql : string) (version : Z) :
    Conn S * result DbError unit :=
  let off := needs_foreign_keys_off sql in
  let conn := if off then set_foreign_keys false conn else conn in
  let '(conn, r) := run_one_migration now conn sql version off in
  (if off then set_foreign_keys true conn else conn, r).

(** The loop, from the script with the version [version]. *)
Fixpoint migrate_all (now current : Z) (conn : Conn S) (version : Z) (migrations : list string) :
    Conn S * result DbError unit :=
  match migrations with
  | [] => (conn, Ok tt)
  | sql :: migrations =>
      if version <=? current then migrate_all now current conn (version + 1) migrations
      else
        match migrate now conn sql version with
        | (conn, Err e) => (conn, Err e)
        | (conn, Ok _) => migrate_all now current conn (version + 1) migrations
        end
  end.

Definition with_version_table (conn : Conn S) : Conn S :=
  Conn.mk (Conn.schema conn) (Some (unwrap_or ∅ (Conn.applied conn))) (Conn.foreign_keys conn).

(** [run_migrations], which also logs when [migrations_can_advance] is false. *)
Definition run_migrations (migrations : list string) (now : Z) (conn : Conn S) :
    Conn S * result DbError unit :=
  let conn := with_version_table conn in
  migrate_all now (recorded_migration_version conn) conn 1 migrations.
End migrations.

(** The repairs of the search index at the start of a node (src/db.rs,
    [try_open_db]): the three [ensure_search_index_*] functions, which fill the
    index from the feeds and the tracks of the database.

    The table [search_index] of an old node has another definition; whether it
    has is an argument, and its rows are dropped with it. The other repairs of
    [try_open_db] change the schema, or fill columns that are derived here. *)

(** [SELECT feed_guid FROM feeds]. *)
Definition feed_guids (db : Db) : list string := fst <$> map_to_list (feeds db).

(** [EXISTS(SELECT 1 FROM ..)] of the entities. *)
Definition has_entity (keep : string * string → bool) (db : Db) : bool :=
  existsb (λ e, keep e.2) (map_to_list (search_entities db)).

(** [entity_type = 'track'], and an id that does not begin as the JSON text of
    a pair does, with a bracket and a quotation mark. *)
Definition bare_track (e : string * string) : bool :=
  (e.1 =s "track") && negb (starts_with e.2 (String "[" (String "034" ""))).

Section repairs.
Context `{Crates}.

Definition clear_index : DB unit :=
  execute (λ db, set_search_entities ∅ (set_search_index ∅ db)).

(** [DELETE FROM entity_quality WHERE ..] of the bare tracks. *)
Definition delete_stale_quality : DB unit :=
  execute (λ db, set_entity_quality (filter (λ '(key, _), bare_track key = false) (entity_quality db)) db).

Definition fill_index (now : Z) : DB unit :=
  guids ← query feed_guids;
  for_each (sync_source_read_models_for_feed now) guids.

Definition ensure_search_index_text_columns (now : Z) (has_old_definition : bool) : DB unit :=
  needs_fill ← query (λ db,
    negb (has_entity (λ _, true) db) && (0 <? length (feed_guids db))%nat);
  if negb has_old_definition && negb needs_fill then mret tt
  else transaction (_ ← clear_index; fill_index now).

Definition ensure_search_index_track_identity (now : Z) : DB unit :=
  has_bare_track_rows ← query (has_entity bare_track);
  if negb has_bare_track_rows then mret tt
  else transaction (_ ← clear_index; _ ← delete_stale_quality; fill_index now).

(** [lower(raw_medium) = 'publisher'], and no entity of the feed. *)
Definition missing_publisher_feeds (db : Db) : list string :=
  fst <$>
    List.filter (λ '(guid, row), is_publisher (Feed.raw_medium (FeedRow.feed row))
      && negb (has_entity (λ e, (e.1 =s "publisher") && (e.2 =s guid)) db))
      (map_to_list (feeds db)).

Definition ensure_search_index_publisher_feeds (now : Z) : DB unit :=
  missing ← query missing_publisher_feeds;
  if (length missing =? 0)%nat then mret tt
  else transaction (for_each (sync_source_read_models_for_feed now) missing).

(** The repairs of the index, in the order of [try_open_db]. *)
Definition ensure_search_index (now : Z) (has_old_definition : bool) : DB unit :=
  _ ← ensure_search_index_text_columns now has_old_definition;
  _ ← ensure_search_index_track_identity now;
  ensure_search_index_publisher_feeds now.
End repairs.
