(* ===== verification/SearchRead.v ===== *)
(** The search (src/search.rs, src/query.rs): its request, and its rows. *)

From Stdlib Require Import Floats.SpecFloat.
From S2P Require Import Prelude.
From S2P Require Import Model.
From S2P Require Import Event.
From S2P Require Import Float64.
From S2P Require Import Crates.
From S2P Require Import Store.
From S2P Require Import Search.
From S2P Require Import Catalog.
From S2P Require Import Links.
From S2P Require Import Admin.
From S2P Require Import Sync.
From S2P Require Import Paging.
From S2P Require Import Listings.
From S2P Require Import Detail.

(** The request of a search (src/query.rs, src/search.rs): the parameters, the
    filters with their forms of value, and the checks in the code's order.

    The pairs of the query string are an argument: [form_urlencoded::parse]
    has decoded them. The [time] crate and [url::Host] are [SearchCrates]. *)

Class SearchCrates : Type := {
  (** [url::Host::parse], as text. *)
  parse_host : string → option string;
  (** [time::Date::from_calendar_date], as the Unix time of its midnight. *)
  calendar_midnight : Z → Z → Z → option Z
}.

(** ** Filters *)

Module SearchFilterSpec.
Record SearchFilterSpec : Type := mk {
  name : string;
  types : list string
}.
End SearchFilterSpec.
Abbreviation SearchFilterSpec := SearchFilterSpec.SearchFilterSpec.

Definition applies_to (spec : SearchFilterSpec) (entity_type : string) : bool :=
  existsb (String.eqb entity_type) (SearchFilterSpec.types spec).

Definition repeats (spec : SearchFilterSpec) : bool :=
  starts_with (SearchFilterSpec.name spec) "not_".

Definition SEARCH_FILTERS : list SearchFilterSpec :=
  let all := ["feed"; "track"; "publisher"]%string in
  let releases := ["feed"; "track"]%string in
  [SearchFilterSpec.mk "artist" all; SearchFilterSpec.mk "not_artist" all;
   SearchFilterSpec.mk "title" all; SearchFilterSpec.mk "not_title" all;
   SearchFilterSpec.mk "release" releases; SearchFilterSpec.mk "not_release" releases;
   SearchFilterSpec.mk "not_q" all; SearchFilterSpec.mk "kind" releases;
   SearchFilterSpec.mk "tracks" releases; SearchFilterSpec.mk "min_tracks" releases;
   SearchFilterSpec.mk "max_tracks" releases; SearchFilterSpec.mk "after" releases;
   SearchFilterSpec.mk "before" releases; SearchFilterSpec.mk "min_duration" ["track"%string];
   SearchFilterSpec.mk "max_duration" ["track"%string]; SearchFilterSpec.mk "host" all;
   SearchFilterSpec.mk "not_host" all].

(** [SEARCH_FILTERS.iter().find(|f| f.name == name)]. *)
Definition filter_spec (name : string) : option SearchFilterSpec :=
  find (λ f, SearchFilterSpec.name f =s name) SEARCH_FILTERS.

Definition SEARCH_KINDS : list string := ["album"; "ep"; "single"; "unknown"]%string.

Definition SEARCH_VALUE_FILTERS : list string :=
  ["kind"; "tracks"; "min_tracks"; "max_tracks"; "after"; "before"; "min_duration";
   "max_duration"; "host"; "not_host"]%string.

Definition SECONDS_PER_DAY : Z := 86400.
Definition SEARCH_EXCLUSION_MAX : nat := 10.

Module TextField.
Inductive TextField : Type := Artist | Title | Release | Any.
End TextField.
Abbreviation TextField := TextField.TextField.

Module TextFilter.
Record TextFilter : Type := mk {
  field : TextField;
  phrases : list string
}.
End TextFilter.
Abbreviation TextFilter := TextFilter.TextFilter.

Module ValueFilters.
Record ValueFilters : Type := mk {
  kinds : option (list string);
  tracks : option Z;
  min_tracks : option Z;
  max_tracks : option Z;
  after : option Z;
  before_end : option Z;
  min_duration : option Z;
  max_duration : option Z;
  host : option string;
  not_hosts : list string
}.
End ValueFilters.
Abbreviation ValueFilters := ValueFilters.ValueFilters.

Module SearchFilters.
Record SearchFilters : Type := mk {
  include : list TextFilter;
  exclude : list TextFilter;
  values : ValueFilters
}.
End SearchFilters.
Abbreviation SearchFilters := SearchFilters.SearchFilters.

Definition no_values : ValueFilters :=
  ValueFilters.mk None None None None None None None None None [].

(** [SearchFilters::default]. *)
Definition no_filters : SearchFilters := SearchFilters.mk [] [] no_values.

(** [ValueFilters::has_positive]. *)
Definition values_positive (v : ValueFilters) : bool :=
  is_some (ValueFilters.kinds v) || is_some (ValueFilters.tracks v)
  || is_some (ValueFilters.min_tracks v) || is_some (ValueFilters.max_tracks v)
  || is_some (ValueFilters.after v) || is_some (ValueFilters.before_end v)
  || is_some (ValueFilters.min_duration v) || is_some (ValueFilters.max_duration v)
  || is_some (ValueFilters.host v).

Definition has_positive (f : SearchFilters) : bool :=
  negb (match SearchFilters.include f with [] => true | _ => false end)
  || values_positive (SearchFilters.values f).

Definition exclusion_count (f : SearchFilters) : nat :=
  length (SearchFilters.exclude f) + length (ValueFilters.not_hosts (SearchFilters.values f)).

(** ** Forms of value *)

Fixpoint all_digits (s : string) : bool :=
  match s with
  | EmptyString => true
  | String a r => is_some (digit_of a) && all_digits r
  end.

Definition parse_filter_integer (value : string) : option Z :=
  if str_is_empty value || negb (all_digits value) then None else parse_i64 value.

(** The digits of a range of the text, as a number. *)
Definition digits_at (value : string) (start count : nat) : option Z :=
  let part := String.substring start count value in
  if all_digits part then parse_digits part else None.

(** [YYYY-MM-DD], as the Unix time of the midnight. A month and a day of two
    digits fit [u8]. *)
Definition parse_filter_day `{SearchCrates} (value : string) : option Z :=
  if negb (String.length value =? 10)%nat
     || negb (String.get 4 value == Some "-"%char)
     || negb (String.get 7 value == Some "-"%char) then None
  else
    year ← digits_at value 0 4;
    month ← digits_at value 5 2;
    if (1 <=? month) && (month <=? 12) then
      day ← digits_at value 8 2;
      calendar_midnight year month day
    else None.

(** No slash, no at sign, and a colon in brackets only. *)
Fixpoint host_form (in_brackets : bool) (s : string) : bool :=
  match s with
  | EmptyString => true
  | String c r =>
      if Ascii.eqb c "/" || Ascii.eqb c "@" then false
      else if Ascii.eqb c "[" then host_form true r
      else if Ascii.eqb c "]" then host_form false r
      else if Ascii.eqb c ":" && negb in_brackets then false
      else host_form in_brackets r
  end.

(** [str::trim_end_matches] of the dot. *)
Fixpoint trim_end_dots (s : string) : string :=
  match s with
  | EmptyString => EmptyString
  | String a r =>
      let r' := trim_end_dots r in
      if Ascii.eqb a "." && str_is_empty r' then EmptyString else String a r'
  end.

Definition parse_filter_host `{Crates} `{SearchCrates} (value : string) : option string :=
  if negb (host_form false value) || str_is_empty value then None
  else
    host ← parse_host value;
    let host := trim_end_dots (to_lowercase host) in
    if str_is_empty host then None else Some host.

(** [collect] of options: one bad kind fails them all. *)
Definition parse_filter_kinds (value : string) : option (list string) :=
  mapM (λ kind, if existsb (String.eqb kind) SEARCH_KINDS then Some kind else None)
    (split_on "," value).

(** ** The request *)

(** A refusal: an [ApiError], or the body of a filter error with 400. *)
Module SearchError.
Inductive SearchError : Type :=
  | Plain (e : ApiError)
  | Filter (code : string) (filter : option string) (error : string).
End SearchError.
Abbreviation SearchError := SearchError.SearchError.

Module SearchRequest.
Record SearchRequest : Type := mk {
  q : string;
  kind : option string;
  limit : option Z;
  cursor : option string;
  include : option string;
  filters : SearchFilters
}.
End SearchRequest.
Abbreviation SearchRequest := SearchRequest.SearchRequest.

Definition request_includes (params : SearchRequest) (field : string) : bool :=
  is_some_and (λ s, existsb (λ f, str_trim f =s field) (split_on "," s))
    (SearchRequest.include params).

Definition SINGLE : list string := ["q"; "type"; "limit"; "cursor"; "include"]%string.

Definition plain {A} (message : string) : result SearchError A :=
  Err (SearchError.Plain (ApiError.mk 400 message)).

Definition filter_error {A} (code name message : string) : result SearchError A :=
  Err (SearchError.Filter code (Some name) message).

Definition single (pairs : list (string * string)) (name : string) :
    result SearchError (option string) :=
  match snd <$> List.filter (λ p, p.1 =s name) pairs with
  | [] => Ok None
  | [first] => Ok (Some first)
  | _ => plain ("duplicate parameter `" ++ name ++ "`")
  end.

(** Check 1. *)
Definition check_known (pairs : list (string * string)) : result SearchError unit :=
  match find (λ p, negb (existsb (String.eqb p.1) SINGLE) && negb (is_some (filter_spec p.1)))
          pairs with
  | Some (name, _) =>
      filter_error "unsupported_filter" name (name ++ " is not a parameter of this node")
  | None => Ok tt
  end.

(** The entity types that each filter must apply to. *)
Definition request_types (kind : option string) : list string :=
  match kind with
  | None => ["feed"; "track"]
  | Some k =>
      if (k =s "feed") || (k =s "track") || (k =s "publisher") then [k] else []
  end%string.

(** Check 2. *)
Definition check_applies (kind : option string) (pairs : list (string * string)) :
    result SearchError unit :=
  match find (λ p, is_some_and (λ spec, negb (forallb (applies_to spec) (request_types kind)))
                     (filter_spec p.1)) pairs with
  | Some (name, _) =>
      let scope := match kind with
                   | None => "a request with no type"
                   | Some k => "type=" ++ k
                   end%string in
      filter_error "unsupported_filter" name (name ++ " is not supported for " ++ scope)
  | None => Ok tt
  end.

Section request.
Context `{Crates} `{SearchCrates}.

(** The value of a value filter, put in its place. *)
Definition set_value (name value : string) (v : ValueFilters) : option ValueFilters :=
  let '(ValueFilters.mk kinds tracks lo hi after before_end dlo dhi host not_hosts) := v in
  if name =s "kind" then
    k ← parse_filter_kinds value;
    Some (ValueFilters.mk (Some k) tracks lo hi after before_end dlo dhi host not_hosts)
  else if name =s "host" then
    h ← parse_filter_host value;
    Some (ValueFilters.mk kinds tracks lo hi after before_end dlo dhi (Some h) not_hosts)
  else if name =s "not_host" then
    h ← parse_filter_host value;
    Some (ValueFilters.mk kinds tracks lo hi after before_end dlo dhi host (not_hosts ++ [h]))
  else if name =s "after" then
    d ← parse_filter_day value;
    Some (ValueFilters.mk kinds tracks lo hi (Some d) before_end dlo dhi host not_hosts)
  else if name =s "before" then
    d ← parse_filter_day value;
    Some (ValueFilters.mk kinds tracks lo hi after (Some (i64_add d SECONDS_PER_DAY)) dlo dhi
            host not_hosts)
  else
    n ← parse_filter_integer value;
    Some
      (if name =s "tracks" then
         ValueFilters.mk kinds (Some n) lo hi after before_end dlo dhi host not_hosts
       else if name =s "min_tracks" then
         ValueFilters.mk kinds tracks (Some n) hi after before_end dlo dhi host not_hosts
       else if name =s "max_tracks" then
         ValueFilters.mk kinds tracks lo (Some n) after before_end dlo dhi host not_hosts
       else if name =s "min_duration" then
         ValueFilters.mk kinds tracks lo hi after before_end (Some n) dhi host not_hosts
       else ValueFilters.mk kinds tracks lo hi after before_end dlo (Some n) host not_hosts).

(** The field of a text filter, and whether it excludes. *)
Definition text_field (name : string) : TextField * bool :=
  if name =s "artist" then (TextField.Artist, false)
  else if name =s "title" then (TextField.Title, false)
  else if name =s "release" then (TextField.Release, false)
  else if name =s "not_artist" then (TextField.Artist, true)
  else if name =s "not_title" then (TextField.Title, true)
  else if name =s "not_release" then (TextField.Release, true)
  else (TextField.Any, true).

(** The value of one filter. *)
Definition add_filter (name value : string) (f : SearchFilters) :
    result SearchError SearchFilters :=
  if existsb (String.eqb name) SEARCH_VALUE_FILTERS then
    match set_value name value (SearchFilters.values f) with
    | Some v => Ok (SearchFilters.mk (SearchFilters.include f) (SearchFilters.exclude f) v)
    | None => filter_error "invalid_filter" name (name ++ " has a value in the wrong form")
    end
  else
    match fts5_phrases value with
    | [] => filter_error "invalid_filter" name (name ++ " has no word")
    | phrases =>
        let '(field, excluded) := text_field name in
        let item := TextFilter.mk field phrases in
        Ok (if (excluded : bool)
            then SearchFilters.mk (SearchFilters.include f) (SearchFilters.exclude f ++ [item])
                   (SearchFilters.values f)
            else SearchFilters.mk (SearchFilters.include f ++ [item]) (SearchFilters.exclude f)
                   (SearchFilters.values f))
    end.

(** Check 3: the loop over the pairs, with the positive filters seen. *)
Fixpoint read_filters (pairs : list (string * string)) (seen : list string)
    (f : SearchFilters) : result SearchError SearchFilters :=
  match pairs with
  | [] => Ok f
  | (name, value) :: pairs =>
      match filter_spec name with
      | None => read_filters pairs seen f
      | Some spec =>
          if negb (repeats spec) && existsb (String.eqb name) seen
          then filter_error "invalid_filter" name (name ++ " can appear one time")
          else if repeats spec && (SEARCH_EXCLUSION_MAX <=? exclusion_count f)%nat
          then filter_error "invalid_filter" name
                 ("a request has at most " ++ pretty SEARCH_EXCLUSION_MAX ++ " exclusions")
          else
            let? f := add_filter name value f in
            read_filters pairs (if repeats spec then seen else name :: seen) f
      end
  end.

Definition parse_search_request (pairs : list (string * string)) :
    result SearchError SearchRequest :=
  let? q := single pairs "q" in
  let? kind := single pairs "type" in
  let? cursor := single pairs "cursor" in
  let? include := single pairs "include" in
  let? limit := single pairs "limit" in
  let? limit :=
    match limit with
    | None => Ok None
    | Some v =>
        match parse_i64 v with
        | Some n => Ok (Some n)
        | None => plain "limit is not an integer"
        end
    end in
  let q := unwrap_or ""%string q in
  let? _ := check_known pairs in
  let? _ := check_applies kind pairs in
  let? filters := read_filters pairs [] no_filters in
  if str_is_empty (fts5_query_from_words q) && negb (has_positive filters)
  then Err (SearchError.Filter "missing_positive_term" None "q has no word")
  else Ok (SearchRequest.mk q kind limit cursor include filters).
End request.

(** The filters that the capabilities name for each type. *)
Definition capability_filters : list (string * list string) :=
  (λ entity_type,
     (entity_type,
      SearchFilterSpec.name <$> List.filter (λ f, applies_to f entity_type) SEARCH_FILTERS))
    <$> ["feed"; "track"; "publisher"]%string.

(** The search (src/search.rs, src/query.rs): the rows that a query and the
    filters select, by rank or by date, and the handler of the route.

    SQLite is the class [Fts]: whether an expression matches a row of the index
    and its rank among the rows. FTS5 refuses no expression of quoted phrases,
    so the answer to its errors is left out. A join to a feed or a track that
    the code leaves out when no filter reads it adds no row, so the model joins
    always. *)

Class Fts : Type := {
  (** [search_index MATCH ?]. *)
  fts_match : string → IndexRow → bool;
  (** [bm25(search_index)] of a row that matches, over the whole index. *)
  bm25 : string → gmap Z IndexRow → Z → f64;
  (** The two texts of a JSON array: [json_extract], and [serde_json]. *)
  json_pair : string → option (string * string)
}.

(** A concrete instance: an expression matches a row whose name or title it
    holds, the rank follows the row id, and a pair is a text behind a bracket,
    a quotation mark and the tally of the first one's length. *)
Definition holds_text (expr text : string) : bool :=
  negb (str_is_empty text) && is_some (String.index 0 text expr).

Definition plain_fts : Fts := {|
  fts_match := λ expr row, holds_text expr (IndexRow.name row) || holds_text expr (IndexRow.title row);
  bm25 := λ _ _ rowid, f64_of (-5 - rowid mod 3);
  json_pair := λ s,
    match find_split "," s with
    | Some (n, r) =>
        let n := (String.length n - 2)%nat in
        Some (String.substring 0 n r, String.substring n (String.length r - n) r)
    | None => None
    end
|}.

Module SearchResult.
Record SearchResult : Type := mk {
  entity_type : string;
  entity_id : string;
  rank : f64;
  quality_score : Z;
  effective_rank : f64;
  rowid : Z
}.
End SearchResult.
Abbreviation SearchResult := SearchResult.SearchResult.

Module DatedSearchResult.
Record DatedSearchResult : Type := mk {
  result : SearchResult;
  date : option Z
}.
End DatedSearchResult.
Abbreviation DatedSearchResult := DatedSearchResult.DatedSearchResult.

Module SearchSummary.
Record SearchSummary : Type := mk {
  title : option string;
  feed_title : option string;
  track_image_url : option string;
  feed_image_url : option string;
  pub_date : option Z;
  release_artist : option string;
  release_artist_source : option string;
  episode_count : option Z;
  track_artist : option string;
  duration_secs : option Z
}.
End SearchSummary.
Abbreviation SearchSummary := SearchSummary.SearchSummary.

(** [rank] and [quality_score] are those of the hit; [facts] stands for the
    five fields of the link facts. *)
Module SearchResponseItem.
Record SearchResponseItem : Type := mk {
  entity_type : string;
  entity_id : string;
  rank : f64;
  quality_score : Z;
  feed_guid : option string;
  href : option string;
  summary : SearchSummary;
  facts : option LinkFacts
}.
End SearchResponseItem.
Abbreviation SearchResponseItem := SearchResponseItem.SearchResponseItem.

(** [str::ends_with]. *)
Definition ends_with (s suffix : string) : bool :=
  (String.length suffix <=? String.length s)%nat
  && (String.substring (String.length s - String.length suffix) (String.length suffix) s
      =s suffix).

(** [db::feed_host_of]: the column [feed_host], which each writer of the URL
    sets. *)
Definition feed_host_of `{Crates} `{Web} (feed_url : string) : string :=
  unwrap_or ""%string ((λ h, trim_end_dots (to_lowercase h)) <$> url_host feed_url).

Section read.
Context `{Crates} `{Web} `{Fts}.

(** ** The rows that a hit joins *)

Definition hit_feed (db : Db) (entity_type entity_id : string) : option Feed :=
  feed_guid ← (if entity_type =s "track" then fst <$> json_pair entity_id else Some entity_id);
  get_feed db feed_guid.

Definition hit_track (db : Db) (entity_type entity_id : string) : option Track :=
  if entity_type =s "track" then
    f ← hit_feed db entity_type entity_id;
    ids ← json_pair entity_id;
    tracks db !! (Feed.feed_guid f, ids.2)
  else None.

(** [CASE e.entity_type WHEN 'track' THEN t.pub_date ELSE f.newest_item_at END]. *)
Definition row_date (db : Db) (entity_type entity_id : string) : option Z :=
  if entity_type =s "track" then hit_track db entity_type entity_id ≫= Track.pub_date
  else hit_feed db entity_type entity_id ≫= Feed.newest_item_at.

(** [COALESCE(q.score, 0)]. *)
Definition hit_quality (db : Db) (entity_type entity_id : string) : Z :=
  unwrap_or 0
    (fst <$> entity_quality db !!
       ((if entity_type =s "publisher" then "feed"%string else entity_type), entity_id)).

(** ** Value filters

    A condition on a value that is null is not true. *)

Definition limit_holds (op : Z → Z → bool) (limit value : option Z) : bool :=
  match limit with
  | None => true
  | Some limit => is_some_and (λ v, op v limit) value
  end.

Definition host_match (f : option Feed) (host : string) : bool :=
  is_some_and (λ f,
    let feed_host := feed_host_of (Feed.feed_url f) in
    (feed_host =s host) || ends_with feed_host ("." ++ host)) f.

(** [ValueFilters::push_conditions]. *)
Definition value_conditions (v : ValueFilters) (db : Db) (entity_type entity_id : string) : bool :=
  let f := hit_feed db entity_type entity_id in
  let t := hit_track db entity_type entity_id in
  let date := row_date db entity_type entity_id in
  let release_kind := f ≫= Feed.release_kind in
  let episode_count := Feed.episode_count <$> f in
  let duration := t ≫= Track.duration_secs in
  match ValueFilters.kinds v with
  | None => true
  | Some kinds =>
      existsb (λ kind, is_some_and (String.eqb kind) release_kind) kinds
      || (existsb (String.eqb "unknown") kinds && negb (is_some release_kind))
  end
  && limit_holds Z.eqb (ValueFilters.tracks v) episode_count
  && limit_holds Z.geb (ValueFilters.min_tracks v) episode_count
  && limit_holds Z.leb (ValueFilters.max_tracks v) episode_count
  && limit_holds Z.geb (ValueFilters.after v) date
  && limit_holds Z.ltb (ValueFilters.before_end v) date
  && limit_holds Z.geb (ValueFilters.min_duration v) duration
  && limit_holds Z.leb (ValueFilters.max_duration v) duration
  && is_none_or (host_match f) (ValueFilters.host v)
  && forallb (λ host, negb (host_match f host)) (ValueFilters.not_hosts v).

(** ** Text filters *)

(** The row of a feed in [search_entities]. *)
Definition feed_row (db : Db) (entity_id : string) : option Z :=
  ids ← json_pair entity_id;
  fst <$> find (λ e : Z * (string * string), (e.2.1 =s "feed") && (e.2.2 =s ids.1))
            (map_to_list (search_entities db)).

(** [TextFilter::target]: the row to read and the columns; [search_type] is
    empty for a search with no [type]. *)
Definition target (field : TextField) (search_type : string) (db : Db)
    (entity_type entity_id : string) (own_row : Z) : option (option Z * string) :=
  match field with
  | TextField.Release =>
      if search_type =s "publisher" then None
      else if search_type =s "track" then Some (feed_row db entity_id, "title")
      else if search_type =s "" then
        Some (if entity_type =s "track" then feed_row db entity_id else Some own_row, "title")
      else Some (Some own_row, "title")
  | TextField.Title => Some (Some own_row, "title")
  | TextField.Artist =>
      if search_type =s "publisher" then Some (Some own_row, "title") else Some (Some own_row, "name")
  | TextField.Any => Some (Some own_row, "{name title description}")
  end%string.

(** [TextFilter::expression]. *)
Definition expression (phrases : list string) (columns : string) : string :=
  String.concat " AND " ((λ phrase, (columns ++ " : " ++ phrase)%string) <$> phrases).

(** [rowid IN (SELECT rowid FROM search_index WHERE search_index MATCH ?)]; a
    null row is in no list. *)
Definition in_index (db : Db) (expr : string) (row : option Z) : bool :=
  is_some_and (λ r, is_some_and (fts_match expr) (search_index db !! r)) row.

Definition text_condition (search_type : string) (db : Db) (entity_type entity_id : string)
    (own_row : Z) (filter : TextFilter) (excluded : bool) : bool :=
  match target (TextFilter.field filter) search_type db entity_type entity_id own_row with
  | None => true
  | Some (row, columns) =>
      let membership := in_index db (expression (TextFilter.phrases filter) columns) row in
      if excluded then negb membership else membership
  end.

(** [TextFilter::push_conditions]. *)
Definition text_conditions (filters : SearchFilters) (search_type : string) (db : Db)
    (entity_type entity_id : string) (own_row : Z) : bool :=
  let holds := text_condition search_type db entity_type entity_id own_row in
  forallb (λ f, holds f false) (SearchFilters.include filters)
  && forallb (λ f, holds f true) (SearchFilters.exclude filters).

(** Every condition of the outer [WHERE] but that of the cursor. *)
Definition selected (filters : SearchFilters) (entity_type_filter : option string) (db : Db)
    (rowid : Z) (entity_type entity_id : string) : bool :=
  text_conditions filters (unwrap_or ""%string entity_type_filter) db entity_type entity_id rowid
  && value_conditions (SearchFilters.values filters) db entity_type entity_id.

(** ** By rank *)

Definition effective_rank_of (fts_rank : f64) (score : Z) : f64 :=
  f64_mul fts_rank (f64_add (f64_of 1) (f64_div (f64_of score) (f64_of 100))).

(** The index rows that match the query, joined with their entities. *)
Definition ranked_rows (db : Db) (safe_query : string) : list SearchResult :=
  omap (λ '(rowid, (ty, id)),
      row ← search_index db !! rowid;
      if fts_match safe_query row then
        let rank := bm25 safe_query (search_index db) rowid in
        let score := hit_quality db ty id in
        Some (SearchResult.mk ty id rank score (effective_rank_of rank score) rowid)
      else None)
    (map_to_list (search_entities db)).

(** [ORDER BY eff_rank ASC, m.rowid ASC]. *)
Definition rank_le (a b : SearchResult) : bool :=
  let x := SearchResult.effective_rank a in
  let y := SearchResult.effective_rank b in
  SFltb x y || (SFeqb x y && (SearchResult.rowid a <=? SearchResult.rowid b)).

Definition after_rank (cursor_rank : option f64) (cursor_rowid : option Z) (r : SearchResult) :
    bool :=
  match cursor_rank, cursor_rowid with
  | Some rank, Some rowid =>
      let x := SearchResult.effective_rank r in
      SFltb rank x || (SFeqb rank x && (rowid <? SearchResult.rowid r))
  | _, _ => true
  end.

Definition search_filtered (db : Db) (query : string) (filters : SearchFilters)
    (entity_type_filter : option string) (limit : Z) (cursor_rank : option f64)
    (cursor_rowid : option Z) : list SearchResult :=
  let safe_query := fts5_query_from_words query in
  if str_is_empty (str_trim safe_query) then []
  else
    take (Z.to_nat limit)
      (sort_by rank_le
         (List.filter (λ r,
              after_rank cursor_rank cursor_rowid r
              && is_none_or (String.eqb (SearchResult.entity_type r)) entity_type_filter
              && selected filters entity_type_filter db (SearchResult.rowid r)
                   (SearchResult.entity_type r) (SearchResult.entity_id r))
            (ranked_rows db safe_query))).

(** ** By date *)

Definition dated_rows (db : Db) : list DatedSearchResult :=
  (λ '(rowid, (ty, id)),
     DatedSearchResult.mk
       (SearchResult.mk ty id (f64_of 0) (hit_quality db ty id) (f64_of 0) rowid)
       (row_date db ty id))
    <$> map_to_list (search_entities db).

Definition date_key (r : DatedSearchResult) : option Z * Z :=
  (DatedSearchResult.date r, SearchResult.rowid (DatedSearchResult.result r)).

(** [ORDER BY row_date DESC NULLS LAST, e.rowid ASC]. *)
Definition date_le (a b : DatedSearchResult) : bool :=
  let '(d, r) := date_key a in
  let '(d', r') := date_key b in
  match d, d' with
  | Some x, Some y => (y <? x) || ((x =? y) && (r <=? r'))
  | Some _, None => true
  | None, Some _ => false
  | None, None => r <=? r'
  end.

Definition after_date (cursor : option (option Z * Z)) (r : DatedSearchResult) : bool :=
  let '(date, rowid) := date_key r in
  match cursor with
  | Some (Some cursor_date, cursor_rowid) =>
      match date with
      | Some d => (d <? cursor_date) || ((d =? cursor_date) && (cursor_rowid <? rowid))
      | None => true
      end
  | Some (None, cursor_rowid) => negb (is_some date) && (cursor_rowid <? rowid)
  | None => true
  end.

Definition of_type (entity_type_filter : option string) (r : SearchResult) : bool :=
  match entity_type_filter with
  | Some t => SearchResult.entity_type r =s t
  | None => (SearchResult.entity_type r =s "feed") || (SearchResult.entity_type r =s "track")
  end.

Definition search_by_date (db : Db) (filters : SearchFilters)
    (entity_type_filter : option string) (limit : Z) (cursor : option (option Z * Z)) :
    list DatedSearchResult :=
  take (Z.to_nat limit)
    (sort_by date_le
       (List.filter (λ d,
            let r := DatedSearchResult.result d in
            of_type entity_type_filter r && after_date cursor d
            && selected filters entity_type_filter db (SearchResult.rowid r)
                 (SearchResult.entity_type r) (SearchResult.entity_id r))
          (dated_rows db))).

(** ** The handler *)

(** [str::trim_start_matches] of the letter d. *)
Fixpoint trim_start_d (s : string) : string :=
  match s with
  | EmptyString => EmptyString
  | String a r => if Ascii.eqb a "d" then trim_start_d r else s
  end.

(** The position that a cursor gives: of a search by date, or by rank. *)
Definition read_cursor `{Base64} (by_date : bool) (cursor_str : string) :
    result ApiError ((option Z * Z) + (f64 * Z)) :=
  let? decoded := decode_cursor cursor_str in
  match splitn 2 NUL decoded with
  | [part; rowid] =>
      if negb (Bool.eqb (starts_with part "d") by_date)
      then bad_request "invalid cursor format"
      else
        match parse_i64 rowid with
        | None => bad_request "invalid cursor rowid"
        | Some rowid =>
            if by_date then
              let text := trim_start_d part in
              if str_is_empty text then Ok (inl (None, rowid))
              else match parse_i64 text with
                   | Some date => Ok (inl (Some date, rowid))
                   | None => bad_request "invalid cursor timestamp"
                   end
            else
              match parse_u64 part with
              | None => bad_request "invalid cursor rank"
              | Some rank_bits =>
                  let rank := from_bits rank_bits in
                  if negb (is_finite rank)
                  then bad_request "invalid cursor rank: non-finite value"
                  else Ok (inr (rank, rowid))
              end
        end
  | _ => bad_request "invalid cursor format"
  end.

(** [partial_cmp(..).unwrap_or(Equal).then_with(..) != Greater]. *)
Definition merge_le (a b : SearchResult) : bool :=
  match SFcompare (SearchResult.effective_rank a) (SearchResult.effective_rank b) with
  | Some Lt => true
  | Some Gt => false
  | _ => SearchResult.rowid a <=? SearchResult.rowid b
  end.

(** The rows of a search with a query, for one type or for feeds and tracks. *)
Definition found_by_rank (db : Db) (q : string) (filters : SearchFilters) (kind : option string)
    (limit : Z) (cursor_rank : option f64) (cursor_rowid : option Z) : list SearchResult :=
  match kind with
  | Some t => search_filtered db q filters (Some t) limit cursor_rank cursor_rowid
  | None =>
      take (Z.to_nat limit)
        (sort_by merge_le
           (search_filtered db q filters (Some "feed"%string) limit cursor_rank cursor_rowid
            ++ search_filtered db q filters (Some "track"%string) limit cursor_rank cursor_rowid))
  end.

Definition search_rows (db : Db) (params : SearchRequest) (by_date : bool) (limit : Z)
    (cursor : option ((option Z * Z) + (f64 * Z))) : result ApiError (list DatedSearchResult) :=
  let kind := SearchRequest.kind params in
  let filters := SearchRequest.filters params in
  if is_none_or (λ t, (t =s "feed") || (t =s "track") || (t =s "publisher")) kind then
    if by_date then
      let date_cursor := match cursor with Some (inl c) => Some c | _ => None end in
      Ok (search_by_date db filters kind limit date_cursor)
    else
      let rank := match cursor with Some (inr c) => Some c | _ => None end in
      Ok ((λ r, DatedSearchResult.mk r None)
            <$> found_by_rank db (SearchRequest.q params) filters kind limit (fst <$> rank)
                  (snd <$> rank))
  else
    bad_request ("unsupported search type filter: " ++ unwrap_or ""%string kind).

Definition encode_date_cursor `{Base64} (key : option Z * Z) : string :=
  encode_cursor ("d" ++ match key.1 with Some d => pretty d | None => "" end
                 ++ String NUL (pretty key.2)).

Definition encode_rank_cursor `{Base64} (rank : f64) (rowid : Z) : string :=
  encode_cursor (pretty (to_bits rank) ++ String NUL (pretty rowid)).

Definition next_search_cursor `{Base64} (by_date : bool) (r : DatedSearchResult) : string :=
  if by_date then encode_date_cursor (date_key r)
  else encode_rank_cursor (SearchResult.effective_rank (DatedSearchResult.result r))
         (SearchResult.rowid (DatedSearchResult.result r)).

(** *** The rows of the response *)

Definition no_summary : SearchSummary :=
  SearchSummary.mk None None None None None None None None None None.

Definition feed_search_summary (db : Db) (feed_guid : string) : SearchSummary :=
  match get_feed db feed_guid with
  | Some f =>
      SearchSummary.mk (Some (Feed.title f)) None None (Feed.image_url f) None
        (Feed.release_artist f) (Feed.release_artist_source f) (Some (Feed.episode_count f))
        None None
  | None => no_summary
  end.

Definition track_search_summary (db : Db) (feed_guid track_guid : string) : SearchSummary :=
  match get_track_row_for_feed db feed_guid track_guid with
  | Some row =>
      let t := TrackRow.track row in
      SearchSummary.mk (Some (Track.title t)) (Some (TrackRow.feed_title row))
        (Track.image_url t) (TrackRow.feed_image_url row) (Track.pub_date t) None None None
        (Track.track_artist t) (Track.duration_secs t)
  | None => no_summary
  end.

(** The images go to the client as web URLs only. *)
Definition shown_summary (s : SearchSummary) : SearchSummary :=
  SearchSummary.mk (SearchSummary.title s) (SearchSummary.feed_title s)
    (web_url_or_none (SearchSummary.track_image_url s))
    (web_url_or_none (SearchSummary.feed_image_url s)) (SearchSummary.pub_date s)
    (SearchSummary.release_artist s) (SearchSummary.release_artist_source s)
    (SearchSummary.episode_count s) (SearchSummary.track_artist s)
    (SearchSummary.duration_secs s).

Definition search_response_item (db : Db) (include_link_facts : bool) (r : SearchResult) :
    SearchResponseItem :=
  let ty := SearchResult.entity_type r in
  let '(entity_id, feed_guid, href) :=
    match (if ty =s "track" then json_pair (SearchResult.entity_id r) else None) with
    | Some (feed_guid, track_guid) =>
        (track_guid, Some feed_guid, Some (canonical_track_href feed_guid track_guid))
    | None => (SearchResult.entity_id r, None, None)
    end in
  let summary :=
    if ty =s "track" then
      match feed_guid with
      | Some feed_guid => track_search_summary db feed_guid entity_id
      | None => no_summary
      end
    else feed_search_summary db entity_id in
  let facts :=
    if include_link_facts && (ty =s "publisher")
    then Some (link_facts (load_publisher db entity_id)) else None in
  SearchResponseItem.mk ty entity_id (SearchResult.rank r) (SearchResult.quality_score r)
    feed_guid href (shown_summary summary) facts.

(** [handle_search] after the parse. The rows of the page are read from [db],
    and their summaries from a later state [db']. *)
Definition run_search `{Base64} (db db' : Db) (params : SearchRequest) :
    result ApiError (QueryResponse SearchResponseItem) :=
  let limit := clamp 1 SEARCH_LIMIT_MAX (unwrap_or 20 (SearchRequest.limit params)) in
  let by_date := str_is_empty (fts5_query_from_words (SearchRequest.q params)) in
  let? cursor :=
    match SearchRequest.cursor params with
    | Some cursor_str => let? c := read_cursor by_date cursor_str in Ok (Some c)
    | None => Ok None
    end in
  let? results := search_rows db params by_date (limit + 1) cursor in
  let count := Z.to_nat limit in
  let has_more := (count <? length results)%nat in
  let next_cursor :=
    if has_more then next_search_cursor by_date <$> (results !! (count - 1)%nat) else None in
  Ok (QueryResponse.mk
        ((λ r, search_response_item db' (request_includes params "link_facts")
                 (DatedSearchResult.result r)) <$> take count results)
        next_cursor has_more).

Definition handle_search `{Base64} `{SearchCrates} (db db' : Db)
    (pairs : list (string * string)) : result SearchError (QueryResponse SearchResponseItem) :=
  let? params := parse_search_request pairs in
  match run_search db db' params with
  | Ok r => Ok r
  | Err e => Err (SearchError.Plain e)
  end.
End read.
