(* ===== verification/Browse.v ===== *)
(** Reads of src/query.rs that need more than a keyset: the routes that
    browse by a text, and the route history of a feed. *)

From S2P Require Import Prelude.
From S2P Require Import Model.
From S2P Require Import Event.
From S2P Require Import Crates.
From S2P Require Import Store.
From S2P Require Import Catalog.
From S2P Require Import EventLog.
From S2P Require Import Links.
From S2P Require Import Sync.
From S2P Require Import Paging.
From S2P Require Import Listings.
From S2P Require Import FeedIndex.
From S2P Require Import Detail.
From S2P Require Import SearchRead.

(** The route history of a feed (src/query.rs, src/db.rs): the events of the
    log that state payment routes, and the changes of recipients in them.

    [json_extract] of SQLite is a parameter. *)

Class JsonExtract : Type := {
  (** [json_extract(text, path)] of a text; [NULL] is [None]. *)
  json_extract : string → string → option string
}.

Module RouteHistorySubject.
Inductive RouteHistorySubject : Type := Feed | Track.
#[export] Instance eq_dec : EqDecision RouteHistorySubject.
Proof. solve_decision. Defined.
End RouteHistorySubject.
Abbreviation RouteHistorySubject := RouteHistorySubject.RouteHistorySubject.

Module RouteHistoryEntry.
Record RouteHistoryEntry : Type := mk {
  subject : RouteHistorySubject;
  track_guid : option string;
  event_id : string;
  seq : Z;
  changed_at : Z;
  old_recipients : option (list RouteRecipient);
  new_recipients : list RouteRecipient
}.
End RouteHistoryEntry.
Abbreviation RouteHistoryEntry := RouteHistoryEntry.RouteHistoryEntry.

Definition ROUTE_HISTORY_MAX_ENTRIES : nat := Z.to_nat 1000.

(** ** The changes *)

(** The subject of an event, a track by its GUID, and the set that it states. *)
Definition route_set (ev : Event) : option (option string * list RouteRecipient) :=
  match Event.payload ev with
  | EventPayload.FeedRoutesReplaced p =>
      Some (None, feed_recipient_set (FeedRoutesReplacedPayload.routes p))
  | EventPayload.RoutesReplaced p =>
      Some (Some (RoutesReplacedPayload.track_guid p),
            recipient_set (RoutesReplacedPayload.routes p))
  | EventPayload.TrackUpserted p =>
      Some (Some (Track.track_guid (TrackUpsertedPayload.track p)),
            recipient_set (TrackUpsertedPayload.routes p))
  | _ => None
  end.

(** The variables of the loop. *)
Module History.
Record History : Type := mk {
  entries : list RouteHistoryEntry;
  last_feed_set : option (list RouteRecipient);
  last_track_sets : gmap string (list RouteRecipient)
}.
End History.
Abbreviation History := History.History.

Definition last_set (h : History) (track_guid : option string) : option (list RouteRecipient) :=
  match track_guid with
  | None => History.last_feed_set h
  | Some tg => History.last_track_sets h !! tg
  end.

Definition history_entry (ev : Event) (track_guid : option string)
    (last : option (list RouteRecipient)) (new_set : list RouteRecipient) : RouteHistoryEntry :=
  RouteHistoryEntry.mk
    (if is_some track_guid then RouteHistorySubject.Track else RouteHistorySubject.Feed)
    track_guid (Event.event_id ev) (Event.seq ev) (Event.created_at ev) last new_set.

Definition history_step (h : History) (ev : Event) : History :=
  match route_set ev with
  | None => h
  | Some (track_guid, new_set) =>
      let last := last_set h track_guid in
      if last == Some new_set then h
      else
        let entries := History.entries h ++ [history_entry ev track_guid last new_set] in
        match track_guid with
        | None => History.mk entries (Some new_set) (History.last_track_sets h)
        | Some tg =>
            History.mk entries (History.last_feed_set h)
              (<[tg := new_set]> (History.last_track_sets h))
        end
  end.

Definition build_route_history_entries (events : list Event) : list RouteHistoryEntry :=
  History.entries (foldl history_step (History.mk [] None ∅) events).

(** ** The read *)

Section read.
Context `{Crates} `{JsonExtract}.

(** [ROUTE_HISTORY_EVENTS_SQL]. *)
Definition route_event_of (feed_guid : string) (r : LogRow) : bool :=
  match LogRow.event_type r with
  | EventType.FeedRoutesReplaced => LogRow.subject_guid r =s feed_guid
  | EventType.RoutesReplaced =>
      is_some_and (String.eqb feed_guid) (json_extract (LogRow.payload_json r) "$.feed_guid")
  | EventType.TrackUpserted =>
      is_some_and (String.eqb feed_guid) (json_extract (LogRow.payload_json r) "$.track.feed_guid")
  | _ => false
  end.

Definition get_route_history_events_for_feed (db : Db) (feed_guid : string) :
    result DbError (list Event) :=
  collect_results event_of_row
    (sort_by by_seq (List.filter (route_event_of feed_guid) (events db))).

(** An error of the database is a 500. *)
Definition handle_get_route_history (db : Db) (feed_guid : string) :
    result (ApiError + DbError) (QueryResponse RouteHistoryEntry) :=
  match get_route_history_events_for_feed db feed_guid with
  | Err e => Err (inr e)
  | Ok events =>
      let entries := build_route_history_entries events in
      if (length entries =? 0)%nat
      then Err (inl (ApiError.mk 404 "no route history for this feed"))
      else
        let entries :=
          if (ROUTE_HISTORY_MAX_ENTRIES <? length entries)%nat
          then drop (length entries - ROUTE_HISTORY_MAX_ENTRIES) entries else entries in
        Ok (QueryResponse.mk entries None false)
  end.
End read.

(** The routes that browse by a text (src/query.rs): the publishers, the feeds
    and the tracks of a publisher, the tracks of an artist; and the routes of
    the node itself: its peers, its capabilities and its link counts.

    The order of SQL rows with equal keys is not stated; here it is that of
    the table. *)

(** ** [LIKE] *)

(** [str::replace] of a character. *)
Fixpoint replace_char (c : ascii) (new s : string) : string :=
  match s with
  | EmptyString => EmptyString
  | String a r =>
      if Ascii.eqb a c then (new ++ replace_char c new r)%string
      else String a (replace_char c new r)
  end.

Definition like_contains_pattern (value : string) : string :=
  ("%" ++ replace_char "_" "\_" (replace_char "%" "\%" (replace_char "\" "\\" value)) ++ "%")%string.

(** [LIKE pattern ESCAPE '\'] of SQLite, which folds the case of ASCII. It is
    here on bytes: in UTF-8 a text begins inside another only at a character.
    [_] takes a byte that begins a character, and those that continue it. *)
Fixpoint skip_continuation (s : string) : string :=
  match s with
  | String a r => if is_continuation a then skip_continuation r else s
  | EmptyString => EmptyString
  end.

Fixpoint like (pattern s : string) : bool :=
  match pattern with
  | EmptyString => str_is_empty s
  | String c p =>
      if Ascii.eqb c "%" then
        (fix any (s : string) : bool :=
           like p s || match s with EmptyString => false | String _ r => any r end) s
      else if Ascii.eqb c "_" then
        match s with
        | EmptyString => false
        | String _ r => like p (skip_continuation r)
        end
      else if Ascii.eqb c "\" then
        match p, s with
        | String c' p, String a r => Ascii.eqb (ascii_lower c') (ascii_lower a) && like p r
        | _, _ => false
        end
      else
        match s with
        | EmptyString => false
        | String a r => Ascii.eqb (ascii_lower c) (ascii_lower a) && like p r
        end
  end.

(** [instr(text, part) > 0]. *)
Definition instr (text part : string) : bool := is_some (String.index 0 part text).

(** The condition on a publisher text; [NULL] fulfils none. *)
Definition publisher_match (case_sensitive : bool) (q : string) (publisher : option string) : bool :=
  is_some_and (λ text, if case_sensitive then instr text q else like (like_contains_pattern q) text)
    publisher.

(** ** Publishers *)

Module PublisherSearchQuery.
Record PublisherSearchQuery : Type := mk {
  q : option string;
  limit : option Z;
  case_sensitive : option bool
}.
End PublisherSearchQuery.
Abbreviation PublisherSearchQuery := PublisherSearchQuery.PublisherSearchQuery.

Module PublisherDetailQuery.
Record PublisherDetailQuery : Type := mk {
  limit : option Z;
  case_sensitive : option bool
}.
End PublisherDetailQuery.
Abbreviation PublisherDetailQuery := PublisherDetailQuery.PublisherDetailQuery.

Module PublisherSearchItem.
Record PublisherSearchItem : Type := mk {
  publisher_text : string;
  feed_count : Z;
  track_count : Z
}.
End PublisherSearchItem.
Abbreviation PublisherSearchItem := PublisherSearchItem.PublisherSearchItem.

Module PublisherFeedSummary.
Record PublisherFeedSummary : Type := mk {
  feed_guid : string;
  feed_url : string;
  title : string;
  image_url : option string;
  episode_count : option Z;
  raw_medium : option string
}.
End PublisherFeedSummary.
Abbreviation PublisherFeedSummary := PublisherFeedSummary.PublisherFeedSummary.

Module PublisherTrackSummary.
Record PublisherTrackSummary : Type := mk {
  track_guid : string;
  feed_guid : string;
  title : string;
  image_url : option string;
  track_image_url : option string;
  feed_image_url : option string;
  duration_secs : option Z;
  track_number : option Z
}.
End PublisherTrackSummary.
Abbreviation PublisherTrackSummary := PublisherTrackSummary.PublisherTrackSummary.

Module PublisherDetailResponse.
Record PublisherDetailResponse : Type := mk {
  publisher_text : string;
  feeds : list PublisherFeedSummary;
  tracks : list PublisherTrackSummary
}.
End PublisherDetailResponse.
Abbreviation PublisherDetailResponse := PublisherDetailResponse.PublisherDetailResponse.

Definition all_tracks (db : Db) : list Track := snd <$> map_to_list (tracks db).

(** [lower(raw_medium) = 'music']. *)
Definition is_music_feed (f : Feed) : bool := of_medium "music" f.

(** The publisher texts of the feeds that the query keeps. *)
Definition publisher_texts (db : Db) (case_sensitive : bool) (q : string) : list string :=
  omap (λ f,
      text ← Feed.publisher f;
      if negb (str_is_empty text) && is_music_feed f && publisher_match case_sensitive q (Some text)
      then Some text else None)
    (all_feeds db).

(** [GROUP BY publisher] with [COUNT( * )]. *)
Definition publisher_groups (texts : list string) : list (string * Z) :=
  (λ text, (text, Z.of_nat (length (List.filter (String.eqb text) texts))))
    <$> remove_dups texts.

(** [ORDER BY feed_count DESC, publisher ASC]. *)
Definition group_le (a b : string * Z) : bool :=
  (b.2 <? a.2) || ((a.2 =? b.2) && String.leb a.1 b.1).

Definition track_count (db : Db) (publisher_text : string) : Z :=
  Z.of_nat (length (List.filter (λ t, is_some_and (String.eqb publisher_text) (Track.publisher t))
                      (all_tracks db))).

Definition handle_publisher_search (db : Db) (params : PublisherSearchQuery) :
    QueryResponse PublisherSearchItem :=
  let case_sensitive := unwrap_or false (PublisherSearchQuery.case_sensitive params) in
  let q := unwrap_or ""%string (PublisherSearchQuery.q params) in
  let limit := clamp 1 SEARCH_LIMIT_MAX (unwrap_or 20 (PublisherSearchQuery.limit params)) in
  let rows := take (Z.to_nat (limit + 1))
                (sort_by group_le (publisher_groups (publisher_texts db case_sensitive q))) in
  let has_more := (Z.to_nat limit <? length rows)%nat in
  QueryResponse.mk
    ((λ '(text, feed_count), PublisherSearchItem.mk text feed_count (track_count db text))
       <$> take (Z.to_nat limit) rows)
    None has_more.

(** [ORDER BY .. DESC] of an integer; [NULL] is the smallest. *)
Definition newest_first (a b : option Z) : bool := val_le (opt_z_val b) (opt_z_val a).

Section publishers.
Context `{Web}.

Definition publisher_feed_summary (f : Feed) : PublisherFeedSummary :=
  PublisherFeedSummary.mk (Feed.feed_guid f) (Feed.feed_url f) (Feed.title f)
    (web_url_or_none (Feed.image_url f)) (Some (Feed.episode_count f)) (Feed.raw_medium f).

Definition publisher_track_summary (t : Track) (f : Feed) : PublisherTrackSummary :=
  PublisherTrackSummary.mk (Track.track_guid t) (Track.feed_guid t) (Track.title t)
    (web_url_or_none (option_or (Track.image_url t) (Feed.image_url f)))
    (web_url_or_none (Track.image_url t)) (web_url_or_none (Feed.image_url f))
    (Track.duration_secs t) (Track.track_number t).

(** [FROM tracks t JOIN feeds f]. *)
Definition tracks_with_feeds (db : Db) : list (Track * Feed) :=
  omap (λ t, (λ f, (t, f)) <$> get_feed db (Track.feed_guid t)) (all_tracks db).

(** The data of this response is one record: here the list of it. *)
Definition handle_publisher_detail (db : Db) (publisher : string) (params : PublisherDetailQuery) :
    QueryResponse PublisherDetailResponse :=
  let limit := Z.to_nat (capped_limit (PublisherDetailQuery.limit params)) in
  let matches := publisher_match
    (unwrap_or false (PublisherDetailQuery.case_sensitive params)) publisher in
  let feeds :=
    publisher_feed_summary <$>
      take limit
        (sort_by (λ a b, newest_first (Feed.newest_item_at a) (Feed.newest_item_at b))
           (List.filter (λ f, matches (Feed.publisher f) && is_music_feed f) (all_feeds db))) in
  let tracks :=
    (λ '(t, f), publisher_track_summary t f) <$>
      take limit
        (sort_by (λ a b, newest_first (Track.pub_date a.1) (Track.pub_date b.1))
           (List.filter (λ '(t, f), matches (Track.publisher t) && is_music_feed f)
              (tracks_with_feeds db))) in
  QueryResponse.mk [PublisherDetailResponse.mk publisher feeds tracks] None false.
End publishers.

(** ** Tracks of an artist *)

Module ArtistTracksQuery.
Record ArtistTracksQuery : Type := mk {
  artist : string;
  limit : option Z;
  cursor : option string
}.
End ArtistTracksQuery.
Abbreviation ArtistTracksQuery := ArtistTracksQuery.ArtistTracksQuery.

Module ArtistTrackItem.
Record ArtistTrackItem : Type := mk {
  track_guid : string;
  feed_guid : string;
  title : string;
  track_artist : option string;
  track_artist_sort : option string;
  pub_date : option Z;
  duration_secs : option Z;
  image_url : option string;
  track_image_url : option string;
  feed_image_url : option string;
  track_number : option Z;
  feed_title : string;
  release_artist : option string;
  release_artist_source : option string;
  created_at : Z
}.
End ArtistTrackItem.
Abbreviation ArtistTrackItem := ArtistTrackItem.ArtistTrackItem.

(** The sort key of the rows, which is also the position of a cursor. *)
Definition artist_track_key (t : Track) : Z * string := (Track.created_at t, Track.track_guid t).

Section artist.
Context `{Crates} `{Web} `{Base64}.

(** [WHERE lower(t.track_artist) = ?1 ORDER BY created_at DESC, track_guid
    DESC]: [lower] of SQLite changes ASCII only. *)
Definition artist_track_rows (db : Db) (artist_lower : string) : list Track :=
  sort_by (λ a b, pair_geb (artist_track_key a) (artist_track_key b))
    (List.filter (λ t, is_some_and (λ a, to_ascii_lowercase a =s artist_lower)
                         (Track.track_artist t)) (all_tracks db)).

(** The row, with the feed of the [LEFT JOIN]. *)
Definition artist_track_item (db : Db) (t : Track) : ArtistTrackItem :=
  let row := track_row db t in
  ArtistTrackItem.mk (Track.track_guid t) (Track.feed_guid t) (Track.title t)
    (Track.track_artist t) (Track.track_artist_sort t) (Track.pub_date t)
    (Track.duration_secs t) (web_url_or_none (TrackRow.image_url row))
    (web_url_or_none (Track.image_url t)) (web_url_or_none (TrackRow.feed_image_url row))
    (Track.track_number t) (TrackRow.feed_title row) (TrackRow.release_artist row)
    (TrackRow.release_artist_source row) (Track.created_at t).

Definition handle_artist_tracks (db : Db) (params : ArtistTracksQuery) :
    result ApiError (QueryResponse ArtistTrackItem) :=
  let artist_lower := to_lowercase (ArtistTracksQuery.artist params) in
  let limit := Z.to_nat (capped_limit (ArtistTracksQuery.limit params)) in
  let? after := opt_parse parse_recent_cursor (ArtistTracksQuery.cursor params) in
  let rows := take (limit + 1)
                (rest newest_key_first artist_track_key after
                   (artist_track_rows db artist_lower)) in
  let has_more := (limit <? length rows)%nat in
  let items := take limit rows in
  let next_cursor :=
    if has_more then (encode_ts_cursor ∘ artist_track_key) <$> last items else None in
  Ok (QueryResponse.mk (artist_track_item db <$> items) next_cursor has_more).
End artist.

(** ** The node *)

Module PeerResponse.
Record PeerResponse : Type := mk {
  node_pubkey : string;
  node_url : string;
  last_push_at : option Z
}.
End PeerResponse.
Abbreviation PeerResponse := PeerResponse.PeerResponse.

(** [ORDER BY node_pubkey]. *)
Definition handle_get_peers (db : Db) : list PeerResponse :=
  sort_by (λ a b, String.leb (PeerResponse.node_pubkey a) (PeerResponse.node_pubkey b))
    ((λ '(_, p), PeerResponse.mk (PeerNode.node_pubkey p) (PeerNode.node_url p)
                   (PeerNode.last_push_at p))
       <$> map_to_list (peer_nodes db)).

Definition FEED_LIST_INCLUDES : list string := ["link_facts"; "named_feeds"]%string.
Definition ARTIST_NAME_INCLUDES : list string := ["link_facts"]%string.
Definition SEARCH_INCLUDES : list string := ["link_facts"]%string.

Module CapabilitiesResponse.
Record CapabilitiesResponse : Type := mk {
  api_version : string;
  node_pubkey : string;
  capabilities : list string;
  entity_types : list string;
  include_params : gmap string (list string);
  search_filters : list (string * list string)
}.
End CapabilitiesResponse.
Abbreviation CapabilitiesResponse := CapabilitiesResponse.CapabilitiesResponse.

Definition handle_capabilities (node_pubkey_hex : string) : CapabilitiesResponse :=
  CapabilitiesResponse.mk "v1" node_pubkey_hex
    ["query"; "search"; "sync"; "push"; "name_lists"]
    ["feed"; "track"; "publisher"]
    (<["search" := SEARCH_INCLUDES]> (<["artist_list" := ARTIST_NAME_INCLUDES]>
      (<["feed_list" := FEED_LIST_INCLUDES]> (<["track" := TRACK_INCLUDES]>
        (<["feed" := FEED_INCLUDES]> ∅)))))
    capability_filters.

Definition handle_publisher_link_stats `{Crates} `{Web} (db : Db) : PublisherLinkStats :=
  get_publisher_link_stats db.
