(* ===== verification/Router.v ===== *)
(** The routing tables of a node (src/api.rs, src/query.rs, src/community.rs,
    src/main.rs), and the document that states them (src/openapi.rs). *)

From S2P Require Import Prelude.
From S2P Require Import Listings.
From S2P Require Import Detail.
From S2P Require Import SearchRead.
From S2P Require Import Browse.

(** The routing tables of a node (src/api.rs, src/query.rs, src/community.rs,
    src/main.rs) and how axum finds the handler of a request in one.

    A template is a path whose segments are fixed or a capture [{name}]. A
    capture takes one segment that is not empty, and a fixed segment goes
    before a capture. A handler is here its name; what it does is with its
    component. The percent encoding of a path and the [OPTIONS] answers of
    CORS are left out. *)

Local Open Scope string_scope.

Module Method.
Inductive Method : Type := Get | Head | Post | Patch | Delete.
#[global] Instance eq_dec : EqDecision Method.
Proof. solve_decision. Defined.
End Method.
Abbreviation Method := Method.Method.

Module Handler.
Inductive Handler : Type :=
  | api_explorer_html
  | openapi_document
  | health
  | handle_ingest_feed
  | handle_sync_events
  | handle_sync_reconcile
  | handle_sync_register
  | handle_sync_peers
  | handle_node_info
  | handle_retire_feed
  | handle_patch_feed
  | handle_patch_feed_track
  | handle_remove_track
  | handle_resolve_copy
  | handle_guid_change_decision
  | handle_patch_track
  | handle_create_block
  | handle_list_blocks
  | handle_delete_block
  | handle_delete_retired_source_hold
  | handle_get_feed
  | handle_get_feed_track
  | handle_get_route_history
  | handle_get_feed_copies
  | handle_list_copy_records
  | handle_list_guid_changes
  | handle_list_live_items
  | handle_get_recent_feeds
  | handle_get_feeds_by_name
  | handle_get_artist_names
  | handle_artist_tracks
  | handle_get_track
  | handle_search
  | handle_capabilities
  | handle_get_peers
  | handle_publisher_search
  | handle_publisher_detail
  | handle_publisher_link_stats
  | handle_sync_push.
#[global] Instance eq_dec : EqDecision Handler.
Proof. solve_decision. Defined.
End Handler.
Abbreviation Handler := Handler.Handler.
Import Handler.

(** One entry of a table: the template, the method, the handler. *)
Definition Route : Type := (string * Method * Handler)%type.

Definition query_routes : list Route :=
  [("/v1/feeds/{guid}", Method.Get, handle_get_feed);
   ("/v1/feeds/{guid}/tracks/{track_guid}", Method.Get, handle_get_feed_track);
   ("/v1/feeds/{guid}/route-history", Method.Get, handle_get_route_history);
   ("/v1/feeds/{guid}/copies", Method.Get, handle_get_feed_copies);
   ("/v1/copies", Method.Get, handle_list_copy_records);
   ("/v1/guid-changes", Method.Get, handle_list_guid_changes);
   ("/v1/live-items", Method.Get, handle_list_live_items);
   ("/v1/feeds/recent", Method.Get, handle_get_recent_feeds);
   ("/v1/feeds/by-name", Method.Get, handle_get_feeds_by_name);
   ("/v1/artist-names", Method.Get, handle_get_artist_names);
   ("/v1/tracks", Method.Get, handle_artist_tracks);
   ("/v1/tracks/{guid}", Method.Get, handle_get_track);
   ("/v1/search", Method.Get, handle_search);
   ("/v1/node/capabilities", Method.Get, handle_capabilities);
   ("/v1/peers", Method.Get, handle_get_peers);
   ("/v1/publishers", Method.Get, handle_publisher_search);
   ("/v1/publishers/{publisher}", Method.Get, handle_publisher_detail);
   ("/v1/publisher-links/stats", Method.Get, handle_publisher_link_stats)].

Definition build_router : list Route :=
  app
  [("/api", Method.Get, api_explorer_html);
   ("/api.html", Method.Get, api_explorer_html);
   ("/openapi.json", Method.Get, openapi_document);
   ("/ingest/feed", Method.Post, handle_ingest_feed);
   ("/sync/events", Method.Get, handle_sync_events);
   ("/sync/reconcile", Method.Post, handle_sync_reconcile);
   ("/sync/register", Method.Post, handle_sync_register);
   ("/sync/peers", Method.Get, handle_sync_peers);
   ("/node/info", Method.Get, handle_node_info);
   ("/v1/feeds/{guid}", Method.Delete, handle_retire_feed);
   ("/v1/feeds/{guid}", Method.Patch, handle_patch_feed);
   ("/v1/feeds/{guid}/tracks/{track_guid}", Method.Patch, handle_patch_feed_track);
   ("/v1/feeds/{guid}/tracks/{track_guid}", Method.Delete, handle_remove_track);
   ("/v1/feeds/{guid}/copies/resolve", Method.Post, handle_resolve_copy);
   ("/v1/feeds/{guid}/guid-change", Method.Post, handle_guid_change_decision);
   ("/v1/tracks/{guid}", Method.Patch, handle_patch_track);
   ("/v1/blocks", Method.Post, handle_create_block);
   ("/v1/blocks", Method.Get, handle_list_blocks);
   ("/v1/blocks/{block_id}", Method.Delete, handle_delete_block);
   ("/v1/retired-source-holds/{guid}", Method.Delete, handle_delete_retired_source_hold);
   ("/health", Method.Get, health)]
  query_routes.

Definition build_readonly_router : list Route :=
  app
  [("/api", Method.Get, api_explorer_html);
   ("/api.html", Method.Get, api_explorer_html);
   ("/openapi.json", Method.Get, openapi_document);
   ("/sync/events", Method.Get, handle_sync_events);
   ("/sync/peers", Method.Get, handle_sync_peers);
   ("/node/info", Method.Get, handle_node_info);
   ("/health", Method.Get, health)]
  query_routes.

Definition build_community_push_router : list Route :=
  [("/sync/push", Method.Post, handle_sync_push)].

(** The table of a community node ([run_community]). *)
Definition community_router : list Route := app build_readonly_router build_community_push_router.

(** ** Matching *)

(** The segments of a path, the empty one before its first slash included. *)
Fixpoint segments_from (current path : string) : list string :=
  match path with
  | EmptyString => [current]
  | String a r =>
      if Ascii.eqb a "/" then current :: segments_from "" r
      else segments_from (current ++ String a "") r
  end.

Definition segments (path : string) : list string := segments_from "" path.

Definition is_capture (segment : string) : bool := String.prefix "{" segment.

(** The name between the braces. *)
Definition capture_name (segment : string) : string :=
  String.substring 1 (String.length segment - 2) segment.

Definition captures (template : string) : list string :=
  capture_name <$> List.filter is_capture (segments template).

(** The values of the captures, when the template takes the path. *)
Fixpoint match_segments (template path : list string) : option (list (string * string)) :=
  match template, path with
  | [], [] => Some []
  | t :: template, s :: path =>
      if is_capture t
      then
        if str_is_empty s then None
        else cons (capture_name t, s) <$> match_segments template path
      else if t =s s then match_segments template path else None
  | _, _ => None
  end.

(** The first segment that is fixed in one template only decides: that one goes
    before the other. *)
Fixpoint goes_before (a b : list string) : bool :=
  match a, b with
  | s :: a, t :: b =>
      if is_capture s then is_capture t && goes_before a b
      else is_capture t || goes_before a b
  | _, _ => false
  end.

(** The better of two templates that take the path. *)
Definition better (path : list string) (best : option string) (template : string) : option string :=
  if is_some (match_segments (segments template) path)
  then
    match best with
    | Some b => if goes_before (segments template) (segments b) then Some template else best
    | None => Some template
    end
  else best.

Definition template_of (routes : list Route) (path : list string) : option string :=
  foldl (better path) None ((λ r : Route, r.1.1) <$> routes).

(** A [GET] route answers [HEAD] too. *)
Definition serves (of_route asked : Method) : bool :=
  bool_decide (of_route = asked)
  || (bool_decide (of_route = Method.Get) && bool_decide (asked = Method.Head)).

Module Dispatch.
Inductive Dispatch : Type :=
  | Found (handler : Handler) (values : list (string * string))
  | MethodNotAllowed
  | NotFound.
End Dispatch.
Abbreviation Dispatch := Dispatch.Dispatch.

Definition dispatch (routes : list Route) (method : Method) (path : string) : Dispatch :=
  match template_of routes (segments path) with
  | None => Dispatch.NotFound
  | Some template =>
      match find (λ r : Route, (r.1.1 =s template) && serves r.1.2 method) routes with
      | None => Dispatch.MethodNotAllowed
      | Some (_, _, handler) =>
          Dispatch.Found handler
            (unwrap_or [] (match_segments (segments template) (segments path)))
      end
  end.

(** The OpenAPI document of a node (src/openapi.rs): its paths, with the
    parameters, the body, the answers and the token of each operation.

    The texts of descriptions and the examples are left out; the schemas of
    the components are those that utoipa derives, and stand here by name. *)

Local Open Scope string_scope.

Module DocMode.
Inductive DocMode : Type := Primary | Readonly.
End DocMode.
Abbreviation DocMode := DocMode.DocMode.

Module Place.
Inductive Place : Type := Path | Query.
#[global] Instance eq_dec : EqDecision Place.
Proof. solve_decision. Defined.
End Place.

(** A parameter: [x-include-names], and the least and the largest value, when it
    states them. *)
Module Param.
Record Param : Type := mk {
  name : string;
  place : Place.Place;
  required : bool;
  schema_type : string;
  format : option string;
  range : option (Z * Z);
  include_names : list string
}.
End Param.
Abbreviation Param := Param.Param.

Module Schema.
Inductive Schema : Type :=
  | Object
  | Ref (name : string)
  | ArrayOf (item : string)
  | Envelope (data : Schema).
End Schema.
Abbreviation Schema := Schema.Schema.

Module Answer.
Inductive Answer : Type :=
  | Json (schema : Schema)
  | Text
  | NoContent.
End Answer.
Abbreviation Answer := Answer.Answer.

(** The security of an operation is the name of its scheme. *)
Module Operation.
Record Operation : Type := mk {
  summary : string;
  tag : string;
  parameters : list Param;
  request_body : bool;
  responses : list (Z * Answer);
  security : option string
}.
End Operation.
Abbreviation Operation := Operation.Operation.

(** ** Parts of an operation *)

Definition operation : string → string → list Param → bool → list (Z * Answer) →
    option string → Operation := Operation.mk.

Definition path_param (name schema_type : string) : Param :=
  Param.mk name Place.Path true schema_type None None [].

Definition query_param (name schema_type : string) (format : option string) (required : bool) :
    Param :=
  Param.mk name Place.Query required schema_type format None [].

Definition include_query_param (names : list string) : Param :=
  Param.mk "include" Place.Query false "string" None None names.

Definition limit_query_param (maximum : Z) : Param :=
  Param.mk "limit" Place.Query false "integer" (Some "int64") (Some (1, maximum)) [].

Definition search_filter_params : list Param :=
  (λ filter, query_param (SearchFilterSpec.name filter) "string" None false) <$> SEARCH_FILTERS.

Definition json_response (schema : Schema) : Answer := Answer.Json schema.
Definition text_response : Answer := Answer.Text.
Definition no_content_response : Answer := Answer.NoContent.
Definition error_response : Answer := Answer.Json (Schema.Ref "ErrorBody").
Definition envelope_schema : Schema → Schema := Schema.Envelope.

Definition sync_security : string := "SyncToken".
Definition admin_only_security : string := "AdminToken".

(** The operations of one path, by method. *)
Definition PathItem : Type := list (Method * Operation).

(** ** The items *)

Definition guid_param : Param := path_param "guid" "string".
Definition cursor_param : Param := query_param "cursor" "string" None false.

Definition feed_path_item (mode : DocMode) : PathItem :=
  let item :=
    [(Method.Get, operation "Get feed by GUID" "Feeds"
        [guid_param; cursor_param; limit_query_param LIST_LIMIT_MAX;
         include_query_param FEED_INCLUDES; query_param "medium" "string" None false]
        false
        [(200, json_response (envelope_schema (Schema.Ref "FeedResponse")));
         (404, json_response (Schema.Ref "FeedSupersededBody"))]
        None)] in
  match mode with
  | DocMode.Readonly => item
  | DocMode.Primary =>
      app item
        [(Method.Patch, operation "Patch feed" "Feeds" [guid_param] true
            [(204, no_content_response); (400, error_response); (403, error_response);
             (404, error_response); (409, error_response)]
            (Some admin_only_security));
         (Method.Delete, operation "Retire feed" "Feeds"
            [guid_param; query_param "block" "boolean" None false] false
            [(204, no_content_response); (403, error_response); (404, error_response)]
            (Some admin_only_security))]
  end.

Definition track_path_item (mode : DocMode) : PathItem :=
  let item :=
    [(Method.Get, operation "Get track by GUID" "Tracks"
        [guid_param; include_query_param TRACK_INCLUDES; limit_query_param LIST_LIMIT_MAX;
         cursor_param]
        false
        [(200, json_response (envelope_schema (Schema.Ref "TrackResponse")));
         (404, error_response); (409, json_response (Schema.Ref "AmbiguousTrackGuidBody"))]
        None)] in
  match mode with
  | DocMode.Readonly => item
  | DocMode.Primary =>
      app item
        [(Method.Patch, operation "Patch track" "Tracks" [guid_param] true
            [(204, no_content_response); (403, error_response); (404, error_response);
             (409, json_response (Schema.Ref "AmbiguousTrackGuidBody"))]
            (Some admin_only_security))]
  end.

Definition feed_track_path_item (mode : DocMode) : PathItem :=
  let track_guid_param := path_param "track_guid" "string" in
  let item :=
    [(Method.Get, operation "Get track by feed and GUID" "Tracks"
        [guid_param; track_guid_param; include_query_param TRACK_INCLUDES;
         limit_query_param LIST_LIMIT_MAX; cursor_param]
        false
        [(200, json_response (envelope_schema (Schema.Ref "TrackResponse"))); (404, error_response)]
        None)] in
  match mode with
  | DocMode.Readonly => item
  | DocMode.Primary =>
      app item
        [(Method.Patch, operation "Patch track by feed and GUID" "Tracks"
            [guid_param; track_guid_param] true
            [(204, no_content_response); (403, error_response); (404, error_response)]
            (Some admin_only_security));
         (Method.Delete, operation "Remove track from feed" "Tracks"
            [guid_param; track_guid_param] false
            [(204, no_content_response); (403, error_response); (404, error_response)]
            (Some admin_only_security))]
  end.

(** A path with one operation that is a read. *)
Definition get (op : Operation) : PathItem := [(Method.Get, op)].

(** The answer of most list routes. *)
Definition page_of_schema (item : string) : Z * Answer :=
  (200, json_response (envelope_schema (Schema.ArrayOf item))).

(** *** The paths of the node itself *)

Definition core_paths : list (string * PathItem) :=
  [("/health", get (operation "Health check" "Core" [] false [(200, text_response)] None));
   ("/node/info", get (operation "Node public key" "Core" [] false
      [(200, json_response (Schema.Ref "NodeInfoResponse"))] None));
   ("/sync/events", get (operation "Poll incremental events" "Sync"
      [query_param "after_seq" "integer" (Some "int64") false;
       query_param "limit" "integer" (Some "int64") false]
      false [(200, json_response Schema.Object); (403, error_response)] (Some sync_security)));
   ("/sync/peers", get (operation "List sync peers" "Sync" [] false
      [(200, json_response (Schema.Ref "PeersResponse")); (403, error_response)]
      (Some sync_security)))].

(** *** The lists *)

Definition feed_list_paths : list (string * PathItem) :=
  [("/v1/feeds/recent", get (operation "List recent feeds" "Feeds"
      [cursor_param; limit_query_param LIST_LIMIT_MAX; include_query_param FEED_LIST_INCLUDES;
       query_param "medium" "string" None false; query_param "stated_rel" "string" None false;
       query_param "two_way_links" "string" None false;
       query_param "named_feed_guid" "string" None false]
      false [page_of_schema "FeedResponse"] None));
   ("/v1/feeds/by-name", get (operation "List feeds by name" "Feeds"
      [cursor_param; limit_query_param LIST_LIMIT_MAX; include_query_param FEED_LIST_INCLUDES;
       query_param "medium" "string" None false; query_param "from" "string" None false;
       query_param "artist_key" "string" None false;
       query_param "named_feed_guid" "string" None false]
      false [page_of_schema "FeedResponse"] None));
   ("/v1/artist-names", get (operation "List artist names" "Feeds"
      [cursor_param; limit_query_param LIST_LIMIT_MAX; include_query_param ARTIST_NAME_INCLUDES;
       query_param "from" "string" None false]
      false [page_of_schema "ArtistNameRow"] None));
   ("/v1/feeds/{guid}/route-history", get (operation "Get feed route history" "Feeds"
      [guid_param] false [page_of_schema "RouteHistoryEntry"; (404, error_response)] None))].

Definition review_paths : list (string * PathItem) :=
  [("/v1/feeds/{guid}/copies", get (operation "Get feed copies" "Feeds" [guid_param] false
      [(200, json_response (Schema.Ref "FeedCopiesResponse")); (404, error_response)] None));
   ("/v1/copies", get (operation "List records with an open copy" "Feeds"
      [cursor_param; limit_query_param SEARCH_LIMIT_MAX]
      false [page_of_schema "CopyRecordResponse"] None));
   ("/v1/guid-changes", get (operation "List pending GUID changes" "Feeds"
      [cursor_param; limit_query_param SEARCH_LIMIT_MAX]
      false [page_of_schema "GuidChangeResponse"] None));
   ("/v1/live-items", get (operation "List live items" "Live Items"
      [query_param "view" "string" None false; query_param "status" "string" None false;
       query_param "live_value" "string" None false;
       query_param "ends_after" "integer" (Some "int64") false;
       query_param "starts_after" "integer" (Some "int64") false;
       cursor_param; limit_query_param LIST_LIMIT_MAX]
      false [page_of_schema "LiveItemListResponse"; (400, error_response)] None))].

Definition track_and_search_paths (mode : DocMode) : list (string * PathItem) :=
  [("/v1/feeds/{guid}", feed_path_item mode);
   ("/v1/tracks/{guid}", track_path_item mode);
   ("/v1/tracks", get (operation "List tracks by artist" "Tracks"
      [query_param "artist" "string" None true; limit_query_param LIST_LIMIT_MAX; cursor_param]
      false [page_of_schema "ArtistTrackItem"; (400, error_response)] None));
   ("/v1/search", get (operation "Search feeds and tracks" "Search"
      (app [query_param "q" "string" None false; query_param "type" "string" None false;
            limit_query_param SEARCH_LIMIT_MAX; cursor_param; include_query_param SEARCH_INCLUDES]
         search_filter_params)
      false
      [page_of_schema "SearchResponseItem";
       (400, json_response (Schema.Ref "SearchFilterErrorBody"))]
      None))].

Definition node_paths : list (string * PathItem) :=
  [("/v1/node/capabilities", get (operation "Read node capabilities" "Node" [] false
      [(200, json_response (Schema.Ref "CapabilitiesResponse"))] None));
   ("/v1/peers", get (operation "List public peers" "Node" [] false
      [(200, json_response (Schema.ArrayOf "PeerResponse"))] None));
   ("/v1/publishers", get (operation "Search publisher text" "Publishers"
      [query_param "q" "string" None false; limit_query_param SEARCH_LIMIT_MAX;
       query_param "case_sensitive" "boolean" None false]
      false [page_of_schema "PublisherSearchItem"] None));
   ("/v1/publishers/{publisher}", get (operation "Get publisher detail" "Publishers"
      [path_param "publisher" "string"; limit_query_param LIST_LIMIT_MAX;
       query_param "case_sensitive" "boolean" None false]
      false [(200, json_response (envelope_schema (Schema.Ref "PublisherDetailResponse")))] None));
   ("/v1/publisher-links/stats", get (operation "Get publisher link statistics" "Publishers" []
      false [(200, json_response (envelope_schema (Schema.Ref "PublisherLinkStatsResponse")))]
      None))].

(** *** The paths of a primary *)

Definition ingest_and_sync_paths : list (string * PathItem) :=
  [("/ingest/feed", [(Method.Post, operation "Submit crawl data" "Ingest" [] true
      [(200, json_response (Schema.Ref "IngestResponse"))] None)]);
   ("/sync/register", [(Method.Post, operation "Register push endpoint" "Sync" [] true
      [(200, json_response (Schema.Ref "RegisterResponse")); (400, error_response);
       (403, error_response); (422, error_response)]
      (Some sync_security))]);
   ("/sync/reconcile", [(Method.Post, operation "Reconcile diverged state" "Sync" [] true
      [(200, json_response Schema.Object); (400, error_response); (403, error_response)]
      (Some sync_security))])].

Definition block_paths : list (string * PathItem) :=
  [("/v1/feeds/{guid}/tracks/{track_guid}", feed_track_path_item DocMode.Primary);
   ("/v1/blocks",
      [(Method.Post, operation "Create a block" "Blocks" [] true
          [(201, json_response (Schema.Ref "FeedBlock")); (400, error_response);
           (403, error_response); (409, json_response (Schema.Ref "BlockConflictBody"))]
          (Some admin_only_security));
       (Method.Get, operation "List blocks" "Blocks" [] false
          [(200, json_response (Schema.Ref "ListBlocksResponse")); (403, error_response)]
          (Some admin_only_security))]);
   ("/v1/blocks/{block_id}", [(Method.Delete, operation "Delete a block" "Blocks"
      [path_param "block_id" "string"] false
      [(204, no_content_response); (403, error_response); (404, error_response)]
      (Some admin_only_security))])].

Definition operator_paths : list (string * PathItem) :=
  [("/v1/retired-source-holds/{guid}", [(Method.Delete, operation "Release a retired source hold"
      "Feeds" [guid_param] false
      [(204, no_content_response); (403, error_response); (404, error_response)]
      (Some admin_only_security))]);
   ("/v1/feeds/{guid}/copies/resolve", [(Method.Post, operation "Resolve a feed copy" "Feeds"
      [guid_param] true
      [(200, json_response (Schema.Ref "ResolveCopyResponse")); (400, error_response);
       (403, error_response); (404, error_response); (409, error_response)]
      (Some admin_only_security))]);
   ("/v1/feeds/{guid}/guid-change", [(Method.Post, operation "Decide a pending GUID change" "Feeds"
      [guid_param] true
      [(200, json_response (Schema.Ref "GuidChangeDecisionResponse")); (400, error_response);
       (403, error_response); (404, error_response)]
      (Some admin_only_security))])].

(** ** The document *)

Definition document_tags : list string :=
  ["Core"; "Ingest"; "Sync"; "Feeds"; "Tracks"; "Search"; "Node"; "Publishers"; "Blocks";
   "Live Items"].

(** The schemes, with the header of each. *)
Definition security_schemes : list (string * string) :=
  [("AdminToken", "X-Admin-Token"); ("SyncToken", "X-Sync-Token")].

(** The schemas that each module registers by name; utoipa adds those that
    they refer to. *)
Definition query_response_schemas : list string :=
  ["Pagination"; "ResponseMeta"; "FeedResponse"; "TrackResponse"; "CapabilitiesResponse";
   "PeerResponse"; "PublisherSearchItem"; "PublisherDetailResponse"; "SearchResponseItem";
   "ArtistTrackItem"; "PublisherLinkStatsResponse"; "RouteHistoryEntry"; "FeedCopiesResponse";
   "CopyRecordResponse"; "GuidChangeResponse"; "FeedSupersededBody"; "LiveItemResponse";
   "LiveItemListResponse"; "ArtistNameRow"].

Definition api_response_schemas : list string :=
  ["AmbiguousTrackGuidBody"; "BlockConflictBody"; "ErrorBody"; "SearchFilterErrorBody";
   "GuidChangeDecisionResponse"; "NodeInfoResponse"; "ListBlocksResponse"; "ResolveCopyResponse";
   "FeedBlock"].

Definition ingest_response_schemas : list string := ["IngestResponse"].
Definition sync_response_schemas : list string := ["RegisterResponse"; "PeersResponse"].

Definition schemas_object : list string :=
  List.concat
    [query_response_schemas; api_response_schemas; ingest_response_schemas; sync_response_schemas].

(** The schemas that a schema and an answer name; an envelope names two of its
    own. *)
Fixpoint schema_refs (schema : Schema) : list string :=
  match schema with
  | Schema.Object => []
  | Schema.Ref name => [name]
  | Schema.ArrayOf item => [item]
  | Schema.Envelope data => app (schema_refs data) ["Pagination"; "ResponseMeta"]
  end.

Definition answer_refs (answer : Answer) : list string :=
  match answer with
  | Answer.Json schema => schema_refs schema
  | Answer.Text | Answer.NoContent => []
  end.

(** The paths of [spec_value]; each is inserted once there. *)
Definition spec_value (mode : DocMode) : list (string * PathItem) :=
  List.concat
    [core_paths; feed_list_paths; review_paths; track_and_search_paths mode; node_paths;
     match mode with
     | DocMode.Primary => List.concat [ingest_and_sync_paths; block_paths; operator_paths]
     | DocMode.Readonly => []
     end].

(** The insert of a map: it replaces an entry of the same key. *)
Definition insert_path (path : string) (item : PathItem) (paths : list (string * PathItem)) :
    list (string * PathItem) :=
  app (List.filter (λ p, negb (p.1 =s path)) paths) [(path, item)].

Definition document (mode : DocMode) : list (string * PathItem) :=
  insert_path "/v1/feeds/{guid}/tracks/{track_guid}" (feed_track_path_item mode) (spec_value mode).

Definition primary_document : list (string * PathItem) := document DocMode.Primary.
Definition readonly_document : list (string * PathItem) := document DocMode.Readonly.
