(* ===== verification/Community.v ===== *)
(** A community node (src/community.rs): it registers with the primary, takes
    the events that the primary pushes, and polls the primary when no push
    came for some time. *)

From S2P Require Import Prelude.
From S2P Require Import Model.
From S2P Require Import Event.
From S2P Require Import Crates.
From S2P Require Import Store.
From S2P Require Import EventLog.
From S2P Require Import Apply.
From S2P Require Import Sync.

(** ** Configuration *)

Definition DEFAULT_POLL_INTERVAL_SECS : Z := 300.
Definition DEFAULT_PUSH_TIMEOUT_SECS : Z := 90.
Definition MAX_PUSH_EVENTS : nat := 1000.
Definition MAX_DRAIN_PAGES : nat := 100.

(** [from_str] is the parser of the type. *)
Definition parse_or_default {T} (from_str : string → option T) (value : option string)
    (default : T) : T :=
  unwrap_or default (v ← value; from_str v).

(** [var] is the value of [SYNC_TOKEN]. *)
Definition load_sync_auth_from_env (var : option string) : option string :=
  match var with
  | Some s => if str_is_empty s then None else Some s
  | None => None
  end.

(** [var] is the value of [ALLOW_INSECURE_PUBKEY_DISCOVERY]. *)
Definition require_https_for_discovery (var : option string) (primary_url : string) :
    result string unit :=
  if starts_with primary_url "https://" then Ok tt
  else if starts_with primary_url "http://" then
    if is_some_and (λ v, (v =s "true") || (v =s "1")) var then Ok tt
    else Err ("FATAL: PRIMARY_PUBKEY auto-discovery requires HTTPS. "
      ++ "Set PRIMARY_PUBKEY env var explicitly, use an HTTPS primary URL, "
      ++ "or set ALLOW_INSECURE_PUBKEY_DISCOVERY=true for local development.")%string
  else Ok tt.

(** [attempt n] is the key that the n-th answer of [/node/info] gives, if it
    is a 2xx answer that parses. *)
Fixpoint fetch_primary_pubkey (max_attempts : nat) (attempt : nat → option string) :
    option string :=
  match max_attempts with
  | O => None
  | S fewer =>
      match attempt 0%nat with
      | Some node_pubkey => Some node_pubkey
      | None => fetch_primary_pubkey fewer (λ n, attempt (S n))
      end
  end.

(** What the primary answers: no HTTP answer, or a status and the body when
    it is a [SyncEventsResponse]. *)
Module HttpReply.
Inductive HttpReply : Type :=
  | NoAnswer
  | Status (status : Z) (body : option SyncEventsResponse).
End HttpReply.
Abbreviation HttpReply := HttpReply.HttpReply.

Module PushResponse.
Record PushResponse : Type := mk {
  applied : Z;
  rejected : Z;
  duplicate : Z
}.
End PushResponse.
Abbreviation PushResponse := PushResponse.PushResponse.

Section community.
Context `{Crates}.

(** ** Registration *)

(** The body of the request of [register_with_primary]. [sign_json] signs the
    hash of the JSON text; it fails on no text. *)
Definition registration_request (register_json : string → string → Z → string)
    (signer node_address : string) (signed_at : Z) : RegisterRequest :=
  let node_pubkey := public_key signer in
  let node_url :=
    (unchars (drop_while_end (λ c, c =s "/") (chars node_address)) ++ "/sync/push")%string in
  RegisterRequest.mk node_pubkey node_url (Some signed_at)
    (Some (ed25519_sign signer (sha256 (register_json node_pubkey node_url signed_at)))).

(** ** Poll *)

(** [get after_seq limit] is the answer to the query of the URL. *)
Definition poll_once (get : Z → Z → HttpReply) (after_seq : Z) : option SyncEventsResponse :=
  match get after_seq 500 with
  | HttpReply.NoAnswer => None
  | HttpReply.Status status body =>
      if (200 <=? status) && (status <? 300) then body else None
  end.

(** The cursor of the loop when it starts. *)
Definition initial_seq (db : Db) : Z :=
  match (get_node_sync_cursor SYNC_CURSOR_KEY db).2 with
  | Ok seq => seq
  | Err _ => 0
  end.

(** What the loop does with a page: the cursor of the loop and the database. *)
Definition handle_page (now : Z) (response : SyncEventsResponse) (last_seq : Z) (db : Db) :
    Z * Db :=
  let next_seq := SyncEventsResponse.next_seq response in
  match SyncEventsResponse.events response with
  | [] => (if last_seq <? next_seq then next_seq else last_seq, db)
  | events =>
      let '(db', summary, _, _) := apply_events now events db in
      if 0 <? ApplySummary.applied summary then
        let new_seq :=
          match (get_node_sync_cursor SYNC_CURSOR_KEY db').2 with
          | Ok seq => seq
          | Err _ => last_seq
          end in
        (if last_seq <? new_seq then new_seq else last_seq, db')
      else (if last_seq <? next_seq then next_seq else last_seq, db')
  end.

(** The drain loop. [fuel] is what is left of [MAX_DRAIN_PAGES], [get n] the
    primary at the n-th page. *)
Fixpoint drain (fuel : nat) (now : Z) (get : nat → Z → Z → HttpReply) (last_seq : Z) (db : Db) :
    Z * Db :=
  match fuel with
  | O => (last_seq, db)
  | S fuel =>
      match poll_once (get 0%nat) last_seq with
      | None => (last_seq, db)
      | Some response =>
          let '(last_seq, db) := handle_page now response last_seq db in
          if SyncEventsResponse.has_more response
          then drain fuel now (λ n, get (S n)) last_seq db
          else (last_seq, db)
      end
  end.

(** One iteration of the poll loop, without the sleep. *)
Definition poll_turn (push_timeout_secs now last_push_at : Z) (get : nat → Z → Z → HttpReply)
    (last_seq : Z) (db : Db) : Z * Db :=
  if push_timeout_secs <? i64_sub now last_push_at
  then drain MAX_DRAIN_PAGES now get last_seq db
  else (last_seq, db).

(** ** [POST /sync/push] *)

(** The answer, the database and [last_push_at]. *)
Definition handle_sync_push (primary_pubkey_hex : string) (now : Z) (events : list Event)
    (db : Db) (last_push_at : Z) : result Z PushResponse * Db * Z :=
  if (MAX_PUSH_EVENTS <? length events)%nat then (Err 400, db, last_push_at)
  else
    let trusted := List.filter (λ ev, Event.signed_by ev =s primary_pubkey_hex) events in
    let pre_rejected := Z.of_nat (length events) - Z.of_nat (length trusted) in
    let '(db, summary, _, _) := apply_events now trusted db in
    let last_push_at :=
      if (0 <? ApplySummary.applied summary) || (0 <? ApplySummary.duplicate summary)
      then now else last_push_at in
    (Ok (PushResponse.mk (ApplySummary.applied summary)
           (ApplySummary.rejected summary + pre_rejected)
           (ApplySummary.duplicate summary)), db, last_push_at).

(** The answers of a primary to a node that sends [provided]. *)
Definition primary_answers (sync_token : option string) (provided : string) (db : Db)
    (after_seq limit : Z) : HttpReply :=
  match (handle_sync_events sync_token provided after_seq (Some limit) db).2 with
  | Ok (SyncReply.Answer response) => HttpReply.Status 200 (Some response)
  | Ok (SyncReply.Refused status _) => HttpReply.Status status None
  | Err _ => HttpReply.Status 500 None
  end.
End community.
