(* ===== verification/Startup.v ===== *)
(** The start of a node (src/main.rs, with src/db.rs and src/api.rs): the holds
    that a primary fills in for the retirements of an older version, and what
    each kind of node reads from its environment before it serves.

    The database is open and the signing key is loaded. A variable of the
    environment has a text, or the text of a [VarError]. *)

From S2P Require Import Prelude.
From S2P Require Import Model.
From S2P Require Import Event.
From S2P Require Import Crates.
From S2P Require Import Store.
From S2P Require Import Verify.
From S2P Require Import EventLog.
From S2P Require Import Blocks.
From S2P Require Import Observe.
From S2P Require Import Sync.
From S2P Require Import Paging.
From S2P Require Import FetchGuard.
From S2P Require Import Tls.
From S2P Require Import Community.

(** ** Holds of earlier retirements *)

(** [from_str::<UpsertedPayload>] and [feed.feed_url] of it: a reader of one
    field, which takes more texts than that of the whole event. *)
Class UpsertedJson : Type := { upserted_feed_url : string → option string }.

Definition HOLD_RETIRE_REASONS : list string :=
  ["podcast_block"; "source_gone"; "admin retired via API"].

Definition is_type (ty : EventType) (r : LogRow) : bool := LogRow.event_type r == ty.

(** The last [feed_retired] row of each subject, [ORDER BY seq]. *)
Definition last_retires (db : Db) : list LogRow :=
  let retires := List.filter (is_type EventType.FeedRetired) (events db) in
  let of_subject e := List.filter (λ r, LogRow.subject_guid r =s LogRow.subject_guid e) retires in
  sort_by by_seq
    (List.filter (λ e, forallb (λ r, LogRow.seq r <=? LogRow.seq e) (of_subject e)) retires).

(** Whether the GUID has a record, a GUID block or a row of a hold. *)
Definition blocked_or_present (guid lower : string) (db : Db) : bool :=
  is_some (feeds db !! guid) || is_some (feeds db !! lower)
  || existsb (λ b, (FeedBlock.kind b == FeedBlockKind.Guid) && (FeedBlock.value b =s lower))
       (feed_blocks db)
  || is_some (retired_source_holds db !! lower).

(** [ORDER BY seq DESC LIMIT 1] *)
Definition upserted_before (guid : string) (retire_seq : Z) (db : Db) : option LogRow :=
  last (sort_by by_seq (List.filter (λ r, is_type EventType.FeedUpserted r
    && (LogRow.subject_guid r =s guid) && (LogRow.seq r <? retire_seq)) (events db))).

(** [INSERT OR IGNORE]: how many rows it wrote. *)
Definition insert_hold (h : RetiredSourceHold) : DB Z := λ db,
  match retired_source_holds db !! RetiredSourceHold.feed_guid h with
  | Some _ => (db, Ok 0)
  | None => (set_retired_source_holds
      (<[RetiredSourceHold.feed_guid h := h]> (retired_source_holds db)) db, Ok 1)
  end.

Section fill.
Context `{Crates} `{UpsertedJson}.

(** One turn of the loop. *)
Definition fill_step (r : LogRow) : DB Z := λ db,
  match parse_retired (LogRow.payload_json r) with
  | None => (db, Err Json)
  | Some payload =>
      match FeedRetiredPayload.reason payload with
      | None => (db, Ok 0)
      | Some reason =>
          if negb (existsb (String.eqb reason) HOLD_RETIRE_REASONS) then (db, Ok 0)
          else
            let guid := LogRow.subject_guid r in
            let lower := to_lowercase guid in
            if blocked_or_present guid lower db then (db, Ok 0)
            else
              match upserted_before guid (LogRow.seq r) db with
              | None => (db, Ok 0)
              | Some upserted =>
                  match upserted_feed_url (LogRow.payload_json upserted) with
                  | None => (db, Err Json)
                  | Some source_url =>
                      insert_hold (RetiredSourceHold.mk lower source_url reason
                        (LogRow.created_at r) None) db
                  end
              end
      end
  end.

Fixpoint fill_loop (retires : list LogRow) (written : Z) : DB Z :=
  match retires with
  | [] => mret written
  | r :: rest => n ← fill_step r; fill_loop rest (written + n)
  end.

Definition fill_retired_source_holds : DB Z :=
  transaction (λ db, fill_loop (last_retires db) 0 db).
End fill.

(** ** The environment *)

Definition Env : Type := string → result string string.

(** [std::env::var(name).ok()]. *)
Definition env_ok (env : Env) (name : string) : option string :=
  match env name with Ok value => Some value | Err _ => None end.

Definition env_or (env : Env) (name default : string) : string :=
  unwrap_or default (env_ok env name).

Definition confirming_relay_hosts_from_env (env : Env) : list string :=
  List.filter (λ v, negb (str_is_empty v))
    (str_trim <$> split_on ","%char (env_or env "CONFIRMING_RELAY_HOSTS" "")).

Definition source_gone_hosts_from_env `{Crates} (env : Env) : list string :=
  to_lowercase <$> List.filter (λ v, negb (str_is_empty v))
    (str_trim <$> split_on ","%char (env_or env "SOURCE_GONE_HOSTS" "")).

Definition rate_limit_config (env : Env) : Z * Z :=
  (unwrap_or 50 (env_ok env "RATE_LIMIT_RPS" ≫= parse_unsigned 32),
   unwrap_or 100 (env_ok env "RATE_LIMIT_BURST" ≫= parse_unsigned 32)).

(** The quota of [build_rate_limiter]: requests per second, and the burst. *)
Definition build_rate_limiter (rps burst : Z) : Z * Z :=
  (if rps =? 0 then 50 else rps, if burst =? 0 then 100 else burst).

(** [TRUST_PROXY], as [apply_rate_limit] reads it. *)
Definition trust_proxy (env : Env) : bool :=
  is_some_and (λ v, (v =s "true") || (v =s "1")) (env_ok env "TRUST_PROXY").

(** ** What a start ends in *)

(** The [Err] of a start, or a panic. The text of a [DbError] is left out. *)
Module Halt.
Inductive Halt : Type :=
  | Message (text : string)
  | SeedBlocks (err : DbError)
  | FillHolds (err : DbError)
  | Panicked.
#[export] Instance eq_dec : EqDecision Halt.
Proof. solve_decision. Defined.
End Halt.
Abbreviation Halt := Halt.Halt.

(** The fields of [api::AppState] that a start computes. The others are the
    pool, an HTTP client, and an empty registry and cache. *)
Module AppState.
Record AppState : Type := mk {
  chain : VerifierChain;
  signer : string;
  node_pubkey_hex : string;
  admin_token : string;
  sync_token : option string;
  push_subscribers : gmap string string;
  source_gone_hosts : list string
}.
End AppState.
Abbreviation AppState := AppState.AppState.

Module CommunityConfig.
Record CommunityConfig : Type := mk {
  primary_url : string;
  node_address : string;
  poll_interval_secs : Z;
  push_timeout_secs : Z
}.
#[export] Instance eq_dec : EqDecision CommunityConfig.
Proof. solve_decision. Defined.
End CommunityConfig.
Abbreviation CommunityConfig := CommunityConfig.CommunityConfig.

(** What the two tasks of a community node run with. *)
Module CommunityNode.
Record CommunityNode : Type := mk {
  config : CommunityConfig;
  primary_pubkey_hex : string;
  state : AppState
}.
End CommunityNode.
Abbreviation CommunityNode := CommunityNode.CommunityNode.

(** ** The primary *)

Section start.
Context `{Crates} `{UpsertedJson} `{Web}.

Definition run_primary (env : Env) (signer : string) (uuids : nat) (now : Z) (db : Db) :
    Db * result Halt AppState :=
  match env "CRAWL_TOKEN" with
  | Err err => (db, Err (Halt.Message ("CRAWL_TOKEN env var required: " ++ err)%string))
  | Ok crawl_token =>
      match require_crawl_token crawl_token with
      | Err text => (db, Err (Halt.Message text))
      | Ok _ =>
          match build_chain (from_env (env_ok env "VERIFIER_CHAIN")) crawl_token with
          | None => (db, Err Halt.Panicked)
          | Some chain =>
              let '(db, cached) := push_subscribers_at_start db in
              let push_subscribers := match cached with Ok map => map | Err _ => ∅ end in
              let entries := blocks_from_env (env_ok env "BLOCKED_FEED_GUIDS")
                               (env_ok env "BLOCKED_FEED_URLS") in
              match seed_blocks uuids entries signer now db with
              | (db, Err err) => (db, Err (Halt.SeedBlocks err))
              | (db, Ok _) =>
                  match fill_retired_source_holds db with
                  | (db, Err err) => (db, Err (Halt.FillHolds err))
                  | (db, Ok _) =>
                      (db, Ok (AppState.mk chain signer (public_key signer)
                         (env_or env "ADMIN_TOKEN" "")
                         (load_sync_auth_from_env (env_ok env "SYNC_TOKEN"))
                         push_subscribers (source_gone_hosts_from_env env)))
                  end
              end
          end
      end
  end.

(** ** A community node *)

(** [attempt] is that of [fetch_primary_pubkey]. The node writes nothing
    before it serves. *)
Definition run_community (env : Env) (signer : string) (attempt : nat → option string) :
    result Halt CommunityNode :=
  match env "PRIMARY_URL", env "NODE_ADDRESS" with
  | Err err, _ => Err (Halt.Message
      ("PRIMARY_URL env var required in community mode: " ++ err)%string)
  | Ok _, Err err => Err (Halt.Message
      ("NODE_ADDRESS env var required in community mode: " ++ err)%string)
  | Ok primary_url, Ok node_address =>
      let? primary_pubkey_hex :=
        match env_ok env "PRIMARY_PUBKEY" with
        | Some pk => Ok pk
        | None =>
            match require_https_for_discovery
                    (env_ok env "ALLOW_INSECURE_PUBKEY_DISCOVERY") primary_url with
            | Err text => Err (Halt.Message
                ("HTTPS required for pubkey auto-discovery: " ++ text)%string)
            | Ok _ =>
                match fetch_primary_pubkey 10 attempt with
                | Some pk => Ok pk
                | None => Err (Halt.Message
                    ("cannot determine primary node public key. set PRIMARY_PUBKEY or "
                     ++ "ensure the primary is reachable at " ++ primary_url)%string)
                end
            end
        end in
      match chain_new "community-node-unused-token" [] with
      | None => Err Halt.Panicked
      | Some dummy_chain =>
          Ok (CommunityNode.mk
            (CommunityConfig.mk primary_url node_address
               (parse_or_default parse_u64 (env_ok env "POLL_INTERVAL_SECS")
                  DEFAULT_POLL_INTERVAL_SECS)
               (parse_or_default parse_i64 (env_ok env "PUSH_TIMEOUT_SECS")
                  DEFAULT_PUSH_TIMEOUT_SECS))
            primary_pubkey_hex
            (AppState.mk dummy_chain signer (public_key signer)
               (env_or env "ADMIN_TOKEN" "")
               (load_sync_auth_from_env (env_ok env "SYNC_TOKEN")) ∅ []))
      end
  end.

(** The dispatch of [run]. *)
Definition run_node (env : Env) (signer : string) (uuids : nat) (now : Z)
    (attempt : nat → option string) (db : Db) :
    Db * result Halt (AppState + CommunityNode) :=
  if env_or env "NODE_MODE" "primary" =s "community" then
    (db, let? node := run_community env signer attempt in Ok (inr node))
  else
    let '(db, started) := run_primary env signer uuids now db in
    (db, let? state := started in Ok (inl state)).
End start.

(** ** Plain HTTP or TLS *)

(** The configuration of [serve_with_optional_tls]; [None] for plain HTTP. *)
Definition tls_config_from_env (env : Env) : result Halt (option TlsConfig) :=
  match env_ok env "TLS_DOMAIN" with
  | None => Ok None
  | Some tls_domain =>
      match env "TLS_ACME_EMAIL" with
      | Err err => Err (Halt.Message
          ("TLS_ACME_EMAIL required when TLS_DOMAIN is set: " ++ err)%string)
      | Ok acme_email =>
          Ok (Some (TlsConfig.mk tls_domain acme_email
            (env_or env "TLS_CERT_PATH" "./tls/cert.pem")
            (env_or env "TLS_KEY_PATH" "./tls/key.pem")
            (env_or env "TLS_ACME_ACCOUNT_PATH" "./tls/acme-account.json")
            (is_some_and (λ v, v =s "true") (env_ok env "TLS_ACME_STAGING"))
            (url ← env_ok env "TLS_ACME_DIRECTORY_URL";
             if str_is_empty url then None else Some url)))
      end
  end.
