(* ===== verification/Register.v ===== *)
(** The checks of the push URL of a registration (src/api.rs): the address
    test, and the question to the peer whether the URL is its own. *)

From S2P Require Import Prelude.
From S2P Require Import FetchGuard.

(** [str::strip_suffix]. *)
Definition strip_suffix (suffix s : string) : option string :=
  let n := (String.length s - String.length suffix)%nat in
  if (String.length suffix <=? String.length s)%nat
     && (String.substring n (String.length suffix) s =s suffix)
  then Some (String.substring 0 n s) else None.

(** What [GET /node/info] gives: an error, or the status and the public key
    of the body. *)
Module NodeInfoReply.
Inductive NodeInfoReply : Type :=
  | SendError (e : string)
  | Response (status : Z) (node_pubkey : result string string).
End NodeInfoReply.
Abbreviation NodeInfoReply := NodeInfoReply.NodeInfoReply.

Section register.
Context `{Net}.
(** [Url::set_path], [set_query(None)], [set_fragment(None)], [to_string]. *)
Context (with_path : Url → string → string).

Definition sync_register_node_info_url (node_url : string) : result string string :=
  match Net.parse node_url with
  | Err e => Err ("invalid node URL: " ++ e)%string
  | Ok url =>
      let path := unchars (drop_while_end (λ c, c =s "/") (chars (Url.path url))) in
      match strip_suffix "/sync/push" path with
      | None => Err "node URL must end with /sync/push"%string
      | Some base_path =>
          let node_info_path :=
            if str_is_empty base_path then "/node/info"%string
            else (base_path ++ "/node/info")%string in
          Ok (with_path url node_info_path)
      end
  end.

(** The request that is sent, if any, and the result. The text of a status is
    its number here. *)
Definition verify_sync_register_target (dns : Dns) (get : Request → NodeInfoReply)
    (node_url expected_pubkey : string) : option Request * result (Z * string) unit :=
  match sync_register_node_info_url node_url with
  | Err e => (None, Err (422, e))
  | Ok node_info_url =>
      match match Net.parse node_info_url with
            | Err e => Err ("invalid node/info URL: " ++ e)%string
            | Ok parsed => resolve_and_validate_url dns parsed
            end with
      | Err e => (None, Err (422, ("node/info URL rejected: " ++ e)%string))
      | Ok (hostname, resolved_addrs) =>
          let request := Request.mk node_info_url hostname resolved_addrs in
          (Some request,
           match get request with
           | NodeInfoReply.SendError e =>
               Err (422, ("failed to verify node URL ownership via " ++ node_info_url ++ ": "
                          ++ e)%string)
           | NodeInfoReply.Response status info =>
               if negb ((200 <=? status) && (status <? 300)) then
                 Err (422, ("node URL ownership check returned HTTP " ++ pretty status ++ " from "
                            ++ node_info_url)%string)
               else match info with
               | Err e => Err (422, ("invalid node/info response from " ++ node_info_url ++ ": "
                                     ++ e)%string)
               | Ok node_pubkey =>
                   if node_pubkey ≠s expected_pubkey then
                     Err (422, ("node/info pubkey mismatch for " ++ node_info_url ++ ": expected "
                                ++ expected_pubkey ++ ", got " ++ node_pubkey)%string)
                   else Ok tt
               end
           end)
      end
  end.

(** Both checks, each with the resolver of its moment. *)
Definition check_push_target (dns1 dns2 : Dns) (get : Request → NodeInfoReply)
    (node_url node_pubkey : string) : result (Z * string) unit :=
  match validate_node_url dns1 node_url with
  | Err e => Err (422, e)
  | Ok _ => (verify_sync_register_target dns2 get node_url node_pubkey).2
  end.
End register.
