(* ===== verification/Frames.v ===== *)
(** Which tables each operation leaves alone, as instances of [Keeps]: an
    operation keeps a reader that does not see the tables it writes. *)

From S2P Require Import Prelude.
From S2P Require Import Model.
From S2P Require Import Event.
From S2P Require Import Crates.
From S2P Require Import Store.
From S2P Require Import Tables.
From S2P Require Import RowLists.
From S2P Require Import Search.
From S2P Require Import Catalog.
From S2P Require Import Quality.
From S2P Require Import Feeds.
From S2P Require Import EventLog.
From S2P Require Import Moves.
From S2P Require Import Blocks.
From S2P Require Import GuidChange.
From S2P Require Import Copies.
From S2P Require Import Apply.

Section frames.
Context `{Crates} {G : Type} (g : Db → G).

Lemma keeps_upsert_feed f : (∀ x db, g (set_feeds x db) = g db) → Keeps g (upsert_feed f).
Proof using Type. intros Hg db. unfold upsert_feed. destruct (url_taken _ _ _); cbn; auto. Qed.

Lemma keeps_upsert_track t : (∀ x db, g (set_tracks x db) = g db) → Keeps g (upsert_track t).
Proof using Type. intros Hg db. unfold upsert_track. destruct (feed_exists _ _); cbn; auto. Qed.

Lemma keeps_populate ty id n t d :
  (∀ x db, g (set_search_index x db) = g db) →
  (∀ x db, g (set_search_entities x db) = g db) →
  Keeps g (populate_search_index ty id n t d).
Proof using Type.
  intros H1 H2 db. unfold populate_search_index, entity_at, insert_index_row, query,
    execute, mbind, db_bind.
  destruct (is_some_and _ _); [done|].
  destruct (is_some _); cbn; destruct (is_some _); cbn; by rewrite ?H2, ?H1.
Qed.

Lemma keeps_insert_recipient n r :
  (∀ x db, g (set_value_time_splits x db) = g db) → Keeps g (insert_recipient n r).
Proof using Type. intros Hg db. unfold insert_recipient. destruct (0 <=? _); cbn; auto. Qed.

Lemma keeps_insert_block b :
  (∀ x db, g (set_feed_blocks x db) = g db) → (∀ x db, g (set_feed_copies x db) = g db) →
  Keeps g (insert_feed_block b).
Proof using Type.
  intros H1 H2 db. unfold insert_feed_block. destruct (existsb _ _); [done|].
  destruct (FeedBlock.kind b); cbn; by rewrite ?H2, H1.
Qed.

Lemma keeps_delete_block b :
  (∀ x db, g (set_feed_blocks x db) = g db) → Keeps g (delete_feed_block b).
Proof using Type. intros H1 db. apply H1. Qed.

Lemma keeps_insert_log r :
  (∀ x db, g (set_events x db) = g db) → Keeps g (insert_log_row r).
Proof using Type. intros Hg db. unfold insert_log_row. destruct (event_id_taken _ _); cbn; auto. Qed.

Lemma keeps_insert_idempotent i t p s b n c w :
  (∀ x db, g (set_events x db) = g db) → Keeps g (insert_event_idempotent i t p s b n c w).
Proof using Type. intros Hg db. unfold insert_event_idempotent. destruct (event_id_taken _ _); cbn; auto. Qed.

Lemma keeps_supersession a b c d :
  (∀ x db, g (set_feed_guid_supersessions x db) = g db) →
  Keeps g (insert_guid_supersession a b c d).
Proof using Type. intros Hg. apply keeps_execute. intros db. destruct (_ !! _); auto. Qed.
End frames.

#[export] Instance keeps_deserialize `{Crates} {G} (g : Db → G) ev :
  Keeps g (deserialize_verified_payload ev).
Proof. intros db. unfold deserialize_verified_payload. by destruct (parse_event _ _). Qed.

#[export] Hint Extern 0 (Keeps _ (upsert_feed _)) =>
  apply keeps_upsert_feed; intros; reflexivity : typeclass_instances.
#[export] Hint Extern 0 (Keeps _ (upsert_track _)) =>
  apply keeps_upsert_track; intros; reflexivity : typeclass_instances.
#[export] Hint Extern 0 (Keeps _ (populate_search_index _ _ _ _ _)) =>
  apply keeps_populate; intros; reflexivity : typeclass_instances.
#[export] Hint Extern 0 (Keeps _ (insert_recipient _ _)) =>
  apply keeps_insert_recipient; intros; reflexivity : typeclass_instances.
#[export] Hint Extern 0 (Keeps _ (insert_feed_block _)) =>
  apply keeps_insert_block; intros; reflexivity : typeclass_instances.
#[export] Hint Extern 0 (Keeps _ (delete_feed_block _)) =>
  apply keeps_delete_block; intros; reflexivity : typeclass_instances.
#[export] Hint Extern 0 (Keeps _ (insert_log_row _)) =>
  apply keeps_insert_log; intros; reflexivity : typeclass_instances.
#[export] Hint Extern 0 (Keeps _ (insert_event_idempotent _ _ _ _ _ _ _ _)) =>
  apply keeps_insert_idempotent; intros; reflexivity : typeclass_instances.
#[export] Hint Extern 0 (Keeps _ (insert_guid_supersession _ _ _ _)) =>
  apply keeps_supersession; intros; reflexivity : typeclass_instances.

(** Steps through the code of an operation. *)
Ltac frame_step :=
  lazymatch goal with
  | |- Keeps _ (mbind _ _) => apply keeps_bind; [|intros ?]
  | |- Keeps _ (mret _) => apply keeps_ret
  | |- Keeps _ (throw _) => apply keeps_throw
  | |- Keeps _ (query _) => apply keeps_query
  | |- Keeps _ (for_each _ _) => apply keeps_for_each; intros ?
  | |- Keeps _ (transaction _) => apply keeps_transaction
  | |- Keeps _ (if ?b then _ else _) => destruct b
  | |- Keeps _ (match ?x with _ => _ end) => destruct x
  | |- Keeps _ _ => first [solve [apply _] | progress (intros; unfold ignore)]
  end.

(** [frame unfolding]: proves a [Keeps] goal; [unfolding] opens the operation. *)
Ltac frame := repeat frame_step.

Section composite.
Context `{Crates} {G : Type} (g : Db → G).

#[export] Instance keeps_sync now f :
  (∀ x db, g (set_search_index x db) = g db) →
  (∀ x db, g (set_search_entities x db) = g db) →
  (∀ x db, g (set_entity_quality x db) = g db) →
  Keeps g (sync_source_read_models_for_feed now f).
Proof using Type.
  intros H1 H2 H3. unfold sync_source_read_models_for_feed, get_feed_by_guid,
    get_tracks_for_feed, compute_feed_quality, store_quality.
  assert (∀ b ty id n t d, Keeps g (sync_entry b ty id n t d)) as Hentry.
  { intros [] *; [by apply keeps_populate|by apply delete_index_keeps]. }
  unfold sync_track, compute_track_quality_for_feed_track, store_quality.
  repeat first [apply Hentry | apply keeps_execute; intros; solve [auto] | frame_step].
Qed.
End composite.

#[export] Hint Extern 0 (Keeps _ (sync_source_read_models_for_feed _ _)) =>
  apply keeps_sync; intros; reflexivity : typeclass_instances.

(** Opens the operations that are made of statements. *)
Ltac open_operations :=
  unfold replace_payment_routes_for_feed_track, replace_payment_routes,
    replace_value_time_splits_for_feed_track, insert_value_time_split,
    replace_track_remote_items_raw_for_feed_track, replace_track_remote_items_raw,
    replace_feed_payment_routes, replace_feed_list_value_raw,
    replace_feed_remote_items_raw, replace_live_events_for_feed,
    replace_source_contributor_claims_for_feed, replace_source_entity_ids_for_feed,
    replace_source_entity_links_for_feed, replace_source_release_claims_for_feed,
    replace_source_item_enclosures_for_feed, replace_source_item_transcripts_for_feed,
    replace_source_platform_claims_for_feed, upsert_feed_url_observation,
    upsert_feed_copy_summary, set_feed_copy_resolution, with_copy, delete_guid_change,
    upsert_guid_change, set_guid_change_decision, get_feed_by_guid, get_track_for_feed,
    get_tracks_for_feed, delete_feed_sql, delete_feed_row, delete_track_sql,
    delete_track_row, delete_quality, ignore.

(** Nothing that applies a payload touches the log or the cursors. *)
#[export] Instance apply_payload_keeps_events `{Crates} now c p :
  Keeps events (apply_payload now c p).
Proof. destruct p; cbn [apply_payload]; open_operations; frame. Qed.

#[export] Instance apply_payload_keeps_cursor `{Crates} now c p :
  Keeps node_sync_state (apply_payload now c p).
Proof. destruct p; cbn [apply_payload]; open_operations; frame. Qed.
