(* ===== verification/Replica.v ===== *)
(** Facts about applying events (src/apply.rs): what one event does to the
    log and the cursor, redelivery, and the invariants of the store. *)

From S2P Require Import Prelude.
From S2P Require Import Model.
From S2P Require Import Event.
From S2P Require Import Crates.
From S2P Require Import Store.
From S2P Require Import Tables.
From S2P Require Import Snapshot.
From S2P Require Import RowLists.
From S2P Require Import Search.
From S2P Require Import Catalog.
From S2P Require Import Quality.
From S2P Require Import Feeds.
From S2P Require Import Integrity.
From S2P Require Import EventLog.
From S2P Require Import Diff.
From S2P Require Import Moves.
From S2P Require Import IngestTx.
From S2P Require Import Blocks.
From S2P Require Import GuidChange.
From S2P Require Import Copies.
From S2P Require Import Apply.
From S2P Require Import Frames.

(** ** The store invariant *)

#[export] Instance insert_block_preserves `{Crates} b : Preserves store_ok (insert_feed_block b).
Proof.
  intros db Hd. unfold insert_feed_block. destruct (existsb _ _); [done|].
  by destruct (FeedBlock.kind b).
Qed.

#[export] Instance delete_block_preserves `{Crates} b : Preserves store_ok (delete_feed_block b).
Proof. intros db Hd. exact Hd. Qed.

#[export] Instance supersession_preserves a b c d :
  Preserves store_ok (insert_guid_supersession a b c d).
Proof.
  intros db Hd. unfold insert_guid_supersession, execute. cbn [fst].
  by destruct (_ !! _).
Qed.

#[export] Instance insert_log_preserves r : Preserves store_ok (insert_log_row r).
Proof. intros db Hd. unfold insert_log_row. by destruct (event_id_taken _ _). Qed.

#[export] Instance insert_idempotent_preserves i t p s b n c w :
  Preserves store_ok (insert_event_idempotent i t p s b n c w).
Proof. intros db Hd. unfold insert_event_idempotent. by destruct (event_id_taken _ _). Qed.

#[export] Instance deserialize_preserves `{Crates} ev :
  Preserves store_ok (deserialize_verified_payload ev).
Proof. intros db Hd. unfold deserialize_verified_payload. by destruct (parse_event _ _). Qed.

Ltac preserve_step :=
  lazymatch goal with
  | |- Preserves _ (mbind _ _) => apply preserves_bind; [|intros ?]
  | |- Preserves _ (mret _) => apply preserves_ret
  | |- Preserves _ (query _) => apply preserves_query
  | |- Preserves _ (for_each _ _) => apply preserves_for_each; intros ?
  | |- Preserves _ (transaction _) => apply preserves_transaction
  | |- Preserves _ (if ?b then _ else _) => destruct b
  | |- Preserves _ (match ?x with _ => _ end) => destruct x
  | |- Preserves _ _ => solve [apply _]
  end.

#[export] Instance apply_payload_preserves `{Crates} now c p :
  Preserves store_ok (apply_payload now c p).
Proof.
  destruct p; cbn [apply_payload]; 
    unfold replace_payment_routes, replace_track_remote_items_raw,
    replace_feed_payment_routes, replace_feed_list_value_raw,
    replace_feed_remote_items_raw, replace_live_events_for_feed,
    replace_source_contributor_claims_for_feed, replace_source_entity_ids_for_feed,
    replace_source_entity_links_for_feed, replace_source_release_claims_for_feed,
    replace_source_item_enclosures_for_feed, replace_source_item_transcripts_for_feed,
    replace_source_platform_claims_for_feed, upsert_feed_url_observation,
    upsert_feed_copy_summary, set_feed_copy_resolution, with_copy, delete_guid_change,
    upsert_guid_change, set_guid_change_decision, get_feed_by_guid, get_track_for_feed, ignore;
    repeat preserve_step.
Qed.

#[export] Instance apply_inner_preserves `{Crates} now ev :
  Preserves store_ok (apply_single_event_inner now ev).
Proof. unfold apply_single_event_inner. repeat preserve_step. Qed.

#[export] Instance sync_state_preserves k s n : Preserves store_ok (upsert_node_sync_state k s n).
Proof. unfold upsert_node_sync_state. apply _. Qed.

#[export] Instance apply_single_preserves `{Crates} now ev :
  Preserves store_ok (apply_single_event now ev).
Proof. unfold apply_single_event. repeat preserve_step. Qed.

(** Turns of the batch loop keep what [apply_single_event_inner] keeps. *)
Lemma batch_step_preserves `{Crates} (P : Db → Prop) now ev st :
  Preserves P (apply_single_event_inner now ev) → Preserves P (batch_step now ev st).
Proof.
  intros HP db Hd. unfold batch_step. destruct st as [[[sum applied] diffs] mx].
  assert (∀ d r, live_diff_of ev db = (d, r) → d = db) as Hdiff.
  { intros d r. unfold live_diff_of, deserialize_verified_payload, mbind, db_bind.
    destruct (parse_event _ _) as [p|]; [|by intros [= <- _]].
    destruct p; by intros [= <- _]. }
  destruct (live_diff_of ev db) as [d [nd|e]] eqn:E; rewrite (Hdiff _ _ eq_refl); [|done].
  specialize (HP db Hd). destruct (apply_single_event_inner now ev db) as [d' [[]|]]; exact HP.
Qed.

Lemma batch_loop_preserves `{Crates} (P : Db → Prop) now evs st :
  (∀ ev, ev ∈ evs → Preserves P (apply_single_event_inner now ev)) →
  Preserves P (batch_loop now evs st).
Proof.
  revert st. induction evs as [|ev evs IH]; intros st Hev; cbn [batch_loop]; [apply _|].
  apply preserves_bind; [apply batch_step_preserves, Hev; left|].
  intros st'. apply IH. intros ev' Hin. apply Hev. by right.
Qed.

Lemma apply_batch_preserves `{Crates} (P : Db → Prop) now evs :
  (∀ ev, ev ∈ evs → Preserves P (apply_single_event_inner now ev)) →
  (∀ s, Preserves P (upsert_node_sync_state SYNC_CURSOR_KEY s now)) →
  Preserves P (apply_batch now evs).
Proof.
  intros Hev Hs. unfold apply_batch. apply preserves_transaction, preserves_bind;
    [by apply batch_loop_preserves|]. intros [[[sum applied] diffs] mx]. cbn.
  apply preserves_bind; [|intros; apply _]. apply preserves_if; [apply Hs|apply _].
Qed.

Lemma apply_events_preserves `{Crates} (P : Db → Prop) now evs db :
  (∀ ev, ev ∈ evs → Preserves P (apply_single_event_inner now ev)) →
  (∀ s, Preserves P (upsert_node_sync_state SYNC_CURSOR_KEY s now)) →
  P db → P (apply_events now evs db).1.1.1.
Proof.
  intros Hev Hs Hd. unfold apply_events.
  pose proof (apply_batch_preserves P now (List.filter verify_event_signature evs)) as Hb.
  destruct (List.filter verify_event_signature evs) as [|v vs] eqn:E; [done|].
  assert (P (apply_batch now (v :: vs) db).1) as H1.
  { apply Hb; [|done..]. intros ev Hin. rewrite <-E in Hin.
    apply elem_of_filterb in Hin as [_ Hin]. by apply Hev. }
  destruct (apply_batch now (v :: vs) db) as [d [[[[sum applied] diffs] mx]|e]]; exact H1.
Qed.

(** ** The log *)

Lemma insert_idempotent_log i t p s b n c w :
  Preserves log_ok (insert_event_idempotent i t p s b n c w).
Proof.
  intros db Hd. unfold insert_event_idempotent.
  destruct (event_id_taken db i) eqn:E; [done|]. by apply log_ok_extend.
Qed.

Lemma keeps_events_log {A} (m : DB A) : Keeps events m → Preserves log_ok m.
Proof. intros Hm db Hd. unfold log_ok. by rewrite (Hm db). Qed.

#[export] Instance apply_inner_log `{Crates} now ev :
  Preserves log_ok (apply_single_event_inner now ev).
Proof.
  unfold apply_single_event_inner. apply preserves_bind; [apply insert_idempotent_log|].
  intros [seq|]; [|apply _]. apply keeps_events_log, _.
Qed.

#[export] Instance sync_state_log k s n : Preserves log_ok (upsert_node_sync_state k s n).
Proof. apply keeps_events_log. unfold upsert_node_sync_state. apply _. Qed.

(** The signature update of a new row changes that row only. *)
Lemma update_signature_last l r id by_ sig :
  id ∉ LogRow.event_id <$> l → LogRow.event_id r = id →
  ((λ x, if LogRow.event_id x =s id
         then LogRow.mk (LogRow.event_id x) (LogRow.event_type x) (LogRow.payload_json x)
                (LogRow.subject_guid x) by_ sig (LogRow.seq x) (LogRow.created_at x)
                (LogRow.warnings x)
         else x) <$> (l ++ [r]))
  = l ++ [LogRow.mk id (LogRow.event_type r) (LogRow.payload_json r) (LogRow.subject_guid r)
            by_ sig (LogRow.seq r) (LogRow.created_at r) (LogRow.warnings r)].
Proof.
  intros Hl Hr. rewrite fmap_app. f_equal.
  - rewrite <-(list_fmap_id l) at 2. apply list_fmap_ext. intros i x Hx.
    destruct (LogRow.event_id x =s id) eqn:E; [|done]. bool_facts. destruct Hl.
    rewrite <-E. apply list_elem_of_fmap_2. by eapply list_elem_of_lookup_2.
  - cbn. by rewrite Hr, String.eqb_refl.
Qed.

(** What [insert_event] does. *)
Lemma insert_event_run `{Crates} id t p s signer c w db :
  insert_event id t p s signer c w db =
  if event_id_taken db id then (db, Err (Rusqlite Unique))
  else
    let '(by_, sig) := sign_event signer id t p s c (next_seq db) in
    (set_events (events db ++ [LogRow.mk id t p s by_ sig (next_seq db) c w]) db,
     Ok (next_seq db, by_, sig)).
Proof.
  unfold insert_event, insert_log_row, mbind, db_bind. cbn [LogRow.event_id].
  destruct (event_id_taken db id) eqn:E; [done|]. cbn.
  unfold update_event_signature, execute. cbn.
  apply event_id_taken_false in E. by rewrite update_signature_last.
Qed.

#[export] Instance insert_event_log `{Crates} id t p s signer c w :
  Preserves log_ok (insert_event id t p s signer c w).
Proof.
  intros db Hd. rewrite insert_event_run. destruct (event_id_taken db id) eqn:E; [done|].
  by apply log_ok_extend.
Qed.

#[export] Instance insert_event_preserves `{Crates} id t p s signer c w :
  Preserves store_ok (insert_event id t p s signer c w).
Proof.
  intros db Hd. rewrite insert_event_run. by destruct (event_id_taken db id).
Qed.

#[export] Instance insert_events_preserves `{Crates} (P : Db → Prop) signer rows :
  (∀ id t p s c w, Preserves P (insert_event id t p s signer c w)) →
  Preserves P (insert_events signer rows).
Proof.
  intros HP. induction rows as [|er rows IH]; cbn [insert_events]; [apply _|].
  apply preserves_bind; [apply HP|]. intros s. apply preserves_bind; [done|apply _].
Qed.

(** ** The ingest keeps both invariants *)

Lemma flat_map_preserves {A B} (P : Db → Prop) (f : A → DB (list B)) l :
  (∀ x, Preserves P (f x)) → Preserves P (flat_map_db f l).
Proof.
  intros Hf. induction l as [|x l IH]; cbn [flat_map_db]; [apply _|].
  apply preserves_bind; [apply Hf|]. intros ys. apply preserves_bind; [done|apply _].
Qed.

#[export] Instance write_move_preserves g mv : Preserves store_ok (write_feed_move g mv).
Proof.
  unfold write_feed_move, add_left_url, remove_left_url. repeat preserve_step.
Qed.

#[export] Instance ingest_preserves `{Crates} ho now n b rows mv signer :
  Preserves store_ok (ingest_transaction ho now n b rows mv signer).
Proof.
  unfold ingest_transaction, ingest_body, ingest_feed_lists, replace_rows,
    replace_feed_list_value_raw, ingest_track, remove_if_stale, insert_value_time_split,
    get_track_for_feed.
  repeat first
    [ preserve_step | apply flat_map_preserves; intros ?
    | apply insert_events_preserves; intros; apply _ ].
Qed.

#[export] Instance write_move_keeps_events g mv : Keeps events (write_feed_move g mv).
Proof. unfold write_feed_move, add_left_url, remove_left_url. frame. Qed.

#[export] Instance ingest_log `{Crates} ho now n b rows mv signer :
  Preserves log_ok (ingest_transaction ho now n b rows mv signer).
Proof.
  unfold ingest_transaction, ingest_body. apply preserves_transaction.
  apply preserves_bind; [apply keeps_events_log, _|intros _].
  apply preserves_bind; [apply keeps_events_log, _|intros _].
  apply preserves_bind; [apply keeps_events_log, _|intros _].
  apply preserves_bind; [apply keeps_events_log|intros _].
  { unfold ingest_feed_lists, replace_rows. open_operations. frame. }
  apply preserves_bind; [apply _|intros guids].
  apply preserves_bind; [apply keeps_events_log|intros _].
  { apply keeps_for_each. intros [[[t r] v] i]. unfold ingest_track. open_operations. frame. }
  apply preserves_bind; [|intros removals].
  { apply flat_map_preserves. intros g. apply keeps_events_log.
    unfold remove_if_stale. open_operations. frame. }
  apply preserves_bind; [apply insert_events_preserves; intros; apply _|intros seqs].
  apply preserves_bind; [apply keeps_events_log, _|intros _].
  apply preserves_bind; [apply keeps_events_log; frame|intros _]. apply _.
Qed.

(** ** The search index stays in step with its companion table *)

Section index.
Context `{Crates}.

#[local] Hint Extern 0 (Preserves index_ok (execute _)) =>
  (let d := fresh "db" in let Hd := fresh "Hd" in intros d Hd; exact Hd) : typeclass_instances.
#[local] Hint Extern 0 (Preserves index_ok (delete_where _ _)) =>
  (let d := fresh "db" in let Hd := fresh "Hd" in intros d Hd; exact Hd) : typeclass_instances.
#[local] Hint Extern 0 (Preserves index_ok (insert _ _)) =>
  (let d := fresh "db" in let Hd := fresh "Hd" in
   intros d Hd; unfold insert; repeat split_if; exact Hd) : typeclass_instances.

#[export] Instance populate_index ty id n t d :
  Preserves index_ok (populate_search_index ty id n t d).
Proof using Type. intros db Hd. by apply populate_index_ok. Qed.
#[export] Instance delete_index ty id : Preserves index_ok (delete_from_search_index ty id).
Proof using Type. intros db Hd. by apply delete_index_ok. Qed.
#[export] Instance upsert_feed_index f : Preserves index_ok (upsert_feed f).
Proof using Type. intros db Hd. unfold upsert_feed. by destruct (url_taken _ _ _). Qed.
#[export] Instance upsert_track_index t : Preserves index_ok (upsert_track t).
Proof using Type. intros db Hd. unfold upsert_track. by destruct (feed_exists _ _). Qed.
#[export] Instance recipient_index n r : Preserves index_ok (insert_recipient n r).
Proof using Type. intros db Hd. unfold insert_recipient. by destruct (0 <=? _). Qed.
#[export] Instance insert_block_index b : Preserves index_ok (insert_feed_block b).
Proof using Type.
  intros db Hd. unfold insert_feed_block. destruct (existsb _ _); [done|].
  by destruct (FeedBlock.kind b).
Qed.
#[export] Instance delete_block_index b : Preserves index_ok (delete_feed_block b).
Proof using Type. intros db Hd. exact Hd. Qed.
#[export] Instance supersession_index a b c d :
  Preserves index_ok (insert_guid_supersession a b c d).
Proof using Type.
  intros db Hd. unfold insert_guid_supersession, execute. cbn [fst]. by destruct (_ !! _).
Qed.
#[export] Instance insert_idempotent_index i t p s b n c w :
  Preserves index_ok (insert_event_idempotent i t p s b n c w).
Proof using Type.
  intros db Hd. unfold insert_event_idempotent. by destruct (event_id_taken _ _).
Qed.
#[export] Instance insert_event_index id t p s signer c w :
  Preserves index_ok (insert_event id t p s signer c w).
Proof using Type. intros db Hd. rewrite insert_event_run. by destruct (event_id_taken db id). Qed.
#[export] Instance deserialize_index ev : Preserves index_ok (deserialize_verified_payload ev).
Proof using Type.
  intros db Hd. unfold deserialize_verified_payload. by destruct (parse_event _ _).
Qed.

#[export] Instance sync_index now f :
  Preserves index_ok (sync_source_read_models_for_feed now f).
Proof using Type.
  unfold sync_source_read_models_for_feed, sync_track, sync_entry, get_feed_by_guid,
    get_tracks_for_feed, compute_feed_quality, compute_track_quality_for_feed_track,
    store_quality.
  repeat preserve_step.
Qed.

#[export] Instance delete_feed_index f : Preserves index_ok (delete_feed_sql f).
Proof using Type. open_operations. repeat preserve_step. Qed.
#[export] Instance delete_track_index f t : Preserves index_ok (delete_track_sql f t).
Proof using Type. open_operations. repeat preserve_step. Qed.

#[export] Instance apply_payload_index now c p : Preserves index_ok (apply_payload now c p).
Proof using Type.
  destruct p; cbn [apply_payload]; open_operations; repeat preserve_step.
Qed.

#[export] Instance apply_inner_index now ev :
  Preserves index_ok (apply_single_event_inner now ev).
Proof using Type. unfold apply_single_event_inner. repeat preserve_step. Qed.

#[export] Instance sync_state_index k s n : Preserves index_ok (upsert_node_sync_state k s n).
Proof using Type. unfold upsert_node_sync_state. apply _. Qed.

#[export] Instance ingest_index ho now n b rows mv signer :
  Preserves index_ok (ingest_transaction ho now n b rows mv signer).
Proof using Type.
  unfold ingest_transaction, ingest_body, ingest_feed_lists, replace_rows,
    replace_feed_list_value_raw, ingest_track, remove_if_stale, insert_value_time_split,
    get_track_for_feed, write_feed_move, add_left_url, remove_left_url.
  repeat first
    [ preserve_step | apply flat_map_preserves; intros ?
    | apply insert_events_preserves; intros; apply _ ].
Qed.
End index.

(** ** Deletes in a transaction of their own *)

Section deletes.
Context `{Crates}.

Lemma total_transaction (m : DB unit) db :
  Total m → (transaction m db).2 = Ok tt ∧ (transaction m db).1 = (m db).1.
Proof using Type.
  intros Ht. unfold transaction. specialize (Ht db). by destruct (m db) as [d [[]|e]].
Qed.

Lemma delete_feed_ok f db :
  (delete_feed f db).2 = Ok tt ∧ (delete_feed f db).1 = (delete_feed_sql f db).1.
Proof using Type. apply total_transaction, _. Qed.

Lemma delete_track_ok f t db :
  (delete_track f t db).2 = Ok tt ∧ (delete_track f t db).1 = (delete_track_sql f t db).1.
Proof using Type. apply total_transaction, _. Qed.

Lemma delete_feed_events f db : events (delete_feed_sql f db).1 = events db.
Proof using Type.
  assert (Keeps events (delete_feed_sql f)) as K by (open_operations; frame). apply K.
Qed.

Lemma delete_feed_gone f db : source_gone_answers (delete_feed_sql f db).1 !! f = None.
Proof using Type.
  assert (source_gone_answers (delete_feed_sql f db).1 = delete f (source_gone_answers db)) as ->;
    [|apply lookup_delete_eq].
  unfold delete_feed_sql, delete_feed_row, delete_quality. rewrite bind_tracks. cbv zeta.
  repeat skip_step. reflexivity.
Qed.

(** What two filters leave. *)
Lemma elem_of_left {R} (p : string → Scoped R → bool) l rows f (s : Scoped R) :
  s ∈ List.filter (λ s, negb (existsb (λ t, p t s) l))
        (List.filter (λ s, negb (Scoped.feed s == Some f)) rows)
  ↔ s ∈ rows ∧ Scoped.feed s ≠ Some f ∧ ∀ t, t ∈ l → p t s = false.
Proof using Type.
  rewrite !elem_of_filterb, !negb_true_iff, bool_decide_eq_false.
  assert (existsb (λ t, p t s) l = false ↔ ∀ t, t ∈ l → p t s = false) as ->; [|tauto].
  rewrite <-not_true_iff_false, existsb_exists. split.
  - intros Hn t Ht. apply not_true_iff_false. intros Hp. apply Hn. exists t.
    by rewrite <-list_elem_of_In.
  - intros Hall (t & Ht%list_elem_of_In & Hp). by rewrite Hall in Hp.
Qed.
End deletes.

(** ** Reachable states *)

Section reachable.
Context `{Crates} (hash_order : list string → list string).

(** What a node does to its store: an ingest on the primary, a batch or one
    event on a replica, an operator's delete. Each is the state after the
    call, whether it succeeded or not. *)
Inductive node_step (db : Db) : Db → Prop :=
  | step_ingest now uuids b rows mv signer :
      node_step db (ingest_transaction hash_order now uuids b rows mv signer db).1
  | step_apply_events now evs : node_step db (apply_events now evs db).1.1.1
  | step_apply_single now ev : node_step db (apply_single_event now ev db).1
  | step_delete_feed f : node_step db (delete_feed f db).1
  | step_delete_track f t : node_step db (delete_track f t db).1.

Definition node_ok (db : Db) : Prop := store_ok db ∧ log_ok db ∧ index_ok db.

Lemma empty_ok : node_ok empty_db.
Proof using Type.
  split_and!; [split_and!| |]; try (split_and!; cbn); try set_solver;
    try (intros ? ?; set_solver); try constructor.
Qed.

Lemma delete_feed_log f : Preserves log_ok (delete_feed f).
Proof using Type.
  apply keeps_events_log. unfold delete_feed. apply keeps_transaction.
  open_operations. frame.
Qed.

Lemma delete_track_log f t : Preserves log_ok (delete_track f t).
Proof using Type.
  apply keeps_events_log. unfold delete_track. apply keeps_transaction.
  open_operations. frame.
Qed.

(** An operation that keeps the three invariants keeps [node_ok]. *)
Lemma node_ok_step {A} (m : DB A) db :
  Preserves store_ok m → Preserves log_ok m → Preserves index_ok m →
  node_ok db → node_ok (m db).1.
Proof using Type. intros H1 H2 H3 (?&?&?). split_and!; auto. Qed.

Lemma node_step_ok db db' : node_ok db → node_step db db' → node_ok db'.
Proof using Type.
  intros Hok [now uuids b rows mv signer|now evs|now ev|f|f t].
  - apply node_ok_step; [apply _..|done].
  - destruct Hok as (?&?&?).
    split_and!; apply apply_events_preserves; try done; intros; apply _.
  - apply node_ok_step; [apply _|..|done];
      unfold apply_single_event; apply preserves_transaction, preserves_bind; try apply _;
      intros [seq|]; (apply preserves_bind; [apply _|intros; apply _]).
  - apply node_ok_step; [unfold delete_feed; apply _|apply delete_feed_log| |done].
    unfold delete_feed. apply _.
  - apply node_ok_step; [unfold delete_track; apply _|apply delete_track_log| |done].
    unfold delete_track. apply _.
Qed.
End reachable.
