(* ===== verification/Parts.v ===== *)
(** The eleven row lists of a feed and the three of a track as two families.

    [FeedList] names them; each name has its table, its place in a
    submission, its event and its operations, so that a fact about all lists
    is one lemma. The order of [all_lists] is that of [ingest_transaction],
    the order of [event_lists] that of [build_all_events]. [TrackList] does
    the same for the lists of a track. *)

From S2P Require Import Prelude.
From S2P Require Import Model.
From S2P Require Import Event.
From S2P Require Import Crates.
From S2P Require Import Store.
From S2P Require Import Tables.
From S2P Require Import Snapshot.
From S2P Require Import RowLists.
From S2P Require Import Search.
From S2P Require Import Catalog.
From S2P Require Import Feeds.
From S2P Require Import Integrity.
From S2P Require Import EventLog.
From S2P Require Import Diff.
From S2P Require Import Moves.
From S2P Require Import IngestTx.
From S2P Require Import Blocks.
From S2P Require Import GuidChange.
From S2P Require Import Copies.
From S2P Require Import Apply.
From S2P Require Import Frames.

Inductive FeedList : Type :=
  | FeedRoutes
  | ListValues
  | RemoteItems
  | Contributors
  | EntityIds
  | EntityLinks
  | ReleaseClaims
  | Enclosures
  | Transcripts
  | PlatformClaims
  | LiveEventList.

#[export] Instance feed_list_eq_dec : EqDecision FeedList.
Proof. solve_decision. Defined.

Definition list_row (l : FeedList) : Type :=
  match l with
  | FeedRoutes => FeedPaymentRoute
  | ListValues => FeedListValueRaw
  | RemoteItems => FeedRemoteItemRaw
  | Contributors => SourceContributorClaim
  | EntityIds => SourceEntityIdClaim
  | EntityLinks => SourceEntityLink
  | ReleaseClaims => SourceReleaseClaim
  | Enclosures => SourceItemEnclosure
  | Transcripts => SourceItemTranscript
  | PlatformClaims => SourcePlatformClaim
  | LiveEventList => LiveEvent
  end.

Definition list_table (l : FeedList) : Table (list_row l) (list SqlVal) :=
  match l with
  | FeedRoutes => feed_payment_routes_table
  | ListValues => feed_list_value_raw_table
  | RemoteItems => feed_remote_items_raw_table
  | Contributors => source_contributor_claims_table
  | EntityIds => source_entity_ids_table
  | EntityLinks => source_entity_links_table
  | ReleaseClaims => source_release_claims_table
  | Enclosures => source_item_enclosures_table
  | Transcripts => source_item_transcripts_table
  | PlatformClaims => source_platform_claims_table
  | LiveEventList => live_events_table
  end.

#[export] Instance list_snapshot l : Snapshot (X := string) (list_table l).
Proof. destruct l; apply _. Defined.

#[export] Instance list_snapshot_laws l : SnapshotLaws (X := string) (list_table l).
Proof. destruct l; apply _. Qed.

#[export] Instance list_snapshot_diff l : SnapshotDiff (X := string) (list_table l).
Proof. destruct l; apply _. Defined.

Lemma list_exists l f db : snap_exists (T := list_table l) f db = feed_exists db f.
Proof. by destruct l. Qed.

(** Two lists are two tables. *)
Lemma list_table_other l k x db :
  l ≠ k → tbl_get (list_table l) (tbl_set (list_table k) x db) = tbl_get (list_table l) db.
Proof. by destruct l, k. Qed.

(** The rows of a list in a submission. *)
Definition bundle_rows (b : IngestBundle) (l : FeedList) : list (list_row l) :=
  match l with
  | FeedRoutes => IngestBundle.feed_routes b
  | ListValues => IngestBundle.feed_list_values b
  | RemoteItems => IngestBundle.remote_items b
  | Contributors => IngestBundle.source_contributor_claims b
  | EntityIds => IngestBundle.source_entity_ids b
  | EntityLinks => IngestBundle.source_entity_links b
  | ReleaseClaims => IngestBundle.source_release_claims b
  | Enclosures => IngestBundle.source_item_enclosures b
  | Transcripts => IngestBundle.source_item_transcripts b
  | PlatformClaims => IngestBundle.source_platform_claims b
  | LiveEventList => IngestBundle.live_events b
  end.

(** The rows that its event carries. *)
Definition event_list_rows (b : IngestBundle) (l : FeedList) : list (list_row l) :=
  match l return list (list_row l) → list (list_row l) with
  | LiveEventList => dedupe_and_sort_live_events
  | _ => λ rows, rows
  end (bundle_rows b l).

(** The payload that replaces a list. *)
Definition list_payload (l : FeedList) (g : string) : list (list_row l) → EventPayload :=
  match l return list (list_row l) → EventPayload with
  | FeedRoutes => λ r, EventPayload.FeedRoutesReplaced (FeedRoutesReplacedPayload.mk g r)
  | ListValues => λ r, EventPayload.FeedListValueReplaced (FeedListValueReplacedPayload.mk g r)
  | RemoteItems => λ r,
      EventPayload.FeedRemoteItemsReplaced (FeedRemoteItemsReplacedPayload.mk g r)
  | Contributors => λ r,
      EventPayload.SourceContributorClaimsReplaced (SourceContributorClaimsReplacedPayload.mk g r)
  | EntityIds => λ r,
      EventPayload.SourceEntityIdsReplaced (SourceEntityIdsReplacedPayload.mk g r)
  | EntityLinks => λ r,
      EventPayload.SourceEntityLinksReplaced (SourceEntityLinksReplacedPayload.mk g r)
  | ReleaseClaims => λ r,
      EventPayload.SourceReleaseClaimsReplaced (SourceReleaseClaimsReplacedPayload.mk g r)
  | Enclosures => λ r,
      EventPayload.SourceItemEnclosuresReplaced (SourceItemEnclosuresReplacedPayload.mk g r)
  | Transcripts => λ r,
      EventPayload.SourceItemTranscriptsReplaced (SourceItemTranscriptsReplacedPayload.mk g r)
  | PlatformClaims => λ r,
      EventPayload.SourcePlatformClaimsReplaced (SourcePlatformClaimsReplacedPayload.mk g r)
  | LiveEventList => λ r, EventPayload.LiveEventsReplaced (LiveEventsReplacedPayload.mk g r)
  end.

(** The write and the read of a list. *)
Definition list_replace (l : FeedList) : string → list (list_row l) → DB unit :=
  match l return string → list (list_row l) → DB unit with
  | FeedRoutes => replace_feed_payment_routes
  | ListValues => replace_feed_list_value_raw
  | RemoteItems => replace_feed_remote_items_raw
  | Contributors => replace_source_contributor_claims_for_feed
  | EntityIds => replace_source_entity_ids_for_feed
  | EntityLinks => replace_source_entity_links_for_feed
  | ReleaseClaims => replace_source_release_claims_for_feed
  | Enclosures => replace_source_item_enclosures_for_feed
  | Transcripts => replace_source_item_transcripts_for_feed
  | PlatformClaims => replace_source_platform_claims_for_feed
  | LiveEventList => replace_live_events_for_feed
  end.

Definition list_get (l : FeedList) : string → DB (list (list_row l)) :=
  match l return string → DB (list (list_row l)) with
  | FeedRoutes => get_feed_payment_routes_for_feed
  | ListValues => get_feed_list_value_raw_for_feed
  | RemoteItems => get_feed_remote_items_for_feed
  | Contributors => get_source_contributor_claims_for_feed
  | EntityIds => get_source_entity_ids_for_feed
  | EntityLinks => get_source_entity_links_for_feed
  | ReleaseClaims => get_source_release_claims_for_feed
  | Enclosures => get_source_item_enclosures_for_feed
  | Transcripts => get_source_item_transcripts_for_feed
  | PlatformClaims => get_source_platform_claims_for_feed
  | LiveEventList => get_live_events_for_feed
  end.

Lemma list_replace_eq l : list_replace l = snap_replace (list_table l).
Proof. by destruct l. Qed.

Lemma list_get_perm l f db :
  ∃ out, list_get l f db = (db, Ok out) ∧ out ≡ₚ snap_rows (list_table l) f db.
Proof.
  destruct l; eexists; (split; [reflexivity|]); first [reflexivity|apply order_by_perm].
Qed.

(** The read sees the rows of its feed only. *)
Lemma list_get_rows l g db db' :
  snap_rows (list_table l) g db' = snap_rows (list_table l) g db →
  list_get l g db' = (db', (list_get l g db).2).
Proof.
  destruct l; unfold snap_rows; cbn -[List.filter];
    unfold get_feed_payment_routes_for_feed, get_feed_list_value_raw_for_feed,
      get_feed_remote_items_for_feed, get_source_contributor_claims_for_feed,
      get_source_entity_ids_for_feed, get_source_entity_links_for_feed,
      get_source_release_claims_for_feed, get_source_item_enclosures_for_feed,
      get_source_item_transcripts_for_feed, get_source_platform_claims_for_feed,
      get_live_events_for_feed, query; intros E; cbn [snd]; do 2 f_equal;
    first [exact E | f_equal; exact E].
Qed.

(** A row is a row of one feed only. *)
Lemma list_scope_other l f g r :
  g ≠ f → snap_in (T := list_table l) f r = true → snap_in (T := list_table l) g r = false.
Proof.
  intros Hn. destruct l; cbn; intros <-%String.eqb_eq; by apply String.eqb_neq.
Qed.

Definition all_lists : list FeedList :=
  [FeedRoutes; RemoteItems; ListValues; LiveEventList; Contributors; EntityIds; EntityLinks;
   ReleaseClaims; Enclosures; Transcripts; PlatformClaims].

Definition event_lists : list FeedList :=
  [FeedRoutes; ListValues; RemoteItems; Contributors; EntityIds; EntityLinks; ReleaseClaims;
   Enclosures; Transcripts; PlatformClaims; LiveEventList].

Lemma elem_of_all_lists l : l ∈ all_lists.
Proof. destruct l; unfold all_lists; set_solver. Qed.

Lemma elem_of_event_lists l : l ∈ event_lists.
Proof. destruct l; unfold event_lists; set_solver. Qed.

Lemma all_lists_NoDup : NoDup all_lists.
Proof. by apply (bool_decide_unpack _). Qed.

Lemma event_lists_NoDup : NoDup event_lists.
Proof. by apply (bool_decide_unpack _). Qed.

(** ** The operations of the program on the family *)

Section family.
Context `{Crates}.

(** Applying a payload is the replace of its list. *)
Lemma apply_list_payload now c l g rows :
  apply_payload now c (list_payload l g rows) = snap_replace (list_table l) g rows.
Proof using Type. by destruct l. Qed.

(** The ingest replaces each list with the rows of the submission. *)
Lemma ingest_feed_lists_eq b db :
  ingest_feed_lists (dedupe_bundle b) db
  = for_each (λ l, snap_replace (list_table l) (Feed.feed_guid (IngestBundle.feed b))
                     (bundle_rows b l)) all_lists db.
Proof using Type.
  unfold ingest_feed_lists, all_lists. cbn [for_each].
  repeat (apply bind_cong; [done|]; intros [] ?). symmetry. exact (bind_tt _ _).
Qed.

(** The builders of the events, by list. *)
Definition list_event (l : FeedList) (feed : Feed) (rows : list (list_row l)) (now : Z)
    (warnings : list string) (event_id : string) : EventRow :=
  let p := list_payload l (Feed.feed_guid feed) rows in
  EventRow.mk event_id (payload_type p) (event_json p) (Feed.feed_guid feed) now warnings.

Definition track_events (now : Z) (warnings : list string) (bundle : TrackIngestBundle) :
    list (string → EventRow) :=
  let '(track, routes, vts, track_remote_items) := bundle in
  [build_track_upserted_event track routes vts now warnings]
  ++ push_if (is_nonempty track_remote_items)
       (build_track_remote_items_event track track_remote_items now warnings).

Lemma build_all_events_eq b now warnings :
  build_all_events b now warnings
  = build_feed_upserted_event (IngestBundle.feed b) now warnings
    :: concat ((λ l, push_if (is_nonempty (event_list_rows b l))
         (list_event l (IngestBundle.feed b) (event_list_rows b l) now warnings)) <$> event_lists)
    ++ concat (track_events now warnings <$> IngestBundle.tracks b).
Proof using Type.
  unfold build_all_events, event_lists. cbn [fmap list_fmap concat].
  rewrite <-!app_assoc. reflexivity.
Qed.
End family.

(** ** The lists of a track *)

Inductive TrackList : Type :=
  | TrackRoutes
  | TrackSplits
  | TrackItems.

#[export] Instance track_list_eq_dec : EqDecision TrackList.
Proof. solve_decision. Defined.

Definition track_row (k : TrackList) : Type :=
  match k with
  | TrackRoutes => PaymentRoute
  | TrackSplits => Scoped ValueTimeSplit
  | TrackItems => Scoped TrackRemoteItemRaw
  end.

Definition track_table (k : TrackList) : Table (track_row k) (list SqlVal) :=
  match k with
  | TrackRoutes => payment_routes_table
  | TrackSplits => full_splits_table
  | TrackItems => track_remote_items_raw_table
  end.

#[export] Instance track_snapshot k : Snapshot (X := string * string) (track_table k).
Proof. destruct k; apply _. Defined.

#[export] Instance track_snapshot_laws k : SnapshotLaws (X := string * string) (track_table k).
Proof. destruct k; apply _. Qed.

Lemma track_list_exists k f t db :
  snap_exists (T := track_table k) (f, t) db = track_exists db f t.
Proof. by destruct k. Qed.

Lemma track_table_other k j x db :
  k ≠ j → tbl_get (track_table k) (tbl_set (track_table j) x db) = tbl_get (track_table k) db.
Proof. by destruct k, j. Qed.

(** A row is a row of one track GUID only. *)
Lemma track_scope_other k f t u r :
  t ≠ u → snap_in (T := track_table k) (f, t) r = true →
  snap_in (T := track_table k) (f, u) r = false.
Proof.
  intros Hn. destruct k; cbn; unfold in_split_scope, in_item_scope; intros ?; bool_facts;
    subst; rewrite ?String.eqb_refl; cbn; rewrite ?(proj2 (String.eqb_neq _ _) Hn); done.
Qed.

Definition track_key (bundle : TrackIngestBundle) : string * string :=
  (Track.feed_guid bundle.1.1.1, Track.track_guid bundle.1.1.1).

(** The rows of a list that the bundle of a track writes. *)
Definition track_rows (bundle : TrackIngestBundle) (k : TrackList) : list (track_row k) :=
  let '(track, routes, splits, items) := bundle in
  let f := Track.feed_guid track in
  let t := Track.track_guid track in
  match k return list (track_row k) with
  | TrackRoutes => route_of_track f t <$> routes
  | TrackSplits =>
      (λ s, full_split (or_feed (ValueTimeSplit.source_feed_guid s) f) t s) <$> splits
  | TrackItems =>
      (λ i, item_of_track (Some (or_feed (TrackRemoteItemRaw.feed_guid i) f)) t i) <$> items
  end.

Definition track_replace (bundle : TrackIngestBundle) (k : TrackList) : DB unit :=
  snap_replace (track_table k) (track_key bundle) (track_rows bundle k).

(** The ingest of a track: the row and then its three lists. *)
Lemma ingest_track_eq bundle :
  same_ok (ingest_track bundle)
    (_ ← upsert_track bundle.1.1.1;
     for_each (track_replace bundle) [TrackRoutes; TrackSplits; TrackItems]).
Proof.
  destruct bundle as [[[track routes] splits] items].
  assert (∀ db, ingest_track (track, routes, splits, items) db =
    mbind (λ _, _ ← replace_payment_routes_for_feed_track (Track.feed_guid track)
                      (Track.track_guid track) routes;
                _ ← replace_value_time_splits_for_feed_track (Track.feed_guid track)
                      (Track.track_guid track) splits;
                replace_track_remote_items_raw_for_feed_track (Track.feed_guid track)
                  (Track.track_guid track) items) (upsert_track track) db) as E.
  { intros db. unfold ingest_track. apply bind_cong; [done|]. intros _ d.
    unfold replace_payment_routes_for_feed_track, replace_value_time_splits_for_feed_track.
    rewrite !bind_assoc. apply bind_cong; [done|]. intros _ d'.
    apply bind_cong; [done|]. intros _ d''. by rewrite bind_assoc. }
  eapply same_ok_trans; [apply same_ok_ext, E|].
  apply same_ok_bind; [done|]. intros _. cbn [for_each].
  apply same_ok_bind.
  { intros ? ? ?. by rewrite replace_payment_routes_for_feed_track_eq. }
  intros _. apply same_ok_bind; [apply replace_value_time_splits_for_feed_track_eq|].
  intros _ d d' a. rewrite bind_tt. by rewrite replace_track_remote_items_raw_for_feed_track_eq.
Qed.
