(* ===== verification/Ingested.v ===== *)
(** What an ingest leaves on the primary, and the rows of its bundle. *)

From S2P Require Import Prelude.
From S2P Require Import Model.
From S2P Require Import Event.
From S2P Require Import Ingest.
From S2P Require Import Crates.
From S2P Require Import Live.
From S2P Require Import Claims.
From S2P Require Import Medium.
From S2P Require Import Store.
From S2P Require Import Tables.
From S2P Require Import Snapshot.
From S2P Require Import RowLists.
From S2P Require Import Search.
From S2P Require Import Catalog.
From S2P Require Import Quality.
From S2P Require Import Feeds.
From S2P Require Import Integrity.
From S2P Require Import EventLog.
From S2P Require Import Diff.
From S2P Require Import Bundle.
From S2P Require Import Moves.
From S2P Require Import IngestTx.
From S2P Require Import Apply.
From S2P Require Import Frames.
From S2P Require Import Replica.
From S2P Require Import Parts.

(** What [ingest_transaction] leaves on the primary: the feed row, the lists,
    the tracks, and the rows of the log. *)

(** How src/api.rs makes a submission: the rows are under the feed and the
    track they come with. That no track GUID comes twice is up to the feed. *)
Record bundle_ok (b : IngestBundle) : Prop := {
  bundle_lists : ∀ l, owned (list_table l) (Feed.feed_guid (IngestBundle.feed b)) (bundle_rows b l);
  bundle_feed : ∀ x, x ∈ IngestBundle.tracks b →
    (track_key x).1 = Feed.feed_guid (IngestBundle.feed b);
  bundle_tracks : NoDup ((snd ∘ track_key) <$> IngestBundle.tracks b);
  bundle_track_rows : ∀ x k, x ∈ IngestBundle.tracks b →
    owned (track_table k) (track_key x) (track_rows x k)
}.

(** The tables of the family are not written by the read models or the log. *)
Lemma keeps_family_sync `{Crates} l now g :
  Keeps (tbl_get (list_table l)) (sync_source_read_models_for_feed now g).
Proof. destruct l; apply _. Qed.

(** The row that an ingest signs. *)
Definition signed_row `{Crates} (signer : string) (seq : Z) (er : EventRow) : LogRow :=
  let '(by_, sig) := sign_event signer (EventRow.event_id er) (EventRow.event_type er)
    (EventRow.payload_json er) (EventRow.subject_guid er) (EventRow.created_at er) seq in
  LogRow.mk (EventRow.event_id er) (EventRow.event_type er) (EventRow.payload_json er)
    (EventRow.subject_guid er) by_ sig seq (EventRow.created_at er) (EventRow.warnings er).

Section ingested.
Context `{Crates}.

(** ** The log *)

Lemma next_seq_last db r :
  (∀ x, x ∈ events db → LogRow.seq x ≤ LogRow.seq r) → 0 ≤ LogRow.seq r →
  next_seq (set_events (events db ++ [r]) db) = LogRow.seq r + 1.
Proof using Type.
  intros Hall Hpos. unfold next_seq. cbn [events set_events].
  destruct (events db) as [|r0 l]; cbn [app]; [cbn; lia|].
  assert (∀ k, (∀ x, x ∈ k → LogRow.seq x ≤ LogRow.seq r) →
    foldr (λ x, Z.max (LogRow.seq x)) (LogRow.seq r0) (k ++ [r]) = LogRow.seq r) as ->.
  { intros k Hk. induction k as [|x k IH]; cbn.
    - specialize (Hall r0 ltac:(left)). lia.
    - rewrite IH by (intros; apply Hk; by right). specialize (Hk x ltac:(left)). lia. }
  - lia.
  - intros x Hx. apply Hall. by right.
Qed.

(** The new rows of the log. *)
Definition new_rows (signer : string) (n : Z) (rows : list EventRow) : list LogRow :=
  imap (λ i, signed_row signer (n + Z.of_nat i)) rows.

Lemma new_rows_cons signer n er rows :
  new_rows signer n (er :: rows) = signed_row signer n er :: new_rows signer (n + 1) rows.
Proof using Type.
  unfold new_rows. rewrite imap_cons. f_equal; [f_equal; lia|].
  apply imap_ext. intros i x _. unfold compose. f_equal. lia.
Qed.

(** The rows of an ingest are appended with consecutive sequence numbers, and
    the number, the key and the signature of each are returned. *)
Lemma insert_events_run signer rows db db' ss :
  log_ok db →
  insert_events signer rows db = (db', Ok ss) →
  db' = set_events (events db ++ new_rows signer (next_seq db) rows) db
  ∧ ss = (λ r, (LogRow.seq r, LogRow.signed_by r, LogRow.signature r))
      <$> new_rows signer (next_seq db) rows.
Proof using Type.
  revert db db' ss. induction rows as [|er rows IH]; intros db db' ss Hlog; cbn [insert_events].
  { intros [= <- <-]. cbn. rewrite app_nil_r. by destruct db. }
  intros (d & s & Hi & (d' & ss' & Hr & [= -> <-])%bind_ok)%bind_ok.
  pose proof (insert_event_log (EventRow.event_id er) (EventRow.event_type er)
    (EventRow.payload_json er) (EventRow.subject_guid er) signer (EventRow.created_at er)
    (EventRow.warnings er) db Hlog) as Hd.
  rewrite Hi in Hd. cbn in Hd. rewrite insert_event_run in Hi.
  destruct (event_id_taken db (EventRow.event_id er)); [done|].
  destruct (sign_event _ _ _ _ _ _ _) as [by_ sig] eqn:Esig. injection Hi as <- <-.
  pose proof (next_seq_pos db Hlog) as Hpos.
  apply IH in Hr as [-> ->]; [|done]. cbn [events set_events].
  rewrite next_seq_last; cbn [LogRow.seq]; [|intros x Hx%next_seq_above; lia|lia].
  assert (signed_row signer (next_seq db) er
    = LogRow.mk (EventRow.event_id er) (EventRow.event_type er) (EventRow.payload_json er)
        (EventRow.subject_guid er) by_ sig (next_seq db) (EventRow.created_at er)
        (EventRow.warnings er)) as Es by (unfold signed_row; by rewrite Esig).
  by rewrite new_rows_cons, Es, <-app_assoc.
Qed.

(** ** The phases of an ingest that succeeds *)

Context (hash_order : list string → list string).

Definition write_move (g : string) (mv : option FeedMoveWrite) : DB unit :=
  match mv with Some m => write_feed_move g m | None => mret tt end.

(** The states between the phases: after the feed row and the holds, after
    the lists, the tracks, the removals, the log, the read models. *)
Lemma ingest_phases now uuids b rows mv signer db db' seqs :
  ingest_transaction hash_order now uuids b rows mv signer db = (db', Ok seqs) →
  let feed := IngestBundle.feed b in
  let g := Feed.feed_guid feed in
  let guids := (snd ∘ track_key) <$> IngestBundle.tracks b in
  ∃ d1 d2 d3 d4 d5 d6 d7 removals,
    upsert_feed feed db = (d1, Ok tt)
    ∧ d2 = set_retired_source_holds (delete (to_lowercase g) (retired_source_holds d1))
             (set_source_gone_answers (delete g (source_gone_answers d1)) d1)
    ∧ for_each (λ l, snap_replace (list_table l) g (bundle_rows b l)) all_lists d2 = (d3, Ok tt)
    ∧ for_each ingest_track (IngestBundle.tracks b) d3 = (d4, Ok tt)
    ∧ flat_map_db (remove_if_stale feed guids) (hash_order (feed_track_guids g d3)) d4
      = (d5, Ok removals)
    ∧ insert_events signer (rows ++ number_rows uuids removals) d5 = (d6, Ok seqs)
    ∧ sync_source_read_models_for_feed now g d6 = (d7, Ok tt)
    ∧ write_move g mv d7 = (db', Ok tt).
Proof using Type.
  unfold ingest_transaction, transaction.
  destruct (ingest_body _ _ _ _ _ _ _ db) as [x [a|e]] eqn:E; [|done].
  intros [= -> ->]. unfold ingest_body in E.
  apply bind_ok in E as (d1 & [] & Hf & E). apply bind_ok in E as (x1 & [] & [= <-] & E).
  apply bind_ok in E as (d2 & [] & [= <-] & E). apply bind_ok in E as (d3 & [] & Hl & E).
  rewrite ingest_feed_lists_eq in Hl.
  apply bind_ok in E as (? & ? & [= <- <-] & E). apply bind_ok in E as (d4 & [] & Ht & E).
  apply bind_ok in E as (d5 & removals & Hr & E). apply bind_ok in E as (d6 & ss & He & E).
  apply bind_ok in E as (d7 & [] & Hs & E). apply bind_ok in E as (d8 & [] & Hm & [= <- <-]).
  exists d1, (set_retired_source_holds (delete (to_lowercase (Feed.feed_guid (IngestBundle.feed b)))
    (retired_source_holds d1)) (set_source_gone_answers
    (delete (Feed.feed_guid (IngestBundle.feed b)) (source_gone_answers d1)) d1)),
    d3, d4, d5, d6, d7, removals. split_and!; done.
Qed.

(** ** The lists *)

(** [l] was written with the rows of the submission, and stayed. *)
Definition list_written (b : IngestBundle) (l : FeedList) (db : Db) : Prop :=
  let g := Feed.feed_guid (IngestBundle.feed b) in
  ∃ p p', snap_replace (list_table l) g (bundle_rows b l) p = (p', Ok tt)
    ∧ tbl_get (list_table l) db = tbl_get (list_table l) p'.

Lemma lists_written b d d' l :
  for_each (λ l, snap_replace (list_table l) (Feed.feed_guid (IngestBundle.feed b))
                   (bundle_rows b l)) all_lists d = (d', Ok tt) →
  list_written b l d'.
Proof using Type.
  intros Hf. destruct (for_each_at _ _ l _ _ Hf (elem_of_all_lists l))
    as (l1 & l2 & p & p' & Hl & _ & Hp & H2).
  exists p, p'. split; [done|]. apply (f_equal fst) in H2. cbn in H2. rewrite <-H2.
  pose proof all_lists_NoDup as Hnd. rewrite Hl in Hnd.
  apply NoDup_app in Hnd as (_ & _ & [Hn _]%NoDup_cons).
  clear -Hn. revert p'. induction l2 as [|k l2 IH]; intros p'; [done|].
  cbn [for_each]. unfold mbind, db_bind.
  pose proof (keeps_snap_replace (list_table k) (tbl_get (list_table l))
    (Feed.feed_guid (IngestBundle.feed b)) (bundle_rows b k)) as Hk.
  specialize (Hk ltac:(intros; apply list_table_other; set_solver) p').
  destruct (snap_replace _ _ _ p') as [d [[]|e]]; cbn in *; [|done].
  rewrite IH by set_solver. done.
Qed.

Lemma keeps_list_track l bundle : Keeps (tbl_get (list_table l)) (ingest_track bundle).
Proof using Type.
  destruct bundle as [[[track routes] splits] items].
  destruct l; unfold ingest_track; open_operations; frame.
Qed.

Lemma keeps_list_stale l feed guids t :
  Keeps (tbl_get (list_table l)) (remove_if_stale feed guids t).
Proof using Type. destruct l; unfold remove_if_stale; open_operations; frame. Qed.

Lemma keeps_list_move l g mv : Keeps (tbl_get (list_table l)) (write_move g mv).
Proof using Type.
  destruct l; unfold write_move, write_feed_move, add_left_url, remove_left_url; frame.
Qed.

#[export] Instance keeps_flat_map {A B G} (g : Db → G) (f : A → DB (list B)) l :
  (∀ x, Keeps g (f x)) → Keeps g (flat_map_db f l).
Proof using Type. intros Hf. induction l; cbn [flat_map_db]; apply _. Qed.

Lemma keeps_insert_events {G} (g : Db → G) signer rows :
  (∀ x db, g (set_events x db) = g db) → Keeps g (insert_events signer rows).
Proof using Type.
  intros Hg. induction rows as [|er rows IH]; cbn [insert_events]; [apply _|].
  apply keeps_bind; [|intros; apply _]. intros db. rewrite insert_event_run.
  destruct (event_id_taken db _); [done|]. by destruct (sign_event _ _ _ _ _ _ _); cbn.
Qed.

(** What [m] leaves, when [m] keeps it. *)
Lemma keeps_ok {A G} (g : Db → G) (m : DB A) `{!Keeps g m} db db' r :
  m db = (db', r) → g db' = g db.
Proof using Type. intros Hm. by rewrite <-(keeps (g := g) (m := m) db), Hm. Qed.

Lemma ingest_list_written now uuids b rows mv signer db db' seqs l :
  ingest_transaction hash_order now uuids b rows mv signer db = (db', Ok seqs) →
  list_written b l db'.
Proof using Type.
  intros (d1&d2&d3&d4&d5&d6&d7&rm&_&_&Hl&Ht&Hr&He&Hs&Hm)%ingest_phases.
  apply (lists_written b d2 d3 l) in Hl as (p & p' & Hp & Hg). exists p, p'. split; [done|].
  rewrite <-Hg. assert (∀ bundle, Keeps (tbl_get (list_table l)) (ingest_track bundle)) as K1
    by apply keeps_list_track.
  assert (∀ x, Keeps (tbl_get (list_table l)) (remove_if_stale (IngestBundle.feed b)
    ((snd ∘ track_key) <$> IngestBundle.tracks b) x)) as K2 by (intros; apply keeps_list_stale).
  assert (Keeps (tbl_get (list_table l)) (insert_events signer (rows ++ number_rows uuids rm))) as K3
    by (apply keeps_insert_events; by destruct l).
  pose proof (keeps_family_sync l now (Feed.feed_guid (IngestBundle.feed b))) as K4.
  pose proof (keeps_list_move l (Feed.feed_guid (IngestBundle.feed b)) mv) as K5.
  set (gl := tbl_get (list_table l)) in *.
  by rewrite (keeps_ok gl _ _ _ _ Hm), (keeps_ok gl _ _ _ _ Hs), (keeps_ok gl _ _ _ _ He),
    (keeps_ok gl _ _ _ _ Hr), (keeps_ok gl _ _ _ _ Ht).
Qed.

(** ** The tracks *)

Definition all_track_lists : list TrackList := [TrackRoutes; TrackSplits; TrackItems].

Lemma track_replace_keeps_list k j bundle :
  k ≠ j → Keeps (tbl_get (track_table k)) (track_replace bundle j).
Proof using Type.
  intros Hn. apply keeps_snap_replace. intros. by apply track_table_other.
Qed.

Lemma track_replace_keeps_tracks j bundle : Keeps tracks (track_replace bundle j).
Proof using Type. apply keeps_snap_replace. by destruct j. Qed.

Lemma track_replace_keeps_feeds j bundle : Keeps feeds (track_replace bundle j).
Proof using Type. apply keeps_snap_replace. by destruct j. Qed.

(** The list [k] of [bundle] was written with its rows, and stayed. *)
Definition track_written (bundle : TrackIngestBundle) (k : TrackList) (db : Db) : Prop :=
  ∃ p p', track_replace bundle k p = (p', Ok tt)
    ∧ snap_rows (track_table k) (track_key bundle) db
      = snap_rows (track_table k) (track_key bundle) p'.

Definition upserted (bundle : TrackIngestBundle) (db : Db) : gmap (string * string) Track :=
  <[track_key bundle := merge_track (tracks db !! track_key bundle) bundle.1.1.1]> (tracks db).

(** One track: its row, its three lists, and nothing of another track. *)
Lemma ingest_track_ok bundle db db' :
  (∀ k, owned (track_table k) (track_key bundle) (track_rows bundle k)) →
  ingest_track bundle db = (db', Ok tt) →
  tracks db' = upserted bundle db
  ∧ feeds db' = feeds db
  ∧ (∀ k, track_written bundle k db')
  ∧ (∀ k u, u ≠ (track_key bundle).2 →
       snap_rows (track_table k) ((track_key bundle).1, u) db'
       = snap_rows (track_table k) ((track_key bundle).1, u) db).
Proof using Type.
  intros Hown Hi. apply ingest_track_eq in Hi as (d1 & [] & Hu & Hl)%bind_ok.
  unfold upsert_track in Hu. destruct (feed_exists db _); [|done]. injection Hu as Hu.
  assert (∀ k, tbl_get (track_table k) d1 = tbl_get (track_table k) db) as Hg
    by (intros k; rewrite <-Hu; by destruct k).
  assert (Keeps tracks (for_each (track_replace bundle) all_track_lists)) as Kt
    by (apply keeps_for_each; intros; apply track_replace_keeps_tracks).
  assert (Keeps feeds (for_each (track_replace bundle) all_track_lists)) as Kf
    by (apply keeps_for_each; intros; apply track_replace_keeps_feeds).
  split_and!.
  - rewrite (keeps_ok tracks _ _ _ _ Hl), <-Hu. by destruct bundle as [[[track ?] ?] ?].
  - by rewrite (keeps_ok feeds _ _ _ _ Hl), <-Hu.
  - intros k. apply for_each_ok in Hl as (e1 & H1 & (e2 & H2 & (e3 & H3 & [= <-])%for_each_ok)%for_each_ok).
    assert (∀ j d d', track_replace bundle j d = (d', Ok tt) → k ≠ j →
      snap_rows (track_table k) (track_key bundle) d'
      = snap_rows (track_table k) (track_key bundle) d) as Hk.
    { intros j d d' Hr Hn. pose proof (track_replace_keeps_list k j bundle Hn).
      unfold snap_rows. by rewrite (keeps_ok (tbl_get (track_table k)) _ _ _ _ Hr). }
    destruct k.
    + exists d1, e1. split; [done|]. by rewrite (Hk _ _ _ H3), (Hk _ _ _ H2).
    + exists e1, e2. split; [done|]. by rewrite (Hk _ _ _ H3).
    + exists e2, e3. done.
  - intros k u Hn. transitivity (snap_rows (track_table k) ((track_key bundle).1, u) d1);
      [|unfold snap_rows; by rewrite Hg].
    clear -Hl Hn Hown. revert d1 Hl.
    change [TrackRoutes; TrackSplits; TrackItems] with all_track_lists.
    induction all_track_lists as [|j js IH]; intros d Hl; [by injection Hl as ->|].
    apply for_each_ok in Hl as (e & H1 & Hl). rewrite (IH e Hl).
    destruct (decide (k = j)) as [->|Hkj].
    + eapply (snap_replace_frame (track_table j) (track_key bundle)); [apply Hown| |exact H1].
      intros r. destruct (track_key bundle) as [f t]. by apply track_scope_other.
    + unfold snap_rows. pose proof (track_replace_keeps_list k j bundle Hkj).
      by rewrite (keeps_ok (tbl_get (track_table k)) _ _ _ _ H1).
Qed.

Lemma ingest_tracks_ok g ts db db' :
  (∀ x, x ∈ ts → (track_key x).1 = g) →
  (∀ x k, x ∈ ts → owned (track_table k) (track_key x) (track_rows x k)) →
  NoDup ((snd ∘ track_key) <$> ts) →
  for_each ingest_track ts db = (db', Ok tt) →
  feeds db' = feeds db
  ∧ (∀ x, x ∈ ts →
       tracks db' !! track_key x = Some (merge_track (tracks db !! track_key x) x.1.1.1))
  ∧ (∀ u, u ∉ (snd ∘ track_key) <$> ts → tracks db' !! (g, u) = tracks db !! (g, u))
  ∧ (∀ x k, x ∈ ts → track_written x k db')
  ∧ (∀ k u, u ∉ (snd ∘ track_key) <$> ts →
       snap_rows (track_table k) (g, u) db' = snap_rows (track_table k) (g, u) db).
Proof using Type.
  intros Hg Hown Hnd. revert db. induction ts as [|x ts IH]; intros db Hf.
  { injection Hf as ->. split_and!; set_solver. }
  apply for_each_ok in Hf as (d & Hx & Hf). rewrite fmap_cons, NoDup_cons in Hnd.
  destruct Hnd as [Hxn Hnd].
  destruct (ingest_track_ok x db d) as (T1 & F1 & W1 & R1); [intros; apply Hown; left|done|].
  destruct (IH ltac:(intros; apply Hg; by right) ltac:(intros; apply Hown; by right) Hnd d Hf)
    as (F2 & T2 & O2 & W2 & R2).
  assert ((track_key x).1 = g) as Hxg by (apply Hg; left).
  assert (track_key x = (g, (track_key x).2)) as Hxk by (rewrite <-Hxg; by destruct (track_key x)).
  split_and!.
  - congruence.
  - intros y [->|Hy]%elem_of_cons.
    + rewrite Hxk. rewrite O2 by exact Hxn. rewrite <-Hxk, T1. unfold upserted.
      by rewrite lookup_insert_eq.
    + rewrite T2 by done. f_equal. rewrite T1. unfold upserted.
      rewrite lookup_insert_ne; [done|]. intros Heq. apply Hxn.
      change ((snd ∘ track_key) x) with ((track_key x).2). rewrite Heq.
      by apply (list_elem_of_fmap_2 (snd ∘ track_key)).
  - intros u Hu. rewrite O2, T1 by set_solver. unfold upserted.
    rewrite lookup_insert_ne; [done|]. rewrite Hxk. intros [= Heq]. set_solver.
  - intros y k [->|Hy]%elem_of_cons; [|by apply W2].
    destruct (W1 k) as (p & p' & Hp & Hr). exists p, p'. split; [done|].
    rewrite <-Hr. rewrite Hxk. by apply R2.
  - intros k u Hu. rewrite R2 by set_solver. rewrite <-Hxg. apply R1. set_solver.
Qed.

Lemma tracks_of_nil g db : (∀ t, tracks db !! (g, t) = None) → tracks_of g db = [].
Proof using Type.
  intros Hn. unfold tracks_of. rewrite filter_none; [done|].
  intros [[f t] tr] Hin%elem_of_map_to_list. apply String.eqb_neq. intros ->. by rewrite Hn in Hin.
Qed.

(** ** The log of an ingest *)

(** The removals: each GUID outside the submission has its event, and its track
    is gone. *)
Lemma stale_rows feed guids l db db' removals :
  flat_map_db (remove_if_stale feed guids) l db = (db', Ok removals) →
  let g := Feed.feed_guid feed in
  let removed := List.filter (λ t, negb (bool_decide (t ∈ guids))) l in
  removals = track_removed_event feed <$> removed
  ∧ (∀ t, t ∈ removed → tracks db' !! (g, t) = None)
  ∧ ∀ k, tracks db !! k = None → tracks db' !! k = None.
Proof using Type.
  intros Hf g. cbv zeta. revert db db' removals Hf.
  induction l as [|t l IH]; intros db db' removals; cbn [flat_map_db].
  { intros [= <- <-]. split_and!; [done|by intros t ?%not_elem_of_nil|done]. }
  intros (d & ys & Hy & (d' & zs & Hz & [= <- <-])%bind_ok)%bind_ok.
  destruct (IH _ _ _ Hz) as (-> & Hgone & Hstay). unfold remove_if_stale in Hy. cbn [List.filter].
  case_bool_decide; cbn [negb].
  { injection Hy as <- <-. split_and!; [done..|by apply Hstay]. }
  apply bind_ok in Hy as (? & track_opt & [= <- <-] & Hy).
  apply bind_ok in Hy as (d1 & ? & Hd & [= -> <-]). fold g in Hd.
  assert (tracks d !! (g, t) = None ∧ ∀ k, tracks db !! k = None → tracks d !! k = None) as [Ht Hk].
  { destruct (tracks db !! (g, t)) as [track|] eqn:Et; cbn [is_some] in Hd;
      [|injection Hd as <-; done].
    destruct (delete_track_lists g t db) as (_ & _ & _ & E & _). rewrite Hd in E. cbn [fst] in E.
    rewrite E, lookup_delete_eq. split; [done|]. intros k Hk. by apply lookup_delete_None; right. }
  split_and!; [done| |auto]. intros u [->|Hu]%elem_of_cons; auto.
Qed.

(** The tracks of a feed, by their keys. *)
Lemma elem_of_feed_tracks db g t :
  catalog_ok db → t ∈ feed_track_guids g db ↔ is_Some (tracks db !! (g, t)).
Proof using Type.
  intros (_ & Ht & _). unfold feed_track_guids, tracks_of. rewrite sort_by_perm.
  rewrite list_elem_of_fmap. split.
  - intros (tr & -> & ([[f u] x] & -> & [Hf%String.eqb_eq Hin]%elem_of_filterb)%list_elem_of_fmap).
    subst f. apply elem_of_map_to_list in Hin. cbn. destruct (Ht g u x Hin) as (_ & -> & _). by exists x.
  - intros [tr Htr]. exists tr. destruct (Ht g t tr Htr) as (_ & -> & _). split; [done|].
    apply list_elem_of_fmap. exists ((g, t), tr). split; [done|]. apply elem_of_filterb.
    split; [apply String.eqb_refl|by apply elem_of_map_to_list].
Qed.

Lemma feed_tracks_NoDup db g : catalog_ok db → NoDup (feed_track_guids g db).
Proof using Type.
  intros (_ & Ht & _). unfold feed_track_guids, tracks_of. rewrite sort_by_perm, <-list_fmap_compose.
  apply NoDup_fmap_2_strong.
  - intros [[f t] x] [[f' t'] y] [Hf%String.eqb_eq Hx%elem_of_map_to_list]%elem_of_filterb
      [Hf'%String.eqb_eq Hy%elem_of_map_to_list]%elem_of_filterb E. subst f f'. cbn in E.
    destruct (Ht g t x Hx) as (_ & E1 & _), (Ht g t' y Hy) as (_ & E2 & _).
    assert (t = t') as -> by congruence. congruence.
  - apply NoDup_ListNoDup, List.NoDup_filter, NoDup_ListNoDup, NoDup_map_to_list.
Qed.

Lemma keeps_events_phase g rows mv :
  Keeps events (for_each ingest_track rows) ∧ Keeps events (write_move g mv).
Proof using Type.
  split.
  - apply keeps_for_each. intros [[[track routes] splits] items].
    unfold ingest_track. open_operations. frame.
  - unfold write_move, write_feed_move, add_left_url, remove_left_url. frame.
Qed.

Lemma keeps_lists_phase {G} (gl : Db → G) b g :
  (∀ l x db, gl (tbl_set (list_table l) x db) = gl db) →
  Keeps gl (for_each (λ l, snap_replace (list_table l) g (bundle_rows b l)) all_lists).
Proof using Type. intros Hl. apply keeps_for_each. intros l. by apply keeps_snap_replace. Qed.

Lemma keeps_tracks_move g mv : Keeps tracks (write_move g mv).
Proof using Type. unfold write_move, write_feed_move, add_left_url, remove_left_url. frame. Qed.

(** The GUIDs of the tracks that an ingest removes, in the order of the set. *)
Definition removed_guids (b : IngestBundle) (db : Db) : list string :=
  List.filter (λ t, negb (bool_decide (t ∈ (snd ∘ track_key) <$> IngestBundle.tracks b)))
    (hash_order (feed_track_guids (Feed.feed_guid (IngestBundle.feed b)) db)).

Lemma ingest_events now uuids b rows mv signer db db' seqs :
  log_ok db →
  ingest_transaction hash_order now uuids b rows mv signer db = (db', Ok seqs) →
  let removals := track_removed_event (IngestBundle.feed b) <$> removed_guids b db in
  events db' = events db ++ new_rows signer (next_seq db) (rows ++ number_rows uuids removals)
  ∧ seqs = (λ r, (LogRow.seq r, LogRow.signed_by r, LogRow.signature r))
      <$> new_rows signer (next_seq db) (rows ++ number_rows uuids removals)
  ∧ ∀ t, t ∈ removed_guids b db → tracks db' !! (Feed.feed_guid (IngestBundle.feed b), t) = None.
Proof using Type.
  intros Hlog (d1&d2&d3&d4&d5&d6&d7&rm&Hf&H2&Hl&Ht&Hr&He&Hs&Hm)%ingest_phases. cbv zeta.
  set (g := Feed.feed_guid (IngestBundle.feed b)) in *.
  destruct (keeps_events_phase g (IngestBundle.tracks b) mv) as [K1 K2].
  assert (Keeps events (upsert_feed (IngestBundle.feed b))) as K0 by apply _.
  assert (Keeps events (for_each (λ l, snap_replace (list_table l) g (bundle_rows b l)) all_lists))
    as K3 by (apply keeps_for_each; intros l; apply keeps_snap_replace; by destruct l).
  assert (tracks d3 = tracks db) as T3.
  { pose proof (keeps_lists_phase tracks b g ltac:(by intros [])) as K.
    rewrite (keeps_ok tracks _ _ _ _ Hl), H2. exact (keeps_ok tracks _ _ _ _ Hf). }
  assert (removed_guids b db = List.filter (λ t,
    negb (bool_decide (t ∈ (snd ∘ track_key) <$> IngestBundle.tracks b)))
    (hash_order (feed_track_guids g d3))) as Erm
    by (unfold removed_guids, feed_track_guids, tracks_of; by rewrite T3).
  assert (Keeps events (flat_map_db (remove_if_stale (IngestBundle.feed b)
    ((snd ∘ track_key) <$> IngestBundle.tracks b)) (hash_order (feed_track_guids g d3)))) as K4.
  { apply keeps_flat_map. intros t. unfold remove_if_stale. open_operations. frame. }
  assert (events d5 = events db) as E5.
  { rewrite (keeps_ok events _ _ _ _ Hr), (keeps_ok events _ _ _ _ Ht),
      (keeps_ok events _ _ _ _ Hl), H2. exact (keeps_ok events _ _ _ _ Hf). }
  apply stale_rows in Hr as (-> & Hgone & _). rewrite <-Erm in Hgone, He.
  assert (Keeps tracks (insert_events signer (rows ++ number_rows uuids
    (track_removed_event (IngestBundle.feed b) <$> removed_guids b db)))) as K6
    by by apply keeps_insert_events.
  pose proof (keeps_tracks_move g mv) as K7. pose proof (keeps_ok tracks _ _ _ _ He) as T6.
  apply insert_events_run in He as [He ->]; [|unfold log_ok; by rewrite E5].
  assert (next_seq d5 = next_seq db) as En by (unfold next_seq; by rewrite E5).
  rewrite <-En. split_and!; [|done|].
  - by rewrite (keeps_ok events _ _ _ _ Hm), (keeps_ok events _ _ _ _ Hs), He, <-E5.
  - intros t Hin. rewrite (keeps_ok tracks _ _ _ _ Hm), (keeps_ok tracks _ _ _ _ Hs), T6.
    by apply Hgone.
Qed.

(** ** A feed that is new *)

(** What the primary holds of a new feed after its ingest. *)
Record ingested (b : IngestBundle) (rows : list EventRow) (signer : string) (db db' : Db) :
    Prop := {
  ing_feed : FeedRow.feed <$> feeds db' !! Feed.feed_guid (IngestBundle.feed b)
    = Some (IngestBundle.feed b);
  ing_lists : ∀ l, list_written b l db';
  ing_tracks : ∀ x, x ∈ IngestBundle.tracks b → tracks db' !! track_key x = Some x.1.1.1;
  ing_others : ∀ u, u ∉ (snd ∘ track_key) <$> IngestBundle.tracks b →
    tracks db' !! (Feed.feed_guid (IngestBundle.feed b), u) = None;
  ing_track_lists : ∀ x k, x ∈ IngestBundle.tracks b → track_written x k db';
  ing_log : events db' = events db ++ new_rows signer (next_seq db) rows
}.

Lemma tracks_absent db g t : catalog_ok db → feeds db !! g = None → tracks db !! (g, t) = None.
Proof using Type.
  intros (_ & Ht & _) Hf. apply eq_None_not_Some. intros [tr Htr].
  destruct (Ht g t tr Htr) as (_ & _ & He). unfold feed_exists in He. by rewrite Hf in He.
Qed.

Lemma next_seq_events db d : events d = events db → next_seq d = next_seq db.
Proof using Type. unfold next_seq. by intros ->. Qed.

Lemma keeps_track_events bundle : Keeps events (ingest_track bundle).
Proof using Type.
  destruct bundle as [[[track routes] splits] items].
  unfold ingest_track. open_operations. frame.
Qed.

Hypothesis hash_order_perm : ∀ l, hash_order l ≡ₚ l.

Lemma elem_of_removed b db t :
  catalog_ok db →
  t ∈ removed_guids b db ↔ is_Some (tracks db !! (Feed.feed_guid (IngestBundle.feed b), t))
                           ∧ t ∉ (snd ∘ track_key) <$> IngestBundle.tracks b.
Proof using hash_order_perm.
  intros Hc. unfold removed_guids.
  rewrite elem_of_filterb, hash_order_perm, elem_of_feed_tracks, negb_true_iff, bool_decide_eq_false
    by done. tauto.
Qed.

Lemma removed_NoDup b db : catalog_ok db → NoDup (removed_guids b db).
Proof using hash_order_perm.
  intros Hc. apply NoDup_ListNoDup, List.NoDup_filter, NoDup_ListNoDup.
  rewrite hash_order_perm. by apply feed_tracks_NoDup.
Qed.

Lemma ingest_new now uuids b rows mv signer db db' seqs :
  bundle_ok b → store_ok db → log_ok db →
  feeds db !! Feed.feed_guid (IngestBundle.feed b) = None →
  ingest_transaction hash_order now uuids b rows mv signer db = (db', Ok seqs) →
  ingested b rows signer db db'.
Proof using hash_order_perm.
  intros [Hbl Hbf Hbt Hbr] [Hc _] Hlog Hnew Hi.
  pose proof (λ l, ingest_list_written _ _ _ _ _ _ _ _ _ l Hi) as Hlists.
  apply ingest_phases in Hi as (d1&d2&d3&d4&d5&d6&d7&rm&Hf&H2&Hl&Ht&Hr&He&Hs&Hm).
  set (g := Feed.feed_guid (IngestBundle.feed b)) in *.
  unfold upsert_feed in Hf. destruct (url_taken _ _ _); [done|]. injection Hf as Hf.
  assert (feeds d3 = <[g := FeedRow.mk (IngestBundle.feed b) None None None None]> (feeds db)) as F3.
  { pose proof (keeps_lists_phase feeds b g ltac:(by intros [])) as K.
    rewrite (keeps_ok feeds _ _ _ _ Hl), H2, <-Hf. cbn. fold g. by rewrite Hnew. }
  assert (tracks d3 = tracks db) as T3.
  { pose proof (keeps_lists_phase tracks b g ltac:(by intros [])) as K.
    by rewrite (keeps_ok tracks _ _ _ _ Hl), H2, <-Hf. }
  assert (events d3 = events db) as E3.
  { pose proof (keeps_lists_phase events b g ltac:(by intros [])) as K.
    by rewrite (keeps_ok events _ _ _ _ Hl), H2, <-Hf. }
  destruct (ingest_tracks_ok g (IngestBundle.tracks b) d3 d4) as (F4&T4&O4&W4&_); [done..|].
  assert (events d4 = events db) as E4.
  { assert (Keeps events (for_each ingest_track (IngestBundle.tracks b))) as K
      by (apply keeps_for_each, keeps_track_events).
    by rewrite (keeps_ok events _ _ _ _ Ht). }
  assert (∀ t, tracks db !! (g, t) = None) as Habs by (intros; by apply tracks_absent).
  assert (hash_order (feed_track_guids g d3) = []) as Hnil.
  { unfold feed_track_guids. rewrite tracks_of_nil by (intros; by rewrite T3).
    apply Permutation_nil. symmetry. apply hash_order_perm. }
  rewrite Hnil in Hr. injection Hr as <- <-. rewrite app_nil_r in He.
  apply insert_events_run in He as [He _]; [|unfold log_ok; by rewrite E4].
  rewrite (next_seq_events db d4 E4), E4 in He.
  assert (∀ G (gl : Db → G), (∀ x db, gl (set_events x db) = gl db) →
    Keeps gl (sync_source_read_models_for_feed now g) → Keeps gl (write_move g mv) →
    gl db' = gl d4) as Hafter.
  { intros G gl H1 K1 K2. rewrite (keeps_ok gl _ _ _ _ Hm), (keeps_ok gl _ _ _ _ Hs), He. done. }
  assert (Keeps events (write_move g mv)) as Ke by
    (unfold write_move, write_feed_move, add_left_url, remove_left_url; frame).
  assert (∀ G (gl : Db → G), (∀ x db, gl (set_feed_left_urls x db) = gl db) →
    (∀ x db, gl (set_feed_move_state x db) = gl db) → Keeps gl (write_move g mv)) as Hmove.
  { intros G gl H4 H5. unfold write_move, write_feed_move, add_left_url, remove_left_url.
    repeat first [apply keeps_execute; intros; solve [auto] | frame_step]. }
  split.
  - rewrite (Hafter _ feeds) by (done || apply _ || by apply Hmove). rewrite F4, F3.
    by rewrite lookup_insert_eq.
  - done.
  - intros x Hx. rewrite (Hafter _ tracks) by (done || apply _ || by apply Hmove).
    rewrite T4, T3 by done.
    assert (track_key x = (g, (track_key x).2)) as -> by (rewrite <-(Hbf x Hx); by destruct (track_key x)).
    by rewrite Habs.
  - intros u Hu. rewrite (Hafter _ tracks) by (done || apply _ || by apply Hmove).
    by rewrite O4, T3.
  - intros x k Hx. destruct (W4 x k Hx) as (p & p' & Hp & Hrw). exists p, p'. split; [done|].
    rewrite <-Hrw. unfold snap_rows. f_equal.
    destruct k; apply Hafter; (done || apply _ || by apply Hmove).
  - rewrite (keeps_ok events _ _ _ _ Hm), (keeps_ok events _ _ _ _ Hs), He. done.
Qed.
End ingested.

(** Facts of the bundle of a submission: every row is under the feed, and
    under the track it comes with. *)

(** ** Rows under one feed *)

Section under.
Context {R : Type} (guid : R → string) (g : string).

Definition under (rows : list R) : Prop := Forall (λ r, guid r = g) rows.

Lemma under_app l k : under l → under k → under (l ++ k).
Proof. intros Hl Hk. apply Forall_app. by split. Qed.

Lemma under_fmap {A} (f : A → R) l : (∀ a, guid (f a) = g) → under (f <$> l).
Proof. intros Hf. apply Forall_fmap, Forall_true. intros a. apply Hf. Qed.

Lemma under_imap {A} (f : nat → A → R) l : (∀ i a, guid (f i a) = g) → under (imap f l).
Proof.
  intros Hf. apply List.Forall_forall. intros r Hr.
  apply list_elem_of_In, elem_of_lookup_imap in Hr as (i & a & -> & _). apply Hf.
Qed.

Lemma under_flat_map {A} (f : A → list R) l : (∀ a, under (f a)) → under (flat_map f l).
Proof.
  intros Hf. induction l as [|a l IH]; cbn [flat_map]; [constructor|].
  by apply under_app.
Qed.

Lemma under_sublist l k : sublist l k → under k → under l.
Proof.
  intros Hs. unfold under. rewrite !Forall_forall. intros Hk r Hr. apply Hk.
  by eapply sublist_elem.
Qed.

Lemma under_true (own : R → bool) rows :
  (∀ r, own r = (guid r =s g)) → under rows → Forall (λ r, own r = true) rows.
Proof.
  intros Ho Hu. eapply Forall_impl; [exact Hu|]. intros r Hr. cbn in Hr.
  rewrite Ho, Hr. apply String.eqb_refl.
Qed.
End under.

Lemma alternate_rows_under f ty id now seen len l :
  under SourceItemEnclosure.feed_guid f (alternate_rows f ty id now seen len l).
Proof.
  revert seen len. induction l as [|a l IH]; intros seen len; cbn [alternate_rows]; [constructor|].
  destruct (_ || _); [apply IH|]. constructor; [done|apply IH].
Qed.

Lemma push_release_under f ty id ct v p now claims :
  under SourceReleaseClaim.feed_guid f claims →
  under SourceReleaseClaim.feed_guid f (push_source_release_claim claims f ty id ct v p now).
Proof.
  intros Hc. unfold push_source_release_claim. destruct (non_empty_trimmed v); [|done].
  apply under_app; [done|]. by constructor.
Qed.

Section bundled.
Context `{Crates} `{Web}.
Context (canonical_url feed_url : string) (feed_data : IngestFeedData) (now : Z).

Abbreviation g := (bundle_guid feed_data).
Abbreviation b := (build_bundle canonical_url feed_url feed_data now).

Lemma bundle_feed_guid : Feed.feed_guid (IngestBundle.feed b) = g.
Proof.
  cbn. unfold bundle_feed_row. by destruct (derive_release_artist feed_data).
Qed.

Lemma contributors_under :
  under SourceContributorClaim.feed_guid g (body_contributors feed_data now).
Proof.
  unfold body_contributors, build_source_contributor_claims.
  repeat (apply under_app || apply under_flat_map || apply under_imap || intros); done.
Qed.

Lemma entity_ids_under : under SourceEntityIdClaim.feed_guid g (body_entity_ids feed_data now).
Proof.
  unfold body_entity_ids, build_source_entity_id_claims.
  repeat (apply under_app || apply under_flat_map || apply under_fmap || intros); done.
Qed.

Lemma entity_links_under : under SourceEntityLink.feed_guid g (body_entity_links feed_data now).
Proof.
  unfold body_entity_links, build_source_entity_links.
  repeat (apply under_app || apply under_flat_map || apply under_fmap || intros); done.
Qed.

Lemma release_claims_under :
  under SourceReleaseClaim.feed_guid g (body_release_claims feed_data now).
Proof.
  unfold body_release_claims, feed_release_claims, item_release_claims.
  repeat (apply under_app || apply under_flat_map || apply push_release_under || intros);
    constructor.
Qed.

Lemma item_enclosures_under ty id u m by_ l :
  under SourceItemEnclosure.feed_guid g
    (build_source_item_enclosures g ty id u m by_ l now).
Proof.
  unfold build_source_item_enclosures.
  destruct (non_empty_trimmed u); [constructor; [done|]|]; apply alternate_rows_under.
Qed.

Lemma enclosures_under : under SourceItemEnclosure.feed_guid g (body_enclosures feed_data now).
Proof.
  apply under_app; apply under_flat_map; intros; apply item_enclosures_under.
Qed.

Lemma transcripts_under :
  under SourceItemTranscript.feed_guid g (body_transcripts feed_data now).
Proof.
  unfold body_transcripts, build_source_item_transcripts.
  repeat (apply under_app || apply under_flat_map || apply under_imap || intros); done.
Qed.

Lemma platforms_under owner links :
  under SourcePlatformClaim.feed_guid g
    (build_source_platform_claims g canonical_url owner links now).
Proof.
  unfold build_source_platform_claims.
  eapply under_sublist; [apply dedupe_by_sublist|]. apply under_app; [|apply under_app].
  - destruct (classify_platform_url _); by repeat constructor.
  - induction links as [|l ls IH]; cbn [omap list_omap]; [constructor|].
    destruct (classify_platform_url (IngestLink.url l)); cbn; [constructor; [done|]|]; apply IH.
  - destruct (non_empty_trimmed owner); [|constructor].
    destruct (classify_platform_owner _); by repeat constructor.
Qed.

(** The lists of the bundle. *)
Lemma bundle_lists_owned l : owned (list_table l) g (bundle_rows b l).
Proof.
  unfold owned. destruct l; cbn [bundle_rows build_bundle IngestBundle.feed_routes
    IngestBundle.feed_list_values IngestBundle.remote_items
    IngestBundle.source_contributor_claims IngestBundle.source_entity_ids
    IngestBundle.source_entity_links IngestBundle.source_release_claims
    IngestBundle.source_item_enclosures IngestBundle.source_item_transcripts
    IngestBundle.source_platform_claims IngestBundle.live_events].
  - apply (under_true FeedPaymentRoute.feed_guid g); [done|].
    unfold body_feed_routes. destruct (body_is_musicl _); [constructor|by apply under_fmap].
  - apply (under_true FeedListValueRaw.feed_guid g); [done|].
    unfold body_list_values. destruct (body_is_musicl _); [by apply under_imap|constructor].
  - apply (under_true FeedRemoteItemRaw.feed_guid g); [done|]. by apply under_fmap.
  - apply (under_true SourceContributorClaim.feed_guid g); [done|].
    eapply under_sublist; [apply dedupe_by_sublist|apply contributors_under].
  - apply (under_true SourceEntityIdClaim.feed_guid g); [done|].
    eapply under_sublist; [apply dedupe_by_sublist|apply entity_ids_under].
  - apply (under_true SourceEntityLink.feed_guid g); [done|].
    eapply under_sublist; [apply dedupe_by_sublist|apply entity_links_under].
  - apply (under_true SourceReleaseClaim.feed_guid g); [done|].
    eapply under_sublist; [apply dedupe_by_sublist|apply release_claims_under].
  - apply (under_true SourceItemEnclosure.feed_guid g); [done|].
    eapply under_sublist; [apply dedupe_by_sublist|apply enclosures_under].
  - apply (under_true SourceItemTranscript.feed_guid g); [done|].
    eapply under_sublist; [apply dedupe_by_sublist|apply transcripts_under].
  - apply (under_true SourcePlatformClaim.feed_guid g); [done|]. apply platforms_under.
  - apply (under_true LiveEvent.feed_guid g); [done|]. by apply under_fmap.
Qed.

Lemma track_tuple_key t : track_key (track_tuple feed_url feed_data now t) = (g, IngestTrackData.track_guid t).
Proof. done. Qed.

Lemma or_feed_id s f : s = f → or_feed s f = f.
Proof. intros ->. unfold or_feed. by destruct (str_is_empty f). Qed.

Lemma value_time_splits_under i track splits :
  under ValueTimeSplit.source_feed_guid g (value_time_splits_from i g track splits now).
Proof.
  revert i. induction splits as [|v vs IH]; intros i; cbn [value_time_splits_from]; [constructor|].
  destruct (negb _); [apply IH|]. constructor; [done|apply IH].
Qed.

Lemma track_tuple_owned t k :
  owned (track_table k) (track_key (track_tuple feed_url feed_data now t))
    (track_rows (track_tuple feed_url feed_data now t) k).
Proof.
  unfold owned. rewrite track_tuple_key. destruct k; cbn [track_rows track_tuple].
  - apply Forall_fmap, Forall_true. intros r. cbn. by rewrite !String.eqb_refl.
  - apply Forall_fmap. unfold build_value_time_splits.
    eapply Forall_impl; [apply (value_time_splits_under 0)|]. intros s Hs. cbn.
    rewrite or_feed_id by exact Hs. rewrite bool_decide_eq_true_2 by done.
    apply String.eqb_refl.
  - rewrite <-list_fmap_compose. apply Forall_fmap, Forall_true. intros r. cbn.
    rewrite or_feed_id by done. rewrite bool_decide_eq_true_2 by done.
    apply String.eqb_refl.
Qed.

Lemma bundle_well_formed :
  NoDup (IngestTrackData.track_guid <$> body_tracks feed_data) → bundle_ok b.
Proof.
  intros Hnd. split.
  - intros l. rewrite bundle_feed_guid. apply bundle_lists_owned.
  - intros x (t & -> & _)%list_elem_of_fmap. by rewrite bundle_feed_guid.
  - cbn. rewrite <-list_fmap_compose. exact Hnd.
  - intros x k (t & -> & _)%list_elem_of_fmap. apply track_tuple_owned.
Qed.
End bundled.
