(* ===== verification/Submitted.v ===== *)
(** Facts of the steps of a submission: which of them leave the records of
    the index alone, what they append to the log, and the invariants. *)

From S2P Require Import Prelude.
From S2P Require Import Model.
From S2P Require Import Ingest.
From S2P Require Import Event.
From S2P Require Import Crates.
From S2P Require Import Store.
From S2P Require Import Verify.
From S2P Require Import Tables.
From S2P Require Import Snapshot.
From S2P Require Import RowLists.
From S2P Require Import Search.
From S2P Require Import Catalog.
From S2P Require Import Feeds.
From S2P Require Import Integrity.
From S2P Require Import EventLog.
From S2P Require Import Diff.
From S2P Require Import Bundle.
From S2P Require Import Moves.
From S2P Require Import IngestTx.
From S2P Require Import Blocks.
From S2P Require Import GuidChange.
From S2P Require Import Copies.
From S2P Require Import Observe.
From S2P Require Import Submit.
From S2P Require Import Apply.
From S2P Require Import Frames.
From S2P Require Import Replica.
From S2P Require Import Ingested.

(** ** What a record shows: the catalog, its lists and the read models *)

Definition content (db : Db) :=
  (feeds db, tracks db,
   (payment_routes db, feed_payment_routes db, feed_list_value_raw db, value_time_splits db,
    feed_remote_items_raw db, track_remote_items_raw db, live_events db),
   (source_contributor_claims db, source_entity_ids db, source_entity_links db,
    source_release_claims db, source_item_enclosures db, source_item_transcripts db,
    source_platform_claims db),
   (entity_quality db, search_index db, search_entities db)).

(** A run keeps what its code keeps. *)
Lemma keeps_run {A B} (g : Db → A) (m : DB B) `{!Keeps g m} db db' r :
  m db = (db', r) → g db' = g db.
Proof. intros Hm. pose proof (keeps (g := g) (m := m) db) as K. by rewrite Hm in K. Qed.

(** [H : mbind k m db = (db', Ok b)] becomes the run of [m] and that of [k]. *)
Ltac run_bind H :=
  apply bind_ok in H; destruct H as (? & ? & ? & H).

Section frames.
Context `{Crates} `{Web} (signer : string).

Lemma keeps_pure {A B} (g : Db → A) (f : Db → result DbError B) :
  Keeps g (λ db, (db, f db)).
Proof using Type. done. Qed.

#[export] Instance keeps_rows_to_events {A} (g : Db → A) rows :
  Keeps g (signed_rows_to_events rows).
Proof using Type. done. Qed.

#[export] Instance keeps_classify {A} (g : Db → A) a b c : Keeps g (classify_submission a b c).
Proof using Type. unfold classify_submission. frame. Qed.

#[export] Instance keeps_move_target {A} (g : Db → A) a b c d e f :
  Keeps g (move_target a b c d e f).
Proof using Type.
  unfold move_target, mirror_trigger, get_declared_new_feed_url, get_declared_self_url,
    get_left_urls, get_move_state. frame.
Qed.

#[export] Instance keeps_find_block {A} (g : Db → A) a b : Keeps g (find_feed_block a b).
Proof using Type.
  unfold find_feed_block, get_feed_block_by_pair. apply keeps_bind; [frame|intros [|]; [frame|]].
  induction b as [|u us IH]; cbn [find_url_block]; unfold get_feed_block_by_pair; frame;
    exact IH.
Qed.

#[export] Instance keeps_read_phase {A} (g : Db → A) chain now req :
  Keeps g (read_phase chain now req).
Proof using Type. unfold read_phase, verify_request. frame. Qed.

(** *** Signing writes the log only *)

Lemma keeps_sign_row {A} (g : Db → A) row :
  (∀ x db, g (set_events x db) = g db) → Keeps g (sign_event_row signer row).
Proof using Type.
  intros Hg. unfold sign_event_row, insert_event, update_event_signature.
  repeat first [apply keeps_insert_log; exact Hg | apply keeps_execute; intros; apply Hg
               | frame_step].
Qed.
End frames.

#[export] Hint Extern 0 (Keeps _ (sign_event_row _ _)) =>
  apply keeps_sign_row; intros; reflexivity : typeclass_instances.

Section content.
Context `{Crates} `{Web} (hash_order : list string → list string) (signer : string).

#[export] Instance content_observe uuids a b c now :
  Keeps content (record_feed_url_observations_for_ingest signer uuids a b c now).
Proof using Type.
  unfold record_feed_url_observations_for_ingest. apply keeps_transaction.
  generalize (a :: (if b ≠s a then [b] else [])). intros urls. revert uuids.
  induction urls as [|u us IH]; intros uuids; cbn [observe_urls]; [frame|].
  unfold record_feed_url_observation, get_feed_url_observation, upsert_feed_url_observation.
  frame; apply IH.
Qed.

#[export] Instance content_copy uuids a b c now :
  Keeps content (record_feed_copy_for_ingest signer uuids a b c now).
Proof using Type.
  unfold record_feed_copy_for_ingest, get_feed_copy, count_feed_copies,
    touch_feed_copy_last_seen, increment_copy_overflow, upsert_feed_copy_summary, with_copy.
  cbv zeta. frame.
Qed.

#[export] Instance content_pending uuids a b c now :
  Keeps content (record_guid_change_pending_for_ingest signer uuids a b c now).
Proof using Type.
  unfold record_guid_change_pending_for_ingest, get_guid_change, upsert_guid_change,
    touch_guid_change_last_seen. cbv zeta. frame.
Qed.

#[export] Instance content_return uuids a b now :
  Keeps content (record_guid_change_return_for_ingest signer uuids a b now).
Proof using Type.
  unfold record_guid_change_return_for_ingest, get_guid_change, delete_guid_change. frame.
Qed.

#[export] Instance content_body uuids req fd m now :
  Keeps content (observe_body signer uuids req fd m now).
Proof using Type. unfold observe_body, record_mirror_copies. cbv zeta. frame. Qed.

#[export] Instance content_no_change uuids req now :
  Keeps content (no_change_phase signer uuids req now).
Proof using Type. unfold no_change_phase. cbv zeta. frame. Qed.

#[export] Instance content_mirror clock uuids req fd ws u :
  Keeps content (mirror_case signer clock uuids req fd ws u).
Proof using Type. unfold mirror_case, decide_move. frame. Qed.

#[export] Instance content_guid_change clock uuids req fd ws g :
  Keeps content (guid_change_case signer clock uuids req fd ws g).
Proof using Type. unfold guid_change_case, get_guid_change. cbv zeta. frame. Qed.

#[export] Instance content_new_feed req fd ws : Keeps content (new_feed_case req fd ws).
Proof using Type. unfold new_feed_case, get_retired_source_hold. frame. Qed.
End content.

(** ** Replies that leave the records alone *)

(** The replies that tell of a change of a record: the accepted ones of a
    changed body, and the two retirements. *)
Definition changes_record (reply : Reply) : bool :=
  match reply with
  | Reply.Refused _ _ => false
  | Reply.Answer resp _ =>
      (IngestResponse.accepted resp && negb (IngestResponse.no_change resp))
      || (IngestResponse.reason resp == Some "source_gone"%string)
      || (IngestResponse.reason resp == Some "source_blocked"%string)
  end.

Section quiet.
Context `{Crates} `{Web} (hash_order : list string → list string) (signer : string).

(** [out] either changes a record, as it says, or has left them all alone. *)
Definition quiet_run (db : Db) (run : Db * result DbError Reply) : Prop :=
  ∀ db' reply, run = (db', Ok reply) → changes_record reply = false → content db' = content db.

Lemma quiet_keeps (m : DB Reply) db : Keeps content m → quiet_run db (m db).
Proof using Type. intros K db' reply Hm _. by apply (keeps_run content m db db' (Ok reply)). Qed.

Lemma decide_content clock uuids req fd ws db db1 out :
  decide_phase signer clock uuids req fd ws db = (db1, Ok out) →
  match out with
  | inl reply => changes_record reply = false → content db1 = content db
  | inr _ => content db1 = content db
  end.
Proof using Type.
  unfold decide_phase. intros Hd. run_bind Hd.
  apply (keeps_run content) in H1; [|apply _]. rewrite <-H1. clear H1.
  destruct x0 as [|held| |u|].
  - injection Hd as <- <-. done.
  - apply (keeps_run content) in Hd; [|apply _]. by destruct out.
  - unfold update_case in Hd. run_bind Hd.
    apply (keeps_run content) in H1; [|apply _]. rewrite <-H1. clear H1.
    destruct (is_stale fd _); [by injection Hd as <- <-|].
    destruct (source_blocks_this_index _).
    + run_bind Hd. by injection Hd as <- <-.
    + run_bind Hd. apply (keeps_run content) in H1; [|apply _].
      run_bind Hd. apply (keeps_run content) in H2; [|unfold decide_move; apply _].
      injection Hd as <- <-. congruence.
  - apply (keeps_run content) in Hd; [|apply _]. by destruct out.
  - apply (keeps_run content) in Hd; [|apply _]. by destruct out.
Qed.

Lemma admit_quiet uuids req fd adm now db :
  quiet_run db (admit_phase hash_order signer uuids req fd adm now db).
Proof using Type.
  unfold admit_phase. destruct (body_live_items fd) as [live ws].
  intros db' reply Hr Hq. destruct (_ <? _)%nat; [by injection Hr as <- <-|].
  run_bind Hr. unfold write_phase in Hr. cbv zeta in Hr.
  repeat run_bind Hr. injection Hr as <- <-. done.
Qed.

Lemma gone_quiet uuids hosts req now db :
  quiet_run db (handle_source_gone_report signer uuids hosts req now db).
Proof using Type.
  unfold handle_source_gone_report. intros db' reply Hr Hq.
  run_bind Hr. apply (keeps_run content) in H1; [|apply _]. rewrite <-H1. clear H1.
  destruct x0; [by injection Hr as <- <-|].
  run_bind Hr. apply (keeps_run content) in H1;
    [|destruct (source_gone_report_counts _ _); apply _]. rewrite <-H1. clear H1.
  destruct x1 as [g|]; [|by injection Hr as <- <-].
  run_bind Hr. apply (keeps_run content) in H1; [|apply _]. rewrite <-H1. clear H1.
  destruct (is_some_and _ _).
  - run_bind Hr. by injection Hr as <- <-.
  - run_bind Hr. injection Hr as <- <-.
    unfold record_source_gone_answer in H1.
    destruct (_ && _); [done|]. by injection H1 as <- _.
Qed.

Lemma mutate_quiet clock uuids req outcome db :
  quiet_run db (mutate_phase hash_order signer clock uuids req outcome db).
Proof using Type.
  destruct outcome as [ws| |reason].
  - unfold mutate_phase. destruct (IngestFeedRequest.feed_data req) as [fd|];
      [|by intros db' reply [= <- <-]].
    intros db' reply Hr Hq. run_bind Hr. apply decide_content in H1.
    destruct x0 as [r|adm]; [injection Hr as <- <-; by apply H1|].
    rewrite <-H1. exact (admit_quiet _ _ _ _ _ _ _ _ Hr Hq).
  - apply (quiet_keeps (no_change_phase signer uuids req (Clock.at_decision clock))), _.
  - by intros db' reply [= <- <-].
Qed.

Lemma handler_quiet chain hosts clock uuids req reader db :
  quiet_run db (handle_ingest_feed hash_order signer chain hosts clock uuids req reader db).
Proof using Type.
  unfold handle_ingest_feed. destruct (authenticate chain req); [|by intros db' reply [= <- <-]].
  destruct (_ && _); [apply gone_quiet|].
  destruct (read_phase _ _ _ reader) as [? [outcome|e]]; [apply mutate_quiet|].
  intros db' reply Hr. done.
Qed.

(** *** Errors of the database *)

Lemma bind_err {A B} (m : DB A) (k : A → DB B) db db' e :
  mbind k m db = (db', Err e) →
  m db = (db', Err e) ∨ ∃ d a, m db = (d, Ok a) ∧ k a d = (db', Err e).
Proof using Type. unfold mbind, db_bind. destruct (m db) as [d [a|e']]; [eauto|]. intros [= <- <-]. eauto. Qed.

(** A run that fails has kept [content], when [m] keeps it or is a
    transaction. *)
Definition errs_quiet {A} (m : DB A) : Prop :=
  ∀ db db' e, m db = (db', Err e) → content db' = content db.

Lemma errs_keeps {A} (m : DB A) : Keeps content m → errs_quiet m.
Proof using Type. intros K db db' e Hm. by apply (keeps_run content m db db' (Err e)). Qed.

Lemma errs_transaction {A} (m : DB A) : errs_quiet (transaction m).
Proof using Type. intros db db' e Hm%transaction_err. by subst. Qed.

(** The first part keeps the records, or nothing after it fails. *)
Lemma errs_bind {A B} (m : DB A) (k : A → DB B) :
  Keeps content m → (∀ a, errs_quiet (k a)) → errs_quiet (mbind k m).
Proof using Type.
  intros K Hk db db' e [Hm|(d & a & Hm & Ha)]%bind_err; [by eapply (errs_keeps m)|].
  rewrite (Hk a d db' e Ha). by apply (keeps_run content m db d (Ok a)).
Qed.

Lemma errs_then_ret {A B} (m : DB A) (f : A → B) : errs_quiet m → errs_quiet (a ← m; mret (f a)).
Proof using Type. intros Hm db db' e [H1|(d & a & _ & [=])]%bind_err. by eapply Hm. Qed.

Lemma decide_errs clock uuids req fd ws : errs_quiet (decide_phase signer clock uuids req fd ws).
Proof using Type.
  unfold decide_phase. apply errs_bind; [apply _|]. intros [|held| |u|];
    try (apply errs_keeps; apply _).
  unfold update_case. apply errs_bind; [apply _|]. intros stored.
  destruct (is_stale fd stored); [apply errs_keeps; apply _|].
  destruct (source_blocks_this_index _).
  - apply errs_then_ret, errs_transaction.
  - apply errs_keeps. unfold decide_move. apply _.
Qed.

Lemma gone_errs uuids hosts req now : errs_quiet (handle_source_gone_report signer uuids hosts req now).
Proof using Type.
  unfold handle_source_gone_report. cbv zeta. apply errs_bind; [apply _|].
  intros [b|]; [apply errs_keeps; apply _|].
  apply errs_bind; [destruct (source_gone_report_counts _ _); apply _|].
  intros [g|]; [|apply errs_keeps; apply _]. apply errs_bind; [apply _|]. intros existing.
  destruct (is_some_and _ _).
  - apply errs_then_ret. unfold retire_for_source_gone, delete_feed_with_event.
    apply errs_transaction.
  - apply errs_then_ret. intros db db' e. unfold record_source_gone_answer.
    destruct (_ && _); [by intros [= <- _]|done].
Qed.

(** An error of the handler has changed no record, unless the body was
    admitted. *)
Lemma handler_errs chain hosts clock uuids req reader db db' e :
  handle_ingest_feed hash_order signer chain hosts clock uuids req reader db = (db', Err e) →
  content db' = content db
  ∨ ∃ fd ws d d1 adm, IngestFeedRequest.feed_data req = Some fd
      ∧ read_phase chain (Clock.at_read clock) req reader = (d, Ok (ReadPhaseOutcome.Verified ws))
      ∧ decide_phase signer clock uuids req fd ws db = (d1, Ok (inr adm)).
Proof using Type.
  unfold handle_ingest_feed. destruct (authenticate chain req); [|done].
  destruct (_ && _); [intros Hg; left; by eapply gone_errs|].
  destruct (read_phase _ _ _ reader) as [d [outcome|e']]; [|intros [= <- _]; by left].
  destruct outcome as [ws| |reason]; cbn [mutate_phase]; [| |done].
  - destruct (IngestFeedRequest.feed_data req) as [fd|] eqn:Hfd; [|done].
    intros [Hd|(d1 & out & Hd & Hk)]%bind_err; [left; by eapply decide_errs|].
    destruct out as [reply|adm]; [done|]. right. by exists fd, ws, d, d1, adm.
  - intros Hn. left. by eapply (errs_keeps (no_change_phase _ _ _ _)), Hn; apply _.
Qed.
End quiet.

(** ** A body from a URL that the record does not know *)

(** The submission comes through neither the URL of the record nor a URL that
    the record declares. *)
Definition foreign (row : FeedRow) (source_url canonical_url : string) : Prop :=
  ∀ u, u = source_url ∨ u = canonical_url →
    Feed.feed_url (FeedRow.feed row) ≠ u ∧ FeedRow.declared_self_url row ≠ Some u
    ∧ FeedRow.declared_new_feed_url row ≠ Some u.

Lemma own_url_false (o : option string) source canonical :
  o ≠ Some source → o ≠ Some canonical →
  is_some_and (λ url, (url =s source) || (url =s canonical)) o = false.
Proof.
  destruct o as [u|]; [|done]. intros H1 H2. cbn. apply orb_false_iff.
  rewrite !String.eqb_neq. split; congruence.
Qed.

Section foreign.
Context `{Crates} `{Web} (hash_order : list string → list string) (signer : string).
Context (g source canonical : string) (row : FeedRow).

Lemma classify_foreign db :
  feeds db !! g = Some row → foreign row source canonical →
  classify_submission g source canonical db = (db, Ok SubmissionClass.RecordConflict)
  ∨ classify_submission g source canonical db
    = (db, Ok (SubmissionClass.Mirror (Feed.feed_url (FeedRow.feed row)))).
Proof using Type.
  intros Hr Hf. unfold classify_submission, query, mbind, db_bind. rewrite Hr. cbn [fmap option_fmap option_map].
  destruct (Feed.feed_guid <$> head _); [by left|]. right. cbn [compose is_some].
  destruct (Hf source (or_introl eq_refl)) as (Hs & _).
  destruct (Hf canonical (or_intror eq_refl)) as (Hc & _).
  unfold compose. apply String.eqb_neq in Hs, Hc. by rewrite Hs, Hc.
Qed.

Lemma trigger_foreign db :
  feeds db !! g = Some row → foreign row source canonical →
  mirror_trigger g source canonical db = (db, Ok None).
Proof using Type.
  intros Hr Hf. unfold mirror_trigger, get_declared_new_feed_url, get_declared_self_url, query.
  unfold mbind at 1, db_bind at 1. cbv zeta. rewrite Hr.
  change (mbind FeedRow.declared_new_feed_url (Some row))
    with (FeedRow.declared_new_feed_url row).
  destruct (Hf source (or_introl eq_refl)) as (_ & Hs1 & Hs2).
  destruct (Hf canonical (or_intror eq_refl)) as (_ & Hc1 & Hc2).
  rewrite own_url_false by done. unfold mbind at 1, db_bind at 1. rewrite Hr.
  change (mbind FeedRow.declared_self_url (Some row)) with (FeedRow.declared_self_url row).
  by rewrite own_url_false.
Qed.

Lemma move_foreign redirects body now db :
  feeds db !! g = Some row → foreign row source canonical →
  move_target g source canonical redirects body now db = (db, Ok MoveDecision.NoTrigger).
Proof using Type.
  intros Hr Hf. unfold move_target. unfold mbind at 1, db_bind at 1.
  destruct (classify_foreign db Hr Hf) as [-> | ->]; [done|].
  unfold mbind at 1, db_bind at 1. by rewrite trigger_foreign.
Qed.
End foreign.

(** ** What a step appends to the log *)

Definition log_types (db : Db) : list EventType := LogRow.event_type <$> events db.

(** The log is [base] and then events of the types [allowed]. *)
Definition only_new (allowed base : list EventType) (db : Db) : Prop :=
  ∃ new, log_types db = base ++ new ∧ Forall (λ t, t ∈ allowed) new.

Section log.
Context `{Crates} `{Web} (signer : string) (allowed base : list EventType).

Abbreviation P := (only_new allowed base).

Lemma only_new_sign row :
  EventRow.event_type row ∈ allowed → Preserves P (sign_event_row signer row).
Proof using Type.
  intros Ha db (new & Hn & Hf). unfold sign_event_row, mbind, db_bind.
  rewrite insert_event_run. destruct (event_id_taken db _); [by exists new|].
  destruct (sign_event _ _ _ _ _ _ _) as [by_ sig]. cbn.
  exists (new ++ [EventRow.event_type row]). unfold log_types in *. cbn.
  rewrite fmap_app, Hn, <-app_assoc. split; [done|].
  apply Forall_app. split; [done|]. by repeat constructor.
Qed.

Lemma only_new_keeps {A} (m : DB A) : Keeps events m → Preserves P m.
Proof using Type. intros K db Hd. unfold only_new, log_types. by rewrite K. Qed.

Ltac log_step :=
  lazymatch goal with
  | |- Preserves _ (mbind _ _) => apply preserves_bind; [|intros ?]
  | |- Preserves _ (mret _) => apply preserves_ret
  | |- Preserves _ (transaction _) => apply preserves_transaction
  | |- Preserves _ (if ?b then _ else _) => destruct b
  | |- Preserves _ (match ?x with _ => _ end) => destruct x
  | |- Preserves _ (sign_event_row _ _) => apply only_new_sign; assumption
  | |- Preserves _ _ => first [assumption | apply only_new_keeps; solve [frame]]
  end.

Lemma only_new_observe uuids a b c now :
  EventType.FeedUrlObserved ∈ allowed →
  Preserves P (record_feed_url_observations_for_ingest signer uuids a b c now).
Proof using Type.
  intros Ha. unfold record_feed_url_observations_for_ingest. apply preserves_transaction.
  generalize (a :: (if b ≠s a then [b] else [])). intros urls. revert uuids.
  induction urls as [|u us IH]; intros uuids; cbn [observe_urls]; [apply preserves_ret|].
  unfold record_feed_url_observation, get_feed_url_observation, upsert_feed_url_observation.
  repeat (log_step || apply IH).
Qed.

Lemma only_new_copy uuids a b c now :
  EventType.FeedCopyObserved ∈ allowed →
  Preserves P (record_feed_copy_for_ingest signer uuids a b c now).
Proof using Type.
  intros Ha. unfold record_feed_copy_for_ingest, get_feed_copy, count_feed_copies,
    touch_feed_copy_last_seen, increment_copy_overflow, upsert_feed_copy_summary, with_copy.
  cbv zeta. repeat log_step.
Qed.

Lemma only_new_body uuids req fd m now :
  EventType.FeedUrlObserved ∈ allowed → EventType.FeedCopyObserved ∈ allowed →
  Preserves P (observe_body signer uuids req fd m now).
Proof using Type.
  intros Ho Hc. unfold observe_body, record_mirror_copies. cbv zeta.
  repeat (apply only_new_observe, Ho || apply only_new_copy, Hc || log_step).
Qed.
End log.

(** A foreign body is observed, and that is all. *)
Section takeover.
Context `{Crates} `{Web} (hash_order : list string → list string) (signer : string).
Context (g : string) (row : FeedRow) (req : IngestFeedRequest) (fd : IngestFeedData).
Context (Hfd : IngestFeedRequest.feed_data req = Some fd) (Hg : IngestFeedData.feed_guid fd = g).
Context (Hforeign : foreign row (IngestFeedRequest.source_url req)
                      (IngestFeedRequest.canonical_url req)).

Definition only_observed (db db' : Db) : Prop :=
  content db' = content db
  ∧ only_new [EventType.FeedUrlObserved; EventType.FeedCopyObserved] (log_types db) db'.

Lemma only_observed_refl db : only_observed db db.
Proof using Type. split; [done|]. exists []. by rewrite app_nil_r. Qed.

Lemma body_observed uuids m now db :
  only_observed db (observe_body signer uuids req fd m now db).1.
Proof using Type.
  split; [apply (keeps (g := content))|].
  apply only_new_body; [left|right; left|]. exists []. by rewrite app_nil_r.
Qed.

Lemma no_change_foreign uuids now db :
  feeds db !! g = Some row → only_observed db (no_change_phase signer uuids req now db).1.
Proof using Hfd Hforeign Hg.
  intros Hr. unfold no_change_phase. rewrite Hfd, Hg. unfold mbind at 1, db_bind at 1.
  destruct (classify_foreign g _ _ row db Hr Hforeign) as [-> | ->];
    [apply only_observed_refl|].
  pose proof (body_observed uuids (Some (Feed.feed_url (FeedRow.feed row))) now db) as Hb.
  unfold mbind, db_bind. destruct (observe_body _ _ _ _ _ _ db) as [d [[]|]]; exact Hb.
Qed.

Lemma decide_foreign clock uuids ws db :
  feeds db !! g = Some row →
  let '(db', out) := decide_phase signer clock uuids req fd ws db in
  only_observed db db' ∧ match out with Ok (inr _) => False | _ => True end.
Proof using Hforeign Hg.
  intros Hr. unfold decide_phase, req_guid. rewrite Hg. unfold mbind at 1, db_bind at 1.
  destruct (classify_foreign g _ _ row db Hr Hforeign) as [-> | ->];
    [split; [apply only_observed_refl|done]|].
  unfold mirror_case, decide_move, req_guid. rewrite Hg. unfold mbind at 1, db_bind at 1.
  rewrite (move_foreign g _ _ row _ _ _ db Hr Hforeign). cbv zeta.
  pose proof (body_observed uuids (Some (Feed.feed_url (FeedRow.feed row)))
    (Clock.at_decision clock) db) as Hb.
  unfold mbind, db_bind. destruct (observe_body _ _ _ _ _ _ db) as [d [[]|]]; by split.
Qed.

Lemma handler_foreign chain hosts clock uuids reader db :
  feeds db !! g = Some row →
  only_observed db
    (handle_ingest_feed hash_order signer chain hosts clock uuids req reader db).1.
Proof using Hfd Hforeign Hg.
  intros Hr. unfold handle_ingest_feed.
  destruct (authenticate chain req); [|apply only_observed_refl].
  rewrite Hfd. cbn [is_some negb andb].
  destruct (read_phase _ _ _ reader) as [? [[ws| |]|e]]; cbn [mutate_phase];
    try apply only_observed_refl; [|by apply no_change_foreign].
  rewrite Hfd. pose proof (decide_foreign clock uuids ws db Hr) as Hd.
  unfold mbind, db_bind. destruct (decide_phase _ _ _ _ _ _ db) as [d1 [[r|adm]|err]];
    [apply Hd|by destruct Hd|apply Hd].
Qed.
End takeover.

(** ** The invariants of a node *)

Lemma content_store db db' : content db' = content db → store_ok db → store_ok db'.
Proof.
  intros Hc. injection Hc; intros. unfold store_ok, catalog_ok, refs_ok, refs.
  destruct db, db'; cbn in *; subst. done.
Qed.

Lemma content_index `{Crates} db db' : content db' = content db → index_ok db → index_ok db'.
Proof. intros Hc. injection Hc; intros. unfold index_ok. destruct db, db'; cbn in *; subst. done. Qed.

Lemma keeps_store {A} (m : DB A) : Keeps content m → Preserves store_ok m.
Proof. intros K db. apply content_store, K. Qed.

Lemma keeps_index `{Crates} {A} (m : DB A) : Keeps content m → Preserves index_ok m.
Proof. intros K db. apply content_index, K. Qed.

(** A write of the columns of a feed row that are not of the feed. *)
Lemma update_row_catalog g f db :
  (∀ row, FeedRow.feed (f row) = FeedRow.feed row) →
  catalog_ok db → catalog_ok (set_feeds (alter f g (feeds db)) db).
Proof.
  intros Hf (Hg & Ht & Hu).
  assert (∀ k row, alter f g (feeds db) !! k = Some row →
    ∃ old, feeds db !! k = Some old ∧ FeedRow.feed row = FeedRow.feed old) as Hold.
  { intros k row Hr. apply lookup_alter_Some in Hr as [(<- & old & Ho & ->)|(_ & Ho)]; eauto. }
  split_and!; cbn.
  - intros k row (old & Ho & ->)%Hold. eauto.
  - intros f' t tr Htr. destruct (Ht f' t tr Htr) as (? & ? & He). split_and!; [done..|].
    unfold feed_exists in *. cbn. destruct (decide (g = f')) as [->|Hne].
    + rewrite lookup_alter_eq. by destruct (feeds db !! f').
    + by rewrite lookup_alter_ne.
  - intros g1 g2 r1 r2 (o1 & Ho1 & ->)%Hold (o2 & Ho2 & ->)%Hold. eauto.
Qed.

Lemma feed_exists_alter g f db k :
  feed_exists (set_feeds (alter f g (feeds db)) db) k = feed_exists db k.
Proof.
  unfold feed_exists. cbn. destruct (decide (g = k)) as [->|Hne].
  - rewrite lookup_alter_eq. by destruct (feeds db !! k).
  - by rewrite lookup_alter_ne.
Qed.

Lemma update_row_preserves g f :
  (∀ row, FeedRow.feed (f row) = FeedRow.feed row) → Preserves store_ok (update_feed_row g f).
Proof.
  intros Hf db [Hc Hr]. split; [by apply update_row_catalog|].
  revert Hr. unfold refs_ok, refs. intros (?&?&?&?&?&?&?&?&?&?&?&?&?&?).
  split_and!; intros r Hr;
    match goal with
    | Hall : ∀ r, r ∈ tbl_get ?T db → _ |- tbl_fk ?T _ _ = true =>
        specialize (Hall r Hr); revert Hall; clear; cbn; destruct r; cbn;
        rewrite ?feed_exists_alter; try done
    end.
Qed.

Definition index_tables (db : Db) := (search_index db, search_entities db).

Lemma keeps_tables_index `{Crates} {A} (m : DB A) : Keeps index_tables m → Preserves index_ok m.
Proof.
  intros K db. specialize (K db). unfold index_tables in K. injection K as K1 K2.
  unfold index_ok. by rewrite K1, K2.
Qed.

Ltac inv_leaf :=
  lazymatch goal with
  | |- Preserves store_ok _ => first [solve [apply _] | apply keeps_store; solve [frame]]
  | |- Preserves index_ok _ => first [solve [apply _] | apply keeps_tables_index; solve [frame]]
  | |- Preserves log_ok _ => first [solve [apply _] | apply keeps_events_log; solve [frame]]
  end.

Ltac inv_step :=
  lazymatch goal with
  | |- Preserves _ (mbind _ _) => apply preserves_bind; [|intros ?]
  | |- Preserves _ (mret _) => apply preserves_ret
  | |- Preserves _ (throw _) => apply preserves_throw
  | |- Preserves _ (query _) => apply preserves_query
  | |- Preserves _ (transaction _) => apply preserves_transaction
  | |- Preserves _ (if ?b then _ else _) => destruct b
  | |- Preserves _ (match ?x with _ => _ end) => destruct x
  | |- Preserves _ _ => inv_leaf
  end.

Section invariants.
Context `{Crates} `{Web} (hash_order : list string → list string) (signer : string).

(** The three invariants at once. *)
Definition good {A} (m : DB A) : Prop :=
  Preserves store_ok m ∧ Preserves log_ok m ∧ Preserves index_ok m.

#[export] Instance sign_log row : Preserves log_ok (sign_event_row signer row).
Proof using Type. unfold sign_event_row. repeat inv_step. Qed.
#[export] Instance sign_store row : Preserves store_ok (sign_event_row signer row).
Proof using Type. apply keeps_store, _. Qed.
#[export] Instance sign_index row : Preserves index_ok (sign_event_row signer row).
Proof using Type. apply keeps_index, _. Qed.
#[export] Instance rows_to_events_preserves (P : Db → Prop) rows :
  Preserves P (signed_rows_to_events rows).
Proof using Type. intros db Hd. exact Hd. Qed.

Ltac good_steps := split_and!; repeat inv_step.

Lemma good_observe uuids a b c now :
  good (record_feed_url_observations_for_ingest signer uuids a b c now).
Proof using Type.
  split_and!; [apply keeps_store, _| |apply keeps_index, _].
  unfold record_feed_url_observations_for_ingest. apply preserves_transaction.
  generalize (a :: (if b ≠s a then [b] else [])). intros urls. revert uuids.
  induction urls as [|u us IH]; intros uuids; cbn [observe_urls]; [apply preserves_ret|].
  unfold record_feed_url_observation, get_feed_url_observation, upsert_feed_url_observation.
  repeat (inv_step || apply IH).
Qed.

Lemma good_copy uuids a b c now : good (record_feed_copy_for_ingest signer uuids a b c now).
Proof using Type.
  split_and!; [apply keeps_store, _| |apply keeps_index, _].
  unfold record_feed_copy_for_ingest, get_feed_copy, count_feed_copies,
    touch_feed_copy_last_seen, increment_copy_overflow, upsert_feed_copy_summary, with_copy.
  cbv zeta. repeat inv_step.
Qed.

Lemma good_pending uuids a b c now :
  good (record_guid_change_pending_for_ingest signer uuids a b c now).
Proof using Type.
  split_and!; [apply keeps_store, _| |apply keeps_index, _].
  unfold record_guid_change_pending_for_ingest, get_guid_change, upsert_guid_change,
    touch_guid_change_last_seen. cbv zeta. repeat inv_step.
Qed.

Lemma good_return uuids a b now :
  good (record_guid_change_return_for_ingest signer uuids a b now).
Proof using Type.
  split_and!; [apply keeps_store, _| |apply keeps_index, _].
  unfold record_guid_change_return_for_ingest, get_guid_change, delete_guid_change.
  repeat inv_step.
Qed.

#[export] Instance delete_feed_sql_log f : Preserves log_ok (delete_feed_sql f).
Proof using Type. apply keeps_events_log. open_operations. frame. Qed.

Lemma good_transition uuids a b c now :
  good (guid_change_transition signer uuids a b c now).
Proof using Type.
  unfold guid_change_transition, get_guid_change, delete_guid_change. good_steps.
Qed.

Lemma good_block_events uuids blocks now : good (block_events signer uuids blocks now).
Proof using Type.
  split_and!; revert uuids; induction blocks as [|b bs IH]; intros uuids; cbn [block_events];
    repeat (inv_step || apply IH).
Qed.

Lemma good_delete uuids g id j s now ws bs :
  good (delete_feed_with_event signer uuids g id j s now ws bs).
Proof using Type.
  pose proof (λ uuids, good_block_events uuids bs now) as Hb.
  unfold delete_feed_with_event, write_hold.
  split_and!; repeat (apply Hb || inv_step).
Qed.

Lemma good_declarations fd adm : good (record_declarations fd adm).
Proof using Type.
  unfold record_declarations, set_declared_self_url, set_feed_move_declarations,
    clear_arrival_tag_unless.
  split_and!; [|unfold update_feed_row..]; repeat first
    [apply update_row_preserves; done | inv_step].
Qed.
(** The operations above are [good]; so is what is made of them. *)
Ltac good_op :=
  first [ apply good_observe | apply good_copy | apply good_pending | apply good_return
        | apply good_transition | apply good_delete | apply good_declarations ].

Ltac good_code := split_and!; repeat (good_op || inv_step).

Lemma good_body uuids req fd m now : good (observe_body signer uuids req fd m now).
Proof using Type. unfold observe_body, record_mirror_copies. cbv zeta. good_code. Qed.

Lemma good_no_change uuids req now : good (no_change_phase signer uuids req now).
Proof using Type.
  pose proof good_body as Hb. unfold no_change_phase. cbv zeta.
  split_and!; repeat (apply Hb || inv_step).
Qed.

Lemma good_decide clock uuids req fd ws : good (decide_phase signer clock uuids req fd ws).
Proof using Type.
  pose proof good_body as Hb.
  unfold decide_phase, update_case, new_feed_case, mirror_case, guid_change_case, decide_move,
    get_guid_change, get_retired_source_hold, get_feed_by_guid. cbv zeta.
  split_and!; repeat (apply Hb || good_op || inv_step).
Qed.

#[export] Instance keeps_diff {A} (g : Db → A) b now ws uuids :
  Keeps g (build_diff_events b now ws uuids).
Proof using Type.
  assert (∀ T C (f : T → DB (list C)) (l : list T), (∀ x, Keeps g (f x)) →
    Keeps g (flat_map_db f l)) as Hl.
  { intros T C f l Hf. induction l as [|x l IH]; cbn [flat_map_db]; apply _. }
  unfold build_diff_events, build_changed_events, get_feed_by_guid.
  repeat first [frame_step | apply Hl; intros [[[? ?] ?] ?]; unfold track_changed_events].
Qed.

Lemma good_write uuids req fd adm ws b now :
  good (write_phase hash_order signer uuids req fd adm ws b now).
Proof using Type.
  unfold write_phase, transition_phase, upsert_feed_crawl_cache. cbv zeta. good_code.
Qed.

Lemma good_admit uuids req fd adm now :
  good (admit_phase hash_order signer uuids req fd adm now).
Proof using Type.
  pose proof good_write as Hw. unfold admit_phase, feed_url_of, get_feed_by_guid. cbv zeta.
  split_and!; repeat (apply Hw || inv_step).
Qed.

Lemma good_answer g u now status : good (record_source_gone_answer g u now status).
Proof using Type.
  assert (Keeps content (record_source_gone_answer g u now status)) as K.
  { intros db. unfold record_source_gone_answer. by destruct (_ && _). }
  split_and!; [by apply keeps_store| |by apply keeps_index].
  intros db Hd. unfold record_source_gone_answer. by destruct (_ && _).
Qed.

Lemma good_gone uuids hosts req now :
  good (handle_source_gone_report signer uuids hosts req now).
Proof using Type.
  pose proof good_answer as Ha.
  unfold handle_source_gone_report, feed_guid_for_source_url, get_source_gone_answer,
    retire_for_source_gone. cbv zeta.
  split_and!; repeat (apply Ha || good_op || inv_step).
Qed.

Lemma good_mutate clock uuids req outcome :
  good (mutate_phase hash_order signer clock uuids req outcome).
Proof using Type.
  pose proof good_no_change as Hn. pose proof good_decide as Hd. pose proof good_admit as Ha.
  unfold mutate_phase. split_and!; repeat (apply Hn || apply Hd || apply Ha || inv_step).
Qed.

Lemma good_handler chain hosts clock uuids req reader :
  good (handle_ingest_feed hash_order signer chain hosts clock uuids req reader).
Proof using Type.
  pose proof good_gone as Hg. pose proof good_mutate as Hm.
  unfold handle_ingest_feed. split_and!; repeat (apply Hg || apply Hm || inv_step).
Qed.
End invariants.
