(* ===== verification/Administered.v ===== *)
(** Lemmas on the routes of the operator: what they append to the log, when
    they leave the database alone, and the invariants they keep. *)

From S2P Require Import Prelude.
From S2P Require Import Model.
From S2P Require Import Event.
From S2P Require Import Crates.
From S2P Require Import Store.
From S2P Require Import Tables.
From S2P Require Import RowLists.
From S2P Require Import Search.
From S2P Require Import Catalog.
From S2P Require Import Feeds.
From S2P Require Import Integrity.
From S2P Require Import EventLog.
From S2P Require Import Moves.
From S2P Require Import Blocks.
From S2P Require Import GuidChange.
From S2P Require Import Copies.
From S2P Require Import Observe.
From S2P Require Import Admin.
From S2P Require Import Frames.
From S2P Require Import Replica.
From S2P Require Import Submitted.

Lemma run_keeps {A G} (g : Db → G) (m : DB A) db db' r :
  m db = (db', r) → Keeps g m → g db' = g db.
Proof. intros E K. specialize (K db). by rewrite E in K. Qed.

#[export] Instance keeps_feeds_blocks `{Crates} signer uuids blocks now :
  Keeps feeds (block_events signer uuids blocks now).
Proof.
  revert uuids. induction blocks as [|b bs IH]; intros uuids; cbn [block_events]; [apply _|].
  repeat (apply IH || frame_step).
Qed.

(** ** What an operation appends to the log *)

(** From a log that ends in [pre], the log that [m] leaves has in the place of
    [pre] rows that stand in [R] to its result. *)
Definition Logs {A} (pre : list LogRow) (m : DB A) (R : A → list LogRow → Prop) : Prop :=
  ∀ db db' a l, m db = (db', Ok a) → events db = l ++ pre →
    ∃ rows, events db' = l ++ rows ∧ R a rows.

Lemma keeps_release {G} (g : Db → G) guid now :
  (∀ x db, g (set_retired_source_holds x db) = g db) →
  Keeps g (release_retired_source_hold guid now).
Proof.
  intros Hg db. unfold release_retired_source_hold. destruct (_ !! _) as [h|]; [|done].
  destruct (RetiredSourceHold.released_at h); [done|]. apply Hg.
Qed.
#[export] Hint Extern 0 (Keeps _ (release_retired_source_hold _ _)) =>
  apply keeps_release; intros; reflexivity : typeclass_instances.

Section logs.
Context `{Crates}.

(** The row of the log that a signed row is. *)
Definition log_row (s : SignedEventRow) : LogRow :=
  let r := SignedEventRow.row s in
  LogRow.mk (EventRow.event_id r) (EventRow.event_type r) (EventRow.payload_json r)
    (EventRow.subject_guid r) (SignedEventRow.signed_by s) (SignedEventRow.signature s)
    (SignedEventRow.seq s) (EventRow.created_at r) (EventRow.warnings r).

Lemma event_of_log_row s : event_of_row (log_row s) = signed_row_to_event s.
Proof using Type.
  unfold event_of_row, signed_row_to_event. cbn. by destruct (parse_event _ _).
Qed.

Lemma logs_ret {A} pre (a : A) (R : A → list LogRow → Prop) :
  R a pre → Logs pre (mret a) R.
Proof using Type. intros HR db db' b l [= <- <-] Hl. eauto. Qed.

Lemma logs_throw {A} pre e (R : A → list LogRow → Prop) : Logs pre (throw e) R.
Proof using Type. by intros db db' b l [=]. Qed.

Lemma logs_keep {A B} pre (m : DB A) (k : A → DB B) R :
  Keeps events m → (∀ a, Logs pre (k a) R) → Logs pre (mbind k m) R.
Proof using Type.
  intros K Hk db db' b l (d & a & Hm & Hb)%bind_ok Hl.
  eapply Hk; [exact Hb|]. rewrite <-Hl, <-(K db). by rewrite Hm.
Qed.

Lemma logs_bind {A B} pre (m : DB A) (k : A → DB B) S R :
  Logs pre m S → (∀ a rows, S a rows → Logs rows (k a) R) → Logs pre (mbind k m) R.
Proof using Type.
  intros Hm Hk db db' b l (d & a & Em & Hb)%bind_ok Hl.
  destruct (Hm _ _ _ _ Em Hl) as (rows & Hd & HS). by eapply Hk.
Qed.

Lemma logs_transaction {A} pre (m : DB A) R : Logs pre m R → Logs pre (transaction m) R.
Proof using Type. intros Hm db db' a l E%transaction_run. by apply Hm. Qed.

Lemma logs_mono {A} pre (m : DB A) (S R : A → list LogRow → Prop) :
  Logs pre m S → (∀ a rows, S a rows → R a rows) → Logs pre m R.
Proof using Type.
  intros Hm HS db db' a l E Hl. destruct (Hm _ _ _ _ E Hl) as (rows & ? & ?). eauto.
Qed.

Lemma logs_sign pre signer r :
  Logs pre (sign_event_row signer r) (λ s rows, rows = pre ++ [log_row s]).
Proof using Type.
  intros db db' s l E Hl. revert E. unfold sign_event_row, mbind, db_bind.
  rewrite insert_event_run. destruct (event_id_taken db _); [done|].
  destruct (sign_event _ _ _ _ _ _ _) as [by_ sig]. intros [= <- <-]. cbn.
  eexists. rewrite Hl. by rewrite <-app_assoc.
Qed.

(** The events are those of the rows. *)
Definition read_as (evs : list Event) (rows : list LogRow) : Prop :=
  collect_results event_of_row rows = Ok evs.

Lemma collect_log_rows ss :
  collect_results event_of_row (log_row <$> ss) = collect_results signed_row_to_event ss.
Proof using Type.
  induction ss as [|s ss IH]; [done|].
  rewrite fmap_cons. cbn [collect_results]. by rewrite event_of_log_row, IH.
Qed.

Lemma logs_events ss :
  Logs (log_row <$> ss) (signed_rows_to_events ss) read_as.
Proof using Type.
  intros db db' evs l [= <- He] Hl. exists (log_row <$> ss). split; [done|].
  unfold read_as. by rewrite collect_log_rows.
Qed.

Lemma collect_app {A B E} (f : A → result E B) l k xs ys :
  collect_results f l = Ok xs → collect_results f k = Ok ys →
  collect_results f (l ++ k) = Ok (xs ++ ys).
Proof using Type.
  revert xs. induction l as [|a l IH]; intros xs; cbn [collect_results app]; [by intros [= <-]|].
  destruct (f a) as [b|]; [|done]. cbn.
  destruct (collect_results f l) as [bs|]; [|done]. cbn. intros [= <-] Hk.
  by rewrite (IH bs).
Qed.
End logs.

Ltac logs_step :=
  lazymatch goal with
  | |- Logs _ (mbind _ _) _ =>
      first [ apply logs_keep; [solve [frame]|intros ?]
            | eapply logs_bind; [|intros ? ? ?] ]
  | |- Logs _ (mret _) _ => apply logs_ret
  | |- Logs _ (throw _) _ => apply logs_throw
  | |- Logs _ (transaction _) _ => apply logs_transaction
  | |- Logs _ (if ?b then _ else _) _ => destruct b
  | |- Logs _ (match ?x with _ => _ end) _ => destruct x
  end.

Section admin_log.
Context `{Crates} (signer : string).

(** The events of a reply are the rows that the request appended. *)
Definition fanned {A} (r : AdminReply A) (rows : list LogRow) : Prop :=
  match r with
  | AdminReply.Refused _ _ => rows = []
  | AdminReply.Done _ _ evs => read_as evs rows
  end.

Lemma logs_refuse status msg : Logs [] (refuse status msg) fanned.
Proof using Type. by apply logs_ret. Qed.

Lemma logs_answer status body ss : Logs (log_row <$> ss) (answer status body ss) fanned.
Proof using Type.
  unfold answer. eapply logs_bind; [apply logs_events|]. intros evs rows Hr.
  by apply logs_ret.
Qed.

Lemma logs_token header token m : Logs [] m fanned → Logs [] (with_admin_token header token m) fanned.
Proof using Type.
  intros Hm. unfold with_admin_token.
  destruct (check_admin_token header token); [done|by apply logs_ret].
Qed.

Lemma logs_block_events uuids blocks now pre :
  Logs pre (block_events signer uuids blocks now)
    (λ evs rows, ∃ more, rows = pre ++ more ∧ read_as evs more).
Proof using Type.
  revert uuids pre. induction blocks as [|b bs IH]; intros uuids pre; cbn [block_events].
  { apply logs_ret. exists []. by rewrite app_nil_r. }
  apply logs_keep; [solve [frame]|]. intros []; cbn [negb]; [|apply IH].
  eapply logs_bind; [apply logs_sign|]. intros s rows ->.
  intros db db' evs l (d & ev & [= <- He] & Hb)%bind_ok Hl.
  apply bind_ok in Hb as (d2 & more & Hm & [= <- <-]).
  destruct (IH _ _ _ _ _ _ Hm Hl) as (rows & Hr & more_rows & -> & Hmore).
  eexists. split; [exact Hr|]. exists (log_row s :: more_rows).
  rewrite <-app_assoc. split; [done|].
  apply (collect_app event_of_row [_]); [|done].
  by rewrite (collect_log_rows [s]).
Qed.

Lemma logs_delete_feed uuids g id j s now ws bs :
  Logs [] (delete_feed_with_event signer uuids g id j s now ws bs) read_as.
Proof using Type.
  unfold delete_feed_with_event, write_hold. apply logs_transaction.
  apply logs_keep; [solve [frame]|]. intros hold.
  apply logs_keep; [open_operations; solve [frame]|]. intros _.
  apply logs_keep; [solve [frame]|]. intros _.
  eapply logs_bind; [apply logs_sign|]. intros sr rows ->.
  eapply logs_bind; [apply (logs_events [sr])|]. intros evs rows Hr.
  eapply logs_bind; [apply logs_block_events|]. intros more rows' (m & -> & Hm).
  apply logs_ret. by apply collect_app.
Qed.

Lemma logs_relocate uuids g u r now :
  Logs [] (relocate_feed signer uuids g u r now)
    (λ o rows, rows = match o with Some s => [log_row s] | None => [] end).
Proof using Type.
  unfold relocate_feed, set_source_url, set_declared_self_url, clear_declared_new_feed_url,
    write_relocation_state, get_feed_by_guid, update_feed_row, add_left_url, remove_left_url.
  repeat first [by apply logs_sign | logs_step]; by subst.
Qed.

(** An operation on the log that signs one row at its end, or none. *)
Definition one_row (o : option SignedEventRow) (rows : list LogRow) : Prop :=
  rows = match o with Some s => [log_row s] | None => [] end.

Lemma logs_settle uuids now g d r row pre :
  Logs pre (settle_copy signer uuids now g d r row) (λ s rows, rows = pre ++ [log_row s]).
Proof using Type.
  unfold settle_copy, set_feed_copy_resolution, with_copy.
  eapply logs_bind; [apply logs_sign|]. intros s rows ->.
  apply logs_keep; [solve [frame]|]. intros _. by apply logs_ret.
Qed.

Ltac logs_leaf :=
  first [ apply logs_refuse | apply (logs_answer _ _ []) | apply (logs_answer _ _ [_])
        | apply logs_answer | by apply logs_sign | by apply logs_settle
        | apply logs_token | apply logs_delete_feed | apply logs_relocate | logs_step ].

Lemma logs_create_block uuids now kind value reason :
  Logs [] (create_block signer uuids now kind value reason)
    (λ o rows, rows = match o with inl _ => [] | inr (_, s) => [log_row s] end).
Proof using Type.
  unfold create_block, get_feed_block_by_pair. repeat logs_leaf; by subst.
Qed.

Lemma logs_remove_block uuids now id : Logs [] (remove_block signer uuids now id) one_row.
Proof using Type. unfold remove_block. repeat logs_leaf; by subst. Qed.

Lemma logs_resolve_copy uuids now g u d r :
  Logs [] (resolve_copy signer uuids now g u d r)
    (λ o rows, rows = match o with
                      | ResolveCopyOutcome.Resolved ss => log_row <$> ss | _ => [] end).
Proof using Type.
  unfold resolve_copy, get_feed_by_guid, get_feed_copy. repeat logs_leaf; by subst.
Qed.

Lemma logs_decide uuids now g d r : Logs [] (decide_guid_change signer uuids now g d r) one_row.
Proof using Type.
  unfold decide_guid_change, get_guid_change_for_old_guid, set_guid_change_decision.
  repeat logs_leaf; by subst.
Qed.

Lemma logs_patch_track uuids now g t u :
  Logs [] (patch_track signer uuids now g t u) (λ s rows, rows = [log_row s]).
Proof using Type.
  unfold patch_track, set_enclosure_url, get_track_for_feed, get_payment_routes_for_feed_track,
    get_value_time_splits_for_feed_track.
  repeat logs_leaf.
Qed.

Lemma logs_delete_track g t id j s now ws :
  Logs [] (delete_track_with_event signer g t id j s now ws) (λ s rows, rows = [log_row s]).
Proof using Type.
  unfold delete_track_with_event. apply logs_transaction.
  apply logs_keep; [open_operations; solve [frame]|]. intros _. apply logs_sign.
Qed.

(** Every route: the events that are sent on are the rows of the log that it
    has added, in their order. *)
Ltac route_leaf :=
  first [ progress cbn beta in * | apply logs_create_block | apply logs_remove_block | apply logs_resolve_copy
        | apply logs_decide | apply logs_patch_track | apply logs_delete_track
        | lazymatch goal with
          | Hr : one_row (Some _) _ |- _ => unfold one_row in Hr; subst
          | Hr : one_row None _ |- _ => unfold one_row in Hr; subst
          | Hr : ?rows = _ |- Logs ?rows _ _ => is_var rows; subst rows
          end
        | logs_leaf ].

Lemma logs_retire uuids now header token g b :
  Logs [] (handle_retire_feed signer uuids now header token g b) fanned.
Proof using Type.
  unfold handle_retire_feed, get_feed_by_guid. cbv zeta. apply logs_token.
  destruct (_ && _); [apply logs_refuse|]. apply logs_keep; [solve [frame]|].
  intros [f|]; [|apply logs_refuse]. destruct (if unwrap_or true b then _ else _) as [bs n].
  eapply logs_bind; [apply logs_delete_feed|]. intros evs rows Hr. by apply logs_ret.
Qed.

Lemma logs_patch_resolved uuids now header token t g u :
  Logs [] (patch_resolved_track signer uuids now header token t g u) fanned.
Proof using Type. unfold patch_resolved_track. repeat route_leaf.
Qed.

Lemma logs_admin_route uuids now header token got req :
  Logs [] (admin_route signer uuids now header token got req) fanned.
Proof using Type.
  pose proof logs_patch_resolved as Hp.
  destruct req; cbn [admin_route]; [apply logs_retire|..];
    unfold handle_remove_track, handle_create_block, handle_list_blocks,
      handle_delete_retired_source_hold, handle_delete_block, handle_patch_feed,
      handle_resolve_copy, handle_guid_change_decision, handle_patch_track,
      handle_patch_feed_track, list_feed_blocks, get_track_for_feed, get_feed_by_guid,
      get_retired_source_hold, get_tracks_by_guid;
    cbv zeta; repeat (apply Hp || route_leaf).
Qed.
End admin_log.

(** ** When a reply changes nothing *)

(** The results in [R] come with the database as it was. *)
Definition Quiet {A} (R : A → bool) (m : DB A) : Prop :=
  ∀ db db' a, m db = (db', Ok a) → R a = true → db' = db.

Definition Never {A} (R : A → bool) (m : DB A) : Prop :=
  ∀ db db' a, m db = (db', Ok a) → R a = false.

Section quiet.
Context {A B : Type} (R : B → bool).

Lemma quiet_ret b : Quiet R (mret b).
Proof using Type. by intros db db' b' [= <- <-]. Qed.

Lemma quiet_throw e : Quiet R (throw e).
Proof using Type. by intros db db' b. Qed.

Lemma quiet_never m : Never R m → Quiet R m.
Proof using Type. intros Hn db db' b Hm Hr. by rewrite (Hn _ _ _ Hm) in Hr. Qed.

Lemma quiet_transaction m : Quiet R m → Quiet R (transaction m).
Proof using Type. intros Hq db db' b E%transaction_run. by apply Hq. Qed.

Lemma quiet_read (m : DB A) (k : A → DB B) :
  Keeps (λ db, db) m → (∀ a, Quiet R (k a)) → Quiet R (mbind k m).
Proof using Type.
  intros K Hk db db' b (d & a & Hm & Hb)%bind_ok Hr.
  pose proof (K db) as Hd. rewrite Hm in Hd. cbn in Hd. subst. by eapply Hk.
Qed.

Lemma quiet_bind (S : A → bool) (m : DB A) (k : A → DB B) :
  Quiet S m →
  (∀ a, S a = true → Quiet R (k a)) → (∀ a, S a = false → Never R (k a)) →
  Quiet R (mbind k m).
Proof using Type.
  intros Hm Ht Hf db db' b (d & a & Em & Hb)%bind_ok Hr. destruct (S a) eqn:ES.
  - rewrite <-(Hm _ _ _ Em ES). by eapply Ht.
  - by rewrite (Hf _ ES _ _ _ Hb) in Hr.
Qed.

Lemma never_bind (m : DB A) (k : A → DB B) : (∀ a, Never R (k a)) → Never R (mbind k m).
Proof using Type. intros Hk db db' b (d & a & _ & Hb)%bind_ok. by eapply Hk. Qed.

Lemma never_ret b : R b = false → Never R (mret b).
Proof using Type. by intros Hb db db' b' [= <- <-]. Qed.
End quiet.

Section declined.
Context `{Crates} (signer : string).

(** A reply that says that nothing was done: an error status, or a conflict. *)
Definition declined (r : AdminReply AdminBody) : bool :=
  match r with
  | AdminReply.Refused _ _ => true
  | AdminReply.Done status _ _ => status =? 409
  end.

Definition is_none {A} (o : option A) : bool := negb (is_some o).

Lemma never_answer status body ss : (status =? 409) = false → Never declined (answer status body ss).
Proof using Type. intros Hs. apply never_bind. intros evs. by apply never_ret. Qed.

Lemma quiet_answer status body ss : Quiet declined (answer status body ss).
Proof using Type. apply quiet_read; [|intros; apply quiet_ret]. intros db. done. Qed.

Ltac quiet_step :=
  lazymatch goal with
  | |- Quiet _ (refuse _ _) => apply quiet_ret
  | |- Quiet _ (answer _ _ _) => apply quiet_answer
  | |- Never _ (answer _ _ _) => by apply never_answer
  | |- Quiet _ (mret _) => apply quiet_ret
  | |- Never _ (mret _) => by apply never_ret
  | |- Quiet _ (throw _) => apply quiet_throw
  | |- Quiet _ (transaction _) => apply quiet_transaction
  | |- Quiet _ (mbind _ _) => apply quiet_read; [solve [frame]|intros ?]
  | |- Never _ (mbind _ _) => apply never_bind; intros ?
  | |- _ (if ?b then _ else _) => destruct b
  | |- _ (match ?x with _ => _ end) => destruct x
  end.

Lemma quiet_token header token m : Quiet declined m → Quiet declined (with_admin_token header token m).
Proof using Type.
  intros Hm. unfold with_admin_token. destruct (check_admin_token _ _); [done|apply quiet_ret].
Qed.

Lemma quiet_create uuids now kind v r :
  Quiet (λ o : string + _, match o with inl _ => true | inr _ => false end) (create_block signer uuids now kind v r).
Proof using Type.
  unfold create_block, get_feed_block_by_pair.
  apply quiet_transaction, quiet_read; [solve [frame]|]. intros [b|]; [apply quiet_ret|].
  apply quiet_never. repeat quiet_step.
Qed.

Lemma quiet_remove uuids now id : Quiet is_none (remove_block signer uuids now id).
Proof using Type.
  unfold remove_block. apply quiet_transaction.
  intros db db' o Hm Ho. revert Hm. unfold mbind at 1, db_bind at 1, delete_feed_block.
  destruct (existsb _ _) eqn:E; cbn [negb].
  - intros (d & s & _ & [= <- <-])%bind_ok. done.
  - intros [= <- <-]. rewrite filter_all; [by destruct db|].
    intros x Hx.
    destruct (_ =s _) eqn:Ex; [|done]. exfalso.
    assert (existsb (λ b, FeedBlock.block_id b =s id) (feed_blocks db) = true); [|congruence].
    apply existsb_exists. exists x. by rewrite <-list_elem_of_In.
Qed.

Lemma quiet_relocate uuids g u r now : Quiet is_none (relocate_feed signer uuids g u r now).
Proof using Type.
  unfold relocate_feed. apply quiet_read; [solve [frame]|].
  intros []; [apply quiet_ret|]. apply quiet_read; [solve [frame]|].
  intros [old|]; [|apply quiet_throw]. apply quiet_never.
  do 5 (apply never_bind; intros ?). destruct a3 as [f|]; [|by intros ? ? ?].
  apply never_bind; intros ?. by apply never_ret.
Qed.

Lemma quiet_resolve uuids now g u d r :
  Quiet (λ o, match o with ResolveCopyOutcome.Resolved _ => false | _ => true end)
    (resolve_copy signer uuids now g u d r).
Proof using Type.
  unfold resolve_copy, get_feed_by_guid, get_feed_copy. apply quiet_transaction.
  apply quiet_read; [solve [frame]|]. intros [f|]; (apply quiet_read; [solve [frame]|]);
    intros [row|]; try apply quiet_ret.
  destruct (d =s _).
  - eapply quiet_bind; [apply quiet_relocate|intros [s|]..]; try done; intros _; repeat quiet_step.
  - apply quiet_never. repeat quiet_step.
Qed.

Lemma quiet_decide uuids now g d r : Quiet is_none (decide_guid_change signer uuids now g d r).
Proof using Type.
  unfold decide_guid_change, get_guid_change_for_old_guid. apply quiet_transaction.
  apply quiet_read; [solve [frame]|]. intros [row|]; [|apply quiet_ret].
  apply quiet_never. repeat quiet_step.
Qed.

Lemma quiet_release guid now : Quiet negb (release_retired_source_hold guid now).
Proof using Type.
  intros db db' b. unfold release_retired_source_hold. destruct (_ !! _) as [h|]; [|by intros [= <- <-]].
  destruct (RetiredSourceHold.released_at h); by intros [= <- <-].
Qed.

Lemma quiet_relocate_tx uuids g u r now :
  Quiet is_none (transaction (relocate_feed signer uuids g u r now)).
Proof using Type. apply quiet_transaction, quiet_relocate. Qed.

(** After a transaction with the results in [S], the reply declines only what
    was not done. *)
Ltac quiet_outcome L :=
  eapply quiet_bind; [apply L|..]; intros []; cbn; intros ?; try done; repeat quiet_step.

Lemma quiet_patch_resolved uuids now header token t g u :
  Quiet declined (patch_resolved_track signer uuids now header token t g u).
Proof using Type.
  apply quiet_token. destruct u; [|apply quiet_answer]. apply quiet_never. repeat quiet_step.
Qed.

Lemma quiet_admin_route uuids now header token got req :
  Quiet declined (admin_route signer uuids now header token got req).
Proof using Type.
  pose proof quiet_patch_resolved as Hp.
  destruct req; cbn [admin_route];
    unfold handle_retire_feed, handle_remove_track, handle_create_block, handle_list_blocks,
      handle_delete_retired_source_hold, handle_delete_block, handle_patch_feed,
      handle_resolve_copy, handle_guid_change_decision, handle_patch_track,
      handle_patch_feed_track, list_feed_blocks, get_track_for_feed, get_feed_by_guid,
      get_retired_source_hold, get_tracks_by_guid;
    cbv zeta; try apply quiet_token; repeat (apply Hp || quiet_step);
    first [ quiet_outcome quiet_create | quiet_outcome quiet_remove | quiet_outcome quiet_resolve
          | quiet_outcome quiet_decide | quiet_outcome quiet_release
          | quiet_outcome quiet_relocate_tx | apply quiet_never; repeat quiet_step ].
Qed.
End declined.

(** ** The invariants *)

(** A write of a feed row may change its URL to one that no other row has. *)
Lemma alter_row_store g f u db :
  (∀ row, Feed.feed_guid (FeedRow.feed (f row)) = Feed.feed_guid (FeedRow.feed row)) →
  (∀ row, Feed.feed_url (FeedRow.feed (f row)) = u) →
  (∀ k row, feeds db !! k = Some row → Feed.feed_url (FeedRow.feed row) = u → k = g) →
  store_ok db → store_ok (set_feeds (alter f g (feeds db)) db).
Proof.
  intros Hfg Hfu Hfree [(Hg & Ht & Hu) Hr]. split.
  - split_and!; cbn.
    + intros k row [(<- & old & Ho & ->)|(_ & Ho)]%lookup_alter_Some; [|by apply Hg].
      rewrite Hfg. by apply Hg.
    + intros f' t tr Htr. destruct (Ht f' t tr Htr) as (? & ? & He). split_and!; [done..|].
      by rewrite feed_exists_alter.
    + intros g1 g2 r1 r2 [(<- & o1 & Ho1 & ->)|(Hn1 & Ho1)]%lookup_alter_Some
        [(<- & o2 & Ho2 & ->)|(Hn2 & Ho2)]%lookup_alter_Some; [done|..].
      * rewrite Hfu. intros E. symmetry. by eapply Hfree.
      * rewrite Hfu. intros E. by eapply Hfree.
      * by eapply Hu.
  - revert Hr. unfold refs_ok, refs. intros (?&?&?&?&?&?&?&?&?&?&?&?&?&?).
    split_and!; intros r Hr;
      match goal with
      | Hall : ∀ r, r ∈ tbl_get ?T db → _ |- tbl_fk ?T _ _ = true =>
          specialize (Hall r Hr); revert Hall; clear; cbn; destruct r; cbn;
          rewrite ?feed_exists_alter; try done
      end.
Qed.

(** A write of the columns of a track row that are not of its key. *)
Lemma alter_track_store k f db :
  (∀ t, Track.feed_guid (f t) = Track.feed_guid t ∧ Track.track_guid (f t) = Track.track_guid t) →
  store_ok db → store_ok (set_tracks (alter f k (tracks db)) db).
Proof.
  intros Hf [(Hg & Ht & Hu) Hr].
  assert (∀ g t, track_exists (set_tracks (alter f k (tracks db)) db) g t = track_exists db g t) as He.
  { intros g t. unfold track_exists. cbn. destruct (decide (k = (g, t))) as [->|Hne].
    - rewrite lookup_alter_eq. by destruct (tracks db !! (g, t)).
    - by rewrite lookup_alter_ne. }
  split.
  - split_and!; [exact Hg| |exact Hu]. intros g t tr. cbn.
    intros [(-> & old & Ho & ->)|(_ & Ho)]%lookup_alter_Some; [|by apply Ht].
    destruct (Ht g t old Ho) as (? & ? & ?). destruct (Hf old) as [-> ->]. done.
  - revert Hr. unfold refs_ok, refs. intros (?&?&?&?&?&?&?&?&?&?&?&?&?&?).
    split_and!; intros r Hr;
      match goal with
      | Hall : ∀ r, r ∈ tbl_get ?T db → _ |- tbl_fk ?T _ _ = true =>
          specialize (Hall r Hr); revert Hall; clear -He; cbn;
          repeat match goal with |- context [match ?o with _ => _ end] => destruct o end;
          cbn; rewrite ?He; try done
      end.
Qed.

(** The parts of a route whose invariants are lemmas, then the code around. *)
Section admin_invariants.
Context `{Crates} (signer : string).

Lemma good_set_enclosure g t u : good (set_enclosure_url g t u).
Proof using Type.
  unfold set_enclosure_url.
  split_and!; [|apply keeps_events_log|apply keeps_tables_index]; [|solve [frame]..].
  intros db. by apply alter_track_store.
Qed.

Lemma good_delete_track g t id j s now ws :
  good (delete_track_with_event signer g t id j s now ws).
Proof using Type.
  unfold delete_track_with_event.
  split_and!; apply preserves_transaction, preserves_bind; intros; try apply _;
    try solve [eapply sign_log || eapply sign_store || eapply sign_index].
  apply keeps_events_log. open_operations. frame.
Qed.

Lemma good_relocation g u v : good (write_relocation_state g u v).
Proof using Type.
  unfold write_relocation_state, add_left_url, remove_left_url.
  split_and!; [apply keeps_store|apply keeps_events_log|apply keeps_index]; solve [frame].
Qed.

Lemma relocate_store uuids g u r now : Preserves store_ok (relocate_feed signer uuids g u r now).
Proof using Type.
  intros db Hdb. unfold relocate_feed. unfold mbind at 1, db_bind at 1, query at 1.
  destruct (existsb _ _) eqn:E; [done|].
  unfold mbind at 1, db_bind at 1, query at 1. destruct (_ <$> _) as [old|]; [|done].
  unfold set_source_url, update_feed_row. unfold mbind at 1, db_bind at 1, execute at 1.
  set (db1 := set_feeds _ db). assert (store_ok db1) as H1.
  { apply (alter_row_store g _ u); [done|done| |done]. intros k row Hk <-.
    destruct (decide (k = g)) as [->|Hne]; [done|]. exfalso.
    destruct Hdb as [(Hg & _) _].
    apply not_true_iff_false in E. apply E, existsb_exists.
    exists (FeedRow.feed row). split.
    - apply list_elem_of_In, elem_of_all_feeds. eauto.
    - rewrite String.eqb_refl. cbn. apply negb_true_iff, String.eqb_neq.
      by rewrite (Hg k row Hk). }
  revert H1. generalize db1. clear.
  match goal with |- ∀ d, store_ok d → store_ok (?m d).1 => change (Preserves store_ok m) end.
  unfold set_declared_self_url, clear_declared_new_feed_url.
  do 2 (apply preserves_bind; [apply update_row_preserves; done|intros _]).
  apply preserves_bind; [apply good_relocation|intros _]. repeat inv_step.
Qed.

Lemma good_relocate uuids g u r now : good (relocate_feed signer uuids g u r now).
Proof using Type.
  pose proof good_relocation as Hw.
  split_and!; [apply relocate_store|..]; unfold relocate_feed, set_source_url,
    set_declared_self_url, clear_declared_new_feed_url, update_feed_row;
    repeat (apply Hw || inv_step).
Qed.

Lemma good_read {A} (m : DB A) : (∀ G (g : Db → G), Keeps g m) → good m.
Proof using Type.
  intros K. split_and!; [apply keeps_store|apply keeps_events_log|apply keeps_tables_index]; apply K.
Qed.

Lemma good_release guid now : good (release_retired_source_hold guid now).
Proof using Type.
  split_and!; [apply keeps_store|apply keeps_events_log|apply keeps_tables_index]; apply _.
Qed.

Ltac adm_op :=
  first [ apply good_relocate | apply good_delete | apply good_delete_track
        | apply good_set_enclosure | apply good_release | inv_step ].

Lemma good_admin_route uuids now header token got req :
  good (admin_route signer uuids now header token got req).
Proof using Type.
  destruct req; cbn [admin_route];
    unfold handle_retire_feed, handle_remove_track, handle_create_block, handle_list_blocks,
      handle_delete_retired_source_hold, handle_delete_block, handle_patch_feed,
      handle_resolve_copy, handle_guid_change_decision, handle_patch_track,
      handle_patch_feed_track, patch_resolved_track, list_feed_blocks, get_track_for_feed,
      get_feed_by_guid, get_retired_source_hold, get_tracks_by_guid, create_block, remove_block,
      resolve_copy, settle_copy, decide_guid_change, patch_track, get_guid_change_for_old_guid,
      set_guid_change_decision, set_feed_copy_resolution, get_feed_copy, with_copy,
      get_feed_block_by_pair, with_admin_token, refuse, answer, get_payment_routes_for_feed_track,
      get_value_time_splits_for_feed_track;
    cbv zeta; split_and!; repeat adm_op.
Qed.
End admin_invariants.

(** ** Blocks that a retirement writes *)

Section retired.
Context `{Crates} (signer : string).

(** A row blocks the pair. *)
Definition blocked (kind : FeedBlockKind) (value : string) (rows : list FeedBlock) : Prop :=
  ∃ b, b ∈ rows ∧ FeedBlock.kind b = kind ∧ FeedBlock.value b = normalize kind value.

Lemma blocked_found kind value db :
  blocked kind value (feed_blocks db) →
  ∃ b, get_feed_block_by_pair kind value db = (db, Ok (Some b)).
Proof using Type.
  intros (b & Hb & Hk & Hv). unfold get_feed_block_by_pair, query.
  destruct (List.find _ _) as [b'|] eqn:E; [by exists b'|]. exfalso.
  apply list_elem_of_In in Hb. pose proof (List.find_none _ _ E b Hb) as Hn. cbn in Hn.
  rewrite Hk, Hv, String.eqb_refl in Hn. by rewrite bool_decide_eq_true_2 in Hn.
Qed.

Lemma pair_read kind value db : ∃ r, get_feed_block_by_pair kind value db = (db, Ok r).
Proof using Type. unfold get_feed_block_by_pair, query. eauto. Qed.

Lemma url_block_found urls u db :
  u ∈ urls → u ≠ ""%string → blocked FeedBlockKind.Url u (feed_blocks db) →
  ∃ b, find_url_block urls db = (db, Ok (Some b)).
Proof using Type.
  intros Hu Hne Hb. induction urls as [|v urls IH]; [by apply not_elem_of_nil in Hu|].
  cbn [find_url_block]. apply elem_of_cons in Hu as [<-|Hu].
  - assert (str_is_empty u = false) as -> by (by destruct u).
    destruct (blocked_found _ _ _ Hb) as [b E]. exists b.
    unfold mbind, db_bind. by rewrite E.
  - destruct (str_is_empty v); [by apply IH|]. destruct (IH Hu) as [b E].
    destruct (pair_read FeedBlockKind.Url v db) as [r Ep].
    unfold mbind, db_bind. rewrite Ep. destruct r as [b'|]; eauto.
Qed.

Lemma feed_block_found guid urls db :
  (∃ g, guid = Some g ∧ blocked FeedBlockKind.Guid g (feed_blocks db))
  ∨ (∃ u, u ∈ urls ∧ u ≠ ""%string ∧ blocked FeedBlockKind.Url u (feed_blocks db)) →
  ∃ b, find_feed_block guid urls db = (db, Ok (Some b)).
Proof using Type.
  intros Hb. unfold find_feed_block, mbind, db_bind. destruct guid as [g|]; cbn [mret db_ret].
  - destruct (pair_read FeedBlockKind.Guid g db) as [r Ep]. rewrite Ep.
    destruct r as [b|]; [by exists b|].
    destruct Hb as [(g' & [= <-] & Hb)|(u & Hu & Hne & Hb)]; [|by eapply url_block_found].
    destruct (blocked_found _ _ _ Hb) as [b E]. rewrite E in Ep. done.
  - destruct Hb as [(g & [=] & _)|(u & Hu & Hne & Hb)]. by eapply url_block_found.
Qed.

Lemma blocked_mono kind value l k : l ⊆ k → blocked kind value l → blocked kind value k.
Proof using Type. intros Hlk (b & Hb & ?). exists b. by split; [apply Hlk|]. Qed.

(** A block with a new id is in force after its insertion, whether it has
    written a row or found one for its pair. *)
Lemma insert_blocks b db :
  FeedBlock.block_id b ∉ (FeedBlock.block_id <$> feed_blocks db) →
  let db' := (insert_feed_block b db).1 in
  blocked (FeedBlock.kind b) (FeedBlock.value b) (feed_blocks db')
  ∧ feed_blocks db ⊆ feed_blocks db'
  ∧ (FeedBlock.block_id <$> feed_blocks db')
    ⊆ FeedBlock.block_id b :: (FeedBlock.block_id <$> feed_blocks db).
Proof using Type.
  intros Hid. unfold insert_feed_block. cbv zeta. destruct (existsb _ _) eqn:E; cbn [fst].
  - split_and!; [|done|by right].
    apply existsb_exists in E as (c & Hc%list_elem_of_In & Hcl). unfold block_clash in Hcl.
    cbn in Hcl. apply orb_true_iff in Hcl as [Hi|[Hk Hv]%andb_true_iff].
    + apply String.eqb_eq in Hi. destruct Hid. rewrite Hi. by apply list_elem_of_fmap_2.
    + apply bool_decide_eq_true in Hk. apply String.eqb_eq in Hv. exists c. split_and!; [done|by symmetry|by symmetry].
  - destruct (FeedBlock.kind b) eqn:Ek; cbn; (split_and!;
      [eexists; split; [apply elem_of_app; right; by left|done]
      |set_solver|rewrite fmap_app; cbn; set_solver]).
Qed.

Lemma block_events_force uuids bs now db db' evs :
  block_events signer uuids bs now db = (db', Ok evs) →
  NoDup (FeedBlock.block_id <$> bs) →
  (∀ b, b ∈ bs → FeedBlock.block_id b ∉ (FeedBlock.block_id <$> feed_blocks db)) →
  feed_blocks db ⊆ feed_blocks db'
  ∧ ∀ b, b ∈ bs → blocked (FeedBlock.kind b) (FeedBlock.value b) (feed_blocks db').
Proof using Type.
  revert uuids db evs. induction bs as [|b bs IH]; intros uuids db evs; cbn [block_events].
  { intros [= <- <-] _ _. split; [done|]. by intros b ?%not_elem_of_nil. }
  intros E [Hnb Hnd]%NoDup_cons Hnew.
  destruct (insert_blocks b db) as (Hb & Hsub & Hids); [apply Hnew; by left|].
  apply bind_ok in E as (d1 & ins & Hi & E). rewrite Hi in Hb, Hsub, Hids. cbn [fst] in *.
  assert (∃ u d2 more, block_events signer u bs now d2 = (db', Ok more)
    ∧ feed_blocks d2 = feed_blocks d1) as (u & d2 & more & Em & Hd).
  { destruct ins; cbn [negb] in E; [|by eauto].
    apply bind_ok in E as (d2 & s & Hs & E).
    apply bind_ok in E as (d3 & ev & [= <- _] & E).
    apply bind_ok in E as (d4 & more & Hm & [= <- <-]).
    do 3 eexists. split; [exact Hm|].
    assert (Keeps feed_blocks (sign_event_row signer
      (payload_row (EventPayload.FeedBlocked
         (FeedBlockedPayload.mk (FeedBlock.block_id b) (FeedBlock.kind b) (FeedBlock.value b)
            (FeedBlock.reason b) (FeedBlock.blocked_at b))) (FeedBlock.block_id b) now
         (new_v4 uuids)))) as K by apply _.
    specialize (K d1). by rewrite Hs in K. }
  destruct (IH u d2 more Em Hnd) as [Hs Hall].
  { intros c Hc Hin. rewrite Hd in Hin. apply Hids, elem_of_cons in Hin as [Hin|Hin].
    - apply Hnb. rewrite <-Hin. by apply list_elem_of_fmap_2.
    - by eapply Hnew; [right|]. }
  rewrite Hd in Hs. split; [by etrans|]. intros c [->|Hc]%elem_of_cons; [|by apply Hall].
  by eapply blocked_mono.
Qed.
End retired.
