(* ===== verification/Delivery.v ===== *)
(** From the log of the primary to the database of a replica: the page that a
    peer receives, and the batch that it applies. *)

From S2P Require Import Prelude.
From S2P Require Import Model.
From S2P Require Import Event.
From S2P Require Import Crates.
From S2P Require Import Store.
From S2P Require Import Snapshot.
From S2P Require Import EventLog.
From S2P Require Import Diff.
From S2P Require Import Apply.
From S2P Require Import Frames.
From S2P Require Import Parts.
From S2P Require Import Ingested.

(** How a replica takes the events of a batch (src/apply.rs) when each of
    them can be applied.

    [delivered] is one event that applies; [delivers evs P Q] says that the
    events of [evs], applied in order from a state with [P], all apply and
    leave a state with [Q]. [batch_delivered] and [apply_events_delivered]
    turn that into a fact about the batch. *)

Section delivery.
Context `{Crates}.

(** The payload that the signed bytes of an event hold. *)
Definition carries (ev : Event) (p : EventPayload) : Prop :=
  parse_event (Event.event_type ev) (Event.payload_json ev) = Some p.

Definition log_event (ev : Event) (db : Db) : Db :=
  set_events (events db ++ [LogRow.mk (Event.event_id ev) (Event.event_type ev)
    (Event.payload_json ev) (Event.subject_guid ev) (Event.signed_by ev)
    (Event.signature ev) (next_seq db) (Event.created_at ev) (Event.warnings ev)]) db.

(** An event whose id has a row is a duplicate and changes nothing. *)
Lemma apply_inner_duplicate now ev db :
  event_id_taken db (Event.event_id ev) = true →
  apply_single_event_inner now ev db = (db, Ok ApplyOutcome.Duplicate).
Proof using Type.
  intros Ht. unfold apply_single_event_inner, insert_event_idempotent, mbind, db_bind.
  by rewrite Ht.
Qed.

(** What a fresh event does: its row, then its payload. *)
Lemma apply_inner_fresh now ev db :
  event_id_taken db (Event.event_id ev) = false →
  apply_single_event_inner now ev db =
  match parse_event (Event.event_type ev) (Event.payload_json ev) with
  | None => (log_event ev db, Err Json)
  | Some p =>
      match apply_payload now (Event.created_at ev) p (log_event ev db) with
      | (db', Ok _) => (db', Ok (ApplyOutcome.Applied (next_seq db)))
      | (db', Err e) => (db', Err e)
      end
  end.
Proof using Type.
  intros Ht. unfold apply_single_event_inner, insert_event_idempotent,
    deserialize_verified_payload, mbind, db_bind. rewrite Ht. fold (log_event ev db).
  destruct (parse_event _ _) as [p|]; [|done]. by destruct (apply_payload _ _ _ _) as [? []].
Qed.

Lemma event_id_taken_true db id :
  event_id_taken db id = true ↔ id ∈ LogRow.event_id <$> events db.
Proof using Type.
  destruct (event_id_taken db id) eqn:E; split; try done.
  - intros _. destruct (decide (id ∈ LogRow.event_id <$> events db)) as [|Hn]; [done|].
    by apply event_id_taken_false in Hn; rewrite E in Hn.
  - intros Hin. by apply event_id_taken_false in E.
Qed.

(** One event in a transaction of its own, by outcome. *)
Lemma apply_single_taken now ev db :
  event_id_taken db (Event.event_id ev) = true →
  apply_single_event now ev db = (db, Ok ApplyOutcome.Duplicate).
Proof using Type.
  intros Ht. unfold apply_single_event, transaction, mbind, db_bind.
  by rewrite apply_inner_duplicate.
Qed.

Lemma apply_single_applied now ev db db' seq :
  apply_single_event now ev db = (db', Ok (ApplyOutcome.Applied seq)) →
  event_id_taken db (Event.event_id ev) = false ∧ seq = next_seq db
  ∧ ∃ d, apply_single_event_inner now ev db = (d, Ok (ApplyOutcome.Applied seq))
      ∧ db' = (upsert_node_sync_state SYNC_CURSOR_KEY (Event.seq ev) now d).1.
Proof using Type.
  destruct (event_id_taken db (Event.event_id ev)) eqn:Ht.
  { by rewrite apply_single_taken. }
  unfold apply_single_event, transaction, mbind, db_bind.
  destruct (apply_single_event_inner now ev db) as [d [[s|]|]] eqn:Ei; try done.
  cbn. intros [= <- ->]. pose proof Ei as Ei'. rewrite apply_inner_fresh in Ei by done.
  destruct (parse_event _ _) as [p|]; [|done].
  destruct (apply_payload _ _ _ _) as [d' [|]]; [|done].
  injection Ei as -> ->. split_and!; [done..|]. by exists d.
Qed.

Lemma apply_single_duplicate now ev db db' :
  apply_single_event now ev db = (db', Ok ApplyOutcome.Duplicate) →
  db' = db ∧ event_id_taken db (Event.event_id ev) = true.
Proof using Type.
  destruct (event_id_taken db (Event.event_id ev)) eqn:Ht.
  { rewrite apply_single_taken by done. by intros [= ->]. }
  unfold apply_single_event, transaction, mbind, db_bind. rewrite apply_inner_fresh by done.
  destruct (parse_event _ _) as [p|]; [|done].
  by destruct (apply_payload _ _ _ _) as [d' [|]].
Qed.

Lemma apply_inner_events now ev db d seq :
  apply_single_event_inner now ev db = (d, Ok (ApplyOutcome.Applied seq)) →
  events d = events (log_event ev db).
Proof using Type.
  destruct (event_id_taken db (Event.event_id ev)) eqn:Ht.
  { by rewrite apply_inner_duplicate. }
  rewrite apply_inner_fresh by done. destruct (parse_event _ _) as [p|]; [|done].
  pose proof (keeps (g := events) (m := apply_payload now (Event.created_at ev) p)
    (log_event ev db)) as K.
  destruct (apply_payload _ _ _ _) as [d' [|]]; [|done]. by intros [= -> _].
Qed.

Definition delivered (now : Z) (ev : Event) : DB unit := λ db,
  match apply_single_event_inner now ev db with
  | (db', Ok (ApplyOutcome.Applied _)) => (db', Ok tt)
  | (db', Ok ApplyOutcome.Duplicate) => (db', Err (Other "duplicate"))
  | (db', Err e) => (db', Err e)
  end.

Definition ids (evs : list Event) : list string := Event.event_id <$> evs.

Definition fresh_ids (evs : list Event) (db : Db) : Prop :=
  NoDup (ids evs) ∧ ∀ id, id ∈ ids evs → event_id_taken db id = false.

Definition delivers (now : Z) (evs : list Event) (P Q : Db → Prop) : Prop :=
  ∀ db, fresh_ids evs db → P db →
  ∃ db', for_each (delivered now) evs db = (db', Ok tt) ∧ Q db'
    ∧ LogRow.event_id <$> events db' = (LogRow.event_id <$> events db) ++ ids evs.

Lemma delivers_nil now (P : Db → Prop) : delivers now [] P P.
Proof using Type. intros db _ HP. exists db. split_and!; [done..|]. by rewrite app_nil_r. Qed.

Lemma delivers_app now evs1 evs2 (P Q R : Db → Prop) :
  delivers now evs1 P Q → delivers now evs2 Q R → delivers now (evs1 ++ evs2) P R.
Proof using Type.
  intros H1 H2 db [Hnd Hfr] HP. unfold ids in *. rewrite fmap_app in Hnd, Hfr.
  apply NoDup_app in Hnd as (N1 & N12 & N2).
  destruct (H1 db) as (d & E1 & HQ & L1); [split; [done|intros; apply Hfr; set_solver]|done|].
  destruct (H2 d) as (d' & E2 & HR & L2); [split; [done|]|done|].
  - intros id Hid. apply event_id_taken_false. rewrite L1. apply not_elem_of_app. split.
    + apply event_id_taken_false, Hfr. set_solver.
    + intros Hin. by apply (N12 id).
  - exists d'. split_and!; [|done|].
    + apply for_each_app_ok. eauto.
    + rewrite L2, L1. unfold ids. by rewrite fmap_app, app_assoc.
Qed.

Lemma delivers_impl now evs (P P' Q Q' : Db → Prop) :
  (∀ db, P' db → P db) → (∀ db, Q db → Q' db) → delivers now evs P Q → delivers now evs P' Q'.
Proof using Type.
  intros HP HQ Hd db Hf Hp. destruct (Hd db Hf (HP db Hp)) as (d & ? & ? & ?). eauto.
Qed.

(** A state predicate that does not look at the log. *)
Definition unlogged (P : Db → Prop) : Prop := ∀ x db, P db → P (set_events x db).

Lemma delivers_one now ev p (P Q : Db → Prop) :
  carries ev p → unlogged P →
  (∀ db, P db → ∃ db', apply_payload now (Event.created_at ev) p db = (db', Ok tt) ∧ Q db') →
  delivers now [ev] P Q.
Proof using Type.
  intros Hc Hu Hp db [_ Hfr] HP. specialize (Hfr (Event.event_id ev) ltac:(left)).
  destruct (Hp (log_event ev db)) as (d & Ha & HQ); [by apply Hu|].
  exists d. split_and!; [|done|].
  - cbn. unfold mbind, db_bind, delivered. rewrite apply_inner_fresh by done. rewrite Hc.
    by rewrite Ha.
  - apply (f_equal (events ∘ fst)) in Ha. cbn in Ha. rewrite <-Ha.
    rewrite (keeps (g := events) (log_event ev db)). unfold log_event. cbn.
    by rewrite fmap_app.
Qed.

(** The same for any events that carry the payloads of a list. *)
Definition handles (now : Z) (ps : list EventPayload) (P Q : Db → Prop) : Prop :=
  ∀ evs, Forall2 carries evs ps → delivers now evs P Q.

Lemma handles_nil now (P : Db → Prop) : handles now [] P P.
Proof using Type. intros evs ->%Forall2_nil_inv_r. apply delivers_nil. Qed.

Lemma handles_app now ps1 ps2 (P Q R : Db → Prop) :
  handles now ps1 P Q → handles now ps2 Q R → handles now (ps1 ++ ps2) P R.
Proof using Type.
  intros H1 H2 evs (e1 & e2 & F1 & F2 & ->)%Forall2_app_inv_r.
  eapply delivers_app; [by apply H1|by apply H2].
Qed.

Lemma handles_cons now p ps (P Q R : Db → Prop) :
  handles now [p] P Q → handles now ps Q R → handles now (p :: ps) P R.
Proof using Type. apply (handles_app now [p]). Qed.

Lemma handles_one now p (P Q : Db → Prop) :
  unlogged P →
  (∀ c db, P db → ∃ db', apply_payload now c p db = (db', Ok tt) ∧ Q db') →
  handles now [p] P Q.
Proof using Type.
  intros Hu Hp evs (ev & l & Hc & ->%Forall2_nil_inv_r & ->)%Forall2_cons_inv_r.
  eapply delivers_one; eauto.
Qed.

Lemma handles_impl now ps (P P' Q Q' : Db → Prop) :
  (∀ db, P' db → P db) → (∀ db, Q db → Q' db) → handles now ps P Q → handles now ps P' Q'.
Proof using Type. intros HP HQ Hh evs He. eapply delivers_impl; eauto. Qed.

(** ** Batches *)

Definition max_event_seq (evs : list Event) (m : Z) : Z :=
  foldl (λ m ev, Z.max m (Event.seq ev)) m evs.

(** Reading the live events that an event replaces does not fail. *)
Lemma live_diff_carries ev p db :
  carries ev p → ∃ nd, live_diff_of ev db = (db, Ok nd).
Proof using Type.
  intros Hp. unfold live_diff_of, deserialize_verified_payload, mbind, db_bind. rewrite Hp.
  destruct p; eexists; reflexivity.
Qed.

Lemma batch_delivered now evs db db' sum ap df mx :
  for_each (delivered now) evs db = (db', Ok tt) →
  ∃ ap' df' ms, batch_loop now evs (sum, ap, df, mx) db
    = (db', Ok (ApplySummary.mk (ApplySummary.applied sum + Z.of_nat (length evs))
                  (ApplySummary.duplicate sum) (ApplySummary.rejected sum) ms,
                ap', df', max_event_seq evs mx)).
Proof using Type.
  revert db sum ap df mx. induction evs as [|ev evs IH]; intros db sum ap df mx Hd.
  { injection Hd as ->. exists ap, df, (ApplySummary.max_seq sum). cbn. destruct sum. cbn.
    by rewrite Z.add_0_r. }
  apply for_each_ok in Hd as (d & Hev & Hd). cbn [batch_loop]. unfold mbind at 1, db_bind at 1.
  unfold delivered in Hev.
  destruct (apply_single_event_inner now ev db) as [d0 [[seq|]|]] eqn:E; try done.
  injection Hev as ->.
  assert (∃ p, carries ev p) as [p Hp].
  { destruct (event_id_taken db (Event.event_id ev)) eqn:Et.
    - by rewrite apply_inner_duplicate in E by done.
    - rewrite apply_inner_fresh in E by done. unfold carries.
      destruct (parse_event _ _) as [p|]; [eauto|done]. }
  destruct (live_diff_carries ev p db Hp) as [nd Hnd].
  unfold batch_step. rewrite Hnd, E.
  destruct (IH d (ApplySummary.mk (ApplySummary.applied sum + 1) (ApplySummary.duplicate sum)
    (ApplySummary.rejected sum)
    (Z.max (Z.max (ApplySummary.max_seq sum) seq) (Event.seq ev)))
    (ap ++ [(ev, seq)]) (df ++ nd) (Z.max mx (Event.seq ev)) Hd) as (ap' & df' & ms & ->).
  exists ap', df', ms. cbn. do 6 f_equal. lia.
Qed.

Lemma batch_duplicates now evs db sum ap df mx :
  Forall (λ ev, event_id_taken db (Event.event_id ev) = true ∧ ∃ p, carries ev p) evs →
  ∃ df', batch_loop now evs (sum, ap, df, mx) db
    = (db, Ok (ApplySummary.mk (ApplySummary.applied sum)
                 (ApplySummary.duplicate sum + Z.of_nat (length evs))
                 (ApplySummary.rejected sum) (ApplySummary.max_seq sum),
               ap, df', max_event_seq evs mx)).
Proof using Type.
  intros Hev. revert sum df mx. induction Hev as [|ev evs [Ht [p Hp]] Hev IH]; intros sum df mx.
  { exists df. cbn. destruct sum. cbn. by rewrite Z.add_0_r. }
  cbn [batch_loop]. unfold mbind at 1, db_bind at 1, batch_step.
  destruct (live_diff_carries ev p db Hp) as [nd ->].
  rewrite apply_inner_duplicate by done.
  destruct (IH (ApplySummary.mk (ApplySummary.applied sum) (ApplySummary.duplicate sum + 1)
    (ApplySummary.rejected sum) (ApplySummary.max_seq sum)) (df ++ nd) (Z.max mx (Event.seq ev)))
    as [df' ->].
  exists df'. cbn. do 6 f_equal. lia.
Qed.

(** The state after the cursor of a batch was set. *)
Definition cursor_at (now q : Z) (db : Db) : Db :=
  if 0 <? q then (upsert_node_sync_state SYNC_CURSOR_KEY q now db).1 else db.

(** What a batch gives from what its loop gives. *)
Lemma apply_events_loop now evs db d sum ap df q :
  evs ≠ [] → Forall (λ ev, verify_event_signature ev = true) evs →
  batch_loop now evs batch_start db = (d, Ok (sum, ap, df, q)) →
  apply_events now evs db
  = (cursor_at now q d,
     ApplySummary.mk (ApplySummary.applied sum) (ApplySummary.duplicate sum)
       (ApplySummary.rejected sum) (Z.max 0 (ApplySummary.max_seq sum)), ap, df).
Proof using Type.
  intros Hne Hv Hb. unfold apply_events. rewrite filter_all by (by apply Forall_forall).
  destruct evs as [|ev evs]; [done|].
  unfold apply_batch, transaction, mbind, db_bind. rewrite Hb. unfold cursor_at.
  destruct (0 <? q); cbn; do 4 f_equal; lia.
Qed.

(** All the events apply, and the cursor moves up to the last of them. *)
Lemma apply_events_delivered now evs db d :
  evs ≠ [] →
  Forall (λ ev, verify_event_signature ev = true) evs →
  for_each (delivered now) evs db = (d, Ok tt) →
  ∃ ms ap df,
    apply_events now evs db
      = (cursor_at now (max_event_seq evs 0) d,
         ApplySummary.mk (Z.of_nat (length evs)) 0 0 ms, ap, df).
Proof using Type.
  intros Hne Hv Hd.
  destruct (batch_delivered now _ _ _ (ApplySummary.mk 0 0 0 0) [] [] 0 Hd)
    as (ap & df & ms & Hb).
  exists (Z.max 0 ms), ap, df. by rewrite (apply_events_loop _ _ _ _ _ _ _ _ Hne Hv Hb).
Qed.
End delivery.

(** From the rows that an ingest signs to the events that a peer receives:
    the page after a cursor, its signatures and its payloads. *)

Section publish.
Context `{Crates}.

(** A row of the log that holds a payload. *)
Definition row_holds (er : EventRow) (p : EventPayload) : Prop :=
  EventRow.event_type er = payload_type p ∧ EventRow.payload_json er = event_json p.

Lemma new_rows_length signer n rows : length (new_rows signer n rows) = length rows.
Proof using Type. apply length_imap. Qed.

Lemma new_rows_seq signer n rows r :
  r ∈ new_rows signer n rows → n ≤ LogRow.seq r < n + Z.of_nat (length rows).
Proof using Type.
  revert n. induction rows as [|er rows IH]; intros n.
  { unfold new_rows. rewrite imap_nil. set_solver. }
  rewrite new_rows_cons. cbn [length]. intros [->|Hr]%elem_of_cons; [cbn; lia|].
  specialize (IH _ Hr). lia.
Qed.

Lemma new_rows_sorted signer n rows :
  StronglySorted (leR by_seq) (new_rows signer n rows).
Proof using Type.
  revert n. induction rows as [|er rows IH]; intros n; [constructor|].
  rewrite new_rows_cons. constructor; [done|]. apply Forall_forall. intros r Hr.
  apply new_rows_seq in Hr. unfold leR, by_seq. apply Z.leb_le. cbn. lia.
Qed.

(** A page that starts where the ingest started holds its rows. *)
Lemma rows_since_new signer rows db db' limit :
  events db' = events db ++ new_rows signer (next_seq db) rows →
  Z.of_nat (length rows) ≤ limit →
  rows_since (next_seq db - 1) limit db' = new_rows signer (next_seq db) rows.
Proof using Type.
  intros Hev Hlim. unfold rows_since. rewrite Hev, List.filter_app.
  rewrite filter_none; [rewrite filter_all; cbn [app]|].
  - rewrite (sort_by_id by_seq) by apply new_rows_sorted.
    apply take_ge. rewrite new_rows_length. lia.
  - intros r Hr%new_rows_seq. apply Z.ltb_lt. lia.
  - intros r Hr%next_seq_above. apply Z.ltb_ge. lia.
Qed.

Lemma new_rows_ids signer n rows :
  LogRow.event_id <$> new_rows signer n rows = EventRow.event_id <$> rows.
Proof using Type.
  revert n. induction rows as [|er rows IH]; intros n; [done|].
  rewrite new_rows_cons, !fmap_cons. cbn. by rewrite IH.
Qed.

Lemma new_rows_elem signer n rows r :
  r ∈ new_rows signer n rows → ∃ i er, er ∈ rows ∧ r = signed_row signer i er.
Proof using Type.
  revert n. induction rows as [|er rows IH]; intros n.
  { unfold new_rows. rewrite imap_nil. set_solver. }
  rewrite new_rows_cons. intros [->|Hr]%elem_of_cons; [exists n, er; set_solver|].
  destruct (IH _ Hr) as (i & er' & ? & ->). exists i, er'. set_solver.
Qed.

(** An event read back from a new row verifies. *)
Lemma new_row_verifies signer n rows r ev :
  (∀ d, ed25519_verify (public_key signer) d (ed25519_sign signer d) = true) →
  (∀ er, er ∈ rows → EventRow.payload_json er ≠ ""%string) →
  r ∈ new_rows signer n rows → event_of_row r = Ok ev → verify_event_signature ev = true.
Proof using Type.
  intros Hsig Hj (i & er & Her & ->)%new_rows_elem. unfold event_of_row.
  destruct (parse_event _ _) as [p|]; [|done]. intros [= <-].
  unfold verify_event_signature. cbn. rewrite andb_true_iff. split.
  - apply negb_true_iff. unfold str_is_empty. by apply String.eqb_neq, Hj.
  - apply Hsig.
Qed.

Lemma elem_of_number_rows er n (fs : list (string → EventRow)) :
  er ∈ number_rows n fs → ∃ f i, er = f (new_v4 (n + i)) ∧ f ∈ fs.
Proof using Type.
  unfold number_rows. intros (i & f & -> & Hf)%elem_of_lookup_imap.
  exists f, i. split; [done|]. by eapply list_elem_of_lookup_2.
Qed.

(** ** Pages *)

Lemma sorted_by_seq l : StronglySorted Z.lt (LogRow.seq <$> l) → StronglySorted (leR by_seq) l.
Proof using Type.
  induction l as [|r l IH]; rewrite ?fmap_cons; intros Hs; [constructor|].
  apply StronglySorted_inv in Hs as [Hs Hr]. constructor; [auto|].
  apply Forall_forall. intros x Hx. unfold leR, by_seq. apply Z.leb_le.
  rewrite Forall_forall in Hr. specialize (Hr _ (list_elem_of_fmap_2 LogRow.seq _ _ Hx)). lia.
Qed.

(** The rows of a log in order are sorted already. *)
Lemma rows_since_ok db c n :
  log_ok db →
  rows_since c n db = take (Z.to_nat n) (List.filter (λ r, c <? LogRow.seq r) (events db)).
Proof using Type.
  intros (Hs & _ & _). unfold rows_since. f_equal. apply sort_by_id, sorted_by_seq.
  eapply StronglySorted_sublist; [|exact Hs]. apply sublist_fmap, filter_sublist.
Qed.

(** The rows above the last row of a prefix of a sorted log are the rest. *)
Lemma filter_after (l k : list LogRow) row :
  StronglySorted Z.lt (LogRow.seq <$> (l ++ row :: k)) →
  List.filter (λ r, LogRow.seq row <? LogRow.seq r) (l ++ row :: k) = k.
Proof using Type.
  intros Hs. rewrite fmap_app, fmap_cons in Hs.
  apply StronglySorted_app in Hs as (Hlk & Hl & Hrk).
  apply StronglySorted_inv in Hrk as [Hk Hrow]. rewrite List.filter_app. cbn [List.filter].
  rewrite (filter_none _ l).
  - rewrite Z.ltb_irrefl. cbn. apply filter_all. intros r Hr. apply Z.ltb_lt.
    rewrite Forall_forall in Hrow. apply Hrow. by apply list_elem_of_fmap_2.
  - intros r Hr. apply Z.ltb_ge. specialize (Hlk (LogRow.seq r) (LogRow.seq row)).
    specialize (Hlk ltac:(by apply list_elem_of_fmap_2) ltac:(left)). lia.
Qed.

Lemma filter_mono (p q : LogRow → bool) l :
  (∀ r, q r = true → p r = true) → List.filter q (List.filter p l) = List.filter q l.
Proof using Type.
  intros Hpq. induction l as [|r l IH]; [done|]. cbn. destruct (p r) eqn:Hp; cbn; [by rewrite IH|].
  destruct (q r) eqn:Hq; [|done]. by rewrite (Hpq r Hq) in Hp.
Qed.

Lemma rows_since_continue db c m n row page :
  log_ok db → 0 ≤ m → 0 ≤ n →
  rows_since c m db = page ++ [row] →
  Z.of_nat (length (page ++ [row])) = m →
  rows_since c (m + n) db = page ++ [row] ++ rows_since (LogRow.seq row) n db
  ∧ (∀ r, r ∈ page ++ [row] → c < LogRow.seq r ≤ LogRow.seq row)
  ∧ (∀ r, r ∈ events db → c < LogRow.seq r ≤ LogRow.seq row → r ∈ page ++ [row]).
Proof using Type.
  intros Hlog Hm Hn Hp Hlen. rewrite (rows_since_ok db c m Hlog) in Hp.
  rewrite !rows_since_ok by done. destruct Hlog as (Hs & _ & _).
  set (above := λ r, c <? LogRow.seq r) in *. set (l := List.filter above (events db)) in *.
  assert (l = page ++ row :: drop (Z.to_nat m) l) as El.
  { rewrite <-(take_drop (Z.to_nat m) l) at 1. by rewrite Hp, <-app_assoc. }
  assert (StronglySorted Z.lt (LogRow.seq <$> l)) as Hsl.
  { revert Hs. apply StronglySorted_sublist, sublist_fmap, filter_sublist. }
  assert (c < LogRow.seq row) as Hc.
  { assert (row ∈ l) as [Hr _]%elem_of_filterb by (rewrite El; set_solver). by apply Z.ltb_lt. }
  assert (List.filter (λ r, LogRow.seq row <? LogRow.seq r) (events db) = drop (Z.to_nat m) l)
    as Erest.
  { rewrite <-(filter_mono above) by (intros r Hr; unfold above; bool_facts; apply Z.ltb_lt; lia).
    fold l. rewrite El at 1. rewrite El in Hsl. by apply filter_after. }
  rewrite Erest. split_and!.
  - replace (Z.to_nat (m + n)) with (Z.to_nat m + Z.to_nat n)%nat by lia.
    rewrite <-take_take_drop, Hp. by rewrite <-app_assoc.
  - intros r Hr. assert (r ∈ l) as [Hra _]%elem_of_filterb by (rewrite El; set_solver).
    unfold above in Hra. bool_facts. split; [done|].
    apply elem_of_app in Hr as [Hr| ->%list_elem_of_singleton]; [|lia].
    rewrite El, fmap_app in Hsl. apply StronglySorted_app in Hsl as (Hlt & _ & _).
    specialize (Hlt (LogRow.seq r) (LogRow.seq row) ltac:(by apply list_elem_of_fmap_2)
      ltac:(left)). lia.
  - intros r Hr Hrc. assert (r ∈ l) as Hl
      by (apply elem_of_filterb; split; [apply Z.ltb_lt; lia|done]).
    rewrite El, <-Erest in Hl. rewrite elem_of_app, elem_of_cons in Hl.
    destruct Hl as [?|[->|[Hgt _]%elem_of_filterb]]; [set_solver..|]. bool_facts. lia.
Qed.

(** What is taken from [serde_json] and [ed25519_dalek]: the payloads of the
    rows parse back, no JSON text is empty, and a signature verifies under
    the public key of the secret key that made it. *)
Record crates_ok (signer : string) (rows : list EventRow) : Prop := {
  json_decodes : ∀ p, event_json p ∈ EventRow.payload_json <$> rows → decodes p;
  json_nonempty : ∀ p, event_json p ≠ ""%string;
  signature_ok : ∀ d, ed25519_verify (public_key signer) d (ed25519_sign signer d) = true
}.

Lemma rows_decode signer rows ps :
  crates_ok signer rows → Forall2 row_holds rows ps → Forall decodes ps.
Proof using Type.
  intros Hc Hr. apply Forall_forall. intros p [i Hi]%list_elem_of_lookup.
  destruct (Forall2_lookup_r _ _ _ _ _ Hr Hi) as (er & Her & _ & Hj).
  apply (json_decodes _ _ Hc). rewrite <-Hj. apply list_elem_of_fmap_2.
  by eapply list_elem_of_lookup_2.
Qed.

Context (signer : string) (all_rows : list EventRow) (Hcrates : crates_ok signer all_rows).

(** The events of the new rows. *)
Lemma new_rows_events n rows ps :
  Forall2 row_holds rows ps → Forall decodes ps →
  ∃ evs, collect_results event_of_row (new_rows signer n rows) = Ok evs
    ∧ Forall2 carries evs ps
    ∧ ids evs = EventRow.event_id <$> rows
    ∧ Forall (λ ev, verify_event_signature ev = true) evs
    ∧ Event.seq <$> evs = LogRow.seq <$> new_rows signer n rows.
Proof using Hcrates.
  intros Hr. revert n. induction Hr as [|er p rows ps [Ht Hj] Hr IH]; intros n Hd.
  { exists []. split_and!; constructor. }
  apply Forall_cons in Hd as [Hp Hd]. destruct (IH (n + 1) Hd) as (evs & Hc & Hf & Hi & Hv & Hs).
  rewrite new_rows_cons. cbn [collect_results]. unfold event_of_row at 1.
  cbn [signed_row sign_event LogRow.event_type LogRow.payload_json].
  rewrite Ht, Hj, Hp. cbn [rbind]. rewrite Hc. cbn [rbind].
  eexists. split; [reflexivity|]. split_and!.
  - constructor; [|done]. exact Hp.
  - unfold ids in *. by rewrite !fmap_cons, Hi.
  - constructor; [|done]. unfold verify_event_signature. cbn.
    rewrite andb_true_iff. split.
    + apply negb_true_iff. unfold str_is_empty. apply String.eqb_neq, (json_nonempty _ _ Hcrates).
    + rewrite <-Ht, <-Hj. apply (signature_ok _ _ Hcrates).
  - by rewrite !fmap_cons, Hs.
Qed.

Lemma max_event_seq_new n rows evs m :
  Event.seq <$> evs = LogRow.seq <$> new_rows signer n rows → m ≤ n → rows ≠ [] →
  max_event_seq evs m = n + Z.of_nat (length rows) - 1.
Proof using Type.
  revert n evs m. induction rows as [|er rows IH]; intros n evs m; [done|].
  rewrite new_rows_cons. destruct evs as [|ev evs]; [done|].
  rewrite !fmap_cons. intros [= Hev Hevs] Hm _. cbn [max_event_seq foldl]. rewrite Hev.
  destruct rows as [|er' rows].
  - destruct evs; [|done]. cbn. lia.
  - fold (max_event_seq evs (Z.max m n)). rewrite (IH (n + 1)); [cbn [length]; lia|done|lia|done].
Qed.
End publish.
