(* ===== verification/Replication.v ===== *)
(** What a replica has in the end: of a new feed, and after a drain. *)

From S2P Require Import Prelude.
From S2P Require Import Model.
From S2P Require Import Event.
From S2P Require Import Crates.
From S2P Require Import Store.
From S2P Require Import Tables.
From S2P Require Import Snapshot.
From S2P Require Import RowLists.
From S2P Require Import Search.
From S2P Require Import Catalog.
From S2P Require Import Quality.
From S2P Require Import Feeds.
From S2P Require Import Integrity.
From S2P Require Import EventLog.
From S2P Require Import Diff.
From S2P Require Import Moves.
From S2P Require Import IngestTx.
From S2P Require Import Apply.
From S2P Require Import Sync.
From S2P Require Import Community.
From S2P Require Import Frames.
From S2P Require Import Replica.
From S2P Require Import Parts.
From S2P Require Import Ingested.
From S2P Require Import Delivery.

(** From the ingest of a new feed on the primary to the same feed on a
    replica: the events of the ingest, applied by the replica, leave there
    what the ingest left on the primary. *)

(** ** What the readers of a feed see *)

(** The eleven lists. *)
Definition feed_side (db : Db) :=
  (feed_payment_routes db, feed_list_value_raw db, feed_remote_items_raw db, live_events db,
   source_contributor_claims db, source_entity_ids db, source_entity_links db,
   source_release_claims db, source_item_enclosures db, source_item_transcripts db,
   source_platform_claims db).

(** The three lists of the tracks. *)
Definition track_side (db : Db) :=
  (payment_routes db, value_time_splits db, track_remote_items_raw db).

Definition index_side (db : Db) := (search_index db, search_entities db).

Lemma feed_side_list db db' l :
  feed_side db' = feed_side db → tbl_get (list_table l) db' = tbl_get (list_table l) db.
Proof. unfold feed_side. intros. destruct l; cbn; congruence. Qed.

Lemma track_side_list db db' k :
  track_side db' = track_side db → tbl_get (track_table k) db' = tbl_get (track_table k) db.
Proof. unfold track_side. intros. destruct k; cbn; congruence. Qed.

Lemma index_side_ok `{Crates} db db' : index_side db' = index_side db → index_ok db → index_ok db'.
Proof. unfold index_side, index_ok. intros [= -> ->]. done. Qed.

(** Two nodes have the same feed: its row, its tracks, and each list of the feed
    and of its tracks, as it is read and with all columns of its rows. The local
    [id] of a row is not part of it. *)
Record same_feed (g : string) (db db' : Db) : Prop := {
  same_row : FeedRow.feed <$> feeds db' !! g = FeedRow.feed <$> feeds db !! g;
  same_tracks : ∀ t, tracks db' !! (g, t) = tracks db !! (g, t);
  same_lists : ∀ l, snap_same (list_table l) g db db';
  same_track_lists : ∀ t k, is_Some (tracks db !! (g, t)) →
    snap_same (track_table k) (g, t) db db'
}.

(** A statement on one feed list touches nothing else of these. *)
Lemma list_replace_keeps l g rows :
  Keeps feeds (snap_replace (list_table l) g rows)
  ∧ Keeps tracks (snap_replace (list_table l) g rows)
  ∧ Keeps track_side (snap_replace (list_table l) g rows)
  ∧ Keeps index_side (snap_replace (list_table l) g rows).
Proof. split_and!; apply keeps_snap_replace; by destruct l. Qed.

Lemma track_replace_keeps x k :
  Keeps feeds (track_replace x k) ∧ Keeps tracks (track_replace x k)
  ∧ Keeps feed_side (track_replace x k) ∧ Keeps index_side (track_replace x k).
Proof. split_and!; apply keeps_snap_replace; by destruct k. Qed.

Section replication.
Context `{Crates}.

Lemma sync_keeps now g :
  Keeps feeds (sync_source_read_models_for_feed now g)
  ∧ Keeps tracks (sync_source_read_models_for_feed now g)
  ∧ Keeps feed_side (sync_source_read_models_for_feed now g)
  ∧ Keeps track_side (sync_source_read_models_for_feed now g).
Proof using Type. split_and!; apply _. Qed.

(** With an index in step the read models never fail. *)
Lemma sync_ok now g db :
  index_ok db →
  ∃ db', sync_source_read_models_for_feed now g db = (db', Ok tt) ∧ index_ok db'.
Proof using Type.
  apply safe_ok. assert (∀ keep ty id n t d, Safe index_ok (sync_entry keep ty id n t d)) as He.
  { intros [] *; intros d' Hd; [by apply populate_index_ok|by apply delete_index_ok]. }
  unfold sync_source_read_models_for_feed, sync_track, get_feed_by_guid, get_tracks_for_feed,
    compute_feed_quality, compute_track_quality_for_feed_track, store_quality.
  repeat match goal with
  | |- Safe _ (mbind _ _) => apply safe_bind; [|intros ?]
  | |- Safe _ (for_each _ _) => apply safe_for_each; intros ?
  | |- Safe _ (sync_entry _ _ _ _ _ _) => apply He
  | |- Safe _ (match ?x with _ => _ end) => destruct x
  | |- Safe _ (query _) => by intros ? ?
  | |- Safe _ (execute _) => by intros ? ?
  | |- Safe _ (mret _) => by intros ? ?
  end.
Qed.

(** ** The payloads of a new feed *)

Definition track_payloads (x : TrackIngestBundle) : list EventPayload :=
  let '(track, routes, vts, items) := x in
  EventPayload.TrackUpserted (TrackUpsertedPayload.mk track routes vts)
  :: push_if (is_nonempty items)
       (EventPayload.TrackRemoteItemsReplaced (TrackRemoteItemsReplacedPayload.mk
          (Track.track_guid track) (Some (Track.feed_guid track)) items)).

Definition list_payloads (b : IngestBundle) (l : FeedList) : list EventPayload :=
  push_if (is_nonempty (event_list_rows b l))
    (list_payload l (Feed.feed_guid (IngestBundle.feed b)) (event_list_rows b l)).

Definition all_payloads (b : IngestBundle) : list EventPayload :=
  EventPayload.FeedUpserted (FeedUpsertedPayload.mk (IngestBundle.feed b) None)
  :: concat (list_payloads b <$> event_lists)
  ++ concat (track_payloads <$> IngestBundle.tracks b).

Lemma build_all_payloads b now warnings :
  Forall2 (λ f p, ∀ id, row_holds (f id) p ∧ EventRow.event_id (f id) = id)
    (build_all_events b now warnings) (all_payloads b).
Proof using Type.
  rewrite build_all_events_eq. unfold all_payloads. constructor; [done|]. apply Forall2_app.
  - induction event_lists as [|l ls IH]; cbn; [constructor|]. apply Forall2_app; [|done].
    unfold list_payloads, push_if. destruct (is_nonempty _); repeat constructor; done.
  - induction (IngestBundle.tracks b) as [|[[[t r] v] i] ts IH]; cbn; [constructor|].
    constructor; [done|]. apply Forall2_app; [|done].
    unfold push_if. destruct (is_nonempty _); repeat constructor; done.
Qed.

Lemma number_rows_payloads n fs ps :
  Forall2 (λ (f : string → EventRow) p, ∀ id, row_holds (f id) p ∧ EventRow.event_id (f id) = id)
    fs ps →
  Forall2 row_holds (number_rows n fs) ps.
Proof using Type.
  unfold number_rows. intros Hf. revert n. induction Hf as [|f p fs ps Hp Hf IH]; intros n;
    [constructor|]. rewrite imap_cons. constructor; [apply Hp|].
  rewrite (imap_ext _ (λ i row, row (new_v4 (S n + i)%nat)));
    [apply IH|]. intros i x _. unfold compose. do 2 f_equal. lia.
Qed.

(** ** The replica takes the events *)

Context (b : IngestBundle) (target : Db).
Let g : string := Feed.feed_guid (IngestBundle.feed b).
Context (Hb : bundle_ok b).

(** The rows of an event read like the rows that the ingest wrote. *)
Lemma event_rows_view l :
  let view rows := order_by snap_cols (snap_norm ∘ snap_fields <$> snap_dedupe (T := list_table l) rows) in
  view (event_list_rows b l) = view (bundle_rows b l).
Proof using Type.
  destruct l; try done. intros view.
  etransitivity; [|apply (live_view_sorted (IngestBundle.live_events b))].
  refine (f_equal (λ rows, order_by _ (live_events_fields <$> rows)) _).
  apply dedupe_and_sort_fixed.
Qed.

Lemma event_rows_perm l :
  snap_dedupe (T := list_table l) (event_list_rows b l)
  ≡ₚ snap_dedupe (T := list_table l) (bundle_rows b l).
Proof using Type.
  destruct l; try done.
  change (dedupe_live_events (dedupe_and_sort_live_events (IngestBundle.live_events b))
          ≡ₚ dedupe_live_events (IngestBundle.live_events b)).
  rewrite dedupe_and_sort_fixed. apply sort_by_perm.
Qed.

Lemma event_rows_owned l : owned (list_table l) g (event_list_rows b l).
Proof using Hb.
  pose proof (bundle_lists b Hb l) as Ho. destruct l; try exact Ho.
  by apply dedupe_and_sort_owned.
Qed.

Lemma list_written_view l :
  list_written b l target →
  snap_view (list_table l) g target
    = order_by snap_cols (snap_norm ∘ snap_fields <$> snap_dedupe (bundle_rows b l))
  ∧ snap_bare (list_table l) g target
    = tbl_store (list_table l) 0 <$> snap_dedupe (bundle_rows b l).
Proof using Hb.
  intros (p & p' & Hp & Hg). pose proof (bundle_lists b Hb l) as Ho. split.
  - rewrite (snap_view_get _ _ _ _ Hg). by eapply (snap_replace_view (list_table l) g).
  - unfold snap_bare, snap_rows. rewrite Hg. by eapply (snap_replace_bare (list_table l) g).
Qed.

(** The event of a list can be applied once the feed is there, and then the
    list is the one of the primary. *)
Lemma list_applies now c l r :
  list_written b l target → feed_exists r g = true →
  ∃ r', apply_payload now c (list_payload l g (event_list_rows b l)) r = (r', Ok tt)
    ∧ snap_same (list_table l) g target r'.
Proof using Hb.
  intros Hw He. rewrite apply_list_payload. destruct (list_written_view l Hw) as [Hv Hbare].
  destruct Hw as (p & p' & Hp & _).
  destruct (snap_accept (list_table l) g (bundle_rows b l) (event_list_rows b l) p p' r)
    as [r' Hr]; [apply (bundle_lists b Hb)|apply event_rows_owned|apply event_rows_perm
      |done|by rewrite list_exists|].
  exists r'. split; [done|]. split.
  - rewrite Hv, <-event_rows_view.
    eapply (snap_replace_view (list_table l) g); [apply event_rows_owned|exact Hr].
  - rewrite Hbare. erewrite (snap_replace_bare (list_table l) g); [|apply event_rows_owned|exact Hr].
    by rewrite event_rows_perm.
Qed.

Lemma empty_written l :
  list_written b l target → event_list_rows b l = [] →
  snap_rows (list_table l) g target = [].
Proof using Hb.
  intros Hw He. destruct (list_written_view l Hw) as [_ Hbare].
  apply (fmap_nil_inv (tbl_store (list_table l) 0)). unfold snap_bare in Hbare. rewrite Hbare.
  assert (snap_dedupe (T := list_table l) (bundle_rows b l) = []) as ->; [|done].
  apply Permutation_nil. rewrite <-event_rows_perm, He. by destruct l.
Qed.

(** *** The lists *)

(** The state of the replica when the events of [todo] are still to come. *)
Record at_lists (todo : list FeedList) (db : Db) : Prop := {
  al_index : index_ok db;
  al_feed : FeedRow.feed <$> feeds db !! g = Some (IngestBundle.feed b);
  al_tracks : ∀ t, tracks db !! (g, t) = None;
  al_todo : ∀ l, l ∈ todo → snap_rows (list_table l) g db = [];
  al_done : ∀ l, l ∉ todo → snap_same (list_table l) g target db;
  al_items : ∀ u, snap_rows (track_table TrackItems) (g, u) db = []
}.

Lemma unlogged_at_lists todo : unlogged (at_lists todo).
Proof using Type.
  intros x db [H1 H2 H3 H4 H4' H5]. split; [exact H1|exact H2|exact H3|..|exact H5].
  - intros l Hl. rewrite <-(H4 l Hl). by destruct l.
  - intros l Hl. eapply snap_same_get; [|by apply H4']. by destruct l.
Qed.

Lemma at_lists_exists todo db : at_lists todo db → feed_exists db g = true.
Proof using Type.
  intros Ha. pose proof (al_feed _ _ Ha) as Hf. unfold feed_exists.
  by destruct (feeds db !! g).
Qed.

Lemma handle_list now l todo :
  list_written b l target → l ∉ todo →
  handles now (list_payloads b l) (at_lists (l :: todo)) (at_lists todo).
Proof using Hb.
  intros Hw Hl. unfold list_payloads. destruct (event_list_rows b l) as [|row rows] eqn:Er.
  - eapply handles_impl; [done| |apply handles_nil]. intros db [H1 H2 H3 H4 H4' H5].
    split; [done..| | |done].
    + intros k Hk. apply H4. by right.
    + intros k Hk. destruct (decide (k = l)) as [->|Hkl]; [|apply H4'; set_solver].
      apply snap_same_nil; [by apply empty_written|]. apply H4. left.
  - cbn [is_nonempty push_if]. rewrite <-Er. apply handles_one; [apply unlogged_at_lists|].
    intros c db Ha. fold g.
    destruct (list_applies now c l db Hw (at_lists_exists _ _ Ha)) as (db' & Hp & Hv).
    exists db'. split; [done|]. rewrite apply_list_payload in Hp.
    destruct (list_replace_keeps l g (event_list_rows b l)) as (K1 & K2 & K3 & K4).
    destruct Ha as [H1 H2 H3 H4 H4' H5].
    assert (∀ k, k ≠ l → tbl_get (list_table k) db' = tbl_get (list_table k) db) as Hother.
    { intros k Hk. assert (Keeps (tbl_get (list_table k))
        (snap_replace (list_table l) g (event_list_rows b l))) as K
        by (apply keeps_snap_replace; intros; by apply list_table_other).
      by apply (keeps_ok (tbl_get (list_table k)) _ _ _ _ Hp). }
    split.
    + eapply index_side_ok; [|exact H1]. by eapply keeps_ok.
    + by rewrite (keeps_ok feeds _ _ _ _ Hp).
    + intros t. by rewrite (keeps_ok tracks _ _ _ _ Hp).
    + intros k Hk. assert (k ≠ l) as Hkl by (by intros ->).
      rewrite <-(H4 k) by (by right). unfold snap_rows. by rewrite (Hother k Hkl).
    + intros k Hk. destruct (decide (k = l)) as [->|Hkl]; [exact Hv|].
      eapply snap_same_get; [by apply Hother|apply H4'; set_solver].
    + intros u. rewrite <-(H5 u). unfold snap_rows. f_equal.
      apply track_side_list. by eapply keeps_ok.
Qed.

Lemma handle_lists now ls :
  (∀ l, list_written b l target) → NoDup ls →
  handles now (concat (list_payloads b <$> ls)) (at_lists ls) (at_lists []).
Proof using Hb.
  intros Hw. induction 1 as [|l ls Hl Hnd IH]; [apply handles_nil|].
  cbn. eapply handles_app; [by apply handle_list|done].
Qed.

(** *** The tracks *)

Let guids (ts : list TrackIngestBundle) : list string := (snd ∘ track_key) <$> ts.

Lemma track_key_eq x : x ∈ IngestBundle.tracks b → track_key x = (g, (track_key x).2).
Proof using Hb.
  intros Hx. unfold g. rewrite <-(bundle_feed b Hb x Hx). by destruct (track_key x).
Qed.

(** What is known of the feed while its tracks come in; the tracks of [todo]
    are still to come. *)
Record at_rest (todo : list TrackIngestBundle) (db : Db) : Prop := {
  ar_index : index_ok db;
  ar_feed : FeedRow.feed <$> feeds db !! g = Some (IngestBundle.feed b);
  ar_lists : ∀ l, snap_same (list_table l) g target db;
  ar_none : ∀ u, u ∉ guids (IngestBundle.tracks b) ∨ u ∈ guids todo →
    tracks db !! (g, u) = None;
  ar_items : ∀ u, u ∈ guids todo → snap_rows (track_table TrackItems) (g, u) db = []
}.

Definition track_done (x : TrackIngestBundle) (db : Db) : Prop :=
  tracks db !! track_key x = Some x.1.1.1
  ∧ ∀ k, snap_same (track_table k) (track_key x) target db.

Definition at_tracks (todo : list TrackIngestBundle) (db : Db) : Prop :=
  at_rest todo db
  ∧ ∀ x, x ∈ IngestBundle.tracks b → (track_key x).2 ∉ guids todo → track_done x db.

(** In the events of [x]: its lists of [ks] are still to come. *)
Record at_track (x : TrackIngestBundle) (ks : list TrackList) (todo : list TrackIngestBundle)
    (db : Db) : Prop := {
  at_others : at_rest todo db;
  at_done : ∀ y, y ∈ IngestBundle.tracks b → (track_key y).2 ∉ guids (x :: todo) → track_done y db;
  at_row : tracks db !! track_key x = Some x.1.1.1;
  at_written : ∀ k, k ∉ ks → snap_same (track_table k) (track_key x) target db;
  at_empty : TrackItems ∈ ks → snap_rows (track_table TrackItems) (track_key x) db = []
}.

(** What does not write the feed, the tracks or their lists keeps both. *)
Lemma at_track_same x ks todo db db' :
  feeds db' = feeds db → tracks db' = tracks db → feed_side db' = feed_side db →
  track_side db' = track_side db → index_ok db' →
  at_track x ks todo db → at_track x ks todo db'.
Proof using Type.
  intros Hf Ht Hl Hk Hi [[H1 H2 H3 H4 H5] H6 H7 H8 H9].
  assert (∀ l, tbl_get (list_table l) db' = tbl_get (list_table l) db) as El
    by (intros; by apply feed_side_list).
  assert (∀ k, tbl_get (track_table k) db' = tbl_get (track_table k) db) as Ek
    by (intros; by apply track_side_list).
  split; [split|..].
  - done.
  - by rewrite Hf.
  - intros l. eapply snap_same_get; [apply El|apply H3].
  - intros u. rewrite Ht. apply H4.
  - intros u Hu. rewrite <-(H5 u Hu). unfold snap_rows. by rewrite Ek.
  - intros y Hy Hn. destruct (H6 y Hy Hn) as [? Hv]. split; [by rewrite Ht|].
    intros k. eapply snap_same_get; [apply Ek|apply Hv].
  - by rewrite Ht.
  - intros k Hk'. eapply snap_same_get; [apply Ek|by apply H8].
  - intros Hi'. rewrite <-(H9 Hi'). unfold snap_rows. by rewrite Ek.
Qed.

(** One list of [x] is replaced. *)
Lemma track_list_step x k ks todo db :
  x ∈ IngestBundle.tracks b → (track_key x).2 ∉ guids todo → k ∉ ks →
  track_written x k target → at_track x (k :: ks) todo db →
  ∃ db', track_replace x k db = (db', Ok tt) ∧ at_track x ks todo db'.
Proof using Hb.
  intros Hx Hn Hk (p & p' & Hp & Hrows) [[H1 H2 H3 H4 H5] H6 H7 H8 H9].
  pose proof (bundle_track_rows b Hb x k Hx) as Ho.
  destruct (snap_replay (track_table k) (track_key x) (track_rows x k) p p' db) as (db' & Hr & Hv);
    [done|exact Hp| |].
  { destruct (track_key x) as [f t] eqn:E. rewrite track_list_exists. unfold track_exists.
    by rewrite H7. }
  exists db'. split; [exact Hr|]. fold (track_replace x k) in Hr.
  destruct (track_replace_keeps x k) as (K1 & K2 & K3 & K4).
  assert (∀ j u, u ≠ (track_key x).2 →
    snap_rows (track_table j) (g, u) db' = snap_rows (track_table j) (g, u) db) as Hother.
  { intros j u Hu. destruct (decide (j = k)) as [->|Hj].
    - eapply (snap_replace_frame (track_table k) (track_key x)); [exact Ho| |exact Hr].
      intros r. rewrite (track_key_eq x Hx). by apply track_scope_other.
    - unfold snap_rows. pose proof (track_replace_keeps_list j k x Hj).
      by rewrite (keeps_ok (tbl_get (track_table j)) _ _ _ _ Hr). }
  assert (∀ j, j ≠ k → tbl_get (track_table j) db' = tbl_get (track_table j) db) as Hsame.
  { intros j Hj. pose proof (track_replace_keeps_list j k x Hj). by eapply keeps_ok. }
  split; [split|..].
  - eapply index_side_ok; [|exact H1]. by eapply keeps_ok.
  - by rewrite (keeps_ok feeds _ _ _ _ Hr).
  - intros l. eapply snap_same_get; [apply feed_side_list; by eapply keeps_ok|apply H3].
  - intros u. rewrite (keeps_ok tracks _ _ _ _ Hr). apply H4.
  - intros u Hu. rewrite Hother; [by apply H5|]. intros ->. done.
  - intros y Hy Hyn. destruct (H6 y Hy Hyn) as [? Hyv]. split.
    + by rewrite (keeps_ok tracks _ _ _ _ Hr).
    + intros j. eapply snap_same_rows; [|apply Hyv]. rewrite (track_key_eq y Hy).
      apply Hother. intros E. apply Hyn.
      change ((track_key y).2 ∈ (track_key x).2 :: guids todo). rewrite E. left.
  - by rewrite (keeps_ok tracks _ _ _ _ Hr).
  - intros j Hj. destruct (decide (j = k)) as [->|Hjk].
    + by eapply snap_same_from.
    + eapply snap_same_get; [by apply Hsame|]. apply H8. set_solver.
  - intros Hi. rewrite <-H9 by (by right). unfold snap_rows. f_equal. apply Hsame.
    by intros <-.
Qed.

Lemma unlogged_at_track x ks todo : unlogged (at_track x ks todo).
Proof using Type. 
  intros y db Ha. apply (at_track_same x ks todo db); try done.
  exact (ar_index _ _ (at_others _ _ _ _ Ha)).
Qed.

Lemma unlogged_at_tracks todo : unlogged (at_tracks todo).
Proof using Type.
  intros x db [[H1 H2 H3 H4 H5] H6]. split; [split; try done|].
  - intros l. eapply snap_same_get; [|apply H3]. by destruct l.
  - intros y Hy Hn. destruct (H6 y Hy Hn) as [Hr Hv]. split; [done|].
    intros k. eapply snap_same_get; [|apply Hv]. by destruct k.
Qed.

Lemma at_rest_exists todo db : at_rest todo db → feed_exists db g = true.
Proof using Type.
  intros Ha. pose proof (ar_feed _ _ Ha) as Hf. unfold feed_exists.
  by destruct (feeds db !! g).
Qed.

Lemma upsert_track_step x todo db :
  x ∈ IngestBundle.tracks b → (track_key x).2 ∉ guids todo → at_tracks (x :: todo) db →
  ∃ db', upsert_track x.1.1.1 db = (db', Ok tt)
    ∧ at_track x [TrackRoutes; TrackSplits; TrackItems] todo db'.
Proof using Hb.
  intros Hx Hn [Hr Hd]. pose proof (at_rest_exists _ _ Hr) as He.
  destruct Hr as [H1 H2 H3 H4 H5].
  assert (tracks db !! track_key x = None) as Hnone.
  { rewrite (track_key_eq x Hx). apply H4. right. left. }
  unfold upsert_track. change (Track.feed_guid x.1.1.1) with ((track_key x).1).
  rewrite (bundle_feed b Hb x Hx). fold g. rewrite He.
  change (Track.track_guid x.1.1.1) with ((track_key x).2).
  rewrite <-(track_key_eq x Hx), Hnone. eexists. split; [reflexivity|].
  assert (∀ y, y ≠ track_key x → ∀ tr, <[track_key x := tr]> (tracks db) !! y = tracks db !! y) as Hi
    by (intros; by apply lookup_insert_ne).
  split; [split|..]; cbn [tracks set_tracks].
  - done.
  - done.
  - intros l. eapply snap_same_get; [|apply H3]. by destruct l.
  - intros u Hu. rewrite Hi.
    + apply H4. destruct Hu as [?|Hu]; [by left|right; right; exact Hu].
    + rewrite (track_key_eq x Hx). intros [= ->]. destruct Hu as [Hu|Hu]; [|done].
      apply Hu. by apply (list_elem_of_fmap_2 (snd ∘ track_key)).
  - intros u Hu. apply (H5 u). by right.
  - intros y Hy Hyn. destruct (Hd y Hy Hyn) as [Hyt Hyv].
    split; [|intros k; eapply snap_same_get; [|apply Hyv]; by destruct k].
    cbn. rewrite Hi; [done|]. intros E. rewrite E in Hyn. apply Hyn. left.
  - by rewrite lookup_insert_eq.
  - intros []; set_solver.
  - intros _. rewrite (track_key_eq x Hx). apply (H5 (track_key x).2). left.
Qed.

(** The event of a track, in the terms of the family. *)
Lemma apply_track_upserted now c track routes vts items :
  let x := (track, routes, vts, items) in
  same_ok (apply_payload now c (EventPayload.TrackUpserted (TrackUpsertedPayload.mk track routes vts)))
    (_ ← upsert_track track; _ ← track_replace x TrackRoutes; _ ← track_replace x TrackSplits;
     sync_source_read_models_for_feed now (Track.feed_guid track)).
Proof using Type.
  intros x. cbn [apply_payload TrackUpsertedPayload.track TrackUpsertedPayload.routes
    TrackUpsertedPayload.value_time_splits].
  apply same_ok_bind; [done|]. intros _. apply same_ok_bind.
  { intros ? ? ?. by rewrite replace_payment_routes_for_feed_track_eq. }
  intros _. apply same_ok_bind; [apply replace_value_time_splits_for_feed_track_eq|done].
Qed.

Lemma handle_upsert now track routes vts items todo :
  let x := (track, routes, vts, items) in
  (∀ k, track_written x k target) →
  x ∈ IngestBundle.tracks b → (track_key x).2 ∉ guids todo →
  handles now [EventPayload.TrackUpserted (TrackUpsertedPayload.mk track routes vts)]
    (at_tracks (x :: todo)) (at_track x [TrackItems] todo).
Proof using Hb.
  intros x Hw Hx Hn. apply handles_one; [apply unlogged_at_tracks|]. intros c db Ha.
  destruct (upsert_track_step x todo db Hx Hn Ha) as (d1 & Hu & A1).
  destruct (track_list_step x TrackRoutes [TrackSplits; TrackItems] todo d1 Hx Hn
    ltac:(set_solver) (Hw _) A1) as (d2 & Hr & A2).
  destruct (track_list_step x TrackSplits [TrackItems] todo d2 Hx Hn
    ltac:(set_solver) (Hw _) A2) as (d3 & Hs & A3).
  destruct (sync_ok now (Track.feed_guid track) d3 (ar_index _ _ (at_others _ _ _ _ A3)))
    as (d4 & Hy & Hi).
  exists d4. split.
  - apply (apply_track_upserted now c track routes vts items).
    change (upsert_track track db = (d1, Ok tt)) in Hu.
    unfold mbind, db_bind. fold x. by rewrite Hu, Hr, Hs.
  - destruct (sync_keeps now (Track.feed_guid track)) as (K1 & K2 & K3 & K4).
    eapply at_track_same; [..|exact Hi|exact A3]; by eapply keeps_ok.
Qed.

Lemma at_track_end x todo db :
  x ∈ IngestBundle.tracks b → at_track x [] todo db → at_tracks todo db.
Proof using Hb.
  intros Hx [Ho Hd Hrow Hv _]. split; [done|]. intros y Hy Hyn.
  destruct (decide ((track_key y).2 = (track_key x).2)) as [Heq|Hne].
  - assert (y = x) as ->; [|split; [done|intros k; apply Hv; set_solver]].
    by apply (NoDup_fmap_inj (snd ∘ track_key) (IngestBundle.tracks b)); [apply (bundle_tracks b Hb)|..].
  - apply Hd; [done|]. intros [?|?]%elem_of_cons; done.
Qed.

(** A track without remote items has no event for them: there is nothing to
    replace. *)
Lemma at_track_no_items x todo db :
  track_written x TrackItems target → x ∈ IngestBundle.tracks b →
  track_rows x TrackItems = [] →
  at_track x [TrackItems] todo db → at_track x [] todo db.
Proof using Hb.
  intros (p & p' & Hp & Hrows) Hx Hnil [H1 H2 H3 H4 H5].
  split; [done..| |set_solver]. intros k _. destruct (decide (k = TrackItems)) as [->|Hk].
  - apply snap_same_nil; [|apply H5; set_solver]. rewrite Hrows.
    apply (fmap_nil_inv (tbl_store (track_table TrackItems) 0)).
    pose proof (snap_replace_bare (track_table TrackItems) (track_key x) _ _ _
      (bundle_track_rows b Hb x TrackItems Hx) Hp) as Hbare. by rewrite Hnil in Hbare.
  - apply H4. set_solver.
Qed.

Lemma handle_track now x todo :
  (∀ k, track_written x k target) →
  x ∈ IngestBundle.tracks b → (track_key x).2 ∉ guids todo →
  handles now (track_payloads x) (at_tracks (x :: todo)) (at_tracks todo).
Proof using Hb.
  destruct x as [[[track routes] vts] items]. set (x := (track, routes, vts, items)).
  intros Hw Hx Hn. unfold track_payloads. cbn [x].
  eapply handles_cons; [by apply handle_upsert|].
  eapply handles_impl; [done|intros db; by apply at_track_end|].
  destruct items as [|item items'] eqn:Ei; cbn [is_nonempty push_if].
  - eapply handles_impl; [|done|apply handles_nil].
    intros db. by apply at_track_no_items.
  - apply handles_one; [apply unlogged_at_track|]. intros c db Ha.
    destruct (track_list_step x TrackItems [] todo db Hx Hn ltac:(set_solver) (Hw _) Ha)
      as (d & Hr & A). exists d. split; [|done].
    cbn [apply_payload TrackRemoteItemsReplacedPayload.feed_guid].
    rewrite replace_track_remote_items_raw_for_feed_track_eq. exact Hr.
Qed.

Lemma handle_tracks now ts :
  (∀ x k, x ∈ IngestBundle.tracks b → track_written x k target) →
  (∀ x, x ∈ ts → x ∈ IngestBundle.tracks b) → NoDup (guids ts) →
  handles now (concat (track_payloads <$> ts)) (at_tracks ts) (at_tracks []).
Proof using Hb.
  intros Hw. induction ts as [|x ts IH]; intros Hts Hnd; [apply handles_nil|].
  unfold guids in Hnd. rewrite fmap_cons, NoDup_cons in Hnd. destruct Hnd as [Hx Hnd]. cbn.
  eapply handles_app; [apply handle_track; [| |exact Hx]|].
  - intros k. apply Hw, Hts. left.
  - apply Hts. left.
  - apply IH; [|done]. intros y Hy. apply Hts. by right.
Qed.

(** *** From a replica without the feed *)

(** What the replica is before the first event. *)
Record at_start (db : Db) : Prop := {
  as_index : index_ok db;
  as_feed : feeds db !! g = None;
  as_url : url_taken db g (Feed.feed_url (IngestBundle.feed b)) = false;
  as_tracks : ∀ t, tracks db !! (g, t) = None;
  as_lists : ∀ l, snap_rows (list_table l) g db = [];
  as_items : ∀ u, snap_rows (track_table TrackItems) (g, u) db = []
}.

Lemma unlogged_at_start : unlogged at_start.
Proof using Type.
  intros x db [H1 H2 H3 H4 H5 H6]. split; try done. intros l. rewrite <-H5. by destruct l.
Qed.

Lemma refs_list l db : refs_ok db → refs (list_table l) db.
Proof using Type.
  intros (?&?&?&?&?&?&?&?&?&?&?&?&?&?). destruct l; done.
Qed.

Lemma at_start_intro db :
  store_ok db → index_ok db → feeds db !! g = None →
  url_taken db g (Feed.feed_url (IngestBundle.feed b)) = false →
  (∀ s, s ∈ track_remote_items_raw db → Scoped.feed s ≠ None) →
  at_start db.
Proof using Type.
  intros [Hc Hr] Hi Hf Hu Hs. assert (∀ t, tracks db !! (g, t) = None) as Ht
    by (intros; by apply tracks_absent).
  split; try done.
  - intros l. pose proof (refs_list l db Hr) as Hl. unfold snap_rows.
    apply filter_none. intros r Hin. specialize (Hl r Hin).
    apply not_true_iff_false. intros Hg.
    assert (snap_own (T := list_table l) g r = true) as Ho by (by destruct l).
    rewrite (snap_fk (T := list_table l) g r db Ho), list_exists in Hl.
    unfold feed_exists in Hl. by rewrite Hf in Hl.
  - intros u. destruct Hr as (_ & _ & H3 & _). unfold snap_rows. apply filter_none.
    intros s Hin. specialize (H3 s Hin). specialize (Hs s Hin). cbn in *.
    apply not_true_iff_false. unfold in_item_scope. intros Hsc. bool_facts.
    destruct (Scoped.feed s) as [f|]; [|done]. cbn in *. bool_facts. subst f.
    unfold track_exists in H3. by rewrite Ht in H3.
Qed.

Lemma handle_feed now :
  handles now [EventPayload.FeedUpserted (FeedUpsertedPayload.mk (IngestBundle.feed b) None)]
    at_start (at_lists event_lists).
Proof using Type.
  apply handles_one; [apply unlogged_at_start|]. intros c db [H1 H2 H3 H4 H5 H6].
  cbn [apply_payload FeedUpsertedPayload.feed]. fold g. unfold mbind, db_bind, upsert_feed.
  fold g. rewrite H3, H2. cbn [merge_feed].
  set (d := set_feeds _ db). destruct (sync_ok now g d) as (d' & Hs & Hi); [done|].
  exists d'. split; [done|]. destruct (sync_keeps now g) as (K1 & K2 & K3 & K4). split.
  - done.
  - rewrite (keeps_ok feeds _ _ _ _ Hs). cbn. by rewrite lookup_insert_eq.
  - intros t. rewrite (keeps_ok tracks _ _ _ _ Hs). apply H4.
  - intros l _. rewrite <-(H5 l). unfold snap_rows. f_equal. transitivity (tbl_get (list_table l) d); [|by destruct l].
    apply feed_side_list. by eapply keeps_ok.
  - intros l Hl. destruct Hl. apply elem_of_event_lists.
  - intros u. rewrite <-(H6 u). unfold snap_rows. f_equal.
    transitivity (tbl_get (track_table TrackItems) d); [|done].
    apply track_side_list. by eapply keeps_ok.
Qed.

Lemma lists_then_tracks db : at_lists [] db → at_tracks (IngestBundle.tracks b) db.
Proof using Type.
  intros [H1 H2 H3 _ H4 H5]. split.
  { split; try done. intros l. apply H4. by apply not_elem_of_nil. }
  intros x Hx Hn. destruct Hn. by apply (list_elem_of_fmap_2 (snd ∘ track_key)).
Qed.

Lemma handle_all now :
  (∀ l, list_written b l target) →
  (∀ x k, x ∈ IngestBundle.tracks b → track_written x k target) →
  handles now (all_payloads b) at_start (at_tracks []).
Proof using Hb.
  intros Hl Ht. unfold all_payloads. fold g. eapply handles_cons; [apply handle_feed|].
  eapply handles_app; [by apply handle_lists, event_lists_NoDup|].
  eapply handles_impl; [exact lists_then_tracks|done|].
  apply handle_tracks; [done|done|apply (bundle_tracks b Hb)].
Qed.

Lemma at_end_same rows signer db db' :
  ingested b rows signer db target → at_tracks [] db' → same_feed g target db'.
Proof using Hb.
  intros [I1 I2 I3 I4 I5 _] [[H1 H2 H3 H4 H5] H6]. fold g in I1, I4.
  assert (∀ u, u ∈ guids (IngestBundle.tracks b) → ∃ x, x ∈ IngestBundle.tracks b
    ∧ track_key x = (g, u)) as Hin.
  { intros u (x & -> & Hx)%list_elem_of_fmap. exists x. split; [done|]. by apply track_key_eq. }
  split.
  - by rewrite H2, I1.
  - intros t. destruct (decide (t ∈ guids (IngestBundle.tracks b))) as [Ht|Ht].
    + destruct (Hin t Ht) as (x & Hx & <-). rewrite (I3 x Hx). apply H6; [done|set_solver].
    + rewrite I4 by done. apply H4. by left.
  - done.
  - intros t k [tr Htr]. destruct (decide (t ∈ guids (IngestBundle.tracks b))) as [Ht|Ht].
    + destruct (Hin t Ht) as (x & Hx & <-). apply H6; [done|set_solver].
    + rewrite I4 in Htr; done.
Qed.
End replication.

(** ** The replication of a new feed *)

Section theorem.
Context `{Crates} (hash_order : list string → list string).

#[export] Instance delivered_keeps_cursor now ev : Keeps node_sync_state (delivered now ev).
Proof using Type.
  intros db. unfold delivered.
  assert (Keeps node_sync_state (apply_single_event_inner now ev)) as K
    by (unfold apply_single_event_inner; frame).
  specialize (K db). by destruct (apply_single_event_inner now ev db) as [d [[]|]].
Qed.

(** The replica knows nothing of the feed, of its URL and of the events. *)
Record replica_ready (b : IngestBundle) (rows : list EventRow) (db : Db) : Prop := {
  rr_ok : node_ok db;
  rr_feed : feeds db !! Feed.feed_guid (IngestBundle.feed b) = None;
  rr_url : url_taken db (Feed.feed_guid (IngestBundle.feed b))
    (Feed.feed_url (IngestBundle.feed b)) = false;
  rr_legacy : ∀ s, s ∈ track_remote_items_raw db → Scoped.feed s ≠ None;
  rr_ids : ∀ er, er ∈ rows → event_id_taken db (EventRow.event_id er) = false
}.

(** The cursor is not part of a feed. *)
Lemma same_feed_cursor g P d k q w :
  same_feed g P d → same_feed g P (upsert_node_sync_state k q w d).1.
Proof using Type.
  intros [H1 H2 H3 H4]. split; [done|done|..].
  - intros l. eapply snap_same_get; [|apply H3]. by destruct l.
  - intros t j Ht. eapply snap_same_get; [|by apply H4]. by destruct j.
Qed.

Lemma cursor_moves k q w db c :
  (get_node_sync_cursor k db).2 = Ok c → 0 ≤ q →
  (get_node_sync_cursor k (upsert_node_sync_state k q w db).1).2 = Ok (Z.max c q).
Proof using Type.
  intros Hc Hq. unfold get_node_sync_cursor, query, upsert_node_sync_state in *. cbn in *.
  rewrite lookup_insert_eq. destruct (node_sync_state db !! k) as [[old ?]|];
    injection Hc as <-; do 2 f_equal; lia.
Qed.

Lemma build_all_nonempty b now warnings n :
  number_rows n (build_all_events b now warnings) ≠ [].
Proof using Type. done. Qed.

Lemma replicate_rows now now' uuids n b rows warnings signer mv P P' seqs R c limit :
  (∀ l, hash_order l ≡ₚ l) → crates_ok signer rows →
  bundle_ok b → node_ok P → replica_ready b rows R →
  feeds P !! Feed.feed_guid (IngestBundle.feed b) = None →
  rows = number_rows n (build_all_events b now warnings) →
  ingest_transaction hash_order now uuids b rows mv signer P = (P', Ok seqs) →
  (get_node_sync_cursor SYNC_CURSOR_KEY R).2 = Ok c →
  Z.of_nat (length rows) ≤ limit →
  ∃ evs, (get_events_since (next_seq P - 1) limit P').2 = Ok evs
    ∧ ∃ R' ms ap df,
      apply_events now' evs R
        = (R', ApplySummary.mk (Z.of_nat (length rows)) 0 0 ms, ap, df)
      ∧ same_feed (Feed.feed_guid (IngestBundle.feed b)) P' R'
      ∧ (get_node_sync_cursor SYNC_CURSOR_KEY R').2
        = Ok (Z.max c (next_seq P + Z.of_nat (length rows) - 1)).
Proof using Type.
  intros Hho Hcr Hb (Hps & Hpl & Hpi) [(Hrs & Hrl & Hri) Rf Ru Rn Rids] Hnew Hrows Hing Hc Hlim.
  assert (rows ≠ []) as Hne by (rewrite Hrows; apply build_all_nonempty).
  assert (Forall2 row_holds rows (all_payloads b)) as Hhold
    by (rewrite Hrows; apply number_rows_payloads, (build_all_payloads b now warnings)).
  assert (log_ok P') as Hlog'.
  { pose proof (preserves (P := log_ok)
      (m := ingest_transaction hash_order now uuids b rows mv signer) P Hpl) as Hp.
    by rewrite Hing in Hp. }
  pose proof (ingest_new hash_order Hho now uuids b rows mv signer P P' seqs Hb Hps Hpl Hnew Hing)
    as I.
  pose proof (ing_log _ _ _ _ _ I) as Hev. fold (new_rows signer (next_seq P) rows) in Hev.
  destruct (new_rows_events signer rows Hcr (next_seq P) rows (all_payloads b) Hhold
    (rows_decode _ _ _ Hcr Hhold)) as (evs & Hcol & Hcar & Hids & Hver & Hseqs).
  exists evs. split.
  { unfold get_events_since. cbn [snd]. by rewrite (rows_since_new signer rows P P') by (done || lia). }
  assert (fresh_ids evs R) as Hfresh.
  { unfold fresh_ids. rewrite Hids. split.
    - destruct Hlog' as (_ & _ & Hnd). rewrite Hev, fmap_app, new_rows_ids in Hnd.
      by apply NoDup_app in Hnd as (_ & _ & ?).
    - intros id (er & -> & Her)%list_elem_of_fmap. by apply Rids. }
  destruct (handle_all b P' Hb now' (ing_lists _ _ _ _ _ I)
    (ing_track_lists _ _ _ _ _ I) evs Hcar R Hfresh
    (at_start_intro b R Hrs Hri Rf Ru Rn)) as (d & Hd & Hend & _).
  apply (at_end_same b P' Hb rows signer P d I) in Hend.
  assert (length evs = length rows) as Hlen
    by (apply (f_equal length) in Hids; unfold ids in Hids; by rewrite !length_fmap in Hids).
  assert (evs ≠ []) as Hene by (intros ->; destruct rows; done).
  destruct (apply_events_delivered now' evs R d Hene Hver Hd) as (ms & ap & df & Ha).
  pose proof (next_seq_pos P Hpl) as Hpos.
  rewrite (max_event_seq_new signer (next_seq P) rows evs 0 Hseqs), Hlen in Ha by (lia || done).
  assert (1 ≤ length rows)%nat as Hl1 by (destruct rows; [done|cbn; lia]).
  unfold cursor_at in Ha. rewrite (proj2 (Z.ltb_lt 0 _)) in Ha by lia.
  eexists _, ms, ap, df. split; [exact Ha|]. split; [by apply same_feed_cursor|].
  apply cursor_moves; [|lia]. rewrite <-Hc. unfold get_node_sync_cursor, query. cbn [snd].
  assert (Keeps node_sync_state (for_each (delivered now') evs)) as K by apply _.
  by rewrite (keeps_ok node_sync_state _ _ _ _ Hd).
Qed.
End theorem.

(** How a community node catches up (src/community.rs): what a page of the
    log does to the node, and what the drain loop brings in. *)

Section catchup.
Context `{Crates}.

Definition row_ids (l : list LogRow) : list string := LogRow.event_id <$> l.

(** The rows above a cursor, in the order of the log. *)
Definition rows_after (c : Z) (db : Db) : list LogRow :=
  List.filter (λ r, c <? LogRow.seq r) (events db).

(** Each row of the log reads back as an event that verifies. *)
Definition log_readable (db : Db) : Prop :=
  ∀ r, r ∈ events db → ∃ ev, event_of_row r = Ok ev ∧ verify_event_signature ev = true.

(** ** One event of a batch *)

(** The row of a fresh event stays whatever its payload does, and a payload
    writes no cursor. *)
Lemma apply_inner_ids now ev db :
  let d := (apply_single_event_inner now ev db).1 in
  (∀ id, id ∈ row_ids (events d) ↔ id ∈ row_ids (events db) ∨ id = Event.event_id ev)
  ∧ node_sync_state d = node_sync_state db.
Proof using Type.
  cbv zeta. split.
  - destruct (event_id_taken db (Event.event_id ev)) eqn:Ht.
    { rewrite apply_inner_duplicate by done. apply event_id_taken_true in Ht. cbn.
      intros id. split; [by left|]. by intros [? | ->]. }
    rewrite apply_inner_fresh by done.
    assert (∀ id, id ∈ row_ids (events (log_event ev db)) ↔
      id ∈ row_ids (events db) ∨ id = Event.event_id ev) as Hlog.
    { intros id. unfold row_ids, log_event. cbn [events set_events]. rewrite fmap_app. set_solver. }
    destruct (parse_event _ _) as [p|]; [|exact Hlog].
    pose proof (keeps (g := events) (m := apply_payload now (Event.created_at ev) p)
      (log_event ev db)) as K.
    destruct (apply_payload _ _ _ _) as [d' []]; cbn [fst] in *; by rewrite K.
  - assert (Keeps node_sync_state (apply_single_event_inner now ev)) as K
      by (unfold apply_single_event_inner; frame).
    apply K.
Qed.

(** One turn of the loop over a batch: it ends, the event has a row after it,
    and an event that had one moves the largest sequence number. *)
Lemma batch_step_turn now ev p sum ap df mx db :
  carries ev p →
  ∃ d sum' ap' df' mx', batch_step now ev (sum, ap, df, mx) db = (d, Ok (sum', ap', df', mx'))
    ∧ (∀ id, id ∈ row_ids (events d) ↔ id ∈ row_ids (events db) ∨ id = Event.event_id ev)
    ∧ node_sync_state d = node_sync_state db
    ∧ ((mx' = mx ∧ ApplySummary.applied sum' = ApplySummary.applied sum
          ∧ Event.event_id ev ∉ row_ids (events db)
          ∧ ApplySummary.rejected sum < ApplySummary.rejected sum')
       ∨ (mx' = Z.max mx (Event.seq ev)
          ∧ ApplySummary.applied sum ≤ ApplySummary.applied sum'
          ∧ ApplySummary.rejected sum' = ApplySummary.rejected sum)).
Proof using Type.
  intros Hp. destruct (live_diff_carries ev p db Hp) as [nd Hnd].
  pose proof (apply_inner_ids now ev db) as [Hids Hsync].
  unfold batch_step. rewrite Hnd.
  destruct (apply_single_event_inner now ev db) as [d [[seq|]|e]] eqn:E; cbn [fst] in *;
    eexists d, _, _, _, _; (split_and!; [reflexivity|done..|]); cbn.
  - right. split_and!; lia.
  - right. split_and!; lia.
  - left. split_and!; [done..| |lia]. intros Hin%event_id_taken_true.
    by rewrite apply_inner_duplicate in E.
Qed.

(** The loop over a batch of events that parse. *)
Lemma batch_loop_turns now evs sum ap df mx db :
  Forall (λ ev, ∃ p, carries ev p) evs →
  ∃ d sum' ap' df' mx', batch_loop now evs (sum, ap, df, mx) db = (d, Ok (sum', ap', df', mx'))
    ∧ (∀ id, id ∈ row_ids (events d) ↔ id ∈ row_ids (events db) ∨ id ∈ ids evs)
    ∧ node_sync_state d = node_sync_state db
    ∧ mx ≤ mx' ∧ (mx' = mx ∨ mx' ∈ Event.seq <$> evs)
    ∧ (∀ ev, ev ∈ evs → Event.event_id ev ∈ row_ids (events db) → Event.seq ev ≤ mx')
    ∧ ApplySummary.applied sum ≤ ApplySummary.applied sum'
    ∧ (ApplySummary.applied sum = ApplySummary.applied sum'
       ∨ ∃ ev, ev ∈ evs ∧ Event.seq ev ≤ mx')
    ∧ ApplySummary.rejected sum ≤ ApplySummary.rejected sum'
    ∧ (ApplySummary.rejected sum' = ApplySummary.rejected sum →
       ∀ ev, ev ∈ evs → Event.seq ev ≤ mx').
Proof using Type.
  intros Hev. revert sum ap df mx db.
  induction Hev as [|ev evs [p Hp] Hev IH]; intros sum ap df mx db.
  { eexists db, sum, ap, df, mx. cbn. split_and!; try done; try lia; try set_solver. }
  destruct (batch_step_turn now ev p sum ap df mx db Hp)
    as (d & s1 & ap1 & df1 & m1 & Hs & Hi1 & Hn1 & Hc).
  destruct (IH s1 ap1 df1 m1 d)
    as (d2 & s2 & ap2 & df2 & m2 & Hl & Hi2 & Hn2 & Hm & Hin & Ht & Ha & Hx & Hr & Hq).
  eexists d2, s2, ap2, df2, m2. cbn [batch_loop]. unfold mbind, db_bind. rewrite Hs, Hl.
  split_and!.
  - done.
  - intros id. rewrite Hi2, Hi1. cbn. set_solver.
  - congruence.
  - lia.
  - rewrite fmap_cons, elem_of_cons. destruct Hin as [-> | ?]; [|tauto]. lia.
  - intros ev' [-> |He]%elem_of_cons Hid.
    + destruct Hc as [(_ & _ & Hn & _)|(-> & _)]; [done|lia].
    + apply Ht; [done|]. rewrite Hi1. by left.
  - lia.
  - destruct Hx as [Hx|(e & ? & ?)]; [|right; exists e; split; [by right|done]].
    destruct Hc as [(_ & ? & _)|(-> & _)]; [left; lia|].
    right. exists ev. split; [left|lia].
  - lia.
  - intros Hz ev' [-> |He]%elem_of_cons; [|apply Hq; [lia|done]].
    destruct Hc as [?|(-> & _)]; lia.
Qed.

(** ** The cursor *)

Lemma initial_seq_sync db db' :
  node_sync_state db = node_sync_state db' → initial_seq db = initial_seq db'.
Proof using Type. intros E. unfold initial_seq, get_node_sync_cursor, query. cbn. by rewrite E. Qed.

Lemma initial_seq_cursor now q db :
  initial_seq (cursor_at now q db)
  = if 0 <? q then Z.max (initial_seq db) q else initial_seq db.
Proof using Type.
  unfold cursor_at. destruct (0 <? q) eqn:Eq; [|done]. apply Z.ltb_lt in Eq.
  unfold initial_seq, get_node_sync_cursor, query, upsert_node_sync_state, execute. cbn.
  rewrite lookup_insert_eq. destruct (node_sync_state db !! _) as [[c w]|]; lia.
Qed.

(** A batch of verified events: each has a row after it, and the cursor
    reaches at least the events that had one. *)
Lemma apply_events_turns now evs db :
  evs ≠ [] →
  Forall (λ ev, verify_event_signature ev = true) evs →
  Forall (λ ev, ∃ p, carries ev p) evs →
  ∃ d sum ap df q, apply_events now evs db = (d, sum, ap, df)
    ∧ (∀ id, id ∈ row_ids (events d) ↔ id ∈ row_ids (events db) ∨ id ∈ ids evs)
    ∧ initial_seq d = initial_seq (cursor_at now q db)
    ∧ (q = 0 ∨ q ∈ Event.seq <$> evs)
    ∧ (∀ ev, ev ∈ evs → Event.event_id ev ∈ row_ids (events db) → Event.seq ev ≤ q)
    ∧ 0 ≤ ApplySummary.applied sum
    ∧ (0 < ApplySummary.applied sum → ∃ ev, ev ∈ evs ∧ Event.seq ev ≤ q)
    ∧ (ApplySummary.rejected sum = 0 → ∀ ev, ev ∈ evs → Event.seq ev ≤ q).
Proof using Type.
  intros Hne Hv Hp.
  destruct (batch_loop_turns now evs (ApplySummary.mk 0 0 0 0) [] [] 0 db Hp)
    as (d & s & ap & df & q & Hl & Hi & Hn & _ & Hin & Ht & Ha & Hx & _ & Hr).
  eexists _, _, ap, df, q. rewrite (apply_events_loop _ _ _ _ _ _ _ _ Hne Hv Hl).
  cbn [ApplySummary.applied ApplySummary.rejected] in *.
  split_and!; [reflexivity|..]; cbn [ApplySummary.applied ApplySummary.rejected]; try done.
  - unfold cursor_at. by destruct (0 <? q).
  - by rewrite !initial_seq_cursor, (initial_seq_sync _ _ Hn).
  - intros ?. destruct Hx as [?|?]; [lia|done].
Qed.

(** ** Pages *)

Lemma rows_after_sorted c db :
  log_ok db → StronglySorted Z.lt (LogRow.seq <$> rows_after c db).
Proof using Type.
  intros (Hs & _ & _). eapply StronglySorted_sublist; [|exact Hs].
  apply sublist_fmap, filter_sublist.
Qed.

(** The rows above a row of the page are what follows it. *)
Lemma rows_after_split c db l r k :
  log_ok db → rows_after c db = l ++ r :: k → rows_after (LogRow.seq r) db = k.
Proof using Type.
  intros Hlog E. pose proof (rows_after_sorted c db Hlog) as Hs. rewrite E in Hs.
  rewrite <-(filter_after l k r Hs), <-E. unfold rows_after. symmetry. apply filter_mono.
  assert (r ∈ rows_after c db) as [Hr%Z.ltb_lt _]%elem_of_filterb by (rewrite E; set_solver).
  intros x Hx%Z.ltb_lt. apply Z.ltb_lt. lia.
Qed.

Lemma event_of_row_fields r ev :
  event_of_row r = Ok ev →
  Event.event_id ev = LogRow.event_id r ∧ Event.seq ev = LogRow.seq r ∧ ∃ p, carries ev p.
Proof using Type.
  unfold event_of_row, carries. destruct (parse_event _ _) as [p|] eqn:E; [|done].
  intros [= <-]. split_and!; [done..|]. by exists p.
Qed.

Lemma collect_readable rows :
  (∀ r, r ∈ rows → ∃ ev, event_of_row r = Ok ev ∧ verify_event_signature ev = true) →
  ∃ evs, collect_results event_of_row rows = Ok evs
    ∧ ids evs = row_ids rows
    ∧ Event.seq <$> evs = LogRow.seq <$> rows
    ∧ Forall (λ ev, verify_event_signature ev = true) evs
    ∧ Forall (λ ev, ∃ p, carries ev p) evs
    ∧ Forall2 (λ r ev, event_of_row r = Ok ev) rows evs.
Proof using Type.
  induction rows as [|r rows IH]; intros Hr.
  { exists []. split_and!; constructor. }
  destruct IH as (evs & Hc & Hi & Hs & Hv & Hp & Hf); [set_solver|].
  destruct (Hr r ltac:(left)) as (ev & He & Hev).
  destruct (event_of_row_fields r ev He) as (Hid & Hsq & Hpv).
  exists (ev :: evs). cbn. rewrite He, Hc. cbn. split_and!; try done.
  - unfold ids, row_ids in *. cbn. by rewrite Hid, Hi.
  - by rewrite Hsq, Hs.
  - by constructor.
  - by constructor.
  - by constructor.
Qed.

(** The answer of the primary to a poll. *)
Lemma poll_primary token provided P c :
  check_sync_token provided token = Ok tt → log_ok P → log_readable P →
  ∃ evs, poll_once (primary_answers token provided P) c
      = Some (SyncEventsResponse.mk evs (Z.of_nat (length evs) =? 500)
                (match list.last evs with Some e => Event.seq e | None => c end))
    ∧ ids evs = row_ids (take 500 (rows_after c P))
    ∧ Event.seq <$> evs = LogRow.seq <$> take 500 (rows_after c P)
    ∧ Forall (λ ev, verify_event_signature ev = true) evs
    ∧ Forall (λ ev, ∃ p, carries ev p) evs
    ∧ Forall2 (λ r ev, event_of_row r = Ok ev) (take 500 (rows_after c P)) evs.
Proof using Type.
  intros Htok Hlog Hread.
  destruct (collect_readable (take 500 (rows_after c P))) as (evs & Hc & Hi & Hs & Hv & Hp & Hf).
  { intros r Hr. apply Hread. apply (sublist_elem _ _ _ (sublist_take _ _)) in Hr.
    apply elem_of_filterb in Hr as [_ Hr]. exact Hr. }
  exists evs. split_and!; try done.
  assert (get_events_since c 500 P = (P, Ok evs)) as Hg.
  { unfold get_events_since. change (Z.max 500 1) with 500.
    rewrite (rows_since_ok P c 500 Hlog). by rewrite <-Hc. }
  unfold poll_once, primary_answers, handle_sync_events, with_sync_token. rewrite Htok.
  unfold sync_events. change (clamp 1 1000 (unwrap_or 500 (Some 500))) with 500.
  unfold mbind, db_bind. by rewrite Hg.
Qed.

(** One page: its events have rows, the cursor of the loop moves to one of
    them, and none that had a row before is above it. *)
Lemma handle_page_turn now evs more next last_seq R :
  evs ≠ [] →
  Forall (λ ev, verify_event_signature ev = true) evs →
  Forall (λ ev, ∃ p, carries ev p) evs →
  (∀ q, q ∈ Event.seq <$> evs → last_seq < q ∧ 0 < q ≤ next) →
  next ∈ Event.seq <$> evs →
  initial_seq R ≤ last_seq →
  ∃ last' R', handle_page now (SyncEventsResponse.mk evs more next) last_seq R = (last', R')
    ∧ (∀ id, id ∈ row_ids (events R') ↔ id ∈ row_ids (events R) ∨ id ∈ ids evs)
    ∧ initial_seq R' ≤ last'
    ∧ last' ∈ Event.seq <$> evs
    ∧ (∀ ev, ev ∈ evs → Event.event_id ev ∈ row_ids (events R) → Event.seq ev ≤ last').
Proof using Type.
  intros Hne Hv Hp Hq Hnext Hc.
  destruct (apply_events_turns now evs R Hne Hv Hp)
    as (d & sum & ap & df & q & Ha & Hi & Hn & Hqin & Ht & Hpos & Hx & _).
  rewrite initial_seq_cursor in Hn.
  assert (∀ ev, ev ∈ evs → Event.seq ev ≤ next) as Hle.
  { intros ev Hev. by apply Hq, list_elem_of_fmap_2. }
  unfold handle_page. cbn [SyncEventsResponse.events SyncEventsResponse.next_seq].
  destruct evs as [|ev0 evs]; [done|]. rewrite Ha.
  destruct (0 <? ApplySummary.applied sum) eqn:Eap.
  - apply Z.ltb_lt in Eap. destruct (Hx Eap) as (e & He & Heq).
    pose proof (Hq _ (list_elem_of_fmap_2 Event.seq _ _ He)) as [H1 H2].
    destruct Hqin as [-> |Hqin]; [lia|].
    rewrite (proj2 (Z.ltb_lt 0 q)) in Hn by lia.
    assert (initial_seq d = q) as Hd by lia. clear Hn.
    change (get_node_sync_cursor SYNC_CURSOR_KEY d).2 with (@Ok DbError Z (initial_seq d)).
    rewrite Hd, (proj2 (Z.ltb_lt last_seq q)) by lia.
    exists q, d. split_and!; [done..|lia|done|done].
  - pose proof (Hq _ Hnext) as [H1 H2]. rewrite (proj2 (Z.ltb_lt last_seq next)) by lia.
    exists next, d. split_and!; [done..| |done|intros; by apply Hle].
    destruct (0 <? q); [|lia]. destruct Hqin as [-> |Hqin%Hq]; lia.
Qed.

(** The last of a sorted page is its largest. *)
Lemma last_seq_max evs c :
  evs ≠ [] → StronglySorted Z.lt (Event.seq <$> evs) →
  let next := match list.last evs with Some e => Event.seq e | None => c end in
  next ∈ Event.seq <$> evs ∧ ∀ q, q ∈ Event.seq <$> evs → q ≤ next.
Proof using Type.
  intros Hne. destruct evs as [|e evs _] using rev_ind; [done|].
  rewrite last_snoc, fmap_app. cbn zeta. intros (Hlt & _ & _)%StronglySorted_app. split; [set_solver|].
  intros q [Hq|Hq]%elem_of_app; [|cbn in Hq; set_solver].
  specialize (Hlt q (Event.seq e) Hq ltac:(left)). lia.
Qed.

Lemma length_ids evs page : ids evs = row_ids page → length evs = length page.
Proof using Type. unfold ids, row_ids. intros E%(f_equal length). by rewrite !length_fmap in E. Qed.

Context (token : option string) (provided : string) (P : Db).
Context (Htoken : check_sync_token provided token = Ok tt).
Context (Hlog : log_ok P) (Hread : log_readable P).

Lemma page_seq c q : q ∈ LogRow.seq <$> take 500 (rows_after c P) → c < q ∧ 0 < q.
Proof using Hlog.
  intros (r & -> & Hr)%list_elem_of_fmap. apply (sublist_elem _ _ _ (sublist_take _ _)) in Hr.
  apply elem_of_filterb in Hr as [Hr%Z.ltb_lt Hre]. destruct Hlog as (_ & Hpos & _).
  specialize (Hpos r Hre). lia.
Qed.

(** A poll of the primary, and the page it gives. *)
Lemma page_turn now c R :
  initial_seq R ≤ c →
  let page := take 500 (rows_after c P) in
  ∃ resp, poll_once (primary_answers token provided P) c = Some resp
    ∧ SyncEventsResponse.has_more resp = (Z.of_nat (length page) =? 500)
    ∧ ∃ c' R', handle_page now resp c R = (c', R')
      ∧ (∀ id, id ∈ row_ids (events R') ↔ id ∈ row_ids (events R) ∨ id ∈ row_ids page)
      ∧ initial_seq R' ≤ c'
      ∧ (page = [] ∧ c' = c
         ∨ ∃ l r k, page = l ++ r :: k ∧ c' = LogRow.seq r
             ∧ ∀ x, x ∈ k → LogRow.event_id x ∉ row_ids (events R)).
Proof using Htoken Hlog Hread.
  intros Hc page.
  destruct (poll_primary token provided P c Htoken Hlog Hread) as (evs & Hpoll & Hi & Hs & Hv & Hp & Hf).
  fold page in Hi, Hs, Hf. pose proof (length_ids _ _ Hi) as Hlen.
  eexists. split; [exact Hpoll|]. split; [cbn; by rewrite Hlen|].
  destruct (decide (page = [])) as [Epage|Hne].
  { rewrite Epage in *. destruct evs; [|done]. exists c, R. unfold handle_page. cbn.
    rewrite Z.ltb_irrefl. split_and!; [done| |done|by left].
    intros id. split; [by left|]. intros [?|?%elem_of_nil]; done. }
  assert (evs ≠ []) as Hne' by (intros ->; by destruct page).
  assert (StronglySorted Z.lt (LogRow.seq <$> page)) as Hsort.
  { eapply StronglySorted_sublist; [|exact (rows_after_sorted c P Hlog)].
    apply sublist_fmap, sublist_take. }
  destruct (last_seq_max evs c Hne' ltac:(by rewrite Hs)) as [Hin Hmax].
  destruct (handle_page_turn now evs (Z.of_nat (length evs) =? 500) _ c R Hne' Hv Hp
    ltac:(intros q Hq; specialize (Hmax q Hq);
      rewrite Hs in Hq; destruct (page_seq c q Hq); split; [done|split; [done|exact Hmax]])
    Hin Hc) as (c' & R' & Hh & Hi' & Hc' & Hcin & Ht).
  exists c', R'. split; [exact Hh|]. split; [intros id; by rewrite Hi', Hi|].
  split; [exact Hc'|]. right. rewrite Hs in Hcin.
  apply list_elem_of_fmap in Hcin as (r & -> & (l & k & Ek)%list_elem_of_split).
  exists l, r, k. split_and!; [done..|]. intros x Hx Hid.
  rewrite Ek, fmap_app, fmap_cons in Hsort.
  apply StronglySorted_app in Hsort as (_ & _ & [_ Hlt]%StronglySorted_inv).
  rewrite Forall_forall in Hlt. specialize (Hlt _ (list_elem_of_fmap_2 LogRow.seq _ _ Hx)).
  assert (x ∈ page) as [i Hxp]%list_elem_of_lookup by (rewrite Ek; set_solver).
  destruct (Forall2_lookup_l _ _ _ _ _ Hf Hxp) as (ev & Hev & Hrow).
  destruct (event_of_row_fields _ _ Hrow) as (Hide & Hsqe & _).
  specialize (Ht ev (list_elem_of_lookup_2 _ _ _ Hev)). rewrite Hide, Hsqe in Ht.
  specialize (Ht Hid). lia.
Qed.

(** What follows the row of the new cursor in the page is no part of what the
    node had. *)
Lemma tail_short (held : list string) (pre more l k : list LogRow) r :
  pre ++ more = l ++ r :: k →
  (∀ x, x ∈ pre → LogRow.event_id x ∈ held) →
  (∀ x, x ∈ k → LogRow.event_id x ∉ held) →
  (length k ≤ length more)%nat.
Proof using Type.
  intros E Hpre Hk. destruct (decide (length k ≤ length more)%nat) as [|Hgt]; [done|].
  pose proof (f_equal length E) as El. rewrite !length_app in El. cbn in El.
  destruct (lookup_lt_is_Some_2 pre (length pre - 1)) as [x Hx]; [lia|].
  destruct (Hk x); [|by apply Hpre, (list_elem_of_lookup_2 _ (length pre - 1))].
  apply (list_elem_of_lookup_2 _ (length pre - 2 - length l)).
  assert ((l ++ r :: k) !! (length pre - 1)%nat = Some x) as Hy
    by (rewrite <-E; by apply lookup_app_l_Some).
  rewrite lookup_app_r in Hy by lia.
  by replace (length pre - 1 - length l)%nat with (S (length pre - 2 - length l)) in Hy by lia.
Qed.

(** The drain loop. With [pre] the rows that the node holds at the head of
    what is left, each full page takes 500 from [length pre + 2 * length rest]:
    a row comes twice at most. *)
Lemma drain_brings fuel now c R :
  initial_seq R ≤ c →
  ∃ c' R', drain fuel now (λ _, primary_answers token provided P) c R = (c', R')
    ∧ initial_seq R' ≤ c' ∧ c ≤ c'
    ∧ (∀ id, id ∈ row_ids (events R') →
         id ∈ row_ids (events R) ∨ id ∈ row_ids (rows_after c P))
    ∧ (∀ id, id ∈ row_ids (events R) → id ∈ row_ids (events R'))
    ∧ (∀ pre rest, rows_after c P = pre ++ rest →
         (∀ x, x ∈ pre → LogRow.event_id x ∈ row_ids (events R)) →
         (length pre ≤ 500)%nat → (length pre + 2 * length rest ≤ 500 * fuel)%nat →
         ∀ id, id ∈ row_ids (rows_after c P) → id ∈ row_ids (events R')).
Proof using Htoken Hlog Hread.
  revert c R. induction fuel as [|fuel IH]; intros c R Hc.
  { exists c, R. cbn [drain]. split_and!; [done..|lia|by left|done|].
    intros [|? ?] [|? ?] E _ _ Hz; cbn in Hz; try lia. rewrite E. set_solver. }
  destruct (page_turn now c R Hc) as (resp & Hpoll & Hmore & c' & R' & Hh & Hi & Hc' & Hcase).
  cbn [drain]. rewrite Hpoll, Hh, Hmore.
  set (W := rows_after c P) in *.
  assert (W = take 500 W ++ drop 500 W) as EW by (by rewrite take_drop).
  assert (∀ id, id ∈ row_ids (take 500 W) → id ∈ row_ids W) as Htake.
  { intros id (x & -> & Hx)%list_elem_of_fmap. apply list_elem_of_fmap_2.
    exact (sublist_elem _ _ _ (sublist_take _ _) Hx). }
  assert (length (take 500 W) = min 500 (length W)) as Hlen by apply length_take.
  destruct (Z.of_nat (length (take 500 W)) =? 500) eqn:Efull.
  2: { apply Z.eqb_neq in Efull.
    assert (take 500 W = W) as Eall by (apply take_ge; lia).
    exists c', R'. split_and!; [done..| | | |].
    - destruct Hcase as [[_ ->]|(l & r & k & El & -> & _)]; [lia|].
      assert (r ∈ W) as [Hr%Z.ltb_lt _]%elem_of_filterb by (rewrite EW, El; set_solver). lia.
    - intros id [?|?]%Hi; [by left|right; auto].
    - intros id ?. apply Hi. by left.
    - intros pre rest _ _ _ _ id ?. apply Hi. right. by rewrite Eall. }
  apply Z.eqb_eq in Efull.
  destruct Hcase as [[E0 _]|(l & r & k & El & -> & Hk)]; [by rewrite E0 in Efull|].
  assert (rows_after (LogRow.seq r) P = k ++ drop 500 W) as Enext.
  { apply (rows_after_split c P l r); [done|]. fold W. rewrite EW at 1.
    by rewrite El, <-app_assoc. }
  assert (r ∈ W) as [Hr%Z.ltb_lt _]%elem_of_filterb by (rewrite EW, El; set_solver).
  destruct (IH (LogRow.seq r) R' Hc') as (c2 & R2 & Hd & Hc2 & Hle & Hup & Hkeep & Hall).
  exists c2, R2. split_and!; [done..|lia| | |].
  - intros id [[?|?]%Hi|Hid]%Hup; [by left|right; auto|right].
    rewrite EW, El. unfold row_ids in *. rewrite Enext in Hid.
    rewrite !fmap_app, fmap_cons in *. set_solver.
  - intros id ?. apply Hkeep, Hi. by left.
  - intros pre rest Epre Hheld Hp Hfuel id Hid.
    assert (take 500 W = pre ++ take (500 - length pre) rest) as Epage
      by (rewrite Epre, take_app_ge by lia; done).
    pose proof (tail_short _ _ _ _ _ _ (eq_trans (eq_sym Epage) El) Hheld Hk) as Hshort.
    rewrite length_take in Hshort.
    assert (length W = length pre + length rest)%nat as HW by (by rewrite Epre, length_app).
    rewrite EW in Hid. unfold row_ids in Hid. rewrite fmap_app in Hid.
    apply elem_of_app in Hid as [Hid|Hid]; [by apply Hkeep, Hi; right|].
    apply (Hall k (drop 500 W)); [done| |lia|rewrite length_drop; lia|].
    + intros x Hx. apply Hi. right. unfold row_ids. apply list_elem_of_fmap_2.
      rewrite El. set_solver.
    + unfold row_ids. rewrite Enext, fmap_app. set_solver.
Qed.
End catchup.
