(* ===== verification/Samples.v ===== *)
(** Concrete data for the examples of the other files: one feed with two
    tracks, a row in most of its lists, and the node states around its first
    ingest. *)

From S2P Require Import Prelude.
From S2P Require Import Model.
From S2P Require Import Event.
From S2P Require Import Crates.
From S2P Require Import Store.
From S2P Require Import Snapshot.
From S2P Require Import EventLog.
From S2P Require Import Diff.
From S2P Require Import IngestTx.
From S2P Require Import Apply.
From S2P Require Import Parts.
From S2P Require Import Ingested.
From S2P Require Import Delivery.
From S2P Require Import Replication.

#[local] Open Scope string_scope.
#[local] Open Scope Z_scope.

Definition sample_feed : Feed :=
  Feed.mk "feed-1" "https://a.example/feed.xml" "Album" "album" (Some "About") None None
    (Some "en") false None (Some "Artist") None (Some 1000) None 2 None None 50 100
    (Some "music") None None.

Definition sample_track (guid title : string) (n : Z) : Track :=
  Track.mk guid "feed-1" title title (Some 900) (Some 180) (Some "https://a.example/1.mp3")
    None None (Some n) None None None None false None None None 50 100.

Definition sample_route (track : string) : PaymentRoute :=
  PaymentRoute.mk None track "feed-1" (Some "Artist") RouteType.Node "02ab" (Some "") None 95 false.

Definition sample_split : ValueTimeSplit :=
  ValueTimeSplit.mk None "feed-1" "track-1" 0 ValueTimeSplitForm.Local
    (SpecFloat.S754_zero false) None None None None None
    [ValueTimeSplitRecipient.mk None RouteType.Node "03cd" None None 5 false] 50.

Definition sample_item (position : Z) : TrackRemoteItemRaw :=
  TrackRemoteItemRaw.mk None "feed-1" "track-1" position None "feed-9" None None
    "podcast_remote_item".

Definition sample_live (guid : string) : LiveEvent :=
  LiveEvent.mk guid "feed-1" "Show" None "pending" (Some 2000) None 50 100 None None.

Definition sample_bundle : IngestBundle :=
  IngestBundle.mk sample_feed
    [FeedRemoteItemRaw.mk None "feed-1" 0 None "feed-9" None None "podcast" None None]
    [SourceContributorClaim.mk None "feed-1" "feed" "feed-1" 0 "Ann" None None None None None None
       "podcast_person" "feed.person" 100]
    [] [SourceEntityLink.mk None "feed-1" "feed" "feed-1" 0 "website" "https://a.example" "rss_link"
       "feed.link" 100 None]
    [] [] [] []
    [FeedPaymentRoute.mk None "feed-1" (Some "Artist") RouteType.Lnaddress "a@b.example" None None
       100 false]
    [] [sample_live "live-2"; sample_live "live-1"; sample_live "live-2"]
    [(sample_track "track-1" "One" 1, [sample_route "track-1"], [sample_split],
      [sample_item 0; sample_item 1]);
     (sample_track "track-2" "Two" 2, [sample_route "track-2"], [], [])].

(** The libraries, with a table of the payloads that the first ingest writes. *)
Definition sample_crates : Crates := table_crates (all_payloads sample_bundle).
#[local] Existing Instance sample_crates.

(** The rows of the first ingest and the primary after it. *)
Definition sample_rows : list EventRow :=
  number_rows 0 (build_all_events sample_bundle 100 []).

Definition sample_primary : Db :=
  (ingest_transaction id 100 100 sample_bundle sample_rows None "key" empty_db).1.

Lemma sample_bundle_ok : bundle_ok sample_bundle.
Proof.
  split.
  - intros []; apply Forall_true_bool; vm_compute; reflexivity.
  - intros x Hx. repeat (apply elem_of_cons in Hx as [->|Hx]; [reflexivity|]). set_solver.
  - apply (bool_decide_unpack _). vm_compute. exact I.
  - intros x k Hx. repeat (apply elem_of_cons in Hx as [->|Hx];
      [destruct k; apply Forall_true_bool; vm_compute; reflexivity|]). set_solver.
Qed.

(** A payload whose JSON is not that of a stranger is in the table. *)
Lemma table_decodes_jsons l (jsons : list string) p :
  (String "{" (tally (length l))) ∉ jsons → @event_json (table_crates l) p ∈ jsons →
  @decodes (table_crates l) p.
Proof.
  intros Hn Hp. destruct (decide (p ∈ l)) as [Hin|Hout]; [by apply table_decodes|].
  cbn in Hp. rewrite index_of_out in Hp; done.
Qed.

Lemma sample_crates_ok : crates_ok "key" sample_rows.
Proof.
  split.
  - intros p Hp. eapply table_decodes_jsons; [|exact Hp].
    apply (bool_decide_unpack _). vm_compute. exact I.
  - done.
  - intros d. apply table_verify.
Qed.

(** The page of the log that a peer reads, and its events. *)
Definition sample_events : list Event :=
  match (get_events_since 0 100 sample_primary).2 with Ok l => l | Err _ => [] end.

Definition no_event : Event :=
  Event.mk "" EventType.FeedRetired (EventPayload.FeedRetired (FeedRetiredPayload.mk "" None))
    "" "" "" 0 0 [] "".

(** The event of the feed row, and that of the first track, which cannot be
    applied before it. *)
Definition sample_event : Event := nth 0 sample_events no_event.
Definition sample_track_event : Event := nth 6 sample_events no_event.
