(* ===== verification/ReplicationProps.v ===== *)
(** Properties of the path of a submission: ingest, log, page, batch. *)

From S2P Require Import Prelude.
From S2P Require Import Model.
From S2P Require Import Event.
From S2P Require Import Crates.
From S2P Require Import Store.
From S2P Require Import Tables.
From S2P Require Import Snapshot.
From S2P Require Import Search.
From S2P Require Import Catalog.
From S2P Require Import Integrity.
From S2P Require Import EventLog.
From S2P Require Import Diff.
From S2P Require Import Moves.
From S2P Require Import IngestTx.
From S2P Require Import Apply.
From S2P Require Import Frames.
From S2P Require Import Replica.
From S2P Require Import Parts.
From S2P Require Import Ingested.
From S2P Require Import Delivery.
From S2P Require Import Replication.
From S2P Require Import Samples.

(** C1: a new feed replicates. The primary, whose state satisfies the
    invariants, diffs and ingests the submission of a feed it does not hold; the
    rows of the submission are under the feed and under tracks with distinct
    GUIDs. A peer, whose state satisfies the invariants too, reads the page of
    the log after the rows that were there before, and applies it as one batch;
    it has neither the feed, nor its URL under another feed, nor one of the
    events, nor a remote item of the old form without a feed. Then every event of
    the page is applied, none is a duplicate or rejected, and the cursor of the
    peer stands at the last of them. Both nodes have the same feed record (the
    declared URLs and the lock beside it are local) and the same tracks, and in
    each of the fourteen lists the same rows: the same in all columns but the
    local [id], and the same for the readers, in their order. *)
Theorem new_feed_replicates `{Crates} (hash_order : list string → list string)
    now now' uuids n b rows warnings signer mv P P' seqs R c limit :
  (∀ l, hash_order l ≡ₚ l) → crates_ok signer rows →
  bundle_ok b → node_ok P → replica_ready b rows R →
  feeds P !! Feed.feed_guid (IngestBundle.feed b) = None →
  build_diff_events b now warnings n P = (P, Ok rows) →
  ingest_transaction hash_order now uuids b rows mv signer P = (P', Ok seqs) →
  (get_node_sync_cursor SYNC_CURSOR_KEY R).2 = Ok c →
  Z.of_nat (length rows) ≤ limit →
  ∃ evs, (get_events_since (next_seq P - 1) limit P').2 = Ok evs
    ∧ ∃ R' ms ap df,
      apply_events now' evs R
        = (R', ApplySummary.mk (Z.of_nat (length rows)) 0 0 ms, ap, df)
      ∧ same_feed (Feed.feed_guid (IngestBundle.feed b)) P' R'
      ∧ (get_node_sync_cursor SYNC_CURSOR_KEY R').2
        = Ok (Z.max c (next_seq P + Z.of_nat (length rows) - 1)).
Proof.
  intros Hho Hcr Hb HP HR Hnew Hdiff. eapply replicate_rows; try done.
  unfold build_diff_events, get_feed_by_guid, query, mbind, db_bind in Hdiff.
  rewrite Hnew in Hdiff. by injection Hdiff as <-.
Qed.


(** redelivery of one event is harmless. Once an event was applied, applying
    it again at any later time, whatever happened to the database in between
    as long as the log only grew, is a duplicate and changes nothing. *)
Theorem apply_single_event_redelivered `{Crates} now now' ev db db1 db2 out :
  apply_single_event now ev db = (db1, Ok out) →
  (LogRow.event_id <$> events db1) ⊆ (LogRow.event_id <$> events db2) →
  apply_single_event now' ev db2 = (db2, Ok ApplyOutcome.Duplicate).
Proof.
  intros Hr Hsub. apply apply_single_taken. apply event_id_taken_true, Hsub, event_id_taken_true.
  destruct out as [seq|].
  - apply apply_single_applied in Hr as (Hf & _ & d & Hd & ->).
    change (event_id_taken d (Event.event_id ev) = true). apply event_id_taken_true.
    apply apply_inner_events in Hd as ->. unfold log_event. cbn [events set_events].
    rewrite fmap_app. set_solver.
  - by apply apply_single_duplicate in Hr as [-> ?].
Qed.

(** redelivery of a batch is harmless. When each event of a batch is
    verified and already has a row, the batch applies none, counts each as a
    duplicate, publishes none, and changes the database by the cursor only. *)
Theorem batch_redelivered `{Crates} now evs db :
  Forall (λ ev, verify_event_signature ev = true) evs →
  Forall (λ ev, event_id_taken db (Event.event_id ev) = true ∧ ∃ p, carries ev p) evs →
  ∃ df, apply_events now evs db
    = (cursor_at now (max_event_seq evs 0) db,
       ApplySummary.mk 0 (Z.of_nat (length evs)) 0 0, [], df).
Proof.
  intros Hv Ht. destruct evs as [|ev evs]; [by exists []|].
  destruct (batch_duplicates now (ev :: evs) db (ApplySummary.mk 0 0 0 0) [] [] 0 Ht) as [df Hb].
  exists df. exact (apply_events_loop now (ev :: evs) db _ _ _ _ _ ltac:(done) Hv Hb).
Qed.

(** C37: a batch keeps what a failed event wrote. In a batch, an event whose
    payload fails is counted as rejected, but its row and the writes before
    the error are committed: the event is then a duplicate for ever, and its
    payload is never applied. Alone, the same event leaves no trace. *)
Theorem failed_event_is_lost `{Crates} now ev p db d e :
  verify_event_signature ev = true →
  event_id_taken db (Event.event_id ev) = false →
  carries ev p →
  apply_payload now (Event.created_at ev) p (log_event ev db) = (d, Err e) →
  apply_single_event now ev db = (db, Err e)
  ∧ (∃ df, apply_events now [ev] db = (d, ApplySummary.mk 0 0 1 0, [], df))
  ∧ events d = events (log_event ev db)
  ∧ ∀ now', apply_single_event now' ev d = (d, Ok ApplyOutcome.Duplicate).
Proof.
  intros Hv Ht Hc Ha. pose proof (apply_inner_fresh now ev db Ht) as Hi.
  rewrite Hc, Ha in Hi.
  assert (events d = events (log_event ev db)) as Hev.
  { pose proof (keeps (g := events) (m := apply_payload now (Event.created_at ev) p)
      (log_event ev db)) as K. by rewrite Ha in K. }
  split_and!.
  - unfold apply_single_event, transaction, mbind, db_bind. by rewrite Hi.
  - destruct (live_diff_carries ev p db Hc) as [nd Hnd]. exists nd.
    apply (apply_events_loop now [ev] db d (ApplySummary.mk 0 0 1 0) [] nd 0);
      [done|by constructor|].
    cbn [batch_loop]. unfold mbind, db_bind, batch_step, batch_start. by rewrite Hnd, Hi.
  - done.
  - intros now'. apply apply_single_taken, event_id_taken_true. rewrite Hev.
    unfold log_event. cbn [events set_events]. rewrite fmap_app. set_solver.
Qed.

(** C3: an ingest is all or nothing, and its log is complete. On an error the
    database is as before. On success the rows of the submission, then one
    TrackRemoved row for each removed track, are appended to the log with
    consecutive sequence numbers from the next free one, and nothing else is;
    the call returns the number, key and signature of each, and every event read
    back from them verifies. The removed tracks are exactly those that the feed
    had and that the submission does not state, each once, and they are gone
    from the tracks. *)
Theorem ingest_atomic `{Crates} (hash_order : list string → list string)
    now uuids b rows mv signer db db' r :
  (∀ l, hash_order l ≡ₚ l) →
  catalog_ok db → log_ok db →
  (∀ p, event_json p ≠ ""%string) →
  (∀ d, ed25519_verify (public_key signer) d (ed25519_sign signer d) = true) →
  (∀ er, er ∈ rows → EventRow.payload_json er ≠ ""%string) →
  ingest_transaction hash_order now uuids b rows mv signer db = (db', r) →
  let feed := IngestBundle.feed b in
  match r with
  | Err _ => db' = db
  | Ok seqs => ∃ removed, NoDup removed
      ∧ (∀ t, t ∈ removed ↔ is_Some (tracks db !! (Feed.feed_guid feed, t))
                            ∧ t ∉ (snd ∘ track_key) <$> IngestBundle.tracks b)
      ∧ (∀ t, t ∈ removed → tracks db' !! (Feed.feed_guid feed, t) = None)
      ∧ let new := new_rows signer (next_seq db)
                     (rows ++ number_rows uuids (track_removed_event feed <$> removed)) in
        events db' = events db ++ new
        ∧ seqs = (λ r, (LogRow.seq r, LogRow.signed_by r, LogRow.signature r)) <$> new
        ∧ ∀ row ev, row ∈ new → event_of_row row = Ok ev → verify_event_signature ev = true
  end.
Proof.
  intros Hho Hcat Hlog Hj Hsig Hrows Hi feed. destruct r as [seqs|e]; [|by apply transaction_err in Hi].
  destruct (ingest_events hash_order now uuids b rows mv signer db db' seqs Hlog Hi)
    as (Hev & Hss & Hgone).
  exists (removed_guids hash_order b db). split; [|split; [|split; [exact Hgone|]]].
  - by apply removed_NoDup.
  - intros t. by apply elem_of_removed.
  - cbv zeta. split_and!; [done..|]. intros row ev Hin Hrow.
    eapply new_row_verifies; [exact Hsig| |exact Hin|exact Hrow].
    intros er [Her|(f & i & -> & (t & -> & _)%list_elem_of_fmap)%elem_of_number_rows]%elem_of_app;
      [by apply Hrows|]. apply Hj.
Qed.

(** pages of the log have no gap and no overlap. The page of [m + n] rows
    after a cursor is the page of [m] rows followed by the page of [n] rows
    after the last of those; and a page is the rows above the cursor in the
    order of the log. *)
Theorem pages_continue `{Crates} db c m n row page :
  log_ok db → 0 ≤ m → 0 ≤ n →
  rows_since c m db = page ++ [row] →
  Z.of_nat (length (page ++ [row])) = m →
  rows_since c (m + n) db = page ++ [row] ++ rows_since (LogRow.seq row) n db
  ∧ (∀ r, r ∈ page ++ [row] → c < LogRow.seq r ≤ LogRow.seq row)
  ∧ (∀ r, r ∈ events db → c < LogRow.seq r ≤ LogRow.seq row → r ∈ page ++ [row]).
Proof. apply rows_since_continue. Qed.

#[local] Existing Instance sample_crates.

Lemma new_feed_replicates_witness :
  ∃ evs, (get_events_since 0 100 sample_primary).2 = Ok evs
    ∧ ∃ R' ms ap df,
      apply_events 300 evs empty_db = (R', ApplySummary.mk 9 0 0 ms, ap, df)
      ∧ same_feed "feed-1" sample_primary R'
      ∧ (get_node_sync_cursor SYNC_CURSOR_KEY R').2 = Ok 9.
Proof.
  pose (seqs := match (ingest_transaction id 100 100 sample_bundle sample_rows None "key"
                  empty_db).2 with Ok s => s | Err _ => [] end).
  refine (new_feed_replicates id 100 300 100 0 sample_bundle sample_rows [] "key" None empty_db
    sample_primary seqs empty_db 0 100 _ _ _ _ _ _ _ _ _ _).
  - done.
  - apply sample_crates_ok.
  - apply sample_bundle_ok.
  - apply empty_ok.
  - split; [apply empty_ok|done|vm_compute; reflexivity|set_solver|].
    intros er _. reflexivity.
  - reflexivity.
  - vm_compute. reflexivity.
  - vm_compute. reflexivity.
  - reflexivity.
  - vm_compute. discriminate.
Defined.


Lemma apply_single_event_redelivered_witness :
  let db := (apply_single_event 300 sample_event empty_db).1 in
  apply_single_event 400 sample_event db = (db, Ok ApplyOutcome.Duplicate).
Proof.
  intros db. apply (apply_single_event_redelivered 300 400 sample_event empty_db db db
    (ApplyOutcome.Applied 1)); [vm_compute; reflexivity|done].
Defined.

Lemma batch_redelivered_witness :
  ∃ df, apply_events 400 sample_events sample_primary
    = (cursor_at 400 (max_event_seq sample_events 0) sample_primary,
       ApplySummary.mk 0 9 0 0, [], df).
Proof.
  apply (batch_redelivered 400 sample_events sample_primary).
  - apply (Forall_true_bool verify_event_signature). vm_compute. reflexivity.
  - vm_compute. repeat (constructor; [split; [reflexivity|eexists; reflexivity]|]). constructor.
Defined.

Lemma failed_event_is_lost_witness :
  let d := (apply_payload 300 100 (Event.payload sample_track_event)
              (log_event sample_track_event empty_db)).1 in
  apply_single_event 300 sample_track_event empty_db = (empty_db, Err (Rusqlite ForeignKey))
  ∧ ∃ df, apply_events 300 [sample_track_event] empty_db = (d, ApplySummary.mk 0 0 1 0, [], df).
Proof.
  intros d.
  destruct (failed_event_is_lost 300 sample_track_event (Event.payload sample_track_event)
    empty_db d (Rusqlite ForeignKey)) as (H1 & H2 & _); [vm_compute; reflexivity..|].
  split; [exact H1|exact H2].
Defined.

(** The sample feed again, without its second track. *)
Definition shorter_bundle : IngestBundle :=
  IngestBundle.mk sample_feed [] [] [] [] [] [] [] [] [] [] []
    [(sample_track "track-1" "One" 1, [], [], [])].

Definition shorter_ingest :=
  ingest_transaction id 200 200 shorter_bundle [] None "key" sample_primary.

Lemma ingest_atomic_witness :
  match shorter_ingest.2 with
  | Ok seqs => ∃ removed, "track-2"%string ∈ removed
      ∧ tracks shorter_ingest.1 !! ("feed-1", "track-2")%string = None
      ∧ events shorter_ingest.1 = events sample_primary
          ++ new_rows "key" (next_seq sample_primary)
               (number_rows 200 (track_removed_event sample_feed <$> removed))
  | Err _ => False
  end.
Proof.
  assert (node_ok sample_primary) as Hok
    by (eapply (node_step_ok id); [apply empty_ok|apply step_ingest]).
  destruct shorter_ingest.2 as [seqs|e] eqn:E; [|vm_compute in E; discriminate E].
  destruct (ingest_atomic id 200 200 shorter_bundle [] None "key" sample_primary shorter_ingest.1
    (Ok seqs)) as (removed & _ & Hin & Hgone & Hev & _).
  - done.
  - apply Hok.
  - apply Hok.
  - done.
  - intros d. apply table_verify.
  - intros er Her. destruct (not_elem_of_nil _ Her).
  - rewrite <-E. exact (surjective_pairing shorter_ingest).
  - assert ("track-2"%string ∈ removed) as Ht.
    { apply Hin. split; [vm_compute; by eexists|]. apply (bool_decide_unpack _). vm_compute. exact I. }
    exists removed. split; [exact Ht|]. split; [exact (Hgone _ Ht)|exact Hev].
Defined.

Lemma pages_continue_witness :
  let db := sample_primary in
  match rows_since 0 4 db with
  | [r1; r2; r3; r4] => rows_since 0 7 db = [r1; r2; r3] ++ [r4] ++ rows_since 4 3 db
  | _ => False
  end.
Proof.
  cbv zeta. destruct (rows_since 0 4 sample_primary) as [|r1 [|r2 [|r3 [|r4 [|r5 l]]]]] eqn:E;
    try (vm_compute in E; discriminate E).
  assert (LogRow.seq r4 = 4) as E4 by (vm_compute in E; by injection E as _ _ _ <-).
  destruct (pages_continue sample_primary 0 4 3 r4 [r1; r2; r3]) as (H & _); [|done|done|exact E|done|].
  - assert (node_ok sample_primary) as Hok; [|apply Hok].
    eapply (node_step_ok id); [apply empty_ok|apply step_ingest].
  - rewrite E4 in H. exact H.
Defined.
