(* ===== verification/StoreProps.v ===== *)
(** Properties of the store: the invariants of every reachable state, the
    upsert of a feed, the lists of a feed, and the cascading deletes. *)

From S2P Require Import Prelude.
From S2P Require Import Model.
From S2P Require Import Event.
From S2P Require Import Crates.
From S2P Require Import Store.
From S2P Require Import Tables.
From S2P Require Import Snapshot.
From S2P Require Import RowLists.
From S2P Require Import Search.
From S2P Require Import Catalog.
From S2P Require Import Feeds.
From S2P Require Import Integrity.
From S2P Require Import EventLog.
From S2P Require Import Diff.
From S2P Require Import IngestTx.
From S2P Require Import Apply.
From S2P Require Import Replica.
From S2P Require Import Parts.
From S2P Require Import Samples.


(** the write of a list of a feed and the read of it. The write succeeds
    exactly when the feed is there (or the list is empty), every row passes
    the checks of its table and no two rows have the same key; the read then
    gives the rows of the call, deduplicated, in the form the columns give
    back, and the lists of other feeds read as before. *)
Theorem list_write_read (l : FeedList) f rows db :
  owned (list_table l) f rows →
  (is_ok (list_replace l f rows db).2 = true ↔
     (∀ r, r ∈ snap_dedupe (T := list_table l) rows →
        tbl_check (list_table l) r = true ∧ feed_exists db f = true)
     ∧ NoDup (keys (list_table l) (snap_dedupe (T := list_table l) rows)))
  ∧ (∀ db', list_replace l f rows db = (db', Ok tt) →
     (∃ out, list_get l f db' = (db', Ok out)
        ∧ snap_fields (T := list_table l) <$> out
          ≡ₚ snap_norm ∘ snap_fields <$> snap_dedupe rows)
     ∧ ∀ g, g ≠ f → list_get l g db' = (db', (list_get l g db).2)).
Proof.
  intros Ho. rewrite list_replace_eq. split.
  - rewrite (snap_replace_succeeds (list_table l) f rows db Ho). by setoid_rewrite list_exists.
  - intros db' Hr. split.
    + destruct (list_get_perm l f db') as (out & -> & Hp). exists out. split; [done|].
      rewrite Hp. by rewrite (snap_replace_rows (list_table l) f rows db db' Ho Hr).
    + intros g Hg.
      assert (snap_rows (list_table l) g db' = snap_rows (list_table l) g db) as Hs.
      { apply (snap_replace_frame (list_table l) f g rows db db' Ho); [|done].
        intros r Hrf. by apply (list_scope_other l f g). }
      by apply list_get_rows.
Qed.

(** The cascade of a feed. [delete_feed] never fails. It removes the feed,
    its tracks and every row of the fourteen lists that names the feed, and
    the rows without a feed of the tracks it removes. It leaves every other
    feed, track and list row as it was. *)
Theorem delete_feed_cascades `{Crates} f db :
  let db' := (delete_feed f db).1 in
  (delete_feed f db).2 = Ok tt
  ∧ feeds db' = delete f (feeds db)
  ∧ tracks db' = filter (λ '((g, _), _), g ≠ f) (tracks db)
  ∧ (∀ l, tbl_get (list_table l) db' = others (list_table l) f db)
  ∧ payment_routes db'
    = List.filter (λ r, negb (PaymentRoute.feed_guid r =s f)) (payment_routes db)
  ∧ (∀ s, s ∈ value_time_splits db' ↔ s ∈ value_time_splits db ∧ Scoped.feed s ≠ Some f
       ∧ ∀ t, t ∈ feed_track_guids f db → null_split t s = false)
  ∧ (∀ s, s ∈ track_remote_items_raw db' ↔ s ∈ track_remote_items_raw db ∧ Scoped.feed s ≠ Some f
       ∧ ∀ t, t ∈ feed_track_guids f db → null_item t s = false)
  ∧ source_gone_answers db' !! f = None
  ∧ events db' = events db.
Proof.
  intros db'. destruct (delete_feed_ok f db) as [Hok Hdb]. unfold db'. rewrite Hok, Hdb.
  destruct (delete_feed_catalog f db) as [-> ->].
  destruct (delete_feed_track_lists f db) as (-> & -> & ->).
  split_and!; try done.
  - intros l. destruct (delete_feed_lists f db) as (?&?&?&?&?&?&?&?&?&?&?). by destruct l.
  - intros s. by rewrite elem_of_left.
  - intros s. by rewrite elem_of_left.
  - apply delete_feed_gone.
  - apply delete_feed_events.
Qed.

(** The cascade of a track. [delete_track] never fails, removes the track
    and the rows of its three lists, and leaves every other row of these
    tables, the feeds and the lists of the feeds as they were. *)
Theorem delete_track_cascades `{Crates} f t db :
  let db' := (delete_track f t db).1 in
  (delete_track f t db).2 = Ok tt
  ∧ feeds db' = feeds db
  ∧ tracks db' = delete (f, t) (tracks db)
  ∧ (∀ k, tbl_get (track_table k) db' = others (track_table k) (f, t) db)
  ∧ (∀ l, tbl_get (list_table l) db' = tbl_get (list_table l) db)
  ∧ events db' = events db.
Proof.
  intros db'. destruct (delete_track_ok f t db) as [Hok Hdb]. unfold db'. rewrite Hok, Hdb.
  destruct (delete_track_lists f t db) as (E1 & E2 & E3 & E4 & E5).
  split_and!; try done.
  - by intros [].
  - intros []; by apply delete_track_keeps.
  - by apply delete_track_keeps.
Qed.

(** the upsert of a feed. It fails, and changes nothing, exactly when
    another feed has the URL. Otherwise the row of the feed holds the new
    columns, keeps the creation time and the local columns of the row that
    was there, and the rows of other feeds stay. *)
Theorem upsert_feed_spec feed db :
  catalog_ok db →
  let g := Feed.feed_guid feed in
  ((∃ h row, h ≠ g ∧ feeds db !! h = Some row
      ∧ Feed.feed_url (FeedRow.feed row) = Feed.feed_url feed) →
    upsert_feed feed db = (db, Err (Rusqlite Unique)))
  ∧ ((∀ h row, feeds db !! h = Some row →
        Feed.feed_url (FeedRow.feed row) = Feed.feed_url feed → h = g) →
    ∃ db', upsert_feed feed db = (db', Ok tt)
      ∧ (∀ h, h ≠ g → feeds db' !! h = feeds db !! h)
      ∧ ∃ row, feeds db' !! g = Some row
        ∧ match feeds db !! g with
          | None => row = FeedRow.mk feed None None None None
          | Some old =>
              FeedRow.feed row = feed_created (Feed.created_at (FeedRow.feed old)) feed
              ∧ FeedRow.declared_self_url row = FeedRow.declared_self_url old
              ∧ FeedRow.declared_new_feed_url row = FeedRow.declared_new_feed_url old
              ∧ FeedRow.podcast_locked row = FeedRow.podcast_locked old
              ∧ FeedRow.locked_owner row = FeedRow.locked_owner old
          end).
Proof.
  intros (Hk & _ & _) g. split.
  - intros (h & row & Hne & Hr & Hu). unfold upsert_feed. fold g.
    assert (url_taken db g (Feed.feed_url feed) = true) as ->; [|done].
    apply not_false_iff_true. intros Hn. rewrite url_taken_false in Hn.
    apply Hne. rewrite <-(Hk h row Hr). eauto.
  - intros Hfree. unfold upsert_feed. fold g.
    assert (url_taken db g (Feed.feed_url feed) = false) as ->.
    { apply url_taken_false. intros h row Hr Hu. rewrite (Hk h row Hr). eauto. }
    eexists. split; [reflexivity|]. cbn [feeds set_feeds]. split.
    + intros h Hh. by rewrite lookup_insert_ne.
    + eexists. split; [by rewrite lookup_insert_eq|]. by destruct (feeds db !! g).
Qed.

(** ** Instances at concrete inputs *)

#[local] Existing Instance sample_crates.
#[local] Open Scope string_scope.



Lemma list_write_read_witness :
  let l := LiveEventList in
  let rows := [sample_live "b"; sample_live "a"; sample_live "b"] in
  is_ok (list_replace l "feed-1" rows sample_primary).2 = true
  ∧ is_ok (list_replace l "feed-1" rows empty_db).2 = false.
Proof.
  intros l rows.
  assert (owned (list_table l) "feed-1" rows) as Ho by repeat constructor.
  split.
  - apply (list_write_read l "feed-1" rows sample_primary Ho). split.
    + intros r Hr. vm_compute in Hr.
      repeat (apply elem_of_cons in Hr as [->|Hr]; [by vm_compute|]). set_solver.
    + apply (bool_decide_unpack _). vm_compute. exact I.
  - apply not_true_iff_false. intros [Hr _]%(list_write_read l "feed-1" rows empty_db Ho).
    assert (sample_live "b" ∈ snap_dedupe (T := list_table l) rows) as Hb
      by (vm_compute; left).
    by destruct (Hr _ Hb) as [_ Hf].
Defined.

Lemma upsert_feed_spec_witness :
  let stranger := Feed.mk "feed-2" "https://a.example/feed.xml" "Other" "other" None None None
    None false None None None None None 0 None None 1 1 None None None in
  upsert_feed stranger sample_primary = (sample_primary, Err (Rusqlite Unique)).
Proof.
  intros stranger. apply (upsert_feed_spec stranger sample_primary).
  - apply (node_step_ok id empty_db); [apply empty_ok|apply step_ingest].
  - exists "feed-1". eexists. split_and!; [done|vm_compute; reflexivity|reflexivity].
Defined.
