(* ===== verification/DiffProps.v ===== *)
(** Properties of the diff of a feed that the node holds: which events it
    makes, and when it makes none. *)

From S2P Require Import Prelude.
From S2P Require Import Model.
From S2P Require Import Event.
From S2P Require Import Crates.
From S2P Require Import Store.
From S2P Require Import Tables.
From S2P Require Import Snapshot.
From S2P Require Import RowLists.
From S2P Require Import Catalog.
From S2P Require Import Integrity.
From S2P Require Import EventLog.
From S2P Require Import Diff.
From S2P Require Import IngestTx.
From S2P Require Import Apply.
From S2P Require Import Frames.
From S2P Require Import Replica.
From S2P Require Import Parts.
From S2P Require Import Ingested.
From S2P Require Import Samples.

(** ** What the diff compares *)

(** The stored rows of a list, in the order of the comparison. *)
Definition stored_rows (l : FeedList) (g : string) (db : Db) : list (list_row l) :=
  match (list_get l g db).2 with
  | Ok rows =>
      match l return list (list_row l) → list (list_row l) with
      | LiveEventList => sort_by by_item_guid
      | _ => λ rows, rows
      end rows
  | Err _ => []
  end.

(** The columns that the comparison of a list looks at. *)
Definition list_content (l : FeedList) (rows : list (list_row l)) :=
  snap_fields (T := list_table l) <$> rows.

Definition list_changed (b : IngestBundle) (db : Db) (l : FeedList) : bool :=
  snap_changed (T := list_table l)
    (stored_rows l (Feed.feed_guid (IngestBundle.feed b)) db) (event_list_rows b l).

Lemma list_changed_spec b db l :
  list_changed b db l = false ↔
  list_content l (stored_rows l (Feed.feed_guid (IngestBundle.feed b)) db)
  = list_content l (event_list_rows b l).
Proof. apply (snap_changed_spec (T := list_table l)). Qed.

Lemma list_changed_true b db l :
  list_changed b db l = true ↔
  list_content l (stored_rows l (Feed.feed_guid (IngestBundle.feed b)) db)
  ≠ list_content l (event_list_rows b l).
Proof. by rewrite <-list_changed_spec, not_false_iff_true. Qed.

Definition stored_items (track : Track) (db : Db) : list TrackRemoteItemRaw :=
  Scoped.row <$> order_by track_remote_items_order
    (List.filter (in_item_scope (Track.feed_guid track) (Track.track_guid track))
       (track_remote_items_raw db)).

(** What [track_remote_items_changed] compares. *)
Definition item_content (i : TrackRemoteItemRaw) :=
  (TrackRemoteItemRaw.position i, TrackRemoteItemRaw.medium i,
   TrackRemoteItemRaw.remote_feed_guid i, TrackRemoteItemRaw.remote_feed_url i,
   TrackRemoteItemRaw.source i).

Lemma track_remote_items_changed_spec l k :
  track_remote_items_changed l k = false ↔ item_content <$> l = item_content <$> k.
Proof.
  apply any_zip_false. intros a b. unfold item_content.
  rewrite ?orb_false_iff, ?bne_false, ?pair_equal_spec. tauto.
Qed.

Section changes.
Context `{Crates}.

(** The rows of one track. *)
Definition track_diff (b : IngestBundle) (now : Z) (warnings : list string) (db : Db)
    (bundle : TrackIngestBundle) : list (string → EventRow) :=
  let '(track, routes, vts, items) := bundle in
  let upserted := build_track_upserted_event track routes vts now warnings in
  let replaced := build_track_remote_items_event track items now warnings in
  match tracks db !! (Feed.feed_guid (IngestBundle.feed b), Track.track_guid track) with
  | None => upserted :: push_if (is_nonempty items) replaced
  | Some e =>
      if track_fields_changed e track
      then upserted :: push_if (is_nonempty items || is_nonempty (stored_items track db)) replaced
      else push_if (track_remote_items_changed (stored_items track db) items) replaced
  end.

(** The lookup in the map of the stored tracks. *)
Lemma find_track g u db :
  catalog_ok db →
  List.find (λ t, Track.track_guid t =s u) (tracks_of g db) = tracks db !! (g, u).
Proof using Type.
  intros (_ & Ht & _).
  assert (∀ t, t ∈ tracks_of g db ↔ ∃ v, tracks db !! (g, v) = Some t) as Hin.
  { intros t. unfold tracks_of. rewrite sort_by_perm, list_elem_of_fmap. split.
    - intros ([[f v] t'] & -> & [Hf Hp]%elem_of_filterb). exists v.
      apply String.eqb_eq in Hf as ->. by apply elem_of_map_to_list in Hp.
    - intros [v Hv]. exists ((g, v), t). split; [done|]. apply elem_of_filterb.
      split; [apply String.eqb_refl|by apply elem_of_map_to_list]. }
  destruct (List.find _ _) as [t|] eqn:Hf.
  - apply List.find_some in Hf as [Hm Hu%String.eqb_eq].
    apply list_elem_of_In, Hin in Hm as [v Hv].
    destruct (Ht _ _ _ Hv) as (_ & Hv' & _). congruence.
  - destruct (tracks db !! (g, u)) as [t|] eqn:Hu; [|done].
    destruct (Ht _ _ _ Hu) as (_ & Hu' & _).
    assert (t ∈ tracks_of g db) as Hm by (apply Hin; eauto).
    apply list_elem_of_In in Hm. apply (List.find_none _ _ Hf) in Hm.
    by rewrite Hu', String.eqb_refl in Hm.
Qed.

Lemma track_changed_events_eq b now warnings db bundle :
  catalog_ok db →
  track_changed_events (tracks_of (Feed.feed_guid (IngestBundle.feed b)) db) now warnings bundle db
  = (db, Ok (track_diff b now warnings db bundle)).
Proof using Type.
  intros Hc. destruct bundle as [[[track routes] vts] items].
  unfold track_changed_events, track_diff. rewrite find_track by done.
  unfold get_track_remote_items_for_feed_track, query, mbind, db_bind.
  fold (stored_items track db).
  destruct (tracks db !! _) as [e|]; cbn [is_none_or is_some andb].
  - by destruct (track_fields_changed e track).
  - by rewrite orb_false_r.
Qed.

Lemma flat_map_db_pure {A B} (f : A → DB (list B)) (h : A → list B) l db :
  (∀ x, x ∈ l → f x db = (db, Ok (h x))) →
  flat_map_db f l db = (db, Ok (concat (h <$> l))).
Proof using Type.
  induction l as [|x l IH]; intros Hf; [done|]. cbn [flat_map_db].
  unfold mbind, db_bind. rewrite Hf by left. rewrite IH by (intros; apply Hf; by right). done.
Qed.

(** The list events of a known feed. *)
Definition list_diff (b : IngestBundle) (now : Z) (warnings : list string) (db : Db) :
    list (string → EventRow) :=
  concat ((λ l, push_if (list_changed b db l)
    (list_event l (IngestBundle.feed b) (event_list_rows b l) now warnings)) <$> event_lists).

Lemma build_changed_events_eq b now warnings ef db :
  catalog_ok db →
  build_changed_events b now warnings ef db
  = (db, Ok (push_if (feed_fields_changed ef (IngestBundle.feed b))
               (build_feed_upserted_event (IngestBundle.feed b) now warnings)
             ++ list_diff b now warnings db
             ++ concat (track_diff b now warnings db <$> IngestBundle.tracks b))).
Proof using Type.
  intros Hc. unfold build_changed_events.
  set (g := Feed.feed_guid (IngestBundle.feed b)).
  pose proof (flat_map_db_pure (track_changed_events (tracks_of g db) now warnings)
    (track_diff b now warnings db) (IngestBundle.tracks b) db
    (λ x _, track_changed_events_eq b now warnings db x Hc)) as Ht.
  unfold mbind, db_bind.
  change (get_tracks_for_feed g) with (query (tracks_of g)).
  unfold query in *. cbn.
  lazy zeta. rewrite Ht.
  do 3 f_equal. unfold list_diff, event_lists. cbn [fmap list_fmap concat].
  rewrite <-!app_assoc. reflexivity.
Qed.
End changes.

(** ** Facts on the rows *)

Lemma push_if_nil {A} c (row : A) : push_if c row = [] ↔ c = false.
Proof. by destruct c. Qed.

Lemma concat_nil {A B} (f : A → list B) l : concat (f <$> l) = [] ↔ ∀ x, x ∈ l → f x = [].
Proof.
  induction l as [|x l IH]; cbn; [set_solver|].
  rewrite app_nil, IH. setoid_rewrite elem_of_cons.
  split; [intros [H1 H2] y [->|Hy]; auto|auto].
Qed.

Lemma elem_of_concat_fmap {A B} (f : A → list B) l y :
  y ∈ concat (f <$> l) ↔ ∃ x, x ∈ l ∧ y ∈ f x.
Proof.
  induction l as [|x l IH]; cbn; [set_solver|]. rewrite elem_of_app, IH.
  setoid_rewrite elem_of_cons. naive_solver.
Qed.

Lemma elem_of_push_if {A} c (row y : A) : y ∈ push_if c row ↔ c = true ∧ y = row.
Proof. destruct c; set_solver. Qed.

Section facts.
Context `{Crates}.

Lemma number_rows_nil n rows : number_rows n rows = [] ↔ rows = [].
Proof using Type. by destruct rows. Qed.

Lemma track_diff_nil b now warnings db track routes vts items :
  track_diff b now warnings db (track, routes, vts, items) = [] ↔
  ∃ e, tracks db !! (Feed.feed_guid (IngestBundle.feed b), Track.track_guid track) = Some e
    ∧ track_content e = track_content track
    ∧ item_content <$> stored_items track db = item_content <$> items.
Proof using Type.
  unfold track_diff. destruct (tracks db !! _) as [e|]; [|split; [done|by intros (? & ? & _)]].
  destruct (track_fields_changed e track) eqn:He.
  - split; [done|]. intros (e' & [= <-] & Hc & _).
    apply track_fields_changed_spec in Hc. congruence.
  - apply track_fields_changed_spec in He.
    rewrite push_if_nil, track_remote_items_changed_spec. split.
    + intros Hi. by exists e.
    + by intros (e' & _ & _ & Hi).
Qed.

(** The rows of the diff of a known feed, before they are numbered. *)
Definition known_diff (b : IngestBundle) (now : Z) (warnings : list string) (row : FeedRow)
    (db : Db) : list (string → EventRow) :=
  push_if (feed_fields_changed (FeedRow.feed row) (IngestBundle.feed b))
    (build_feed_upserted_event (IngestBundle.feed b) now warnings)
  ++ list_diff b now warnings db
  ++ concat (track_diff b now warnings db <$> IngestBundle.tracks b).

Lemma build_diff_known b now warnings n db row :
  catalog_ok db → feeds db !! Feed.feed_guid (IngestBundle.feed b) = Some row →
  build_diff_events b now warnings n db
  = (db, Ok (number_rows n (known_diff b now warnings row db))).
Proof using Type.
  intros Hc Hrow. unfold build_diff_events, get_feed_by_guid, query, mbind, db_bind.
  rewrite Hrow. cbn [fmap option_fmap option_map]. by rewrite build_changed_events_eq.
Qed.

(** Whether the node holds what the submission says, as far as the diff sees. *)
Definition held (b : IngestBundle) (row : FeedRow) (db : Db) : Prop :=
  let feed := IngestBundle.feed b in
  feed_content (FeedRow.feed row) = feed_content feed
  ∧ (∀ l, list_content l (stored_rows l (Feed.feed_guid feed) db)
          = list_content l (event_list_rows b l))
  ∧ ∀ track routes vts items, (track, routes, vts, items) ∈ IngestBundle.tracks b →
      ∃ e, tracks db !! (Feed.feed_guid feed, Track.track_guid track) = Some e
        ∧ track_content e = track_content track
        ∧ item_content <$> stored_items track db = item_content <$> items.

Lemma known_diff_nil b now warnings row db :
  known_diff b now warnings row db = [] ↔ held b row db.
Proof using Type.
  unfold known_diff, held, list_diff.
  rewrite !app_nil, push_if_nil, feed_fields_changed_spec, !concat_nil.
  split; intros (H1 & H2 & H3); (split_and!; [done| |]).
  - intros l. apply list_changed_spec. by eapply push_if_nil, H2, elem_of_event_lists.
  - intros track routes vts items Hin. exact (proj1 (track_diff_nil _ _ _ _ _ _ _ _) (H3 _ Hin)).
  - intros l _. by apply push_if_nil, list_changed_spec.
  - intros [[[track routes] vts] items] Hin. apply track_diff_nil. by eapply H3.
Qed.

(** The type of the event of a list. *)
Definition list_type (l : FeedList) : EventType :=
  payload_type (list_payload l "" []).

Lemma list_event_type l feed rows now warnings id :
  EventRow.event_type (list_event l feed rows now warnings id) = list_type l.
Proof using Type. by destruct l. Qed.

Lemma list_type_inj l k : list_type l = list_type k → l = k.
Proof using Type. by destruct l, k. Qed.

(** A track row is not of the type of a list, and the row of the feed neither. *)
Lemma track_diff_type b now warnings db bundle l f id :
  f ∈ track_diff b now warnings db bundle → EventRow.event_type (f id) ≠ list_type l.
Proof using Type.
  destruct bundle as [[[track routes] vts] items]. unfold track_diff.
  assert (∀ c row, f ∈ push_if c row →
    row = build_track_remote_items_event track items now warnings →
    EventRow.event_type (f id) ≠ list_type l) as Hp.
  { intros c row [_ ->]%elem_of_push_if ->. by destruct l. }
  destruct (tracks db !! _) as [e|]; [destruct (track_fields_changed e track)|];
    rewrite ?elem_of_cons; intros Hf; try destruct Hf as [->|Hf]; eauto; by destruct l.
Qed.
End facts.

(** ** The rows after the first ingest *)

(** The rows of a live list are in one order only when no GUID comes twice. *)
Lemma stored_view l g db :
  (l = LiveEventList → NoDup (LiveEvent.live_item_guid <$>
     List.filter (λ e, LiveEvent.feed_guid e =s g) (live_events db))) →
  list_content l (stored_rows l g db) = snap_view (list_table l) g db.
Proof.
  intros Hl. destruct l; try reflexivity.
  - unfold list_content, stored_rows, snap_view. f_equal. symmetry. apply order_by_id.
    match goal with |- StronglySorted _ ?rows => generalize rows end. intros k.
    induction k as [|r k IH]; constructor; [done|]. by apply List.Forall_forall.
  - specialize (Hl eq_refl). unfold list_content, stored_rows, snap_view. f_equal.
    set (rows := List.filter _ _) in *.
    change (sort_by by_item_guid (order_by live_events_order rows)
      = order_by (λ e, [VText (LiveEvent.live_item_guid e)]) rows).
    apply (StronglySorted_unique_strong
      (λ a b, cols_le [VText (LiveEvent.live_item_guid a)]
                [VText (LiveEvent.live_item_guid b)] = true)).
    + intros a b Ha Hb Hab Hba. rewrite sort_by_perm, order_by_perm in Ha.
      rewrite order_by_perm in Hb. apply (NoDup_fmap_inj _ _ _ _ Hl Ha Hb).
      rewrite <-!by_item_guid_le in *. unfold by_item_guid in *.
      apply (anti_symm String.le); by apply Is_true_true.
    + rewrite (sort_by_ext _ _ _ by_item_guid_le). apply order_by_sorted.
    + apply order_by_sorted.
    + by rewrite sort_by_perm, !order_by_perm.
Qed.

Section resubmission.
Context `{Crates} (hash_order : list string → list string).
Context (hash_order_perm : ∀ l, hash_order l ≡ₚ l).

(** The content that storing a list gives back. *)
Definition settled_content (l : FeedList) (rows : list (list_row l)) :=
  order_by (snap_cols (T := list_table l))
    (snap_norm (T := list_table l) ∘ snap_fields (T := list_table l)
       <$> snap_dedupe (T := list_table l) rows).

Lemma ingested_content b rows signer db db' l :
  bundle_ok b → ingested b rows signer db db' →
  list_content l (stored_rows l (Feed.feed_guid (IngestBundle.feed b)) db')
  = settled_content l (bundle_rows b l).
Proof using Type.
  intros Hb Hi. destruct (ing_lists _ _ _ _ _ Hi l) as (p & p' & Hp & Hg).
  pose proof (bundle_lists b Hb l) as Ho. rewrite stored_view.
  - rewrite (snap_view_get (list_table l) _ _ _ Hg).
    exact (snap_replace_view (list_table l) _ _ _ _ Ho Hp).
  - intros ->. pose proof (snap_replace_rows (list_table LiveEventList) _ _ _ _ Ho Hp) as Hr.
    unfold snap_rows in Hr. rewrite <-Hg in Hr.
    set (g := Feed.feed_guid _) in *.
    change (live_events_fields <$> List.filter (λ e, LiveEvent.feed_guid e =s g) (live_events db')
      = live_events_fields <$> dedupe_live_events (IngestBundle.live_events b)) in Hr.
    apply (f_equal (fmap (λ v, v.1.1.1.1.1.1.1))) in Hr. rewrite <-!list_fmap_compose in Hr.
    change (LiveEvent.live_item_guid <$> List.filter (λ e, LiveEvent.feed_guid e =s g)
      (live_events db')
      = LiveEvent.live_item_guid <$> dedupe_live_events (IngestBundle.live_events b)) in Hr.
    assert (NoDup (LiveEvent.live_item_guid <$> dedupe_live_events (IngestBundle.live_events b)))
      as Hn by apply dedupe_by_NoDup.
    by rewrite Hr.
Qed.

Lemma ingested_items b rows signer db db' track routes vts items :
  bundle_ok b → ingested b rows signer db db' →
  (track, routes, vts, items) ∈ IngestBundle.tracks b →
  item_content <$> stored_items track db'
  = item_content <$> order_by (λ i, [VInt (TrackRemoteItemRaw.position i)]) items.
Proof using Type.
  intros Hb Hi Hin. destruct (ing_track_lists _ _ _ _ _ Hi _ TrackItems Hin) as (p & p' & Hp & Hg).
  pose proof (bundle_track_rows b Hb _ TrackItems Hin) as Ho.
  pose proof (snap_replace_view (track_table TrackItems) _ _ _ _ Ho Hp) as Hv.
  rewrite <-(snap_view_rows (track_table TrackItems) _ _ _ Hg) in Hv.
  set (cols := λ v : Z * option string * string * option string * option string * string,
    [VInt v.1.1.1.1.1]).
  set (row := λ i : TrackRemoteItemRaw, (TrackRemoteItemRaw.position i, TrackRemoteItemRaw.medium i,
    TrackRemoteItemRaw.remote_feed_guid i, TrackRemoteItemRaw.remote_feed_url i,
    TrackRemoteItemRaw.rel i, TrackRemoteItemRaw.source i)).
  set (drop_rel := λ v : Z * option string * string * option string * option string * string,
    (v.1.1.1.1.1, v.1.1.1.1.2, v.1.1.1.2, v.1.1.2, v.2)).
  assert (row <$> stored_items track db' = order_by cols (row <$> items)) as Hrow.
  { unfold stored_items. rewrite <-list_fmap_compose.
    etransitivity; [exact Hv|].
    change (order_by (snap_cols (T := track_remote_items_raw_table)) (track_remote_items_fields <$>
      ((λ i, item_of_track (Some (or_feed (TrackRemoteItemRaw.feed_guid i) (Track.feed_guid track)))
               (Track.track_guid track) i) <$> items)) = order_by cols (row <$> items)).
    rewrite <-list_fmap_compose.
    unfold order_by. apply sort_by_ext. by intros [[[[[??]?]?]?]?] [[[[[??]?]?]?]?]. }
  apply (f_equal (fmap drop_rel)) in Hrow. rewrite <-list_fmap_compose in Hrow.
  etransitivity; [exact Hrow|]. rewrite <-order_by_fmap, <-list_fmap_compose. reflexivity.
Qed.
End resubmission.

(** ** Theorems *)

(** A known feed without a change makes no event. The diff of a feed that
    the node holds never fails and never writes. It makes no event exactly
    when the compared columns of the feed are the stored ones, each of the
    eleven lists has the stored content in the stored order, and each track of
    the submission is stored with the same compared columns and the same
    remote items. *)
Theorem diff_silent `{Crates} b now warnings n db row :
  catalog_ok db → feeds db !! Feed.feed_guid (IngestBundle.feed b) = Some row →
  ∃ rows, build_diff_events b now warnings n db = (db, Ok rows) ∧ (rows = [] ↔ held b row db).
Proof.
  intros Hc Hrow. eexists. split; [by apply build_diff_known|].
  by rewrite number_rows_nil, known_diff_nil.
Qed.

(** a changed list makes one event with all its rows. For a known feed, the
    diff has a row of the type of a list exactly when the content of the list
    differs from the stored one, and the payload of such a row is the whole
    new list of the submission, under the feed. *)
Theorem diff_list_event `{Crates} b now warnings n db row rows l :
  catalog_ok db →
  let feed := IngestBundle.feed b in
  feeds db !! Feed.feed_guid feed = Some row →
  build_diff_events b now warnings n db = (db, Ok rows) →
  ((∃ er, er ∈ rows ∧ EventRow.event_type er = list_type l) ↔
     list_content l (stored_rows l (Feed.feed_guid feed) db)
       ≠ list_content l (event_list_rows b l))
  ∧ ∀ er, er ∈ rows → EventRow.event_type er = list_type l →
      EventRow.payload_json er
        = event_json (list_payload l (Feed.feed_guid feed) (event_list_rows b l))
      ∧ EventRow.subject_guid er = Feed.feed_guid feed.
Proof.
  intros Hc feed Hrow Hd.
  rewrite (build_diff_known b now warnings n db row Hc Hrow) in Hd. injection Hd as <-.
  set (ev := list_event l feed (event_list_rows b l) now warnings).
  set (fs := known_diff b now warnings row db).
  assert (∀ f id, f ∈ fs → EventRow.event_type (f id) = list_type l →
    f = ev ∧ list_changed b db l = true) as Hin.
  { intros f id Hf Ht. apply elem_of_app in Hf as [[_ ->]%elem_of_push_if|Hf]; [by destruct l|].
    apply elem_of_app in Hf as [Hf|(x & _ & Hf)%elem_of_concat_fmap];
      [|by eapply track_diff_type in Hf].
    apply elem_of_concat_fmap in Hf as (k & _ & [Hk ->]%elem_of_push_if).
    rewrite list_event_type in Ht. by apply list_type_inj in Ht as ->. }
  assert (∀ er, er ∈ number_rows n fs → ∃ f id, f ∈ fs ∧ er = f id) as Hnum.
  { unfold number_rows. intros er (i & f & -> & Hf%list_elem_of_lookup_2)%elem_of_lookup_imap. eauto. }
  pose proof (list_changed_true b db l) as Hct. fold feed in Hct.
  rewrite <-Hct. split; [split|].
  - intros (er & (f & id & Hf & ->)%Hnum & Ht). by apply (Hin f id).
  - intros Hch. assert (ev ∈ fs) as [i Hi]%list_elem_of_lookup.
    { apply elem_of_app. right. apply elem_of_app. left. apply elem_of_concat_fmap. exists l.
      split; [apply elem_of_event_lists|by apply elem_of_push_if]. }
    exists (ev (new_v4 (n + i))). split; [|apply list_event_type].
    unfold number_rows. apply elem_of_lookup_imap. eauto.
  - intros er (f & id & Hf & ->)%Hnum Ht. destruct (Hin f id Hf Ht) as [-> _].
    unfold ev, list_event. by destruct l.
Qed.

(** C15: ingesting a feed settles it. After the first ingest of a feed, whose
    rows are under it and under tracks with distinct GUIDs, the diff of the same submission makes no event exactly when each list of the
    submission is in the form that a read gives back: deduplicated, in the
    order of the read, and with the columns as they are stored; the remote
    items of each track have to be in the order of their positions. *)
Theorem resubmission_silent `{Crates} (hash_order : list string → list string)
    now uuids b rows mv signer P P' seqs now' warnings n :
  (∀ l, hash_order l ≡ₚ l) → bundle_ok b → node_ok P →
  feeds P !! Feed.feed_guid (IngestBundle.feed b) = None →
  ingest_transaction hash_order now uuids b rows mv signer P = (P', Ok seqs) →
  ∃ rows', build_diff_events b now' warnings n P' = (P', Ok rows')
    ∧ (rows' = [] ↔
        (∀ l, settled_content l (bundle_rows b l) = list_content l (event_list_rows b l))
        ∧ ∀ track routes vts items, (track, routes, vts, items) ∈ IngestBundle.tracks b →
            item_content <$> order_by (λ i, [VInt (TrackRemoteItemRaw.position i)]) items
            = item_content <$> items).
Proof.
  intros Hho Hb HP Hnew Hi.
  assert (node_ok P') as HP'.
  { replace P' with (ingest_transaction hash_order now uuids b rows mv signer P).1
      by (by rewrite Hi). eapply (node_step_ok hash_order); [done|apply step_ingest]. }
  pose proof HP' as ((Hc & _) & _). destruct HP as (Hst & Hlog & _).
  pose proof (ingest_new hash_order Hho now uuids b rows mv signer P P' seqs Hb Hst Hlog Hnew Hi)
    as Hin.
  pose proof (ing_feed _ _ _ _ _ Hin) as Hf. apply fmap_Some in Hf as (row & Hrow & Hrf).
  eexists. split; [by eapply build_diff_known|]. rewrite number_rows_nil, known_diff_nil.
  unfold held. setoid_rewrite (λ l, ingested_content b rows signer P P' l Hb Hin).
  split; [intros (_ & Hl & Ht)|intros (Hl & Ht)].
  - split; [done|]. intros track routes vts items Hx. destruct (Ht _ _ _ _ Hx) as (_ & _ & _ & <-).
    by rewrite (ingested_items b rows signer P P' track routes vts items).
  - split; [by rewrite <-Hrf|split; [done|]]. intros track routes vts items Hx. exists track. split_and!; [|done|].
    + pose proof (ing_tracks _ _ _ _ _ Hin _ Hx) as Htr. cbn in Htr.
      pose proof (bundle_feed b Hb _ Hx) as Hg. unfold track_key in Htr, Hg. cbn in Htr, Hg.
      by rewrite <-Hg.
    + rewrite (ingested_items b rows signer P P' track routes vts items) by done. by eapply Ht.
Qed.

(** The parts of a track bundle that the diff looks at. *)
Definition but_payment (x : TrackIngestBundle) : Track * list TrackRemoteItemRaw :=
  (x.1.1.1, x.2).

(** payment changes of a track make no event. When the diff of a
    submission makes no event, neither does the diff of one that differs from
    it in the payment routes and the value time splits of the tracks only: the
    ingest writes the new routes, and no node that follows the log hears of
    them. *)
Theorem payment_change_unseen `{Crates} b b' now warnings n db row :
  catalog_ok db → feeds db !! Feed.feed_guid (IngestBundle.feed b) = Some row →
  IngestBundle.feed b' = IngestBundle.feed b →
  (∀ l, bundle_rows b' l = bundle_rows b l) →
  but_payment <$> IngestBundle.tracks b' = but_payment <$> IngestBundle.tracks b →
  build_diff_events b now warnings n db = (db, Ok []) →
  build_diff_events b' now warnings n db = (db, Ok []).
Proof.
  intros Hc Hrow Hf Hl Ht. rewrite !(build_diff_known _ now warnings n db row) by congruence.
  intros [= Hd]. do 2 f_equal. rewrite number_rows_nil, known_diff_nil in *.
  destruct Hd as (H1 & H2 & H3). unfold held, event_list_rows. rewrite Hf. split_and!; [done| |].
  - intros l. rewrite Hl. apply H2.
  - intros track routes vts items Hin.
    assert ((track, items) ∈ but_payment <$> IngestBundle.tracks b) as Hx.
    { rewrite <-Ht. by apply (list_elem_of_fmap_2 but_payment _ (track, routes, vts, items)). }
    apply list_elem_of_fmap in Hx as ([[[track' routes'] vts'] items'] & [= <- <-] & Hx).
    by eapply H3.
Qed.

(** ** Instances at concrete inputs *)

#[local] Existing Instance sample_crates.
#[local] Open Scope string_scope.

Definition sample_row : FeedRow := FeedRow.mk sample_feed None None None None.

Lemma sample_catalog_ok : catalog_ok sample_primary.
Proof.
  assert (node_ok sample_primary) as Hok; [|apply Hok].
  eapply (node_step_ok id); [apply empty_ok|apply step_ingest].
Qed.

Lemma diff_silent_witness :
  ∃ rows, build_diff_events sample_bundle 200 [] 0 sample_primary = (sample_primary, Ok rows)
    ∧ (rows = [] ↔ held sample_bundle sample_row sample_primary).
Proof.
  apply diff_silent; [apply sample_catalog_ok|vm_compute; reflexivity].
Defined.

(** The submission with the list of contributors emptied. *)
Definition sample_without_claims : IngestBundle :=
  IngestBundle.mk sample_feed (IngestBundle.remote_items sample_bundle) [] []
    (IngestBundle.source_entity_links sample_bundle) [] [] [] []
    (IngestBundle.feed_routes sample_bundle) [] (IngestBundle.live_events sample_bundle)
    (IngestBundle.tracks sample_bundle).

Lemma diff_list_event_witness :
  match (build_diff_events sample_without_claims 200 [] 0 sample_primary).2 with
  | Ok rows => (∃ er, er ∈ rows ∧ EventRow.event_type er = list_type Contributors)
      ∧ ∀ er, er ∈ rows → EventRow.event_type er = list_type Contributors →
          EventRow.subject_guid er = "feed-1"
  | Err _ => False
  end.
Proof.
  destruct (build_diff_events sample_without_claims 200 [] 0 sample_primary) as [d r] eqn:E.
  assert (d = sample_primary) as -> by (vm_compute in E; by injection E).
  destruct r as [rows|e]; [|vm_compute in E; discriminate].
  destruct (diff_list_event sample_without_claims 200 [] 0 sample_primary sample_row rows
    Contributors sample_catalog_ok) as [H1 H2]; [vm_compute; reflexivity|exact E|].
  cbn [snd]. split.
  - apply H1. vm_compute. discriminate.
  - intros er Her Ht. by apply (H2 er Her Ht).
Defined.

Lemma resubmission_silent_witness :
  build_diff_events sample_bundle 200 [] 0 sample_primary = (sample_primary, Ok []).
Proof.
  pose (seqs := match (ingest_transaction id 100 100 sample_bundle sample_rows None "key"
                  empty_db).2 with Ok s => s | Err _ => [] end).
  destruct (resubmission_silent id 100 100 sample_bundle sample_rows None "key" empty_db
    sample_primary seqs 200 [] 0) as (rows' & -> & [_ Hr]).
  - done.
  - apply sample_bundle_ok.
  - apply empty_ok.
  - reflexivity.
  - vm_compute. reflexivity.
  - rewrite Hr; [done|]. split.
    + by intros [].
    + intros track routes vts items Hin.
      repeat (apply elem_of_cons in Hin as [[= -> -> -> ->]|Hin]; [by vm_compute|]). set_solver.
Defined.

(** The submission with another route for the first track. *)
Definition sample_rerouted : IngestBundle :=
  IngestBundle.mk sample_feed (IngestBundle.remote_items sample_bundle)
    (IngestBundle.source_contributor_claims sample_bundle) []
    (IngestBundle.source_entity_links sample_bundle) [] [] [] []
    (IngestBundle.feed_routes sample_bundle) [] (IngestBundle.live_events sample_bundle)
    [(sample_track "track-1" "One" 1, [], [], [sample_item 0; sample_item 1]);
     (sample_track "track-2" "Two" 2, [sample_route "track-2"], [], [])].

Lemma payment_change_unseen_witness :
  let P' := (ingest_transaction id 200 100 sample_rerouted [] None "key" sample_primary).1 in
  build_diff_events sample_rerouted 200 [] 0 sample_primary = (sample_primary, Ok [])
  ∧ events P' = events sample_primary
  ∧ payment_routes P' ≠ payment_routes sample_primary.
Proof.
  intros P'. split_and!.
  - apply (payment_change_unseen sample_bundle sample_rerouted 200 [] 0 sample_primary sample_row).
    + apply sample_catalog_ok.
    + vm_compute. reflexivity.
    + reflexivity.
    + by intros [].
    + reflexivity.
    + vm_compute. reflexivity.
  - vm_compute. reflexivity.
  - vm_compute. discriminate.
Defined.
