(* ===== verification/ReadModelProps.v ===== *)
(** Properties of the read models: the quality scores, the full-text index,
    the text of its fields and the phrases of a query. *)

From S2P Require Import Prelude.
From S2P Require Import Model.
From S2P Require Import Event.
From S2P Require Import Crates.
From S2P Require Import Store.
From S2P Require Import Tables.
From S2P Require Import Snapshot.
From S2P Require Import RowLists.
From S2P Require Import Search.
From S2P Require Import Catalog.
From S2P Require Import Quality.
From S2P Require Import Feeds.
From S2P Require Import Integrity.
From S2P Require Import EventLog.
From S2P Require Import Diff.
From S2P Require Import Moves.
From S2P Require Import IngestTx.
From S2P Require Import Blocks.
From S2P Require Import GuidChange.
From S2P Require Import Copies.
From S2P Require Import Apply.
From S2P Require Import Frames.
From S2P Require Import Replica.
From S2P Require Import Samples.

(** ** Scores *)

Definition quality_ok (db : Db) : Prop :=
  ∀ k score t, entity_quality db !! k = Some (score, t) → 0 ≤ score ≤ 100.

Section quality.
Context `{Crates}.

Lemma feed_quality_bounds g db :
  ∃ s, compute_feed_quality g db = (db, Ok s) ∧ 0 ≤ s ≤ 100.
Proof using Type.
  eexists. split; [reflexivity|]. cbv zeta.
  destruct (feeds db !! g) as [row|]; [pose proof (feed_fields_quality_bounds (FeedRow.feed row))|];
    score_bounds.
Qed.

Lemma track_quality_bounds g t db :
  ∃ s, compute_track_quality_for_feed_track g t db = (db, Ok s) ∧ 0 ≤ s ≤ 100.
Proof using Type.
  eexists. split; [reflexivity|]. cbv zeta. set (a := row ← feeds db !! g; _).
  destruct (tracks db !! (g, t)) as [tr|]; [pose proof (track_fields_quality_bounds a tr)|];
    score_bounds.
Qed.

Lemma store_quality_ok now ty id s db :
  0 ≤ s ≤ 100 → quality_ok db → quality_ok (store_quality now ty id s db).1.
Proof using Type.
  intros Hs Hd k score t. cbn. intros [[<- [= <- <-]]|[_ Hk]]%lookup_insert_Some; [done|].
  by eapply Hd.
Qed.

Lemma preserves_feed_quality {A} now ty id g (k : unit → DB A) :
  (∀ u, Preserves quality_ok (k u)) →
  Preserves quality_ok (mbind (λ score, mbind k (store_quality now ty id score))
    (compute_feed_quality g)).
Proof using Type.
  intros Hk db Hd. unfold mbind, db_bind.
  destruct (feed_quality_bounds g db) as (s & -> & Hs).
  pose proof (store_quality_ok now ty id s db Hs Hd) as Hq.
  by apply (Hk tt).
Qed.

Lemma preserves_track_quality now ty id g t :
  Preserves quality_ok
    (score ← compute_track_quality_for_feed_track g t; store_quality now ty id score).
Proof using Type.
  intros db Hd. unfold mbind, db_bind.
  destruct (track_quality_bounds g t db) as (s & -> & Hs). by apply store_quality_ok.
Qed.

Lemma delete_quality_ok keys : Preserves quality_ok (delete_quality keys).
Proof using Type.
  intros db Hd k score t. cbn. induction keys as [|x keys IH]; cbn; [apply Hd|].
  intros [_ Hk]%lookup_delete_Some. by apply IH.
Qed.

(** What does not write the scores keeps their bounds. *)
Lemma keeps_quality {A} (m : DB A) : Keeps entity_quality m → Preserves quality_ok m.
Proof using Type. intros Hm db Hd. unfold quality_ok. by rewrite (Hm db). Qed.

#[local] Hint Extern 9 (Preserves quality_ok _) =>
  (apply keeps_quality; solve [apply _]) : typeclass_instances.

#[export] Instance sync_quality now f :
  Preserves quality_ok (sync_source_read_models_for_feed now f).
Proof using Type.
  assert (∀ b ty id n t d, Preserves quality_ok (sync_entry b ty id n t d)) as Hentry
    by (unfold sync_entry; intros [] *; apply _).
  unfold sync_source_read_models_for_feed. apply preserves_bind; [apply _|intros [feed|]; [|apply _]].
  cbv zeta. apply preserves_bind; [apply preserves_for_each; intros []; apply Hentry|intros _].
  apply preserves_feed_quality. intros _.
  apply preserves_bind; [apply _|intros ts]. apply preserves_for_each. intros t.
  apply preserves_bind; [apply Hentry|intros _]. apply preserves_track_quality.
Qed.

#[export] Instance delete_feed_quality f : Preserves quality_ok (delete_feed_sql f).
Proof using Type.
  unfold delete_feed_sql, delete_feed_row, get_tracks_for_feed.
  repeat first [apply delete_quality_ok | preserve_step].
Qed.

#[export] Instance delete_track_quality f t : Preserves quality_ok (delete_track_sql f t).
Proof using Type.
  unfold delete_track_sql, delete_track_row.
  repeat first [apply delete_quality_ok | preserve_step].
Qed.

#[export] Instance apply_payload_quality now c p : Preserves quality_ok (apply_payload now c p).
Proof using Type.
  destruct p; cbn [apply_payload]; open_operations;
    repeat first [apply delete_quality_ok | preserve_step].
Qed.

#[export] Instance apply_inner_quality now ev :
  Preserves quality_ok (apply_single_event_inner now ev).
Proof using Type. unfold apply_single_event_inner. repeat preserve_step. Qed.

#[export] Instance ingest_quality ho now n b rows mv signer :
  Preserves quality_ok (ingest_transaction ho now n b rows mv signer).
Proof using Type.
  unfold ingest_transaction, ingest_body, ingest_feed_lists, replace_rows,
    replace_feed_list_value_raw, ingest_track, remove_if_stale, insert_value_time_split,
    get_track_for_feed, write_feed_move, add_left_url, remove_left_url.
  repeat first
    [ preserve_step | apply flat_map_preserves; intros ?
    | apply insert_events_preserves; intros; unfold insert_event, update_event_signature ].
Qed.

Lemma node_step_quality ho db db' : quality_ok db → node_step ho db db' → quality_ok db'.
Proof using Type.
  intros Hok [now uuids b rows mv signer|now evs|now ev|f|f t].
  - by apply ingest_quality.
  - apply (apply_events_preserves quality_ok); [intros; apply _|intros; unfold upsert_node_sync_state; apply _|done].
  - assert (Preserves quality_ok (apply_single_event now ev)) as K; [|by apply K].
    unfold apply_single_event, upsert_node_sync_state. repeat preserve_step.
  - assert (Preserves quality_ok (delete_feed f)) as K by (unfold delete_feed; apply _). by apply K.
  - assert (Preserves quality_ok (delete_track f t)) as K by (unfold delete_track; apply _).
    by apply K.
Qed.
End quality.

(** scores stay between 0 and 100. In every state that a node reaches from
    an empty database, each stored quality score is at least 0 and at most 100,
    and so is each score that the two functions compute. *)
Theorem quality_scores_bounded `{Crates} (hash_order : list string → list string) db :
  rtc (node_step hash_order) empty_db db →
  (∀ ty id, ∃ s, get_quality ty id db = (db, Ok s) ∧ 0 ≤ s ≤ 100)
  ∧ (∀ g, ∃ s, compute_feed_quality g db = (db, Ok s) ∧ 0 ≤ s ≤ 100)
  ∧ (∀ t s db', compute_track_quality t db = (db', Ok s) → 0 ≤ s ≤ 100).
Proof.
  intros Hr. assert (quality_ok db) as Hok.
  { assert (∀ x, quality_ok x → rtc (node_step hash_order) x db → quality_ok db) as Hind.
    { clear Hr. intros x Hx. induction 1 as [|x y z Hs _ IH]; [done|].
      apply IH. by eapply node_step_quality. }
    eapply Hind; [|exact Hr]. by intros k s t. }
  split_and!.
  - intros ty id. unfold get_quality, query.
    destruct (entity_quality db !! (ty, id)) as [[s t]|] eqn:E; eexists; (split; [reflexivity|]);
      [by eapply Hok|lia].
  - intros g. apply feed_quality_bounds.
  - intros t s db'. unfold compute_track_quality, get_tracks_by_guid, query, mbind, db_bind.
    destruct (sort_by _ _) as [|tr [|tr' l]].
    + intros [= _ <-]. lia.
    + destruct (track_quality_bounds (Track.feed_guid tr) (Track.track_guid tr) db)
        as (s' & -> & Hs). by intros [= _ <-].
    + done.
Qed.

(** ** The full-text index *)

Section entries.
Context `{Crates}.

Lemma entry_other ty id ty' id' db db' :
  rowid_for ty' id' ≠ rowid_for ty id →
  (∀ r, r ≠ rowid_for ty id → search_index db' !! r = search_index db !! r) →
  (∀ r, r ≠ rowid_for ty id → search_entities db' !! r = search_entities db !! r) →
  entry ty' id' db' = entry ty' id' db.
Proof using Type. intros Hne Hi He. unfold entry. by rewrite He, Hi. Qed.

Lemma delete_index_run ty id db :
  index_ok db →
  (delete_from_search_index ty id db).2 = Ok tt
  ∧ search_index (delete_from_search_index ty id db).1
    = delete (rowid_for ty id) (search_index db)
  ∧ search_entities (delete_from_search_index ty id db).1
    = delete (rowid_for ty id) (search_entities db).
Proof using Type.
  intros [Hdom _]. unfold delete_from_search_index, query, mbind, db_bind.
  destruct (search_entities db !! rowid_for ty id) as [e|] eqn:He; cbn; [done|].
  split_and!; [done| |done]. rewrite delete_id; [done|].
  apply not_elem_of_dom. rewrite Hdom. by apply not_elem_of_dom.
Qed.
End entries.

(** the write of an index entry. It never fails on an index that is in
    step. When no other entity has the row id, the entity is then found under
    it with the truncated text, and the entries of entities with other row ids
    are as before. When another entity has the row id, nothing is written, and
    the entity is not found. *)
Theorem populate_entry `{Crates} ty id n t d db :
  index_ok db →
  let db' := (populate_search_index ty id n t d db).1 in
  (populate_search_index ty id n t d db).2 = Ok tt
  ∧ (∀ ty' id', rowid_for ty' id' ≠ rowid_for ty id → entry ty' id' db' = entry ty' id' db)
  ∧ match search_entities db !! rowid_for ty id with
    | Some e =>
        if e == (ty, id)
        then entry ty id db' = Some (IndexRow.mk (truncate_fts_field n) (truncate_fts_field t)
                                       (truncate_fts_field d))
        else db' = db ∧ entry ty id db' = None
    | None => entry ty id db' = Some (IndexRow.mk (truncate_fts_field n) (truncate_fts_field t)
                                       (truncate_fts_field d))
    end.
Proof.
  intros Hok. cbv zeta. rewrite populate_run by done.
  destruct (search_entities db !! rowid_for ty id) as [[ety eid]|] eqn:He; cbn [is_some_and].
  - destruct (decide ((ety, eid) = (ty, id))) as [[= -> ->]|Hne].
    + rewrite !String.eqb_refl. cbn [negb orb fst snd]. rewrite bool_decide_eq_true_2 by done.
      split_and!; [done| |].
      * intros ty' id' Hr. apply (entry_other ty id); [done|..];
          intros r Hn; cbn; by rewrite lookup_insert_ne.
      * unfold entry. cbn. rewrite !lookup_insert_eq. by rewrite bool_decide_eq_true_2.
    + assert ((ety ≠s ty) || (eid ≠s id) = true) as ->.
      { apply not_false_iff_true. intros Hf. apply Hne. bool_facts. congruence. }
      rewrite bool_decide_eq_false_2 by done. split_and!; [done|done|done|].
      unfold entry. cbn. rewrite He. rewrite bool_decide_eq_false_2; [done|congruence].
  - split_and!; [done| |].
    + intros ty' id' Hr. apply (entry_other ty id); [done|..];
        intros r Hn; cbn; by rewrite lookup_insert_ne.
    + unfold entry. cbn. rewrite !lookup_insert_eq. by rewrite bool_decide_eq_true_2.
Qed.

(** the delete of an index entry deletes the row of its row id, whosever
    it is. It never fails, the entity is then not found, and the entries of
    entities with other row ids are as before. But an entity with the same row
    id loses its entry too: the delete does not look at whose row it is, as
    the write does. *)
Theorem delete_entry_collides `{Crates} ty id db :
  index_ok db →
  let db' := (delete_from_search_index ty id db).1 in
  (delete_from_search_index ty id db).2 = Ok tt
  ∧ entry ty id db' = None
  ∧ (∀ ty' id', rowid_for ty' id' ≠ rowid_for ty id → entry ty' id' db' = entry ty' id' db)
  ∧ (∀ ty' id', rowid_for ty' id' = rowid_for ty id → entry ty' id' db' = None).
Proof.
  intros Hok. cbv zeta. destruct (delete_index_run ty id db Hok) as (-> & Hi & He).
  assert (∀ ty' id', rowid_for ty' id' = rowid_for ty id →
    entry ty' id' (delete_from_search_index ty id db).1 = None) as Hsame.
  { intros ty' id' Hr. unfold entry. rewrite Hr, Hi, lookup_delete_eq.
    by destruct (_ == _). }
  split_and!; [done|by apply Hsame| |done].
  intros ty' id' Hr. unfold entry. by rewrite Hi, He, !lookup_delete_ne.
Qed.

(** ** The text of a field *)

Lemma boundary_max s n m :
  (boundary_at_or_before s n < m ≤ n)%nat → is_char_boundary s m = false.
Proof.
  induction n as [|n IH]; cbn [boundary_at_or_before]; [lia|].
  destruct (is_char_boundary s (S n)) eqn:E; [lia|]. intros Hm.
  destruct (decide (m = S n)) as [->|Hne]; [done|]. apply IH. lia.
Qed.

Lemma substring_prefix n s :
  (n ≤ String.length s)%nat →
  (∃ rest, s = (String.substring 0 n s ++ rest)%string)
  ∧ String.length (String.substring 0 n s) = n.
Proof.
  revert s. induction n as [|n IH]; intros s Hn.
  - destruct s; (split; [by eexists|done]).
  - destruct s as [|a s]; cbn in *; [lia|].
    destruct (IH s ltac:(lia)) as [(rest & Hr) Hl]. split; [|by rewrite Hl].
    exists rest. exact (f_equal (String a) Hr).
Qed.

(** The truncation of an index field. The result is a prefix of the text
    of at most 10,000 bytes, the whole text when it is no longer than that. It
    ends at a character boundary, and no later boundary of the text is within
    the limit. *)
Theorem truncate_fts_field_spec s :
  let r := truncate_fts_field s in
  (∃ rest, s = (r ++ rest)%string)
  ∧ Z.of_nat (String.length r) ≤ 10000
  ∧ (Z.of_nat (String.length s) ≤ 10000 → r = s)
  ∧ is_char_boundary s (String.length r) = true
  ∧ ∀ n, (String.length r < n ≤ String.length s)%nat → Z.of_nat n ≤ 10000 →
      is_char_boundary s n = false.
Proof.
  cbv zeta. unfold truncate_fts_field.
  assert (Z.of_nat MAX_FTS_FIELD_BYTES = 10000) as Hmax by (apply Z2Nat.id; lia).
  generalize dependent MAX_FTS_FIELD_BYTES. intros max Hmax.
  destruct (Nat.leb_spec (String.length s) max) as [Hle|Hgt].
  - split_and!; [by exists ""%string; rewrite str_app_nil_r|lia|done| |lia].
    unfold is_char_boundary. destruct (String.length s) as [|k] eqn:Hl; [done|].
    assert (String.get (S k) s = None) as ->; [|by apply bool_decide_eq_true_2].
    clear -Hl. revert k Hl. induction s as [|a s IH]; intros k Hl; [done|]. cbn in *.
    injection Hl as Hl. destruct k as [|k]; [by destruct s|]. by apply IH.
  - pose proof (boundary_le s max) as Hb.
    destruct (substring_prefix (boundary_at_or_before s max) s ltac:(lia)) as [Hp Hl].
    rewrite Hl. split_and!; [done|lia|lia|apply boundary_is|].
    intros n Hn Hn'. apply (boundary_max s max). lia.
Qed.

(** ** The phrases of a query *)

Definition cleaned (input : string) : string :=
  unchars (List.filter (λ c, negb (is_control c)) (chars input)).

Lemma find_split_no_quote s : no_quote s = true → find_split quote s = None.
Proof.
  induction s as [|a s IH]; cbn; [done|]. intros [Ha%negb_true_iff Hs]%andb_true_iff.
  by rewrite Ha, IH.
Qed.

(** a query cannot leave its quotes. Each phrase that the node puts in an
    FTS5 query is one string literal with a nonempty text whose quotes are
    doubled, whatever the input; without a quote in it, the phrases are its
    words. The loop ends where the source's does, with at most one quote left
    in the rest. *)
Theorem fts5_phrases_literal input :
  Forall literal (fts5_phrases input)
  ∧ (no_quote (cleaned input) = true →
     fts5_phrases input = quoted <$> split_whitespace (cleaned input))
  ∧ match find_split quote
            (phrases_loop (S (String.length (cleaned input))) [] (cleaned input)).2 with
    | Some (_, after) => find_split quote after = None
    | None => True
    end.
Proof.
  unfold fts5_phrases. fold (cleaned input). split_and!.
  - apply phrases_literal.
  - intros Hq. cbn [phrases_loop]. rewrite find_split_no_quote by done.
    unfold push_words. cbn [app]. apply list_fmap_ext. intros i w Hw.
    apply split_whitespace_no_quote in Hq. rewrite Forall_forall in Hq.
    f_equal. apply double_quotes_id, Hq. by eapply list_elem_of_lookup_2.
  - apply phrases_loop_done. lia.
Qed.

(** ** Instances at concrete inputs *)

#[local] Existing Instance sample_crates.
#[local] Open Scope string_scope.

Lemma quality_scores_bounded_witness :
  (get_quality "feed" "feed-1" sample_primary).2 = Ok 70%Z
  ∧ ∃ s, get_quality "feed" "feed-1" sample_primary = (sample_primary, Ok s) ∧ (0 ≤ s ≤ 100)%Z.
Proof.
  split; [vm_compute; reflexivity|].
  assert (rtc (node_step id) empty_db sample_primary) as Hr
    by (eapply rtc_once; apply step_ingest).
  destruct (quality_scores_bounded id sample_primary Hr) as [H _]. exact (H "feed" "feed-1").
Defined.

Lemma sample_index_ok : index_ok sample_primary.
Proof.
  assert (node_ok sample_primary) as Hok; [|apply Hok].
  eapply (node_step_ok id); [apply empty_ok|apply step_ingest].
Qed.

Lemma populate_entry_witness :
  entry "feed" "feed-1" (populate_search_index "feed" "feed-1" "A" "B" "C" sample_primary).1
  = Some (IndexRow.mk "A" "B" "C").
Proof.
  destruct (populate_entry "feed" "feed-1" "A" "B" "C" sample_primary sample_index_ok)
    as (_ & _ & He).
  assert (search_entities sample_primary !! rowid_for "feed" "feed-1" = Some ("feed", "feed-1"))
    as Hs by (vm_compute; reflexivity).
  rewrite Hs in He. rewrite bool_decide_eq_true_2 in He by done. rewrite He.
  by vm_compute.
Defined.

Lemma delete_entry_collides_witness :
  entry "feed" "feed-1" sample_primary ≠ None
  ∧ entry "feed" "feed-1" (delete_from_search_index "feed" "feed-1" sample_primary).1 = None.
Proof.
  split; [vm_compute; discriminate|].
  by destruct (delete_entry_collides "feed" "feed-1" sample_primary sample_index_ok) as (_ & ? & _).
Defined.
