(* ===== verification/ModerationProps.v ===== *)
(** Properties of the class of a submission, of the blocks, of the observed
    GUID changes, of the mirror copies and of the source moves. *)

From S2P Require Import Prelude.
From S2P Require Import Model.
From S2P Require Import Ingest.
From S2P Require Import Event.
From S2P Require Import Crates.
From S2P Require Import Store.
From S2P Require Import Catalog.
From S2P Require Import Integrity.
From S2P Require Import EventLog.
From S2P Require Import Diff.
From S2P Require Import Moves.
From S2P Require Import Blocks.
From S2P Require Import GuidChange.
From S2P Require Import Copies.
From S2P Require Import Replica.
From S2P Require Import Samples.

(** ** The class of a submission *)

(** The URL of the record with a GUID. *)
Definition record_url (db : Db) (g : string) : option string :=
  (Feed.feed_url ∘ FeedRow.feed) <$> feeds db !! g.

(** A record other than [g] is at one of the two URLs of the submission. *)
Definition held_by (db : Db) (g source canonical h : string) : Prop :=
  h ≠ g ∧ (record_url db h = Some source ∨ record_url db h = Some canonical).

Lemma elem_of_holders db g source canonical f :
  catalog_ok db →
  f ∈ List.filter (λ f, ((Feed.feed_url f =s source) || (Feed.feed_url f =s canonical))
         && (Feed.feed_guid f ≠s g)) (all_feeds db) ↔
  held_by db g source canonical (Feed.feed_guid f)
  ∧ FeedRow.feed <$> feeds db !! Feed.feed_guid f = Some f.
Proof.
  intros (Hk & _). rewrite elem_of_filterb, elem_of_all_feeds. unfold held_by, record_url.
  split.
  - intros [[Hu Hn]%andb_true_iff (h & row & Hr & <-)].
    rewrite (Hk h row Hr) in *. rewrite Hr. cbn. bool_facts.
    apply orb_true_iff in Hu as [Hu|Hu]; bool_facts; subst; auto.
  - intros [[Hn Hu] Hf]. apply fmap_Some in Hf as (row & Hr & ->).
    split; [|by exists (Feed.feed_guid (FeedRow.feed row)), row].
    rewrite Hr in Hu. cbn in Hu. apply andb_true_iff. split.
    + apply orb_true_iff. rewrite !String.eqb_eq. naive_solver.
    + by apply negb_true_iff, String.eqb_neq.
Qed.

Lemma by_url_sorted l : StronglySorted (λ a b, by_url a b = true) (sort_by by_url l).
Proof.
  apply (sort_by_sorted by_url); unfold leR, by_url.
  - intros a b. apply (String.leb_total (Feed.feed_url a) (Feed.feed_url b)).
  - intros a b c Hab Hbc. apply Is_true_true.
    apply (transitivity (R := String.le) (y := Feed.feed_url b)); by apply Is_true_true.
Qed.

(** the class of a submission. On a store whose rows are under their keys,
    the class is a record conflict when the node holds the GUID and another
    record has one of the two URLs; a GUID change when the GUID is unknown and
    another record has one of them, and then that with the smallest URL; an
    update when the record of the GUID has one of them and no other has; a
    mirror when the record has a third URL; and a new feed when nothing
    matches. The read changes nothing. *)
Theorem classify_submission_spec g source canonical db :
  catalog_ok db →
  ∃ c, classify_submission g source canonical db = (db, Ok c)
    ∧ match c with
      | SubmissionClass.RecordConflict =>
          is_Some (record_url db g) ∧ ∃ h, held_by db g source canonical h
      | SubmissionClass.GuidChange h =>
          record_url db g = None ∧ held_by db g source canonical h
          ∧ ∀ h' u u', held_by db g source canonical h' → record_url db h = Some u →
              record_url db h' = Some u' → String.leb u u' = true
      | SubmissionClass.Update =>
          (record_url db g = Some source ∨ record_url db g = Some canonical)
          ∧ ∀ h, ¬ held_by db g source canonical h
      | SubmissionClass.Mirror u =>
          record_url db g = Some u ∧ u ≠ source ∧ u ≠ canonical
          ∧ ∀ h, ¬ held_by db g source canonical h
      | SubmissionClass.NewFeed =>
          record_url db g = None ∧ ∀ h, ¬ held_by db g source canonical h
      end.
Proof.
  intros Hc. pose proof (λ f, elem_of_holders db g source canonical f Hc) as Hh.
  unfold classify_submission, query, mbind, db_bind. fold (record_url db g).
  set (l := List.filter _ _) in *. pose proof (by_url_sorted l) as Hs.
  assert (∀ f, f ∈ sort_by by_url l ↔ f ∈ l) as Hp by (intros; by rewrite sort_by_perm).
  destruct (sort_by by_url l) as [|f rest] eqn:El; cbn [head fmap option_fmap option_map].
  - assert (∀ h, ¬ held_by db g source canonical h) as Hn.
    { intros h Hheld. pose proof Hheld as [_ Hu].
      assert (∃ row, feeds db !! h = Some row) as [row Hr].
      { unfold record_url in Hu. destruct (feeds db !! h); [eauto|by destruct Hu]. }
      pose proof Hc as (Hk & _). pose proof (Hk h row Hr) as Hg.
      assert (FeedRow.feed row ∈ l) as Hin%Hp; [|set_solver].
      apply Hh. rewrite Hg, Hr. done. }
    destruct (record_url db g) as [u|] eqn:Hu; eexists; (split; [reflexivity|]); [|done].
    destruct (u =s source) eqn:E1; [cbn; bool_facts; subst; auto|].
    destruct (u =s canonical) eqn:E2; cbn; bool_facts; [subst; auto|done].
  - assert (f ∈ l) as [Hheld Hf]%Hh by (apply Hp; left).
    destruct (record_url db g) as [u|] eqn:Hu; eexists; (split; [reflexivity|]); cbn [is_some].
    { split; [done|eauto]. }
    split_and!; [done|done|]. intros h' u u' [Hne Hu'] Hfu Hhu.
    assert (∃ row, feeds db !! h' = Some row ∧ Feed.feed_url (FeedRow.feed row) = u')
      as (row & Hr & Hru).
    { unfold record_url in Hhu. apply fmap_Some in Hhu as (row & Hr & ->). eauto. }
    pose proof Hc as (Hk & _). pose proof (Hk h' row Hr) as Hg.
    assert (FeedRow.feed row ∈ f :: rest) as Hin.
    { apply Hp, Hh. rewrite Hg, Hr. by repeat split. }
    apply fmap_Some in Hf as (frow & Hfr & Hff). unfold record_url in Hfu.
    rewrite Hfr in Hfu. injection Hfu as Hfu. cbn in Hfu. rewrite <-Hff in Hfu.
    apply StronglySorted_inv in Hs as [_ Hs]. rewrite <-Hfu, <-Hru.
    apply elem_of_cons in Hin as [->|Hin].
    + apply Is_true_true. apply (reflexivity (R := String.le)).
    + rewrite List.Forall_forall in Hs. apply (Hs (FeedRow.feed row)). by apply list_elem_of_In.
Qed.

(** ** Blocks *)

Section blocks.
Context `{Crates}.

(** The row that a block is stored as. *)
Definition block_row (b : FeedBlock) : FeedBlock :=
  FeedBlock.mk (FeedBlock.block_id b) (FeedBlock.kind b)
    (normalize (FeedBlock.kind b) (FeedBlock.value b)) (FeedBlock.reason b)
    (FeedBlock.blocked_at b).

Definition block_pair (b : FeedBlock) : FeedBlockKind * string :=
  (FeedBlock.kind b, FeedBlock.value b).

Lemma block_clash_spec b c :
  block_clash b c = true ↔
  FeedBlock.block_id b = FeedBlock.block_id c ∨ block_pair b = block_pair c.
Proof using Type.
  unfold block_clash, block_pair.
  rewrite orb_true_iff, andb_true_iff, bool_decide_eq_true, !String.eqb_eq.
  rewrite pair_equal_spec. tauto.
Qed.

Lemma block_taken db b :
  existsb (block_clash b) (feed_blocks db) = true ↔
  FeedBlock.block_id b ∈ FeedBlock.block_id <$> feed_blocks db
  ∨ block_pair b ∈ block_pair <$> feed_blocks db.
Proof using Type.
  rewrite existsb_exists. setoid_rewrite <-list_elem_of_In. setoid_rewrite block_clash_spec.
  rewrite !list_elem_of_fmap. split.
  - intros (c & Hc & [Hi|Hp]); [left|right]; by exists c.
  - intros [(c & Hi & Hc)|(c & Hp & Hc)]; exists c; auto.
Qed.

(** The row of a pair, if any. *)
Definition pair_row (db : Db) (p : FeedBlockKind * string) (b : FeedBlock) : Prop :=
  b ∈ feed_blocks db ∧ block_pair b = p.

Lemma find_pair db kind value :
  blocks_ok db →
  ∃ r, get_feed_block_by_pair kind value db = (db, Ok r)
    ∧ ∀ b, r = Some b ↔ pair_row db (kind, normalize kind value) b.
Proof using Type.
  intros [_ Hnd]. eexists. split; [reflexivity|]. cbv beta. intros b.
  set (p := λ b, _ && _).
  assert (∀ c, p c = true ↔ block_pair c = (kind, normalize kind value)) as Hp.
  { intros c. unfold p, block_pair. rewrite andb_true_iff, bool_decide_eq_true, String.eqb_eq.
    by rewrite pair_equal_spec. }
  unfold pair_row. destruct (List.find p (feed_blocks db)) as [c|] eqn:E.
  - apply List.find_some in E as [Hc Hpc]. apply list_elem_of_In in Hc. apply Hp in Hpc.
    split; [intros [= <-]; done|]. intros [Hb Hbp]. f_equal.
    apply (NoDup_fmap_inj block_pair (feed_blocks db)); [done..|congruence].
  - split; [done|]. intros [Hb%list_elem_of_In Hbp].
    apply (List.find_none _ _ E) in Hb. apply Hp in Hbp. congruence.
Qed.

Lemma find_url_block_spec urls db :
  blocks_ok db →
  ∃ r, find_url_block urls db = (db, Ok r)
    ∧ (∀ b, r = Some b → ∃ url, url ∈ urls ∧ url ≠ ""%string
         ∧ pair_row db (FeedBlockKind.Url, normalize FeedBlockKind.Url url) b)
    ∧ (r = None → ∀ url b, url ∈ urls → url ≠ ""%string →
         ¬ pair_row db (FeedBlockKind.Url, normalize FeedBlockKind.Url url) b).
Proof using Type.
  intros Hok. induction urls as [|url urls (r & Hr & Hs & Hn)].
  { eexists. split; [reflexivity|]. split; [done|set_solver]. }
  cbn [find_url_block]. unfold str_is_empty. destruct (url =s "") eqn:He; bool_facts.
  { exists r. split_and!; [done| |].
    - intros b (u & ? & ?)%Hs. exists u. set_solver.
    - intros Hnone u b [->|Hu]%elem_of_cons Hne; [done|by apply Hn]. }
  destruct (find_pair db FeedBlockKind.Url url Hok) as (c & Hc & Hcs).
  unfold mbind, db_bind. rewrite Hc. destruct c as [c|].
  - eexists. split; [reflexivity|]. split; [|done]. intros b [= <-].
    exists url. split_and!; [left|done|]. by apply Hcs.
  - exists r. split_and!; [done| |].
    + intros b (u & ? & ?)%Hs. exists u. set_solver.
    + intros Hnone u b [->|Hu]%elem_of_cons Hne; [|by apply Hn]. by intros Hb%Hcs.
Qed.
End blocks.

(** Whether a stored block stops a submission. *)
Definition blocks `{Crates} (db : Db) (guid : option string) (urls : list string)
    (b : FeedBlock) : Prop :=
  (∃ g, guid = Some g ∧ pair_row db (FeedBlockKind.Guid, normalize FeedBlockKind.Guid g) b)
  ∨ ∃ url, url ∈ urls ∧ url ≠ ""%string
      ∧ pair_row db (FeedBlockKind.Url, normalize FeedBlockKind.Url url) b.

(** The block check is exact. It finds a block when some stored block has
    the normalized GUID of the submission or one of its nonempty normalized
    URLs, what it finds is such a block, and it finds none otherwise. *)
Theorem find_feed_block_exact `{Crates} guid urls db :
  blocks_ok db →
  ∃ r, find_feed_block guid urls db = (db, Ok r)
    ∧ (∀ b, r = Some b → blocks db guid urls b)
    ∧ (r = None → ∀ b, ¬ blocks db guid urls b).
Proof.
  intros Hok. destruct (find_url_block_spec urls db Hok) as (r & Hr & Hs & Hn).
  unfold find_feed_block, mbind, db_bind, blocks. destruct guid as [g|]; lazy beta match.
  - destruct (find_pair db FeedBlockKind.Guid g Hok) as (c & Hc & Hcs). rewrite Hc.
    destruct c as [c|].
    + eexists. split; [reflexivity|]. split; [|done]. intros b [= <-]. left. exists g.
      split; [done|]. by apply Hcs.
    + exists r. split_and!; [done|by right; apply Hs|].
      intros Hnone b [(g' & [= <-] & Hb%Hcs)|(u & Hu & Hne & Hb)]; [done|by eapply Hn].
  - exists r. split_and!; [done|by right; apply Hs|].
    intros Hnone b [(g' & [=] & _)|(u & Hu & Hne & Hb)]. by eapply Hn.
Qed.

(** the write of a block. It refuses, and changes nothing, exactly when a
    stored block has its id or its kind and normalized value. Otherwise the
    normalized row is added, the copies at a blocked URL go, every other copy
    stays, and each id and each pair still has one row. *)
Theorem insert_feed_block_spec `{Crates} b db :
  blocks_ok db →
  let '(db', r) := insert_feed_block b db in
  blocks_ok db'
  ∧ ∃ inserted, r = Ok inserted
    ∧ if inserted : bool
      then feed_blocks db' = feed_blocks db ++ [block_row b]
        ∧ ∀ g url, feed_copies db' !! (g, url)
            = if decide (FeedBlock.kind b = FeedBlockKind.Url
                         ∧ url = normalize FeedBlockKind.Url (FeedBlock.value b))
              then None else feed_copies db !! (g, url)
      else db' = db
        ∧ (FeedBlock.block_id b ∈ FeedBlock.block_id <$> feed_blocks db
           ∨ block_pair (block_row b) ∈ block_pair <$> feed_blocks db).
Proof.
  intros Hok. unfold insert_feed_block. fold (block_row b).
  pose proof (block_taken db (block_row b)) as Ht. cbn [FeedBlock.block_id block_row] in Ht.
  destruct (existsb _ _) eqn:E.
  { split; [done|]. exists false. split_and!; [done..|]. by apply Ht. }
  assert (blocks_ok (set_feed_blocks (feed_blocks db ++ [block_row b]) db)) as Hok'.
  { destruct Hok as [Hi Hp]. split; cbn; rewrite fmap_app; apply NoDup_app;
      (split_and!; [done| |apply NoDup_singleton]); intros x Hx ->%list_elem_of_singleton;
      assert (false = true) by (apply Ht; auto); done. }
  destruct (FeedBlock.kind b) eqn:Hk; (split; [exact Hok'|]); exists true;
    (split_and!; [done|done|]); intros g url; cbn.
  - by rewrite decide_False by (by intros [? _]).
  - case_decide as Hd.
    + destruct Hd as [_ ->]. apply map_lookup_filter_None. right. intros c _ Hn. by apply Hn.
    + destruct (feed_copies db !! (g, url)) as [c|] eqn:Hc.
      * apply map_lookup_filter_Some. split; [done|]. intros ->. by apply Hd.
      * apply map_lookup_filter_None. by left.
Qed.

(** ** Seeding *)

Section seeding.
Context `{Crates} (uuids_distinct : ∀ i j, new_v4 i = new_v4 j → i = j).

(** The pair that an entry is stored under. *)
Definition entry_pair (e : FeedBlockKind * string) : FeedBlockKind * string :=
  (e.1, normalize e.1 (normalize e.1 e.2)).

Lemma seed_loop_known uuids entries signer now w db :
  Forall (λ e, entry_pair e ∈ block_pair <$> feed_blocks db) entries →
  seed_loop uuids entries signer now w db = (db, Ok w).
Proof using Type.
  intros He. revert uuids. induction He as [|[k v] es Hk _ IH]; intros uuids; [done|].
  cbn [seed_loop]. set (b := FeedBlock.mk _ _ _ _ _).
  assert (insert_feed_block b db = (db, Ok false)) as Hi.
  { unfold insert_feed_block. fold (block_row b).
    assert (existsb (block_clash (block_row b)) (feed_blocks db) = true) as ->; [|done].
    apply block_taken. by right. }
  unfold mbind, db_bind. rewrite Hi. cbn [negb]. apply IH.
Qed.

(** What a run adds: for each row one event, and a row for each entry. *)
Lemma seed_loop_run uuids entries signer now w db db' w' :
  (∀ i, uuids ≤ i → new_v4 i ∉ FeedBlock.block_id <$> feed_blocks db)%nat →
  seed_loop uuids entries signer now w db = (db', Ok w') →
  ∃ new rows, feed_blocks db' = feed_blocks db ++ new ∧ events db' = events db ++ rows
    ∧ w' = w + Z.of_nat (length new) ∧ length rows = length new
    ∧ Forall (λ e, entry_pair e ∈ block_pair <$> feed_blocks db') entries.
Proof using uuids_distinct.
  revert uuids w db. induction entries as [|[k v] es IH]; intros uuids w db Hfresh.
  { intros [= <- <-]. exists [], []. rewrite !app_nil_r. split_and!; [done..|cbn; lia|done|done]. }
  cbn [seed_loop]. set (b := FeedBlock.mk _ _ _ _ _). unfold mbind, db_bind.
  pose proof (block_taken db (block_row b)) as Htk.
  unfold insert_feed_block. fold (block_row b).
  destruct (existsb (block_clash (block_row b)) (feed_blocks db)) eqn:E.
  - cbn [negb]. intros Hrun. apply IH in Hrun as (new & rows & Hf & He & Hw & Hl & Hall);
      [|intros i Hi; apply Hfresh; lia].
    exists new, rows. split_and!; [done..|]. constructor; [|done].
    rewrite Hf, fmap_app, elem_of_app. left.
    destruct (proj1 Htk eq_refl) as [Hid|Hp]; [|exact Hp]. by destruct (Hfresh uuids).
  - set (d := set_feed_blocks (feed_blocks db ++ [block_row b]) db).
    assert (∃ d1, (match FeedBlock.kind b with
      | FeedBlockKind.Url => (set_feed_copies (filter (λ '((_, url), _),
          url ≠ normalize (FeedBlock.kind b) (FeedBlock.value b)) (feed_copies d)) d, Ok true)
      | FeedBlockKind.Guid => (d, Ok true) end : Db * result DbError bool) = (d1, Ok true)
      ∧ feed_blocks d1 = feed_blocks d ∧ events d1 = events db) as (d1 & -> & Hb & Hev)
      by (destruct (FeedBlock.kind b); eexists; split_and!; reflexivity).
    cbn [negb]. rewrite insert_event_run. destruct (event_id_taken d1 _); [done|].
    destruct (sign_event _ _ _ _ _ _ _) as [by_ sig]. cbv zeta beta iota.
    intros Hrun. apply IH in Hrun as (new & rows & Hf & He & Hw & Hl & Hall); cbn in *.
    + rewrite Hb in Hf. unfold d in Hf. cbn in Hf. rewrite Hev in He. rewrite <-app_assoc in Hf, He.
      eexists (block_row b :: new), (_ :: rows). split_and!; [exact Hf|exact He|cbn; lia|cbn; lia|].
      constructor; [|done]. rewrite Hf, !fmap_app. set_solver.
    + intros i Hi. rewrite Hb. unfold d. cbn. rewrite fmap_app, not_elem_of_app. split.
      * apply Hfresh. lia.
      * cbn. intros Heq%list_elem_of_singleton%uuids_distinct. lia.
Qed.
End seeding.

(** Seeding the blocks again changes nothing. A run that succeeds has
    written as many rows as it says, one signed event for each, and leaves a
    row for each entry; after it, any run with the same entries writes no row
    and no event. *)
Theorem seed_blocks_idempotent `{Crates} uuids entries signer now db db' w :
  (∀ i j, new_v4 i = new_v4 j → i = j) →
  (∀ i, uuids ≤ i → new_v4 i ∉ FeedBlock.block_id <$> feed_blocks db)%nat →
  seed_blocks uuids entries signer now db = (db', Ok w) →
  (∃ new rows, feed_blocks db' = feed_blocks db ++ new ∧ events db' = events db ++ rows
     ∧ w = Z.of_nat (length new) ∧ length rows = length new)
  ∧ ∀ uuids' signer' now', seed_blocks uuids' entries signer' now' db' = (db', Ok 0).
Proof.
  intros Hd Hfresh. unfold seed_blocks, transaction.
  destruct (seed_loop uuids entries signer now 0 db) as [d [w'|e]] eqn:E; [|done].
  intros [= <- <-]. apply (seed_loop_run Hd) in E as (new & rows & Hf & He & Hw & Hl & Hall); [|done].
  split; [exists new, rows; by rewrite Hw|].
  intros uuids' signer' now'. by rewrite seed_loop_known.
Qed.

(** ** GUID changes *)

(** an operator's decision on a GUID change holds while the change does.
    After a decision, seeing the same new GUID again keeps the decision, its
    reason, its time and the first sighting; another new GUID starts an
    undecided change, first seen then. The changes of other URLs stay. *)
Theorem guid_change_decision_kept url old_guid new_guid db r decision reason decided_at seen old' new' :
  feed_guid_changes db !! url = Some r → GuidChangeRow.new_guid r = new_guid →
  GuidChangeRow.old_guid r = old_guid →
  let db1 := (set_guid_change_decision url decision reason decided_at db).1 in
  let db2 := (upsert_guid_change url old' new' seen db1).1 in
  (∀ u, u ≠ url → feed_guid_changes db2 !! u = feed_guid_changes db !! u)
  ∧ ∃ r', feed_guid_changes db2 !! url = Some r'
    ∧ GuidChangeRow.old_guid r' = old' ∧ GuidChangeRow.new_guid r' = new'
    ∧ GuidChangeRow.last_seen r' = GuidChangeRow.last_seen r
    ∧ (new' = new_guid →
        GuidChangeRow.decision r' = Some decision
        ∧ GuidChangeRow.decision_reason r' = Some reason
        ∧ GuidChangeRow.decided_at r' = Some decided_at
        ∧ GuidChangeRow.first_seen r' = GuidChangeRow.first_seen r)
    ∧ (new' ≠ new_guid →
        GuidChangeRow.decision r' = None ∧ GuidChangeRow.decision_reason r' = None
        ∧ GuidChangeRow.decided_at r' = None ∧ GuidChangeRow.first_seen r' = seen).
Proof.
  intros Hr Hn Ho db1 db2. unfold db2, db1, upsert_guid_change, set_guid_change_decision, execute.
  cbn [fst feed_guid_changes set_feed_guid_changes].
  rewrite lookup_alter_eq, Hr. cbn [fmap option_fmap option_map GuidChangeRow.new_guid]. split.
  - intros u Hu. by rewrite lookup_insert_ne, lookup_alter_ne.
  - rewrite lookup_insert_eq. eexists. split; [reflexivity|]. rewrite Hn.
    destruct (new_guid =s new') eqn:E; bool_facts; split_and!; naive_solver.
Qed.

(** ** Copies *)

(** Rows in one order only, for columns that tell them apart. *)
Lemma cols_le_antisym a b : cols_le a b = true → cols_le b a = true → a = b.
Proof.
  revert b. induction a as [|x xs IH]; intros [|y ys]; cbn; try done.
  destruct (val_le x y) eqn:Hxy; [|done]. destruct (val_le y x) eqn:Hyx; [|done].
  intros H1 H2. f_equal; [by apply val_le_antisym|by apply IH].
Qed.

Lemma sort_cols_perm l k : l ≡ₚ k ↔ sort_by cols_le l = sort_by cols_le k.
Proof.
  split.
  - intros Hp. apply (StronglySorted_unique_strong (λ a b, cols_le a b = true)).
    + intros a b _ _. apply cols_le_antisym.
    + apply (sort_by_sorted cols_le); unfold leR; eauto using cols_le_total, cols_le_trans.
    + apply (sort_by_sorted cols_le); unfold leR; eauto using cols_le_total, cols_le_trans.
    + by rewrite !sort_by_perm.
  - intros He. rewrite <-(sort_by_perm cols_le l), He. apply sort_by_perm.
Qed.

Lemma recipient_key_inj a b : recipient_key a = recipient_key b → a = b.
Proof.
  destruct a as [a1 a2 a3 a4], b as [b1 b2 b3 b4]. unfold recipient_key. cbn.
  intros [= -> H2 H3 ->]. f_equal; [destruct a2, b2|destruct a3, b3]; cbn in *; congruence.
Qed.

Lemma fmap_perm_inj {A B} (f : A → B) `{!Inj (=) (=) f} l k : f <$> l ≡ₚ f <$> k → l ≡ₚ k.
Proof.
  intros (k' & He & Hp)%Permutation_map_inv. rewrite Hp.
  apply (inj (fmap f)) in He. by subst.
Qed.

#[local] Instance recipient_key_injective : Inj (=) (=) recipient_key := recipient_key_inj.

(** The comparison of recipients is that of multisets. Two lists compare
    equal exactly when one is a permutation of the other. *)
Theorem recipient_sets_equal_spec a b :
  recipient_sets_equal a b = true ↔ a ≡ₚ b.
Proof.
  unfold recipient_sets_equal. split.
  - destruct (length a != length b); [done|].
    intros He%bool_decide_eq_true%sort_cols_perm.
    by apply (fmap_perm_inj recipient_key).
  - intros Hp. rewrite (Permutation_length Hp).
    rewrite (proj2 (bne_false (length b) (length b)) eq_refl).
    apply bool_decide_eq_true, sort_cols_perm. by rewrite Hp.
Qed.

Lemma copy_item_cols_inj a b : copy_item_cols a = copy_item_cols b → a = b.
Proof.
  destruct a as [a1 a2 a3 a4], b as [b1 b2 b3 b4]. unfold copy_item_cols. cbn.
  intros [= H1 -> H3 H4].
  f_equal; [destruct a1, b1|destruct a3, b3|destruct a4, b4]; cbn in *; congruence.
Qed.

(** The digest of the remote items is that of their set. Two summaries
    whose lists have the same elements, in any order and any number of times,
    have the same digest. *)
Theorem remote_items_digest_set `{Crates} s s' l l' :
  CopySummary.remote_items s = Some l → CopySummary.remote_items s' = Some l' →
  (∀ i, i ∈ l ↔ i ∈ l') →
  remote_items_digest s = remote_items_digest s'.
Proof.
  intros Hl Hl' Hin. unfold remote_items_digest. rewrite Hl, Hl'. cbn. do 3 f_equal.
  unfold btree_set.
  assert (∀ (k : list CopyRemoteItem) i, i ∈ dedupe_by id k ↔ i ∈ k) as Hd.
  { intros k i. split; [apply (sublist_elem _ _ _ (dedupe_by_sublist id k))|].
    intros Hi. destruct (dedupe_by_complete (K := CopyRemoteItem) id k i Hi) as (j & Hj & Hji).
    unfold id in Hji. by subst. }
  assert (∀ k : list CopyRemoteItem, NoDup (dedupe_by id k)) as Hnd.
  { intros k. pose proof (dedupe_by_NoDup id k) as Hn. by rewrite list_fmap_id in Hn. }
  apply (StronglySorted_unique_strong
    (λ a b, cols_le (copy_item_cols a) (copy_item_cols b) = true)).
  - intros a b _ _ H1 H2. by apply copy_item_cols_inj, cols_le_antisym.
  - apply order_by_sorted.
  - apply order_by_sorted.
  - rewrite !order_by_perm. apply NoDup_Permutation; [done..|].
    intros i. by rewrite !Hd.
Qed.

(** the life of the resolution of a copy. A resolution that names the
    digests of the row closes the copy, whatever it differs in. A later
    summary keeps the first sighting and the decision, and the copy stays
    closed exactly when its digest, and the digest of its remote items if the
    resolution names one, are those of the resolution. *)
Theorem copy_resolution_life g url db r decision reason at_ summary digest items_digest seen :
  feed_copies db !! (g, url) = Some r →
  let db1 := (set_feed_copy_resolution g url decision reason at_
                (FeedCopyRow.summary_digest r) (FeedCopyRow.remote_items_digest r) db).1 in
  let db2 := (upsert_feed_copy_summary g url seen summary digest items_digest db1).1 in
  ∃ r1 r2, get_feed_copy g url db1 = (db1, Ok (Some r1))
    ∧ get_feed_copy g url db2 = (db2, Ok (Some r2))
    ∧ (∀ a b c, is_open_copy a b c r1 = false)
    ∧ FeedCopyRow.first_seen r2 = FeedCopyRow.first_seen r
    ∧ FeedCopyRow.resolution r2 = Some decision
    ∧ (copy_resolution_holds r2 = true ↔
         digest = FeedCopyRow.summary_digest r
         ∧ (FeedCopyRow.remote_items_digest r = None
            ∨ items_digest = FeedCopyRow.remote_items_digest r)).
Proof.
  intros Hr db1 db2. unfold db2, db1, get_feed_copy, query, upsert_feed_copy_summary,
    set_feed_copy_resolution, with_copy, execute.
  cbn [fst feed_copies set_feed_copies]. rewrite lookup_insert_eq, !lookup_alter_eq, Hr.
  cbn [fmap option_fmap option_map].
  eexists _, _. split_and!; [reflexivity|reflexivity|..].
  - intros a b c. unfold is_open_copy, copy_resolution_holds. cbn.
    rewrite String.eqb_refl. cbn [andb].
    destruct (FeedCopyRow.remote_items_digest r) as [d|]; cbn [is_none_or negb].
    + rewrite bool_decide_eq_true_2 by done. apply andb_false_r.
    + apply andb_false_r.
  - done.
  - done.
  - unfold copy_resolution_holds. cbn. rewrite andb_true_iff, String.eqb_eq.
    destruct (FeedCopyRow.remote_items_digest r) as [d|]; cbn [is_none_or].
    + rewrite bool_decide_eq_true. naive_solver.
    + naive_solver.
Qed.

(** ** Moves of a source *)

(** the wait after a return. With a last return, a count of n ≥ 1 and less
    than 30 days since, the wait is an hour doubled n - 1 times, at most seven
    days, and it ends that long after the last return; there is none
    otherwise. No count overflows the shift. *)
Theorem return_cooldown_spec count last now :
  in_i64 count → in_i64 last → last + RETURN_WAIT_LIMIT_SECS ≤ i64_max →
  return_cooldown_end count (Some last) now
  = (if decide (1 ≤ count ∧ now - last < RETURN_COUNT_RESET_SECS)
     then Some (last + Z.min (3600 * 2 ^ (count - 1)) RETURN_WAIT_LIMIT_SECS) else None)
  ∧ return_cooldown_end count None now = None
  ∧ ∀ e, return_cooldown_end count (Some last) now = Some e →
      last + 3600 ≤ e ≤ last + RETURN_WAIT_LIMIT_SECS.
Proof.
  intros Hc Hl Hmax.
  assert (return_cooldown_end count (Some last) now
    = (if decide (1 ≤ count ∧ now - last < RETURN_COUNT_RESET_SECS)
       then Some (last + Z.min (3600 * 2 ^ (count - 1)) RETURN_WAIT_LIMIT_SECS) else None)) as E.
  { unfold return_cooldown_end, effective_return_count.
    assert ((saturating (now - last) <? RETURN_COUNT_RESET_SECS)
      = (now - last <? RETURN_COUNT_RESET_SECS)) as ->.
    { unfold saturating, RETURN_COUNT_RESET_SECS, i64_min, i64_max. apply eq_true_iff_eq.
      rewrite !Z.ltb_lt. lia. }
    case_decide as Hd.
    - assert ((0 <? count) && (now - last <? RETURN_COUNT_RESET_SECS) = true) as ->.
      { rewrite andb_true_iff, !Z.ltb_lt. lia. }
      rewrite (proj2 (Z.ltb_ge count 1)) by lia. cbn [fmap option_fmap option_map]. f_equal.
      rewrite shift_pow by (done || lia). apply saturating_id.
      assert (0 < 2 ^ (count - 1)) by (apply Z.pow_pos_nonneg; lia).
      unfold in_i64, RETURN_WAIT_LIMIT_SECS in *. lia.
    - destruct ((0 <? count) && (now - last <? RETURN_COUNT_RESET_SECS)) eqn:Eb; [|done].
      apply andb_true_iff in Eb. rewrite !Z.ltb_lt in Eb. lia. }
  split_and!; [exact E|done|]. intros e. rewrite E. case_decide as Hd; [|done]. intros [= <-].
  assert (2 ^ 0 ≤ 2 ^ (count - 1)) by (apply Z.pow_le_mono_r; lia).
  unfold RETURN_WAIT_LIMIT_SECS in *. lia.
Qed.

(** The URLs that a record left. *)
Lemma left_urls_run g db :
  ∃ urls, get_left_urls g db = (db, Ok urls)
    ∧ ∀ u, u ∈ urls ↔ (g, u) ∈ feed_left_urls db.
Proof.
  eexists. split; [reflexivity|]. intros u. rewrite sort_by_perm, list_elem_of_fmap. split.
  - intros ([g' u'] & -> & [Hg Hin]%elem_of_filterb). bool_facts. subst.
    by apply elem_of_elements.
  - intros Hin. exists (g, u). split; [done|]. apply elem_of_filterb.
    split; [apply String.eqb_refl|by apply elem_of_elements].
Qed.

(** The record of a move. It never fails. The old URL is then among the
    left URLs of the record, unless it is the new one, which is not; its other
    left URLs, and those of other records, stay. The arrival tag is that of the
    move, and the count and the time of the last return change only when the
    move is a return. *)
Theorem write_feed_move_spec g mv db :
  let db' := (write_feed_move g mv db).1 in
  (write_feed_move g mv db).2 = Ok tt
  ∧ (∃ urls, get_left_urls g db' = (db', Ok urls)
      ∧ ∀ u, u ∈ urls ↔ u ≠ FeedMoveWrite.new_url mv
               ∧ (u = FeedMoveWrite.old_url mv ∨ (g, u) ∈ feed_left_urls db))
  ∧ (∀ h u, h ≠ g → (h, u) ∈ feed_left_urls db' ↔ (h, u) ∈ feed_left_urls db)
  ∧ ∃ s s', get_move_state g db = (db, Ok s) ∧ get_move_state g db' = (db', Ok s')
      ∧ MoveState.arrival_tag s' = FeedMoveWrite.arrival_tag mv
      ∧ match FeedMoveWrite.return_values mv with
        | Some (count, at_) =>
            MoveState.return_count s' = count ∧ MoveState.last_return_at s' = Some at_
        | None => MoveState.return_count s' = MoveState.return_count s
            ∧ MoveState.last_return_at s' = MoveState.last_return_at s
        end.
Proof.
  intros db'.
  assert ((write_feed_move g mv db).2 = Ok tt
    ∧ feed_left_urls db' = ({[(g, FeedMoveWrite.old_url mv)]} ∪ feed_left_urls db)
        ∖ {[(g, FeedMoveWrite.new_url mv)]}) as [-> Hl].
  { unfold db', write_feed_move, mbind, db_bind. cbn.
    by destruct (FeedMoveWrite.return_values mv) as [[? ?]|]. }
  split_and!; [done| | |].
  - destruct (left_urls_run g db') as (urls & -> & Hu). exists urls. split; [done|].
    intros u. rewrite Hu, Hl, elem_of_difference, elem_of_union, !elem_of_singleton.
    rewrite !pair_equal_spec. naive_solver.
  - intros h u Hh. rewrite Hl, elem_of_difference, elem_of_union, !elem_of_singleton.
    rewrite !pair_equal_spec. naive_solver.
  - eexists _, _. split; [reflexivity|]. split; [reflexivity|].
    unfold db', write_feed_move, mbind, db_bind. cbn.
    destruct (FeedMoveWrite.return_values mv) as [[count at_]|]; cbn;
      rewrite ?lookup_alter_eq, lookup_insert_eq;
      destruct (feed_move_state db !! g) as [[s pending]|]; by cbn.
Qed.

(** ** Instances at concrete inputs *)

#[local] Existing Instance sample_crates.
#[local] Open Scope string_scope.

Lemma moderation_catalog_ok : catalog_ok sample_primary.
Proof.
  assert (node_ok sample_primary) as Hok; [|apply Hok].
  eapply (node_step_ok id); [apply empty_ok|apply step_ingest].
Qed.

(** A submission of an unknown GUID at the URL of the sample feed. *)
Lemma classify_submission_spec_witness :
  (classify_submission "feed-2" "https://a.example/feed.xml" "x" sample_primary).2
    = Ok (SubmissionClass.GuidChange "feed-1")
  ∧ record_url sample_primary "feed-2" = None
  ∧ held_by sample_primary "feed-2" "https://a.example/feed.xml" "x" "feed-1".
Proof.
  destruct (classify_submission_spec "feed-2" "https://a.example/feed.xml" "x" sample_primary
    moderation_catalog_ok) as (c & Hc & Hm).
  apply (f_equal snd) in Hc. cbn [snd] in Hc. rewrite Hc.
  assert (c = SubmissionClass.GuidChange "feed-1") as ->.
  { clear Hm. vm_compute in Hc. injection Hc as <-. reflexivity. }
  destruct Hm as (H1 & H2 & _). split; [reflexivity|]. split; [exact H1|exact H2].
Defined.

Definition sample_block : FeedBlock := FeedBlock.mk "b1" FeedBlockKind.Guid " FEED-1 " "why" 5%Z.

Definition sample_blocked : Db := (insert_feed_block sample_block sample_primary).1.

Lemma sample_blocks_ok : blocks_ok sample_blocked.
Proof. split; apply (bool_decide_unpack _); vm_compute; exact I. Qed.

Lemma find_feed_block_exact_witness :
  match (find_feed_block (Some "feed-1") [] sample_blocked).2 with
  | Ok (Some b) => blocks sample_blocked (Some "feed-1") [] b
  | _ => False
  end.
Proof.
  destruct (find_feed_block_exact (Some "feed-1") [] sample_blocked sample_blocks_ok)
    as (r & Hr & Hs & _).
  apply (f_equal snd) in Hr. cbn [snd] in Hr. rewrite Hr.
  destruct r as [b|]; [by apply Hs|]. vm_compute in Hr. discriminate Hr.
Defined.

Lemma insert_feed_block_spec_witness :
  (insert_feed_block sample_block sample_blocked).2 = Ok false
  ∧ (insert_feed_block sample_block sample_blocked).1 = sample_blocked.
Proof.
  pose proof (insert_feed_block_spec sample_block sample_blocked sample_blocks_ok) as Hs.
  destruct (insert_feed_block sample_block sample_blocked) as [db' r] eqn:E.
  destruct Hs as (_ & inserted & -> & Hs).
  destruct inserted.
  - apply (f_equal snd) in E. vm_compute in E. discriminate E.
  - destruct Hs as [Hd _]. split; [reflexivity|exact Hd].
Defined.

Lemma sample_uuids_distinct i j : new_v4 i = new_v4 j → i = j.
Proof.
  intros Hij. assert (String.length (tally i) = String.length (tally j)) as Hl.
  { change (String "i" (String "d" (tally i)) = String "i" (String "d" (tally j))) in Hij.
    congruence. }
  by rewrite !tally_length in Hl.
Qed.

Lemma seed_blocks_idempotent_witness :
  let entries := blocks_from_env (Some "A, b ,,A") (Some "https://x.example") in
  let db := (seed_blocks 0 entries "key" 9 empty_db).1 in
  seed_blocks 50 entries "key" 10 db = (db, Ok 0%Z).
Proof.
  intros entries db.
  assert (seed_blocks 0 entries "key" 9 empty_db = (db, Ok 3%Z)) as E by (vm_compute; reflexivity).
  apply (seed_blocks_idempotent 0 entries "key" 9 empty_db db 3);
    [|intros i _; apply not_elem_of_nil|exact E].
  exact sample_uuids_distinct.
Defined.

Lemma guid_change_decision_kept_witness :
  let db := (upsert_guid_change "u" "old" "new" 7 empty_db).1 in
  let db1 := (set_guid_change_decision "u" "accept" "why" 8 db).1 in
  ∃ r, feed_guid_changes (upsert_guid_change "u" "old" "other" 9 db1).1 !! "u" = Some r
    ∧ GuidChangeRow.decision r = None.
Proof.
  intros db db1.
  destruct (guid_change_decision_kept "u" "old" "new" db
    (GuidChangeRow.mk "u" "old" "new" 7 None None None None) "accept" "why" 8 9 "old" "other")
    as (_ & r & Hr & _ & _ & _ & _ & Hne); [vm_compute; reflexivity|done|done|].
  exists r. split; [exact Hr|]. by apply Hne.
Defined.

Definition sample_copy_item (feed_guid : string) : CopyRemoteItem :=
  CopyRemoteItem.mk None feed_guid None (Some "item").

Definition sample_summary (items : list CopyRemoteItem) : CopySummary :=
  CopySummary.mk "Album" ["track-1"] None None (Some items) None None None None [] ∅.

Lemma remote_items_digest_set_witness :
  let a := sample_copy_item "a" in
  let b := sample_copy_item "b" in
  remote_items_digest (sample_summary [a; b; a]) = remote_items_digest (sample_summary [b; a]).
Proof.
  intros a b. apply (remote_items_digest_set _ _ [a; b; a] [b; a]); [done|done|]. set_solver.
Defined.

Lemma copy_resolution_life_witness :
  let s := sample_summary [] in
  let db := (upsert_feed_copy_summary "g" "u" 5 s "d1" (Some "i1") empty_db).1 in
  let db1 := (set_feed_copy_resolution "g" "u" "mirror" "why" 6 "d1" (Some "i1") db).1 in
  ∃ r, (get_feed_copy "g" "u" (upsert_feed_copy_summary "g" "u" 9 s "d2" (Some "i1") db1).1).2
         = Ok (Some r)
    ∧ FeedCopyRow.first_seen r = 5%Z ∧ copy_resolution_holds r = false.
Proof.
  intros s db db1.
  pose (row := match feed_copies db !! ("g", "u") with
    | Some r => r
    | None => FeedCopyRow.mk "" "" 0 None "" [] None None None None None None None [] ∅ "" None
        None None None None None
    end).
  destruct (copy_resolution_life "g" "u" db row "mirror" "why" 6 s "d2" (Some "i1") 9)
    as (r1 & r2 & _ & Hr & _ & Hf & _ & Hh); [vm_compute; reflexivity|].
  exists r2. split_and!; [exact (f_equal snd Hr)|exact Hf|].
  apply not_true_iff_false. intros Ht. apply Hh in Ht as [Hd _]. vm_compute in Hd. discriminate.
Defined.

Lemma return_cooldown_spec_witness :
  return_cooldown_end 3 (Some 1000) 2000 = Some 15400%Z
  ∧ return_cooldown_end 3 None 2000 = None.
Proof.
  destruct (return_cooldown_spec 3 1000 2000) as (H1 & H2 & _);
    [by vm_compute..|]. split; [exact H1|exact H2].
Defined.
