(* ===== verification/SubmitProps.v ===== *)
(** Properties of a submission: who may write a record, what an answer that
    is not an acceptance has changed, the checks, the rows, the retirement of
    a gone source, and a GUID change whose ingest fails. *)

From S2P Require Import Prelude.
From S2P Require Import Model.
From S2P Require Import Ingest.
From S2P Require Import Event.
From S2P Require Import Medium.
From S2P Require Import Crates.
From S2P Require Import Live.
From S2P Require Import Store.
From S2P Require Import Verify.
From S2P Require Import Tables.
From S2P Require Import Snapshot.
From S2P Require Import RowLists.
From S2P Require Import Search.
From S2P Require Import Catalog.
From S2P Require Import Feeds.
From S2P Require Import Integrity.
From S2P Require Import EventLog.
From S2P Require Import Diff.
From S2P Require Import Bundle.
From S2P Require Import IngestTx.
From S2P Require Import Blocks.
From S2P Require Import GuidChange.
From S2P Require Import Copies.
From S2P Require Import Observe.
From S2P Require Import Submit.
From S2P Require Import Frames.
From S2P Require Import Replica.
From S2P Require Import Parts.
From S2P Require Import Ingested.
From S2P Require Import Submitted.
From S2P Require Import Administered.
From S2P Require Import Samples.

(** C2: no one writes a record through a URL that it does not know. A body for
    the GUID of a record that comes neither from the URL of the record nor
    from one it declares leaves every feed, track, list, score and search row
    as it was, whatever the body holds and whatever the checks say; the log
    gains at most observations of URLs and of copies. *)
Theorem takeover_refused `{Crates} `{Web} (hash_order : list string → list string)
    signer chain hosts clock uuids req fd reader db row :
  IngestFeedRequest.feed_data req = Some fd →
  feeds db !! IngestFeedData.feed_guid fd = Some row →
  foreign row (IngestFeedRequest.source_url req) (IngestFeedRequest.canonical_url req) →
  let db' := (handle_ingest_feed hash_order signer chain hosts clock uuids req reader db).1 in
  content db' = content db
  ∧ only_new [EventType.FeedUrlObserved; EventType.FeedCopyObserved] (log_types db) db'.
Proof. intros Hfd Hr Hf. by eapply handler_foreign. Qed.



(** C40: the rows of a submission fit together. When no two of its items have
    the same GUID, every list row of the bundle is under the GUID of the
    feed, each row of a track under that track, and no track comes twice. A
    [musicL] body gives no track and no live item at all, and its payment
    block becomes list values in place of routes. *)
Theorem submission_bundle_ok `{Crates} `{Web} canonical_url feed_url fd now :
  NoDup (IngestTrackData.track_guid <$> IngestFeedData.tracks fd) →
  let b := build_bundle canonical_url feed_url fd now in
  bundle_ok b
  ∧ Feed.feed_guid (IngestBundle.feed b) = IngestFeedData.feed_guid fd
  ∧ NoDup (LiveEvent.live_item_guid <$> IngestBundle.live_events b)
  ∧ (is_musicl (IngestFeedData.raw_medium fd) = true →
       IngestBundle.tracks b = [] ∧ IngestBundle.live_events b = []
       ∧ IngestBundle.feed_routes b = []
       ∧ length (IngestBundle.feed_list_values b)
         = length (IngestFeedData.feed_payment_routes fd))
  ∧ (is_musicl (IngestFeedData.raw_medium fd) = false →
       length (IngestBundle.tracks b) = length (IngestFeedData.tracks fd)
       ∧ IngestBundle.feed_list_values b = []).
Proof.
  intros Hnd b. split_and!.
  - apply bundle_well_formed. unfold body_tracks. destruct (body_is_musicl fd); [constructor|done].
  - apply bundle_feed_guid.
  - cbn. rewrite <-list_fmap_compose.
    change (NoDup (item_guid <$> (body_live_items fd).1)). unfold body_live_items.
    rewrite select_live_items_chosen.
    eapply sublist_NoDup; [apply sublist_fmap, filter_sublist|apply survivors_NoDup].
  - intros Hm. cbn. unfold body_tracks, body_live_items, body_feed_routes, body_list_values,
      body_is_musicl. rewrite Hm. split_and!; [done..|]. by rewrite length_imap.
  - intros Hm. cbn. unfold body_tracks, body_list_values, body_is_musicl. rewrite Hm.
    by rewrite length_fmap.
Qed.

(** *** What the verifiers of the default chain ask *)

Lemma not_fails v ctx :
  ¬ fails v ctx ↔ is_some (match Verifier.verify v ctx with VerifyResult.Fail m => Some m | _ => None end) = false.
Proof. unfold fails. destruct (Verifier.verify v ctx); cbn; naive_solver. Qed.

Lemma content_hash_ok n ctx feed :
  feed_data_of ctx = Some feed →
  ¬ fails (Verifier.mk n content_hash_verify) ctx ↔
  IngestFeedRequest.force_reingest (IngestContext.request ctx) = true
  ∨ is_publisher (IngestFeedData.raw_medium feed) = true
  ∨ (fst <$> feed_crawl_cache (IngestContext.db ctx)
               !! IngestFeedRequest.canonical_url (IngestContext.request ctx))
    ≠ Some (IngestFeedRequest.content_hash (IngestContext.request ctx)).
Proof.
  intros Hf. rewrite not_fails. cbn [Verifier.verify]. unfold content_hash_verify. rewrite Hf.
  cbn [is_some_and]. destruct (IngestFeedRequest.force_reingest _); [naive_solver|].
  destruct (is_publisher _); [naive_solver|].
  destruct (fst <$> _) as [h|]; [|naive_solver].
  destruct (h =s _) eqn:E; cbn; [apply String.eqb_eq in E|apply String.eqb_neq in E]; naive_solver.
Qed.

Lemma medium_music_ok n ctx feed :
  feed_data_of ctx = Some feed →
  ¬ fails (Verifier.mk n medium_music_verify) ctx ↔
  is_music (IngestFeedData.raw_medium feed) = true
  ∨ is_musicl (IngestFeedData.raw_medium feed) = true
  ∨ is_publisher (IngestFeedData.raw_medium feed) = true
    ∧ ∃ item, item ∈ IngestFeedData.remote_items feed
        ∧ is_music (IngestRemoteFeedRef.medium item) = true.
Proof.
  intros Hf. rewrite not_fails. cbn [Verifier.verify]. unfold medium_music_verify. rewrite Hf.
  cbn [mbind option_bind is_some_and].
  assert (existsb (λ ri, is_music (IngestRemoteFeedRef.medium ri))
            (IngestFeedData.remote_items feed) = true ↔
    ∃ item, item ∈ IngestFeedData.remote_items feed
      ∧ is_music (IngestRemoteFeedRef.medium item) = true) as He.
  { rewrite existsb_exists. by setoid_rewrite list_elem_of_In. }
  destruct (IngestFeedData.raw_medium feed) as [r|];
    [|cbn; split; [done|intros [?|[?|[? _]]]; done]].
  destruct (medium_cases (Some r)) as
    [(-> & -> & ->)|[(-> & -> & ->)|[(-> & -> & ->)|(-> & -> & ->)]]]; cbn.
  - split; auto.
  - rewrite <-He. destruct (existsb _ _); cbn; split; auto; intros [?|[?|[_ ?]]]; done.
  - split; auto.
  - split; [done|intros [?|[?|[? _]]]; done].
Qed.

Lemma feed_guid_ok `{Web} n ctx feed :
  feed_data_of ctx = Some feed →
  ¬ fails (Verifier.mk n feed_guid_verify) ctx ↔
  IngestFeedData.feed_guid feed ∉ BAD_GUIDS ∧ parse_uuid (IngestFeedData.feed_guid feed) = true.
Proof.
  intros Hf. rewrite not_fails. cbn [Verifier.verify]. unfold feed_guid_verify. rewrite Hf.
  cbn [fmap option_fmap option_map].
  destruct (bool_decide _) eqn:E; [apply bool_decide_eq_true in E|apply bool_decide_eq_false in E];
    [cbn; naive_solver|].
  destruct (parse_uuid _); cbn; naive_solver.
Qed.

Lemma v4v_payment_ok n ctx feed :
  feed_data_of ctx = Some feed →
  ¬ fails (Verifier.mk n v4v_payment_verify) ctx ↔
  payment_exempt (IngestFeedData.raw_medium feed) = true ∨ covered feed.
Proof.
  intros Hf. rewrite <-(v4v_payment_spec ctx feed Hf), not_fails. cbn [Verifier.verify].
  assert (∀ m, v4v_payment_verify ctx ≠ VerifyResult.Warn m) as Hw.
  { intros w. unfold v4v_payment_verify. rewrite Hf. destruct (payment_exempt _); [done|].
    destruct (match IngestFeedData.feed_payment_routes feed with [] => _ | _ => _ end) as [valid|];
      [|done]. destruct (_ && _); [done|].
    induction (IngestFeedData.tracks feed) as [|t ts IH]; cbn [v4v_tracks]; [done|].
    destruct (IngestTrackData.payment_routes t); [by destruct valid|].
    by destruct (validate_routes _ _). }
  destruct (v4v_payment_verify ctx) as [|w|w]; [done|by destruct (Hw w)|]. by split.
Qed.

Lemma enclosure_type_ok n ctx : ¬ fails (Verifier.mk n enclosure_type_verify) ctx.
Proof.
  intros [m Hm]. revert Hm. cbn. unfold enclosure_type_verify.
  destruct (feed_data_of ctx) as [feed|]; [|done].
  induction (IngestFeedData.tracks feed) as [|t ts IH]; cbn [enclosure_tracks]; [done|].
  destruct (IngestTrackData.enclosure_type t); [|done]. by destruct (starts_with _ _).
Qed.

Lemma run_verifiers_accepts vs ctx :
  (∃ ws, run_verifiers vs ctx [] = Ok ws) ↔ Forall (λ v, ¬ fails v ctx) vs.
Proof. setoid_rewrite run_verifiers_ok. naive_solver. Qed.

(** C9: what the default chain accepts. With [VERIFIER_CHAIN] unset, a body
    passes exactly when its hash is not that of the last crawl (unless the
    re-ingest is forced or the body is a publisher's), its medium is music,
    a music list, or a publisher with a music child, its GUID is a UUID that
    is not a known bad one, and its payments cover every track (unless the
    medium is exempt). *)
Theorem default_chain_accepts `{Web} token chain ctx feed :
  build_chain (from_env None) token = Some chain →
  feed_data_of ctx = Some feed →
  let req := IngestContext.request ctx in
  let m := IngestFeedData.raw_medium feed in
  (∃ warnings, run chain ctx = Ok warnings) ↔
  (IngestFeedRequest.force_reingest req = true ∨ is_publisher m = true
   ∨ (fst <$> feed_crawl_cache (IngestContext.db ctx) !! IngestFeedRequest.canonical_url req)
     ≠ Some (IngestFeedRequest.content_hash req))
  ∧ (is_music m = true ∨ is_musicl m = true
     ∨ is_publisher m = true
       ∧ ∃ item, item ∈ IngestFeedData.remote_items feed
           ∧ is_music (IngestRemoteFeedRef.medium item) = true)
  ∧ (IngestFeedData.feed_guid feed ∉ BAD_GUIDS
     ∧ parse_uuid (IngestFeedData.feed_guid feed) = true)
  ∧ (payment_exempt m = true ∨ covered feed).
Proof.
  intros Hb Hf req m. unfold build_chain in Hb.
  change (from_env None) with ["content_hash"; "medium_music"; "feed_guid"; "v4v_payment";
    "enclosure_type"]%string in Hb.
  cbn in Hb. unfold chain_new in Hb. destruct (str_is_empty _); [done|]. injection Hb as <-.
  unfold run. cbn [VerifierChain.verifiers]. rewrite run_verifiers_accepts.
  rewrite !Forall_cons, (content_hash_ok _ ctx feed Hf), (medium_music_ok _ ctx feed Hf),
    (feed_guid_ok _ ctx feed Hf), (v4v_payment_ok _ ctx feed Hf). fold req m.
  split; [tauto|]. intros (?&?&[? ?]&?). repeat split_and!; auto using enclosure_type_ok, Forall_nil_2.
Qed.

(** The live items that become rows. The kept items are items of the
    body in its order, no two with the same GUID, each of a known status and
    none banned. At most ten are pending or live and at most ten have ended:
    the first ten of the former, and of the latter ten that start no earlier
    than any that is dropped. Every item that is not kept has one warning. *)
Theorem select_live_items_spec items :
  let kept := (select_live_items items).1 in
  let left := survivors items in
  sublist kept left ∧ sublist left items
  ∧ NoDup (item_guid <$> kept)
  ∧ (∀ i, i ∈ kept → known_status i = true ∧ is_banned_live_item i = false)
  ∧ active_items kept ≡ₚ take MAX_ACTIVE_LIVE_ROWS (active_items left)
  ∧ List.filter is_ended kept ≡ₚ take MAX_ENDED_LIVE_ROWS (ended_items left)
  ∧ (∀ i j, is_ended i = true → is_ended j = true →
       i ∈ kept → j ∈ left → j ∉ kept → newest_first i j = true)
  ∧ (length kept + length (select_live_items items).2 = length items)%nat.
Proof.
  intros kept left.
  assert (kept ≡ₚ chosen items) as Hp by apply select_live_items_perm.
  assert (sublist kept left) as Hsub
    by (unfold kept; rewrite select_live_items_chosen; apply filter_sublist).
  split_and!; [exact Hsub|apply survivors_sublist| | | | | |apply select_live_items_count].
  - eapply sublist_NoDup; [by apply sublist_fmap|apply survivors_NoDup].
  - intros i Hi. apply survivors_status with items. by eapply sublist_elem.
  - unfold left. rewrite <-chosen_active. by apply filter_perm.
  - unfold left. rewrite <-chosen_ended. by apply filter_perm.
  - intros i j Hi Hj Hk Hl Hn. apply (ended_taken_first MAX_ENDED_LIVE_ROWS left).
    + unfold left. rewrite <-chosen_ended, elem_of_filterb, <-Hp. done.
    + assert (j ∈ ended_items left) as He by (rewrite ended_items_perm, elem_of_filterb; done).
      rewrite <-(take_drop MAX_ENDED_LIVE_ROWS (ended_items left)), elem_of_app in He.
      destruct He as [He|He]; [|done]. destruct Hn. rewrite Hp.
      unfold left in He. rewrite <-chosen_ended, elem_of_filterb in He. apply He.
Qed.

(** *** The retirement of a gone source *)

Section gone.
Context `{Crates} `{Web} (signer : string).



End gone.



(** *** A GUID change and the ingest after it *)

Lemma inserts_checked {R K} `{EqDecision K} (T : Table R K) rows db db' u :
  for_each (insert T) rows db = (db', Ok u) → Forall (λ r, tbl_check T r = true) rows.
Proof.
  revert db. induction rows as [|r rows IH]; intros db Hr; [constructor|].
  cbn [for_each] in Hr. apply bind_ok in Hr as (db1 & u1 & H1 & Hr).
  constructor; [|by eapply IH]. unfold insert in H1. by destruct (tbl_check T r).
Qed.

(** A route with a negative split fails the ingest. *)
Lemma negative_split_fails `{Crates} (hash_order : list string → list string)
    now uuids b rows mv signer db r :
  r ∈ IngestBundle.feed_routes b → FeedPaymentRoute.split r < 0 →
  ∃ e, ingest_transaction hash_order now uuids b rows mv signer db = (db, Err e).
Proof.
  intros Hr Hs. destruct (ingest_transaction _ _ _ _ _ _ _ db) as [db' [seqs|e]] eqn:E;
    [exfalso|by apply transaction_err in E as ->; eauto].
  apply transaction_run in E. unfold ingest_body in E. cbv zeta in E.
  do 3 run_bind E. run_bind E. unfold ingest_feed_lists in H3. cbv zeta in H3.
  run_bind H3. unfold replace_rows in H4. run_bind H4.
  apply inserts_checked in H4. rewrite Forall_forall in H4.
  specialize (H4 r Hr). cbn in H4. apply Z.leb_le in H4. lia.
Qed.

Section transition.
Context `{Crates} (signer : string).

Lemma sign_fresh row db :
  event_id_taken db (EventRow.event_id row) = false →
  ∃ d signed, sign_event_row signer row db = (d, Ok signed)
    ∧ feeds d = feeds db
    ∧ log_types d = log_types db ++ [EventRow.event_type row]
    ∧ ∀ id, event_id_taken d id = event_id_taken db id || (EventRow.event_id row =s id).
Proof.
  intros Hf. pose proof (keeps (g := feeds) (m := sign_event_row signer row) db) as K.
  unfold sign_event_row, mbind, db_bind in K |- *. rewrite insert_event_run in K |- *.
  rewrite Hf in K |- *. destruct (sign_event _ _ _ _ _ _ _) as [by_ sig].
  eexists _, _. split; [reflexivity|]. split; [exact K|]. split.
  - unfold log_types. cbn. by rewrite fmap_app.
  - intros id. unfold event_id_taken. cbn. rewrite existsb_app. cbn. by rewrite orb_false_r.
Qed.

Lemma taken_events d d' id : events d = events d' → event_id_taken d id = event_id_taken d' id.
Proof. unfold event_id_taken. by intros ->. Qed.

Lemma log_types_events d d' : events d = events d' → log_types d = log_types d'.
Proof. unfold log_types. by intros ->. Qed.

(** The transition of a GUID change succeeds when its event ids are new. *)
Lemma transition_run uuids held new url now db :
  (∀ n, event_id_taken db (new_v4 n) = false) →
  (∀ m n, new_v4 m = new_v4 n → m = n) →
  ∃ d rows types, guid_change_transition signer uuids held new url now db = (d, Ok rows)
    ∧ feeds d = delete held (feeds db)
    ∧ log_types d
      = log_types db ++ EventType.FeedRetired :: EventType.FeedGuidSuperseded :: types.
Proof.
  intros Hfresh Hinj. unfold guid_change_transition, transaction.
  assert (∀ m n, m ≠ n → new_v4 m =s new_v4 n = false) as Hne
    by (intros m n Hmn; apply String.eqb_neq; intros Heq; by apply Hmn, Hinj).
  pose proof (delete_feed_catalog held db) as [_ Hf].
  pose proof (delete_feed_events held db) as He.
  assert (Total (delete_feed_sql held)) as Ht by apply _. specialize (Ht db).
  unfold mbind at 1, db_bind at 1.
  destruct (delete_feed_sql held db) as [d0 [[]|]]; [|done]. cbn [fst] in *. clear Ht.
  destruct (sign_fresh (feed_retired_event_row held "guid_superseded" now (new_v4 uuids)) d0)
    as (d1 & s1 & E1 & F1 & L1 & T1).
  { rewrite (taken_events d0 db) by done. apply Hfresh. }
  unfold mbind at 1, db_bind at 1. rewrite E1.
  unfold mbind at 1, db_bind at 1, insert_guid_supersession, execute.
  set (d2 := match feed_guid_supersessions d1 !! held with Some _ => d1 | None => _ end).
  assert (feeds d2 = feeds d1 ∧ events d2 = events d1) as [F2 E2]
    by (unfold d2; by destruct (feed_guid_supersessions d1 !! held)).
  destruct (sign_fresh (feed_guid_superseded_event_row held new url now (new_v4 (S uuids))) d2)
    as (d3 & s3 & E3 & F3 & L3 & T3).
  { rewrite (taken_events d2 d1), T1, (taken_events d0 db) by done.
    cbn [EventRow.event_id feed_guid_superseded_event_row feed_retired_event_row payload_row].
    rewrite Hfresh. apply Hne. lia. }
  unfold mbind at 1, db_bind at 1. rewrite E3.
  assert (feeds d3 = delete held (feeds db)) as Hfeeds by congruence.
  assert (log_types d3
    = log_types db ++ [EventType.FeedRetired; EventType.FeedGuidSuperseded]) as Hlog.
  { by rewrite L3, (log_types_events d2 d1), L1, (log_types_events d0 db), <-app_assoc. }
  unfold mbind at 1, db_bind at 1, get_guid_change, query.
  destruct (feed_guid_changes d3 !! url) as [pending|].
  2: { eexists _, _, []. split; [reflexivity|]. by split. }
  unfold mbind at 1, db_bind at 1, delete_guid_change, execute. cbv beta iota.
  unfold mbind at 1, db_bind at 1.
  match goal with |- context [sign_event_row signer ?r ?d] =>
    destruct (sign_fresh r d) as (d4 & s4 & E4 & F4 & L4 & T4) end.
  { rewrite (taken_events _ d3), T3, (taken_events d2 d1), T1, (taken_events d0 db) by done.
    cbn [EventRow.event_id feed_guid_superseded_event_row feed_retired_event_row
         guid_change_observed_event_row payload_row].
    by rewrite Hfresh, !Hne by lia. }
  rewrite E4. cbv beta iota.
  eexists _, _, [EventType.FeedGuidChangeObserved]. split; [reflexivity|]. split.
  - rewrite F4. exact Hfeeds.
  - by rewrite L4, (log_types_events _ d3), Hlog, <-app_assoc.
Qed.
End transition.

(** The writes after a GUID change, with a route that the table refuses. *)
Lemma write_phase_fails `{Crates} `{Web} (hash_order : list string → list string)
    signer uuids req fd adm ws b now held r db :
  Admission.pending_guid_transition adm = Some held →
  feeds db !! Feed.feed_guid (IngestBundle.feed b) = None →
  r ∈ IngestBundle.feed_routes b → FeedPaymentRoute.split r < 0 →
  (∀ n, event_id_taken db (new_v4 n) = false) →
  (∀ m n, new_v4 m = new_v4 n → m = n) →
  ∃ db' e types, write_phase hash_order signer uuids req fd adm ws b now db = (db', Err e)
    ∧ feeds db' = delete held (feeds db)
    ∧ log_types db'
      = log_types db ++ EventType.FeedRetired :: EventType.FeedGuidSuperseded :: types.
Proof.
  intros Hadm Hnone Hr Hs Hfresh Hinj. unfold write_phase. cbv zeta.
  unfold mbind at 1, db_bind at 1, build_diff_events, get_feed_by_guid.
  unfold mbind at 1, db_bind at 1, query. rewrite Hnone. cbn [fmap option_fmap option_map].
  unfold mret at 1, db_ret at 1. cbv beta iota.
  set (rows := number_rows uuids _). unfold transition_phase. rewrite Hadm.
  destruct (transition_run signer (uuids + length rows) held (IngestFeedData.feed_guid fd)
    (IngestFeedRequest.source_url req) now db Hfresh Hinj) as (d & trows & types & E & Hf & Hl).
  unfold mbind at 1, db_bind at 1. rewrite E. cbv beta iota.
  destruct (negative_split_fails hash_order now (uuids + length rows + length trows) b rows
    (feed_move_of fd adm) signer d r Hr Hs) as [e Hi].
  unfold mbind at 1, db_bind at 1. rewrite Hi. eauto 10.
Qed.

(** C23: a GUID change can lose the record. Take a body that carries a new GUID
    from the URL of a record, with a GUID derived from that URL, at most 500
    items, and a feed route with a negative split (the checks ask for one
    valid recipient only). The transition commits on its own: it deletes the
    old record and signs its retirement. Then the ingest fails on the split,
    and the answer is a database error: neither the old record nor the new
    one is left. *)
Theorem guid_change_loses_record `{Crates} `{Web} (hash_order : list string → list string)
    signer clock uuids req fd warnings held route db :
  IngestFeedRequest.feed_data req = Some fd →
  (classify_submission (IngestFeedData.feed_guid fd) (IngestFeedRequest.source_url req)
     (IngestFeedRequest.canonical_url req) db).2 = Ok (SubmissionClass.GuidChange held) →
  guid_origin_matches (IngestFeedData.feed_guid fd) (IngestFeedRequest.source_url req) = true →
  is_musicl (IngestFeedData.raw_medium fd) = false →
  (length (IngestFeedData.tracks fd) ≤ 500)%nat →
  route ∈ IngestFeedData.feed_payment_routes fd → IngestPaymentRoute.split route < 0 →
  (∀ n, event_id_taken db (new_v4 n) = false) →
  (∀ m n, new_v4 m = new_v4 n → m = n) →
  ∃ db' e types,
    mutate_phase hash_order signer clock uuids req (ReadPhaseOutcome.Verified warnings) db
      = (db', Err e)
    ∧ feeds db' = delete held (feeds db)
    ∧ feeds db' !! IngestFeedData.feed_guid fd = None
    ∧ log_types db'
      = log_types db ++ EventType.FeedRetired :: EventType.FeedGuidSuperseded :: types.
Proof.
  intros Hfd Hclass Horigin Hm Hlen Hroute Hsplit Hfresh Hinj.
  set (g := IngestFeedData.feed_guid fd) in *.
  pose proof (keeps (g := id) (m := classify_submission g (IngestFeedRequest.source_url req)
    (IngestFeedRequest.canonical_url req)) db) as Hkeep. cbn in Hkeep.
  assert (feeds db !! g = None) as Hnone.
  { clear Hkeep. unfold classify_submission, query, mbind, db_bind in Hclass. cbn in Hclass.
    destruct (feeds db !! g) as [row|]; [|done]. exfalso.
    destruct (Feed.feed_guid <$> head _); [done|]. cbn in Hclass. by destruct (_ || _). }
  unfold mutate_phase. rewrite Hfd. unfold decide_phase, req_guid. fold g.
  unfold mbind at 1, db_bind at 1. unfold mbind at 1, db_bind at 1.
  destruct (classify_submission g _ _ db) as [db0 [class|]]; [|done].
  cbn [fst snd] in Hkeep, Hclass. injection Hclass as ->. subst db0.
  unfold guid_change_case, req_guid. fold g. unfold mbind at 1, db_bind at 1, get_guid_change,
    query. rewrite Horigin. cbn [orb]. cbv beta iota zeta.
  unfold mret at 1, db_ret at 1. cbv beta iota. set (adm := Admission.mk _ _ _ _ _).
  unfold admit_phase. destruct (body_live_items fd) as [live lws].
  assert ((MAX_TRACKS_PER_INGEST <? length (body_tracks fd))%nat = false) as ->.
  { apply Nat.ltb_ge. unfold body_tracks, body_is_musicl. by rewrite Hm. }
  unfold feed_url_of. cbn [Admission.record_move adm]. unfold mbind at 1, db_bind at 1.
  unfold mbind at 1, db_bind at 1, get_feed_by_guid, query. fold g. rewrite Hnone.
  cbn [fmap option_fmap option_map]. unfold mret at 1, db_ret at 1. cbv beta iota.
  match goal with |- context [write_phase _ _ ?u ?r ?f ?a ?w ?b ?n] =>
    destruct (write_phase_fails hash_order signer u r f a w b n held
      (feed_payment_route fd route) db) as (d & e & types & E & Hf & Hl);
      [reflexivity| | | |exact Hfresh|exact Hinj|] end.
  - rewrite bundle_feed_guid. exact Hnone.
  - cbn. unfold body_feed_routes, body_is_musicl. rewrite Hm.
    apply list_elem_of_fmap_2. exact Hroute.
  - exact Hsplit.
  - exists d, e, types. split_and!; [exact E|exact Hf| |exact Hl].
    rewrite Hf. apply lookup_delete_None. by right.
Qed.

(** ** Instances at concrete inputs *)

#[local] Existing Instance plain_web.
#[local] Open Scope string_scope.

Definition sample_body (guid : string) (routes : list IngestPaymentRoute)
    (tracks : list IngestTrackData) : IngestFeedData :=
  IngestFeedData.mk guid "Album" None None None false None (Some "music") (Some "Artist") None
    (Some 1000) None None None None [] [] [] [] routes [] [] tracks.

Definition sample_request (url : string) (status : Z) (fd : option IngestFeedData) :
    IngestFeedRequest :=
  IngestFeedRequest.mk url url "token" status "hash" fd false [].

Definition sample_ingest_route (address : string) (split : Z) : IngestPaymentRoute :=
  IngestPaymentRoute.mk None RouteType.Node address None None split false.

Definition sample_ingest_track (guid : string) : IngestTrackData :=
  IngestTrackData.mk guid "One" (Some 900) None None None None None None [] None None false None
    None [] [] [] [] [sample_ingest_route "02ab" 100] [] [].

Definition sample_chain : VerifierChain := VerifierChain.mk "token" [].

Definition sample_clock : Clock := Clock.mk 500 500 500 500.

(** A node that holds one feed. *)
Definition one_feed : Db :=
  set_feeds {["feed-1" := FeedRow.mk sample_feed None None None None]} empty_db.

(** The libraries, with the payload of a retirement. *)
Definition gone_crates : Crates :=
  table_crates [EventPayload.FeedRetired (FeedRetiredPayload.mk "feed-1" (Some "source_gone"))].

Lemma takeover_refused_witness :
  let req := sample_request "https://evil.example/feed.xml" 200 (Some (sample_body "feed-1" [] [])) in
  let db' := (@handle_ingest_feed gone_crates _ id "key" sample_chain [] sample_clock 0 req
    one_feed one_feed).1 in
  content db' = content one_feed.
Proof.
  intros req db'.
  refine (proj1 (@takeover_refused gone_crates _ id "key" sample_chain [] sample_clock 0 req
    (sample_body "feed-1" [] []) one_feed one_feed (FeedRow.mk sample_feed None None None None)
    _ _ _)).
  - reflexivity.
  - vm_compute. reflexivity.
  - intros u Hu. split_and!; [|done|done]. by destruct Hu as [->| ->].
Defined.



Lemma submission_bundle_ok_witness :
  let fd := sample_body "feed-1" [sample_ingest_route "03cd" 100]
              [sample_ingest_track "t-1"; sample_ingest_track "t-2"] in
  let b := @build_bundle gone_crates _ "https://a.example" "https://a.example" fd 500 in
  bundle_ok b ∧ length (IngestBundle.tracks b) = 2%nat.
Proof.
  intros fd b.
  destruct (@submission_bundle_ok gone_crates _ "https://a.example" "https://a.example" fd 500)
    as (Hb & _ & _ & _ & Ht).
  - apply (bool_decide_unpack _). vm_compute. exact I.
  - split; [exact Hb|]. by apply Ht.
Defined.

Lemma default_chain_accepts_witness :
  let guid := "0123456789abcdef0123456789abcdef0123" in
  let fd := sample_body guid [sample_ingest_route "03cd" 100] [sample_ingest_track "t-1"] in
  let ctx := IngestContext.mk (sample_request "https://a.example/feed.xml" 200 (Some fd)) empty_db in
  ∃ chain warnings, build_chain (from_env None) "token" = Some chain ∧ run chain ctx = Ok warnings.
Proof.
  intros guid fd ctx.
  destruct (build_chain (from_env None) "token") as [chain|] eqn:E; [|vm_compute in E; done].
  exists chain. destruct (default_chain_accepts "token" chain ctx fd E eq_refl) as [_ Hr].
  destruct Hr as [ws Hws]; [|by exists ws].
  split_and!; [right; right; vm_compute; done|left; reflexivity|..].
  - apply (bool_decide_unpack _). vm_compute. exact I.
  - vm_compute. reflexivity.
  - right. assert (has_recipient [sample_ingest_route "03cd" 100]) as Hf.
    { exists (sample_ingest_route "03cd" 100). by split_and!; [left| |]. }
    assert (has_recipient [sample_ingest_route "02ab" 100]) as Ht.
    { exists (sample_ingest_route "02ab" 100). by split_and!; [left| |]. }
    split_and!; [done|done|]. intros t [->|Hin]%elem_of_cons; [exact Ht|set_solver].
Defined.




Lemma guid_change_loses_record_witness :
  let guid := "v5-a.example/feed.xml" in
  let fd := sample_body guid [sample_ingest_route "03cd" 100; sample_ingest_route "02ab" (-1)] [] in
  let req := sample_request "https://a.example/feed.xml" 200 (Some fd) in
  ∃ db' e, @mutate_phase gone_crates _ id "key" sample_clock 0 req (ReadPhaseOutcome.Verified [])
             one_feed = (db', Err e)
    ∧ feeds db' = delete "feed-1" (feeds one_feed).
Proof.
  intros guid fd req.
  destruct (@guid_change_loses_record gone_crates _ id "key" sample_clock 0 req fd [] "feed-1"
    (sample_ingest_route "02ab" (-1)) one_feed) as (db' & e & _ & E & Hf & _);
    [reflexivity|vm_compute; reflexivity|vm_compute; reflexivity|reflexivity|cbn; lia
    |right; left|reflexivity|reflexivity| |].
  - intros m n Hmn. apply (f_equal String.length) in Hmn.
    change (S (S (String.length (tally m))) = S (S (String.length (tally n)))) in Hmn.
    rewrite !tally_length in Hmn. by injection Hmn.
  - exists db', e. split; [exact E|exact Hf].
Defined.
