(* ===== verification/SyncProps.v ===== *)
(** Properties of the sync between a primary and its community nodes: the
    catch-up, what a push hides from it, the reconciliation, the registration
    and the count of failed pushes. *)

From S2P Require Import Prelude.
From S2P Require Import Model.
From S2P Require Import Event.
From S2P Require Import Crates.
From S2P Require Import Store.
From S2P Require Import EventLog.
From S2P Require Import Apply.
From S2P Require Import Sync.
From S2P Require Import Community.
From S2P Require Import Replica.
From S2P Require Import Ingested.
From S2P Require Import Delivery.
From S2P Require Import Replication.
From S2P Require Import Samples.

(** ** Reconciliation *)

Lemma collect_results_Forall2 {A B E} (f : A → result E B) l ys :
  collect_results f l = Ok ys → Forall2 (λ x y, f x = Ok y) l ys.
Proof.
  revert ys. induction l as [|x l IH]; intros ys; cbn.
  { intros [= <-]. constructor. }
  destruct (f x) as [y|] eqn:Ef; [|done]. cbn.
  destruct (collect_results f l) as [zs|]; [|done]. cbn. intros [= <-].
  constructor; [done|by apply IH].
Qed.

Lemma max_ref_seq_le d refs x : x ∈ refs → x.2 ≤ max_ref_seq d refs.
Proof.
  assert (∀ l m, m ≤ foldl (λ m r, Z.max m (r : EventRef).2) m l
    ∧ ∀ x, x ∈ l → x.2 ≤ foldl (λ m r, Z.max m (r : EventRef).2) m l) as Hf.
  { induction l as [|y l IH]; intros m; cbn; [split; [lia|set_solver]|].
    destruct (IH (Z.max m y.2)) as [H1 H2]. split; [lia|].
    intros z [-> |Hz]%elem_of_cons; [lia|auto]. }
  destruct refs as [|y refs]; [set_solver|]. cbn. destruct (Hf refs y.2) as [H1 H2].
  intros [-> |Hx]%elem_of_cons; auto.
Qed.

Lemma take_elem_mono {A} (n m : nat) (l : list A) x : (n ≤ m)%nat → x ∈ take n l → x ∈ take m l.
Proof.
  intros Hnm. replace (take n l) with (take n (take m l)) by (rewrite take_take; f_equal; lia).
  intros Hx. exact (sublist_elem _ _ _ (sublist_take _ _) Hx).
Qed.

Section reconcile.
Context `{Crates}.

(** The rows at or above a cursor are those above it, after at most one. *)
Lemma rows_from c db :
  log_ok db →
  rows_after (c - 1) db = rows_after c db
  ∨ ∃ x, x ∈ events db ∧ LogRow.seq x = c ∧ rows_after (c - 1) db = x :: rows_after c db.
Proof using Type.
  intros Hlog. destruct (decide (c ∈ LogRow.seq <$> rows_after (c - 1) db)) as [Hin|Hout].
  - right. apply list_elem_of_fmap in Hin as (x & Hx & (l & k & E)%list_elem_of_split).
    exists x. pose proof (rows_after_split _ _ _ _ _ Hlog E) as Ek. rewrite <-Hx in Ek.
    assert (x ∈ rows_after (c - 1) db) as [_ Hxe]%elem_of_filterb by (rewrite E; set_solver).
    split_and!; [done..|]. rewrite E, Ek. destruct l as [|y l]; [done|exfalso].
    assert (y ∈ rows_after (c - 1) db) as [Hy%Z.ltb_lt _]%elem_of_filterb by (rewrite E; left).
    pose proof (rows_after_sorted (c - 1) db Hlog) as Hs. rewrite E in Hs. cbn in Hs.
    apply StronglySorted_inv in Hs as [_ Hlt]. rewrite Forall_forall in Hlt.
    specialize (Hlt (LogRow.seq x)). rewrite fmap_app in Hlt. specialize (Hlt ltac:(set_solver)).
    lia.
  - left. unfold rows_after in *. revert Hout. generalize (events db). intros l.
    induction l as [|r l IH]; cbn; [done|].
    destruct (c - 1 <? LogRow.seq r) eqn:E1, (c <? LogRow.seq r) eqn:E2;
      rewrite ?Z.ltb_lt, ?Z.ltb_ge in *; cbn; intros Hout; try lia.
    + f_equal. apply IH. by intros ?%(list_elem_of_further _ (LogRow.seq r)).
    + assert (LogRow.seq r = c) as Er by lia. rewrite Er in Hout. destruct Hout. left.
    + by apply IH.
Qed.

(** The references of the rows at or above a cursor, and whether some were
    left out. *)
Lemma refs_since_ok c n db :
  log_ok db → 1 ≤ n < i64_max →
  get_event_refs_since c n db
  = (db, Ok ((λ r, (LogRow.event_id r, LogRow.seq r)) <$> take (Z.to_nat n) (rows_after (c - 1) db),
             n <? Z.of_nat (length (rows_after (c - 1) db)))).
Proof using Type.
  intros Hlog Hn. unfold get_event_refs_since, query.
  assert (List.filter (λ r, c <=? LogRow.seq r) (events db) = rows_after (c - 1) db) as Ef.
  { unfold rows_after. apply List.filter_ext. intros r.
    apply eq_true_iff_eq. rewrite Z.leb_le, Z.ltb_lt. lia. }
  rewrite Ef. clear Ef.
  rewrite sort_by_id by (by apply sorted_by_seq, rows_after_sorted).
  rewrite (Z.max_l n 1), (Z.min_l (n + 1)) by lia.
  set (F := rows_after (c - 1) db). rewrite length_fmap, length_take.
  do 2 f_equal.
  destruct (n <? Z.of_nat (min (Z.to_nat (n + 1)) (length F))) eqn:E1,
    (n <? Z.of_nat (length F)) eqn:E2; rewrite ?Z.ltb_lt, ?Z.ltb_ge in *; try lia; f_equal.
  - rewrite <-fmap_take, take_take. do 2 f_equal. lia.
  - rewrite !take_ge by lia. done.
Qed.

Definition reconcile_page (since : Z) (db : Db) : list LogRow :=
  take (Z.to_nat MAX_RECONCILE_EVENTS) (rows_after since db).

Definition reconcile_refs (since : Z) (db : Db) : list EventRef :=
  (λ r, (LogRow.event_id r, LogRow.seq r)) <$>
    take (Z.to_nat MAX_RECONCILE_REFS) (rows_after (since - 1) db).

Lemma page_in_refs since db r :
  log_ok db → r ∈ reconcile_page since db → LogRow.event_id r ∈ fst <$> reconcile_refs since db.
Proof using Type.
  intros Hlog Hr. unfold reconcile_refs. rewrite <-list_fmap_compose. cbn [compose].
  apply (list_elem_of_fmap_2 LogRow.event_id). unfold reconcile_page in Hr.
  assert (Z.to_nat MAX_RECONCILE_EVENTS < Z.to_nat MAX_RECONCILE_REFS)%nat as Hlt
    by (apply Z2Nat.inj_lt; done).
  destruct (rows_from since db Hlog) as [->|(x & _ & _ & ->)].
  - by eapply take_elem_mono; [|exact Hr]; lia.
  - destruct (Z.to_nat MAX_RECONCILE_REFS) as [|m]; [lia|]. cbn [take]. right.
    by eapply take_elem_mono; [|exact Hr]; lia.
Qed.

(** The answer of [reconcile], when the rows of the page parse. *)
Lemma reconcile_eq req db :
  log_ok db →
  let since := ReconcileRequest.since_seq req in
  let have := ReconcileRequest.have req in
  let refs := reconcile_refs since db in
  reconcile req db =
  (db, match collect_results event_of_row (reconcile_page since db) with
       | Err e => Err e
       | Ok evs => Ok (ReconcileResponse.mk
           (List.filter (λ e, bool_decide (Event.event_id e ∈ fst <$> refs)
              && negb (bool_decide (Event.event_id e ∈ fst <$> have))) evs)
           (List.filter (λ r, negb (bool_decide (r.1 ∈ fst <$> refs))) have)
           ((MAX_RECONCILE_REFS <? Z.of_nat (length (rows_after (since - 1) db)))
            || (MAX_RECONCILE_EVENTS <=? Z.of_nat (length evs)))
           (max_ref_seq since refs))
       end).
Proof using Type.
  intros Hlog. cbn zeta. unfold reconcile, mbind, db_bind.
  rewrite refs_since_ok by done. unfold get_events_since.
  rewrite (Z.max_l MAX_RECONCILE_EVENTS 1) by done. rewrite rows_since_ok by done.
  fold (rows_after (ReconcileRequest.since_seq req) db).
  fold (reconcile_page (ReconcileRequest.since_seq req) db).
  fold (reconcile_refs (ReconcileRequest.since_seq req) db).
  by destruct (collect_results _ _).
Qed.

(** The events sent are the events of the page that the node does not have. *)
Lemma elem_of_sent req db db' resp e :
  log_ok db → reconcile req db = (db', Ok resp) →
  e ∈ ReconcileResponse.send_to_node resp ↔
  (∃ r, r ∈ reconcile_page (ReconcileRequest.since_seq req) db ∧ event_of_row r = Ok e)
  ∧ Event.event_id e ∉ fst <$> ReconcileRequest.have req.
Proof using Type.
  intros Hlog. rewrite reconcile_eq by done. cbn zeta.
  destruct (collect_results _ _) as [evs|] eqn:Ec; [|done].
  apply collect_results_Forall2 in Ec. intros [= _ <-]. cbn [ReconcileResponse.send_to_node].
  rewrite elem_of_filterb, andb_true_iff, negb_true_iff, bool_decide_eq_true, bool_decide_eq_false.
  split.
  - intros [[_ ?] [i Hi]%list_elem_of_lookup]. split; [|done].
    destruct (Forall2_lookup_r _ _ _ _ _ Ec Hi) as (r & Hr & He). exists r.
    split; [by eapply list_elem_of_lookup_2|done].
  - intros [(r & Hr & He) Hn]. split; [split; [|done]|].
    + destruct (event_of_row_fields _ _ He) as (-> & _). by apply page_in_refs.
    + apply list_elem_of_lookup in Hr as [i Hi].
      destruct (Forall2_lookup_l _ _ _ _ _ Ec Hi) as (e' & He' & Hre).
      rewrite He in Hre. injection Hre as <-. by eapply list_elem_of_lookup_2.
Qed.

(** The page ends before a row that has as many rows before it as the page
    takes. *)
Lemma page_before l r k since db x :
  log_ok db → rows_after since db = l ++ r :: k →
  MAX_RECONCILE_EVENTS ≤ Z.of_nat (length l) →
  x ∈ reconcile_page since db → LogRow.event_id x ≠ LogRow.event_id r.
Proof using Type.
  intros Hlog El Hmin Hx Hid. unfold reconcile_page in Hx. rewrite El in Hx.
  rewrite take_app_le in Hx by lia. apply (sublist_elem _ _ _ (sublist_take _ _)) in Hx.
  assert (∀ y, y ∈ rows_after since db → y ∈ events db) as Hsub
    by (intros y [_ Hy]%elem_of_filterb; exact Hy).
  assert (x = r) as ->.
  { eapply (NoDup_fmap_inj LogRow.event_id); [apply Hlog| | |done]; apply Hsub; rewrite El;
      set_solver. }
  pose proof (rows_after_sorted since db Hlog) as Hs. rewrite El, fmap_app, fmap_cons in Hs.
  apply StronglySorted_app in Hs as (Hlt & _ & _).
  specialize (Hlt (LogRow.seq r) (LogRow.seq r) (list_elem_of_fmap_2 _ _ _ Hx) ltac:(left)). lia.
Qed.
End reconcile.

(** A reconciliation is the set difference. When the answer is complete,
    the events sent are those above the cursor of the request that the node
    does not name, and the references that are unknown to the primary are
    those the node names and the log does not hold from the cursor on. The
    next cursor is at or above each row. *)
Theorem reconcile_complete `{Crates} req db db' resp :
  log_ok db → reconcile req db = (db', Ok resp) → ReconcileResponse.has_more resp = false →
  let since := ReconcileRequest.since_seq req in
  let have := ReconcileRequest.have req in
  db' = db
  ∧ (∀ e, e ∈ ReconcileResponse.send_to_node resp ↔
       (∃ r, r ∈ events db ∧ since < LogRow.seq r ∧ event_of_row r = Ok e)
       ∧ Event.event_id e ∉ fst <$> have)
  ∧ (∀ x, x ∈ ReconcileResponse.unknown_to_us resp ↔
       x ∈ have ∧ ∀ r, r ∈ events db → since ≤ LogRow.seq r → LogRow.event_id r ≠ x.1)
  ∧ (∀ r, r ∈ events db → since ≤ LogRow.seq r →
       LogRow.seq r ≤ ReconcileResponse.next_seq resp).
Proof.
  intros Hlog Hr Hmore since have.
  assert (∀ e, e ∈ ReconcileResponse.send_to_node resp ↔ _) as Hsent
    by (intros e; exact (elem_of_sent req db db' resp e Hlog Hr)).
  rewrite reconcile_eq in Hr by done. cbn zeta in Hr. fold since have in Hr, Hsent.
  destruct (collect_results _ _) as [evs|] eqn:Ec; [|done]. injection Hr as <- <-.
  cbn [ReconcileResponse.has_more ReconcileResponse.unknown_to_us ReconcileResponse.next_seq]
    in Hmore |- *.
  apply orb_false_iff in Hmore as [Hrefs%Z.ltb_ge Hpage%Z.leb_gt].
  apply collect_results_Forall2, Forall2_length in Ec. rewrite <-Ec in Hpage.
  unfold reconcile_page in Hpage. rewrite length_take in Hpage.
  assert (reconcile_page since db = rows_after since db) as Epage
    by (apply take_ge; lia).
  assert (∀ r, r ∈ events db → since ≤ LogRow.seq r →
    (LogRow.event_id r, LogRow.seq r) ∈ reconcile_refs since db) as Hin.
  { intros r Hr Hs. unfold reconcile_refs. rewrite take_ge by lia.
    apply (list_elem_of_fmap_2 (λ r, (LogRow.event_id r, LogRow.seq r))), elem_of_filterb.
    split; [apply Z.ltb_lt; lia|done]. }
  split_and!; [done| | |].
  - intros e. rewrite Hsent, Epage. unfold rows_after.
    split; intros [(r & Hr & He) ?]; (split; [|done]); exists r.
    + apply elem_of_filterb in Hr as [Hs%Z.ltb_lt Hre]. exact (conj Hre (conj Hs He)).
    + destruct He as [Hs He]. rewrite elem_of_filterb, Z.ltb_lt. exact (conj (conj Hs Hr) He).
  - intros x. rewrite elem_of_filterb, negb_true_iff, bool_decide_eq_false.
    split; [intros [H1 H2]; split; [done|]|intros [H2 H1]; split; [|done]].
    + intros r Hre Hs Hid. apply H1. rewrite <-Hid.
      exact (list_elem_of_fmap_2 fst _ _ (Hin r Hre Hs)).
    + intros ((id & q) & Hid & Hx)%list_elem_of_fmap. cbn in Hid.
      unfold reconcile_refs in Hx. apply list_elem_of_fmap in Hx as (r & [= -> ->] & Hx).
      apply (sublist_elem _ _ _ (sublist_take _ _)) in Hx.
      apply elem_of_filterb in Hx as [Hx%Z.ltb_lt Hre]. apply (H1 r Hre); [lia|done].
  - intros r Hre Hs. exact (max_ref_seq_le _ _ _ (Hin r Hre Hs)).
Qed.

(** the reconciliation loses the events between its two limits. The next
    cursor is the largest of up to 50,000 references, and an answer holds at
    most 10,000 events. A row with 10,000 others before it after the cursor is
    not sent, the answer says that there is more, the next cursor is at or
    above the row, and no request from that cursor on is sent it either. *)
Theorem reconcile_hides_events `{Crates} req db l r k :
  log_ok db → log_readable db →
  rows_after (ReconcileRequest.since_seq req) db = l ++ r :: k →
  MAX_RECONCILE_EVENTS ≤ Z.of_nat (length l) →
  Z.of_nat (length l) + 2 ≤ MAX_RECONCILE_REFS →
  ∃ resp, reconcile req db = (db, Ok resp)
    ∧ ReconcileResponse.has_more resp = true
    ∧ LogRow.seq r ≤ ReconcileResponse.next_seq resp
    ∧ (∀ e, e ∈ ReconcileResponse.send_to_node resp → Event.event_id e ≠ LogRow.event_id r)
    ∧ ∀ req' db' resp', ReconcileRequest.since_seq req' = ReconcileResponse.next_seq resp →
        reconcile req' db = (db', Ok resp') →
        ∀ e, e ∈ ReconcileResponse.send_to_node resp' → Event.event_id e ≠ LogRow.event_id r.
Proof.
  intros Hlog Hread El Hmin Hmax.
  destruct (collect_readable (reconcile_page (ReconcileRequest.since_seq req) db))
    as (evs & Hc & Hi & _).
  { intros x Hx. apply (sublist_elem _ _ _ (sublist_take _ _)) in Hx.
    apply elem_of_filterb in Hx as [_ Hx]. by apply Hread. }
  eexists. split; [rewrite reconcile_eq by done; cbn zeta; by rewrite Hc|].
  match goal with |- ReconcileResponse.has_more ?x = _ ∧ _ => set (resp := x) end.
  assert (reconcile req db = (db, Ok resp)) as Hr
    by (rewrite reconcile_eq by done; cbn zeta; by rewrite Hc).
  assert (LogRow.seq r ≤ ReconcileResponse.next_seq resp) as Hle.
  { apply (max_ref_seq_le _ _ (LogRow.event_id r, LogRow.seq r)).
    apply (list_elem_of_fmap_2 (λ r, (LogRow.event_id r, LogRow.seq r))).
    apply (take_elem_mono (length l + 2)); [lia|].
    destruct (rows_from (ReconcileRequest.since_seq req) db Hlog) as [->|(x & _ & _ & ->)]; rewrite El.
    - rewrite take_app_ge by lia. replace (length l + 2 - length l)%nat with 2%nat by lia.
      cbn. set_solver.
    - replace (length l + 2)%nat with (S (length l + 1)) by lia. cbn [take].
      rewrite take_app_ge by lia. replace (length l + 1 - length l)%nat with 1%nat by lia.
      cbn. set_solver. }
  split_and!; [| done | |].
  - cbn. apply orb_true_iff. right. apply Z.leb_le. rewrite (length_ids _ _ Hi).
    unfold reconcile_page. rewrite length_take, El, length_app. cbn [length]. lia.
  - intros e (( x & Hx & He) & _)%(elem_of_sent req db db resp e Hlog Hr).
    destruct (event_of_row_fields _ _ He) as (-> & _). by apply (page_before l r k _ _ _ Hlog El Hmin).
  - intros req' db' resp' Hs Hr' e ((x & Hx & He) & _)%(elem_of_sent req' db db' resp' e Hlog Hr').
    destruct (event_of_row_fields _ _ He) as (-> & _).
    apply (sublist_elem _ _ _ (sublist_take _ _)) in Hx.
    apply elem_of_filterb in Hx as [Hx%Z.ltb_lt Hxe]. intros Hid.
    assert (r ∈ rows_after (ReconcileRequest.since_seq req) db) as [_ Hre]%elem_of_filterb
      by (rewrite El; set_solver).
    assert (x = r) as -> by (exact (NoDup_fmap_inj LogRow.event_id _ _ _ (proj2 (proj2 Hlog)) Hxe Hre Hid)).
    lia.
Qed.

(** ** Catch-up *)

(** C11: a community node catches up. When the sync token is that of the
    primary, the cursor of the loop is not below that of the database, and at
    most 25,000 rows are above it, one drain of at most 100 pages ends with a
    log that holds what it held and each row of the primary above the cursor,
    and nothing else; whatever the payloads did, and though an event that
    fails is fetched again. The cursor of the loop does not move back, and
    stays at or above that of the database. *)
Theorem drain_catches_up `{Crates} token provided now P R last_seq :
  check_sync_token provided token = Ok tt →
  log_ok P → log_readable P →
  initial_seq R ≤ last_seq →
  (length (rows_after last_seq P) ≤ 250 * MAX_DRAIN_PAGES)%nat →
  ∃ last' R',
    drain MAX_DRAIN_PAGES now (λ _, primary_answers token provided P) last_seq R = (last', R')
    ∧ (∀ id, id ∈ row_ids (events R') ↔
         id ∈ row_ids (events R) ∨ id ∈ row_ids (rows_after last_seq P))
    ∧ initial_seq R' ≤ last' ∧ last_seq ≤ last'.
Proof.
  intros Htok Hlog Hread Hc Hlen.
  destruct (drain_brings token provided P Htok Hlog Hread MAX_DRAIN_PAGES now last_seq R Hc)
    as (last' & R' & Hd & Hc' & Hle & Hup & Hkeep & Hall).
  exists last', R'. split_and!; [done| |done..]. intros id. split; [apply Hup|].
  intros [?|?]; [by apply Hkeep|]. apply (Hall [] (rows_after last_seq P)); [done| | | |done].
  - by intros x ?%elem_of_nil.
  - cbn [length]. lia.
  - cbn [length]. lia.
Qed.

(** a push hides the events before it. An event that a push applies moves
    the stored cursor to its sequence number, whatever the node still lacks.
    When the node starts again, a drain of any length from the stored cursor
    does not bring a row of the primary at or below that number that the node
    did not have. *)
Theorem push_hides_events `{Crates} token provided primary_pubkey now now' ev R R1 last_push_at
    resp t1 P r fuel :
  check_sync_token provided token = Ok tt →
  log_ok P → log_readable P →
  verify_event_signature ev = true → (∃ p, carries ev p) → 0 < Event.seq ev →
  Event.signed_by ev = primary_pubkey →
  handle_sync_push primary_pubkey now [ev] R last_push_at = (Ok resp, R1, t1) →
  PushResponse.rejected resp = 0 →
  r ∈ events P → LogRow.seq r ≤ Event.seq ev →
  LogRow.event_id r ≠ Event.event_id ev → LogRow.event_id r ∉ row_ids (events R) →
  Event.seq ev ≤ initial_seq R1
  ∧ LogRow.event_id r
    ∉ row_ids (events (drain fuel now' (λ _, primary_answers token provided P)
                         (initial_seq R1) R1).2).
Proof.
  intros Htok Hlog Hread Hv Hp Hpos Hby Hpush Hrej HrP Hle Hne Hout.
  destruct (apply_events_turns now [ev] R ltac:(done) ltac:(by constructor) ltac:(by constructor))
    as (d & sum & ap & df & q & Ha & Hi & Hn & Hq & _ & _ & _ & Hall).
  unfold handle_sync_push in Hpush. cbn [length Nat.ltb MAX_PUSH_EVENTS] in Hpush.
  rewrite (filter_all _ [ev]) in Hpush
    by (intros x ->%list_elem_of_singleton; by apply String.eqb_eq).
  rewrite Ha in Hpush. injection Hpush as <- -> _. cbn in Hrej.
  specialize (Hall ltac:(lia) ev ltac:(left)). rewrite initial_seq_cursor in Hn.
  rewrite (proj2 (Z.ltb_lt 0 q)) in Hn by lia.
  assert (Event.seq ev ≤ initial_seq R1) as Hcur by lia. split; [done|].
  destruct (drain_brings token provided P Htok Hlog Hread fuel now' (initial_seq R1) R1 ltac:(lia))
    as (c' & R' & -> & _ & _ & Hup & _). cbn [snd].
  intros [[?|Hid]%Hi|Hid]%Hup; [done| |].
  - by apply list_elem_of_singleton in Hid.
  - apply list_elem_of_fmap in Hid as (x & Hid & [Hx%Z.ltb_lt Hxe]%elem_of_filterb).
    assert (r = x) as -> by exact (NoDup_fmap_inj LogRow.event_id _ _ _ (proj2 (proj2 Hlog)) HrP Hxe Hid).
    lia.
Qed.

(** ** Registration *)

(** The rows of the peers are under their public keys. *)
Definition peers_keyed (db : Db) : Prop :=
  ∀ k p, peer_nodes db !! k = Some p → PeerNode.node_pubkey p = k.

Lemma push_cache_lookup db k p :
  peers_keyed db → peer_nodes db !! k = Some p →
  PeerNode.consecutive_failures p < MAX_PEER_FAILURES →
  ∃ cache, push_subscribers_at_start db = (db, Ok cache)
    ∧ cache !! k = Some (PeerNode.node_url p).
Proof.
  intros Hkey Hp Hf. eexists. split; [reflexivity|]. apply elem_of_list_to_map_1.
  - rewrite <-list_fmap_compose. eapply sublist_NoDup; [apply sublist_fmap, filter_sublist|].
    rewrite <-list_fmap_compose.
    replace (_ <$> map_to_list (peer_nodes db)) with (fst <$> map_to_list (peer_nodes db));
      [apply NoDup_fst_map_to_list|].
    apply list_fmap_ext. intros i [k' p'] Hi. cbn. symmetry. apply Hkey.
    apply elem_of_map_to_list. by eapply list_elem_of_lookup_2.
  - apply list_elem_of_fmap. exists p. rewrite (Hkey k p Hp). split; [done|].
    apply elem_of_filterb. split; [by apply Z.ltb_lt|].
    apply (list_elem_of_fmap_2 snd _ (k, p)). by apply elem_of_map_to_list.
Qed.

(** The two writes of a registration. *)
Definition register_peer (node_pubkey node_url : string) (now : Z) (db : Db) : Db :=
  (reset_peer_failures node_pubkey (upsert_peer_node node_pubkey node_url now db).1).1.

Lemma register_peer_rows k url now db :
  peers_keyed db →
  (∃ p, peer_nodes (register_peer k url now db) !! k = Some p
     ∧ PeerNode.node_url p = url ∧ PeerNode.consecutive_failures p = 0)
  ∧ (∀ k', k' ≠ k → peer_nodes (register_peer k url now db) !! k' = peer_nodes db !! k')
  ∧ peers_keyed (register_peer k url now db).
Proof.
  intros Hkey. unfold register_peer, reset_peer_failures, upsert_peer_node, update_peer, execute.
  cbn [fst peer_nodes set_peer_nodes]. split_and!.
  - rewrite lookup_alter_eq, lookup_insert_eq. cbn. eexists. split; [reflexivity|].
    by destruct (peer_nodes db !! k).
  - intros k' Hk. rewrite lookup_alter_ne by congruence. by rewrite lookup_insert_ne by congruence.
  - intros k' p. cbn [peer_nodes set_peer_nodes]. destruct (decide (k' = k)) as [-> |Hne].
    + rewrite lookup_alter_eq, lookup_insert_eq. cbn. intros [= <-]. cbn.
      destruct (peer_nodes db !! k) as [p0|] eqn:E; cbn; [by apply Hkey|done].
    + rewrite lookup_alter_ne, lookup_insert_ne by congruence. apply Hkey.
Qed.

(** a community node can register. The request that a node signs is
    accepted by a primary with the same sync token and a clock within 600
    seconds, when the address and ownership checks pass; the push cache then
    has the push URL of the node, its row has that URL and no failures, the
    other peers are as they were, and a primary that starts again reads the
    URL back. *)
Theorem registration_accepted `{Crates} register_json check_target token provided signer
    node_address signed_at now subscribers db :
  let req := registration_request register_json signer node_address signed_at in
  let node_pubkey := public_key signer in
  let node_url := RegisterRequest.node_url req in
  check_sync_token provided token = Ok tt →
  (∀ d, ed25519_verify (public_key signer) d (ed25519_sign signer d) = true) →
  check_target node_url node_pubkey = Ok tt →
  - 600 ≤ now - signed_at ≤ 600 →
  peers_keyed db →
  ∃ db', handle_sync_register register_json check_target token provided now req subscribers db
      = (db', Ok (SyncReply.Answer (<[node_pubkey := node_url]> subscribers)))
    ∧ (∃ p, peer_nodes db' !! node_pubkey = Some p ∧ PeerNode.node_url p = node_url
         ∧ PeerNode.consecutive_failures p = 0)
    ∧ (∀ k, k ≠ node_pubkey → peer_nodes db' !! k = peer_nodes db !! k)
    ∧ ∃ cache, push_subscribers_at_start db' = (db', Ok cache)
        ∧ cache !! node_pubkey = Some node_url.
Proof.
  intros req node_pubkey node_url Htok Hsig Htarget Hskew Hkey.
  unfold handle_sync_register, with_sync_token. rewrite Htok. cbv zeta.
  change (RegisterRequest.signed_at req) with (Some signed_at).
  change (RegisterRequest.signature req) with
    (Some (ed25519_sign signer (sha256 (register_json node_pubkey node_url signed_at)))).
  change (RegisterRequest.node_pubkey req) with node_pubkey. fold node_url.
  cbv beta iota. rewrite i64_sub_exact by (unfold in_i64, i64_min, i64_max; lia).
  unfold i64_abs. rewrite wrap64_id by (unfold in_i64, i64_min, i64_max; lia).
  rewrite (proj2 (Z.ltb_ge SYNC_REGISTER_MAX_SKEW_SECS _))
    by (unfold SYNC_REGISTER_MAX_SKEW_SECS; lia).
  rewrite Hsig, Htarget. cbn [negb].
  exists (register_peer node_pubkey node_url now db). split; [reflexivity|].
  destruct (register_peer_rows node_pubkey node_url now db Hkey) as ((p & Hp & Hu & Hf) & Ho & Hk).
  split; [by exists p; split_and!|]. split; [done|].
  destruct (push_cache_lookup _ _ _ Hk Hp) as (cache & Hc & Hl); [unfold MAX_PEER_FAILURES; lia|].
  exists cache. split; [exact Hc|]. by rewrite Hl, Hu.
Qed.

(** ** Failed pushes *)

(** A peer that rejects an event of a push in a 2xx answer is counted twice:
    by the check of the answer and by the end of the push. Five such pushes in
    a row take it out of the cache, which has a threshold of ten failures. *)
Theorem rejected_push_counts_twice now pubkey attempt p n db subscribers :
  peer_nodes db !! pubkey = Some p → attempt 0%nat = PushAttempt.Success (Some n) → 0 < n →
  let '(db', subscribers') := push_to_peer now true pubkey attempt (db, subscribers) in
  peer_nodes db' !! pubkey = Some (with_failures (PeerNode.consecutive_failures p + 2) p)
  ∧ (8 ≤ PeerNode.consecutive_failures p → subscribers' !! pubkey = None).
Proof.
  intros Hp Ha Hn. unfold push_to_peer. cbn [negb push_attempts PUSH_MAX_ATTEMPTS]. rewrite Ha.
  unfold check_push_response_rejections. cbn [is_some_and].
  rewrite (proj2 (Z.ltb_lt 0 n) Hn). unfold handle_push_failure at 2.
  unfold increment_peer_failures, update_peer, execute. cbn [fst peer_nodes set_peer_nodes].
  unfold handle_push_failure, increment_peer_failures, update_peer, execute.
  cbn [fst peer_nodes set_peer_nodes negb].
  rewrite !lookup_alter_eq, Hp. cbn [fmap option_fmap option_map with_failures
    PeerNode.consecutive_failures PeerNode.node_pubkey PeerNode.node_url
    PeerNode.discovered_at PeerNode.last_push_at].
  rewrite <-Z.add_assoc. split; [done|]. intros H8. unfold PUSH_EVICTION_THRESHOLD, MAX_PEER_FAILURES.
  rewrite (proj2 (Z.leb_le 10 (PeerNode.consecutive_failures p + (1 + 1)))) by lia.
  apply lookup_delete_eq.
Qed.

(** ** Examples *)

#[local] Existing Instance sample_crates.

(** A log of as many rows as one wants. *)
Definition bulk_rows (n : nat) : list EventRow :=
  (λ i : nat, EventRow.mk (pretty i) EventType.FeedUpserted (Event.payload_json sample_event)
     "feed-1" 100 []) <$> seq 0 n.

Definition bulk_db (n : nat) : Db := set_events (new_rows "key" 1 (bulk_rows n)) empty_db.

Lemma new_rows_increase n rows : StronglySorted Z.lt (LogRow.seq <$> new_rows "key" n rows).
Proof.
  revert n. induction rows as [|er rows IH]; intros n; [constructor|].
  rewrite new_rows_cons, fmap_cons. constructor; [done|]. apply Forall_forall.
  intros q (r & -> & Hr%new_rows_seq)%list_elem_of_fmap. cbn. lia.
Qed.

Lemma bulk_log_ok n : log_ok (bulk_db n).
Proof.
  split_and!; cbn [events set_events bulk_db].
  - apply new_rows_increase.
  - intros r Hr%new_rows_seq. lia.
  - rewrite new_rows_ids. unfold bulk_rows. rewrite <-list_fmap_compose.
    apply (NoDup_fmap_2 (pretty : nat → string)), NoDup_ListNoDup, seq_NoDup.
Qed.

Lemma sample_event_parses :
  is_some (parse_event EventType.FeedUpserted (Event.payload_json sample_event)) = true
  ∧ Event.payload_json sample_event ≠ ""%string.
Proof. split; [vm_compute; reflexivity|]. vm_compute. discriminate. Qed.

Lemma bulk_readable n : log_readable (bulk_db n).
Proof.
  intros r Hr. cbn [events set_events bulk_db] in Hr. pose proof Hr as Hr'.
  destruct sample_event_parses as [Hp Hj].
  apply new_rows_elem in Hr' as (i & er & (j & -> & _)%list_elem_of_fmap & ->).
  destruct (event_of_row _) as [ev|] eqn:E.
  - exists ev. split; [done|]. apply (new_row_verifies "key" 1 (bulk_rows n) _ _) with (4 := E); [| |exact Hr].
    + intros d. apply table_verify.
    + intros er (k & -> & _)%list_elem_of_fmap. exact Hj.
  - exfalso. unfold event_of_row, signed_row in E. cbn [LogRow.event_type LogRow.payload_json
      EventRow.event_type EventRow.payload_json] in E.
    destruct (parse_event _ _); done.
Qed.

Lemma bulk_split n m :
  (m < n)%nat → ∃ l r k, rows_after 0 (bulk_db n) = l ++ r :: k ∧ length l = m
    ∧ r ∈ events (bulk_db n).
Proof.
  intros Hm. assert (rows_after 0 (bulk_db n) = events (bulk_db n)) as ->.
  { apply filter_all. intros r Hr%new_rows_seq. apply Z.ltb_lt. lia. }
  destruct (lookup_lt_is_Some_2 (events (bulk_db n)) m) as [r Hr].
  { cbn [events set_events bulk_db]. rewrite new_rows_length. unfold bulk_rows.
    by rewrite length_fmap, length_seq. }
  exists (take m (events (bulk_db n))), r, (drop (S m) (events (bulk_db n))).
  split_and!; [by rewrite take_drop_middle| |by eapply list_elem_of_lookup_2].
  apply length_take_le. apply lookup_lt_Some in Hr. lia.
Qed.

Definition sample_token : option string := Some "token"%string.

Lemma sample_primary_ok : log_ok sample_primary.
Proof.
  assert (node_ok sample_primary) as (_ & Hok & _); [|exact Hok].
  eapply (node_step_ok id); [apply empty_ok|apply step_ingest].
Qed.

Lemma sample_primary_readable : log_readable sample_primary.
Proof.
  assert (Forall (λ r, match event_of_row r with
    | Ok ev => verify_event_signature ev | Err _ => false end = true) (events sample_primary)) as Hf
    by (apply (Forall_true_bool (λ r, match event_of_row r with
          | Ok ev => verify_event_signature ev | Err _ => false end)); vm_compute; reflexivity).
  intros r Hr. rewrite Forall_forall in Hf. specialize (Hf r Hr).
  destruct (event_of_row r) as [ev|]; [by exists ev|done].
Qed.

Definition sample_reconcile : ReconcileRequest :=
  ReconcileRequest.mk "pubpeer"
    (("stranger"%string, 4) :: ((λ ev, (Event.event_id ev, Event.seq ev)) <$> take 7 sample_events)) 2.

Lemma reconcile_complete_witness :
  ∃ resp, (reconcile sample_reconcile sample_primary).2 = Ok resp
    ∧ (Event.seq <$> ReconcileResponse.send_to_node resp) = [8; 9]
    ∧ (("stranger"%string, 4) ∈ ReconcileResponse.unknown_to_us resp)
    ∧ ∀ r, r ∈ events sample_primary → 2 ≤ LogRow.seq r → LogRow.seq r ≤ 9.
Proof.
  pose (resp := match (reconcile sample_reconcile sample_primary).2 with
                | Ok resp => resp | Err _ => ReconcileResponse.mk [] [] true 0 end).
  assert (reconcile sample_reconcile sample_primary = (sample_primary, Ok resp)) as E
    by (vm_compute; reflexivity).
  destruct (reconcile_complete sample_reconcile sample_primary sample_primary resp)
    as (_ & _ & Hu & Hn); [apply sample_primary_ok|exact E|vm_compute; reflexivity|].
  exists resp. split; [by rewrite E|]. split; [vm_compute; reflexivity|]. split.
  - apply Hu. split; [left|]. intros r Hr _ Hid.
    assert (Forall (λ r, negb (LogRow.event_id r =s "stranger") = true) (events sample_primary))
      as Hf by (apply (Forall_true_bool (λ r, negb (LogRow.event_id r =s "stranger")));
                vm_compute; reflexivity).
    rewrite Forall_forall in Hf. specialize (Hf r Hr). rewrite Hid in Hf. by vm_compute in Hf.
  - intros r Hr Hs. exact (Hn r Hr Hs).
Defined.

Lemma reconcile_hides_events_witness :
  let db := bulk_db (Z.to_nat 10002) in
  ∃ r resp, r ∈ events db
    ∧ reconcile (ReconcileRequest.mk "pubpeer" [] 0) db = (db, Ok resp)
    ∧ LogRow.seq r ≤ ReconcileResponse.next_seq resp
    ∧ ∀ e, e ∈ ReconcileResponse.send_to_node resp → Event.event_id e ≠ LogRow.event_id r.
Proof.
  intros db.
  destruct (bulk_split (Z.to_nat 10002) (Z.to_nat 10000)) as (l & r & k & El & Hl & Hr); [lia|].
  destruct (reconcile_hides_events (ReconcileRequest.mk "pubpeer" [] 0) db l r k)
    as (resp & E & _ & Hle & Hs & _).
  - apply bulk_log_ok.
  - apply bulk_readable.
  - exact El.
  - rewrite Hl, Z2Nat.id; done.
  - rewrite Hl, Z2Nat.id; done.
  - exists r, resp. split; [exact Hr|]. split; [exact E|]. split; [exact Hle|exact Hs].
Defined.

Lemma drain_catches_up_witness :
  ∃ last' R',
    drain MAX_DRAIN_PAGES 300 (λ _, primary_answers sample_token "token" sample_primary) 0 empty_db
      = (last', R')
    ∧ (∀ id, id ∈ row_ids (events R') ↔ id ∈ row_ids (rows_after 0 sample_primary)).
Proof.
  destruct (drain_catches_up sample_token "token" 300 sample_primary empty_db 0)
    as (last' & R' & Hd & Hi & _).
  - vm_compute. reflexivity.
  - apply sample_primary_ok.
  - apply sample_primary_readable.
  - vm_compute. discriminate.
  - apply (Nat.leb_le _ _). vm_compute. reflexivity.
  - exists last', R'. split; [exact Hd|]. intros id. rewrite Hi. split; [|by right].
    intros [Hn|Hp]; [destruct (proj1 (elem_of_nil (A := string) id) Hn)|exact Hp].
Defined.

(** The third event is pushed to a node that holds the first only: it never
    gets the second. *)
Definition lagging_db : Db := (apply_single_event 300 sample_event empty_db).1.

Definition pushed_db : Db :=
  (handle_sync_push "pubkey" 300 [nth 2 sample_events no_event] lagging_db 0).1.2.

Lemma push_hides_events_witness :
  row_ids (events pushed_db) = ["id"; "id11"]%string
  ∧ "id1"%string ∈ row_ids (events sample_primary)
  ∧ "id1"%string ∉ row_ids (events (drain MAX_DRAIN_PAGES 400
      (λ _, primary_answers sample_token "token" sample_primary)
      (initial_seq pushed_db) pushed_db).2).
Proof.
  split; [vm_compute; reflexivity|].
  destruct (lookup_lt_is_Some_2 (events sample_primary) 1) as [r Hr]; [vm_compute; lia|].
  assert (LogRow.event_id r = "id1"%string ∧ LogRow.seq r = 2) as [Hid Hseq]
    by (vm_compute in Hr; by injection Hr as <-).
  apply list_elem_of_lookup_2 in Hr.
  split; [rewrite <-Hid; by apply (list_elem_of_fmap_2 LogRow.event_id)|].
  assert (handle_sync_push "pubkey" 300 [nth 2 sample_events no_event] lagging_db 0
    = (Ok (PushResponse.mk 1 0 0), pushed_db, 300)) as Hpush by (vm_compute; reflexivity).
  destruct (push_hides_events sample_token "token" "pubkey" 300 400 (nth 2 sample_events no_event)
    lagging_db pushed_db 0 (PushResponse.mk 1 0 0) 300 sample_primary r MAX_DRAIN_PAGES)
    as [_ Hn].
  - reflexivity.
  - apply sample_primary_ok.
  - apply sample_primary_readable.
  - vm_compute. reflexivity.
  - eexists. vm_compute. reflexivity.
  - vm_compute. reflexivity.
  - vm_compute. reflexivity.
  - exact Hpush.
  - reflexivity.
  - exact Hr.
  - rewrite Hseq. vm_compute. discriminate.
  - rewrite Hid. vm_compute. discriminate.
  - rewrite Hid. apply (bool_decide_unpack _). vm_compute. exact I.
  - rewrite <-Hid. exact Hn.
Defined.

Lemma registration_accepted_witness :
  let req := registration_request (λ k u t, (k ++ u ++ pretty t)%string) "peer" "https://n.example/" 100 in
  RegisterRequest.node_url req = "https://n.example/sync/push"%string
  ∧ ∃ db', handle_sync_register (λ k u t, (k ++ u ++ pretty t)%string) (λ _ _, Ok tt)
      sample_token "token" 130 req ∅ empty_db
    = (db', Ok (SyncReply.Answer {["pubpeer"%string := "https://n.example/sync/push"%string]})).
Proof.
  intros req. split; [vm_compute; reflexivity|].
  destruct (registration_accepted (λ k u t, (k ++ u ++ pretty t)%string) (λ _ _, Ok tt)
    sample_token "token" "peer" "https://n.example/" 100 130 ∅ empty_db) as (db' & Hd & _).
  - vm_compute. reflexivity.
  - intros d. apply table_verify.
  - reflexivity.
  - lia.
  - intros k p Hk. vm_compute in Hk. discriminate Hk.
  - exists db'. exact Hd.
Defined.
