(* ===== verification/GuardProps.v ===== *)
(** Properties of the guard of outgoing requests and of the rate limit. *)

From S2P Require Import Prelude.
From S2P Require Import Model.
From S2P Require Import Event.
From S2P Require Import Crates.
From S2P Require Import Store.
From S2P Require Import Sync.
From S2P Require Import Paging.
From S2P Require Import FetchGuard.
From S2P Require Import Community.
From S2P Require Import Register.

(** Properties of the guard of outgoing requests: which addresses are public,
    where a fetch connects, and what a registration has checked. *)

(** ** Bits *)

Lemma above_bits n y i : 0 ≤ y < 2 ^ n → n ≤ i → Z.testbit y i = false.
Proof.
  intros Hy Hi. destruct (decide (y = 0)) as [-> |Hy0]; [apply Z.bits_0|].
  apply Z.bits_above_log2; [lia|]. apply Z.lt_le_trans with n; [|lia].
  apply Z.log2_lt_pow2; lia.
Qed.

Lemma land_mask n m x :
  0 ≤ m ≤ n → 0 ≤ x < 2 ^ n → Z.land x (2 ^ n - 2 ^ m) = x / 2 ^ m * 2 ^ m.
Proof.
  intros Hm Hx. rewrite <-Z.shiftl_mul_pow2, <-Z.shiftr_div_pow2 by lia.
  replace (2 ^ n - 2 ^ m) with (Z.shiftl (Z.ones (n - m)) m).
  2: { rewrite Z.shiftl_mul_pow2, Z.ones_equiv by lia. rewrite <-Z.sub_1_r, Z.mul_sub_distr_r.
       rewrite <-Z.pow_add_r by lia. replace (n - m + m) with n by lia. lia. }
  apply Z.bits_inj'. intros i Hi. rewrite Z.land_spec, !Z.shiftl_spec by lia.
  destruct (Z_lt_le_dec i m) as [Hlt|Hge].
  { rewrite !(Z.testbit_neg_r _ (i - m)) by lia. by rewrite andb_false_r. }
  rewrite Z.shiftr_spec by lia. replace (i - m + m) with i by lia.
  destruct (Z_lt_le_dec i n) as [Hn|Hn].
  - rewrite Z.ones_spec_low by lia. by rewrite andb_true_r.
  - rewrite Z.ones_spec_high by lia. rewrite andb_false_r. symmetry. by apply (above_bits n).
Qed.

Lemma lor_shiftl x y n : 0 ≤ n → 0 ≤ y < 2 ^ n → Z.lor (Z.shiftl x n) y = x * 2 ^ n + y.
Proof.
  intros Hn Hy. rewrite <-Z.shiftl_mul_pow2 by lia. rewrite <-(Z.add_lor_land _ y).
  enough (Z.land (Z.shiftl x n) y = 0) by lia.
  apply Z.bits_inj'. intros i Hi. rewrite Z.land_spec, Z.bits_0, Z.shiftl_spec by lia.
  destruct (Z_lt_le_dec i n) as [Hlt|Hge]; [by rewrite Z.testbit_neg_r by lia|].
  rewrite (above_bits n y i) by lia. apply andb_false_r.
Qed.

Lemma octet_eq v i : 0 ≤ i ≤ 3 → octet v i = v / 2 ^ (8 * (3 - i)) mod 256.
Proof.
  intros Hi. unfold octet. rewrite Z.shiftr_div_pow2 by lia.
  change 255 with (Z.ones 8). by rewrite Z.land_ones.
Qed.

Lemma segment_eq v i : 0 ≤ i ≤ 7 → segment v i = v / 2 ^ (16 * (7 - i)) mod 65536.
Proof.
  intros Hi. unfold segment. rewrite Z.shiftr_div_pow2 by lia.
  change 65535 with (Z.ones 16). by rewrite Z.land_ones.
Qed.

(** ** Ranges *)

(** The network [block] holds [a], an address of [width] bits. *)
Definition in_block (width a : Z) (block : Z * Z) : bool :=
  let '(network, len) := block in a / 2 ^ (width - len) =? network / 2 ^ (width - len).

Definition ipv4 (a b c d : Z) : Z := a * 2 ^ 24 + b * 2 ^ 16 + c * 2 ^ 8 + d.

(** The ranges that ADR 0054 rejects, in the notation of an RFC. *)
Definition reserved_v4 : list (Z * Z) :=
  [(ipv4 127 0 0 0, 8); (ipv4 10 0 0 0, 8); (ipv4 172 16 0 0, 12); (ipv4 192 168 0 0, 16);
   (ipv4 169 254 0 0, 16); (ipv4 255 255 255 255, 32); (ipv4 0 0 0 0, 32);
   (ipv4 224 0 0 0, 4); (ipv4 192 0 2 0, 24); (ipv4 198 51 100 0, 24);
   (ipv4 203 0 113 0, 24); (ipv4 198 18 0 0, 15); (ipv4 100 64 0 0, 10)].

Lemma split_digit base n x :
  0 < base → 0 ≤ x < base * n → ∃ h d, x = h * base + d ∧ 0 ≤ d < base ∧ 0 ≤ h < n.
Proof.
  intros Hb Hx. exists (x / base), (x mod base).
  pose proof (Z.div_mod x base ltac:(lia)). pose proof (Z.mod_pos_bound x base Hb).
  split_and!; [lia..| |]; [apply Z.div_pos; lia|apply Z.div_lt_upper_bound; lia].
Qed.

Lemma ipv4_bytes v :
  0 ≤ v < 2 ^ 32 →
  ∃ a b c d, v = ipv4 a b c d ∧ 0 ≤ a < 256 ∧ 0 ≤ b < 256 ∧ 0 ≤ c < 256 ∧ 0 ≤ d < 256.
Proof.
  intros Hv. destruct (split_digit 256 (2 ^ 24) v) as (h & d & -> & Hd & Hh); [lia..|].
  destruct (split_digit 256 (2 ^ 16) h) as (g & c & -> & Hc & Hg); [lia..|].
  destruct (split_digit 256 (2 ^ 8) g) as (a & b & -> & Hb & Ha); [lia..|].
  exists a, b, c, d. unfold ipv4. split_and!; lia.
Qed.

Lemma div_digit high low n : 0 ≤ low < n → (high * n + low) / n = high.
Proof. intros Hl. rewrite Z.div_add_l by lia. rewrite Z.div_small by lia. lia. Qed.

Section bytes.
Context (a b c d : Z).
Context (Ha : 0 ≤ a < 256) (Hb : 0 ≤ b < 256) (Hc : 0 ≤ c < 256) (Hd : 0 ≤ d < 256).

Lemma div_24 : ipv4 a b c d / 2 ^ 24 = a.
Proof using Hb Hc Hd.
  replace (ipv4 a b c d) with (a * 2 ^ 24 + (b * 2 ^ 16 + c * 2 ^ 8 + d)) by (unfold ipv4; lia).
  apply div_digit. lia.
Qed.

Lemma div_16 : ipv4 a b c d / 2 ^ 16 = a * 256 + b.
Proof using Hc Hd.
  replace (ipv4 a b c d) with ((a * 256 + b) * 2 ^ 16 + (c * 2 ^ 8 + d)) by (unfold ipv4; lia).
  apply div_digit. lia.
Qed.

Lemma div_8 : ipv4 a b c d / 2 ^ 8 = (a * 256 + b) * 256 + c.
Proof using Hd.
  replace (ipv4 a b c d) with (((a * 256 + b) * 256 + c) * 2 ^ 8 + d) by (unfold ipv4; lia).
  apply div_digit. lia.
Qed.

(** A prefix that ends inside the first or the second byte. *)
Lemma div_inner n : 0 ≤ n ≤ 8 → ipv4 a b c d / 2 ^ (16 + n) = (a * 256 + b) / 2 ^ n.
Proof using Hc Hd.
  intros Hn. by rewrite Z.pow_add_r, <-Z.div_div, div_16 by lia.
Qed.

Lemma octets_ipv4 :
  octet (ipv4 a b c d) 0 = a ∧ octet (ipv4 a b c d) 1 = b ∧ octet (ipv4 a b c d) 2 = c.
Proof using Ha Hb Hc Hd.
  rewrite !octet_eq by lia. change (8 * (3 - 0)) with 24. change (8 * (3 - 1)) with 16.
  change (8 * (3 - 2)) with 8. rewrite div_24, div_16, div_8.
  rewrite Z.mod_small by lia. rewrite (Z.add_comm _ b), (Z.add_comm _ c), !Z.mod_add by lia.
  by rewrite !Z.mod_small by lia.
Qed.

Lemma masks : Z.land b 0xFE = b / 2 * 2 ∧ Z.land b 0xC0 = b / 64 * 64.
Proof using Hb. split; [apply (land_mask 8 1)|apply (land_mask 8 6)]; lia. Qed.

(** Each range, as the test of the code on the bytes. *)
Lemma blocks_of_bytes :
  in_block 32 (ipv4 a b c d) <$> reserved_v4 =
  [a =? 127; a =? 10; (a =? 172) && (16 <=? b) && (b <=? 31); (a =? 192) && (b =? 168);
   (a =? 169) && (b =? 254); ipv4 a b c d =? 2 ^ 32 - 1; ipv4 a b c d =? 0;
   (224 <=? a) && (a <=? 239); (a =? 192) && (b =? 0) && (c =? 2);
   (a =? 198) && (b =? 51) && (c =? 100); (a =? 203) && (b =? 0) && (c =? 113);
   (a =? 198) && (b / 2 * 2 =? 18); (a =? 100) && (b / 64 * 64 =? 64)].
Proof using Ha Hb Hc Hd.
  unfold reserved_v4. rewrite !fmap_cons, fmap_nil. unfold in_block.
  change (32 - 8) with 24. change (32 - 12) with (16 + 4). change (32 - 16) with 16.
  change (32 - 32) with 0. change (32 - 4) with (24 + 4). change (32 - 24) with 8.
  change (32 - 15) with (16 + 1). change (32 - 10) with (16 + 6).
  rewrite !div_inner by lia. rewrite !(Z.pow_add_r 2 24 4), <-!Z.div_div by lia.
  rewrite !div_24, !div_16, !div_8, Z.pow_0_r, !Z.div_1_r.
  repeat match goal with |- context [ipv4 ?p ?q ?r ?s / ?k] =>
    let n := eval vm_compute in (ipv4 p q r s / k) in change (ipv4 p q r s / k) with n end.
  change (2 ^ 4) with 16. change (2 ^ 1) with 2. change (2 ^ 6) with 64.
  repeat apply (f_equal2 cons); try reflexivity; apply eq_true_iff_eq;
    rewrite ?andb_true_iff, ?Z.eqb_eq, ?Z.leb_le; Z.div_mod_to_equations; lia.
Qed.
End bytes.

Definition public_v4 (v : Z) : Prop := ∀ block, block ∈ reserved_v4 → in_block 32 v block = false.

Lemma is_public_ipv4_ranges v : 0 ≤ v < 2 ^ 32 → is_public_ipv4 v = true ↔ public_v4 v.
Proof.
  intros (a & b & c & d & -> & Ha & Hb & Hc & Hd)%ipv4_bytes.
  destruct (octets_ipv4 a b c d Ha Hb Hc Hd) as (E0 & E1 & E2).
  destruct (masks b Hb) as [M1 M2].
  transitivity (Forall (λ x, x = false) (in_block 32 (ipv4 a b c d) <$> reserved_v4)).
  2: { rewrite Forall_fmap, Forall_forall. done. }
  rewrite blocks_of_bytes by done. rewrite !Forall_cons, Forall_nil.
  unfold is_public_ipv4, is_loopback, is_private, is_link_local, is_broadcast, is_unspecified,
    is_multicast. rewrite E0, E1, E2, M1, M2.
  rewrite negb_true_iff, !orb_false_iff. tauto.
Qed.

(** *** IPv6 *)

(** [fc00::/7], [fe80::/10], [ff00::/8], [2001:db8::/32]. *)
Definition reserved_v6 : list (Z * Z) :=
  [(0xfc00 * 2 ^ 112, 7); (0xfe80 * 2 ^ 112, 10); (0xff00 * 2 ^ 112, 8);
   (0x20010db8 * 2 ^ 96, 32)].

(** The prefixes of 96 bits before an embedded IPv4 address: [::ffff:0:0],
    [::] and [64:ff9b::]. *)
Definition embedding (prefix : Z) : Prop :=
  prefix = 0xffff ∨ prefix = 0 ∨ prefix = 0x64ff9b * 2 ^ 64.

Definition public_address (ip : IpAddr) : Prop :=
  match ip with
  | IpAddr.V4 v => public_v4 v
  | IpAddr.V6 v =>
      v ≠ 0 ∧ v ≠ 1
      ∧ (embedding (v / 2 ^ 32) → public_v4 (v mod 2 ^ 32))
      ∧ (¬ embedding (v / 2 ^ 32) →
           ∀ block, block ∈ reserved_v6 → in_block 128 v block = false)
  end.

Definition valid_address (ip : IpAddr) : Prop :=
  match ip with
  | IpAddr.V4 v => 0 ≤ v < 2 ^ 32
  | IpAddr.V6 v => 0 ≤ v < 2 ^ 128
  end.

(** The low 32 bits. *)
Lemma embedded_ipv4_eq v : 0 ≤ v → embedded_ipv4 v = v mod 2 ^ 32.
Proof.
  intros Hv. unfold embedded_ipv4. rewrite !segment_eq by lia.
  change (16 * (7 - 6)) with 16. change (16 * (7 - 7)) with 0. rewrite Z.pow_0_r, Z.div_1_r.
  change 255 with (Z.ones 8). rewrite !Z.land_ones, !Z.shiftr_div_pow2 by lia.
  pose proof (Z.mod_pos_bound (v / 2 ^ 16) 65536 ltac:(lia)) as Hhi.
  pose proof (Z.mod_pos_bound v 65536 ltac:(lia)) as Hlo.
  assert (v mod 2 ^ 32 = v / 2 ^ 16 mod 65536 * 65536 + v mod 65536) as ->.
  { change (2 ^ 32) with (2 ^ 16 * 65536). rewrite Z.rem_mul_r by lia.
    change (2 ^ 16) with 65536. lia. }
  destruct (split_digit 256 256 (v / 2 ^ 16 mod 65536)) as (h1 & h0 & -> & ? & ?); [lia..|].
  destruct (split_digit 256 256 (v mod 65536)) as (l1 & l0 & -> & ? & ?); [lia..|].
  change (2 ^ 8) with 256. rewrite !div_digit by lia.
  rewrite (Z.add_comm _ h0), (Z.add_comm _ l0), !Z.mod_add, !Z.mod_small by lia.
  rewrite (lor_shiftl l1 l0 8), (lor_shiftl h0 _ 16), (lor_shiftl h1 _ 24) by lia. lia.
Qed.

Lemma div_step v k : 0 ≤ k → v / 2 ^ k = v / 2 ^ (k + 16) * 65536 + v / 2 ^ k mod 65536.
Proof.
  intros Hk. rewrite Z.pow_add_r, <-Z.div_div by lia. change (2 ^ 16) with 65536.
  rewrite Z.mul_comm. apply Z.div_mod. lia.
Qed.

Lemma segments_v6 v :
  0 ≤ v < 2 ^ 128 →
  segment v 0 = v / 2 ^ 112
  ∧ v / 2 ^ 96 = segment v 0 * 65536 + segment v 1
  ∧ v / 2 ^ 32 = ((((segment v 0 * 65536 + segment v 1) * 65536 + segment v 2) * 65536
                  + segment v 3) * 65536 + segment v 4) * 65536 + segment v 5
  ∧ Forall (λ i, 0 ≤ segment v i < 65536) [0; 1; 2; 3; 4; 5].
Proof.
  intros Hv.
  assert (segment v 0 = v / 2 ^ 112) as E0.
  { rewrite segment_eq by lia. change (16 * (7 - 0)) with 112. apply Z.mod_small.
    split; [apply Z.div_pos; lia|]. apply Z.div_lt_upper_bound; lia. }
  assert (∀ i k, 1 ≤ i ≤ 7 → k = 16 * (7 - i) →
    v / 2 ^ k = v / 2 ^ (k + 16) * 65536 + segment v i) as Hs.
  { intros i k Hi ->. rewrite (segment_eq v i) by lia. apply div_step. lia. }
  pose proof (Hs 1 96 ltac:(lia) eq_refl : _ = v / 2 ^ 112 * 65536 + _) as H1.
  pose proof (Hs 2 80 ltac:(lia) eq_refl : _ = v / 2 ^ 96 * 65536 + _) as H2.
  pose proof (Hs 3 64 ltac:(lia) eq_refl : _ = v / 2 ^ 80 * 65536 + _) as H3.
  pose proof (Hs 4 48 ltac:(lia) eq_refl : _ = v / 2 ^ 64 * 65536 + _) as H4.
  pose proof (Hs 5 32 ltac:(lia) eq_refl : _ = v / 2 ^ 48 * 65536 + _) as H5.
  split_and!; [done|by rewrite E0, H1|by rewrite E0, H5, H4, H3, H2, H1|].
  repeat constructor; rewrite segment_eq by lia; apply Z.mod_pos_bound; lia.
Qed.

Lemma blocks_of_segments v :
  0 ≤ v < 2 ^ 128 →
  in_block 128 v <$> reserved_v6 =
  [Z.land (segment v 0) 0xFE00 =? 0xFC00; Z.land (segment v 0) 0xFFC0 =? 0xFE80;
   Z.land (segment v 0) 0xFF00 =? 0xFF00; (segment v 0 =? 0x2001) && (segment v 1 =? 0x0db8)].
Proof.
  intros Hv. destruct (segments_v6 v Hv) as (E0 & E1 & _ & Hb).
  rewrite !Forall_cons in Hb. destruct Hb as (B0 & B1 & _).
  rewrite (land_mask 16 9 _ ltac:(lia) B0 : Z.land _ 0xFE00 = _).
  rewrite (land_mask 16 6 _ ltac:(lia) B0 : Z.land _ 0xFFC0 = _).
  rewrite (land_mask 16 8 _ ltac:(lia) B0 : Z.land _ 0xFF00 = _).
  unfold reserved_v6. rewrite !fmap_cons, fmap_nil. unfold in_block.
  change (128 - 7) with (112 + 9). change (128 - 10) with (112 + 6).
  change (128 - 8) with (112 + 8). change (128 - 32) with 96.
  rewrite !(Z.pow_add_r 2 112), <-!(Z.div_div v) by lia. rewrite <-E0, E1.
  repeat match goal with |- context [?p * 2 ^ 112 / ?k] =>
    let n := eval vm_compute in (p * 2 ^ 112 / k) in change (p * 2 ^ 112 / k) with n end.
  change (0x20010db8 * 2 ^ 96 / 2 ^ 96) with 0x20010db8.
  change (2 ^ 9) with 512. change (2 ^ 6) with 64. change (2 ^ 8) with 256.
  repeat apply (f_equal2 cons); [..|done]; apply eq_true_iff_eq;
    rewrite ?andb_true_iff, ?Z.eqb_eq; clear E0 E1; Z.div_mod_to_equations; lia.
Qed.

Lemma is_public_ipv6_ranges v :
  0 ≤ v < 2 ^ 128 → is_public_ipv6 v = true ↔ public_address (IpAddr.V6 v).
Proof.
  intros Hv. pose proof (segments_v6 v Hv) as (_ & _ & E & Hb).
  rewrite !Forall_cons in Hb. destruct Hb as (B0 & B1 & B2 & B3 & B4 & B5 & _).
  unfold is_public_ipv6, public_address.
  destruct (v =? 0) eqn:E0; [apply Z.eqb_eq in E0; split; [done|tauto]|].
  destruct (v =? 1) eqn:E1; [apply Z.eqb_eq in E1; split; [done|tauto]|].
  apply Z.eqb_neq in E0, E1. cbn [orb].
  match goal with |- (if ?c then _ else _) = true ↔ _ =>
    assert (c = true ↔ embedding (v / 2 ^ 32)) as Hemb; [|destruct c] end.
  { unfold embedding. rewrite E, !orb_true_iff, !andb_true_iff, !Z.eqb_eq. lia. }
  - assert (embedding (v / 2 ^ 32)) as Hem by (by apply Hemb).
    rewrite embedded_ipv4_eq, is_public_ipv4_ranges by (try apply Z.mod_pos_bound; lia). tauto.
  - assert (¬ embedding (v / 2 ^ 32)) as Hem by (intros Hem; by apply Hemb in Hem).
    transitivity (Forall (λ x, x = false) (in_block 128 v <$> reserved_v6)).
    + rewrite blocks_of_segments by done. rewrite !Forall_cons, Forall_nil.
      rewrite negb_true_iff, !orb_false_iff. tauto.
    + rewrite Forall_fmap, Forall_forall. tauto.
Qed.

(** C38: the address test is that of its ranges. [is_public_ip] says yes exactly
    for an IPv4 address outside of the thirteen networks of ADR 0054, and for
    an IPv6 address that is neither [::] nor [::1] and is outside of the four
    IPv6 networks or, when it embeds an IPv4 address, embeds a public one. *)
Theorem is_public_ip_ranges ip :
  valid_address ip → is_public_ip ip = true ↔ public_address ip.
Proof. destruct ip as [v|v]; [apply is_public_ipv4_ranges|apply is_public_ipv6_ranges]. Qed.

(** ** Where a request connects *)

Definition public_addrs (addrs : list SocketAddr) : Prop :=
  addrs ≠ [] ∧ Forall (λ a, is_public_ip a.1 = true) addrs.

Lemma first_private_none addrs :
  first_private addrs = None → Forall (λ a, is_public_ip a.1 = true) addrs.
Proof.
  induction addrs as [|[ip port] addrs IH]; cbn; intros Hf; [constructor|].
  unfold is_private_ip in Hf. destruct (is_public_ip ip) eqn:E; cbn in Hf; [|done].
  constructor; [done|by apply IH].
Qed.

Lemma literal_public ip port : is_private_ip ip = false → public_addrs [(ip, port)].
Proof. intros Hp%negb_false_iff. split; [done|by repeat constructor]. Qed.

Section guard.
Context `{Net}.

(** The addresses of a URL: that of its host when it is one, else what the
    resolver of the moment gives for the name and the port; all of them
    public. *)
Definition resolved_for (dns : Dns) (url : Url) (host : string) (addrs : list SocketAddr) : Prop :=
  is_http (Url.scheme url) = true ∧ Url.host_str url = Some host
  ∧ match Net.parse_ip host with
    | Some ip => addrs = [(ip, port_of url)]
    | None => dns (socket_text host (port_of url)) = Ok addrs
    end
  ∧ public_addrs addrs.

Lemma resolve_public dns url host addrs :
  resolve_and_validate_url dns url = Ok (host, addrs) → resolved_for dns url host addrs.
Proof using Type.
  unfold resolve_and_validate_url, resolved_for.
  destruct (is_http (Url.scheme url)); cbn [negb]; [|done].
  destruct (Url.host_str url) as [h|]; [|done].
  destruct (Net.parse_ip h) as [ip|] eqn:Eip.
  { destruct (is_private_ip ip) eqn:Ep; [done|]. intros [= -> <-]. rewrite Eip.
    split_and!; [done..|by apply literal_public]. }
  destruct (dns _) as [[|a l]|e] eqn:Ed; [done| |done].
  destruct (first_private (a :: l)) eqn:Ef; [done|]. intros [= -> <-]. rewrite Eip.
  split_and!; [done..|]. split; [done|by apply first_private_none].
Qed.

Lemma feed_url_public dns feed_url addrs :
  validate_feed_url dns feed_url = Ok addrs →
  ∃ url host, Net.parse feed_url = Ok url ∧ resolved_for dns url host addrs.
Proof using Type.
  unfold validate_feed_url, resolved_for. destruct (Net.parse feed_url) as [url|]; [|done].
  destruct (is_http (Url.scheme url)) eqn:Eh; cbn [negb]; [|done].
  destruct (Url.host_str url) as [h|] eqn:Es; [|done]. intros Hv. exists url, h. rewrite Eh, Es.
  destruct (Net.parse_ip h) as [ip|].
  { destruct (is_private_ip ip) eqn:Ep; [done|]. injection Hv as <-.
    split_and!; [done..|by apply literal_public]. }
  destruct (dns _) as [[|a l]|e]; [done| |done].
  destruct (first_private (a :: l)) eqn:Ef; [done|]. injection Hv as <-.
  split_and!; [done..|]. split; [done|by apply first_private_none].
Qed.

(** The requests of a fetch from the [hop]-th on, the first of them [current]:
    each later one answers the redirect of the one before it, and is pinned to
    the addresses of its own URL, resolved at that hop. *)
Inductive pinned (dns : nat → Dns) (http : nat → Request → Reply.Reply) :
    nat → Request → list Request → Prop :=
  | pinned_none hop current : pinned dns http hop current []
  | pinned_last hop current : pinned dns http hop current [current]
  | pinned_redirect hop current status location length chunks base url host addrs rest :
      http hop current = Reply.Response status (Some (Ok location)) length chunks →
      300 ≤ status < 400 →
      Net.parse (Request.url current) = Ok base → Net.join base location = Ok url →
      resolved_for (dns hop) url host addrs →
      pinned dns http (S hop) (Request.mk (Url.href url) host addrs) rest →
      pinned dns http hop current (current :: rest).

Lemma pinned_public dns http hop current requests :
  pinned dns http hop current requests → public_addrs (Request.addrs current) →
  Forall (λ r, public_addrs (Request.addrs r)) requests.
Proof using Type.
  induction 1 as [| |hop current status location len chunks base url host addrs rest _ _ _ _ Hr _ IH];
    intros Hc.
  - by apply Forall_nil.
  - by apply Forall_singleton.
  - apply Forall_cons. split; [done|]. apply IH, Hr.
Qed.

Lemma read_chunks_bound max body chunks text :
  Z.of_nat (String.length body) ≤ max → read_chunks max body chunks = Ok text →
  ∃ bytes, Net.from_utf8 bytes = Ok text ∧ Z.of_nat (String.length bytes) ≤ max.
Proof using Type.
  revert body. induction chunks as [|[chunk|e] chunks IH]; intros body Hb; cbn.
  - destruct (Net.from_utf8 body) as [t|] eqn:E; [|done]. intros [= ->]. by exists body.
  - destruct (max <? Z.of_nat (String.length (body ++ chunk))) eqn:E; [done|].
    apply IH. by apply Z.ltb_ge.
  - done.
Qed.

(** The end of a fetch: one request, and a result that is bounded. *)
Lemma last_request dns http hop left max (current : Request) (result : result string string) :
  (∀ text, result = Ok text →
     ∃ bytes, Net.from_utf8 bytes = Ok text ∧ Z.of_nat (String.length bytes) ≤ max) →
  pinned dns http hop current [current]
  ∧ (length [current] ≤ S left)%nat
  ∧ ∀ text, result = Ok text →
      ∃ bytes, Net.from_utf8 bytes = Ok text ∧ Z.of_nat (String.length bytes) ≤ max.
Proof using Type. intros Hr. split_and!; [constructor|cbn; lia|done]. Qed.

Lemma follow_pinned left max_redirects max hop expired dns http current :
  0 ≤ max →
  let '(requests, result) := follow left max_redirects max hop expired dns http current in
  pinned dns http hop current requests
  ∧ (length requests ≤ S left)%nat
  ∧ ∀ text, result = Ok text →
      ∃ bytes, Net.from_utf8 bytes = Ok text ∧ Z.of_nat (String.length bytes) ≤ max.
Proof using Type.
  intros Hmax. revert hop current. induction left as [|fewer IH]; intros hop current; cbn [follow].
  all: destruct (expired hop); [split_and!; [constructor|cbn; lia|done]|].
  all: destruct (http hop current) as [e|status location cl chunks] eqn:Eh;
    [by apply last_request|].
  all: destruct (negb _) eqn:Est.
  1,3: apply last_request; intros text; unfold read_response;
    repeat (destruct (negb _) || destruct (is_some_and _ _)); try done;
    apply read_chunks_bound; done.
  { by apply last_request. }
  apply negb_false_iff, andb_prop in Est as [Hst1%Z.leb_le Hst2%Z.ltb_lt].
  destruct location as [[location|]|]; [|by apply last_request..].
  destruct (Net.parse _) as [base|] eqn:Eb; [|by apply last_request].
  destruct (Net.join base location) as [next|] eqn:Ej; [|by apply last_request].
  destruct (resolve_and_validate_url (dns hop) next) as [[host addrs]|] eqn:Er;
    [|by apply last_request].
  apply resolve_public in Er.
  specialize (IH (S hop) (Request.mk (Url.href next) host addrs)).
  destruct (follow fewer _ _ _ _ _ _ _) as [requests result]. destruct IH as (Hf & Hl & Ht).
  split_and!; [by eapply pinned_redirect|cbn; lia|done].
Qed.
End guard.

(** C39: a fetch connects to public addresses only. The first URL passed its
    test, which resolved its addresses, and the caller names its host. Then the
    first request is for that URL, under its host, and pinned to the addresses
    that were resolved for it; every later one is for the target of the redirect
    before it, under the host of that target and pinned to the addresses that
    were resolved for it at that hop; all the addresses are public, and each
    request has one at least. There is one request more than the redirects it
    may follow at most, and a text it returns has at most the bytes it may
    read. *)
Theorem fetch_reaches_public_only `{Net} dns0 expired dns http feed_url hostname addrs
    max_redirects max_body_bytes :
  validate_feed_url dns0 feed_url = Ok addrs →
  (∀ url, Net.parse feed_url = Ok url → Url.host_str url = Some hostname) →
  0 ≤ max_body_bytes →
  let '(requests, result) := fetch_with_pinned_redirects expired dns http feed_url hostname addrs
                               max_redirects max_body_bytes in
  (∃ url, Net.parse feed_url = Ok url ∧ resolved_for dns0 url hostname addrs)
  ∧ pinned dns http 0 (Request.mk feed_url hostname addrs) requests
  ∧ Forall (λ r, public_addrs (Request.addrs r)) requests
  ∧ (length requests ≤ S max_redirects)%nat
  ∧ ∀ text, result = Ok text →
      ∃ bytes, Net.from_utf8 bytes = Ok text ∧ Z.of_nat (String.length bytes) ≤ max_body_bytes.
Proof.
  intros (url & host & Hu & Hv)%feed_url_public Hhost Hmax. unfold fetch_with_pinned_redirects.
  assert (host = hostname) as ->.
  { destruct Hv as (_ & Hh & _). rewrite (Hhost url Hu) in Hh. by injection Hh. }
  pose proof (follow_pinned max_redirects max_redirects max_body_bytes 0 expired dns http
    (Request.mk feed_url hostname addrs) Hmax) as Hp.
  destruct (follow _ _ _ _ _ _ _ _) as [requests result]. destruct Hp as (Hp & Hl & Ht).
  split_and!; [by exists url|done| |done|done]. eapply pinned_public; [exact Hp|apply Hv].
Qed.

(** The host of a URL is public: a public address, or a name whose addresses
    the resolver gives and are all public. *)
Definition public_host `{Net} (dns : Dns) (url : Url) : Prop :=
  ∃ host, Url.host_str url = Some host ∧
    match Net.parse_ip host with
    | Some ip => is_public_ip ip = true
    | None => ∃ addrs, dns (socket_text host (port_of url)) = Ok addrs ∧ public_addrs addrs
    end.

Lemma ssrf_safe_public `{Net} dns url :
  is_url_ssrf_safe dns url = true →
  is_http (Url.scheme url) = true ∧ Url.username url = ""%string ∧ Url.password url = None
  ∧ public_host dns url.
Proof.
  unfold is_url_ssrf_safe. destruct (is_http (Url.scheme url)); cbn [negb]; [|done].
  destruct (negb _ || _) eqn:Ec; [done|].
  apply orb_false_iff in Ec as [Hu%negb_false_iff%String.eqb_eq Hp].
  destruct (Url.password url); [done|]. intros Hs. split_and!; [done..|].
  destruct (Url.host_str url) as [host|] eqn:Eh; [|done]. exists host. split; [done|].
  destruct (Net.parse_ip host) as [ip|]; [by apply negb_true_iff, negb_false_iff in Hs|].
  destruct (dns _) as [addrs|]; [|done]. apply andb_true_iff in Hs as [H1 H2].
  exists addrs. split; [done|]. split; [by destruct addrs|].
  apply negb_true_iff in H2. apply Forall_forall. intros a Ha.
  destruct (is_public_ip a.1) eqn:E; [done|].
  assert (existsb (λ a, is_private_ip a.1) addrs = true) as Hx; [|by rewrite Hx in H2].
  apply existsb_exists. exists a. split; [by apply list_elem_of_In|]. unfold is_private_ip.
  by rewrite E.
Qed.

Lemma ownership_public `{Net} with_path dns get node_url pubkey :
  (verify_sync_register_target with_path dns get node_url pubkey).2 = Ok tt →
  ∃ request status,
    (verify_sync_register_target with_path dns get node_url pubkey).1 = Some request
    ∧ public_addrs (Request.addrs request)
    ∧ get request = NodeInfoReply.Response status (Ok pubkey) ∧ 200 ≤ status < 300.
Proof.
  unfold verify_sync_register_target.
  destruct (sync_register_node_info_url _ _) as [info_url|]; [|done].
  destruct (Net.parse info_url) as [parsed|]; [|done].
  destruct (resolve_and_validate_url dns parsed) as [[host addrs]|] eqn:Er; [|done].
  apply resolve_public in Er as (_ & _ & _ & Hp).
  set (request := Request.mk info_url host addrs). cbn [fst snd].
  destruct (get request) as [e|status info] eqn:Eg; [done|].
  destruct (negb _) eqn:Es; [done|]. apply negb_false_iff, andb_true_iff in Es as [H1 H2].
  destruct info as [pk|]; [|done].
  destruct (pk ≠s pubkey) eqn:Ek; [done|]. apply negb_false_iff, String.eqb_eq in Ek as ->.
  exists request, status. split_and!; [done..| |]; [by apply Z.leb_le|by apply Z.ltb_lt].
Qed.

(** The test of the clock, on [i64] values that wrap: it also lets the one
    time through whose distance to the clock is [i64::MIN], which [abs] keeps. *)
Lemma skew_test now signed_at :
  0 ≤ now < 2 ^ 62 → in_i64 signed_at →
  (SYNC_REGISTER_MAX_SKEW_SECS <? i64_abs (i64_sub now signed_at)) = false →
  - 600 ≤ now - signed_at ≤ 600 ∨ signed_at = now - 2 ^ 63.
Proof.
  unfold in_i64, i64_min, i64_max, SYNC_REGISTER_MAX_SKEW_SECS. intros Hnow Hs Hskew%Z.ltb_ge.
  unfold i64_abs, i64_sub in Hskew.
  destruct (decide (now - signed_at < 2 ^ 63)) as [Hlt|Hge].
  - left. rewrite (wrap64_id (now - signed_at)) in Hskew by (unfold in_i64, i64_min, i64_max; lia).
    rewrite wrap64_id in Hskew by (unfold in_i64, i64_min, i64_max; lia). lia.
  - assert (wrap64 (now - signed_at) = now - signed_at - 2 ^ 64) as E.
    { unfold wrap64. replace (now - signed_at + 2 ^ 63)
        with (now - signed_at - 2 ^ 63 + 1 * 2 ^ 64) by lia.
      rewrite Z.mod_add, Z.mod_small by lia. lia. }
    rewrite E in Hskew. right.
    destruct (decide (now - signed_at = 2 ^ 63)) as [|Hne]; [lia|exfalso].
    rewrite wrap64_id in Hskew by (unfold in_i64, i64_min, i64_max; lia). lia.
Qed.

(** C26: a registration is checked before it counts. When the primary accepts
    one, the request was signed with the key that it names, at a time within
    600 seconds or exactly 2^63 seconds before the clock; its URL is of the web, has no user name or password, and a public host; and
    the node behind that URL, asked at public addresses, gave that key. Any
    other answer leaves the database as it was. *)
Theorem registration_checked `{Crates} `{Net} with_path dns1 dns2 get register_json token provided
    now req subscribers db db' reply :
  0 ≤ now < 2 ^ 62 → in_i64 (unwrap_or 0 (RegisterRequest.signed_at req)) →
  handle_sync_register register_json (check_push_target with_path dns1 dns2 get) token provided now
    req subscribers db = (db', Ok reply) →
  let node_url := RegisterRequest.node_url req in
  let node_pubkey := RegisterRequest.node_pubkey req in
  match reply with
  | SyncReply.Refused _ _ => db' = db
  | SyncReply.Answer subscribers' =>
      subscribers' = <[node_pubkey := node_url]> subscribers
      ∧ check_sync_token provided token = Ok tt
      ∧ (∃ signed_at signature,
           (- 600 ≤ now - signed_at ≤ 600 ∨ signed_at = now - 2 ^ 63)
           ∧ ed25519_verify node_pubkey (sha256 (register_json node_pubkey node_url signed_at))
               signature = true)
      ∧ (∃ url, Net.parse node_url = Ok url
           ∧ is_http (Url.scheme url) = true ∧ Url.username url = ""%string
           ∧ Url.password url = None ∧ public_host dns1 url)
      ∧ ∃ request status,
          (verify_sync_register_target with_path dns2 get node_url node_pubkey).1 = Some request
          ∧ public_addrs (Request.addrs request)
          ∧ get request = NodeInfoReply.Response status (Ok node_pubkey)
  end.
Proof.
  intros Hnow Hin. unfold handle_sync_register, with_sync_token.
  destruct (check_sync_token provided token) as [[]|]; [|by intros [= <- <-]].
  destruct (RegisterRequest.signed_at req) as [signed_at|]; [|by intros [= <- <-]].
  destruct (RegisterRequest.signature req) as [signature|]; [|by intros [= <- <-]].
  cbn [unwrap_or] in Hin.
  destruct (SYNC_REGISTER_MAX_SKEW_SECS <? _) eqn:Eskew; [by intros [= <- <-]|].
  apply skew_test in Eskew; [|done..].
  destruct (negb _) eqn:Esig; [by intros [= <- <-]|]. apply negb_false_iff in Esig.
  destruct (check_push_target _ _ _ _ _ _) as [[]|[status message]] eqn:Et; [|by intros [= <- <-]].
  intros [= _ <-]. unfold check_push_target, validate_node_url in Et.
  destruct (Net.parse (RegisterRequest.node_url req)) as [url|] eqn:Ep; [|done].
  destruct (negb (is_url_ssrf_safe dns1 url)) eqn:Es; [done|].
  apply negb_false_iff, ssrf_safe_public in Es.
  apply ownership_public in Et as (request & st & E1 & E2 & E3 & _).
  split_and!; [done..| | |].
  - exists signed_at, signature. by split.
  - exists url. by split.
  - exists request, st. by split_and!.
Qed.

(** ** Examples *)

Definition sample_url (scheme host path : string) : Url :=
  Url.mk scheme "" None (Some host) (Some 443) path (scheme ++ "://" ++ host ++ path).

(** URLs of a table: a node, and a host whose name is that of a private
    address. *)
Definition sample_net : Net := {|
  Net.parse := λ s,
    if s =s "https://n.example/sync/push" then Ok (sample_url "https" "n.example" "/sync/push")
    else if s =s "https://n.example/node/info" then Ok (sample_url "https" "n.example" "/node/info")
    else if s =s "https://evil.example/" then Ok (sample_url "https" "evil.example" "/")
    else Err "unknown";
  Net.join := λ _ s, if s =s "https://evil.example/"
    then Ok (sample_url "https" "evil.example" "/") else Err "unknown";
  Net.parse_ip := λ s, if s =s "127.0.0.1" then Some (IpAddr.V4 (ipv4 127 0 0 1)) else None;
  Net.show_ip := λ _, "address";
  Net.from_utf8 := Ok
|}%string.

Definition sample_dns : Dns := λ s,
  if s =s "n.example:443" then Ok [(IpAddr.V4 (ipv4 93 184 216 34), 443)]
  else if s =s "evil.example:443" then Ok [(IpAddr.V4 (ipv4 10 0 0 7), 443)]
  else Err "no name"%string.

Lemma is_public_ip_ranges_witness :
  is_public_ip (IpAddr.V6 (0x64ff9b * 2 ^ 96 + ipv4 10 0 0 1)) = false
  ∧ public_address (IpAddr.V6 (0x20014860 * 2 ^ 96 + 8)).
Proof.
  split; [vm_compute; reflexivity|].
  apply (is_public_ip_ranges (IpAddr.V6 (0x20014860 * 2 ^ 96 + 8))).
  - cbn. lia.
  - vm_compute. reflexivity.
Defined.

(** A public URL that redirects to a private host: one request is sent. *)
Lemma fetch_reaches_public_only_witness :
  let http := λ (n : nat) (r : Request),
    Reply.Response 302 (Some (Ok "https://evil.example/"%string)) None [] in
  let run := @fetch_with_pinned_redirects sample_net (λ _, false) (λ _, sample_dns) http
    "https://n.example/sync/push" "n.example" [(IpAddr.V4 (ipv4 93 184 216 34), 443)] 10 100 in
  length run.1 = 1%nat ∧ is_ok run.2 = false
  ∧ Forall (λ r, public_addrs (Request.addrs r)) run.1.
Proof.
  intros http run. split; [vm_compute; reflexivity|]. split; [vm_compute; reflexivity|].
  pose proof (@fetch_reaches_public_only sample_net sample_dns (λ _, false) (λ _, sample_dns) http
    "https://n.example/sync/push" "n.example" [(IpAddr.V4 (ipv4 93 184 216 34), 443)] 10 100
    ltac:(vm_compute; reflexivity) ltac:(by vm_compute; intros ? [= <-]) ltac:(lia)) as Hf.
  fold run in Hf. destruct run as [requests result]. exact (proj1 (proj2 (proj2 Hf))).
Defined.

Definition sample_with_path (url : Url) (path : string) : string :=
  (Url.scheme url ++ "://" ++ unwrap_or "" (Url.host_str url) ++ path)%string.

Definition sample_register_json (k u : string) (t : Z) : string := (k ++ u ++ pretty t)%string.

Definition sample_node_info (r : Request) : NodeInfoReply :=
  if Request.url r =s "https://n.example/node/info"
  then NodeInfoReply.Response 200 (Ok "pubpeer"%string) else NodeInfoReply.SendError "no".

Lemma registration_checked_witness :
  let crates := table_crates [] in
  let req := @registration_request crates sample_register_json "peer" "https://n.example/" 100 in
  let run := @handle_sync_register crates sample_register_json
    (@check_push_target sample_net sample_with_path sample_dns sample_dns sample_node_info)
    (Some "token"%string) "token" 130 req ∅ empty_db in
  is_ok run.2 = true
  ∧ ∃ request status,
      (@verify_sync_register_target sample_net sample_with_path sample_dns sample_node_info
         "https://n.example/sync/push" "pubpeer").1 = Some request
      ∧ public_addrs (Request.addrs request)
      ∧ sample_node_info request = NodeInfoReply.Response status (Ok "pubpeer"%string).
Proof.
  intros crates req run. split; [vm_compute; reflexivity|].
  pose proof (@registration_checked crates sample_net sample_with_path sample_dns sample_dns
    sample_node_info sample_register_json (Some "token"%string) "token" 130 req ∅ empty_db run.1
    (SyncReply.Answer {["pubpeer"%string := "https://n.example/sync/push"%string]})
    ltac:(lia) ltac:(vm_compute; split; discriminate) ltac:(vm_compute; reflexivity))
    as (_ & _ & _ & _ & Hown).
  exact Hown.
Defined.

(** ** Groups of clients *)

(** The addresses that one client can use: one of IPv4, and a /64 of IPv6. *)
Definition same_client (a b : IpAddr) : Prop :=
  match a, b with
  | IpAddr.V4 a, IpAddr.V4 b => a = b
  | IpAddr.V6 a, IpAddr.V6 b => a / 2 ^ 64 = b / 2 ^ 64
  | _, _ => False
  end.

(** What the text of an address is: one for each address, with no slash. *)
Class ShowIpOk `(Net) : Prop := {
  show_ip_inj a b : Net.show_ip a = Net.show_ip b → a = b;
  show_ip_no_slash a s : Net.show_ip a ≠ (s ++ "/64")%string
}.

Lemma prefix_64_spec v : 0 ≤ v < 2 ^ 128 → prefix_64 v = v / 2 ^ 64 * 2 ^ 64.
Proof.
  intros Hv. unfold prefix_64. rewrite <-Z.shiftr_div_pow2, <-Z.shiftl_mul_pow2 by lia.
  apply Z.bits_inj'. intros n Hn. rewrite Z.land_spec, Z.lxor_spec.
  change (2 ^ 128 - 1) with (Z.ones 128). change (Z.shiftl 1 64 - 1) with (Z.ones 64).
  rewrite Z.shiftl_spec by lia. destruct (Z.lt_ge_cases n 64) as [Hlt|Hge].
  - rewrite !Z.ones_spec_low by lia. rewrite andb_false_r.
    symmetry. apply Z.testbit_neg_r. lia.
  - rewrite (Z.ones_spec_high 64) by lia. rewrite Z.shiftr_spec by lia.
    replace (n - 64 + 64) with n by lia.
    destruct (Z.lt_ge_cases n 128) as [Hl|Hg].
    + rewrite Z.ones_spec_low by lia. apply andb_true_r.
    + rewrite Z.ones_spec_high by lia. cbn. rewrite andb_false_r. symmetry.
      destruct (decide (v = 0)) as [->|]; [apply Z.testbit_0_l|].
      apply Z.bits_above_log2; [lia|]. assert (Z.log2 v < 128); [|lia]. by apply Z.log2_lt_pow2; lia.
Qed.

Lemma str_app_inj_r a b s : (a ++ s)%string = (b ++ s)%string → a = b.
Proof.
  intros E. apply (f_equal String.list_ascii_of_string) in E.
  assert (∀ x y, String.list_ascii_of_string (x ++ y)
    = String.list_ascii_of_string x ++ String.list_ascii_of_string y) as Happ.
  { intros x y. induction x as [|c x IH]; [done|]. cbn. by rewrite <-IH. }
  rewrite !Happ in E. apply app_inv_tail in E.
  rewrite <-(String.string_of_list_ascii_of_string a), E.
  apply String.string_of_list_ascii_of_string.
Qed.

(** who shares a rate limit. Behind no trusted proxy the header does not
    matter, and two requests have the same key exactly when their peers are one
    client. So the IPv4 clients of a socket of both families, whose addresses
    come as mapped ones, all share one key. The health check is never limited,
    and behind a proxy a header that is no address leaves the peer. *)
Theorem rate_limit_groups `{ShowIpOk} h h' (a b : IpAddr) :
  (∀ v, a = IpAddr.V6 v ∨ b = IpAddr.V6 v → 0 ≤ v < 2 ^ 128) →
  (rate_limit_key h (Some a) false = rate_limit_key h' (Some b) false ↔ same_client a b)
  ∧ (∀ x y, 0 ≤ x < 2 ^ 32 → 0 ≤ y < 2 ^ 32 →
       rate_limit_key h (Some (IpAddr.V6 (0xffff * 2 ^ 32 + x))) false
       = rate_limit_key h' (Some (IpAddr.V6 (0xffff * 2 ^ 32 + y))) false)
  ∧ (∀ check trust, apply_rate_limit check "/health" h (Some a) trust = None)
  ∧ ((∀ s, h = Some s → Net.parse_ip (str_trim s) = None) →
       rate_limit_key h (Some a) true = rate_limit_key h' (Some a) false).
Proof.
  intros Hv. split_and!.
  - unfold rate_limit_key. cbn. destruct a as [a|a], b as [b|b]; cbn.
    + split; [by intros [= ->]%show_ip_inj|by intros ->].
    + split; [|done]. apply show_ip_no_slash.
    + split; [|done]. intros E. by eapply show_ip_no_slash.
    + rewrite !prefix_64_spec by (apply Hv; auto). split.
      * intros [= E]%str_app_inj_r%show_ip_inj. lia.
      * by intros ->.
  - intros x y Hx Hy. unfold rate_limit_key. cbn. rewrite !prefix_64_spec by lia.
    by rewrite !Z.div_small by lia.
  - done.
  - intros Hn. unfold rate_limit_key. destruct h as [s|]; cbn; [|done]. by rewrite Hn.
Qed.

(** ** Example *)

(** A text of an address: the number, behind a colon for IPv6. *)
Definition number_net : Net := {|
  Net.parse := λ _, Err "unknown"%string;
  Net.join := λ _ _, Err "unknown"%string;
  Net.parse_ip := λ _, None;
  Net.show_ip := λ ip,
    match ip with IpAddr.V4 v => pretty v | IpAddr.V6 v => String ":" (pretty v) end;
  Net.from_utf8 := Ok
|}.

Lemma number_text_no_slash s t : number_text s = true → s ≠ (t ++ "/64")%string.
Proof.
  intros Hs ->. induction t as [|a t IH]; [done|]. cbn in Hs.
  apply andb_true_iff in Hs as [_ Hs]. by apply IH.
Qed.

Lemma number_net_ok : ShowIpOk number_net.
Proof.
  assert (∀ v w : Z, pretty v ≠ String ":" (pretty w)) as Hc.
  { intros v w E. pose proof (number_pretty v) as Hn. by rewrite E in Hn. }
  split.
  - intros [v|v] [w|w] E; cbn in E; [by apply (inj pretty) in E as ->|by apply Hc in E| |].
    + symmetry in E. by apply Hc in E.
    + injection E as E. by apply (inj pretty) in E as ->.
  - intros [v|v] s; cbn; [apply number_text_no_slash, number_pretty|].
    intros E. destruct s as [|c s]; [done|]. injection E as <- E.
    revert E. apply number_text_no_slash, number_pretty.
Qed.

#[local] Existing Instance number_net_ok.

(** Two addresses of one /64, and one of the next. *)
Lemma rate_limit_groups_witness :
  @rate_limit_key number_net None (Some (IpAddr.V6 (7 * 2 ^ 64 + 1))) false
    = @rate_limit_key number_net None (Some (IpAddr.V6 (7 * 2 ^ 64 + 2))) false
  ∧ @rate_limit_key number_net None (Some (IpAddr.V6 (7 * 2 ^ 64 + 1))) false
    ≠ @rate_limit_key number_net None (Some (IpAddr.V6 (8 * 2 ^ 64))) false.
Proof.
  split.
  - apply (@rate_limit_groups number_net number_net_ok None None
      (IpAddr.V6 (7 * 2 ^ 64 + 1)) (IpAddr.V6 (7 * 2 ^ 64 + 2))); [|vm_compute; reflexivity].
    intros v [[= <-]|[= <-]]; split; vm_compute; congruence.
  - intros E. apply (@rate_limit_groups number_net number_net_ok None None
      (IpAddr.V6 (7 * 2 ^ 64 + 1)) (IpAddr.V6 (8 * 2 ^ 64))) in E; [vm_compute in E; discriminate|].
    intros v [[= <-]|[= <-]]; split; vm_compute; congruence.
Defined.
