(* ===== verification/AdminProps.v ===== *)
(** Properties of the routes of the operator: the token, what a reply tells,
    a retirement and the submissions after it, and a relocation. *)

From S2P Require Import Prelude.
From S2P Require Import Model.
From S2P Require Import Ingest.
From S2P Require Import Event.
From S2P Require Import Crates.
From S2P Require Import Store.
From S2P Require Import Verify.
From S2P Require Import Catalog.
From S2P Require Import Feeds.
From S2P Require Import Integrity.
From S2P Require Import EventLog.
From S2P Require Import Moves.
From S2P Require Import Blocks.
From S2P Require Import GuidChange.
From S2P Require Import Observe.
From S2P Require Import Submit.
From S2P Require Import Admin.
From S2P Require Import Frames.
From S2P Require Import Replica.
From S2P Require Import Submitted.
From S2P Require Import Administered.
From S2P Require Import Replication.
From S2P Require Import Samples.
From S2P Require Import Bundle.
From S2P Require Import SubmitProps.

(** The events that a reply sends on. *)
Definition sent (r : AdminReply AdminBody) : list Event :=
  match r with
  | AdminReply.Refused _ _ => []
  | AdminReply.Done _ _ evs => evs
  end.

(** C27: without the admin token no one changes anything. When the node has no
    token, or the header does not hash to the same value, every admin route
    leaves the database as it is, sends nothing on, and answers with an error
    status or a conflict. *)
Theorem admin_needs_token `{Crates} signer uuids now header token got req db :
  token = ""%string ∨ sha256 (unwrap_or "" (h ← header; h)) ≠ sha256 token →
  ∃ reply, admin_route signer uuids now header token got req db = (db, Ok reply)
    ∧ declined reply = true ∧ sent reply = [].
Proof.
  intros Hbad.
  assert (∃ msg, check_admin_token header token = Err msg) as [msg Hc].
  { unfold check_admin_token. destruct Hbad as [->|Hne]; [by eexists|].
    destruct (str_is_empty token); [by eexists|]. cbv zeta.
    apply String.eqb_neq in Hne. rewrite Hne. by eexists. }
  assert (∀ m : AdminDB, with_admin_token header token m
    = mret (AdminReply.Refused 403 msg)) as Hw by (intros m; unfold with_admin_token; by rewrite Hc).
  destruct req; cbn [admin_route];
    unfold handle_retire_feed, handle_remove_track, handle_create_block, handle_list_blocks,
      handle_delete_retired_source_hold, handle_delete_block, handle_patch_feed,
      handle_resolve_copy, handle_guid_change_decision, handle_patch_track,
      handle_patch_feed_track, patch_resolved_track;
    cbv zeta; rewrite ?Hw; try by eexists.
  - unfold mbind, db_bind, get_tracks_by_guid, query. destruct (sort_by _ _) as [|t [|]];
      rewrite ?Hw; by eexists.
  - unfold mbind, db_bind, get_track_for_feed, query. destruct (_ !! _); rewrite ?Hw; by eexists.
Qed.

(** What an admin route answers is what it has done. It keeps the
    invariants of a node; an error status or a conflict comes with the
    database as it was; and the events that are sent on to the peers are the
    rows that the log has gained, in their order. *)
Theorem admin_reply_tells `{Crates} signer uuids now header token got req db :
  node_ok db →
  let '(db', out) := admin_route signer uuids now header token got req db in
  node_ok db'
  ∧ match out with
    | Err _ => True
    | Ok reply =>
        (declined reply = true → db' = db)
        ∧ ∃ rows, events db' = events db ++ rows
            ∧ collect_results event_of_row rows = Ok (sent reply)
    end.
Proof.
  intros Hok. destruct (good_admin_route signer uuids now header token got req) as (Hs & Hl & Hi).
  pose proof (node_ok_step _ db Hs Hl Hi Hok) as Hok'.
  destruct (admin_route _ _ _ _ _ _ _ _) as [db' [reply|e]] eqn:E; split; try done.
  split; [by apply (quiet_admin_route signer uuids now header token got req)|].
  destruct (logs_admin_route signer uuids now header token got req db db' reply (events db) E)
    as (rows & Hr & Hf); [by rewrite app_nil_r|].
  exists rows. split; [done|]. destruct reply; cbn in Hf |- *; [by subst|done].
Qed.

(** *** A retirement that blocks *)

Lemma token_ok_run `{Crates} header token (m : AdminDB) db db' st body evs :
  with_admin_token header token m db = (db', Ok (AdminReply.Done st body evs)) →
  m db = (db', Ok (AdminReply.Done st body evs)).
Proof. unfold with_admin_token. by destruct (check_admin_token header token). Qed.

(** The rows that a retirement has put down: both pairs are blocked. *)
Lemma retire_blocks `{Crates} signer uuids now header token guid row db db' st body evs :
  handle_retire_feed signer uuids now header token guid None db
    = (db', Ok (AdminReply.Done st body evs)) →
  feeds db !! guid = Some row →
  (∀ n, new_v4 n ∉ (FeedBlock.block_id <$> feed_blocks db)) →
  new_v4 (S uuids) ≠ new_v4 (S (S uuids)) →
  feeds db' !! guid = None
  ∧ blocked FeedBlockKind.Guid (Feed.feed_guid (FeedRow.feed row)) (feed_blocks db')
  ∧ blocked FeedBlockKind.Url (Feed.feed_url (FeedRow.feed row)) (feed_blocks db').
Proof.
  unfold handle_retire_feed. cbv zeta. intros E%token_ok_run Hr Hnew Hne. revert E.
  cbn [unwrap_or negb andb]. unfold get_feed_by_guid. unfold mbind at 1, db_bind at 1, query at 1.
  rewrite Hr. cbn [fmap option_fmap option_map].
  intros (d & evs' & E & [= <- _ _ _])%bind_ok. unfold delete_feed_with_event in E.
  apply transaction_run in E. cbn [retirement_blocks] in E.
  apply bind_ok in E as (d1 & hold & [= <- <-] & E).
  apply bind_ok in E as (d2 & [] & Hd & E).
  apply bind_ok in E as (d3 & [] & [= <-] & E).
  apply bind_ok in E as (d4 & s & Hs & E).
  apply bind_ok in E as (d5 & ev & [= <- _] & E).
  apply bind_ok in E as (d6 & more & Hb & [= <- <-]).
  assert (feed_blocks d4 = feed_blocks db) as Hfb.
  { assert (Keeps feed_blocks (delete_feed_sql guid)) as K by (open_operations; frame).
    rewrite <-(run_keeps feed_blocks _ _ _ _ Hd K). eapply run_keeps; [exact Hs|apply _]. }
  assert (feeds d4 = feeds d2) as Hfd by (eapply run_keeps; [exact Hs|apply _]).
  assert (feeds d6 = feeds d4) as Hf6 by (eapply run_keeps; [exact Hb|apply _]).
  assert (feeds d2 = delete guid (feeds db)) as Hdel.
  { destruct (delete_feed_catalog guid db) as [_ K]. cbv zeta in K. by rewrite Hd in K. }
  split; [by rewrite Hf6, Hfd, Hdel, lookup_delete_eq|].
  destruct (block_events_force signer _ _ _ _ _ _ Hb) as [_ Hall].
  - cbn. apply NoDup_cons. split; [by intros ?%list_elem_of_singleton|apply NoDup_singleton].
  - rewrite Hfb. intros b [->|[->|[]%not_elem_of_nil]%elem_of_cons]%elem_of_cons; apply Hnew.
  - split; [eapply (Hall (FeedBlock.mk _ _ _ _ _)); by left
           |eapply (Hall (FeedBlock.mk _ _ _ _ _)); right; by left].
Qed.

(** C7: a retired feed stays out. After a retirement that blocks, the feed is
    gone. Every later submission whose body names its GUID, or that comes from
    its URL, with a body or without one, changes nothing, as long as the rows
    of the blocks are there: the answer is the rejection of its token when that
    is wrong, and else [blocked], whatever the verifiers say of it. *)
Theorem retired_feed_stays_out `{Crates} `{Web} (hash_order : list string → list string)
    signer uuids now header token guid row db db' st body evs :
  handle_retire_feed signer uuids now header token guid None db
    = (db', Ok (AdminReply.Done st body evs)) →
  feeds db !! guid = Some row → Feed.feed_guid (FeedRow.feed row) = guid →
  (∀ n, new_v4 n ∉ (FeedBlock.block_id <$> feed_blocks db)) →
  new_v4 (S uuids) ≠ new_v4 (S (S uuids)) →
  feeds db' !! guid = None
  ∧ ∀ chain hosts clock uuids' req reader later,
      feed_blocks db' ⊆ feed_blocks reader →
      (IngestFeedRequest.feed_data req = None → feed_blocks db' ⊆ feed_blocks later) →
      let url := Feed.feed_url (FeedRow.feed row) in
      IngestFeedData.feed_guid <$> IngestFeedRequest.feed_data req = Some guid
      ∨ url ≠ ""%string ∧ (IngestFeedRequest.source_url req = url
                           ∨ IngestFeedRequest.canonical_url req = url) →
      handle_ingest_feed hash_order signer chain hosts clock uuids' req reader later
      = (later, Ok (rejection (match authenticate chain req with
                               | Ok _ => "blocked"
                               | Err reason => reason
                               end))).
Proof.
  intros E Hr Hg Hnew Hne.
  destruct (retire_blocks _ _ _ _ _ _ _ _ _ _ _ _ E Hr Hnew Hne) as (Hgone & Hbg & Hbu).
  split; [done|]. intros chain hosts clock uuids' req reader later Hsub Hsub' url Hwho.
  unfold handle_ingest_feed. destruct (authenticate chain req); [|done].
  assert (∀ d, feed_blocks db' ⊆ feed_blocks d → ∃ b,
    find_feed_block (IngestFeedData.feed_guid <$> IngestFeedRequest.feed_data req)
      [IngestFeedRequest.source_url req; IngestFeedRequest.canonical_url req] d
    = (d, Ok (Some b))) as Hfound.
  { intros d Hd. apply feed_block_found. destruct Hwho as [->|[Hu Hwho]].
    - left. exists guid. split; [done|]. rewrite <-Hg. by eapply blocked_mono.
    - right. exists url. split_and!; [|done|by eapply blocked_mono].
      destruct Hwho as [<-|<-]; set_solver. }
  destruct (_ && _) eqn:Egone.
  - apply andb_prop in Egone as [Hnone _].
    destruct (IngestFeedRequest.feed_data req); [done|].
    destruct (Hfound later (Hsub' eq_refl)) as [b Eb].
    unfold handle_source_gone_report. cbv zeta. unfold mbind, db_bind.
    cbn [fmap option_fmap option_map] in Eb. by rewrite Eb.
  - unfold read_phase. destruct (Hfound reader Hsub) as [b Eb]. unfold mbind, db_bind.
    by rewrite Eb.
Qed.

(** *** A relocation *)

(** What a relocation has written, at the end of its transaction. *)
Lemma relocate_run `{Crates} signer uuids guid new_url reason now row db db' s :
  feeds db !! guid = Some row →
  relocate_feed signer uuids guid new_url reason now db = (db', Ok (Some s)) →
  ∃ row', feeds db' !! guid = Some row' ∧ Feed.feed_url (FeedRow.feed row') = new_url
    ∧ Feed.feed_guid (FeedRow.feed row') = Feed.feed_guid (FeedRow.feed row)
    ∧ Feed.last_build_date (FeedRow.feed row') = None
    ∧ FeedRow.declared_self_url row' = None ∧ FeedRow.declared_new_feed_url row' = None.
Proof.
  intros Hr. unfold relocate_feed. unfold mbind at 1, db_bind at 1, query at 1.
  destruct (existsb _ _); [done|]. unfold mbind at 1, db_bind at 1, query at 1.
  rewrite Hr. cbn [fmap option_fmap option_map].
  intros (d1 & [] & [= <-] & E)%bind_ok.
  apply bind_ok in E as (d2 & [] & [= <-] & E). apply bind_ok in E as (d3 & [] & [= <-] & E).
  apply bind_ok in E as (d4 & [] & Hw & E). apply bind_ok in E as (d5 & f & [= <- Hf] & E).
  destruct f as [f|]; [|done]. apply bind_ok in E as (d6 & s' & Hs & [= <- _]).
  rewrite (run_keeps feeds _ _ _ _ Hs ltac:(apply _)).
  assert (Keeps feeds (write_relocation_state guid (Feed.feed_url (FeedRow.feed row)) new_url)) as K.
  { unfold write_relocation_state, add_left_url, remove_left_url. frame. }
  rewrite (run_keeps feeds _ _ _ _ Hw K). cbn.
  rewrite !lookup_alter_eq, Hr. eexists. by split_and!.
Qed.

(** C35: a relocation by the operator hands the record over. After it the feed
    stands at the new URL, with no time of its last build and no declared
    URL; a submission from the new URL is an update of it; and a body from
    the URL that it has left changes no feed, track, list, score or search
    row, whatever it holds. *)
Theorem relocation_hands_over `{Crates} `{Web} (hash_order : list string → list string)
    signer uuids now header token guid req new_url row db db' st body evs :
  node_ok db → feeds db !! guid = Some row →
  PatchFeedRequest.feed_url req = Some new_url →
  handle_patch_feed signer uuids now header token guid req db
    = (db', Ok (AdminReply.Done st body evs)) →
  node_ok db'
  ∧ (∃ row', feeds db' !! guid = Some row' ∧ Feed.feed_url (FeedRow.feed row') = new_url
       ∧ Feed.last_build_date (FeedRow.feed row') = None
       ∧ FeedRow.declared_self_url row' = None ∧ FeedRow.declared_new_feed_url row' = None)
  ∧ classify_submission guid new_url new_url db' = (db', Ok SubmissionClass.Update)
  ∧ ∀ old_url chain hosts clock uuids' sub fd reader,
      old_url ≠ new_url →
      IngestFeedRequest.feed_data sub = Some fd → IngestFeedData.feed_guid fd = guid →
      IngestFeedRequest.source_url sub = old_url → IngestFeedRequest.canonical_url sub = old_url →
      content (handle_ingest_feed hash_order signer chain hosts clock uuids' sub reader db').1
      = content db'.
Proof.
  intros Hok Hr Hu E.
  destruct (good_admin_route signer uuids now header token id (AdminRequest.PatchFeed guid req))
    as (H1 & H2 & H3). pose proof (node_ok_step _ db H1 H2 H3 Hok) as Hok'.
  cbn [admin_route] in Hok'. rewrite E in Hok'. cbn [fst] in Hok'.
  apply token_ok_run in E. unfold get_feed_by_guid in E.
  apply bind_ok in E as (d & f & [= <- <-] & E). rewrite Hr, Hu in E.
  cbn [fmap option_fmap option_map] in E. destruct (str_is_empty _); [done|].
  apply bind_ok in E as (d & o & Ht%transaction_run & E). destruct o as [s|]; [|done].
  unfold answer in E. apply bind_ok in E as (d2 & evs' & [= <- _] & [= <- _ _ _]).
  destruct (relocate_run _ _ _ _ _ _ _ _ _ _ Hr Ht) as (row' & Hr' & Hu' & Hg' & Hl' & Hds & Hdn).
  split; [done|]. split; [exists row'; by split_and!|]. split.
  - unfold classify_submission. unfold mbind at 1, db_bind at 1, query at 1. rewrite Hr'.
    cbn [fmap option_fmap option_map compose]. unfold mbind, db_bind, query.
    destruct Hok' as [[(Hg & _ & Huniq) _] _].
    rewrite filter_none; [cbn; by rewrite Hu', String.eqb_refl|].
    intros f (k & rf & Hk & <-)%elem_of_all_feeds.
    destruct (Feed.feed_url (FeedRow.feed rf) =s new_url) eqn:Ef; [|done]. cbn.
    apply negb_false_iff, String.eqb_eq. rewrite (Hg _ _ Hk).
    apply String.eqb_eq in Ef. eapply Huniq; [exact Hk|exact Hr'|congruence].
  - intros old_url chain hosts clock uuids' sub fd reader Hne Hfd Hgd Hs Hc.
    eapply (handler_foreign hash_order signer guid row' sub fd Hfd Hgd); [|exact Hr'].
    rewrite Hs, Hc. intros u [->| ->]; rewrite Hu', Hds, Hdn; by split_and!.
Qed.

(** *** Instances at concrete inputs *)

#[local] Existing Instance plain_web.
#[local] Open Scope string_scope.

Definition sample_resubmission : IngestFeedRequest :=
  sample_request "https://a.example/feed.xml" 200
    (Some (sample_body "feed-1" [sample_ingest_route "03cd" 100] [])).

Definition retired_block (n : nat) (kind : FeedBlockKind) (value : string) : EventPayload :=
  EventPayload.FeedBlocked (FeedBlockedPayload.mk ("id" ++ tally n) kind value "retired" 500).

(** The feed of [one_feed] after a relocation. *)
Definition moved_feed : Feed :=
  Feed.mk "feed-1" "https://b.example/feed.xml" "Album" "album" (Some "About") None None
    (Some "en") false None (Some "Artist") None (Some 1000) None 2 None None 50 100
    (Some "music") None None.

(** The libraries, with the payloads of a retirement and of a new record. *)
Definition admin_crates : Crates := table_crates (
  [EventPayload.FeedRetired (FeedRetiredPayload.mk "feed-1" (Some "admin retired via API"));
   retired_block 1 FeedBlockKind.Guid "feed-1";
   retired_block 2 FeedBlockKind.Url "https://a.example/feed.xml";
   EventPayload.FeedUrlObserved
     (FeedUrlObservedPayload.mk "https://a.example/feed.xml" "feed-1" 500);
   EventPayload.FeedUpserted (FeedUpsertedPayload.mk moved_feed (Some "the host closed"))]
  ++ all_payloads (@build_bundle gone_crates _ "https://a.example/feed.xml"
       "https://a.example/feed.xml" (sample_body "feed-1" [sample_ingest_route "03cd" 100] []) 500)).

Definition retire_one : Db * result DbError (AdminReply AdminBody) :=
  @handle_retire_feed admin_crates "key" 0 500 (Some (Some "secret")) "secret" "feed-1" None
    one_feed.

(** A submission whose read phase ran on the node before the retirement, and
    whose writes come after it. *)
Definition late_submission : Db * result DbError Reply :=
  @handle_ingest_feed admin_crates _ id "key" sample_chain [] sample_clock 10
    sample_resubmission one_feed retire_one.1.

(** the blocks are read on the snapshot of the read phase, and not again
    under the lock of the writer. A submission that is verified before a
    retirement, and written after it, brings the feed back: it is accepted as
    a new feed although both of its blocks are in force. *)
Theorem blocked_feed_returns :
  let '(retired, _) := retire_one in
  let '(later, reply) := late_submission in
  feeds retired !! "feed-1" = None
  ∧ (∃ resp evs, reply = Ok (Reply.Answer resp evs) ∧ IngestResponse.accepted resp = true)
  ∧ is_some (feeds later !! "feed-1") = true
  ∧ @blocked admin_crates FeedBlockKind.Guid "feed-1" (feed_blocks later)
  ∧ @blocked admin_crates FeedBlockKind.Url "https://a.example/feed.xml" (feed_blocks later).
Proof.
  destruct retire_one as [retired r] eqn:E, late_submission as [later reply] eqn:E'.
  assert (feeds retired !! "feed-1" = None) as H1.
  { change retired with (fst (retired, r)). rewrite <-E. vm_compute. reflexivity. }
  assert (feed_blocks later = feed_blocks retire_one.1) as Hb.
  { change later with (fst (later, reply)). rewrite <-E'. vm_compute. reflexivity. }
  assert (match reply with Ok (Reply.Answer resp _) => IngestResponse.accepted resp | _ => false end
          = true) as Ha.
  { change reply with (snd (later, reply)). rewrite <-E'. vm_compute. reflexivity. }
  assert (is_some (feeds later !! "feed-1") = true) as Hf.
  { change later with (fst (later, reply)). rewrite <-E'. vm_compute. reflexivity. }
  split_and!; [done| |done|..].
  - destruct reply as [[|resp evs]|]; [done| |done]. eauto.
  - rewrite Hb. exists (FeedBlock.mk "id1" FeedBlockKind.Guid "feed-1" "retired" 500).
    split_and!; [|done|done]. vm_compute. left.
  - rewrite Hb.
    exists (FeedBlock.mk "id11" FeedBlockKind.Url "https://a.example/feed.xml" "retired" 500).
    split_and!; [|done|done]. vm_compute. right. left.
Qed.

Lemma admin_needs_token_witness :
  ∃ reply, @admin_route admin_crates "key" 0 500 None "secret" id (AdminRequest.RetireFeed "feed-1" None) one_feed
    = (one_feed, Ok reply) ∧ declined reply = true ∧ sent reply = [].
Proof.
  apply (@admin_needs_token admin_crates). right. intros E. vm_compute in E. discriminate E.
Defined.

Lemma one_feed_ok : @node_ok admin_crates one_feed.
Proof.
  split_and!.
  - split.
    + split_and!; cbn.
      * intros g row [<- <-]%lookup_singleton_Some. done.
      * intros f t tr Ht. by rewrite lookup_empty in Ht.
      * intros g1 g2 r1 r2 [<- <-]%lookup_singleton_Some [<- <-]%lookup_singleton_Some _. done.
    + unfold refs_ok, refs. split_and!; intros r Hr; by apply not_elem_of_nil in Hr.
  - exact (proj1 (proj2 (@empty_ok admin_crates))).
  - exact (proj2 (proj2 (@empty_ok admin_crates))).
Qed.

Lemma admin_reply_tells_witness :
  let out := retire_one in
  @node_ok admin_crates out.1.
Proof.
  intros out.
  pose proof (@admin_reply_tells admin_crates "key" 0 500 (Some (Some "secret")) "secret" id
    (AdminRequest.RetireFeed "feed-1" None) one_feed one_feed_ok) as Ht.
  unfold out, retire_one. cbn [admin_route] in Ht.
  destruct (@handle_retire_feed admin_crates "key" 0 500 (Some (Some "secret")) "secret" "feed-1" None
    one_feed) as [d o]. exact (proj1 Ht).
Defined.

Lemma retired_feed_stays_out_witness :
  feeds retire_one.1 !! "feed-1" = None
  ∧ @handle_ingest_feed admin_crates _ id "key" sample_chain [] sample_clock 10
      sample_resubmission retire_one.1 one_feed
    = (one_feed, Ok (rejection "blocked")).
Proof.
  destruct retire_one as [d [reply|e]] eqn:E.
  2: { exfalso. assert (retire_one.2 = Err e) as E2 by (by rewrite E). vm_compute in E2. done. }
  destruct reply as [status msg|status body evs].
  1: { exfalso. assert (retire_one.2 = Ok (AdminReply.Refused status msg)) as E2 by (by rewrite E).
       vm_compute in E2. done. }
  unfold retire_one in E.
  destruct (@retired_feed_stays_out admin_crates _ id "key" 0 500 (Some (Some "secret")) "secret"
    "feed-1" (FeedRow.mk sample_feed None None None None) one_feed d status body evs E)
    as [Hgone Hout].
  - vm_compute. reflexivity.
  - reflexivity.
  - intros n Hn. by apply not_elem_of_nil in Hn.
  - intros Heq. vm_compute in Heq. discriminate Heq.
  - split; [exact Hgone|].
    exact (Hout sample_chain [] sample_clock 10%nat sample_resubmission d one_feed
      ltac:(done) ltac:(discriminate) (or_introl eq_refl)).
Defined.

Definition relocate_one : PatchFeedRequest :=
  PatchFeedRequest.mk (Some "https://b.example/feed.xml") (Some "the host closed").

Lemma relocation_hands_over_witness :
  ∃ d evs, @handle_patch_feed admin_crates "key" 0 500 (Some (Some "secret")) "secret" "feed-1"
      relocate_one one_feed = (d, Ok (AdminReply.Done 204 AdminBody.Empty evs))
    ∧ @node_ok admin_crates d
    ∧ classify_submission "feed-1" "https://b.example/feed.xml" "https://b.example/feed.xml" d
      = (d, Ok SubmissionClass.Update).
Proof.
  destruct (@handle_patch_feed admin_crates "key" 0 500 (Some (Some "secret")) "secret" "feed-1"
    relocate_one one_feed) as [d r] eqn:E.
  assert (match r with Ok (AdminReply.Done s AdminBody.Empty _) => (s =? 204)%Z | _ => false end = true)
    as Hr.
  { change r with (snd (d, r)). rewrite <-E. vm_compute. reflexivity. }
  destruct r as [[status msg|status body evs]|e]; [discriminate Hr| |discriminate Hr].
  destruct body; try discriminate Hr. apply Z.eqb_eq in Hr as ->.
  destruct (@relocation_hands_over admin_crates _ id "key" 0 500 (Some (Some "secret")) "secret"
    "feed-1" relocate_one "https://b.example/feed.xml" (FeedRow.mk sample_feed None None None None)
    one_feed d 204 AdminBody.Empty evs one_feed_ok) as (Hok & _ & Hc & _);
    [vm_compute; reflexivity|reflexivity|exact E|].
  exists d, evs. by split_and!.
Defined.
