(* ===== verification/LinkProps.v ===== *)
(** Properties of the publisher view and of what is derived from it. *)

From S2P Require Import Prelude.
From S2P Require Import Model.
From S2P Require Import Crates.
From S2P Require Import Store.
From S2P Require Import Tables.
From S2P Require Import RowLists.
From S2P Require Import Catalog.
From S2P Require Import Integrity.
From S2P Require Import Links.
From S2P Require Import Replica.
From S2P Require Import Samples.

(** *** Items and resolutions *)

Lemma elem_of_list_filter {A} (f : A → bool) l x :
  x ∈ List.filter f l ↔ f x = true ∧ x ∈ l.
Proof. rewrite !list_elem_of_In, List.filter_In. tauto. Qed.

Lemma elem_of_dedupe l x : x ∈ dedupe_by (id : string → string) l ↔ x ∈ l.
Proof.
  split.
  - intros Hx. eapply elem_of_submseteq; [exact Hx|apply sublist_submseteq, dedupe_by_sublist].
  - intros Hx. destruct (dedupe_by_complete id l x Hx) as (y & Hy & Hk).
    cbn in Hk. by subst.
Qed.

Lemma elem_of_string_set l x : x ∈ string_set l ↔ x ∈ l.
Proof. unfold string_set. rewrite sort_by_perm. apply elem_of_dedupe. Qed.

Lemma elem_of_remote_items db g r :
  r ∈ remote_items db g ↔ FeedRemoteItemRaw.feed_guid r = g ∧ r ∈ feed_remote_items_raw db.
Proof.
  unfold remote_items, order_by. rewrite sort_by_perm, elem_of_list_filter.
  by rewrite String.eqb_eq.
Qed.

Lemma get_feed_exists db g : is_some (get_feed db g) = feed_exists db g.
Proof. unfold get_feed, feed_exists. by destruct (feeds db !! g). Qed.

Section props.
Context `{Crates} `{Web}.

Lemma stored_url_found db u g c :
  feed_indexed_by_stored_url db u = Some (g, c) →
  ∃ k row, feeds db !! k = Some row ∧ Feed.feed_guid (FeedRow.feed row) = g
    ∧ Feed.feed_url (FeedRow.feed row) = u.
Proof using Type.
  unfold feed_indexed_by_stored_url. destruct (List.find _ _) as [f|] eqn:E; [|done].
  intros [= <- <-]. apply List.find_some in E as [Hin Hu]. apply String.eqb_eq in Hu.
  apply list_elem_of_In, list_elem_of_fmap in Hin as ([k row] & -> & Hk%elem_of_map_to_list).
  by exists k, row.
Qed.

(** A resolution names a feed that is held, by the declared GUID or by the
    declared URL. *)
Lemma resolved_held db g u n :
  catalog_ok db →
  resolution_feed_guid (resolve_listed_feed db g u) = Some n →
  feed_exists db n = true
  ∧ (g = n ∨ ∃ url f, u = Some url ∧ get_feed db n = Some f
       ∧ url ∈ observed_urls db n ++ [Feed.feed_url f]).
Proof using Type.
  intros (Hg & _) E. unfold resolve_listed_feed in E.
  destruct (feed_exists db g) eqn:Eg; [injection E as <-; by split; [|left]|].
  destruct u as [url|]; [|done].
  assert (∀ stored, resolution_feed_guid
    match feed_indexed_by_stored_url db url with
    | Some (fg, ca) => ListedFeedResolution.FeedUrl fg ca
    | None => ListedFeedResolution.Unresolved end = Some stored →
    ∃ f, get_feed db stored = Some f ∧ Feed.feed_url f = url) as Hst.
  { intros s Hs. destruct (feed_indexed_by_stored_url db url) as [[fg ca]|] eqn:Ef; [|done].
    injection Hs as <-. apply stored_url_found in Ef as (k & row & Hk & Hfg & Hu).
    exists (FeedRow.feed row). unfold get_feed. split; [|done].
    rewrite <-Hfg, (Hg _ _ Hk), Hk. done. }
  assert (∀ f, get_feed db n = Some f → feed_exists db n = true) as Hex.
  { intros f Hf. by rewrite <-get_feed_exists, Hf. }
  assert (∀ s, (∃ f, get_feed db s = Some f ∧ Feed.feed_url f = url) → s = n →
    feed_exists db n = true
    ∧ (g = n ∨ ∃ url0 f, Some url = Some url0 ∧ get_feed db n = Some f
         ∧ url0 ∈ observed_urls db n ++ [Feed.feed_url f])) as Hfin.
  { intros s (f & Hf & Hu) ->. split; [by eapply Hex|]. right. exists url, f.
    split_and!; [done..|]. apply elem_of_app. right. rewrite Hu. by left. }
  destruct (feed_url_observations db !! url) as [o|] eqn:Eo; [|eauto].
  destruct (feed_exists db (FeedUrlObservation.feed_guid o)) eqn:Eh; [|eauto].
  injection E as <-. split; [done|]. right.
  rewrite <-get_feed_exists in Eh. destruct (get_feed db _) as [f|] eqn:Ef; [|done].
  exists url, f. split_and!; [done..|]. apply elem_of_app. left.
  unfold observed_urls. apply list_elem_of_fmap. exists (url, o). split; [done|].
  apply elem_of_list_filter. split; [apply String.eqb_refl|]. by apply elem_of_map_to_list.
Qed.

(** *** Rows *)

(** The feed that an item names: the one it resolves to, or the declared. *)
Definition names (db : Db) (item : FeedRemoteItemRaw) : string :=
  unwrap_or (FeedRemoteItemRaw.remote_feed_guid item) (resolution_feed_guid (resolve_item db item)).

(** The item of the named publisher that lists [guid], and the item of the
    named album that names [guid]. *)
Definition listed_back (db : Db) (guid : string) (item : FeedRemoteItemRaw) :
    option FeedRemoteItemRaw :=
  publisher ← resolution_feed_guid (resolve_item db item);
  matching_item db guid (List.filter is_music_item (remote_items db publisher)).

Definition named_back (db : Db) (guid : string) (item : FeedRemoteItemRaw) :
    option FeedRemoteItemRaw :=
  album ← resolution_feed_guid (resolve_item db item);
  matching_item db guid (List.filter is_publisher_link (remote_items db album)).

Definition publisher_row (db : Db) (f : Feed) (item : FeedRemoteItemRaw)
    (row : PublisherResponse) : Prop :=
  PublisherResponse.direction row = "music_to_publisher"%string
  ∧ PublisherResponse.publisher_feed_guid row = names db item
  ∧ PublisherResponse.music_feed_guid row = Feed.feed_guid f
  ∧ PublisherResponse.two_way_validated row = is_some (listed_back db (Feed.feed_guid f) item)
  ∧ PublisherResponse.music_rel row = FeedRemoteItemRaw.rel item
  ∧ PublisherResponse.publisher_rel row
    = (listed_back db (Feed.feed_guid f) item ≫= FeedRemoteItemRaw.rel).

Definition music_row (db : Db) (f : Feed) (item : FeedRemoteItemRaw)
    (row : PublisherResponse) : Prop :=
  PublisherResponse.direction row = "publisher_to_music"%string
  ∧ PublisherResponse.music_feed_guid row = names db item
  ∧ PublisherResponse.publisher_feed_guid row = Feed.feed_guid f
  ∧ PublisherResponse.two_way_validated row = is_some (named_back db (Feed.feed_guid f) item)
  ∧ PublisherResponse.publisher_rel row = FeedRemoteItemRaw.rel item
  ∧ PublisherResponse.music_rel row
    = (named_back db (Feed.feed_guid f) item ≫= FeedRemoteItemRaw.rel)
  ∧ PublisherResponse.publisher_link_resolution row = resolution_kind (resolve_item db item).

Lemma resolved_or_declared_guid db item :
  (resolved_or_declared db (resolve_item db item) (FeedRemoteItemRaw.remote_feed_guid item)
     (FeedRemoteItemRaw.remote_feed_url item)).1 = names db item.
Proof using Type.
  unfold resolved_or_declared, names. by destruct (resolution_feed_guid _).
Qed.

Lemma build_to_publisher db f items item :
  FeedRemoteItemRaw.medium item = Some "publisher"%string →
  ∃ row, build_publisher_row db f items (row_item item) = Some row ∧ publisher_row db f item row.
Proof using Type.
  intros Hm. unfold build_publisher_row. cbn [row_item PublisherRowItem.medium].
  rewrite Hm. cbn [publisher_direction]. unfold publisher_direction.
  rewrite bool_decide_eq_true_2 by done. cbn [mbind option_bind String.eqb Ascii.eqb Bool.eqb].
  cbn beta iota zeta. unfold music_to_publisher_facts.
  cbn [PublisherRowItem.remote_feed_guid PublisherRowItem.remote_feed_url row_item].
  fold (resolve_item db item).
  pose proof (resolved_or_declared_guid db item) as Hn.
  destruct (resolved_or_declared _ _ _ _) as [pg pu]. cbn in Hn. subst pg.
  destruct (resolve_role _ _) as [role src].
  eexists. split; [done|]. unfold publisher_row, listed_back. cbn. by split_and!.
Qed.

Lemma build_to_music db f items item :
  FeedRemoteItemRaw.medium item = Some "music"%string →
  ∃ row, build_publisher_row db f items (row_item item) = Some row ∧ music_row db f item row.
Proof using Type.
  intros Hm. unfold build_publisher_row. cbn [row_item PublisherRowItem.medium].
  rewrite Hm. unfold publisher_direction.
  rewrite bool_decide_eq_false_2 by done. rewrite bool_decide_eq_true_2 by done.
  cbn [mbind option_bind String.eqb Ascii.eqb Bool.eqb].
  cbn beta iota zeta. unfold publisher_to_music_facts.
  cbn [PublisherRowItem.remote_feed_guid PublisherRowItem.remote_feed_url row_item].
  fold (resolve_item db item).
  pose proof (resolved_or_declared_guid db item) as Hn.
  destruct (resolved_or_declared _ _ _ _) as [pg pu]. cbn in Hn. subst pg.
  destruct (resolve_role _ _) as [role src].
  eexists. split; [done|]. unfold music_row, named_back. cbn.
  destruct (resolution_feed_guid (resolve_item db item)) as [a|]; cbn;
    rewrite ?andb_true_r; by split_and!.
Qed.

Lemma elem_of_load_publisher db g row :
  row ∈ load_publisher db g ↔
  ∃ f item, get_feed db g = Some f ∧ item ∈ remote_items db g ∧ is_bare_publisher item = false
    ∧ build_publisher_row db f (remote_items db g) (row_item item) = Some row.
Proof using Type.
  unfold load_publisher. destruct (get_feed db g) as [f|].
  - rewrite list_elem_of_omap. split.
    + intros (item & [Hb Hi]%elem_of_list_filter & E). apply negb_true_iff in Hb.
      by exists f, item.
    + intros (f' & item & [= <-] & Hi & Hb & E). exists item. split; [|done].
      apply elem_of_list_filter. by rewrite Hb.
  - split; [by intros ?%not_elem_of_nil|]. by intros (f & ? & ? & _).
Qed.

Lemma publisher_link_not_bare item : is_publisher_link item = true →
  is_bare_publisher item = false ∧ FeedRemoteItemRaw.medium item = Some "publisher"%string.
Proof using Type.
  unfold is_publisher_link, is_bare_publisher. intros [Hm Hs]%andb_true_iff.
  rewrite Hs, andb_false_r. by apply bool_decide_eq_true in Hm.
Qed.

Lemma music_item_not_bare item : is_music_item item = true →
  is_bare_publisher item = false ∧ FeedRemoteItemRaw.medium item = Some "music"%string.
Proof using Type.
  unfold is_music_item, is_bare_publisher. intros Hm%bool_decide_eq_true. by rewrite Hm.
Qed.

(** The rows of the view, by their direction. *)
Lemma publisher_rows db g f row :
  get_feed db g = Some f →
  row ∈ load_publisher db g ∧ PublisherResponse.direction row = "music_to_publisher"%string →
  ∃ item, item ∈ remote_items db g ∧ is_publisher_link item = true ∧ publisher_row db f item row.
Proof using Type.
  intros Hf [(f' & item & Hf' & Hi & Hb & E)%elem_of_load_publisher Hd].
  rewrite Hf in Hf'. injection Hf' as <-. exists item. split; [done|].
  destruct (publisher_direction (FeedRemoteItemRaw.medium item)) as [d|] eqn:Ed;
    [|by unfold build_publisher_row in E; cbn [row_item PublisherRowItem.medium] in E; rewrite Ed in E].
  unfold publisher_direction in Ed.
  destruct (bool_decide (_ = Some "publisher"%string)) eqn:Em.
  - apply bool_decide_eq_true in Em. split.
    + unfold is_publisher_link, is_bare_publisher in *. rewrite Em in *.
      rewrite bool_decide_eq_true_2 in * by done. by apply negb_false_iff in Hb.
    + destruct (build_to_publisher db f (remote_items db g) item Em) as (r & Er & Hr).
      rewrite E in Er. by injection Er as <-.
  - destruct (bool_decide (_ = Some "music"%string)) eqn:Em2; [|done].
    apply bool_decide_eq_true in Em2.
    destruct (build_to_music db f (remote_items db g) item Em2) as (r & Er & Hr).
    rewrite E in Er. injection Er as <-. destruct Hr as [Hr _]. congruence.
Qed.

Lemma music_rows db g f row :
  get_feed db g = Some f →
  row ∈ load_publisher db g ∧ PublisherResponse.direction row = "publisher_to_music"%string →
  ∃ item, item ∈ remote_items db g ∧ is_music_item item = true ∧ music_row db f item row.
Proof using Type.
  intros Hf [(f' & item & Hf' & Hi & Hb & E)%elem_of_load_publisher Hd].
  rewrite Hf in Hf'. injection Hf' as <-. exists item. split; [done|].
  destruct (publisher_direction (FeedRemoteItemRaw.medium item)) as [d|] eqn:Ed;
    [|by unfold build_publisher_row in E; cbn [row_item PublisherRowItem.medium] in E; rewrite Ed in E].
  unfold publisher_direction in Ed.
  destruct (bool_decide (_ = Some "publisher"%string)) eqn:Em.
  - apply bool_decide_eq_true in Em.
    destruct (build_to_publisher db f (remote_items db g) item Em) as (r & Er & Hr).
    rewrite E in Er. injection Er as <-. destruct Hr as [Hr _]. congruence.
  - destruct (bool_decide (_ = Some "music"%string)) eqn:Em2; [|done].
    unfold is_music_item. split; [done|]. apply bool_decide_eq_true in Em2.
    destruct (build_to_music db f (remote_items db g) item Em2) as (r & Er & Hr).
    rewrite E in Er. by injection Er as <-.
Qed.

Lemma link_row db g f item :
  get_feed db g = Some f → item ∈ remote_items db g → is_publisher_link item = true →
  ∃ row, row ∈ load_publisher db g ∧ publisher_row db f item row.
Proof using Type.
  intros Hf Hi Hl. destruct (publisher_link_not_bare item Hl) as [Hb Hm].
  destruct (build_to_publisher db f (remote_items db g) item Hm) as (row & E & Hr).
  exists row. split; [|done]. apply elem_of_load_publisher. by exists f, item.
Qed.

Lemma listing_row db g f item :
  get_feed db g = Some f → item ∈ remote_items db g → is_music_item item = true →
  ∃ row, row ∈ load_publisher db g ∧ music_row db f item row.
Proof using Type.
  intros Hf Hi Hl. destruct (music_item_not_bare item Hl) as [Hb Hm].
  destruct (build_to_music db f (remote_items db g) item Hm) as (row & E & Hr).
  exists row. split; [|done]. apply elem_of_load_publisher. by exists f, item.
Qed.

(** *** The first item that resolves to a feed *)

Lemma matching_item_some db g items c :
  matching_item db g items = Some c →
  c ∈ items ∧ resolution_feed_guid (resolve_item db c) = Some g.
Proof using Type.
  intros [Hc Hr%bool_decide_eq_true]%List.find_some. by rewrite list_elem_of_In.
Qed.

Lemma matching_item_exists db g items c :
  c ∈ items → resolution_feed_guid (resolve_item db c) = Some g →
  is_some (matching_item db g items) = true.
Proof using Type.
  intros Hc Hr. unfold matching_item. destruct (List.find _ _) eqn:E; [done|].
  apply list_elem_of_In in Hc. pose proof (List.find_none _ _ E c Hc) as Hn. cbn in Hn.
  by rewrite bool_decide_eq_true_2 in Hn.
Qed.
End props.

(** C13: a link is two-way from both sides or from none. The view of a
    publisher feed has a two-way row for an album exactly when the view of
    the album has a two-way row for the publisher feed, whichever GUIDs and
    URLs the two sides declare. *)
Theorem two_way_symmetric `{Web} db p a :
  catalog_ok db →
  (∃ row, row ∈ load_publisher db p ∧ PublisherResponse.direction row = "publisher_to_music"%string
     ∧ PublisherResponse.music_feed_guid row = a
     ∧ PublisherResponse.two_way_validated row = true)
  ↔ (∃ row, row ∈ load_publisher db a ∧ PublisherResponse.direction row = "music_to_publisher"%string
     ∧ PublisherResponse.publisher_feed_guid row = p
     ∧ PublisherResponse.two_way_validated row = true).
Proof.
  intros Hok. pose proof Hok as (Hg & _). split.
  - intros (row & Hin & Hd & Hm & Ht).
    pose proof Hin as (fp & _ & Hfp & _)%elem_of_load_publisher.
    destruct (music_rows db p fp row Hfp (conj Hin Hd)) as (i & Hi & Hmus & _ & Hn & _ & Htw & _).
    rewrite Ht in Htw. symmetry in Htw.
    assert (Feed.feed_guid fp = p) as Hp.
    { unfold get_feed in Hfp. destruct (feeds db !! p) as [r|] eqn:Er; [|done].
      injection Hfp as <-. by apply Hg. }
    unfold named_back in Htw. unfold names in Hn.
    destruct (resolution_feed_guid (resolve_item db i)) as [al|] eqn:Er; [|done].
    cbn in Htw, Hn. rewrite Hm in Hn. subst al.
    destruct (matching_item _ _ _) as [c|] eqn:Ec; [|done].
    apply matching_item_some in Ec as [[Hl Hc]%elem_of_list_filter Hrc]. rewrite Hp in Hrc.
    destruct (resolved_held db _ _ _ Hok Er) as [Hex _].
    rewrite <-get_feed_exists in Hex. destruct (get_feed db a) as [fa|] eqn:Efa; [|done].
    destruct (link_row db a fa c Efa Hc Hl) as (row' & Hin' & Hd' & Hp' & _ & Ht' & _).
    exists row'. split_and!; [done..| |].
    + rewrite Hp'. unfold names. by rewrite Hrc.
    + rewrite Ht'. unfold listed_back. rewrite Hrc. cbn.
      assert (Feed.feed_guid fa = a) as ->.
      { unfold get_feed in Efa. destruct (feeds db !! a) as [r|] eqn:Era; [|done].
        injection Efa as <-. by apply Hg. }
      apply (matching_item_exists _ _ _ i); [|done]. by apply elem_of_list_filter.
  - intros (row & Hin & Hd & Hm & Ht).
    pose proof Hin as (fa & _ & Hfa & _)%elem_of_load_publisher.
    destruct (publisher_rows db a fa row Hfa (conj Hin Hd)) as (i & Hi & Hl & _ & Hn & _ & Htw & _).
    rewrite Ht in Htw. symmetry in Htw.
    assert (Feed.feed_guid fa = a) as Ha.
    { unfold get_feed in Hfa. destruct (feeds db !! a) as [r|] eqn:Er; [|done].
      injection Hfa as <-. by apply Hg. }
    unfold listed_back in Htw. unfold names in Hn.
    destruct (resolution_feed_guid (resolve_item db i)) as [pu|] eqn:Er; [|done].
    cbn in Htw, Hn. rewrite Hm in Hn. subst pu.
    destruct (matching_item _ _ _) as [c|] eqn:Ec; [|done].
    apply matching_item_some in Ec as [[Hmus Hc]%elem_of_list_filter Hrc]. rewrite Ha in Hrc.
    destruct (resolved_held db _ _ _ Hok Er) as [Hex _].
    rewrite <-get_feed_exists in Hex. destruct (get_feed db p) as [fp|] eqn:Efp; [|done].
    destruct (listing_row db p fp c Efp Hc Hmus) as (row' & Hin' & Hd' & Hn' & _ & Ht' & _).
    exists row'. split_and!; [done..| |].
    + rewrite Hn'. unfold names. by rewrite Hrc.
    + rewrite Ht'. unfold named_back. rewrite Hrc. cbn.
      assert (Feed.feed_guid fp = p) as ->.
      { unfold get_feed in Efp. destruct (feeds db !! p) as [r|] eqn:Era; [|done].
        injection Efp as <-. by apply Hg. }
      apply (matching_item_exists _ _ _ i); [|done]. by apply elem_of_list_filter.
Qed.

Lemma elem_of_links_by_guid db g r :
  r ∈ links_by_guid db g ↔
  r ∈ feed_remote_items_raw db ∧ is_publisher_link r = true
    ∧ FeedRemoteItemRaw.remote_feed_guid r = g.
Proof.
  unfold links_by_guid. rewrite elem_of_list_filter, andb_true_iff, String.eqb_eq. tauto.
Qed.

Lemma elem_of_links_by_url db u r :
  r ∈ links_by_url db u ↔
  r ∈ feed_remote_items_raw db ∧ is_publisher_link r = true
    ∧ FeedRemoteItemRaw.remote_feed_url r = Some u.
Proof.
  unfold links_by_url. rewrite elem_of_list_filter, andb_true_iff, bool_decide_eq_true. tauto.
Qed.

Lemma elem_of_flat_map {A B} (f : A → list B) l y :
  y ∈ flat_map f l ↔ ∃ x, x ∈ l ∧ y ∈ f x.
Proof.
  rewrite list_elem_of_In, in_flat_map. split; intros (x & Hx & Hy); exists x;
    by rewrite ?list_elem_of_In in *.
Qed.

Section search.
Context `{Web}.

(** The two queries of the search find the publisher links that name [n]. *)
Lemma elem_of_naming db n g :
  catalog_ok db →
  g ∈ get_feeds_naming_feed db n ↔
  ∃ r, r ∈ feed_remote_items_raw db ∧ FeedRemoteItemRaw.feed_guid r = g
    ∧ is_publisher_link r = true ∧ names db r = n.
Proof using Type.
  intros Hok. unfold get_feeds_naming_feed.
  rewrite elem_of_dedupe, list_elem_of_fmap. setoid_rewrite elem_of_app. unfold names. split.
  - intros (r & -> & [Hr|Hr]); exists r.
    + apply elem_of_list_filter in Hr as [Hn (Hin & Hl & Hg)%elem_of_links_by_guid].
      split_and!; [done..|]. destruct (resolution_feed_guid _) as [x|]; [|done].
      by apply String.eqb_eq in Hn.
    + destruct (get_feed db n) as [f|]; [|by apply not_elem_of_nil in Hr].
      apply elem_of_flat_map in Hr as (u & _ & Hr).
      apply elem_of_list_filter in Hr as [Hn%bool_decide_eq_true (Hin & Hl & _)%elem_of_links_by_url].
      split_and!; [done..|]. by rewrite Hn.
  - intros (r & Hin & <- & Hl & Hn). exists r. split; [done|].
    destruct (resolution_feed_guid (resolve_item db r)) as [x|] eqn:Er; cbn in Hn; subst n.
    + destruct (resolved_held db _ _ _ Hok Er) as [_ [Hg|(u & f & Hu & Hf & Hurl)]].
      * left. apply elem_of_list_filter. rewrite Er. cbn. rewrite String.eqb_refl.
        split; [done|]. by apply elem_of_links_by_guid.
      * right. rewrite Hf. apply elem_of_flat_map. exists u. split; [by apply elem_of_dedupe|].
        apply elem_of_list_filter. unfold names_feed. rewrite Er, bool_decide_eq_true_2 by done.
        split; [done|]. by apply elem_of_links_by_url.
    + left. apply elem_of_list_filter. rewrite Er. split; [done|]. by apply elem_of_links_by_guid.
Qed.
End search.

(** the search for the feeds that name a feed agrees with the view. A feed
    is in the result exactly when its own view has a row, as an album, for the
    named feed. *)
Theorem naming_feed_search_exact `{Web} db n g :
  store_ok db →
  g ∈ get_feeds_naming_feed db n
  ↔ ∃ row, row ∈ load_publisher db g
      ∧ PublisherResponse.direction row = "music_to_publisher"%string
      ∧ PublisherResponse.publisher_feed_guid row = n.
Proof.
  intros [Hok Hrefs]. rewrite elem_of_naming by done. split.
  - intros (r & Hin & Hg & Hl & Hn).
    assert (feed_exists db g = true) as Hex.
    { destruct Hrefs as (_ & _ & _ & _ & _ & Hr & _). rewrite <-Hg. by apply (Hr r). }
    rewrite <-get_feed_exists in Hex. destruct (get_feed db g) as [f|] eqn:Ef; [|done].
    destruct (link_row db g f r Ef) as (row & Hrow & Hd & Hp & _); [|done|].
    + by apply elem_of_remote_items.
    + exists row. split_and!; [done..|]. by rewrite Hp.
  - intros (row & Hrow & Hd & Hp).
    pose proof Hrow as (f & _ & Hf & _)%elem_of_load_publisher.
    destruct (publisher_rows db g f row Hf (conj Hrow Hd)) as (r & Hr & Hl & _ & Hn & _).
    apply elem_of_remote_items in Hr as [Hg Hin]. exists r. split_and!; [done..|]. congruence.
Qed.

(** ** Instances at concrete inputs *)

#[local] Existing Instance plain_web.
#[local] Existing Instance sample_crates.
#[local] Open Scope string_scope.

Definition link_feed (guid url : string) (medium : string) : Feed :=
  Feed.mk guid url guid guid None None None None false None (Some "Artist") None None None 0
    None None 50 100 (Some medium) None None.

Definition link_item (feed : string) (medium target source : string) (url : option string) :
    FeedRemoteItemRaw :=
  FeedRemoteItemRaw.mk None feed 0 (Some medium) target url (Some "Artist") source None None.

(** A publisher feed that lists an album by a GUID that is not held, with the
    URL of the album, and the album, that names the publisher by its GUID. *)
Definition link_items : list FeedRemoteItemRaw :=
  [link_item "pub" "music" "old-guid" "podcast_remote_item" (Some "https://b.example/a.xml");
   link_item "album" "publisher" "pub" "podcast_publisher" None].

Definition link_db : Db :=
  set_feed_remote_items_raw link_items
    (upsert_feed (link_feed "album" "https://b.example/a.xml" "music")
       (upsert_feed (link_feed "pub" "https://a.example/p.xml" "publisher") empty_db).1).1.

Lemma link_db_ok : store_ok link_db.
Proof.
  split.
  - apply upsert_feed_ok, upsert_feed_ok. exact (proj1 (proj1 (@empty_ok sample_crates))).
  - unfold refs_ok. split_and!; intros r Hr;
      repeat (apply elem_of_cons in Hr as [->|Hr]; [vm_compute; reflexivity|]);
      by apply not_elem_of_nil in Hr.
Qed.

Lemma two_way_symmetric_witness :
  ∃ row, row ∈ load_publisher link_db "album"
    ∧ PublisherResponse.direction row = "music_to_publisher"
    ∧ PublisherResponse.publisher_feed_guid row = "pub"
    ∧ PublisherResponse.two_way_validated row = true.
Proof.
  apply (two_way_symmetric link_db "pub" "album" (proj1 link_db_ok)).
  eexists. split; [left|]. vm_compute. auto.
Defined.

Lemma naming_feed_search_exact_witness : "album" ∈ get_feeds_naming_feed link_db "pub".
Proof.
  apply (naming_feed_search_exact link_db "pub" "album" link_db_ok).
  eexists. split; [left|]. vm_compute. auto.
Defined.
