(* ===== verification/ListingProps.v ===== *)
(** Properties of the list routes: what a client that follows the cursors
    reads. *)

From S2P Require Import Prelude.
From S2P Require Import Model.
From S2P Require Import Crates.
From S2P Require Import Store.
From S2P Require Import Tables.
From S2P Require Import Catalog.
From S2P Require Import Copies.
From S2P Require Import Sync.
From S2P Require Import Links.
From S2P Require Import Paging.
From S2P Require Import Listings.
From S2P Require Import FeedIndex.

(** ** Sorts *)

(** A predicate and a stable sort commute. *)
Lemma filter_insert_sorted {A} (le : A → A → bool) (p : A → bool) x l :
  (∀ a b c, le a b = true → le b c = true → le a c = true) →
  StronglySorted (leR le) l →
  List.filter p (insert_sorted le x l)
  = if p x then insert_sorted le x (List.filter p l) else List.filter p l.
Proof.
  intros Htr. induction l as [|y l IH]; intros Hs; cbn; [by destruct (p x)|].
  apply StronglySorted_inv in Hs as [Hs Hy]. rewrite Forall_forall in Hy.
  destruct (le x y) eqn:Exy; cbn.
  - destruct (p x) eqn:Ex; [|done]. destruct (p y) eqn:Ey; cbn; [by rewrite Exy|].
    destruct (List.filter p l) as [|z k] eqn:El; [done|]. cbn.
    assert (z ∈ List.filter p l) as [_ Hz]%elem_of_filterb by (rewrite El; left).
    by rewrite (Htr x y z Exy (Hy z Hz)).
  - rewrite IH by done. destruct (p x) eqn:Ex, (p y) eqn:Ey; cbn; by rewrite ?Exy.
Qed.

Lemma filter_sort_by {A} (le : A → A → bool) (p : A → bool) l :
  (∀ a b, le a b = true ∨ le b a = true) →
  (∀ a b c, le a b = true → le b c = true → le a c = true) →
  List.filter p (sort_by le l) = sort_by le (List.filter p l).
Proof.
  intros Hto Htr. induction l as [|x l IH]; [done|]. cbn [sort_by List.filter].
  rewrite filter_insert_sorted, IH by (done || by apply (sort_by_sorted le)).
  by destruct (p x).
Qed.

Lemma sort_by_ext_in {A} (f g : A → A → bool) l :
  (∀ a b, a ∈ l → b ∈ l → f a b = g a b) → sort_by f l = sort_by g l.
Proof.
  induction l as [|x l IH]; intros H; cbn; [done|].
  rewrite IH by (intros a b Ha Hb; apply H; by right).
  assert (∀ y, y ∈ sort_by g l → f x y = g x y) as Hx.
  { intros y Hy. rewrite sort_by_perm in Hy. apply H; [left|by right]. }
  revert Hx. generalize (sort_by g l). intros k Hx. induction k as [|y k IHk]; cbn; [done|].
  rewrite (Hx y) by left. destruct (g x y); [done|]. f_equal. apply IHk. intros z Hz. apply Hx. by right.
Qed.

(** ** Sorted lists with distinct keys *)

Section sorted.
Context {A K : Type} (before : K → K → bool) `{!StrictTotal before} (key : A → K).

Lemma not_before_total a b : negb (before b a) = true ∨ negb (before a b) = true.
Proof using StrictTotal0.
  destruct (before b a) eqn:E; [|by left]. right. destruct (before a b) eqn:E'; [|done].
  pose proof (before_trans _ _ _ E E') as H. by rewrite before_irrefl in H.
Qed.

Lemma not_before_trans a b c :
  negb (before b a) = true → negb (before c b) = true → negb (before c a) = true.
Proof using StrictTotal0.
  rewrite !negb_true_iff. intros H1 H2. destruct (before c a) eqn:E; [|done].
  destruct (before_total c b) as [H|[->|H]]; [congruence|congruence|].
  pose proof (before_trans _ _ _ E ltac:(destruct (before_total a b) as [Hab|[->|Hab]];
    [exact Hab|congruence|congruence])) as Hcb. congruence.
Qed.

(** A list sorted on its keys is in their order, when no key repeats. *)
Lemma sort_ordered l :
  NoDup (key <$> l) →
  ordered before key (sort_by (λ a b, negb (before (key b) (key a))) l).
Proof using StrictTotal0.
  intros Hn. set (le := λ a b, negb (before (key b) (key a))).
  assert (StronglySorted (leR le) (sort_by le l)) as Hs.
  { apply (sort_by_sorted le); unfold leR, le.
    - intros a b. apply not_before_total.
    - intros a b c. apply not_before_trans. }
  assert (NoDup (key <$> sort_by le l)) as Hn' by by rewrite sort_by_perm.
  revert Hs Hn'. generalize (sort_by le l). intros k.
  induction k as [|x k IH]; [constructor|]. intros [Hs Hx]%StronglySorted_inv [Hxk Hk]%NoDup_cons.
  constructor; [by apply IH|]. rewrite Forall_forall in Hx |- *. intros y Hy.
  specialize (Hx y Hy). unfold leR, le in Hx. apply negb_true_iff in Hx.
  destruct (before_total (key x) (key y)) as [H|[H|H]]; [done| |congruence].
  exfalso. apply Hxk. rewrite H. by apply list_elem_of_fmap_2.
Qed.

(** The position behind a key starts the rest. *)
Lemma drop_position l k :
  ordered before key l →
  drop (position_behind before key k l `min` length l) l = rest before key (Some k) l.
Proof using StrictTotal0.
  intros Ho. unfold position_behind, rest. cbn [is_none_or].
  destruct (list_find _ l) as [[i x]|] eqn:E.
  - pose proof E as (Hl & Hx & Hbefore)%list_find_Some.
    rewrite Nat.min_l by (apply lookup_lt_Some in Hl; lia).
    rewrite <-(take_drop i l) at 2. rewrite List.filter_app.
    rewrite filter_none, app_nil_l.
    + symmetry. apply filter_all. intros y Hy.
      rewrite (drop_S l x i Hl) in Hy. apply elem_of_cons in Hy as [->|Hy]; [done|].
      apply (before_trans _ (key x)); [done|].
      rewrite <-(take_drop i l), (drop_S l x i Hl) in Ho.
      apply StronglySorted_app in Ho as (_ & _ & [_ Ho]%StronglySorted_inv).
      rewrite Forall_forall in Ho. by apply Ho.
    + intros y [j Hj]%list_elem_of_lookup. apply not_true_iff_false.
      apply lookup_take_Some in Hj as [Hj Hlt]. by apply (Hbefore j).
  - rewrite Nat.min_id, drop_all. symmetry. apply filter_none. intros y Hy.
    apply list_find_None in E. rewrite Forall_forall in E. apply not_true_iff_false. by apply E.
Qed.

(** [partition_point] of an ordered list: the rows behind the first part. *)
Lemma drop_partition_point (pred : A → bool) l :
  ordered before key l →
  (∀ x y, before (key x) (key y) = true → pred y = true → pred x = true) →
  drop (partition_point pred l) l = List.filter (negb ∘ pred) l.
Proof using Type.
  intros Ho Hp. induction l as [|x l IH]; [done|].
  pose proof Ho as [Hl Hx]%StronglySorted_inv. rewrite Forall_forall in Hx.
  cbn [partition_point List.filter]. unfold compose at 1. destruct (pred x) eqn:E; cbn [negb].
  - cbn [drop]. by apply IH.
  - cbn [drop]. f_equal. symmetry. apply filter_all. intros y Hy. unfold compose.
    destruct (pred y) eqn:Ey; [|done]. specialize (Hp x y (Hx y Hy) Ey). congruence.
Qed.

Lemma memory_page_of encode limit start l r :
  drop (start `min` length l) l = r →
  memory_page key encode limit start l = page_of key encode id limit r.
Proof using Type.
  intros E. unfold memory_page, page_of. rewrite E, list_fmap_id. f_equal.
  unfold next_key. destruct (limit <? length r)%nat; [|done].
  by destruct (last (take limit r)).
Qed.
End sorted.

Definition with_cursor (params : ListQuery) (c : option string) : ListQuery :=
  ListQuery.mk c (ListQuery.limit params) (ListQuery.include params) (ListQuery.medium params)
    (ListQuery.stated_rel params) (ListQuery.two_way_links params) (ListQuery.from params)
    (ListQuery.artist_key params) (ListQuery.named_feed_guid params).

Lemma capped_limit_pos limit : (0 < Z.to_nat (capped_limit limit))%nat.
Proof. unfold capped_limit, clamp, LIST_LIMIT_MAX. lia. Qed.

(** Keys that a cursor can carry. *)
Definition ts_key_ok (k : Z * string) : Prop := in_i64 k.1 ∧ text_ok k.2.

#[export] Instance newest_key_first_total : StrictTotal newest_key_first.
Proof. apply descending_total, _. Qed.

#[export] Instance name_first_total : StrictTotal name_first.
Proof. unfold name_first. apply _. Qed.

#[export] Instance artist_name_first_total : StrictTotal artist_name_first.
Proof. unfold artist_name_first. apply _. Qed.

(** ** The lists in memory *)

Section in_memory.
Context `{Base64Ok}.

(** A route over [list_page] is a [ListRoute]. *)
Lemma list_page_route {A} (key : A → Z * string) (records : nat → list A) params :
  (∀ n, ordered newest_key_first key (records n)) →
  (∀ n a, a ∈ records n → ts_key_ok (key a)) →
  ListRoute newest_key_first key encode_ts_cursor ts_key_ok
    (λ n c, list_page key (with_cursor params c) (records n)) records
    (λ _ _, true) (λ _, id).
Proof using All.
  intros Ho Hg. split; [done|done|]. intros n c Hc.
  set (limit := Z.to_nat (Z.min (capped_limit (ListQuery.limit params)) SEARCH_LIMIT_MAX)).
  assert (0 < limit)%nat as Hl.
  { pose proof (capped_limit_pos (ListQuery.limit params)). unfold limit, SEARCH_LIMIT_MAX. lia. }
  assert (list_page key (with_cursor params (encode_ts_cursor <$> c)) (records n)
    = Ok (page_of key encode_ts_cursor id limit (rest newest_key_first key c (records n)))) as ->.
  { unfold list_page. cbn [with_cursor ListQuery.cursor ListQuery.limit]. fold limit.
    destruct c as [k|]; cbn [fmap option_fmap option_map].
    - destruct (Hc k eq_refl). rewrite ts_cursor_round_trip by done. cbn [rbind]. f_equal.
      apply memory_page_of. by apply (drop_position newest_key_first key).
    - cbn [rbind]. f_equal. apply memory_page_of. cbn. symmetry. by apply filter_all. }
  destruct (page_of_stretch key encode_ts_cursor id limit
    (rest newest_key_first key c (records n)) Hl) as (p & q & next & E & -> & Hn).
  by exists p, q, next.
Qed.
End in_memory.

(** *** Keys that do not repeat *)

Lemma NoDup_key {A B C} (key : A → B * C) (part : A → C) l :
  (∀ a, (key a).2 = part a) → NoDup (part <$> l) → NoDup (key <$> l).
Proof.
  intros Hk Hn. apply (NoDup_fmap_1 snd). rewrite <-list_fmap_compose.
  erewrite list_fmap_ext; [exact Hn|]. intros i a _. apply Hk.
Qed.

Lemma filter_fmap_NoDup {A B} (f : A → B) (p : A → bool) l :
  NoDup (f <$> l) → NoDup (f <$> List.filter p l).
Proof. intros Hn. eapply sublist_NoDup; [apply sublist_fmap, filter_sublist|exact Hn]. Qed.

(** Each row of a table that is a map stands under its own key. *)
Lemma map_rows_NoDup {V} (m : gmap string V) (key : V → string) :
  (∀ k v, m !! k = Some v → key v = k) → NoDup (key <$> (snd <$> map_to_list m)).
Proof.
  intros Hk. rewrite <-list_fmap_compose.
  erewrite (list_fmap_ext _ fst); [apply NoDup_fst_map_to_list|].
  intros i [k v] Hi. cbn. apply Hk, elem_of_map_to_list.
  by eapply list_elem_of_lookup_2.
Qed.

Definition guid_changes_keyed (db : Db) : Prop :=
  ∀ u row, feed_guid_changes db !! u = Some row → GuidChangeRow.source_url row = u.

Lemma guid_change_records_ordered db :
  guid_changes_keyed db →
  ordered newest_key_first guid_change_sort_key (guid_change_records db).
Proof.
  intros Hk. apply (sort_ordered newest_key_first guid_change_sort_key).
  apply (NoDup_key _ GuidChangeResponse.source_url); [done|].
  rewrite <-list_fmap_compose. unfold list_guid_changes. rewrite sort_by_perm.
  apply filter_fmap_NoDup. by apply (map_rows_NoDup _ GuidChangeRow.source_url).
Qed.

Lemma omap_key_sublist {A B K} (f : A → option B) (ka : A → K) (kb : B → K) l :
  (∀ a b, f a = Some b → kb b = ka a) → sublist (kb <$> omap f l) (ka <$> l).
Proof.
  intros Hf. induction l as [|a l IH]; [constructor|]. cbn.
  destruct (f a) as [b|] eqn:E; [|by constructor]. rewrite fmap_cons, (Hf a b E). by constructor.
Qed.

Lemma omap_key_NoDup {A B} (f : A → option B) (key : B → A) l :
  (∀ a b, f a = Some b → key b = a) → NoDup l → NoDup (key <$> omap f l).
Proof.
  intros Hf Hl. eapply sublist_NoDup; [by apply (omap_key_sublist f id)|]. by rewrite list_fmap_id.
Qed.

Lemma copy_record_guid `{Web} db g r : copy_record db g = Some r → CopyRecordResponse.feed_guid r = g.
Proof.
  unfold copy_record. destruct (open_copy_summary db g) as [n s].
  destruct (_ && _); [done|]. destruct (get_feed db g); [|done]. by intros [= <-].
Qed.

Lemma copy_records_ordered `{Web} db : ordered newest_key_first copy_record_sort_key (copy_records db).
Proof.
  apply (sort_ordered newest_key_first copy_record_sort_key).
  apply (NoDup_key _ CopyRecordResponse.feed_guid); [done|].
  apply omap_key_NoDup; [apply copy_record_guid|].
  pose proof (dedupe_by_NoDup id ((fst ∘ fst) <$> map_to_list (feed_copies db))) as Hn.
  by rewrite list_fmap_id in Hn.
Qed.

Lemma all_feeds_NoDup db : catalog_ok db → NoDup (Feed.feed_guid <$> all_feeds db).
Proof.
  intros (Hg & _). unfold all_feeds. rewrite <-list_fmap_compose.
  erewrite (list_fmap_ext _ fst); [apply NoDup_fst_map_to_list|].
  intros i [k row] Hi. cbn. apply Hg, elem_of_map_to_list. by eapply list_elem_of_lookup_2.
Qed.

Lemma recent_feeds_ordered db m gs :
  catalog_ok db → ordered newest_key_first recent_key (recent_feeds db m gs).
Proof.
  intros Hok. apply (sort_ordered newest_key_first recent_key).
  apply (NoDup_key _ Feed.feed_guid); [done|]. by apply filter_fmap_NoDup, all_feeds_NoDup.
Qed.

Lemma named_feeds_ordered `{Crates} db m gs :
  catalog_ok db → ordered name_first name_key (named_feeds db m gs).
Proof.
  intros Hok. apply (sort_ordered name_first name_key).
  apply (NoDup_key _ Feed.feed_guid); [done|]. by apply filter_fmap_NoDup, all_feeds_NoDup.
Qed.

Lemma elem_of_recent_feeds db m gs f :
  f ∈ recent_feeds db m gs ↔ f ∈ all_feeds db ∧ of_medium m f = true ∧ in_guids gs f = true.
Proof.
  unfold recent_feeds. rewrite sort_by_perm, elem_of_filterb, andb_true_iff. tauto.
Qed.

(** ** The filtered scan *)

Section scan.
Context `{Crates} `{Web} (db : Db) (medium : string) (limit : nat) (filter : LinkFactFilter).
Context (Hlimit : (0 < limit)%nat).

#[local] Abbreviation keeps := (List.filter (keeps_feed db filter)).

(** What the loop may return of the rows [l] that it had ahead of it. *)
Definition scanned_ok (l : list Feed) (r : Scanned) : Prop :=
  ∃ p q, l = p ++ q ∧ r.1.1 = keeps p
    ∧ if r.1.2 then ∃ p' a, p = p' ++ [a] ∧ r.2 = Some (recent_key a) else q = [].

(** The variables after the rows [w]. *)
Definition scan_at (after : option (Z * string)) (w : list Feed) (s : Scan) : Prop :=
  Scan.kept s = keeps w ∧ Scan.examined s = length w ∧ (length (Scan.kept s) ≤ limit)%nat
  ∧ Scan.after s = match last w with Some a => Some (recent_key a) | None => after end.

(** The last kept row, and the rows up to it. *)
Lemma last_kept w :
  (0 < length (keeps w))%nat →
  ∃ p a t, w = p ++ a :: t ∧ keeps w = keeps (p ++ [a]) ∧ last (keeps w) = Some a.
Proof using Type.
  clear Hlimit limit. induction w as [|b w IH] using rev_ind; [cbn; lia|]. rewrite List.filter_app. cbn.
  destruct (keeps_feed db filter b) eqn:E; intros Hl.
  - exists w, b, []. rewrite List.filter_app. cbn. rewrite E. by rewrite last_snoc.
  - rewrite app_nil_r in *. destruct (IH Hl) as (p & a & t & -> & Hk & Ha).
    exists p, a, (t ++ [b]). by rewrite <-app_assoc.
Qed.

Lemma scan_batch_spec after b : ∀ w s,
  scan_at after w s →
  match scan_batch db limit filter b s with
  | inr s' => scan_at after (w ++ b) s' ∧ (b = [] ∨ (length (w ++ b) < LINK_FACT_FILTER_SCAN_MAX)%nat)
  | inl r => ∀ t, scanned_ok (w ++ b ++ t) r
  end.
Proof using Hlimit.
  induction b as [|row b IH]; intros w s (Hk & He & Hl & Ha).
  { cbn. rewrite app_nil_r. by repeat split; auto. }
  cbn [scan_batch]. set (kept := if keeps_feed db filter row then Scan.kept s ++ [row] else Scan.kept s).
  assert (kept = keeps (w ++ [row])) as Hkept.
  { unfold kept. rewrite List.filter_app, Hk. cbn.
    destruct (keeps_feed db filter row); by rewrite ?app_nil_r. }
  destruct (keeps_feed db filter row && (limit <? length kept)%nat) eqn:Eover.
  - apply andb_true_iff in Eover as [Er Elen%Nat.ltb_lt]. intros t.
    assert (take limit kept = keeps w) as Htake.
    { unfold kept in *. rewrite Er in *. rewrite length_app in Elen. cbn in Elen. rewrite Hk in *.
      rewrite take_app_le by lia. apply take_ge. lia. }
    rewrite Htake. destruct (last_kept w) as (p & a & u & Hw & Hkw & Hla).
    { unfold kept in Elen. rewrite Er, length_app in Elen. cbn in Elen. rewrite <-Hk. lia. }
    exists (p ++ [a]), (u ++ (row :: b) ++ t). cbn [fst snd]. split_and!.
    + by rewrite Hw, <-!app_assoc.
    + done.
    + exists p, a. by rewrite Hla.
  - assert (scan_at after (w ++ [row])
      (Scan.mk kept (S (Scan.examined s)) (Some (recent_key row)))) as Hs.
    { split_and!; cbn.
      - done.
      - rewrite length_app, He. cbn. lia.
      - destruct (keeps_feed db filter row) eqn:Er; [|done]. cbn in Eover.
        by apply Nat.ltb_ge in Eover.
      - by rewrite last_snoc. }
    destruct (LINK_FACT_FILTER_SCAN_MAX <=? S (Scan.examined s))%nat eqn:Emax.
    + intros t. exists (w ++ [row]), (b ++ t). cbn [fst snd]. split_and!; [|done|].
      * by rewrite <-app_assoc.
      * by exists w, row.
    + apply Nat.leb_gt in Emax. specialize (IH _ _ Hs).
      destruct (scan_batch db limit filter b _) as [r|s'].
      * intros t. specialize (IH t). by rewrite <-app_assoc in IH.
      * rewrite <-app_assoc in IH. destruct IH as [IH Hmax]. split; [done|]. right.
        destruct Hmax as [->|Hmax]; [|done]. rewrite length_app. cbn. lia.
Qed.

Context (Hok : catalog_ok db).

(** The rows of the list after the position [after]. *)
#[local] Abbreviation ahead after := (rest newest_key_first recent_key after (recent_feeds db medium None)).

Lemma scan_loop_spec after fuel : ∀ w s,
  scan_at after w s →
  ahead after = w ++ ahead (Scan.after s) →
  (length w < LINK_FACT_FILTER_SCAN_MAX)%nat →
  (LINK_FACT_FILTER_SCAN_MAX ≤ length w + LINK_FACT_FILTER_BATCH * fuel)%nat →
  scanned_ok (ahead after) (scan_loop fuel db medium limit filter s).
Proof using Hlimit Hok.
  induction fuel as [|fuel IH]; intros w s Hs Hw Hlt Hfuel; [lia|]. cbn [scan_loop].
  unfold recent_feed_rows. set (r := ahead (Scan.after s)) in *.
  set (b := take LINK_FACT_FILTER_BATCH r).
  pose proof (scan_batch_spec after b w s Hs) as Hb.
  assert (ahead after = w ++ b ++ drop LINK_FACT_FILTER_BATCH r) as Hsplit
    by (unfold b; by rewrite take_drop).
  destruct (scan_batch db limit filter b s) as [res|s'].
  { rewrite Hsplit. apply Hb. }
  destruct Hb as [Hs' Hmax].
  destruct (length b <? LINK_FACT_FILTER_BATCH)%nat eqn:Eend.
  - apply Nat.ltb_lt in Eend. exists (w ++ b), []. cbn [fst snd].
    assert (b = r) as -> by (unfold b in *; rewrite length_take in Eend; apply take_ge; lia).
    rewrite app_nil_r. split_and!; [done| |done]. by destruct Hs' as [-> _].
  - apply Nat.ltb_ge in Eend.
    assert (length b = LINK_FACT_FILTER_BATCH) as Hlen
      by (unfold b in *; rewrite length_take in *; lia).
    destruct (last b) as [a|] eqn:Ea; [|apply last_None in Ea; rewrite Ea in Hlen; done].
    apply last_Some in Ea as (b' & Eb).
    apply (IH (w ++ b)); [done| | |].
    + destruct Hs' as (_ & _ & _ & ->). rewrite Eb, app_assoc, last_snoc.
      rewrite Hsplit, Eb in |- * at 1. rewrite <-!app_assoc. cbn [app]. do 3 f_equal.
      symmetry. apply (rest_tail newest_key_first recent_key after _ (w ++ b')).
      * by apply recent_feeds_ordered.
      * rewrite Hsplit, Eb. by rewrite <-!app_assoc.
    + destruct Hmax as [Hmax|Hmax]; [by rewrite Hmax in Hlen|done].
    + rewrite length_app, Hlen. lia.
Qed.

(** The scan ends within [scan_fuel] batches, with the kept rows of a stretch
    of the list and the position of its last row. *)
Lemma filtered_scan after :
  scanned_ok (ahead after) (filtered_recent_rows db medium after limit filter).
Proof using Hlimit Hok.
  unfold filtered_recent_rows. apply (scan_loop_spec after scan_fuel []).
  - unfold scan_at. cbn. split_and!; [done|done|lia|done].
  - done.
  - vm_compute. lia.
  - vm_compute. lia.
Qed.
End scan.

(** ** The recent feeds *)

Section recent.
Context `{Crates} `{Web} `{Base64Ok}.
Context (params : ListQuery) (filter : option LinkFactFilter).

(** The rows that a request is about, in order, which of them it keeps, and
    how it shows them. *)
Definition recent_rows (db : Db) : list Feed :=
  recent_feeds db (request_medium params)
    (get_feeds_naming_feed db <$> ListQuery.named_feed_guid params).

Definition recent_keep (db : Db) (f : Feed) : bool :=
  match filter with Some filter => keeps_feed db filter f | None => true end.

Definition recent_show (db : Db) (f : Feed) : FeedListItem :=
  feed_list_row_to_response db f (includes params "link_facts" || is_some filter)
    (includes params "named_feeds").

(** The checks of the parameters pass. *)
Definition recent_params_ok : Prop :=
  check_named_feed_guid params (request_medium params) = Ok tt
  ∧ filter_from_params params (request_medium params) = Ok filter.

(** The keys of the feeds fit a cursor. *)
Definition recent_keys_ok (db : Db) : Prop := ∀ f, f ∈ all_feeds db → ts_key_ok (recent_key f).

Lemma filter_no_guids fl :
  recent_params_ok → filter = Some fl → ListQuery.named_feed_guid params = None.
Proof using Type.
  intros [Hc Hf] ->. unfold check_named_feed_guid in Hc. unfold filter_from_params in Hf.
  destruct (ListQuery.named_feed_guid params) as [g|]; [|done]. cbn in Hc.
  destruct (request_medium params =s "music") eqn:Em; [|done].
  apply String.eqb_eq in Em. rewrite Em in Hf. by destruct (_ && _).
Qed.

(** The rows of one request: a scan, or a full page. *)
Lemma recent_items db after limit :
  catalog_ok db → recent_params_ok → (0 < limit)%nat →
  ∃ p q next, rest newest_key_first recent_key after (recent_rows db) = p ++ q
    ∧ match next with Some k => ∃ p' a, p = p' ++ [a] ∧ k = recent_key a | None => q = [] end
    ∧ ∃ nx, (match filter with
       | Some filter => filtered_recent_rows db (request_medium params) after limit filter
       | None =>
           let rows := recent_feed_rows db (request_medium params) after
             (get_feeds_naming_feed db <$> ListQuery.named_feed_guid params) (limit + 1) in
           (take limit rows, (limit <? length rows)%nat, recent_key <$> last (take limit rows))
       end) = (List.filter (recent_keep db) p, is_some next, nx)
      ∧ (if is_some next then nx = next else True).
Proof using Type.
  intros Hok Hp Hl. unfold recent_keep, recent_rows. destruct filter as [fl|] eqn:Ef.
  - rewrite (filter_no_guids fl) by done. cbn [fmap option_fmap option_map].
    destruct (filtered_scan db (request_medium params) limit fl Hl Hok after)
      as (p & q & E & Hk & Hn).
    destruct (filtered_recent_rows _ _ _ _ _) as [[k m] nx]. cbn [fst snd] in Hk, Hn. subst k.
    destruct m.
    + destruct Hn as (p' & a & -> & ->). exists (p' ++ [a]), q, (Some (recent_key a)).
      split_and!; [done|by exists p', a|]. by eexists.
    + subst q. exists p, [], None. split_and!; [done|done|]. by eexists.
  - unfold recent_feed_rows. set (r := rest _ _ _ _).
    assert (take limit (take (limit + 1) r) = take limit r) as Ht
      by (rewrite take_take; f_equal; lia).
    assert ((limit <? length (take (limit + 1) r))%nat = (limit <? length r)%nat) as Hlen.
    { rewrite length_take. destruct (limit <? length r)%nat eqn:E.
      - apply Nat.ltb_lt in E. apply Nat.ltb_lt. lia.
      - apply Nat.ltb_ge in E. apply Nat.ltb_ge. lia. }
    cbn zeta. rewrite Ht, Hlen.
    destruct (page_of_stretch recent_key (λ _, ""%string) id limit r Hl)
      as (p & q & next & E & Hpage & Hn).
    unfold page_of in Hpage. rewrite !list_fmap_id in Hpage. injection Hpage as Hd Hc Hm.
    exists p, q, next. split_and!; [done|done|]. exists (recent_key <$> last (take limit r)).
    rewrite Hd, Hm. split; [done|]. destruct next as [k|]; [|done]. cbn.
    destruct Hn as (p' & a & -> & ->). rewrite <-Hd, Hd, (filter_all (λ _, true)) by done.
    by rewrite last_snoc.
Qed.

Lemma recent_route dbs :
  recent_params_ok →
  (∀ n, catalog_ok (dbs n) ∧ recent_keys_ok (dbs n)) →
  ListRoute newest_key_first recent_key encode_ts_cursor ts_key_ok
    (λ n c, handle_get_recent_feeds (dbs n) (with_cursor params c))
    (λ n, recent_rows (dbs n)) (λ n, recent_keep (dbs n)) (λ n, recent_show (dbs n)).
Proof using All.
  intros Hp Hdb. split.
  - intros n. by apply recent_feeds_ordered, Hdb.
  - intros n f Hf. apply (proj2 (Hdb n)). by apply elem_of_recent_feeds in Hf as [? _].
  - intros n c Hc.
    destruct (recent_items (dbs n) c (Z.to_nat (capped_limit (ListQuery.limit params)))
      (proj1 (Hdb n)) Hp (capped_limit_pos _)) as (p & q & next & E & Hn & nx & Hi & Hnx).
    exists p, q, next. split_and!; [done| |done].
    unfold handle_get_recent_feeds.
    change (request_medium (with_cursor params (encode_ts_cursor <$> c))) with (request_medium params).
    change (check_named_feed_guid (with_cursor params (encode_ts_cursor <$> c)))
      with (check_named_feed_guid params).
    change (filter_from_params (with_cursor params (encode_ts_cursor <$> c)))
      with (filter_from_params params).
    destruct Hp as [-> ->]. cbn [rbind with_cursor ListQuery.cursor ListQuery.limit ListQuery.named_feed_guid].
    assert (opt_parse parse_recent_cursor (encode_ts_cursor <$> c) = Ok c) as ->.
    { destruct c as [k|]; [|done]. destruct (Hc k eq_refl). cbn [fmap option_fmap option_map opt_parse].
      by rewrite ts_cursor_round_trip. }
    cbn [rbind]. cbn zeta in Hi |- *. rewrite Hi. f_equal. f_equal.
    destruct next as [k|]; cbn in Hnx |- *; [by rewrite Hnx|done].
Qed.
End recent.
