(* ===== verification/WalkProps.v ===== *)
(** Properties of the walks over the list routes, and of the live rows. *)

From S2P Require Import Prelude.
From S2P Require Import Model.
From S2P Require Import Event.
From S2P Require Import Crates.
From S2P Require Import Store.
From S2P Require Import Tables.
From S2P Require Import RowLists.
From S2P Require Import Catalog.
From S2P Require Import Links.
From S2P Require Import Paging.
From S2P Require Import Listings.
From S2P Require Import FeedIndex.
From S2P Require Import LiveList.
From S2P Require Import ListingProps.
From S2P Require Import Samples.
From S2P Require Import LinkProps.

(** ** The live items *)

(** The kept rows of a prefix are the first [limit] kept rows. *)
Lemma filter_stretch {A} (keep : A → bool) limit l :
  (0 < limit)%nat → (limit < length (List.filter keep l))%nat →
  ∃ p a q, l = p ++ a :: q ∧ take limit (List.filter keep l) = List.filter keep (p ++ [a])
    ∧ last (take limit (List.filter keep l)) = Some a.
Proof.
  revert limit. induction l as [|x l IH]; [cbn; lia|]. intros limit Hl. cbn.
  destruct (keep x) eqn:Ex.
  - destruct limit as [|[|n]]; [lia| |]; intros Hlen.
    + exists [], x, l. cbn. by rewrite Ex.
    + destruct (IH (S n)) as (p & a & q & -> & Ht & Hla); [lia|cbn in Hlen; lia|].
      exists (x :: p), a, q. cbn. rewrite Ex. change (take (S n) ?k) with (take (S n) k).
      split_and!; [done|by rewrite <-Ht|].
      destruct (List.filter keep (p ++ a :: q)) as [|y k]; [done|]. exact Hla.
  - intros Hlen. destruct (IH limit Hl Hlen) as (p & a & q & -> & Ht & Hla).
    exists (x :: p), a, q. cbn. by rewrite Ex.
Qed.

(** The order of the table and the order of the cursor. *)
Lemma text_cols_before a b c d :
  cols_le [VText a; VText b] [VText c; VText d] = negb (name_first (c, d) (a, b)).
Proof.
  unfold name_first, pair_lt. cbn.
  assert (∀ x y, String.leb x y = negb (String.ltb y x)) as Hneg.
  { intros x y. destruct (String.ltb y x) eqn:E; cbn.
    - apply string_ltb_lt in E as [H Hn]. apply not_true_iff_false. intros H'.
      apply Hn. apply (anti_symm String.le); by apply Is_true_true.
    - destruct (String.leb x y) eqn:E'; [done|].
      destruct (String.leb_total x y) as [H|H]; [congruence|].
      destruct (decide (y = x)) as [->|Hn]; [congruence|].
      by rewrite (proj2 (string_ltb_lt y x)) in E. }
  rewrite !Hneg. destruct (decide (c = a)) as [->|Hn].
  - rewrite before_irrefl, bool_decide_eq_true_2 by done. cbn.
    by destruct (String.ltb d b), (String.ltb b d).
  - rewrite bool_decide_eq_false_2 by done. cbn. rewrite orb_false_r.
    destruct (before_total c a) as [H|[?|H]]; [|done|].
    + by rewrite H.
    + rewrite H. destruct (String.ltb c a) eqn:E; [|done].
      pose proof (before_trans a c a H E) as Ha. by rewrite before_irrefl in Ha.
Qed.

(** The rows of public feeds, in the order of their keys. *)
Definition live_rows (db : Db) : list LiveEvent := rows_of (get_live_events_after_cursor None) db.

Lemma live_rows_sorted db :
  live_rows db
  = sort_by (λ a b, negb (name_first (live_key b) (live_key a)))
      (List.filter (λ e, feed_exists db (LiveEvent.feed_guid e) && true) (live_events db)).
Proof. apply sort_by_ext. intros a b. apply text_cols_before. Qed.

Definition live_keys_distinct (db : Db) : Prop := NoDup (live_key <$> live_events db).

Lemma live_rows_ordered db :
  live_keys_distinct db → ordered name_first live_key (live_rows db).
Proof.
  intros Hn. rewrite live_rows_sorted. apply (sort_ordered name_first live_key).
  by apply filter_fmap_NoDup.
Qed.

Lemma live_rows_after db c :
  rows_of (get_live_events_after_cursor c) db = rest name_first live_key c (live_rows db).
Proof.
  rewrite live_rows_sorted. unfold rest. rewrite filter_sort_by.
  - unfold get_live_events_after_cursor, rows_of, query. cbn. unfold order_by.
    rewrite (sort_by_ext _ (λ a b, negb (name_first (live_key b) (live_key a))))
      by (intros a b; apply text_cols_before).
    f_equal. induction (live_events db) as [|e l IH]; [done|]. cbn. rewrite IH.
    destruct (feed_exists db (LiveEvent.feed_guid e)); [|done]. cbn.
    destruct c as [[g t]|]; [|done]. cbn [after_cursor is_none_or].
    by rewrite text_cols_before, negb_involutive.
  - intros a b. apply (not_before_total name_first).
  - intros a b c'. apply (not_before_trans name_first).
Qed.

Definition with_live_cursor (params : LiveItemsQuery) (c : option string) : LiveItemsQuery :=
  LiveItemsQuery.mk (LiveItemsQuery.view params) (LiveItemsQuery.status params)
    (LiveItemsQuery.live_value params) (LiveItemsQuery.ends_after params)
    (LiveItemsQuery.starts_after params) c (LiveItemsQuery.limit params).

(** A key that a cursor of two texts can carry. *)
Definition pair_key_ok (k : string * string) : Prop := plain_text k.1 ∧ text_ok k.2.

Lemma live_route `{Web} `{Base64Ok} params filters hosts dbs now :
  validate_live_items_query params = Ok filters →
  (∀ n, live_keys_distinct (dbs n)
        ∧ ∀ e, e ∈ live_events (dbs n) → pair_key_ok (live_key e)) →
  ListRoute name_first live_key encode_pair_cursor pair_key_ok
    (λ n c, list_live_items (dbs n) (with_live_cursor params c) (now n) hosts)
    (λ n, live_rows (dbs n)) (λ n e, live_event_matches e filters (now n) hosts)
    (λ n e, live_item_list_response (dbs n) e hosts (now n)).
Proof.
  intros Hv Hdb. split.
  - intros n. by apply live_rows_ordered, Hdb.
  - intros n e He. apply (proj2 (Hdb n)). rewrite live_rows_sorted, sort_by_perm in He.
    by apply elem_of_filterb in He as [_ He].
  - intros n c Hc. set (limit := Z.to_nat (capped_limit (LiveItemsQuery.limit params))).
    assert (0 < limit)%nat as Hl by apply capped_limit_pos.
    set (r := rest name_first live_key c (live_rows (dbs n))).
    set (keep := λ e, live_event_matches e filters (now n) hosts).
    assert (list_live_items (dbs n) (with_live_cursor params (encode_pair_cursor <$> c)) (now n) hosts
      = Ok (QueryResponse.mk
          ((λ e, live_item_list_response (dbs n) e hosts (now n)) <$> take limit (List.filter keep r))
          (if (limit <? length (List.filter keep r))%nat
           then (encode_pair_cursor ∘ live_key) <$> last (take limit (List.filter keep r)) else None)
          (limit <? length (List.filter keep r))%nat)) as ->.
    { unfold list_live_items.
      change (validate_live_items_query (with_live_cursor params (encode_pair_cursor <$> c)))
        with (validate_live_items_query params).
      rewrite Hv. cbn [rbind with_live_cursor LiveItemsQuery.cursor LiveItemsQuery.limit].
      unfold r. rewrite <-live_rows_after. fold limit.
      destruct c as [k|]; cbn [fmap option_fmap option_map]; [|done].
      destruct (Hc k eq_refl). by rewrite pair_cursor_round_trip. }
    destruct (limit <? length (List.filter keep r))%nat eqn:E.
    + apply Nat.ltb_lt in E. destruct (filter_stretch keep limit r Hl E) as (p & a & q & Hr & Ht & Hla).
      exists (p ++ [a]), q, (Some (live_key a)). split_and!.
      * by rewrite Hr, <-app_assoc.
      * by rewrite Hla, Ht.
      * by exists p, a.
    + apply Nat.ltb_ge in E. exists r, [], None. rewrite app_nil_r.
      split_and!; [done| |done]. by rewrite take_ge.
Qed.

(** *** The link of a live item *)

Lemma links_first g l : ∀ m : gmap string string,
  foldl (λ links link,
      match links !! SourceEntityLink.entity_id link with
      | Some _ => links
      | None => <[SourceEntityLink.entity_id link := SourceEntityLink.url link]> links
      end) m l !! g
  = match m !! g with
    | Some u => Some u
    | None => SourceEntityLink.url <$> head (List.filter (λ r, SourceEntityLink.entity_id r =s g) l)
    end.
Proof.
  induction l as [|r l IH]; intros m; cbn [foldl List.filter]; [by destruct (m !! g)|].
  rewrite IH. destruct (SourceEntityLink.entity_id r =s g) eqn:E.
  - apply String.eqb_eq in E. subst g.
    destruct (m !! SourceEntityLink.entity_id r) eqn:Em; [by rewrite Em|].
    by rewrite lookup_insert_eq.
  - apply String.eqb_neq in E.
    destruct (m !! SourceEntityLink.entity_id r) eqn:Em; [done|]. by rewrite lookup_insert_ne.
Qed.

Lemma find_head {A} (f : A → bool) l : List.find f l = head (List.filter f l).
Proof. induction l as [|x l IH]; [done|]. cbn. by destruct (f x). Qed.

Lemma filter_filter {A} (f g : A → bool) l :
  List.filter f (List.filter g l) = List.filter (λ x, f x && g x) l.
Proof.
  induction l as [|x l IH]; [done|]. cbn. destruct (g x) eqn:Eg; cbn; rewrite IH.
  - by destruct (f x).
  - by rewrite andb_false_r.
Qed.

Lemma same_text_cols x a b : cols_le (VText x :: a) (VText x :: b) = cols_le a b.
Proof.
  cbn. pose proof (String.leb_total x x) as [H|H]; by rewrite !H.
Qed.

(** The two reads of the link of a live item give the same. *)
Lemma live_links_agree db f g :
  live_item_links_for_feed db f !! g = live_item_link_for_feed_item db f g.
Proof.
  unfold live_item_links_for_feed. rewrite links_first, lookup_empty.
  unfold live_item_link_for_feed_item. rewrite find_head. f_equal. f_equal.
  unfold get_source_entity_links_for_feed, rows_of, query. cbn [snd].
  unfold get_source_entity_links_for_feed_entity, order_by.
  rewrite !filter_sort_by by (intros; apply cols_le_total || by eapply cols_le_trans).
  rewrite !filter_filter.
  rewrite (sort_by_ext_in _ (λ a b,
    cols_le [VInt (SourceEntityLink.position a); VText (SourceEntityLink.link_type a);
             VText (SourceEntityLink.url a)]
      [VInt (SourceEntityLink.position b); VText (SourceEntityLink.link_type b);
             VText (SourceEntityLink.url b)])).
  - f_equal. induction (source_entity_links db) as [|r l IH]; [done|]. cbn [List.filter].
    rewrite IH. by destruct (SourceEntityLink.entity_id r =s g), (SourceEntityLink.entity_type r =s "live_item"),
      (is_item_link r), (SourceEntityLink.feed_guid r =s f).
  - intros a b [Ha _]%elem_of_filterb [Hb _]%elem_of_filterb.
    rewrite !andb_true_iff, !String.eqb_eq in Ha, Hb.
    unfold source_entity_links_order.
    destruct Ha as [(-> & -> & _) _], Hb as [(-> & -> & _) _]. by rewrite !same_text_cols.
Qed.

(** the feed read and the list of live items show a live item in the same
    way. At one reading of the clock, the rows of a feed in the list are the
    [live_items] of its feed read. *)
Theorem live_rows_agree `{Web} db g hosts now :
  LiveItemListResponse.row <$>
    ((λ e, live_item_list_response db e hosts now)
     <$> sort_by by_item_guid (rows_of (get_live_events_for_feed g) db))
  = build_live_items_response db g hosts now.
Proof.
  unfold build_live_items_response. rewrite <-list_fmap_compose.
  apply list_fmap_ext. intros i e He.
  change (live_item_response e hosts now (live_item_link_for_feed_item db (LiveEvent.feed_guid e)
      (LiveEvent.live_item_guid e))
    = live_item_response e hosts now
        (live_item_links_for_feed db g !! LiveEvent.live_item_guid e)).
  apply list_elem_of_lookup_2 in He. rewrite sort_by_perm in He.
  unfold rows_of, get_live_events_for_feed, query in He. cbn in He.
  rewrite order_by_perm in He. apply elem_of_filterb in He as [Hg%String.eqb_eq _].
  rewrite Hg. by rewrite live_links_agree.
Qed.

(** ** Feeds by name and artist names *)

Lemma string_leb_trans a b c : String.leb a b = true → String.leb b c = true → String.leb a c = true.
Proof.
  intros H1 H2. apply Is_true_true.
  apply (transitivity (R := String.le) (y := b)); by apply Is_true_true.
Qed.

Lemma string_ltb_leb a b : String.ltb a b = negb (String.leb b a).
Proof.
  destruct (String.ltb a b) eqn:E.
  - apply string_ltb_lt in E as [H Hn]. destruct (String.leb b a) eqn:E'; [|done].
    destruct Hn. apply (anti_symm String.le); by apply Is_true_true.
  - destruct (String.leb b a) eqn:E'; [done|]. destruct (String.leb_total a b) as [H|H]; [|congruence].
    destruct (decide (a = b)) as [->|Hn]; [congruence|].
    by rewrite (proj2 (string_ltb_lt a b)) in E.
Qed.

Lemma pair_first_leb a b : name_first a b = true → String.leb a.1 b.1 = true.
Proof.
  unfold name_first, pair_lt. rewrite orb_true_iff, andb_true_iff, bool_decide_eq_true.
  intros [[H _]%string_ltb_lt|[-> _]]; [done|]. by destruct (String.leb_total b.1 b.1).
Qed.

(** The floor of a request with no cursor. *)
Definition above (floor : option string) (sort : string) : bool :=
  is_none_or (λ floor, String.leb floor sort) floor.

Lemma above_trans floor a b : above floor a = true → String.leb a b = true → above floor b = true.
Proof. destruct floor as [f|]; [|done]. apply string_leb_trans. Qed.

(** Rows above the floor; behind a row above it there are no others. *)
Lemma rest_above {A K} (before : K → K → bool) (key : A → K) (sort : A → string) floor k l :
  (∀ a, before k (key a) = true → above floor (sort a) = true) →
  rest before key (Some k) (List.filter (λ a, above floor (sort a)) l) = rest before key (Some k) l.
Proof.
  intros Hk. unfold rest. cbn [is_none_or]. induction l as [|a l IH]; [done|].
  cbn [List.filter]. destruct (above floor (sort a)) eqn:E; cbn [List.filter]; rewrite IH; [done|].
  destruct (before k (key a)) eqn:Eb; [|done]. by rewrite Hk in E.
Qed.

Section by_name.
Context `{Crates} `{Web} `{Base64Ok}.

Definition by_name_floor (params : ListQuery) : option string := sort_key <$> ListQuery.from params.

Definition by_name_key_ok (floor : option string) (k : string * string) : Prop :=
  plain_text k.1 ∧ text_ok k.2 ∧ above floor k.1 = true.

Definition by_name_rows (db : Db) (params : ListQuery) (guids : option (list string)) : list Feed :=
  List.filter (λ f, above (by_name_floor params) (title_sort f))
    (named_feeds db (request_medium params) guids).

Definition by_name_show (params : ListQuery) (db : Db) (f : Feed) : FeedListItem :=
  with_sort_name f (feed_list_row_to_response db f (includes params "link_facts")
    (includes params "named_feeds")).

Lemma by_name_route params guids now dbs caches :
  check_named_feed_guid params (request_medium params) = Ok tt →
  (∀ n, (by_name_guids (now n) (dbs n) (caches n) params (request_medium params)).2 = Ok (guids n)) →
  (∀ n, catalog_ok (dbs n)
     ∧ ∀ f, f ∈ all_feeds (dbs n) → plain_text (title_sort f) ∧ text_ok (Feed.feed_guid f)) →
  ListRoute name_first name_key encode_pair_cursor (by_name_key_ok (by_name_floor params))
    (λ n c, (handle_get_feeds_by_name (now n) (dbs n) (caches n) (with_cursor params c)).2)
    (λ n, by_name_rows (dbs n) params (guids n)) (λ _ _, true) (λ n, by_name_show params (dbs n)).
Proof using All.
  intros Hcheck Hguids Hdb. split.
  - intros n. eapply StronglySorted_sublist; [apply filter_sublist|]. by apply named_feeds_ordered, Hdb.
  - intros n f [Ha Hf]%elem_of_filterb. unfold named_feeds in Hf.
    rewrite sort_by_perm in Hf. apply elem_of_filterb in Hf as [_ Hf].
    destruct (proj2 (Hdb n) f Hf). by split_and!.
  - intros n c Hc. set (limit := Z.to_nat (capped_limit (ListQuery.limit params))).
    assert (0 < limit)%nat as Hl by apply capped_limit_pos.
    set (r := rest name_first name_key c (by_name_rows (dbs n) params (guids n))).
    destruct (page_of_stretch name_key encode_pair_cursor (by_name_show params (dbs n)) limit r Hl)
      as (p & q & next & E & Hp & Hn).
    exists p, q, next. split_and!; [done| |done]. rewrite <-Hp.
    unfold handle_get_feeds_by_name.
    change (request_medium (with_cursor params (encode_pair_cursor <$> c))) with (request_medium params).
    change (check_named_feed_guid (with_cursor params (encode_pair_cursor <$> c)))
      with (check_named_feed_guid params).
    change (by_name_guids (now n) (dbs n) (caches n) (with_cursor params (encode_pair_cursor <$> c)))
      with (by_name_guids (now n) (dbs n) (caches n) params).
    cbn [with_cursor ListQuery.cursor ListQuery.from ListQuery.limit].
    assert (opt_parse parse_by_name_cursor (encode_pair_cursor <$> c) = Ok c) as ->.
    { destruct c as [k|]; [|done]. destruct (Hc k eq_refl) as (? & ? & _).
      cbn [fmap option_fmap option_map opt_parse]. by rewrite pair_cursor_round_trip. }
    rewrite Hcheck. specialize (Hguids n).
    destruct (by_name_guids (now n) (dbs n) (caches n) params (request_medium params)) as [cache gs].
    cbn [snd] in Hguids |- *. subst gs. cbn [rbind]. fold limit.
    assert (List.filter
        (λ f, is_none_or (λ floor, String.leb floor (title_sort f))
                (if is_some c then None else sort_key <$> ListQuery.from params))
        (rest name_first name_key c (named_feeds (dbs n) (request_medium params) (guids n))) = r) as Hr.
    { unfold r, by_name_rows. destruct c as [k|]; cbn [is_some].
      - rewrite rest_above.
        + apply filter_all. done.
        + intros f Hf. destruct (Hc k eq_refl) as (_ & _ & Hk).
          eapply above_trans; [exact Hk|]. by apply (pair_first_leb k (name_key f)).
      - unfold rest. cbn [is_none_or]. rewrite !(filter_all (λ _, true)) by done. done. }
    unfold by_name_feed_rows. rewrite Hr. unfold page_of.
    rewrite take_take, Nat.min_l by lia.
    assert ((limit <? length (take (limit + 1) r))%nat = (limit <? length r)%nat) as ->.
    { rewrite length_take. destruct (limit <? length r)%nat eqn:Elen.
      - apply Nat.ltb_lt in Elen. apply Nat.ltb_lt. lia.
      - apply Nat.ltb_ge in Elen. apply Nat.ltb_ge. lia. }
    f_equal. unfold next_key. destruct (limit <? length r)%nat; [|done].
    by destruct (last (take limit r)).
Qed.
End by_name.

(** ** Artist names *)

Lemma string_set_NoDup l : NoDup (string_set l).
Proof.
  unfold string_set. rewrite sort_by_perm.
  pose proof (dedupe_by_NoDup id l) as H. by rewrite list_fmap_id in H.
Qed.

Section artists.
Context `{Crates} `{Web}.

Lemma build_rows_ordered db :
  catalog_ok db →
  ordered artist_name_first artist_name_key (ArtistNameList.rows (build_artist_name_list db)).
Proof using Type.
  intros Hok. apply (sort_ordered artist_name_first artist_name_key).
  rewrite fmap_app. apply NoDup_app. split_and!.
  - apply (NoDup_key _ ArtistNameRow.key); [done|]. rewrite <-list_fmap_compose.
    by apply filter_fmap_NoDup, all_feeds_NoDup.
  - intros k (r & -> & (f & -> & _)%list_elem_of_fmap)%list_elem_of_fmap
      (r' & Hk & (key & -> & _)%list_elem_of_fmap)%list_elem_of_fmap. done.
  - apply (NoDup_key _ ArtistNameRow.key); [done|]. rewrite <-list_fmap_compose.
    erewrite list_fmap_ext; [rewrite list_fmap_id; apply string_set_NoDup|]. done.
Qed.

(** The releases that a [name] row counts. *)
Definition name_release (db : Db) (key : string) (f : Feed) : Prop :=
  f ∈ all_feeds db
  ∧ (∃ m, Feed.raw_medium f = Some m ∧ to_ascii_lowercase m = "music"%string)
  ∧ ∃ artist, Feed.release_artist f = Some artist ∧ str_is_empty (str_trim artist) = false
      ∧ sort_key artist = key ∧ is_name_level_release (load_publisher db (Feed.feed_guid f)) = true.

Lemma elem_of_group db key g :
  g ∈ NamedRelease.feed_guid <$> group_of (named_releases db) key ↔
  ∃ f, Feed.feed_guid f = g ∧ name_release db key f.
Proof using Type.
  unfold group_of, name_release. rewrite list_elem_of_fmap. split.
  - intros (r & -> & [Hk%String.eqb_eq Hr]%elem_of_filterb).
    unfold named_releases in Hr. apply list_elem_of_omap in Hr as ([g' a] & Hr & E).
    unfold music_feed_artist_rows in Hr. apply list_elem_of_omap in Hr as (f & Hf & E').
    apply elem_of_filterb in Hf as [Hm Hf].
    destruct (Feed.release_artist f) as [a'|] eqn:Ea; [|done]. injection E' as <- <-.
    destruct (str_is_empty (str_trim a')) eqn:Et; [done|].
    destruct (is_name_level_release _) eqn:El; [|done]. injection E as <-. cbn in *.
    exists f. split_and!; [done|done| |].
    + destruct (Feed.raw_medium f) as [m|]; [|done]. exists m. split; [done|].
      by apply String.eqb_eq.
    + by exists a'.
  - intros (f & <- & Hf & (m & Hm & Hmu) & a & Ha & Ht & Hk & Hl).
    exists (NamedRelease.mk key (Feed.feed_guid f) a). split; [done|].
    apply elem_of_filterb. split; [apply String.eqb_refl|].
    unfold named_releases. apply list_elem_of_omap. exists (Feed.feed_guid f, a). split.
    + unfold music_feed_artist_rows. apply list_elem_of_omap. exists f. rewrite Ha. split; [|done].
      apply elem_of_filterb. rewrite Hm. split; [|done]. cbn. by apply String.eqb_eq.
    + by rewrite Ht, Hl, Hk.
Qed.

Lemma group_NoDup db key :
  catalog_ok db → NoDup (NamedRelease.feed_guid <$> group_of (named_releases db) key).
Proof using Type.
  intros Hok. apply filter_fmap_NoDup. eapply sublist_NoDup; [|apply (all_feeds_NoDup db Hok)].
  etrans; [apply (omap_key_sublist _ fst)|].
  - intros [g a] r. destruct (str_is_empty _); [done|]. destruct (negb _); [done|]. by intros [= <-].
  - etrans; [apply (omap_key_sublist _ Feed.feed_guid)|].
    + intros f [g a]. destruct (Feed.release_artist f); [|done]. by intros [= <- <-].
    + apply sublist_fmap, filter_sublist.
Qed.

(** A [name] row is the row of a key that some release has. *)
Lemma name_rows db r :
  r ∈ ArtistNameList.rows (build_artist_name_list db) → ArtistNameRow.kind r = "name"%string →
  r = group_row (named_releases db) (ArtistNameRow.key r)
  ∧ ArtistNameList.name_releases (build_artist_name_list db) !! ArtistNameRow.key r
    = Some (NamedRelease.feed_guid <$> group_of (named_releases db) (ArtistNameRow.key r)).
Proof using Type.
  intros Hr Hk. cbn [build_artist_name_list ArtistNameList.rows] in Hr.
  rewrite sort_by_perm in Hr.
  apply elem_of_app in Hr as [(f & -> & _)%list_elem_of_fmap|(key & -> & Hkey)%list_elem_of_fmap];
    [done|]. cbn [group_row ArtistNameRow.key]. split; [done|].
  cbn [build_artist_name_list ArtistNameList.name_releases].
  apply elem_of_list_to_map_1.
  - rewrite <-list_fmap_compose. erewrite list_fmap_ext; [rewrite list_fmap_id; apply string_set_NoDup|].
    done.
  - apply list_elem_of_fmap. by exists key.
Qed.

(** The rows of the list of one key are the releases that its row counts. *)
Lemma key_rows db key params :
  catalog_ok db → request_medium params = "music"%string → ListQuery.from params = None →
  let guids := Some (NamedRelease.feed_guid <$> group_of (named_releases db) key) in
  Feed.feed_guid <$> by_name_rows db params guids
  ≡ₚ NamedRelease.feed_guid <$> group_of (named_releases db) key.
Proof using Type.
  intros Hok Hm Hfrom guids. apply NoDup_Permutation.
  - unfold by_name_rows, named_feeds. apply filter_fmap_NoDup. rewrite sort_by_perm.
    by apply filter_fmap_NoDup, all_feeds_NoDup.
  - by apply group_NoDup.
  - intros g. unfold by_name_rows, by_name_floor. rewrite Hfrom, Hm. cbn [fmap option_fmap option_map].
    rewrite (filter_all (λ f, above None (title_sort f))) by done.
    unfold named_feeds. rewrite sort_by_perm, list_elem_of_fmap. split.
    + intros (f & -> & [Hb _]%elem_of_filterb). apply andb_true_iff in Hb as [_ Hb].
      by apply bool_decide_eq_true in Hb.
    + intros Hg. pose proof Hg as (f & Hfg & Hf & (m & Em & Hmu) & _)%elem_of_group.
      exists f. split; [done|]. apply elem_of_filterb. split; [|done].
      unfold of_medium. rewrite Em. cbn. rewrite Hmu. cbn. rewrite Hfg. by apply bool_decide_eq_true.
Qed.
End artists.

(** ** Walks *)

(** C16: a client that follows the cursors of the recent feeds comes to an end,
    with each feed of the list once and in its order. While the node is at
    rest the walk takes at most one request for each feed of the list and one
    more, whatever the limit and the filter: a filtered page that stopped at
    the bound of examined rows still moves on. *)
Theorem recent_walk_ends `{Crates} `{Web} `{Base64Ok} db params filter :
  catalog_ok db → recent_keys_ok db → recent_params_ok params filter →
  ∃ pages,
    walk (λ _ c, handle_get_recent_feeds db (with_cursor params c))
      (S (length (recent_rows params db))) 0 None = Some pages
    ∧ concat pages
      = recent_show params filter db
          <$> List.filter (recent_keep filter db) (recent_rows params db).
Proof.
  intros Hok Hk Hp.
  pose proof (recent_route params filter (λ _, db) Hp (λ _, conj Hok Hk)) as Hr.
  apply (route_walk_ends Hr). done.
Qed.

(** C10: a walk over the recent feeds of a changing node shows no feed twice at
    one position and misses none that stands still. The pages come from the
    states that the requests met, their keys strictly decrease, and a position
    that in every one of these states holds a feed the filter keeps is among
    them. *)
Theorem recent_walk_complete `{Crates} `{Web} `{Base64Ok} dbs params filter fuel pages :
  recent_params_ok params filter →
  (∀ n, catalog_ok (dbs n) ∧ recent_keys_ok (dbs n)) →
  walk (λ n c, handle_get_recent_feeds (dbs n) (with_cursor params c)) fuel 0 None = Some pages →
  ∃ parts : list (list Feed),
    pages = imap (λ n part, recent_show params filter (dbs n) <$> part) parts
    ∧ StronglySorted (λ f g, newest_key_first (recent_key f) (recent_key g) = true) (concat parts)
    ∧ (∀ n part f, parts !! n = Some part → f ∈ part →
         f ∈ recent_rows params (dbs n) ∧ recent_keep filter (dbs n) f = true)
    ∧ (∀ k, (∀ n, (n < length pages)%nat →
         ∃ f, f ∈ recent_rows params (dbs n) ∧ recent_key f = k
           ∧ recent_keep filter (dbs n) f = true) →
       k ∈ recent_key <$> concat parts).
Proof.
  intros Hp Hdb Hw. pose proof (recent_route params filter dbs Hp Hdb) as Hr.
  exact (route_walk_reads Hr fuel pages Hw).
Qed.

(** the two lists of an operator come to an end. A walk over the records
    with copies and one over the GUID changes each take at most one request
    for each record and one more, and give the list of records as it is. *)
Theorem review_walks_end `{Crates} `{Web} `{Base64Ok} db params :
  guid_changes_keyed db →
  (∀ r, r ∈ guid_change_records db → ts_key_ok (guid_change_sort_key r)) →
  (∀ r, r ∈ copy_records db → ts_key_ok (copy_record_sort_key r)) →
  (∃ pages,
     walk (λ _ c, handle_list_guid_changes db (with_cursor params c))
       (S (length (guid_change_records db))) 0 None = Some pages
     ∧ concat pages = guid_change_records db)
  ∧ (∃ pages,
     walk (λ _ c, handle_list_copy_records db (with_cursor params c))
       (S (length (copy_records db))) 0 None = Some pages
     ∧ concat pages = copy_records db).
Proof.
  intros Hk Hg Hc.
  assert (∀ A (key : A → Z * string) l, ordered newest_key_first key l →
    (∀ a, a ∈ l → ts_key_ok (key a)) →
    ∃ pages, walk (λ _ c, list_page key (with_cursor params c) l) (S (length l)) 0 None = Some pages
      ∧ concat pages = l) as Hend.
  { intros A key l Ho Hl.
    pose proof (list_page_route key (λ _, l) params (λ _, Ho) (λ _, Hl)) as Hr.
    destruct (route_walk_ends Hr l (λ _, true) id) as (pages & Hw & Hcat); [done|].
    exists pages. split; [exact Hw|]. rewrite Hcat, list_fmap_id. by apply filter_all. }
  split; apply Hend; eauto using guid_change_records_ordered, copy_records_ordered.
Qed.

(** a client that watches the live items of a changing node, with a clock
    that runs on, is shown no item twice and misses none that the view holds
    in every state it meets. *)
Theorem live_walk_complete `{Web} `{Base64Ok} dbs clock params filters hosts fuel pages :
  validate_live_items_query params = Ok filters →
  (∀ n, live_keys_distinct (dbs n) ∧ ∀ e, e ∈ live_events (dbs n) → pair_key_ok (live_key e)) →
  walk (λ n c, list_live_items (dbs n) (with_live_cursor params c) (clock n) hosts) fuel 0 None
    = Some pages →
  ∃ parts : list (list LiveEvent),
    pages = imap (λ n part,
      (λ e, live_item_list_response (dbs n) e hosts (clock n)) <$> part) parts
    ∧ NoDup (live_key <$> concat parts)
    ∧ (∀ n part e, parts !! n = Some part → e ∈ part →
         e ∈ live_rows (dbs n) ∧ live_event_matches e filters (clock n) hosts = true)
    ∧ (∀ k, (∀ n, (n < length pages)%nat →
         ∃ e, e ∈ live_rows (dbs n) ∧ live_key e = k
           ∧ live_event_matches e filters (clock n) hosts = true) →
       k ∈ live_key <$> concat parts).
Proof.
  intros Hv Hdb Hw. pose proof (live_route params filters hosts dbs clock Hv Hdb) as Hr.
  destruct (route_walk_reads Hr fuel pages Hw) as (parts & Hp & Ho & Hin & Hall).
  exists parts. split_and!; [exact Hp|exact (ordered_NoDup name_first live_key _ Ho)|exact Hin|exact Hall].
Qed.

(** the count of an artist name agrees with the list behind it. For each
    [name] row of a fresh copy, a client that walks the feeds by name with the
    [artist_key] of the row reads exactly the releases of the name level that
    have this key, each once, and [release_count] is their number. *)
Theorem artist_key_lists_count `{Crates} `{Web} `{Base64Ok} db now params entry r :
  catalog_ok db →
  (∀ f, f ∈ all_feeds db → plain_text (title_sort f) ∧ text_ok (Feed.feed_guid f)) →
  ArtistNameCacheEntry.names entry = build_artist_name_list db →
  ArtistNameCacheEntry.seq_at_build entry = current_event_seq db →
  r ∈ ArtistNameList.rows (build_artist_name_list db) → ArtistNameRow.kind r = "name"%string →
  request_medium params = "music"%string → ListQuery.from params = None →
  ListQuery.named_feed_guid params = None →
  ListQuery.artist_key params = Some (ArtistNameRow.key r) →
  ∃ fuel pages,
    walk (λ _ c, (handle_get_feeds_by_name now db (Some entry) (with_cursor params c)).2)
      fuel 0 None = Some pages
    ∧ ArtistNameRow.release_count r = Some (i64_len (concat pages))
    ∧ NoDup (Feed.feed_guid ∘ FeedListItem.feed <$> concat pages)
    ∧ (∀ g, g ∈ Feed.feed_guid ∘ FeedListItem.feed <$> concat pages ↔
         ∃ f, Feed.feed_guid f = g ∧ name_release db (ArtistNameRow.key r) f).
Proof.
  intros Hok Hf Hn Hs Hr Hk Hm Hfrom Hnf Hkey. set (key := ArtistNameRow.key r) in *.
  destruct (name_rows db r Hr Hk) as [Hrow Hlist]. fold key in Hrow, Hlist.
  set (group := NamedRelease.feed_guid <$> group_of (named_releases db) key) in *.
  assert (check_named_feed_guid params (request_medium params) = Ok tt) as Hcheck.
  { unfold check_named_feed_guid. by rewrite Hnf. }
  assert (by_name_guids now db (Some entry) params (request_medium params)
    = (Some entry, Ok (Some group))) as Hg.
  { unfold by_name_guids. rewrite Hnf, Hkey, Hm. cbn [String.eqb Ascii.eqb Bool.eqb negb].
    unfold get_or_build. rewrite Hs, Z.eqb_refl. cbn [orb]. by rewrite Hn, Hlist. }
  pose proof (by_name_route params (λ _, Some group) (λ _, now) (λ _, db) (λ _, Some entry) Hcheck
    (λ _, f_equal snd Hg) (λ _, conj Hok Hf)) as Hroute.
  destruct (route_walk_ends Hroute _ (λ _, true) (by_name_show params db) ltac:(done))
    as (pages & Hw & Hcat).
  exists (S (length (by_name_rows db params (Some group)))), pages. split; [exact Hw|].
  rewrite (filter_all (λ _, true)) in Hcat by done.
  assert (Feed.feed_guid ∘ FeedListItem.feed <$> concat pages ≡ₚ group) as Hperm.
  { rewrite Hcat, <-list_fmap_compose.
    rewrite (list_fmap_ext _ Feed.feed_guid) by done. by apply key_rows. }
  split_and!.
  - rewrite Hrow. cbn [group_row ArtistNameRow.release_count]. do 2 f_equal.
    unfold i64_len. f_equal. f_equal.
    apply Permutation_length in Hperm. unfold group in Hperm. by rewrite !length_fmap in Hperm.
  - rewrite Hperm. by apply group_NoDup.
  - intros g. rewrite Hperm. apply elem_of_group.
Qed.

(** *** The copy of the artist names *)

Section copy.
Context `{Crates} `{Web}.

(** The copy after a sequence of requests, each at a reading of the clock and
    a state of the node. *)
Definition copy_after (interval : Z) (reqs : list (Z * Db)) : option ArtistNameCacheEntry :=
  foldl (λ cache '(now, db), (get_or_build interval now db cache).1) None reqs.

Definition built_from (req : Z * Db) (entry : ArtistNameCacheEntry) : Prop :=
  entry = ArtistNameCacheEntry.mk (build_artist_name_list req.2) (current_event_seq req.2) req.1.

Lemma copy_built interval reqs entry :
  copy_after interval reqs = Some entry → ∃ req, req ∈ reqs ∧ built_from req entry.
Proof using Type.
  revert entry. induction reqs as [|[now db] reqs IH] using rev_ind; intros entry; [done|].
  unfold copy_after. rewrite foldl_app. fold (copy_after interval reqs). cbn [foldl].
  unfold get_or_build. destruct (copy_after interval reqs) as [e|].
  - destruct (_ || _); cbn [fst]; intros [= <-].
    + destruct (IH e eq_refl) as (req & Hin & Hb). exists req. split; [|done]. apply elem_of_app. by left.
    + exists (now, db). split; [|done]. apply elem_of_app. right. left.
  - cbn [fst]. intros [= <-]. exists (now, db). split; [|done]. apply elem_of_app. right. left.
Qed.
End copy.

(** How old the artist names can be. After any sequence of requests, what
    a request is given was built by it or by an earlier one, and then the log
    has the same end as it had then or the build is less than the interval
    old. *)
Theorem artist_copy_age `{Crates} `{Web} interval reqs now db :
  ∃ req, req ∈ reqs ++ [(now, db)]
    ∧ (get_or_build interval now db (copy_after interval reqs)).2 = build_artist_name_list req.2
    ∧ (req = (now, db) ∨ current_event_seq req.2 = current_event_seq db ∨ now - req.1 < interval).
Proof.
  unfold get_or_build. destruct (copy_after interval reqs) as [e|] eqn:E.
  - destruct (copy_built interval reqs e E) as (req & Hin & Hb). unfold built_from in Hb. subst e.
    cbn [ArtistNameCacheEntry.seq_at_build ArtistNameCacheEntry.built_at ArtistNameCacheEntry.names].
    destruct (_ || _) eqn:Eo; cbn [snd].
    + exists req. split_and!; [apply elem_of_app; by left|done|].
      apply orb_true_iff in Eo as [Eo%Z.eqb_eq|Eo%Z.ltb_lt]; auto.
    + exists (now, db). split_and!; [apply elem_of_app; right; left|done|by left].
  - exists (now, db). split_and!; [apply elem_of_app; right; left|done|by left].
Qed.

(** ** Instances at concrete inputs *)

#[local] Existing Instance sample_crates.
#[local] Existing Instance plain_web.
#[local] Open Scope string_scope.

#[local] Existing Instances plain_base64 plain_base64_ok.

Definition no_params : ListQuery := ListQuery.mk None None None None None None None None None.

Definition all_media (limit : Z) : ListQuery :=
  ListQuery.mk None (Some limit) None (Some "all") None None None None None.

(** The two linked feeds, and an album that names no publisher; then one more. *)
Definition names_db : Db := (upsert_feed (link_feed "solo" "https://c.example/s.xml" "music") link_db).1.
Definition later_db : Db := (upsert_feed (link_feed "zzz" "https://d.example/z.xml" "music") names_db).1.

Lemma names_db_ok : catalog_ok names_db.
Proof. apply upsert_feed_ok, link_db_ok. Qed.

Lemma later_db_ok : catalog_ok later_db.
Proof. apply upsert_feed_ok, names_db_ok. Qed.

(** A property of each feed of a concrete database. *)
Ltac each_feed Hf :=
  vm_compute in Hf;
  repeat (apply elem_of_cons in Hf as [->|Hf]; [|]); [..|by apply not_elem_of_nil in Hf].

Lemma names_db_keys : recent_keys_ok names_db.
Proof.
  intros f Hf. each_feed Hf; (split; [split; vm_compute; discriminate|reflexivity]).
Qed.

Lemma later_db_keys : recent_keys_ok later_db.
Proof.
  intros f Hf. each_feed Hf; (split; [split; vm_compute; discriminate|reflexivity]).
Qed.

Lemma recent_walk_ends_witness :
  ∃ pages,
    walk (λ _ c, handle_get_recent_feeds names_db (with_cursor (all_media 1) c)) 4 0 None = Some pages
    ∧ length (concat pages) = 3%nat.
Proof.
  destruct (recent_walk_ends names_db (all_media 1) None names_db_ok names_db_keys) as (pages & Hw & Hc).
  - split; vm_compute; reflexivity.
  - exists pages. split; [exact Hw|]. rewrite Hc. vm_compute. reflexivity.
Defined.

(** A node that takes a feed in after the first request. *)
Definition two_states (n : nat) : Db := match n with O => names_db | S _ => later_db end.

Definition two_states_pages : list (list FeedListItem) :=
  match walk (λ n c, handle_get_recent_feeds (two_states n) (with_cursor (all_media 1) c)) 9 0 None with
  | Some pages => pages
  | None => []
  end.

Lemma recent_walk_complete_witness :
  ∃ parts : list (list Feed),
    two_states_pages = imap (λ n part, recent_show (all_media 1) None (two_states n) <$> part) parts
    ∧ (-1, "album") ∈ recent_key <$> concat parts.
Proof.
  destruct (recent_walk_complete two_states (all_media 1) None 9 two_states_pages)
    as (parts & Hp & _ & _ & Hall).
  - split; vm_compute; reflexivity.
  - intros [|n]; [exact (conj names_db_ok names_db_keys)|exact (conj later_db_ok later_db_keys)].
  - vm_compute. reflexivity.
  - exists parts. split; [exact Hp|]. apply Hall. intros [|n] _;
      exists (link_feed "album" "https://b.example/a.xml" "music"); (split; [|by split]);
      apply (bool_decide_unpack _); vm_compute; exact I.
Defined.

(** Two open GUID changes, and a copy of a feed past the limit. *)
Definition change (url : string) (first_seen : Z) : GuidChangeRow :=
  GuidChangeRow.mk url "old" "new" first_seen None None None None.

Definition review_db : Db :=
  set_feed_guid_changes (<["https://b.example/a.xml" := change "https://b.example/a.xml" 10]>
    {["https://a.example/p.xml" := change "https://a.example/p.xml" 20]}) names_db.

Lemma review_walks_end_witness :
  ∃ pages,
    walk (λ _ c, handle_list_guid_changes review_db (with_cursor (all_media 1) c)) 3 0 None = Some pages
    ∧ GuidChangeResponse.first_seen <$> concat pages = [20; 10].
Proof.
  destruct (review_walks_end review_db (all_media 1)) as [(pages & Hw & Hc) _].
  - intros u row. cbn [review_db feed_guid_changes set_feed_guid_changes].
    intros [[<- <-]|[_ Hu]]%lookup_insert_Some; [reflexivity|].
    by apply lookup_singleton_Some in Hu as [<- <-].
  - intros r Hr. each_feed Hr; (split; [split; vm_compute; discriminate|reflexivity]).
  - intros r Hr. vm_compute in Hr. by apply not_elem_of_nil in Hr.
  - exists pages. split; [exact Hw|]. rewrite Hc. vm_compute. reflexivity.
Defined.

(** Three live items, of which one ends before the second request. *)
Definition live_item (guid : string) (ends : option Z) : LiveEvent :=
  LiveEvent.mk guid "album" "Show" None "live" (Some 0) ends 50 100 None None.

Definition live_db : Db :=
  set_live_events [live_item "live-3" None; live_item "live-1" None; live_item "live-2" (Some 0)]
    names_db.

Definition live_params : LiveItemsQuery := LiveItemsQuery.mk None None None None None None (Some 1).
Definition live_filters : LiveItemFilters := LiveItemFilters.mk LiveItemView.Now None None None None.
Definition live_clock (n : nat) : Z := Z.of_nat n * 4000.

Definition live_pages : list (list LiveItemListResponse) :=
  match walk (λ n c, list_live_items live_db (with_live_cursor live_params c) (live_clock n) []) 9 0 None with
  | Some pages => pages
  | None => []
  end.

Lemma live_walk_complete_witness :
  ∃ parts : list (list LiveEvent),
    live_pages = imap (λ n part,
      (λ e, live_item_list_response live_db e [] (live_clock n)) <$> part) parts
    ∧ ("album", "live-3") ∈ live_key <$> concat parts.
Proof.
  destruct (live_walk_complete (λ _, live_db) live_clock live_params live_filters [] 9 live_pages)
    as (parts & Hp & _ & _ & Hall).
  - reflexivity.
  - intros _. split; [apply (bool_decide_unpack _); vm_compute; exact I|].
    intros e He. each_feed He; (split; [split; reflexivity|reflexivity]).
  - vm_compute. reflexivity.
  - exists parts. split; [exact Hp|]. apply Hall. intros n _.
    exists (live_item "live-3" None). split; [|by split].
    apply (bool_decide_unpack _). vm_compute. exact I.
Defined.

Definition artist_params : ListQuery :=
  ListQuery.mk None (Some 1) None None None None None (Some "artist") None.

Definition artist_entry : ArtistNameCacheEntry :=
  ArtistNameCacheEntry.mk (build_artist_name_list names_db) (current_event_seq names_db) 0.

(** The linked album has a role of its own, so the row counts the other. *)
Definition artist_row : ArtistNameRow := group_row (named_releases names_db) "artist".

Lemma artist_key_lists_count_witness :
  ∃ fuel pages,
    walk (λ _ c, (handle_get_feeds_by_name 5 names_db (Some artist_entry)
                    (with_cursor artist_params c)).2) fuel 0 None = Some pages
    ∧ i64_len (concat pages) = 1.
Proof.
  destruct (artist_key_lists_count names_db 5 artist_params artist_entry artist_row names_db_ok)
    as (fuel & pages & Hw & Hc & _); try reflexivity.
  - intros f Hf. each_feed Hf; (split; [split; reflexivity|reflexivity]).
  - unfold artist_row. cbn [build_artist_name_list ArtistNameList.rows]. rewrite sort_by_perm.
    apply elem_of_app. right. apply list_elem_of_fmap. exists "artist". split; [reflexivity|].
    apply (bool_decide_unpack _). vm_compute. exact I.
  - exists fuel, pages. split; [exact Hw|].
    assert (ArtistNameRow.release_count artist_row = Some 1) as Hone by (vm_compute; reflexivity).
    rewrite Hone in Hc. congruence.
Defined.
