(* ===== verification/SearchWalk.v ===== *)
(** The search as a list route: the pages of a search by date and of a search
    by rank are pages of one list in the order of its keys. *)

From Stdlib Require Import Floats.SpecFloat.
From S2P Require Import Prelude.
From S2P Require Import Model.
From S2P Require Import Event.
From S2P Require Import Float64.
From S2P Require Import Crates.
From S2P Require Import Store.
From S2P Require Import Search.
From S2P Require Import Catalog.
From S2P Require Import Sync.
From S2P Require Import Paging.
From S2P Require Import Listings.
From S2P Require Import ListingProps.
From S2P Require Import SearchRead.

(** ** One row more than a page *)

(** The handler reads one row past the limit to know of more. *)
Lemma over_read {A K T} (key : A → K) (encode : K → string) (show : A → T) n r :
  (0 < n)%nat →
  QueryResponse.mk (show <$> take n (take (S n) r))
    (if (n <? length (take (S n) r))%nat
     then (encode ∘ key) <$> (take (S n) r !! (n - 1)%nat) else None)
    (n <? length (take (S n) r))%nat
  = page_of key encode show n r.
Proof.
  intros Hn. unfold page_of, next_key. rewrite take_take, Nat.min_l by lia.
  assert ((n <? length (take (S n) r))%nat = (n <? length r)%nat) as ->.
  { rewrite length_take. destruct (Nat.ltb_spec n (length r)).
    - apply Nat.ltb_lt. lia.
    - apply Nat.ltb_ge. lia. }
  destruct (n <? length r)%nat eqn:E; [|done]. apply Nat.ltb_lt in E. f_equal.
  rewrite lookup_take_lt by lia. rewrite last_lookup, length_take, Nat.min_l by lia.
  destruct n as [|n]; [lia|]. cbn [pred]. rewrite lookup_take_lt by lia.
  replace (S n - 1)%nat with n by lia. by destruct (r !! n).
Qed.

(** ** The first rows of two sorted lists *)

Section merge.
Context {A K : Type} (before : K → K → bool) `{!StrictTotal before} (key : A → K).

Let le (a b : A) : bool := negb (before (key b) (key a)).

Lemma le_sorted l : StronglySorted (leR le) (sort_by le l).
Proof using StrictTotal0.
  apply (sort_by_sorted le); unfold leR, le.
  - intros a b. apply not_before_total. exact _.
  - intros a b c. apply not_before_trans. exact _.
Qed.

(** Two lists in the order of their keys with the same rows are equal. *)
Lemma ordered_perm l : ∀ l', ordered before key l → ordered before key l' → l ≡ₚ l' → l = l'.
Proof using StrictTotal0.
  induction l as [|a l IH]; intros l' Ho Ho' Hp; [by apply Permutation_nil_l in Hp|].
  destruct l' as [|b l']; [by apply Permutation_nil_r in Hp|].
  apply StronglySorted_inv in Ho as [Ho Ha]. apply StronglySorted_inv in Ho' as [Ho' Hb].
  rewrite Forall_forall in Ha, Hb.
  assert (a = b) as <-.
  { assert (a ∈ b :: l') as Hab by (rewrite <-Hp; left).
    assert (b ∈ a :: l) as Hba by (rewrite Hp; left).
    apply elem_of_cons in Hab as [?|Hab], Hba as [?|Hba]; [done|done|done|].
    pose proof (before_trans _ _ _ (Ha b Hba) (Hb a Hab)) as Hx.
    by rewrite before_irrefl in Hx. }
  f_equal. apply IH; [done|done|]. by eapply Permutation_cons_inv.
Qed.

Lemma sort_perm_eq l l' : NoDup (key <$> l) → l ≡ₚ l' → sort_by le l = sort_by le l'.
Proof using StrictTotal0.
  intros Hn Hp. apply ordered_perm.
  - by apply sort_ordered.
  - apply sort_ordered; [exact _|]. by rewrite <-Hp.
  - by rewrite !sort_by_perm.
Qed.

(** A row behind [n] others changes nothing of the first [n]. *)
Lemma take_insert x n l :
  StronglySorted (leR le) l →
  (n ≤ length (List.filter (λ y, before (key y) (key x)) l))%nat →
  take n (insert_sorted le x l) = take n l.
Proof using StrictTotal0.
  revert n. induction l as [|y l IH]; intros n Hs Hn; [cbn in Hn; by replace n with 0%nat by lia|].
  apply StronglySorted_inv in Hs as [Hs Hy]. rewrite Forall_forall in Hy.
  cbn [insert_sorted List.filter] in *. unfold le at 1.
  destruct (before (key y) (key x)) eqn:E; cbn [negb].
  - destruct n as [|n]; [done|]. cbn in Hn |- *. f_equal. apply IH; [done|lia].
  - rewrite filter_none in Hn; [by replace n with 0%nat by (cbn in Hn; lia)|].
    intros z Hz. specialize (Hy z Hz). unfold leR, le in Hy. apply negb_true_iff in Hy.
    apply not_true_iff_false. intros Hzx.
    destruct (before_total (key y) (key z)) as [H|[H|H]].
    + by rewrite (before_trans _ _ _ H Hzx) in E.
    + rewrite H in E. congruence.
    + congruence.
Qed.

Lemma filter_submset {B} (p : B → bool) l l' :
  l ⊆+ l' → (length (List.filter p l) ≤ length (List.filter p l'))%nat.
Proof using Type.
  intros Hs. apply submseteq_length. induction Hs as [|x l l' _ IH|x y l|x l l' _ IH|l1 l2 l3 _ IH1 _ IH2];
    cbn [List.filter].
  - done.
  - destruct (p x); [by apply submseteq_skip|done].
  - destruct (p x), (p y); try done. apply submseteq_swap.
  - destruct (p x); [by apply submseteq_cons|done].
  - by transitivity (List.filter p l2).
Qed.

(** Of the rows behind the first [n], none is among the first [n]. *)
Lemma take_sort_drop n d l :
  (∀ x, x ∈ d → (n ≤ length (List.filter (λ y, before (key y) (key x)) l))%nat) →
  take n (sort_by le (d ++ l)) = take n (sort_by le l).
Proof using StrictTotal0.
  induction d as [|x d IH]; intros Hd; [done|]. cbn [app sort_by].
  rewrite take_insert; [apply IH; intros y Hy; apply Hd; by right|apply le_sorted|].
  etrans; [apply (Hd x); left|]. apply filter_submset.
  rewrite sort_by_perm. by apply submseteq_inserts_l.
Qed.

Lemma take_sort_take n l m :
  NoDup (key <$> l ++ m) →
  take n (sort_by le (take n (sort_by le l) ++ m)) = take n (sort_by le (l ++ m)).
Proof using StrictTotal0.
  intros Hn. set (s := sort_by le l).
  assert (NoDup (key <$> l)) as Hl by (rewrite fmap_app in Hn; by apply NoDup_app in Hn as [? _]).
  pose proof (sort_ordered before key l Hl) as Ho. fold le in Ho. fold s in Ho.
  rewrite (sort_perm_eq (l ++ m) (drop n s ++ (take n s ++ m))); [|done|].
  - symmetry. apply take_sort_drop. intros x Hx.
    rewrite List.filter_app, length_app.
    rewrite <-(take_drop n s) in Ho. apply StronglySorted_app in Ho as (H12 & _ & _).
    rewrite filter_all by (intros y Hy; by apply H12).
    assert (n < length s)%nat; [|rewrite length_take; lia].
    apply list_elem_of_lookup in Hx as [i Hi]. rewrite lookup_drop in Hi.
    apply lookup_lt_Some in Hi. lia.
  - rewrite (app_assoc (drop n s)), (Permutation_app_comm (drop n s)), take_drop.
    unfold s. by rewrite sort_by_perm.
Qed.

(** The first rows of two lists are among the first rows of each. *)
Lemma take_merge n l m :
  NoDup (key <$> l ++ m) →
  take n (sort_by le (take n (sort_by le l) ++ take n (sort_by le m)))
  = take n (sort_by le (l ++ m)).
Proof using StrictTotal0.
  intros Hn.
  assert (∀ k, NoDup (key <$> k ++ m) →
    take n (sort_by le (k ++ take n (sort_by le m))) = take n (sort_by le (k ++ m))) as Hm.
  { intros k Hk. rewrite (sort_perm_eq (k ++ m) (m ++ k)) by (done || apply Permutation_app_comm).
    rewrite <-(take_sort_take n m k) by (by rewrite (Permutation_app_comm m)).
    f_equal. apply sort_perm_eq; [|apply Permutation_app_comm].
    rewrite fmap_app in Hk |- *. apply NoDup_app in Hk as (H1 & H2 & H3).
    apply NoDup_app. split_and!; [done| |].
    - intros x Hx Hx'. apply (H2 x Hx). rewrite fmap_take in Hx'.
      apply elem_of_take in Hx' as (i & Hx' & _). apply list_elem_of_lookup_2 in Hx'.
      by rewrite sort_by_perm in Hx'.
    - rewrite fmap_take. eapply sublist_NoDup; [apply sublist_take|]. by rewrite sort_by_perm. }
  rewrite Hm; [by apply take_sort_take|].
  rewrite fmap_app in Hn |- *. apply NoDup_app in Hn as (H1 & H2 & H3).
  apply NoDup_app. split_and!; [| |done].
  - rewrite fmap_take. eapply sublist_NoDup; [apply sublist_take|]. by rewrite sort_by_perm.
  - intros x Hx. apply H2. rewrite fmap_take in Hx.
    apply elem_of_take in Hx as (i & Hx & _). apply list_elem_of_lookup_2 in Hx.
    by rewrite sort_by_perm in Hx.
Qed.
End merge.

(** ** The order of the dates *)

(** The newest first, and rows without a date last. *)
Definition date_lt (a b : option Z) : bool :=
  match a, b with
  | Some x, Some y => y <? x
  | Some _, None => true
  | None, _ => false
  end.

#[export] Instance date_lt_total : StrictTotal date_lt.
Proof.
  split.
  - intros [a|]; cbn; [apply Z.ltb_irrefl|done].
  - intros [a|] [b|] [c|]; cbn; rewrite ?Z.ltb_lt; try done. lia.
  - intros [a|] [b|]; cbn; rewrite ?Z.ltb_lt; auto.
    destruct (Z.lt_total a b) as [?|[->|?]]; auto.
Qed.

Definition date_before : option Z * Z → option Z * Z → bool := pair_lt date_lt Z.ltb.
Definition rank_before : Z * Z → Z * Z → bool := pair_lt Z.ltb Z.ltb.

Lemma Zle_before x y r r' :
  (x <? y) || ((x =? y) && (r <=? r')) = negb (rank_before (y, r') (x, r)).
Proof.
  unfold rank_before, pair_lt. cbn.
  destruct (Z.lt_total x y) as [Hl|[->|Hl]].
  - rewrite (proj2 (Z.ltb_lt x y) Hl), (proj2 (Z.ltb_ge y x)) by lia.
    rewrite bool_decide_eq_false_2 by lia. done.
  - rewrite Z.ltb_irrefl, Z.eqb_refl, bool_decide_eq_true_2 by done. cbn. apply Z.leb_antisym.
  - rewrite (proj2 (Z.ltb_ge x y)), (proj2 (Z.ltb_lt y x)), (proj2 (Z.eqb_neq x y)) by lia. done.
Qed.

Lemma Zlt_before x y r r' :
  (x <? y) || ((x =? y) && (r <? r')) = rank_before (x, r) (y, r').
Proof.
  unfold rank_before, pair_lt. cbn. f_equal. f_equal.
  destruct (Z.eqb_spec x y) as [->|Hn]; [by rewrite bool_decide_eq_true_2|by rewrite bool_decide_eq_false_2].
Qed.

Lemma date_le_before a b : date_le a b = negb (date_before (date_key b) (date_key a)).
Proof.
  unfold date_le. destruct (date_key a) as [d r], (date_key b) as [d' r'].
  unfold date_before, pair_lt. cbn. destruct d as [x|], d' as [y|]; cbn.
  - rewrite <-(Z.eqb_sym y x), Zle_before. unfold rank_before, pair_lt. cbn. f_equal.
    destruct (decide (x = y)) as [->|Hn]; [by rewrite !bool_decide_eq_true_2|].
    rewrite !bool_decide_eq_false_2 by congruence. done.
  - done.
  - done.
  - rewrite bool_decide_eq_true_2 by done. cbn. apply Z.leb_antisym.
Qed.

Lemma after_date_before c r :
  after_date c r = is_none_or (λ k, date_before k (date_key r)) c.
Proof.
  unfold after_date. destruct (date_key r) as [d rowid].
  destruct c as [[[x|] cr]|]; [| |done]; unfold date_before, pair_lt; cbn.
  - destruct d as [y|]; cbn; [|done]. rewrite Zlt_before. unfold rank_before, pair_lt. cbn. f_equal.
    destruct (decide (x = y)) as [->|Hn]; [by rewrite !bool_decide_eq_true_2|].
    by rewrite !bool_decide_eq_false_2 by congruence.
  - destruct d as [y|]; cbn; [|by rewrite bool_decide_eq_true_2].
    by rewrite bool_decide_eq_false_2.
Qed.

(** ** The cursors *)

(** A position that a cursor can carry. *)
Definition date_key_ok (k : option Z * Z) : Prop :=
  in_i64 k.2 ∧ ∀ d, k.1 = Some d → in_i64 d.

(** A rank that SQLite gives: a number, and not the negative zero. *)
Definition rank_ok (x : f64) : Prop :=
  valid_binary 53 1024 x = true ∧ is_finite x = true ∧ x ≠ S754_zero true.

Definition rank_key_ok (k : Z * Z) : Prop :=
  in_i64 k.2 ∧ ∃ x, rank_ok x ∧ bits_order x = k.1.

(** The bits of a rank from its place in the order. *)
Definition bits_at (o : Z) : Z := if o <? 0 then 2 ^ 63 - o else o.

Lemma bits_at_order x : rank_ok x → bits_at (bits_order x) = to_bits x.
Proof.
  intros (Hv & Hf & Hz). pose proof (to_bits_range x Hv) as Hr. unfold bits_order, bits_at.
  destruct (to_bits x <? 2 ^ 63) eqn:E.
  - by rewrite (proj2 (Z.ltb_ge _ _)) by lia.
  - apply Z.ltb_ge in E. destruct (decide (to_bits x = 2 ^ 63)) as [Hb|Hb].
    + exfalso. apply Hz. rewrite <-(from_to_bits x Hv Hf), Hb. done.
    + rewrite (proj2 (Z.ltb_lt _ _)) by lia. lia.
Qed.

Lemma finite_order x y :
  rank_ok x → rank_ok y →
  SFcompare x y = Some (bits_order x ?= bits_order y)
  ∧ SFltb x y = (bits_order x <? bits_order y) ∧ SFeqb x y = (bits_order x =? bits_order y).
Proof.
  intros (Hv & Hf & _) (Hv' & Hf' & _).
  pose proof (compare_bits x y Hv Hv' Hf Hf') as Hc. split; [done|].
  unfold SFltb, SFeqb. rewrite Hc. unfold Z.ltb.
  split; [by destruct (_ ?= _)|].
  destruct (Z.compare_spec (bits_order x) (bits_order y)) as [->|H|H];
    [by rewrite Z.eqb_refl|symmetry; apply Z.eqb_neq; lia|symmetry; apply Z.eqb_neq; lia].
Qed.

Definition rank_key (r : SearchResult) : Z * Z :=
  (bits_order (SearchResult.effective_rank r), SearchResult.rowid r).

Definition encode_rank_key `{Base64} (k : Z * Z) : string :=
  encode_cursor (pretty (bits_at k.1) ++ String NUL (pretty k.2)).

Section routes.
Context `{Base64Ok}.

Lemma pretty_text (z : Z) : plain_text (pretty z).
Proof using Type. apply number_text_plain, number_pretty. Qed.

(** A number does not start with a letter. *)
Lemma pretty_head (z : Z) : ∃ a r, pretty z = String a r ∧ number_char a = true.
Proof using Type.
  assert (∀ p, ∃ a r, pretty (N.pos p) = String a r) as Hp.
  { intros p. destruct (pretty_pos p) as [_ (a & r & E & _)]. by exists a, r. }
  pose proof (number_pretty z) as Hn. destruct (pretty z) as [|a r] eqn:E.
  - destruct z as [|p|p]; [done| |done]. destruct (Hp p) as (a & r & Hr).
    change (pretty (Z.pos p)) with (pretty (N.pos p)) in E. congruence.
  - exists a, r. split; [done|]. by apply andb_true_iff in Hn as [? _].
Qed.

Lemma pretty_not_d (z : Z) :
  starts_with (pretty z) "d" = false ∧ trim_start_d (pretty z) = pretty z
  ∧ str_is_empty (pretty z) = false.
Proof using Type.
  destruct (pretty_head z) as (a & r & -> & Ha).
  assert (a ≠ "d"%char) as Hd by (intros ->; done).
  apply Ascii.eqb_neq in Hd as Hd'. split_and!; [|cbn; by rewrite Hd'|done].
  unfold starts_with. cbn [String.prefix].
  destruct (ascii_dec "d" a) as [Hx|_]; [by destruct Hd|done].
Qed.

Lemma parse_u64_pretty (z : Z) : 0 ≤ z < 2 ^ 64 → parse_u64 (pretty z) = Some z.
Proof using Type.
  intros [Hlo Hhi]. unfold parse_u64, parse_unsigned. destruct z as [|p|p]; [done| |lia].
  change (pretty (Z.pos p)) with (pretty (N.pos p)).
  destruct (pretty_pos p) as [Hp (a & r & E & _ & H2)]. rewrite E in *.
  apply Ascii.eqb_neq in H2. rewrite H2, Hp. cbn [mbind option_bind].
  by rewrite (proj2 (Z.ltb_lt _ _)).
Qed.

Lemma date_cursor_round_trip k :
  date_key_ok k → read_cursor true (encode_date_cursor k) = Ok (inl k).
Proof using All.
  destruct k as [d r]. intros [Hr Hd]. cbn in Hr, Hd.
  unfold read_cursor, encode_date_cursor. cbn [fst snd].
  set (part := ("d" ++ match d with Some d => pretty d | None => "" end)%string).
  assert (plain_text part) as [Hu Hn].
  { unfold part. destruct d as [d|]; [|done]. destruct (pretty_text d) as [Hu Hn]. done. }
  replace ("d" ++ match d with Some d0 => pretty d0 | None => "" end ++ String NUL (pretty r))%string
    with (part ++ String NUL (pretty r))%string by (unfold part; by destruct d).
  rewrite decode_encode by (apply text_ok_nul; [done|apply pretty_text]).
  cbn [rbind splitn]. rewrite split_at_nul by done.
  rewrite parse_pretty by done.
  assert (starts_with part "d" = true) as -> by (unfold starts_with, part; cbn; by destruct d as [d|]; [destruct (pretty d)|]).

  cbn [Bool.eqb negb].
  assert (trim_start_d part = match d with Some d => pretty d | None => "" end)%string as ->.
  { unfold part. destruct d as [d|]; [|done]. apply (pretty_not_d d). }
  destruct d as [d|]; [|done].
  destruct (pretty_not_d d) as (_ & _ & ->). rewrite parse_pretty by (by apply Hd). done.
Qed.

Lemma rank_cursor_round_trip k x :
  in_i64 k.2 → rank_ok x → bits_order x = k.1 →
  read_cursor false (encode_rank_key k) = Ok (inr (x, k.2)).
Proof using All.
  intros Hr Hx Hk. unfold read_cursor, encode_rank_key. rewrite <-Hk, bits_at_order by done.
  destruct Hx as (Hv & Hf & _). destruct (pretty_text (to_bits x)) as [Hu Hn].
  rewrite decode_encode by (apply text_ok_nul; [done|apply pretty_text]).
  cbn [rbind splitn]. rewrite split_at_nul by done. rewrite parse_pretty by done.
  destruct (pretty_not_d (to_bits x)) as (-> & _ & _). cbn [Bool.eqb negb].
  rewrite parse_u64_pretty by (by apply to_bits_range).
  by rewrite from_to_bits, Hf by done.
Qed.
End routes.

(** ** The two searches as list routes *)

Definition with_search_cursor (params : SearchRequest) (c : option string) : SearchRequest :=
  SearchRequest.mk (SearchRequest.q params) (SearchRequest.kind params)
    (SearchRequest.limit params) c (SearchRequest.include params) (SearchRequest.filters params).

Definition search_limit (params : SearchRequest) : nat :=
  Z.to_nat (clamp 1 SEARCH_LIMIT_MAX (unwrap_or 20 (SearchRequest.limit params))).

Lemma search_limit_pos params : (0 < search_limit params)%nat.
Proof. unfold search_limit, clamp. lia. Qed.

Lemma search_limit_succ params :
  Z.to_nat (clamp 1 SEARCH_LIMIT_MAX (unwrap_or 20 (SearchRequest.limit params)) + 1)
  = S (search_limit params).
Proof. unfold search_limit, clamp. lia. Qed.

(** A [type] that the search knows, or none. *)
Definition known_type (kind : option string) : bool :=
  is_none_or (λ t, (t =s "feed") || (t =s "track") || (t =s "publisher")) kind.

(** The test of [search_filtered]. *)
Definition has_query_text (q : string) : bool :=
  negb (str_is_empty (str_trim (fts5_query_from_words q))).

Lemma byte_range a : 0 ≤ byte_of a < 256.
Proof. unfold byte_of. pose proof (N_ascii_bounded a). lia. Qed.

(** A character that starts with a quote is no white space. *)
Lemma quote_not_white r : is_whitespace (String quote r) = false.
Proof.
  unfold is_whitespace.
  assert (code_point (String quote r) ≤ 0 ∨ code_point (String quote r) = 34) as Hc.
  { destruct r as [|b [|c [|d [|]]]]; cbn [code_point]; [by right|left..|by left].
    - pose proof (byte_range b). change (byte_of quote) with 34. lia.
    - pose proof (byte_range b). pose proof (byte_range c). change (byte_of quote) with 34. lia.
    - pose proof (byte_range b). pose proof (byte_range c). pose proof (byte_range d).
      change (byte_of quote) with 34. lia. }
  repeat rewrite orb_false_iff. rewrite !andb_false_iff, !Z.leb_gt, !Z.eqb_neq. lia.
Qed.

Lemma chars_head a r : ∃ c cs, chars (String a r) = String a c :: cs.
Proof.
  cbn [chars]. destruct (chars r) as [|[|b c] cs]; [by eexists _, _..|].
  destruct (is_continuation b); by eexists _, _.
Qed.

(** Text that starts with a quote is not blank. *)
Lemma quote_not_blank r : str_is_empty (str_trim (String quote r)) = false.
Proof.
  unfold str_trim. destruct (chars_head quote r) as (c & cs & ->).
  cbn [drop_while]. rewrite quote_not_white. unfold drop_while_end. rewrite reverse_cons.
  assert (∀ l, ∃ m, drop_while is_whitespace (l ++ [String quote c]) = m ++ [String quote c]) as Hd.
  { intros l. induction l as [|x l [m IH]]; cbn [app drop_while].
    - rewrite quote_not_white. by exists [].
    - destruct (is_whitespace x); [by exists m|]. by exists (x :: l). }
  destruct (Hd (reverse cs)) as [m ->]. rewrite reverse_app. cbn [reverse rev_append app].
  by rewrite unchars_cons.
Qed.

Lemma query_text q :
  str_is_empty (fts5_query_from_words q) = false → has_query_text q = true.
Proof.
  unfold has_query_text, fts5_query_from_words. pose proof (phrases_literal q) as Hl.
  destruct (fts5_phrases q) as [|p ps]; [done|]. intros _.
  apply Forall_cons in Hl as [(w & _ & ->) _].
  assert (∃ r, String.concat " " (quoted (double_quotes w) :: ps) = String quote r) as [r ->].
  { destruct ps; by eexists. }
  by rewrite quote_not_blank.
Qed.

Section search.
Context `{Crates} `{Web} `{Fts} `{Base64Ok}.
Context (params : SearchRequest).

Definition has_word : bool :=
  negb (str_is_empty (fts5_query_from_words (SearchRequest.q params))).

(** What a client sees of a hit. *)
Definition search_show (db : Db) (r : SearchResult) : SearchResponseItem :=
  search_response_item db (request_includes params "link_facts") r.

(** All hits of a search by date, in their order. *)
Definition date_rows (db : Db) : list DatedSearchResult :=
  sort_by date_le
    (List.filter (λ d,
         let r := DatedSearchResult.result d in
         of_type (SearchRequest.kind params) r
         && selected (SearchRequest.filters params) (SearchRequest.kind params) db
              (SearchResult.rowid r) (SearchResult.entity_type r) (SearchResult.entity_id r))
       (dated_rows db)).

(** The types of a search by rank: each is searched for itself. *)
Definition rank_types : list string :=
  match SearchRequest.kind params with Some t => [t] | None => ["feed"; "track"] end%string.

Definition rank_selected (db : Db) (t : string) (r : SearchResult) : bool :=
  (SearchResult.entity_type r =s t)
  && selected (SearchRequest.filters params) (Some t) db (SearchResult.rowid r)
       (SearchResult.entity_type r) (SearchResult.entity_id r).

(** All hits of a search by rank, in their order. *)
Definition rank_rows (db : Db) : list SearchResult :=
  sort_by (λ a b, negb (rank_before (rank_key b) (rank_key a)))
    (mjoin ((λ t, List.filter (rank_selected db t)
                (ranked_rows db (fts5_query_from_words (SearchRequest.q params))))
             <$> rank_types)).

Lemma date_keys_distinct db (p : DatedSearchResult → bool) :
  NoDup (date_key <$> List.filter p (dated_rows db)).
Proof using Type.
  apply filter_fmap_NoDup, (NoDup_fmap_1 snd). rewrite <-list_fmap_compose.
  unfold dated_rows. rewrite <-list_fmap_compose.
  erewrite (list_fmap_ext _ fst); [apply NoDup_fst_map_to_list|]. by intros i [rowid [ty id]] _.
Qed.

Lemma date_rows_ordered db : ordered date_before date_key (date_rows db).
Proof using Type.
  unfold date_rows. erewrite sort_by_ext_in; [apply (sort_ordered date_before date_key), date_keys_distinct|].
  intros a b _ _. apply date_le_before.
Qed.

Lemma date_results db limit c :
  search_by_date db (SearchRequest.filters params) (SearchRequest.kind params) limit c
  = take (Z.to_nat limit) (rest date_before date_key c (date_rows db)).
Proof using Type.
  unfold search_by_date, date_rows, rest. f_equal.
  rewrite filter_sort_by.
  - f_equal. induction (dated_rows db) as [|d l IH]; [done|]. cbn [List.filter].
    rewrite after_date_before.
    destruct (of_type _ _), (selected _ _ _ _ _ _); cbn [andb] in *; rewrite ?andb_false_r, ?andb_true_r;
      cbn [List.filter]; rewrite ?IH; try done.
  - intros a b. rewrite !date_le_before. by apply (not_before_total date_before).
  - intros a b c'. rewrite !date_le_before. by apply (not_before_trans date_before).
Qed.

Lemma date_route dbs dbs' :
  has_word = false → known_type (SearchRequest.kind params) = true →
  (∀ n d, d ∈ dated_rows (dbs n) → date_key_ok (date_key d)) →
  ListRoute date_before date_key encode_date_cursor date_key_ok
    (λ n c, run_search (dbs n) (dbs' n) (with_search_cursor params c))
    (λ n, date_rows (dbs n)) (λ _ _, true)
    (λ n d, search_show (dbs' n) (DatedSearchResult.result d)).
Proof using All.
  intros Hq Hk Hdb. apply negb_false_iff in Hq. split.
  - intros n. apply date_rows_ordered.
  - intros n d Hd. apply (Hdb n). unfold date_rows in Hd. rewrite sort_by_perm in Hd.
    by apply elem_of_filterb in Hd as [_ ?].
  - intros n c Hc.
    destruct (page_of_stretch date_key encode_date_cursor
      (λ d, search_show (dbs' n) (DatedSearchResult.result d)) (search_limit params)
      (rest date_before date_key c (date_rows (dbs n))) (search_limit_pos _))
      as (p & q & next & E & Hp & Hn).
    exists p, q, next. split_and!; [done| |done]. rewrite <-Hp, <-over_read by apply search_limit_pos.
    unfold run_search.
    cbn [with_search_cursor SearchRequest.limit SearchRequest.q SearchRequest.cursor].
    rewrite Hq.
    assert ((match encode_date_cursor <$> c with
             | Some s => let? c := read_cursor true s in Ok (Some c)
             | None => Ok None end)
            = Ok (E := ApiError) (inl (B := f64 * Z) <$> c)) as ->.
    { destruct c as [k|]; [|done]. cbn [fmap option_fmap option_map].
      by rewrite date_cursor_round_trip by by apply Hc. }
    cbn [rbind]. unfold search_rows.
    cbn [with_search_cursor SearchRequest.kind SearchRequest.filters].
    unfold known_type in Hk. rewrite Hk. cbn [rbind].
    replace (match inl <$> c with Some (inl c) => Some c | _ => None end) with c by by destruct c.
    rewrite date_results, search_limit_succ. done.
Qed.

(** *** By rank *)

Definition ranks_ok (db : Db) : Prop :=
  ∀ r, r ∈ ranked_rows db (fts5_query_from_words (SearchRequest.q params)) →
    rank_ok (SearchResult.effective_rank r) ∧ in_i64 (SearchResult.rowid r).

Lemma rank_le_before a b :
  rank_ok (SearchResult.effective_rank a) → rank_ok (SearchResult.effective_rank b) →
  rank_le a b = negb (rank_before (rank_key b) (rank_key a))
  ∧ merge_le a b = negb (rank_before (rank_key b) (rank_key a)).
Proof using Type.
  intros Ha Hb. destruct (finite_order _ _ Ha Hb) as (Hc & Hl & He).
  unfold rank_le, merge_le, rank_key. rewrite Hc, Hl, He, Zle_before. split; [done|].
  rewrite <-Zle_before. set (x := bits_order _). set (y := bits_order _). unfold Z.ltb.
  destruct (Z.compare_spec x y) as [->|Hlt|Hgt]; [by rewrite Z.eqb_refl|done|].
  by rewrite (proj2 (Z.eqb_neq x y)) by lia.
Qed.

Lemma after_rank_before (k : option (f64 * Z)) r :
  (∀ x, k = Some x → rank_ok x.1) → rank_ok (SearchResult.effective_rank r) →
  after_rank (fst <$> k) (snd <$> k) r
  = is_none_or (λ k, rank_before k (rank_key r)) ((λ x, (bits_order x.1, x.2)) <$> k).
Proof using Type.
  intros Hk Hr. destruct k as [[x rid]|]; [|done]. cbn [fmap option_fmap option_map after_rank fst snd].
  destruct (finite_order x _ (Hk _ eq_refl) Hr) as (_ & -> & ->). apply Zlt_before.
Qed.

Lemma ranked_keys_distinct db q (p : SearchResult → bool) :
  NoDup (SearchResult.rowid <$> List.filter p (ranked_rows db q)).
Proof using Type.
  apply filter_fmap_NoDup.
  eapply sublist_NoDup; [apply (omap_key_sublist _ fst)|apply NoDup_fst_map_to_list]. intros [rowid [ty id]] r. cbn.
  destruct (search_index db !! rowid) as [row|]; cbn; [|done].
  destruct (fts_match q row); [|done]. by intros [= <-].
Qed.

Lemma ranked_row_ok db (p : SearchResult → bool) r :
  ranks_ok db →
  r ∈ List.filter p (ranked_rows db (fts5_query_from_words (SearchRequest.q params))) →
  rank_ok (SearchResult.effective_rank r).
Proof using Type. intros Hok [_ Hr]%elem_of_filterb. by apply Hok. Qed.

(** The search of one type, from a position. *)
Lemma rank_results_of db t limit k :
  has_query_text (SearchRequest.q params) = true → ranks_ok db →
  (∀ x, k = Some x → rank_ok x.1) →
  search_filtered db (SearchRequest.q params) (SearchRequest.filters params) (Some t) limit
    (fst <$> k) (snd <$> k)
  = take (Z.to_nat limit)
      (sort_by (λ a b, negb (rank_before (rank_key b) (rank_key a)))
         (List.filter (λ r, is_none_or (λ c, rank_before c (rank_key r))
                              ((λ x, (bits_order x.1, x.2)) <$> k))
            (List.filter (rank_selected db t)
               (ranked_rows db (fts5_query_from_words (SearchRequest.q params)))))).
Proof using Type.
  intros Hq Hok Hk. unfold search_filtered. apply negb_true_iff in Hq. rewrite Hq. f_equal.
  erewrite sort_by_ext_in.
  - f_equal. unfold ranks_ok in Hok.
    revert Hok. generalize (ranked_rows db (fts5_query_from_words (SearchRequest.q params))).
    intros l. unfold rank_selected. cbn [is_none_or].
    induction l as [|r l IH]; intros Hok; [done|]. cbn [List.filter].
    rewrite after_rank_before by (done || apply Hok; left).
    destruct (SearchResult.entity_type r =s t), (selected _ _ _ _ _ _); cbn [andb];
      rewrite ?andb_false_r, ?andb_true_r; cbn [List.filter]; rewrite IH
        by (intros r' Hr'; apply Hok; by right); try done.
  - intros a b Ha Hb. apply rank_le_before; by eapply ranked_row_ok.
Qed.

Lemma rank_types_rows db :
  rank_rows db
  = sort_by (λ a b, negb (rank_before (rank_key b) (rank_key a)))
      (match SearchRequest.kind params with
       | Some t => List.filter (rank_selected db t)
                     (ranked_rows db (fts5_query_from_words (SearchRequest.q params)))
       | None =>
           List.filter (rank_selected db "feed")
             (ranked_rows db (fts5_query_from_words (SearchRequest.q params)))
           ++ List.filter (rank_selected db "track")
                (ranked_rows db (fts5_query_from_words (SearchRequest.q params)))
       end).
Proof using Type.
  unfold rank_rows, rank_types. destruct (SearchRequest.kind params); cbn; by rewrite app_nil_r.
Qed.

(** Rows of two types have different keys. *)
Lemma two_types_distinct db q :
  NoDup (rank_key <$> List.filter (rank_selected db "feed") (ranked_rows db q)
           ++ List.filter (rank_selected db "track") (ranked_rows db q)).
Proof using Type.
  apply (NoDup_fmap_1 snd). rewrite <-list_fmap_compose.
  rewrite (list_fmap_ext _ SearchResult.rowid) by done. rewrite fmap_app.
  apply NoDup_app. split_and!; [apply ranked_keys_distinct| |apply ranked_keys_distinct].
  intros x (a & -> & Ha)%list_elem_of_fmap (b & Hab & Hb)%list_elem_of_fmap.
  apply elem_of_filterb in Ha as [Ht Ha], Hb as [Ht' Hb].
  assert (a = b) as <-.
  { pose proof (ranked_keys_distinct db q (λ _, true)) as Hn. rewrite filter_all in Hn by done.
    by eapply NoDup_fmap_inj. }
  unfold rank_selected in Ht, Ht'. apply andb_true_iff in Ht as [Ht%String.eqb_eq _].
  apply andb_true_iff in Ht' as [Ht'%String.eqb_eq _]. congruence.
Qed.

Definition order_key (x : f64 * Z) : Z * Z := (bits_order x.1, x.2).

Lemma rank_results db limit k :
  has_query_text (SearchRequest.q params) = true → ranks_ok db →
  (∀ x, k = Some x → rank_ok x.1) →
  found_by_rank db (SearchRequest.q params) (SearchRequest.filters params)
    (SearchRequest.kind params) limit (fst <$> k) (snd <$> k)
  = take (Z.to_nat limit) (rest rank_before rank_key (order_key <$> k) (rank_rows db)).
Proof using Type.
  intros Hq Hok Hk. rewrite rank_types_rows. unfold found_by_rank, rest.
  rewrite filter_sort_by; [|intros a b; by apply (not_before_total rank_before)
                           |intros a b c; by apply (not_before_trans rank_before)].
  destruct (SearchRequest.kind params) as [t|]; [by rewrite rank_results_of|].
  rewrite !rank_results_of by done. fold order_key.
  set (le := λ a b, negb (rank_before (rank_key b) (rank_key a))).
  set (p := λ r, is_none_or (λ c, rank_before c (rank_key r)) (order_key <$> k)).
  set (rows := ranked_rows db (fts5_query_from_words (SearchRequest.q params))).
  rewrite (sort_by_ext_in merge_le le).
  - rewrite List.filter_app. apply (take_merge rank_before rank_key).
    rewrite <-List.filter_app. apply filter_fmap_NoDup, two_types_distinct.
  - assert (∀ a t, a ∈ take (Z.to_nat limit) (sort_by le (List.filter p (List.filter (rank_selected db t) rows))) →
      rank_ok (SearchResult.effective_rank a)) as Ha.
    { intros a t Ha. apply elem_of_take in Ha as (i & Ha & _). apply list_elem_of_lookup_2 in Ha.
      rewrite sort_by_perm in Ha. apply elem_of_filterb in Ha as [_ Ha]. by eapply ranked_row_ok. }
    intros a b [Ha'|Ha']%elem_of_app [Hb'|Hb']%elem_of_app; apply rank_le_before; by eapply Ha.
Qed.

Lemma rank_rows_ordered db : ordered rank_before rank_key (rank_rows db).
Proof using Type.
  rewrite rank_types_rows. apply (sort_ordered rank_before rank_key).
  destruct (SearchRequest.kind params) as [t|]; [|apply two_types_distinct].
  apply (NoDup_fmap_1 snd). rewrite <-list_fmap_compose.
  rewrite (list_fmap_ext _ SearchResult.rowid) by done. apply ranked_keys_distinct.
Qed.

Lemma elem_of_rank_rows db r :
  r ∈ rank_rows db ↔
  r ∈ ranked_rows db (fts5_query_from_words (SearchRequest.q params))
  ∧ ∃ t, t ∈ rank_types ∧ rank_selected db t r = true.
Proof using Type.
  unfold rank_rows. rewrite sort_by_perm. rewrite list_elem_of_join. split.
  - intros (l & Hr & (t & -> & Ht)%list_elem_of_fmap). apply elem_of_filterb in Hr as [? ?].
    split; [done|]. by exists t.
  - intros (Hr & t & Ht & Hs). eexists. split; [|by apply list_elem_of_fmap_2].
    by apply elem_of_filterb.
Qed.

Lemma rank_route dbs dbs' :
  has_word = true → known_type (SearchRequest.kind params) = true →
  (∀ n, ranks_ok (dbs n)) →
  ListRoute rank_before rank_key encode_rank_key rank_key_ok
    (λ n c, run_search (dbs n) (dbs' n) (with_search_cursor params c))
    (λ n, rank_rows (dbs n)) (λ _ _, true) (λ n, search_show (dbs' n)).
Proof using All.
  intros Hq Hk Hdb. unfold has_word in Hq. apply negb_true_iff in Hq.
  pose proof (query_text _ Hq) as Hqt. split.
  - intros n. apply rank_rows_ordered.
  - intros n r [Hr _]%elem_of_rank_rows. destruct (Hdb n r Hr) as [Hx Hi].
    split; [done|]. by exists (SearchResult.effective_rank r).
  - intros n c Hc.
    assert (∃ k, order_key <$> k = c ∧ (∀ x, k = Some x → rank_ok x.1)
      ∧ (match encode_rank_key <$> c with
         | Some s => let? c := read_cursor false s in Ok (Some c)
         | None => Ok None end) = Ok (E := ApiError) (inr (A := option Z * Z) <$> k))
      as (k & <- & Hk1 & Hread).
    { destruct c as [[o rid]|]; [|by exists None].
      destruct (Hc _ eq_refl) as (Hi & x & Hx & Ho). exists (Some (x, rid)).
      cbn [fmap option_fmap option_map]. unfold order_key. cbn [fst snd] in *.
      split_and!; [by rewrite Ho|by intros ? [= <-]|].
      by rewrite (rank_cursor_round_trip _ x) by done. }
    destruct (page_of_stretch rank_key encode_rank_key (search_show (dbs' n)) (search_limit params)
      (rest rank_before rank_key (order_key <$> k) (rank_rows (dbs n))) (search_limit_pos _))
      as (p & q & next & E & Hp & Hn).
    exists p, q, next. split_and!; [done| |done]. rewrite <-Hp, <-over_read by apply search_limit_pos.
    unfold run_search.
    cbn [with_search_cursor SearchRequest.limit SearchRequest.q SearchRequest.cursor].
    rewrite Hq, Hread. cbn [rbind]. unfold search_rows.
    cbn [with_search_cursor SearchRequest.kind SearchRequest.filters SearchRequest.q].
    unfold known_type in Hk. rewrite Hk. cbn [rbind].
    replace (match inr <$> k with Some (inr c) => Some c | _ => None end) with k by by destruct k.
    rewrite rank_results, search_limit_succ by done.
    set (r := take (S (search_limit params))
                (rest rank_before rank_key (order_key <$> k) (rank_rows (dbs n)))).
    assert (∀ x, x ∈ r → rank_ok (SearchResult.effective_rank x)) as Hrok.
    { intros x Hx. apply elem_of_take in Hx as (i & Hx & _). apply list_elem_of_lookup_2 in Hx.
      apply elem_of_rest in Hx as [[Hx _]%elem_of_rank_rows _]. by apply (Hdb n). }
    rewrite length_fmap, <-!fmap_take, <-!list_fmap_compose. fold (search_limit params).
    assert (∀ i, next_search_cursor false <$> ((λ r, DatedSearchResult.mk r None) <$> r) !! i
      = encode_rank_key ∘ rank_key <$> r !! i) as ->; [|done].
    intros i. rewrite list_lookup_fmap. destruct (r !! i) as [x|] eqn:Ex; [|done].
    cbn [fmap option_fmap option_map]. f_equal. unfold compose, encode_rank_key, rank_key. cbn [fst snd].
    rewrite bits_at_order; [done|]. apply Hrok. by eapply list_elem_of_lookup_2.
Qed.
End search.
