(* ===== verification/SearchProps.v ===== *)
(** Properties of the search: what an accepted request states, the walks over
    its pages, and the hosts that a host filter takes. *)

From Stdlib Require Import Floats.SpecFloat.
From S2P Require Import Prelude.
From S2P Require Import Model.
From S2P Require Import Event.
From S2P Require Import Float64.
From S2P Require Import Crates.
From S2P Require Import Store.
From S2P Require Import Search.
From S2P Require Import Sync.
From S2P Require Import Paging.
From S2P Require Import Listings.
From S2P Require Import ListingProps.
From S2P Require Import SearchRead.
From S2P Require Import SearchWalk.
From S2P Require Import Samples.

(** ** Accepted requests *)

Lemma filter_spec_name name spec :
  filter_spec name = Some spec → SearchFilterSpec.name spec = name ∧ spec ∈ SEARCH_FILTERS.
Proof.
  intros [Hin Hn]%find_some. apply String.eqb_eq in Hn. split; [done|]. by apply list_elem_of_In.
Qed.

(** A name with its filter runs through the seventeen. *)
Ltac each_filter Hs :=
  apply filter_spec_name in Hs as [<- Hs];
  unfold SEARCH_FILTERS in Hs; cbn zeta in Hs;
  repeat (apply elem_of_cons in Hs as [->|Hs]; [|]); [..|by apply not_elem_of_nil in Hs].

Section parse.
Context `{Crates} `{SearchCrates}.

(** What every filter of a request that is read keeps. *)
Lemma read_filters_ind (P : SearchFilters → Prop) pairs :
  (∀ name value spec g g', (name, value) ∈ pairs → filter_spec name = Some spec →
     (repeats spec = true → (exclusion_count g < SEARCH_EXCLUSION_MAX)%nat) →
     add_filter name value g = Ok g' → P g → P g') →
  ∀ seen f f', read_filters pairs seen f = Ok f' → P f → P f'.
Proof using Type.
  induction pairs as [|[name value] pairs IH]; intros Hstep seen f f'; cbn [read_filters].
  { by intros [= <-]. }
  assert (∀ seen g, read_filters pairs seen g = Ok f' → P g → P f') as IH'.
  { intros seen' g. apply IH. intros n v spec g1 g2 Hin. by apply Hstep; right. }
  destruct (filter_spec name) as [spec|] eqn:Es; [|by apply IH'].
  destruct (negb (repeats spec) && _); [done|].
  destruct (repeats spec && _) eqn:Ee; [done|].
  destruct (add_filter name value f) as [g|] eqn:Ea; [|done]. cbn [rbind]. intros Hr HP.
  eapply IH'; [exact Hr|]. eapply (Hstep name value spec f g); [left|done| |done|done].
  intros Hrep. rewrite Hrep, andb_true_l in Ee. by apply Nat.leb_gt in Ee.
Qed.

Lemma find_all {A} (p : A → bool) l : find p l = None → ∀ x, x ∈ l → p x = false.
Proof using Type. intros Hf x Hx. eapply find_none; [exact Hf|]. by apply list_elem_of_In. Qed.

Lemma add_filter_count name value spec g g' :
  filter_spec name = Some spec → add_filter name value g = Ok g' →
  exclusion_count g' = (if repeats spec then S (exclusion_count g) else exclusion_count g).
Proof using Type.
  intros Hs. unfold exclusion_count, add_filter.
  destruct g as [inc exc [kinds tracks lo hi after before_end dlo dhi host not_hosts]].
  each_filter Hs; cbn -[fts5_phrases parse_filter_kinds parse_filter_integer parse_filter_day
    parse_filter_host];
    first
      [ destruct (fts5_phrases value) as [|p ps]; [done|]; intros [= <-]
      | destruct (parse_filter_kinds value); cbn; [|done]; intros [= <-]
      | destruct (parse_filter_integer value); cbn; [|done]; intros [= <-]
      | destruct (parse_filter_day value); cbn; [|done]; intros [= <-]
      | destruct (parse_filter_host value); cbn; [|done]; intros [= <-] ];
    cbn; rewrite ?length_app; cbn; lia.
Qed.

(** The text filters of a request: words, and the field of a name it has. *)
Definition text_ok_in (pairs : list (string * string)) (t : TextFilter) : Prop :=
  TextFilter.phrases t ≠ [] ∧ Forall literal (TextFilter.phrases t)
  ∧ ∃ name value spec, (name, value) ∈ pairs ∧ filter_spec name = Some spec
      ∧ (text_field name).1 = TextFilter.field t
      ∧ existsb (String.eqb name) SEARCH_VALUE_FILTERS = false.

Lemma add_filter_texts pairs name value spec g g' :
  (name, value) ∈ pairs → filter_spec name = Some spec → add_filter name value g = Ok g' →
  (∀ t, t ∈ SearchFilters.include g ++ SearchFilters.exclude g → text_ok_in pairs t) →
  ∀ t, t ∈ SearchFilters.include g' ++ SearchFilters.exclude g' → text_ok_in pairs t.
Proof using Type.
  intros Hin Hs Ha Hg t Ht. unfold add_filter in Ha.
  destruct (existsb (String.eqb name) SEARCH_VALUE_FILTERS) eqn:Ev.
  { destruct (set_value _ _ _); [|done]. injection Ha as <-. by apply Hg. }
  pose proof (phrases_literal value) as Hl.
  destruct (fts5_phrases value) as [|p ps] eqn:Ep; [done|].
  destruct (text_field name) as [field excluded] eqn:Et. setoid_rewrite elem_of_app in Hg.
  assert (text_ok_in pairs (TextFilter.mk field (p :: ps))) as Hnew.
  { split_and!; [done|done|]. exists name, value, spec. by rewrite Et. }
  destruct excluded; injection Ha as <-; cbn [SearchFilters.include SearchFilters.exclude] in Ht;
    rewrite !elem_of_app, ?list_elem_of_singleton in Ht; naive_solver.
Qed.

(** Each positive filter is read once. *)
Lemma read_filters_once pairs : ∀ seen f f' name spec,
  read_filters pairs seen f = Ok f' → filter_spec name = Some spec → repeats spec = false →
  (length (List.filter (λ p, p.1 =s name) pairs) ≤ (if decide (name ∈ seen) then 0 else 1))%nat.
Proof using Type.
  induction pairs as [|[n v] pairs IH]; intros seen f f' name spec; cbn [read_filters]; [cbn; lia|].
  intros Hr Hs Hp. cbn [List.filter]. 
  destruct (filter_spec n) as [sp|] eqn:En.
  - destruct (negb (repeats sp) && existsb (String.eqb n) seen) eqn:Eseen; [done|].
    destruct (repeats sp && _); [done|]. destruct (add_filter n v f) as [g|]; [|done].
    cbn [rbind] in Hr. pose proof (IH _ _ _ name spec Hr Hs Hp) as Hle. cbn [fst].
    destruct (n =s name) eqn:E.
    + apply String.eqb_eq in E. subst n. rewrite Hs in En. injection En as <-.
      rewrite Hp in Eseen, Hle. cbn in Eseen.
      rewrite decide_True in Hle by left. cbn [length].
      rewrite decide_False; [lia|]. intros Hin.
      apply not_true_iff_false in Eseen. apply Eseen. apply existsb_exists.
      exists name. split; [by apply list_elem_of_In|apply String.eqb_refl].
    + apply String.eqb_neq in E. etrans; [exact Hle|].
      destruct (repeats sp); [done|].
      destruct (decide (name ∈ n :: seen)) as [Hx|Hx], (decide (name ∈ seen)) as [Hy|Hy]; try lia.
      exfalso. apply Hx. by right.
  - cbn [fst]. destruct (n =s name) eqn:E.
    + apply String.eqb_eq in E. congruence.
    + by eapply IH.
Qed.
End parse.

(** ** The checks, one by one *)

Section checks.
Context `{Crates} `{SearchCrates} `{Fts}.

Lemma parse_checks pairs r :
  parse_search_request pairs = Ok r →
  check_known pairs = Ok tt ∧ check_applies (SearchRequest.kind r) pairs = Ok tt
  ∧ read_filters pairs [] no_filters = Ok (SearchRequest.filters r)
  ∧ (fts5_query_from_words (SearchRequest.q r) ≠ ""%string
     ∨ has_positive (SearchRequest.filters r) = true).
Proof using Type.
  unfold parse_search_request. intros Hp.
  destruct (single pairs "q") as [q|]; [|done]. destruct (single pairs "type") as [kind|]; [|done].
  destruct (single pairs "cursor") as [cursor|]; [|done].
  destruct (single pairs "include") as [include|]; [|done].
  destruct (single pairs "limit") as [limit|]; [|done]. cbn [rbind] in Hp.
  destruct (match limit with None => Ok None | Some v => _ end) as [lim|]; [|done].
  cbn [rbind] in Hp.
  destruct (check_known pairs) as [[]|]; [|done].
  destruct (check_applies kind pairs) as [[]|] eqn:Ea; [|done].
  destruct (read_filters pairs [] no_filters) as [f|]; [|done]. cbn [rbind] in Hp.
  destruct (str_is_empty _ && _) eqn:Ew; [done|]. injection Hp as <-.
  split_and!; [done|done|done|]. cbn [SearchRequest.filters SearchRequest.q].
  apply andb_false_iff in Ew as [Ew|Ew]; [left; intros He; by rewrite He in Ew|right].
  by apply negb_false_iff in Ew.
Qed.

Lemma check_known_ok pairs name value :
  check_known pairs = Ok tt → (name, value) ∈ pairs →
  name ∈ SINGLE ∨ ∃ spec, filter_spec name = Some spec.
Proof using Type.
  unfold check_known. intros Ek Hin. destruct (find _ pairs) as [[]|] eqn:Efi; [done|].
  pose proof (find_all _ _ Efi _ Hin) as Hx. cbn [fst] in Hx.
  destruct (existsb (String.eqb name) SINGLE) eqn:Es.
  { left. apply existsb_exists in Es as (n & Hn & ->%String.eqb_eq). by apply list_elem_of_In. }
  right. destruct (filter_spec name) as [spec|]; [by exists spec|done].
Qed.

Lemma check_applies_ok kind pairs name value spec t :
  check_applies kind pairs = Ok tt → (name, value) ∈ pairs → filter_spec name = Some spec →
  t ∈ request_types kind → applies_to spec t = true.
Proof using Type.
  unfold check_applies. intros Ea Hin Hs Ht. destruct (find _ pairs) as [[]|] eqn:Efi; [done|].
  pose proof (find_all _ _ Efi _ Hin) as Hx. cbn [fst] in Hx. rewrite Hs in Hx.
  cbn [is_some_and] in Hx. apply negb_false_iff in Hx. rewrite forallb_forall in Hx.
  by apply Hx, list_elem_of_In.
Qed.

(** A text filter that applies to the types of the request has its target. *)
Lemma text_target kind name spec db ty id row :
  filter_spec name = Some spec → (∀ t, t ∈ request_types kind → applies_to spec t = true) →
  existsb (String.eqb name) SEARCH_VALUE_FILTERS = false →
  is_Some (target (text_field name).1 (unwrap_or ""%string kind) db ty id row).
Proof using Type.
  intros Hs Happ Hv. unfold target.
  destruct (unwrap_or ""%string kind =s "publisher") eqn:Epub.
  - destruct kind as [k|]; [|done]. apply String.eqb_eq in Epub. cbn in Epub. subst k.
    pose proof (Happ "publisher"%string ltac:(left)) as Hap. clear Happ.
    each_filter Hs; try done; by eexists.
  - destruct (text_field name).1; try by eexists. by repeat case_match; eexists.
Qed.
End checks.

(** ** Properties of an accepted request *)

(** C18: an accepted search request keeps the rules of the route, whatever its
    query string holds. It excludes ten times at most; each parameter is known,
    and each filter applies to every type that is searched; a positive filter
    stands once; it has a word to find or a positive filter. Each text filter
    has a row and a column to read, and its phrases are quoted texts, so the
    expression that goes to FTS5 holds nothing else. *)
Theorem parsed_search_ok `{Crates} `{SearchCrates} `{Fts} pairs r :
  parse_search_request pairs = Ok r →
  let f := SearchRequest.filters r in
  let kind := SearchRequest.kind r in
  (exclusion_count f ≤ SEARCH_EXCLUSION_MAX)%nat
  ∧ (∀ name value, (name, value) ∈ pairs →
       name ∈ SINGLE ∨ ∃ spec, filter_spec name = Some spec
         ∧ ∀ t, t ∈ request_types kind → applies_to spec t = true)
  ∧ (∀ name spec, filter_spec name = Some spec → repeats spec = false →
       (length (List.filter (λ p, p.1 =s name) pairs) ≤ 1)%nat)
  ∧ (fts5_query_from_words (SearchRequest.q r) ≠ ""%string ∨ has_positive f = true)
  ∧ (∀ t, t ∈ SearchFilters.include f ++ SearchFilters.exclude f →
       TextFilter.phrases t ≠ [] ∧ Forall literal (TextFilter.phrases t)
       ∧ ∀ db ty id row, is_Some (target (TextFilter.field t) (unwrap_or ""%string kind) db ty id row)).
Proof.
  intros (Ek & Ea & Ef & Ew)%parse_checks f kind. split_and!.
  - apply (read_filters_ind (λ g, (exclusion_count g ≤ SEARCH_EXCLUSION_MAX)%nat) pairs)
      with (seen := []) (f := no_filters); [|done|cbn; lia].
    intros name value spec g g' _ Hs Hrep Hg Hle. rewrite (add_filter_count _ _ _ _ _ Hs Hg).
    destruct (repeats spec); [by apply Hrep|done].
  - intros name value Hin. destruct (check_known_ok pairs name value Ek Hin) as [?|[spec Hs]]; [by left|].
    right. exists spec. split; [done|]. intros t Ht. exact (check_applies_ok _ _ _ _ _ t Ea Hin Hs Ht).
  - intros name spec Hs Hrep. by apply (read_filters_once pairs [] no_filters f name spec).
  - done.
  - intros t Ht.
    assert (text_ok_in pairs t) as (Hne & Hl & name & value & spec & Hin & Hs & Hf & Hv).
    { revert t Ht. apply (read_filters_ind (λ g, ∀ t, t ∈ SearchFilters.include g
        ++ SearchFilters.exclude g → text_ok_in pairs t) pairs) with (seen := []) (f := no_filters);
        [|done|by intros t []%not_elem_of_nil].
      intros name value spec g g' Hin Hs _ Ha Hg. by eapply add_filter_texts. }
    split_and!; [done|done|]. intros db ty id row. rewrite <-Hf.
    apply (text_target kind name spec); [done| |done].
    intros t' Ht'. exact (check_applies_ok _ _ _ _ _ t' Ea Hin Hs Ht').
Qed.

(** ** The walks *)

Lemma walk_nonempty {T} (request : nat → option string → result ApiError (QueryResponse T))
    fuel n c pages :
  walk request fuel n c = Some pages → pages ≠ [].
Proof.
  destruct fuel as [|fuel]; cbn [walk]; [done|]. destruct (request n c) as [r|]; [|done].
  destruct (QueryResponse.cursor r); [|by intros [= <-]]. by intros (ps & _ & ->)%fmap_Some.
Qed.

(** Hits of a search by rank have no date. *)
Definition undated (l : list SearchResult) : list DatedSearchResult :=
  (λ r, DatedSearchResult.mk r None) <$> l.

Lemma undated_concat parts : concat (undated <$> parts) = undated (concat parts).
Proof.
  induction parts as [|p parts IH]; [done|]. unfold undated in *.
  cbn [fmap list_fmap concat]. by rewrite fmap_app, <-IH.
Qed.

Lemma elem_of_undated d l :
  d ∈ undated l ↔ ∃ r, d = DatedSearchResult.mk r None ∧ r ∈ l.
Proof. apply list_elem_of_fmap. Qed.

Section walks.
Context `{Crates} `{Web} `{Fts} `{Base64Ok}.
Context (params : SearchRequest).

(** All hits of a request in a state of the node, in their order. *)
Definition search_hits (db : Db) : list DatedSearchResult :=
  if has_word params then undated (rank_rows params db)
  else date_rows params db.

Definition show_hit (db : Db) (d : DatedSearchResult) : SearchResponseItem :=
  search_show params db (DatedSearchResult.result d).

(** A cursor can carry the position of each row: SQLite gives a number as
    rank, and dates and row ids fit [i64]. *)
Definition search_ready (db : Db) : Prop :=
  if has_word params then ranks_ok params db
  else ∀ d, d ∈ dated_rows db → date_key_ok (date_key d).
End walks.

(** C17: a client that follows the cursors of a search comes to an end with
    every hit. While the node is at rest, a search by rank and a search by date
    take at most one request for each hit and one more, and give all hits in
    order, each once: also when a search without a type reads feeds and tracks
    apart and merges them page by page. *)
Theorem search_walk_ends `{Crates} `{Web} `{Fts} `{Base64Ok} db params :
  known_type (SearchRequest.kind params) = true → search_ready params db →
  NoDup (search_hits params db)
  ∧ ∃ pages,
      walk (λ _ c, run_search db db (with_search_cursor params c))
        (S (length (search_hits params db))) 0 None = Some pages
      ∧ concat pages = show_hit params db <$> search_hits params db.
Proof.
  intros Hk Hr. unfold search_ready, search_hits in *. destruct (has_word params) eqn:Hw.
  - pose proof (rank_route params (λ _, db) (λ _, db) Hw Hk (λ _, Hr)) as Hroute.
    unfold undated. split.
    + apply (NoDup_fmap_1 (rank_key ∘ DatedSearchResult.result)). rewrite <-list_fmap_compose.
      apply (ordered_NoDup rank_before rank_key), rank_rows_ordered.
    + rewrite length_fmap.
      destruct (route_walk_ends Hroute (rank_rows params db) (λ _, true) (search_show params db))
        as (pages & Hp & Hc); [done|]. exists pages. split; [done|].
      by rewrite Hc, filter_all, <-list_fmap_compose.
  - pose proof (date_route params (λ _, db) (λ _, db) Hw Hk (λ _, Hr)) as Hroute. split.
    + eapply (NoDup_fmap_1 date_key), (ordered_NoDup date_before date_key), date_rows_ordered.
    + destruct (route_walk_ends Hroute (date_rows params db) (λ _, true) (show_hit params db))
        as (pages & Hp & Hc); [done|]. exists pages. split; [done|]. by rewrite Hc, filter_all.
Qed.

(** C12: a search over a changing node repeats nothing and misses nothing that
    stays. Each page shows hits of the state that its request met; no hit is
    shown twice at one position; and a hit that every one of these states
    holds, with the same rank or date, is shown. *)
Theorem search_walk_complete `{Crates} `{Web} `{Fts} `{Base64Ok} dbs dbs' params fuel pages :
  known_type (SearchRequest.kind params) = true → (∀ n, search_ready params (dbs n)) →
  walk (λ n c, run_search (dbs n) (dbs' n) (with_search_cursor params c)) fuel 0 None = Some pages →
  ∃ parts : list (list DatedSearchResult),
    pages = imap (λ n part, show_hit params (dbs' n) <$> part) parts
    ∧ NoDup (concat parts)
    ∧ (∀ n part d, parts !! n = Some part → d ∈ part → d ∈ search_hits params (dbs n))
    ∧ (∀ d, (∀ n, (n < length pages)%nat → d ∈ search_hits params (dbs n)) → d ∈ concat parts).
Proof.
  intros Hk Hr Hwalk. unfold search_ready, search_hits in *. destruct (has_word params) eqn:Hw.
  - pose proof (rank_route params dbs dbs' Hw Hk Hr) as Hroute.
    destruct (route_walk_keeps Hroute fuel pages Hwalk) as (parts & -> & Hn & Hin & Hall).
    exists (undated <$> parts). rewrite undated_concat. split_and!.
    + rewrite imap_fmap. apply imap_ext. intros i x _. unfold compose, undated.
      by rewrite <-list_fmap_compose.
    + assert (Inj (=) (=) (λ r, DatedSearchResult.mk r None)) by (by intros x y [= ->]).
      by apply (NoDup_fmap_2 _).
    + intros n part d. rewrite list_lookup_fmap.
      intros (p & Hp & ->)%fmap_Some (r & -> & Hd)%elem_of_undated.
      apply elem_of_undated. exists r. split; [done|]. by eapply Hin.
    + intros d Hd. assert (0 < length parts)%nat as Hpos.
      { destruct parts; [by destruct (walk_nonempty _ _ _ _ _ Hwalk)|cbn; lia]. }
      rewrite length_imap in *.
      destruct (proj1 (elem_of_undated _ _) (Hd 0%nat Hpos)) as (r & -> & _).
      apply elem_of_undated. exists r. split; [done|]. apply Hall. intros n Hlt. split; [|done].
      by apply Hd, elem_of_undated in Hlt as (x & [= <-] & ?).
  - pose proof (date_route params dbs dbs' Hw Hk Hr) as Hroute.
    destruct (route_walk_keeps Hroute fuel pages Hwalk) as (parts & -> & Hn & Hin & Hall).
    exists parts. split_and!; [done|done| |].
    + intros n part d Hp Hd. by eapply Hin.
    + intros d Hd. apply Hall. intros n Hlt. split; [by apply Hd|done].
Qed.

(** ** Hosts *)

Lemma split_on_nonempty c s : split_on c s ≠ [].
Proof. destruct s as [|a s]; cbn; [done|]. by repeat case_match. Qed.

Lemma split_on_app c p t : split_on c (p ++ String c t)%string = split_on c p ++ split_on c t.
Proof.
  induction p as [|a p IH].
  - change (split_on c (String c t) = [""%string] ++ split_on c t). cbn [split_on].
    by rewrite Ascii.eqb_refl.
  - rewrite app_cons. cbn [split_on]. rewrite IH. destruct (Ascii.eqb a c); [done|].
    assert (split_on c p ≠ []) as Hne by apply split_on_nonempty.
    by destruct (split_on c p).
Qed.

(** The parts, joined again, are the text. *)
Lemma concat_split_on c s : String.concat (String c "") (split_on c s) = s.
Proof.
  induction s as [|a s IH]; [done|]. cbn [split_on].
  pose proof (split_on_nonempty c s) as Hne.
  destruct (Ascii.eqb a c) eqn:E.
  - apply Ascii.eqb_eq in E as ->. rewrite <-IH at 2. by destruct (split_on c s).
  - rewrite <-IH at 2. destruct (split_on c s) as [|p [|q ps]]; done.
Qed.

Lemma concat_app_parts c a l b m :
  String.concat (String c "") ((a :: l) ++ b :: m)
  = (String.concat (String c "") (a :: l) ++ String c (String.concat (String c "") (b :: m)))%string.
Proof.
  revert a. induction l as [|x l IH]; intros a; [done|].
  change (String.concat (String c "") ((a :: x :: l) ++ b :: m))
    with (a ++ String c (String.concat (String c "") ((x :: l) ++ b :: m)))%string.
  rewrite IH. cbn [String.concat]. by rewrite !str_app_assoc.
Qed.

Lemma substring_all s : String.substring 0 (String.length s) s = s.
Proof. induction s as [|a s IH]; [done|]. cbn. by rewrite IH. Qed.

Lemma substring_app p s : String.substring (String.length p) (String.length s) (p ++ s) = s.
Proof.
  induction p as [|a p IH]; [apply substring_all|exact IH].
Qed.

(** [str::ends_with]. *)
Lemma ends_with_spec s t : ends_with s t = true ↔ ∃ p, s = (p ++ t)%string.
Proof.
  unfold ends_with. split.
  - intros [Hl%Nat.leb_le Hs%String.eqb_eq]%andb_true_iff.
    exists (String.substring 0 (String.length s - String.length t) s). rewrite <-Hs at 2.
    clear Hs. remember (String.length s - String.length t)%nat as n eqn:Hn.
    replace (String.length t) with (String.length s - n)%nat by lia. clear Hn Hl.
    revert s. induction n as [|n IH]; intros s.
    + rewrite Nat.sub_0_r, substring_all. by destruct s.
    + destruct s as [|a s]; [done|]. exact (f_equal (String a) (IH s)).
  - intros [p ->]. rewrite str_length_app. apply andb_true_iff. split; [apply Nat.leb_le; lia|].
    rewrite Nat.add_sub, substring_app. apply String.eqb_refl.
Qed.

(** the host filters compare names label by label. A feed matches [host]
    when the labels of its host end with the labels of the filter, so a name is
    matched with its subdomains and nothing else ([example.com] does not take
    [badexample.com]); [not_host] removes just these, and keeps a hit whose
    feed the node does not hold. *)
Theorem host_filter_labels `{Crates} `{Web} f host :
  (host_match (Some f) host = true ↔
   ∃ sub, split_on "." (feed_host_of (Feed.feed_url f)) = sub ++ split_on "." host)
  ∧ host_match None host = false.
Proof.
  split; [|done]. unfold host_match. cbn [is_some_and].
  set (h := feed_host_of (Feed.feed_url f)). rewrite orb_true_iff, String.eqb_eq, ends_with_spec.
  split.
  - intros [->|[p ->]]; [by exists []|]. exists (split_on "." p). apply split_on_app.
  - intros [sub Hs]. rewrite <-(concat_split_on "." h), Hs.
    destruct sub as [|a l]; [left; apply concat_split_on|right].
    pose proof (split_on_nonempty "." host) as Hne. pose proof (concat_split_on "." host) as Hc.
    destruct (split_on "." host) as [|b m]; [done|].
    exists (String.concat "." (a :: l)). rewrite concat_app_parts, Hc. done.
Qed.

(** ** Examples *)

#[local] Existing Instances plain_base64 plain_base64_ok plain_web plain_fts sample_crates.

Definition plain_search : SearchCrates := {|
  parse_host := Some;
  calendar_midnight := λ y m d, Some (((y * 12 + m) * 31 + d) * 86400)
|}.
#[local] Existing Instance plain_search.

Definition sample_pairs : list (string * string) :=
  [("q", "One Two"); ("type", "track"); ("not_title", "Live"); ("max_duration", "300")]%string.

Definition request_of (r : result SearchError SearchRequest) : SearchRequest :=
  match r with Ok r => r | Err _ => SearchRequest.mk "" None None None None no_filters end.

Definition sample_request : SearchRequest := request_of (parse_search_request sample_pairs).

Lemma parsed_search_ok_witness :
  parse_search_request sample_pairs = Ok sample_request
  ∧ (exclusion_count (SearchRequest.filters sample_request) ≤ SEARCH_EXCLUSION_MAX)%nat
  ∧ is_Some (target TextField.Title "track" sample_primary "track" "" 7).
Proof.
  assert (parse_search_request sample_pairs = Ok sample_request) as E by (vm_compute; reflexivity).
  split; [exact E|].
  destruct (parsed_search_ok sample_pairs sample_request E) as (Hc & _ & _ & _ & Ht).
  split; [exact Hc|].
  refine (proj2 (proj2 (Ht (TextFilter.mk TextField.Title (fts5_phrases "Live")) _))
            sample_primary "track"%string ""%string 7).
  apply list_elem_of_In. vm_compute. left. reflexivity.
Defined.

(** A search of one row a page, for all feeds and tracks with the words. *)
Definition word_request (q : string) : SearchRequest :=
  SearchRequest.mk q None (Some 1) None None no_filters.

Lemma word_request_ready q :
  q = "One Two Album"%string ∨ q = ""%string → search_ready (word_request q) sample_primary.
Proof.
  intros [->| ->].
  - intros r Hr. vm_compute in Hr.
    repeat (apply elem_of_cons in Hr as [->|Hr];
      [split; [split_and!; [reflexivity|reflexivity|discriminate]|split; vm_compute; discriminate]|]).
    by apply not_elem_of_nil in Hr.
  - intros d Hd. vm_compute in Hd.
    repeat (apply elem_of_cons in Hd as [->|Hd];
      [split; [split; vm_compute; discriminate|intros z Hz; vm_compute in Hz;
         first [discriminate|injection Hz as <-; split; vm_compute; discriminate]]|]).
    by apply not_elem_of_nil in Hd.
Qed.

Lemma search_walk_ends_witness :
  ∃ pages,
    walk (λ _ c, run_search sample_primary sample_primary
                   (with_search_cursor (word_request "One Two Album") c)) 4 0 None = Some pages
    ∧ length (concat pages) = 3%nat.
Proof.
  destruct (search_walk_ends sample_primary (word_request "One Two Album") eq_refl
    (word_request_ready _ (or_introl eq_refl))) as (_ & pages & Hw & Hc).
  exists pages. split; [exact Hw|]. rewrite Hc. vm_compute. reflexivity.
Defined.

(** A node that drops the feed from its index after the first request. *)
Definition search_states (n : nat) : Db :=
  match n with
  | O => sample_primary
  | S _ => (delete_from_search_index "feed" "feed-1" sample_primary).1
  end.

Definition search_pages : list (list SearchResponseItem) :=
  match walk (λ n c, run_search (search_states n) (search_states n)
                       (with_search_cursor (word_request "") c)) 9 0 None with
  | Some pages => pages
  | None => []
  end.

(** The hit of the second track, which stays. *)
Definition staying_hit : DatedSearchResult :=
  let id := pair_json "feed-1" "track-2" in
  DatedSearchResult.mk
    (SearchResult.mk "track" id (f64_of 0) (hit_quality sample_primary "track" id) (f64_of 0)
       (rowid_for "track" id))
    (Some 900).

Lemma search_walk_complete_witness :
  ∃ parts : list (list DatedSearchResult),
    search_pages = imap (λ n part, show_hit (word_request "") (search_states n) <$> part) parts
    ∧ length search_pages = 2%nat ∧ staying_hit ∈ concat parts.
Proof.
  destruct (search_walk_complete search_states search_states (word_request "") 9 search_pages)
    as (parts & Hp & _ & _ & Hall).
  - reflexivity.
  - intros [|n]; [exact (word_request_ready _ (or_intror eq_refl))|].
    intros d Hd. vm_compute in Hd.
    repeat (apply elem_of_cons in Hd as [->|Hd];
      [split; [split; vm_compute; discriminate|intros z Hz; vm_compute in Hz;
         first [discriminate|injection Hz as <-; split; vm_compute; discriminate]]|]).
    by apply not_elem_of_nil in Hd.
  - vm_compute. reflexivity.
  - exists parts. split_and!; [exact Hp|vm_compute; reflexivity|]. apply Hall.
    intros [|n] _; apply list_elem_of_In; vm_compute;
      repeat first [left; reflexivity|right].
Defined.
