(* ===== verification/SseProps.v ===== *)
(** What makes the registry of the event streams correct (SseRegistry.v):
    its bounds and its replay under interleaved publications, and the live
    items that a client learns from the frames. *)

From S2P Require Import Prelude.
From S2P Require Import Model.
From S2P Require Import Event.
From S2P Require Import SseRegistry.

(** ** The last frames *)

Definition newest {A} (n : nat) (l : list A) : list A := drop (length l - n) l.

Lemma newest_length {A} n (l : list A) : (length (newest n l) ≤ n)%nat.
Proof. unfold newest. rewrite length_drop. lia. Qed.

(** One turn of a ring buffer. *)
Lemma newest_snoc {A} n (l : list A) x :
  (0 < n)%nat →
  newest n (l ++ [x])
  = (if (n <=? length (newest n l))%nat then drop 1 (newest n l) else newest n l) ++ [x].
Proof.
  intros Hn. unfold newest. rewrite length_app, length_drop. cbn [length].
  destruct (n <=? length l - (length l - n))%nat eqn:E.
  - apply Nat.leb_le in E. rewrite drop_drop.
    rewrite drop_app_le by lia. do 2 f_equal. lia.
  - apply Nat.leb_gt in E. rewrite drop_app_le by lia. do 2 f_equal. lia.
Qed.

(** The frames of one feed that wait for their buffer. *)
Definition flight_of (g : string) (flight : list (string * SseFrame)) : list SseFrame :=
  snd <$> List.filter (λ x, x.1 =s g) flight.

Lemma flight_of_app g l k : flight_of g (l ++ k) = flight_of g l ++ flight_of g k.
Proof. unfold flight_of. by rewrite List.filter_app, fmap_app. Qed.

Lemma flight_of_one g g' frame :
  flight_of g [(g', frame)] = if g' =s g then [frame] else [].
Proof. unfold flight_of. cbn. by destruct (g' =s g). Qed.

(** ** The invariant *)

(** The frames of a channel are those that its buffer has taken, in the order
    in which it took them, and those that wait; the buffer has the newest. *)
Definition accounted (g : string) (r : SseRegistry) (flight : list (string * SseFrame)) : Prop :=
  ∃ taken, unwrap_or [] (SseRegistry.senders r !! g) ≡ₚ taken ++ flight_of g flight
    ∧ recent_events g r = newest SSE_RING_BUFFER_SIZE taken.

Definition sse_ok (s : SseState) : Prop :=
  let r := SseState.registry s in
  (feed_count r ≤ MAX_SSE_REGISTRY_FEEDS)%nat
  ∧ dom (SseRegistry.ring_buffers r) ⊆ dom (SseRegistry.senders r)
  ∧ SseRegistry.active_connections r = Z.of_nat (SseState.open s)
  ∧ SseRegistry.active_connections r ≤ MAX_SSE_CONNECTIONS
  ∧ (∀ g frame, (g, frame) ∈ SseState.in_flight s → g ∈ dom (SseRegistry.senders r))
  ∧ ∀ g, accounted g r (SseState.in_flight s).

Lemma accounted_absent g r flight :
  accounted g r flight → SseRegistry.senders r !! g = None →
  flight_of g flight = [] ∧ recent_events g r = [].
Proof.
  intros (taken & Hp & Hr) Hn. rewrite Hn in Hp. cbn in Hp.
  apply Permutation_nil_l in Hp. symmetry in Hp. apply app_nil in Hp as [-> ->]. done.
Qed.

(** A frame on the channel waits for its buffer. *)
Lemma accounted_send r flight g g' frame tx :
  unwrap_or [] (SseRegistry.senders r !! g) = tx →
  accounted g' r flight →
  accounted g' (with_senders (<[g := tx ++ [frame]]> (SseRegistry.senders r)) r)
    (flight ++ [(g, frame)]).
Proof.
  intros Htx (taken & Hp & Hr). exists taken. cbn. rewrite flight_of_app, flight_of_one.
  split; [|done]. destruct (String.eqb_spec g g') as [<-|Hne].
  - rewrite lookup_insert_eq. cbn. rewrite <-Htx, Hp. by rewrite app_assoc.
  - rewrite lookup_insert_ne by done. by rewrite app_nil_r.
Qed.

Lemma send_ok r flight n g frame r' sent :
  sse_ok (SseState.mk r flight n) → send g frame r = (r', sent) →
  sse_ok (SseState.mk r' (if sent then flight ++ [(g, frame)] else flight) n).
Proof.
  intros (Hn & Hd & Ha & Hc & Hf & Hall) Hs. cbn in *. unfold send, feed_count in *.
  assert (∀ tx, unwrap_or [] (SseRegistry.senders r !! g) = tx →
    (size (<[g := tx ++ [frame]]> (SseRegistry.senders r)) ≤ MAX_SSE_REGISTRY_FEEDS)%nat →
    sse_ok (SseState.mk (with_senders (<[g := tx ++ [frame]]> (SseRegistry.senders r)) r)
              (flight ++ [(g, frame)]) n)) as Hadd.
  { intros tx Htx Hsz. unfold sse_ok, feed_count. cbn. split_and!; try done.
    - rewrite dom_insert. set_solver.
    - intros g' fr [Hin| [= -> ->]%list_elem_of_singleton]%elem_of_app; rewrite dom_insert.
      + apply Hf in Hin. set_solver.
      + set_solver.
    - intros g'. by apply accounted_send. }
  destruct (SseRegistry.senders r !! g) as [tx|] eqn:E.
  - injection Hs as <- <-. apply Hadd; [done|]. by rewrite map_size_insert_Some.
  - destruct (size (SseRegistry.senders r) <? MAX_SSE_REGISTRY_FEEDS)%nat eqn:El;
      injection Hs as <- <-; [|done].
    apply (Hadd []); [done|]. apply Nat.ltb_lt in El.
    by rewrite map_size_insert_None.
Qed.

(** A buffer takes a frame that waits. *)
Lemma accounted_ring r before after g frame g' :
  (size (SseRegistry.ring_buffers r) < MAX_SSE_REGISTRY_FEEDS
   ∨ g ∈ dom (SseRegistry.ring_buffers r))%nat →
  accounted g' r (before ++ (g, frame) :: after) →
  accounted g' (append_ring g frame r) (before ++ after).
Proof.
  intros Hroom (taken & Hp & Hr).
  change ((g, frame) :: after) with ([(g, frame)] ++ after) in Hp.
  rewrite !flight_of_app, flight_of_one in Hp.
  unfold accounted. rewrite flight_of_app.
  assert (SseRegistry.senders (append_ring g frame r) = SseRegistry.senders r) as Hsame.
  { unfold append_ring. repeat case_match; done. }
  rewrite Hsame. destruct (String.eqb_spec g g') as [<-|Hne].
  - exists (taken ++ [frame]). split.
    { rewrite Hp. rewrite <-!app_assoc. apply Permutation_app_head.
      cbn [app]. symmetry. apply Permutation_middle. }
    rewrite newest_snoc by (unfold SSE_RING_BUFFER_SIZE; lia). rewrite <-Hr. unfold recent_events, append_ring.
    destruct (SseRegistry.ring_buffers r !! g) as [buf|] eqn:E; cbn.
    + by rewrite lookup_insert_eq.
    + destruct Hroom as [Hroom|Hroom%elem_of_dom]; [|rewrite E in Hroom; by destruct Hroom].
      rewrite (proj2 (Nat.leb_gt _ _) Hroom). cbn. by rewrite lookup_insert_eq.
  - exists taken. split; [done|]. rewrite <-Hr. unfold recent_events, append_ring.
    repeat case_match; cbn; rewrite ?lookup_insert_ne by done; done.
Qed.

Lemma ring_ok r before g frame after n :
  sse_ok (SseState.mk r (before ++ (g, frame) :: after) n) →
  sse_ok (SseState.mk (append_ring g frame r) (before ++ after) n).
Proof.
  intros (Hn & Hd & Ha & Hc & Hf & Hall). cbn in *.
  assert (g ∈ dom (SseRegistry.senders r)) as Hg.
  { apply (Hf g frame). apply elem_of_app. right. left. }
  assert (size (SseRegistry.ring_buffers r) < MAX_SSE_REGISTRY_FEEDS
          ∨ g ∈ dom (SseRegistry.ring_buffers r))%nat as Hroom.
  { destruct (decide (g ∈ dom (SseRegistry.ring_buffers r))) as [|Hno]; [by right|left].
    unfold feed_count in Hn. rewrite <-!size_dom in *.
    eapply Nat.lt_le_trans; [|exact Hn]. apply subset_size. set_solver. }
  assert (SseRegistry.senders (append_ring g frame r) = SseRegistry.senders r
    ∧ SseRegistry.active_connections (append_ring g frame r) = SseRegistry.active_connections r
    ∧ dom (SseRegistry.ring_buffers (append_ring g frame r))
      ⊆ {[g]} ∪ dom (SseRegistry.ring_buffers r)) as (Hs & Hac & Hdom).
  { unfold append_ring. repeat case_match; cbn; rewrite ?dom_insert; set_solver. }
  unfold sse_ok, feed_count. cbn. rewrite Hs, Hac. split_and!; try done.
  - set_solver.
  - intros g' fr Hin. apply (Hf g' fr). set_solver.
  - intros g'. apply accounted_ring; [done|apply Hall].
Qed.

Lemma subscribe_ok r flight n g r' rx :
  sse_ok (SseState.mk r flight n) → subscribe g r = (r', rx) →
  sse_ok (SseState.mk r' flight n).
Proof.
  intros Hok Hs. pose proof Hok as (Hn & Hd & Ha & Hc & Hf & Hall). cbn in *.
  unfold subscribe in Hs. destruct (SseRegistry.senders r !! g) eqn:E; [by injection Hs as <- <-|].
  destruct (MAX_SSE_REGISTRY_FEEDS <=? size _)%nat eqn:El; injection Hs as <- <-; [done|].
  apply Nat.leb_gt in El. unfold sse_ok, feed_count. cbn. split_and!; try done.
  - by rewrite map_size_insert_None.
  - rewrite dom_insert. set_solver.
  - intros g' fr Hin%Hf. rewrite dom_insert. set_solver.
  - intros g'. destruct (Hall g') as (taken & Hp & Hr). exists taken. split; [|done]. cbn.
    destruct (decide (g = g')) as [<-|]; [|by rewrite lookup_insert_ne].
    rewrite lookup_insert_eq. by rewrite E in Hp.
Qed.

Lemma step_ok s s' : SseStep s s' → sse_ok s → sse_ok s'.
Proof.
  intros Hs Hok. destruct Hs as [r flight n g frame r' Hs|r flight n g frame r' Hs|
    r before g frame after n|r flight n g r' rx Hs|r flight n r' Hs|r flight n r' Hs|r flight n].
  - exact (send_ok _ _ _ _ _ _ _ Hok Hs).
  - exact (send_ok _ _ _ _ _ _ _ Hok Hs).
  - by apply ring_ok.
  - by eapply subscribe_ok.
  - destruct Hok as (Hn & Hd & Ha & Hc & Hf & Hall). cbn in *.
    unfold try_acquire_connection in Hs.
    destruct (SseRegistry.active_connections r <? MAX_SSE_CONNECTIONS) eqn:E; [|done].
    injection Hs as <-. apply Z.ltb_lt in E. unfold sse_ok. cbn.
    split_and!; try done; unfold MAX_SSE_CONNECTIONS in *; lia.
  - unfold try_acquire_connection in Hs.
    destruct (SseRegistry.active_connections r <? MAX_SSE_CONNECTIONS); [done|].
    by injection Hs as <-.
  - destruct Hok as (Hn & Hd & Ha & Hc & Hf & Hall). cbn in *.
    assert ((SseRegistry.active_connections r - 1) mod 2 ^ 64 = Z.of_nat n) as E.
    { rewrite Ha, Z.mod_small; unfold MAX_SSE_CONNECTIONS in *; lia. }
    unfold sse_ok. cbn. rewrite E. split_and!; try done. lia.
Qed.

Lemma sse_start_ok : sse_ok sse_start.
Proof.
  unfold sse_ok, sse_start, feed_count. cbn. split_and!; try done.
  - rewrite map_size_empty. lia.
  - by intros ? ? ?%not_elem_of_nil.
  - intros g. by exists [].
Qed.

(** ** Live items of a client *)

(** A client keeps the live items of a feed: a start adds one, an end takes
    it away. *)
Definition client_step (live : gset string) (frame : SseFrame) : gset string :=
  if SseFrame.event_type frame =s "live_event_started"
  then {[SseFrame.subject_guid frame]} ∪ live
  else if SseFrame.event_type frame =s "live_event_ended"
  then live ∖ {[SseFrame.subject_guid frame]}
  else live.

Definition live_guids (l : list LiveEvent) : gset string :=
  list_to_set (LiveEvent.live_item_guid
    <$> List.filter (λ e, LiveEvent.status e =s "live") l).

Lemma by_live_guid_foldl l : ∀ m : gmap string LiveEvent,
  NoDup (LiveEvent.live_item_guid <$> l) →
  ∀ g, foldl (λ m e, <[LiveEvent.live_item_guid e := e]> m) m l !! g
    = match List.find (λ e, LiveEvent.live_item_guid e =s g) l with
      | Some e => Some e
      | None => m !! g
      end.
Proof.
  induction l as [|e l IH]; [done|]. intros m [Hni Hnd]%NoDup_cons g. cbn.
  rewrite IH by done. destruct (String.eqb_spec (LiveEvent.live_item_guid e) g) as [<-|Hne].
  - destruct (List.find _ l) as [e'|] eqn:E; [|by rewrite lookup_insert_eq].
    apply List.find_some in E as [Hin E%String.eqb_eq]. exfalso. apply Hni.
    rewrite <-E. by apply list_elem_of_fmap_2, list_elem_of_In.
  - by rewrite lookup_insert_ne.
Qed.

Lemma by_live_guid_lookup l g e :
  NoDup (LiveEvent.live_item_guid <$> l) →
  by_live_guid l !! g = Some e ↔ e ∈ l ∧ LiveEvent.live_item_guid e = g.
Proof.
  intros Hnd. unfold by_live_guid. rewrite by_live_guid_foldl by done. split.
  - destruct (List.find _ l) as [e'|] eqn:E; [|by rewrite lookup_empty]. intros [= ->].
    apply List.find_some in E as [Hin E%String.eqb_eq]. by rewrite list_elem_of_In.
  - intros [Hin <-]. destruct (List.find _ l) as [e'|] eqn:E.
    + apply List.find_some in E as [Hin' E%String.eqb_eq]. f_equal.
      apply list_elem_of_In in Hin'.
      apply list_elem_of_lookup in Hin as [i Hi], Hin' as [j Hj].
      assert (i = j) as ->; [|congruence].
      eapply NoDup_lookup; [exact Hnd| |]; rewrite list_lookup_fmap.
      * by rewrite Hi.
      * rewrite Hj. cbn. by rewrite E.
    + apply list_elem_of_In in Hin. pose proof (List.find_none _ _ E e Hin) as Hx. cbn in Hx.
      by rewrite String.eqb_refl in Hx.
Qed.

Lemma elem_of_live_guids l g :
  g ∈ live_guids l ↔ ∃ e, e ∈ l ∧ LiveEvent.live_item_guid e = g ∧ LiveEvent.status e = "live"%string.
Proof.
  unfold live_guids. rewrite elem_of_list_to_set, list_elem_of_fmap. split.
  - intros (e & -> & [Hs Hin]%elem_of_filterb). apply String.eqb_eq in Hs. eauto.
  - intros (e & Hin & <- & Hs). exists e. split; [done|]. apply elem_of_filterb.
    by rewrite Hs.
Qed.

Lemma client_starts f l seq : ∀ live,
  foldl client_step live (snd <$> (live_frame f "live_event_started" "live" seq <$> l))
  = list_to_set (LiveEvent.live_item_guid <$> l) ∪ live.
Proof.
  induction l as [|e l IH]; intros live; cbn; [set_solver|].
  rewrite IH. unfold client_step. cbn. set_solver.
Qed.

Lemma client_ends f l seq : ∀ live,
  foldl client_step live (snd <$> (live_frame f "live_event_ended" "ended" seq <$> l))
  = live ∖ list_to_set (LiveEvent.live_item_guid <$> l).
Proof.
  induction l as [|e l IH]; intros live; cbn; [set_solver|].
  rewrite IH. unfold client_step. cbn. set_solver.
Qed.

Lemma elem_of_started old new g :
  NoDup (LiveEvent.live_item_guid <$> old) →
  g ∈ LiveEvent.live_item_guid <$> List.filter (has_started (by_live_guid old)) new
  ↔ g ∈ live_guids new ∧ g ∉ live_guids old.
Proof.
  intros Hnd. rewrite list_elem_of_fmap, !elem_of_live_guids. split.
  - intros (e & -> & [Hs Hin]%elem_of_filterb). unfold has_started in Hs.
    apply andb_true_iff in Hs as [Hs%String.eqb_eq Hn%negb_true_iff].
    split; [by exists e|]. intros (e' & Hin' & Hg & Hs').
    rewrite (proj2 (by_live_guid_lookup old _ e' Hnd)) in Hn by done. cbn in Hn.
    by rewrite Hs' in Hn.
  - intros [(e & Hin & <- & Hs) Hno]. exists e. split; [done|]. apply elem_of_filterb.
    split; [|done]. unfold has_started. rewrite Hs. cbn.
    destruct (by_live_guid old !! _) as [e'|] eqn:E; [|done].
    apply by_live_guid_lookup in E as [Hin' Hg]; [|done]. cbn.
    destruct (String.eqb_spec (LiveEvent.status e') "live") as [Hl|]; [|done].
    exfalso. apply Hno. by exists e'.
Qed.

Lemma elem_of_ended old new g :
  NoDup (LiveEvent.live_item_guid <$> old) → NoDup (LiveEvent.live_item_guid <$> new) →
  g ∈ LiveEvent.live_item_guid <$> List.filter (has_ended (by_live_guid new)) old
  ↔ (∃ e, e ∈ old ∧ LiveEvent.live_item_guid e = g
       ∧ (LiveEvent.status e = "pending"%string ∨ LiveEvent.status e = "live"%string))
    ∧ ∀ e, e ∈ new → LiveEvent.live_item_guid e = g → LiveEvent.status e = "ended"%string.
Proof.
  intros Hnd Hnd'. rewrite list_elem_of_fmap. split.
  - intros (e & -> & [Hs Hin]%elem_of_filterb). unfold has_ended in Hs.
    apply andb_true_iff in Hs as [Hs Hn]. split.
    + exists e. split_and!; [done|done|]. rewrite orb_true_iff, !String.eqb_eq in Hs. done.
    + intros e' Hin' Hg.
      rewrite (proj2 (by_live_guid_lookup new _ e' Hnd')) in Hn by done. cbn in Hn.
      by apply String.eqb_eq.
  - intros [(e & Hin & <- & Hs) Hall]. exists e. split; [done|]. apply elem_of_filterb.
    split; [|done]. unfold has_ended. apply andb_true_iff. split.
    + by rewrite orb_true_iff, !String.eqb_eq.
    + destruct (by_live_guid new !! _) as [e'|] eqn:E; [|done].
      apply by_live_guid_lookup in E as [Hin' Hg]; [|done]. cbn.
      apply String.eqb_eq. by apply Hall.
Qed.

(** ** The properties *)

(** C33: the registry stays within its bounds whatever the publications and
    the clients do, and its replay is right: at most 10,000 channels, a
    buffer only where there is a channel, a slot for each open connection and
    at most 1,000; and the buffer of a feed holds the last hundred frames it
    took, which with those that a publisher still carries between its two
    locks are the frames of the channel. *)
Theorem sse_registry_ok s g :
  sse_reachable s →
  let r := SseState.registry s in
  (feed_count r ≤ MAX_SSE_REGISTRY_FEEDS)%nat
  ∧ (g ∈ dom (SseRegistry.ring_buffers r) → g ∈ dom (SseRegistry.senders r))
  ∧ SseRegistry.active_connections r = Z.of_nat (SseState.open s)
  ∧ SseRegistry.active_connections r ≤ MAX_SSE_CONNECTIONS
  ∧ (length (recent_events g r) ≤ SSE_RING_BUFFER_SIZE)%nat
  ∧ ∃ taken,
      unwrap_or [] (SseRegistry.senders r !! g)
        ≡ₚ taken ++ (snd <$> List.filter (λ x, x.1 =s g) (SseState.in_flight s))
      ∧ recent_events g r = drop (length taken - SSE_RING_BUFFER_SIZE) taken.
Proof.
  intros Hr. assert (sse_ok s) as (Hn & Hd & Ha & Hc & _ & Hall).
  { revert Hr. apply (rtc_ind_r sse_ok); [apply sse_start_ok|].
    intros s1 s2 _ Hs Hok. by apply (step_ok s1). }
  destruct (Hall g) as (taken & Hp & He). split_and!; [done|set_solver|done|done| |].
  - rewrite He. apply newest_length.
  - exists taken. split; [exact Hp|exact He].
Qed.

(** a client that follows the frames of a feed knows which of its items
    are live: when the live items of a feed change and the log says so, and
    no item goes back from live to pending, taking in the frames turns the
    live items of the old rows into those of the new rows. *)
Theorem live_frames_track_items feed_guid old new events seq :
  live_snapshot_seq feed_guid events = Some seq →
  NoDup (LiveEvent.live_item_guid <$> old) → NoDup (LiveEvent.live_item_guid <$> new) →
  (∀ e e', e ∈ old → e' ∈ new → LiveEvent.live_item_guid e = LiveEvent.live_item_guid e' →
     LiveEvent.status e = "live"%string →
     LiveEvent.status e' = "live"%string ∨ LiveEvent.status e' = "ended"%string) →
  foldl client_step (live_guids old)
    (snd <$> build_live_sse_frames_for_feed feed_guid old new events)
  = live_guids new.
Proof.
  intros Hseq Hnd Hnd' Hback. unfold build_live_sse_frames_for_feed. rewrite Hseq.
  rewrite fmap_app, foldl_app, client_starts, client_ends.
  apply set_eq. intros g.
  rewrite elem_of_difference, elem_of_union, !elem_of_list_to_set.
  rewrite elem_of_started, elem_of_ended by done. split.
  - intros [[[Hnew _]|Hold] Hne]; [done|].
    apply elem_of_live_guids in Hold as (e & Hin & <- & Hl).
    destruct (by_live_guid new !! LiveEvent.live_item_guid e) as [e'|] eqn:E.
    + apply by_live_guid_lookup in E as [Hin' Hg]; [|done].
      destruct (Hback e e' Hin Hin') as [Hl'|He']; [done|done| |].
      * apply elem_of_live_guids. eauto.
      * exfalso. apply Hne. split; [eauto|]. intros e2 Hin2 Hg2.
        assert (by_live_guid new !! LiveEvent.live_item_guid e = Some e2) as E2
          by by apply by_live_guid_lookup.
        assert (by_live_guid new !! LiveEvent.live_item_guid e = Some e') as E1
          by by apply by_live_guid_lookup.
        congruence.
    + exfalso. apply Hne. split; [eauto|]. intros e2 Hin2 Hg2.
      rewrite (proj2 (by_live_guid_lookup new _ e2 Hnd')) in E; done.
  - intros Hnew. split; [destruct (decide (g ∈ live_guids old)); auto|].
    intros [_ Hall]. apply elem_of_live_guids in Hnew as (e & Hin & Hg & Hl).
    specialize (Hall e Hin Hg). congruence.
Qed.

(** ** Witnesses *)

(** Two publications of one feed: the frames reach the channel in one order
    and the buffer in the other. *)
Definition frame_of (seq : Z) : SseFrame :=
  SseFrame.mk "live_event_started" "show" (FramePayload.Live "feed" "show" "Show" None "live" None None)
    seq.

Definition crossed : SseState :=
  let r := (send "feed" (frame_of 2) (send "feed" (frame_of 1) new_registry).1).1 in
  SseState.mk (append_ring "feed" (frame_of 1) (append_ring "feed" (frame_of 2) r)) [] 0.

Lemma crossed_reachable : sse_reachable crossed.
Proof.
  unfold sse_reachable, crossed. cbv zeta.
  set (r1 := (send "feed" (frame_of 1) new_registry).1).
  set (r2 := (send "feed" (frame_of 2) r1).1).
  eapply rtc_l; [by apply (step_send new_registry [] 0 "feed" (frame_of 1) r1)|].
  eapply rtc_l; [by apply (step_send r1 _ 0 "feed" (frame_of 2) r2)|].
  eapply rtc_l; [apply (step_ring r2 [("feed", frame_of 1)] "feed" (frame_of 2) [] 0)|].
  eapply rtc_l; [apply (step_ring _ [] "feed" (frame_of 1) [] 0)|].
  reflexivity.
Qed.

Lemma sse_registry_ok_witness :
  recent_events "feed" (SseState.registry crossed) = [frame_of 2; frame_of 1]
  ∧ unwrap_or [] (SseRegistry.senders (SseState.registry crossed) !! "feed")
    = [frame_of 1; frame_of 2]
  ∧ (feed_count (SseState.registry crossed) ≤ MAX_SSE_REGISTRY_FEEDS)%nat.
Proof.
  split_and!; [by vm_compute|by vm_compute|].
  exact (proj1 (sse_registry_ok crossed "feed" crossed_reachable)).
Defined.

(** One item starts, one ends, one stays. *)
Definition item_at (guid status : string) : LiveEvent :=
  LiveEvent.mk guid "feed" guid None status None None 0 0 None None.

Definition snapshot_event : Event :=
  Event.mk "e" EventType.LiveEventsReplaced
    (EventPayload.LiveEventsReplaced (LiveEventsReplacedPayload.mk "feed" []))
    "feed" "k" "s" 7 0 [] "{}".

Lemma live_frames_track_items_witness :
  foldl client_step (live_guids [item_at "a" "live"; item_at "b" "pending"; item_at "c" "live"])
    (snd <$> build_live_sse_frames_for_feed "feed"
       [item_at "a" "live"; item_at "b" "pending"; item_at "c" "live"]
       [item_at "b" "live"; item_at "c" "live"] [snapshot_event])
  = live_guids [item_at "b" "live"; item_at "c" "live"].
Proof.
  apply (live_frames_track_items "feed" _ _ [snapshot_event] 7).
  - by vm_compute.
  - by apply (bool_decide_unpack _).
  - by apply (bool_decide_unpack _).
  - intros e e' _ Hin _ _. left.
    repeat (apply elem_of_cons in Hin as [->|Hin]; [done|]). by apply not_elem_of_nil in Hin.
Defined.
