(* ===== verification/DetailProps.v ===== *)
(** What the detail routes promise (Detail.v): the URLs that a
    client gets, the two routes of a track, its artwork, and the percentage
    of a value time split. *)

From Stdlib Require Import Floats.SpecFloat.
From S2P Require Import Prelude.
From S2P Require Import Model.
From S2P Require Import Float64.
From S2P Require Import Crates.
From S2P Require Import Store.
From S2P Require Import Tables.
From S2P Require Import Catalog.
From S2P Require Import Links.
From S2P Require Import Admin.
From S2P Require Import Paging.
From S2P Require Import Listings.
From S2P Require Import FeedIndex.
From S2P Require Import LiveList.
From S2P Require Import Detail.

(** ** URLs *)

Section urls.
Context `{Crates} `{Web}.

Definition is_web (u : string) : Prop :=
  ∃ scheme host, parse_url u = Some (scheme, host) ∧ is_web_scheme scheme = true.

Definition all_web (urls : list (option string)) : Prop := ∀ u, Some u ∈ urls → is_web u.

(** The URLs of a link row. *)
Definition publisher_urls (r : PublisherResponse) : list (option string) :=
  [PublisherResponse.remote_feed_url r; PublisherResponse.publisher_feed_url r;
   PublisherResponse.music_feed_url r; PublisherResponse.remote_feed_image_url r].

Definition contributor_urls (r : SourceContributorClaimResponse) : list (option string) :=
  [SourceContributorClaimResponse.href r; SourceContributorClaimResponse.img r].

Definition rows_urls {A} (urls : A → list (option string)) (rows : option (list A)) :
    list (option string) := flat_map urls (unwrap_or [] rows).

(** The URLs of a feed response. Not of the list: [feed_url], which identifies
    the feed and is given as stored, and the URIs of the live value, which may
    be texts without a scheme ([live_value_ok]). *)
Definition feed_urls (r : FeedResponse) : list (option string) :=
  [FeedResponse.image_url r]
  ++ rows_urls (λ t, [TrackSummary.image_url t; TrackSummary.track_image_url t;
                      TrackSummary.feed_image_url t]) (FeedResponse.tracks r)
  ++ rows_urls (λ l, [SourceEntityLinkResponse.url l]) (FeedResponse.source_links r)
  ++ rows_urls contributor_urls (FeedResponse.source_contributors r)
  ++ rows_urls (λ p, [SourcePlatformClaimResponse.url p]) (FeedResponse.source_platforms r)
  ++ rows_urls (λ i, [FeedRemoteItemResponse.remote_feed_url i;
                      FeedRemoteItemResponse.remote_feed_image_url i;
                      FeedRemoteItemResponse.remote_track_image_url i])
       (FeedResponse.remote_items r)
  ++ rows_urls publisher_urls (FeedResponse.publisher r)
  ++ flat_map (λ l, [LiveItemResponse.content_link l; LiveItemResponse.link l])
       (FeedResponse.live_items r).

Definition track_urls (r : TrackResponse) : list (option string) :=
  [TrackResponse.image_url r; TrackResponse.track_image_url r; TrackResponse.feed_image_url r;
   TrackResponse.enclosure_url r]
  ++ rows_urls (λ v, [VtsResponse.remote_feed_image_url v; VtsResponse.remote_track_image_url v])
       (TrackResponse.value_time_splits r)
  ++ rows_urls (λ l, [SourceEntityLinkResponse.url l]) (TrackResponse.source_links r)
  ++ rows_urls contributor_urls (TrackResponse.source_contributors r)
  ++ rows_urls (λ e, [SourceItemEnclosureResponse.url e]) (TrackResponse.source_enclosures r)
  ++ rows_urls (λ t, [SourceItemTranscriptResponse.url t]) (TrackResponse.source_transcripts r)
  ++ rows_urls (λ i, [TrackRemoteItemResponse.remote_feed_url i;
                      TrackRemoteItemResponse.remote_feed_image_url i])
       (TrackResponse.remote_items r)
  ++ rows_urls publisher_urls (TrackResponse.publisher r).

Lemma web_or_none_web o u : web_url_or_none o = Some u → is_web u.
Proof.
  destruct o as [raw|]; [|done]. cbn. destruct (parse_url raw) as [[scheme host]|] eqn:E; [|done].
  destruct (is_web_scheme scheme) eqn:Es; [|done]. intros [= <-]. by exists scheme, host.
Qed.

Lemma link_for_read_web raw u : (web_link_for_read raw).1 = Some u → is_web u.
Proof. unfold web_link_for_read. repeat case_match; apply web_or_none_web. Qed.

(** A live value URI of a response: a web URL, or a text that is no URL. *)
Definition live_value_ok (u : string) : Prop := is_web u ∨ parse_url u = None.

Lemma live_value_read uri u : live_value_uri_response uri = Some u → live_value_ok u.
Proof.
  destruct uri as [raw|]; [|done]. unfold live_value_uri_response. cbn [mbind option_bind].
  destruct (parse_url raw) eqn:E; cbn [is_some].
  - intros Hu. left. by eapply web_or_none_web.
  - intros [= <-]. by right.
Qed.

(** *** Lists of URLs *)

Lemma all_web_nil : all_web [].
Proof. by intros u ?%not_elem_of_nil. Qed.

Lemma all_web_cons o l : (∀ u, o = Some u → is_web u) → all_web l → all_web (o :: l).
Proof. intros Ho Hl u [Hu|Hu]%elem_of_cons; auto. Qed.

Lemma all_web_app l k : all_web l → all_web k → all_web (l ++ k).
Proof. intros Hl Hk u [Hu|Hu]%elem_of_app; auto. Qed.

Lemma all_web_flat {A} (urls : A → list (option string)) rows :
  (∀ a, a ∈ rows → all_web (urls a)) → all_web (flat_map urls rows).
Proof.
  intros Hr u Hu. apply list_elem_of_In, in_flat_map in Hu as (a & Ha & Hu).
  apply (Hr a); by apply list_elem_of_In.
Qed.

(** The rows of an [include] that are built from rows of the store. *)
Lemma all_web_rows {A B} (urls : B → list (option string)) (f : A → B) params name rows :
  (∀ a, all_web (urls (f a))) → all_web (rows_urls urls (included params name (f <$> rows))).
Proof.
  intros Hf. unfold rows_urls, included. destruct (includes params name); [|apply all_web_nil].
  apply all_web_flat. intros b (a & -> & _)%list_elem_of_fmap. apply Hf.
Qed.

Lemma web_none u : None = Some u → is_web u.
Proof. done. Qed.
End urls.

Create HintDb web_urls.
#[export] Hint Resolve web_or_none_web link_for_read_web all_web_nil all_web_cons all_web_app
  web_none : web_urls.

Section url_rows.
Context `{Crates} `{Web}.

Lemma summary_image_web db g u : NamedFeedSummary.image_url (named_feed_summary db g) = Some u →
  is_web u.
Proof. unfold named_feed_summary. destruct (g ≫= get_feed db); cbn; eauto with web_urls. Qed.

Lemma track_image_web db f t u :
  NamedTrackSummary.image_url (named_track_summary db f t) = Some u → is_web u.
Proof. unfold named_track_summary. destruct (tracks db !! (f, t)); cbn; eauto with web_urls. Qed.

Lemma publisher_row_web db f items item r :
  build_publisher_row db f items item = Some r → all_web (publisher_urls r).
Proof.
  unfold build_publisher_row.
  destruct (publisher_direction _); [|done]. cbn [mbind option_bind].
  repeat case_match; intros [= <-]; unfold publisher_urls; cbn -[all_web web_url_or_none];
    repeat apply all_web_cons; eauto using summary_image_web with web_urls.
Qed.

Lemma link_row_web l : all_web [SourceEntityLinkResponse.url (entity_link_response l)].
Proof.
  apply all_web_cons; [|apply all_web_nil]. intros u. unfold entity_link_response.
  destruct (_ || _) eqn:E.
  - destruct (web_link_for_read _) as [url added] eqn:El. cbn. intros ->.
    apply (link_for_read_web (SourceEntityLink.url l)). by rewrite El.
  - cbn [SourceEntityLinkResponse.url]. apply web_or_none_web.
Qed.

Lemma contributor_row_web c : all_web (contributor_urls (contributor_claim_response c)).
Proof. unfold contributor_urls. cbn. eauto with web_urls. Qed.

Lemma remote_row_web db i :
  all_web [FeedRemoteItemResponse.remote_feed_url (feed_remote_item_response db i);
           FeedRemoteItemResponse.remote_feed_image_url (feed_remote_item_response db i);
           FeedRemoteItemResponse.remote_track_image_url (feed_remote_item_response db i)].
Proof.
  cbn. repeat apply all_web_cons; eauto using summary_image_web with web_urls.
  intros u. repeat case_match; cbn; eauto using track_image_web with web_urls.
Qed.

Lemma live_row_web e hosts now link :
  all_web [LiveItemResponse.content_link (live_item_response e hosts now link);
           LiveItemResponse.link (live_item_response e hosts now link)].
Proof.
  unfold live_item_response. destruct link as [raw|]; cbn.
  - destruct (web_link_for_read raw) as [url added] eqn:El. cbn.
    repeat apply all_web_cons; eauto with web_urls. intros u ->.
    apply (link_for_read_web raw). by rewrite El.
  - eauto with web_urls.
Qed.

Lemma summary_row_web artwork t :
  (∀ u, artwork = Some u → is_web u) →
  all_web [TrackSummary.image_url (track_summary artwork t);
           TrackSummary.track_image_url (track_summary artwork t);
           TrackSummary.feed_image_url (track_summary artwork t)].
Proof.
  intros Ha. cbn. repeat apply all_web_cons; eauto with web_urls.
  intros u. unfold option_or. destruct (web_url_or_none _) eqn:E; [|apply Ha].
  intros [= ->]. by eapply web_or_none_web.
Qed.

Lemma feed_response_web db hosts now f params :
  all_web (feed_urls (build_feed_response db hosts now f params)).
Proof.
  unfold build_feed_response.
  destruct (publisher_artist_count _ _) as [count artists].
  destruct (confirmed_and_unconfirmed_release_artists _) as [confirmed unconfirmed].
  unfold feed_urls. cbn -[all_web web_url_or_none].
  apply all_web_cons; [apply web_or_none_web|].
  repeat apply all_web_app.
  - apply all_web_rows. intros t. apply summary_row_web, web_or_none_web.
  - apply all_web_rows, link_row_web.
  - apply all_web_rows, contributor_row_web.
  - apply all_web_rows. intros p. cbn -[all_web web_url_or_none]. eauto with web_urls.
  - apply all_web_rows, remote_row_web.
  - unfold rows_urls, included. destruct (includes params "publisher"); [|apply all_web_nil].
    apply all_web_flat. unfold load_publisher. cbn.
    destruct (get_feed db _) as [cf|]; [|by intros ? ?%not_elem_of_nil].
    intros r (item & _ & Hr)%list_elem_of_omap. by eapply publisher_row_web.
  - apply all_web_flat. intros l Hl. unfold build_live_items_response in Hl.
    apply list_elem_of_fmap in Hl as (e & -> & _). apply live_row_web.
Qed.

Lemma live_values_read db hosts now f params l u :
  l ∈ FeedResponse.live_items (build_feed_response db hosts now f params) →
  LiveItemResponse.live_value_uri l = Some u → live_value_ok u.
Proof.
  unfold build_feed_response.
  destruct (publisher_artist_count _ _) as [count artists].
  destruct (confirmed_and_unconfirmed_release_artists _) as [confirmed unconfirmed].
  cbn [FeedResponse.live_items]. unfold build_live_items_response.
  intros (e & -> & _)%list_elem_of_fmap. unfold live_item_response.
  destruct (_ !! _) as [raw|]; [destruct (web_link_for_read raw)|]; apply live_value_read.
Qed.

Lemma track_response_web db row params r :
  build_track_response db row params = Ok r → all_web (track_urls r).
Proof.
  unfold build_track_response. set (splits := rows_of _ db).
  destruct (if includes params "publisher" then _ else _) as [publisher|] eqn:Ep; [|done].
  cbn [rbind]. intros [= <-]. unfold track_urls. cbn -[all_web web_url_or_none].
  repeat (apply all_web_cons; [apply web_or_none_web|]). repeat apply all_web_app.
  - unfold rows_urls, included. destruct (includes params "value_time_splits"); [|apply all_web_nil].
    apply all_web_flat. intros v (s & _ & Hv)%list_elem_of_omap.
    unfold vts_response_from_split in Hv. destruct (_ != _); [done|].
    destruct (ValueTimeSplit.remote_feed_guid s); [|done]. injection Hv as <-. cbn -[all_web web_url_or_none].
    repeat apply all_web_cons; eauto using summary_image_web with web_urls.
    intros u. destruct (_ && _); cbn; eauto using track_image_web with web_urls.
  - apply all_web_rows, link_row_web.
  - apply all_web_rows, contributor_row_web.
  - apply all_web_rows. intros e. cbn -[all_web web_url_or_none]. eauto with web_urls.
  - apply all_web_rows. intros t. cbn -[all_web web_url_or_none]. eauto with web_urls.
  - apply all_web_rows. intros i. cbn -[all_web web_url_or_none].
    repeat apply all_web_cons; eauto with web_urls. unfold remote_item_summary.
    intros u. apply summary_image_web.
  - destruct (includes params "publisher"); [|injection Ep as <-; apply all_web_nil].
    unfold load_track_publisher in Ep.
    destruct (tracks db !! _) as [t|]; [|injection Ep as <-; apply all_web_nil].
    destruct (get_feed db _) as [cf|]; [|done]. injection Ep as <-. unfold rows_urls. cbn -[all_web web_url_or_none].
    apply all_web_flat. intros p (item & _ & Hp)%list_elem_of_omap. by eapply publisher_row_web.
Qed.
End url_rows.

(** ** The two routes of a track *)

Section tracks.
Context `{Crates} `{Web}.




Lemma track_keys db f t tr :
  catalog_ok db → tracks db !! (f, t) = Some tr → Track.feed_guid tr = f ∧ Track.track_guid tr = t.
Proof. intros (_ & Ht & _) Hl. by destruct (Ht f t tr Hl) as (? & ? & _). Qed.






End tracks.

(** C34: a client gets no source URL of another scheme than http and https. In
    the response of a feed or of a track, with any [include], the images,
    enclosures, links (with a scheme the node added where one was missing),
    people, platforms, remote items, link rows and live item links are web URLs.
    The live value URI of a live item is a web URL, or a text that does not parse
    as a URL and is given as it is. The URL of the feed itself is not in this
    statement: it identifies the feed. *)
Theorem detail_urls_web `{Crates} `{Web} db hosts now feed_guid track_guid params :
  (∀ r, feed_detail db hosts now feed_guid params = FeedDetailOutcome.Found r →
     (∀ u, Some u ∈ feed_urls r → is_web u)
     ∧ (∀ l u, l ∈ FeedResponse.live_items r → LiveItemResponse.live_value_uri l = Some u →
          live_value_ok u))
  ∧ (∀ r u, handle_get_feed_track db feed_guid track_guid params = Ok r →
     Some u ∈ track_urls r → is_web u)
  ∧ (∀ r u, handle_get_track db track_guid params = Ok (EitherTrackResponse.Found r) →
     Some u ∈ track_urls r → is_web u).
Proof.
  split_and!.
  - intros r Hd. unfold feed_detail in Hd. destruct (get_feed db feed_guid) as [f|].
    + injection Hd as <-. split; [apply feed_response_web|apply live_values_read].
    + by destruct (feed_guid_supersessions db !! feed_guid).
  - intros r u Hd. unfold handle_get_feed_track in Hd.
    destruct (get_track_row_for_feed _ _ _) as [row|]; [|done]. by eapply track_response_web.
  - intros r u Hd. unfold handle_get_track in Hd.
    destruct (get_track_rows_by_guid _ _) as [|row [|]]; [done| |done].
    destruct (build_track_response db row params) as [resp|] eqn:E; [|done].
    injection Hd as <-. by eapply track_response_web.
Qed.


(** ** Percentages *)

(** A percentage in the binade of 100. *)
Definition hundred : f64 := S754_finite false 7036874417766400 (-46).

Lemma floor_hundred : floor_as_i64 hundred = 100.
Proof. by vm_compute. Qed.

Lemma floor_fraction m e :
  e < 0 → 0 ≤ Z.pos m / 2 ^ (- e) ≤ 100 →
  floor_as_i64 (S754_finite false m e) = Z.pos m / 2 ^ (- e).
Proof.
  intros He Hb. cbn [floor_as_i64]. rewrite (proj2 (Z.leb_gt 0 e)) by lia.
  unfold saturate_i64, i64_min, i64_max. lia.
Qed.

(** The floor of a clamped binary64 value is within the bounds. *)
Lemma floor_clamped x :
  valid_binary 53 1024 x = true →
  0 ≤ floor_as_i64 (f64_clamp x (f64_of 0) (f64_of 100)) ≤ 100.
Proof.
  assert (f64_of 0 = S754_zero false) as -> by done.
  assert (f64_of 100 = hundred) as -> by (by vm_compute).
  pose proof floor_hundred as H100.
  destruct x as [s|s| |s m e]; [destruct s; cbn; lia| |cbn; lia|].
  { intros _. destruct s; [cbn; lia|]. change (0 ≤ floor_as_i64 hundred ≤ 100). lia. }
  destruct s; [cbn; lia|]. intros Hv%binary64_mantissa.
  unfold f64_clamp, SFltb. cbn [SFcompare hundred].
  destruct (Z.compare_spec (-46) e) as [<-|He|He].
  - change (PosDef.Pos.compare_cont Eq 7036874417766400 m) with (7036874417766400 ?= m)%positive.
    destruct (Pos.compare_spec 7036874417766400 m) as [<-|Hm|Hm]; [fold hundred; lia|fold hundred; lia|].
    assert (0 ≤ Z.pos m / 2 ^ 46 ≤ 100) as Hb.
    { split; [by apply Z.div_pos|]. transitivity (7036874417766400 / 2 ^ 46); [|done].
      apply Z.div_le_mono; [done|]. exact (Pos.lt_le_incl _ _ Hm). }
    by rewrite floor_fraction.
  - fold hundred. lia.
  - assert (0 ≤ Z.pos m / 2 ^ (- e) ≤ 100) as Hb.
    { split; [apply Z.div_pos; lia|]. transitivity (2 ^ 53 / 2 ^ 47); [|done].
      transitivity (2 ^ 53 / 2 ^ (- e)); [apply Z.div_le_mono; lia|].
      apply Z.div_le_compat_l; [lia|]. split; [done|]. apply Z.pow_le_mono_r; lia. }
    by rewrite floor_fraction by lia.
Qed.

(** the split of a value time split is a percentage. Each row of the
    response of a track gives a whole number from 0 to 100, whatever the source
    states: the stated value is limited and rounded down, and no value is 100. *)
Theorem vts_split_bounds `{Crates} `{Web} db feed_guid track_guid params r rows v :
  handle_get_feed_track db feed_guid track_guid params = Ok r →
  TrackResponse.value_time_splits r = Some rows → v ∈ rows →
  (∀ p, VtsResponse.remote_percentage v = Some p → valid_binary 53 1024 p = true) →
  0 ≤ VtsResponse.split v ≤ 100
  ∧ (VtsResponse.remote_percentage v = None → VtsResponse.split v = 100).
Proof.
  intros Hr Hrows Hv Hp. unfold handle_get_feed_track in Hr.
  destruct (get_track_row_for_feed _ _ _) as [row|]; [|done]. unfold build_track_response in Hr.
  destruct (if includes params "publisher" then _ else _) as [publisher|]; [|done].
  injection Hr as <-. cbn [TrackResponse.value_time_splits] in Hrows.
  unfold included in Hrows. destruct (includes params "value_time_splits"); [|done].
  injection Hrows as <-. apply list_elem_of_omap in Hv as (s & _ & Hs).
  unfold vts_response_from_split in Hs. destruct (_ != _); [done|].
  destruct (ValueTimeSplit.remote_feed_guid s); [|done]. injection Hs as <-.
  cbn [VtsResponse.split VtsResponse.remote_percentage] in *. unfold effective_percentage. split.
  - apply floor_clamped. destruct (ValueTimeSplit.remote_percentage s) as [p|]; cbn [unwrap_or].
    + by apply Hp.
    + by vm_compute.
  - intros ->. by vm_compute.
Qed.

(** ** Artwork *)

Lemma elem_of_tracks_of db f tr :
  catalog_ok db → tr ∈ tracks_of f db → tracks db !! (f, Track.track_guid tr) = Some tr.
Proof.
  intros Hok. unfold tracks_of. rewrite sort_by_perm.
  intros ([[f' t] x] & -> & [Hf%String.eqb_eq Hin]%elem_of_filterb)%list_elem_of_fmap. subst f'.
  apply elem_of_map_to_list in Hin. cbn.
  by destruct (track_keys db f t x Hok Hin) as [_ ->].
Qed.

(** when the two routes show one artwork for a track. The list of tracks in
    the response of the feed and the response of the track give the same
    [image_url], unless the track has an image that is no web URL and its feed
    has a web image: then the list shows the image of the feed, and the track
    shows none. *)
Theorem track_artwork_agrees `{Crates} `{Web} db hosts now f fparams tparams fr s r :
  catalog_ok db →
  feed_detail db hosts now f fparams = FeedDetailOutcome.Found fr →
  s ∈ unwrap_or [] (FeedResponse.tracks fr) →
  handle_get_feed_track db f (TrackSummary.track_guid s) tparams = Ok r →
  TrackSummary.image_url s = TrackResponse.image_url r
  ↔ ¬ (is_non_web (Track.image_url (TrackResponse.row r)) = true
       ∧ is_some (FeedResponse.image_url fr) = true).
Proof.
  intros Hok Hf Hs Hr. unfold feed_detail in Hf.
  destruct (get_feed db f) as [fd|] eqn:Efd; [|by destruct (feed_guid_supersessions db !! f)].
  injection Hf as <-. unfold build_feed_response in Hs |- *.
  destruct (publisher_artist_count _ _) as [count artists].
  destruct (confirmed_and_unconfirmed_release_artists _) as [confirmed unconfirmed].
  cbn [FeedResponse.tracks FeedResponse.image_url] in *. unfold included in Hs.
  destruct (includes fparams "tracks"); [|by apply not_elem_of_nil in Hs].
  cbn [unwrap_or] in Hs. unfold track_summaries in Hs.
  apply list_elem_of_fmap in Hs as (tr & -> & Htr). rewrite sort_by_perm in Htr.
  assert (Feed.feed_guid fd = f) as Hfg.
  { unfold get_feed in Efd. destruct (feeds db !! f) as [row|] eqn:E; [|done].
    injection Efd as <-. by destruct Hok as (Hg & _); apply Hg. }
  rewrite Hfg in Htr. apply elem_of_tracks_of in Htr as Hl; [|done].
  unfold handle_get_feed_track, get_track_row_for_feed in Hr.
  cbn [TrackSummary.track_guid track_summary] in Hr. rewrite Hl in Hr.
  cbn [fmap option_fmap option_map] in Hr. unfold build_track_response in Hr.
  destruct (if includes tparams "publisher" then _ else _) as [publisher|]; [|done].
  injection Hr as <-. cbn [TrackResponse.image_url TrackResponse.row TrackRow.image_url
    TrackRow.track track_row track_summary TrackSummary.image_url].
  destruct (track_keys db f _ tr Hok Hl) as [-> _]. rewrite Efd.
  cbn [mbind option_bind]. unfold option_or, is_non_web.
  destruct (Track.image_url tr) as [raw|]; [|cbn; naive_solver].
  cbn [is_some andb]. destruct (web_url_or_none (Some raw)) eqn:E; [cbn; naive_solver|].
  destruct (web_url_or_none (Feed.image_url fd)); cbn; naive_solver.
Qed.

(** ** Witnesses *)

Definition picture_feed (guid : string) : Feed :=
  Feed.mk guid ("https://a.example/" ++ guid) "Album" "album" None
    (Some "https://i.example/f.png") None None false None None None None None 1 None None 50 100
    (Some "music") None None.

Definition picture_track (feed_guid guid : string) : Track :=
  Track.mk guid feed_guid "Song" "song" None None None None None None None
    (Some "ftp://i.example/t.png") None None false None None None 50 100.

Definition picture_split : ValueTimeSplit :=
  ValueTimeSplit.mk None "f1" "t1" 0 ValueTimeSplitForm.Remote (f64_of 10) None (Some "f2")
    (Some "t1") None (Some (SFdiv 53 1024 (f64_of 199) (f64_of 2))) [] 50.

(** Two feeds with the track [t1], and one with [t2]. *)
Definition picture_db : Db :=
  set_value_time_splits [Scoped.mk (Some "f1") picture_split]
    (upsert_track (picture_track "f2" "t1") (upsert_track (picture_track "f1" "t2")
      (upsert_track (picture_track "f1" "t1") (upsert_feed (picture_feed "f2")
         (upsert_feed (picture_feed "f1") empty_db).1).1).1).1).1.

Lemma picture_db_ok : catalog_ok picture_db.
Proof.
  change (catalog_ok (upsert_track (picture_track "f2" "t1") (upsert_track (picture_track "f1" "t2")
      (upsert_track (picture_track "f1" "t1") (upsert_feed (picture_feed "f2")
         (upsert_feed (picture_feed "f1") empty_db).1).1).1).1).1).
  apply upsert_track_ok, upsert_track_ok, upsert_track_ok, upsert_feed_ok, upsert_feed_ok.
  by split_and!.
Qed.

Definition with_include (include : string) : ListQuery :=
  ListQuery.mk None None (Some include) None None None None None None.

#[local] Existing Instance plain_web.
#[local] Instance detail_crates : Crates := table_crates [].

Definition feed_of (o : FeedDetailOutcome) : option FeedResponse :=
  match o with FeedDetailOutcome.Found r => Some r | _ => None end.

Definition track_of {E} (r : result E TrackResponse) : option TrackResponse :=
  match r with Ok r => Some r | Err _ => None end.


(** The stated 99.5 percent gives 99. *)
Lemma vts_split_bounds_witness :
  ∃ r v, handle_get_feed_track picture_db "f1" "t1" (with_include "value_time_splits") = Ok r
    ∧ TrackResponse.value_time_splits r = Some [v] ∧ VtsResponse.split v = 99
    ∧ 0 ≤ VtsResponse.split v ≤ 100.
Proof.
  destruct (handle_get_feed_track picture_db "f1" "t1" (with_include "value_time_splits"))
    as [r|] eqn:E; [|by vm_compute in E].
  assert (match TrackResponse.value_time_splits r with
          | Some [v] => VtsResponse.split v = 99
              ∧ ∀ p, VtsResponse.remote_percentage v = Some p → valid_binary 53 1024 p = true
          | _ => False end) as Hv.
  { assert (track_of (handle_get_feed_track picture_db "f1" "t1" (with_include "value_time_splits"))
            = Some r) as Er by by rewrite E.
    clear E. vm_compute in Er. injection Er as <-. cbn. split; [done|]. by intros p [= <-]. }
  destruct (TrackResponse.value_time_splits r) as [[|v [|]]|] eqn:Ev;
    [destruct Hv| |destruct Hv|destruct Hv].
  exists r, v. split; [reflexivity|]. split; [done|]. split; [apply Hv|].
  assert (v ∈ [v]) as Hin by left.
  pose proof (vts_split_bounds _ _ _ _ r [v] v E Ev Hin (proj2 Hv)) as Hb. exact (proj1 Hb).
Defined.

(** The list shows the image of the feed, and the track shows none. *)
Lemma track_artwork_agrees_witness :
  ∃ fr s r, feed_detail picture_db [] 0 "f1" (with_include "tracks") = FeedDetailOutcome.Found fr
    ∧ s ∈ unwrap_or [] (FeedResponse.tracks fr)
    ∧ handle_get_feed_track picture_db "f1" (TrackSummary.track_guid s) (with_include "") = Ok r
    ∧ TrackSummary.image_url s = Some "https://i.example/f.png"%string
    ∧ TrackResponse.image_url r = None
    ∧ TrackSummary.image_url s ≠ TrackResponse.image_url r.
Proof.
  destruct (feed_of (feed_detail picture_db [] 0 "f1" (with_include "tracks"))) as [fr|] eqn:Ef;
    [|by vm_compute in Ef].
  destruct (unwrap_or [] (FeedResponse.tracks fr)) as [|s l] eqn:Es.
  { exfalso. revert Es. vm_compute in Ef. injection Ef as <-. done. }
  destruct (track_of (handle_get_feed_track picture_db "f1" (TrackSummary.track_guid s)
    (with_include ""))) as [r|] eqn:Er.
  2:{ exfalso. revert Es Er. vm_compute in Ef. injection Ef as <-. intros [= <- <-]. by vm_compute. }
  assert (feed_detail picture_db [] 0 "f1" (with_include "tracks") = FeedDetailOutcome.Found fr) as Hf.
  { destruct (feed_detail _ _ _ _ _); cbn in Ef; congruence. }
  assert (handle_get_feed_track picture_db "f1" (TrackSummary.track_guid s) (with_include "") = Ok r)
    as Hr.
  { destruct (handle_get_feed_track _ _ _ _); cbn in Er; congruence. }
  pose proof (track_artwork_agrees picture_db [] 0 "f1" (with_include "tracks") (with_include "") fr s r
    picture_db_ok Hf ltac:(rewrite Es; left) Hr) as Hiff.
  exists fr, s, r. split; [done|]. split; [rewrite Es; left|]. split; [done|].
  assert (is_non_web (Track.image_url (TrackResponse.row r)) = true
    ∧ is_some (FeedResponse.image_url fr) = true
    ∧ TrackSummary.image_url s = Some "https://i.example/f.png"%string
    ∧ TrackResponse.image_url r = None) as (H1 & H2 & H3 & H4).
  { clear Hiff Hf Hr. revert Es Er. vm_compute in Ef. injection Ef as <-. intros [= <- <-] Er.
    vm_compute in Er. injection Er as <-. done. }
  split; [exact H3|]. split; [exact H4|]. intros Heq. exact (proj1 Hiff Heq (conj H1 H2)).
Defined.

Lemma detail_urls_web_witness :
  ∃ r, feed_detail picture_db [] 0 "f1" (with_include "tracks") = FeedDetailOutcome.Found r
    ∧ Some "https://i.example/f.png"%string ∈ feed_urls r
    ∧ is_web "https://i.example/f.png".
Proof.
  destruct (feed_of (feed_detail picture_db [] 0 "f1" (with_include "tracks"))) as [r|] eqn:Ef;
    [|by vm_compute in Ef].
  assert (feed_detail picture_db [] 0 "f1" (with_include "tracks") = FeedDetailOutcome.Found r) as Hf.
  { destruct (feed_detail _ _ _ _ _); cbn in Ef; congruence. }
  assert (Some "https://i.example/f.png"%string ∈ feed_urls r) as Hu.
  { clear Hf. vm_compute in Ef. injection Ef as <-. left. }
  exists r. split; [done|]. split; [done|].
  exact (proj1 (proj1 (detail_urls_web picture_db [] 0 "f1" "t1" (with_include "tracks")) r Hf) _ Hu).
Defined.
