(* ===== verification/BrowseProps.v ===== *)
(** Properties of the routes that browse by a text, and of the route history. *)

From S2P Require Import Prelude.
From S2P Require Import Model.
From S2P Require Import Event.
From S2P Require Import Crates.
From S2P Require Import Store.
From S2P Require Import Catalog.
From S2P Require Import EventLog.
From S2P Require Import Links.
From S2P Require Import Sync.
From S2P Require Import Paging.
From S2P Require Import Listings.
From S2P Require Import FeedIndex.
From S2P Require Import Detail.
From S2P Require Import Browse.
From S2P Require Import Samples.
From S2P Require Import ListingProps.
From S2P Require Import WalkProps.

(** Properties of the routes that browse by a text. *)

(** ** Text inside a text *)





(** *** The pattern *)










(** ** The list of publishers *)












(** ** The walk over the tracks of an artist *)

(** A page route at rest whose rows may share a key. *)
Section tied.
Context {A K T : Type} (before : K → K → bool) `{!StrictTotal before} (key : A → K).
Context (encode : K → string) (good : K → Prop) (show : A → T) (limit : nat) (rows : list A).
Context (request : nat → option string → result ApiError (QueryResponse T)).
Hypothesis limit_pos : (0 < limit)%nat.
Hypothesis rows_good : ∀ a, a ∈ rows → good (key a).
Hypothesis request_page : ∀ n c, (∀ k, c = Some k → good k) →
  request n (encode <$> c) = Ok (page_of key encode show limit (rest before key c rows)).

Lemma rest_shorter c a :
  a ∈ rest before key c rows →
  (length (rest before key (Some (key a)) rows) < length (rest before key c rows))%nat.
Proof using StrictTotal0 limit_pos.
  intros Ha. assert (∀ j, c = Some j → before j (key a) = true) as Hc
    by (apply elem_of_rest in Ha; apply Ha).
  rewrite <-(rest_rest before key (key a) c) by done.
  apply list_elem_of_split in Ha as (p & q & ->). unfold rest at 1. cbn [is_none_or].
  rewrite List.filter_app. cbn [List.filter]. rewrite before_irrefl, !length_app. cbn [length].
  pose proof (List.filter_length_le (λ x, before (key a) (key x)) p).
  pose proof (List.filter_length_le (λ x, before (key a) (key x)) q). lia.
Qed.

(** The walk ends, and every row that it shows is behind its start. *)
Lemma tied_walk fuel : ∀ n c,
  (∀ k, c = Some k → good k) → (length (rest before key c rows) < fuel)%nat →
  ∃ pages shown, walk request fuel n (encode <$> c) = Some pages
    ∧ concat pages = show <$> shown ∧ ∀ a, a ∈ shown → a ∈ rest before key c rows.
Proof using All.
  induction fuel as [|fuel IH]; [lia|]. intros n c Hc Hlen. cbn [walk].
  rewrite request_page by done. unfold page_of. cbn [QueryResponse.cursor QueryResponse.data].
  set (r := rest before key c rows) in *.
  assert (∀ a, a ∈ take limit r → a ∈ r) as Hin
    by (intros a Ha; rewrite <-(take_drop limit r); apply elem_of_app; by left).
  destruct (next_key key limit r) as [k|] eqn:Ek; cbn [fmap option_fmap option_map].
  - pose proof Ek as (l1 & a & l2 & Er & Et & -> & _)%next_key_some; [|done].
    assert (a ∈ r) as Ha by (apply Hin; rewrite Et; set_solver).
    pose proof Ha as [Hrow Hca]%elem_of_rest.
    destruct (IH (S n) (Some (key a))) as (pages & shown & Ew & Hcat & Hall).
    { intros ? [= <-]. by apply rows_good. }
    { pose proof (rest_shorter c a Ha). fold r in H. lia. }
    cbn [fmap option_fmap option_map] in Ew. rewrite Ew.
    eexists _, (take limit r ++ shown). split; [done|]. split.
    + cbn [concat]. by rewrite Hcat, fmap_app.
    + intros x [Hx|Hx]%elem_of_app; [by apply Hin|]. unfold r.
      apply Hall in Hx. rewrite <-(rest_rest before key (key a) c) in Hx by done.
      by apply elem_of_rest in Hx as [? _].
  - eexists _, (take limit r). split; [done|]. split; [|done]. cbn. by rewrite app_nil_r.
Qed.

(** A row that shares its key with the last row of the first page, and is not on
    that page, is on no page. *)
Lemma tied_walk_skips l1 a b l2 :
  rows = l1 ++ a :: b :: l2 → key a = key b → limit = S (length l1) → NoDup rows →
  ∃ pages shown, walk request (S (length rows)) 0 None = Some pages
    ∧ concat pages = show <$> shown ∧ (∀ x, x ∈ shown → x ∈ rows) ∧ b ∉ shown.
Proof using All.
  intros Hr Hk Hl Hn. cbn [walk]. pose proof (request_page 0 None ltac:(done)) as Hp.
  cbn [fmap option_fmap option_map] in Hp. rewrite Hp.
  assert (rest before key None rows = rows) as -> by by apply filter_all.
  assert (take limit rows = l1 ++ [a]) as Ht.
  { rewrite Hr, Hl, take_app, take_ge by lia.
    replace (S (length l1) - length l1)%nat with 1%nat by lia. done. }
  assert (next_key key limit rows = Some (key a)) as Hnext.
  { unfold next_key. rewrite Ht, last_snoc, (proj2 (Nat.ltb_lt _ _)); [done|].
    rewrite Hr, Hl, length_app. cbn. lia. }
  unfold page_of. rewrite Hnext, Ht. cbn [QueryResponse.cursor QueryResponse.data fmap option_fmap option_map].
  assert (a ∈ rows) as Ha by (rewrite Hr; set_solver).
  destruct (tied_walk (length rows) 1 (Some (key a))) as (pages & shown & Ew & Hcat & Hall).
  { intros ? [= <-]. by apply rows_good. }
  { rewrite <-(filter_all (λ _, true) rows) at 2 by done.
    change (List.filter (λ _, true) rows) with (rest before key None rows).
    apply (rest_shorter None a). by apply elem_of_rest. }
  cbn [fmap option_fmap option_map] in Ew. rewrite Ew.
  eexists _, ((l1 ++ [a]) ++ shown). split; [done|]. split_and!.
  - cbn [concat]. by rewrite Hcat, (fmap_app show (l1 ++ [a])).
  - intros x [Hx|Hx]%elem_of_app; [rewrite Hr; set_solver|].
    by apply Hall, elem_of_rest in Hx as [? _].
  - rewrite Hr in Hn. apply NoDup_app in Hn as (_ & Hd & Hn). intros [Hb|Hb]%elem_of_app.
    + apply elem_of_app in Hb as [Hb|Hb]; [destruct (Hd b Hb); right; left|].
      apply list_elem_of_singleton in Hb as ->. apply NoDup_cons in Hn as [Hn _]. apply Hn. left.
    + apply Hall, elem_of_rest in Hb as [_ Hb]. specialize (Hb _ eq_refl).
      rewrite Hk in Hb. by rewrite before_irrefl in Hb.
Qed.
End tied.

Section artist_walk.
Context `{Crates} `{Web} `{Base64Ok}.

Definition artist_query (artist : string) (limit : option Z) (c : option string) : ArtistTracksQuery :=
  ArtistTracksQuery.mk artist limit c.

Lemma artist_page db artist limit c :
  (∀ k, c = Some k → ts_key_ok k) →
  handle_artist_tracks db (artist_query artist limit (encode_ts_cursor <$> c))
  = Ok (page_of artist_track_key encode_ts_cursor (artist_track_item db)
          (Z.to_nat (capped_limit limit))
          (rest newest_key_first artist_track_key c
             (artist_track_rows db (to_lowercase artist)))).
Proof using All.
  intros Hc. unfold handle_artist_tracks.
  cbn [artist_query ArtistTracksQuery.artist ArtistTracksQuery.limit ArtistTracksQuery.cursor].
  assert (opt_parse parse_recent_cursor (encode_ts_cursor <$> c) = Ok c) as ->.
  { destruct c as [k|]; [|done]. destruct (Hc k eq_refl). cbn [fmap option_fmap option_map opt_parse].
    by rewrite ts_cursor_round_trip. }
  cbn [rbind]. set (n := Z.to_nat _). set (r := rest _ _ _ _). unfold page_of, next_key.
  rewrite take_take, length_take, Nat.min_l by lia.
  assert ((n <? (n + 1) `min` length r)%nat = (n <? length r)%nat) as ->.
  { apply eq_true_iff_eq. rewrite !Nat.ltb_lt. lia. }
  destruct (n <? length r)%nat; [|done]. by destruct (last (take n r)).
Qed.

Lemma elem_of_artist_rows db name t :
  t ∈ artist_track_rows db name
  ↔ t ∈ all_tracks db ∧ is_some_and (λ a, to_ascii_lowercase a =s name) (Track.track_artist t) = true.
Proof using Type. unfold artist_track_rows. rewrite sort_by_perm, elem_of_filterb. tauto. Qed.

Lemma all_tracks_spec db t :
  catalog_ok db → t ∈ all_tracks db → tracks db !! (Track.feed_guid t, Track.track_guid t) = Some t.
Proof using Type.
  intros (_ & Hk & _) ([[f g] t'] & -> & Ht%elem_of_map_to_list)%list_elem_of_fmap.
  cbn. by destruct (Hk f g t' Ht) as (-> & -> & _).
Qed.

Lemma artist_rows_NoDup db name : catalog_ok db → NoDup (artist_track_rows db name).
Proof using Type.
  intros Hok. unfold artist_track_rows. rewrite sort_by_perm.
  apply (NoDup_fmap_1 (λ t, (Track.feed_guid t, Track.track_guid t))), filter_fmap_NoDup.
  assert ((λ t, (Track.feed_guid t, Track.track_guid t)) <$> all_tracks db
    = fst <$> map_to_list (tracks db)) as ->.
  { unfold all_tracks. rewrite <-list_fmap_compose. apply list_fmap_ext.
    intros i [[f g] t] Hi%list_elem_of_lookup_2%elem_of_map_to_list.
    destruct Hok as (_ & Hk & _). cbn. by destruct (Hk f g t Hi) as (-> & -> & _). }
  apply NoDup_fst_map_to_list.
Qed.

Lemma artist_route db artist limit :
  (∀ t, t ∈ all_tracks db → ts_key_ok (artist_track_key t)) →
  NoDup (artist_track_key <$> artist_track_rows db (to_lowercase artist)) →
  ListRoute newest_key_first artist_track_key encode_ts_cursor ts_key_ok
    (λ _ c, handle_artist_tracks db (artist_query artist limit c))
    (λ _, artist_track_rows db (to_lowercase artist)) (λ _ _, true) (λ _, artist_track_item db).
Proof using All.
  intros Hgood Hn. split.
  - intros _. apply (sort_ordered newest_key_first artist_track_key).
    unfold artist_track_rows in Hn. by rewrite sort_by_perm in Hn.
  - intros _ t [Ht _]%elem_of_artist_rows. by apply Hgood.
  - intros _ c Hc. 
    destruct (page_of_stretch artist_track_key encode_ts_cursor (artist_track_item db)
      (Z.to_nat (capped_limit limit))
      (rest newest_key_first artist_track_key c (artist_track_rows db (to_lowercase artist)))
      (capped_limit_pos limit)) as (p & q & next & E & Hp & Hn').
    exists p, q, next. split_and!; [done| |done]. by rewrite artist_page, Hp.
Qed.
End artist_walk.

(** the walk over the tracks of an artist, on a node at rest. It ends
    within one request for each track and one more. When no two of the tracks
    have the same creation time and GUID, its pages are all of them, in order.
    But the cursor leaves the feed out: of two tracks of different feeds with
    the same GUID and creation time, the second is on no page when a page ends
    between them. *)
Theorem artist_walk_skips `{Crates} `{Web} `{Base64Ok} db artist limit :
  catalog_ok db →
  (∀ t, t ∈ all_tracks db → ts_key_ok (artist_track_key t)) →
  let rows := artist_track_rows db (to_lowercase artist) in
  ∃ pages,
    walk (λ _ c, handle_artist_tracks db (artist_query artist limit c)) (S (length rows)) 0 None
      = Some pages
    ∧ (NoDup (artist_track_key <$> rows) → concat pages = artist_track_item db <$> rows)
    ∧ ∀ l1 t t' l2,
        rows = l1 ++ t :: t' :: l2 → artist_track_key t = artist_track_key t' →
        capped_limit limit = Z.of_nat (S (length l1)) →
        ∀ i, i ∈ concat pages →
          (ArtistTrackItem.feed_guid i, ArtistTrackItem.track_guid i)
            ≠ (Track.feed_guid t', Track.track_guid t').
Proof.
  intros Hok Hgood rows. set (request := λ _ c, handle_artist_tracks db (artist_query artist limit c)).
  assert (∀ a, a ∈ rows → a ∈ all_tracks db) as Hall by (intros a [? _]%elem_of_artist_rows; done).
  assert (∀ a, a ∈ rows → ts_key_ok (artist_track_key a)) as Hrows by auto.
  pose proof (capped_limit_pos limit) as Hl.
  pose proof (λ (n : nat) c Hc, artist_page db artist limit c Hc) as Hpage.
  destruct (tied_walk newest_key_first artist_track_key encode_ts_cursor ts_key_ok
    (artist_track_item db) _ rows request Hl Hrows Hpage (S (length rows)) 0 None)
    as (pages & _ & Hw & _); [done| |].
  { assert (rest newest_key_first artist_track_key None rows = rows) as -> by by apply filter_all.
    lia. }
  exists pages. split_and!; [exact Hw| |].
  - intros Hn. destruct (route_walk_ends (artist_route db artist limit Hgood Hn) rows
      (λ _, true) (artist_track_item db)) as (pages' & Hw' & Hc); [done|].
    cbn [fmap option_fmap option_map] in Hw. unfold request in Hw. rewrite Hw in Hw'.
    injection Hw' as <-. by rewrite filter_all in Hc.
  - intros l1 t t' l2 Hr Hk Hlim i Hi [= Hf Hg].
    destruct (tied_walk_skips newest_key_first artist_track_key encode_ts_cursor ts_key_ok
      (artist_track_item db) _ rows request Hl Hrows Hpage l1 t t' l2) as
      (pages' & shown & Hw' & Hc & Hin & Hout); [done|done|lia|by apply artist_rows_NoDup|].
    cbn [fmap option_fmap option_map] in Hw. rewrite Hw in Hw'. injection Hw' as <-.
    rewrite Hc in Hi. apply list_elem_of_fmap in Hi as (x & -> & Hx). apply Hout.
    cbn in Hf, Hg. assert (t' ∈ rows) as Ht' by (rewrite Hr; set_solver).
    pose proof (all_tracks_spec db x Hok (Hall x (Hin x Hx))) as E.
    pose proof (all_tracks_spec db t' Hok (Hall t' Ht')) as E'.
    rewrite Hf, Hg, E' in E. by injection E as ->.
Qed.

(** An artist whose name [str::to_lowercase] and the [lower] of SQLite fold in
    different ways is not found by that name. *)
Lemma artist_case_missed `{Crates} `{Web} `{Base64} db artist limit c r :
  to_lowercase artist ≠ to_ascii_lowercase artist →
  handle_artist_tracks db (artist_query artist limit c) = Ok r →
  ∀ i, i ∈ QueryResponse.data r → ArtistTrackItem.track_artist i ≠ Some artist.
Proof.
  intros Hne Hr i Hi Ha. unfold handle_artist_tracks in Hr.
  destruct (opt_parse _ _) as [after|]; [|done]. cbn [rbind] in Hr. injection Hr as <-.
  cbn [QueryResponse.data] in Hi. apply list_elem_of_fmap in Hi as (t & -> & Ht).
  apply elem_of_take in Ht as (n & Ht & _). apply list_elem_of_lookup_2, elem_of_take in Ht as (m & Ht & _).
  apply list_elem_of_lookup_2, elem_of_rest in Ht as [[_ Ht]%elem_of_artist_rows _].
  cbn in Ha. rewrite Ha in Ht. cbn in Ht. apply String.eqb_eq in Ht. by apply Hne.
Qed.

(** ** Examples *)

#[local] Existing Instances sample_crates plain_web plain_base64 plain_base64_ok.

(** A track that two feeds hold, with one GUID and one creation time. *)
Definition twin_track (feed_guid : string) : Track :=
  Track.mk "twin" feed_guid "Song" "song" None None None None None None None None None None false
    None (Some "Twins"%string) None 50 100.

Definition twin_db : Db :=
  (upsert_track (twin_track "solo") (upsert_track (twin_track "album") names_db).1).1.

Lemma twin_db_ok : catalog_ok twin_db.
Proof. do 2 apply upsert_track_ok. apply names_db_ok. Qed.

Lemma artist_walk_skips_witness :
  ∃ pages, walk (λ _ c, handle_artist_tracks twin_db (artist_query "Twins" (Some 1) c)) 3 0 None
      = Some pages
    ∧ length (artist_track_rows twin_db "twins") = 2%nat
    ∧ ∃ t', t' ∈ artist_track_rows twin_db "twins"
        ∧ ∀ i, i ∈ concat pages →
            (ArtistTrackItem.feed_guid i, ArtistTrackItem.track_guid i)
              ≠ (Track.feed_guid t', Track.track_guid t').
Proof.
  destruct (artist_walk_skips twin_db "Twins" (Some 1) twin_db_ok) as (pages & Hw & _ & Hs).
  - intros t Ht. each_feed Ht; (split; [split; vm_compute; discriminate|reflexivity]).
  - exists pages. split; [exact Hw|]. split; [vm_compute; reflexivity|].
    destruct (artist_track_rows twin_db "twins") as [|t [|t' [|]]] eqn:E;
      [vm_compute in E; discriminate..| |vm_compute in E; discriminate].
    exists t'. split; [right; left|]. intros i Hi. apply (Hs [] t t' []); [exact E| |reflexivity|exact Hi].
    vm_compute in E. injection E as <- <-. reflexivity.
Defined.

(** Properties of the route history. *)

(** ** One subject *)

(** The sets that the events state for a subject, with their events. *)
Definition sets_of (s : option string) (events : list Event) : list (Event * list RouteRecipient) :=
  omap (λ ev, match route_set ev with
              | Some (s', set) => if s' == s then Some (ev, set) else None
              | None => None
              end) events.

Definition entries_of (s : option string) (entries : list RouteHistoryEntry) :
    list RouteHistoryEntry :=
  List.filter (λ e, RouteHistoryEntry.track_guid e == s) entries.

(** The changes in a list of sets of one subject. *)
Fixpoint changes (s : option string) (last : option (list RouteRecipient))
    (sets : list (Event * list RouteRecipient)) : list RouteHistoryEntry :=
  match sets with
  | [] => []
  | (ev, set) :: sets =>
      if last == Some set then changes s last sets
      else history_entry ev s last set :: changes s (Some set) sets
  end.

Lemma last_set_step h ev s :
  last_set (history_step h ev) s
  = match route_set ev with
    | Some (s', set) => if s' == s then Some set else last_set h s
    | None => last_set h s
    end.
Proof.
  unfold history_step. destruct (route_set ev) as [[s' set]|]; [|done].
  destruct (last_set h s' == Some set) eqn:E.
  - apply bool_decide_eq_true in E. destruct (s' == s) eqn:Es; [|done].
    apply bool_decide_eq_true in Es as ->. done.
  - destruct (s' == s) eqn:Es.
    + apply bool_decide_eq_true in Es as ->. destruct s as [tg|]; [|done]. cbn.
      by rewrite lookup_insert_eq.
    + apply bool_decide_eq_false in Es. destruct s' as [tg'|], s as [tg|]; try done. cbn.
      rewrite lookup_insert_ne; [done|congruence].
Qed.

Lemma entries_step h ev s :
  entries_of s (History.entries (history_step h ev))
  = entries_of s (History.entries h)
    ++ match route_set ev with
       | Some (s', set) =>
           if s' == s then changes s (last_set h s) [(ev, set)] else []
       | None => []
       end.
Proof.
  unfold history_step. destruct (route_set ev) as [[s' set]|]; [|by rewrite app_nil_r].
  destruct (s' == s) eqn:Es.
  - apply bool_decide_eq_true in Es as ->. cbn [changes].
    destruct (last_set h s == Some set); [by rewrite app_nil_r|].
    unfold entries_of. destruct s as [tg|]; cbn [History.entries]; rewrite List.filter_app; cbn;
      by rewrite bool_decide_eq_true_2.
  - destruct (last_set h s' == Some set); [by rewrite app_nil_r|].
    unfold entries_of. destruct s' as [tg|]; cbn [History.entries]; rewrite List.filter_app; cbn;
      by rewrite Es.
Qed.

Lemma changes_cons s last ev set sets :
  changes s last ((ev, set) :: sets) = changes s last [(ev, set)] ++ changes s (Some set) sets.
Proof.
  cbn. destruct (last == Some set) eqn:E; [|done]. by apply bool_decide_eq_true in E as ->.
Qed.

(** Each subject has a history of its own. *)
Lemma history_of_subject s events : ∀ h,
  entries_of s (History.entries (foldl history_step h events))
  = entries_of s (History.entries h) ++ changes s (last_set h s) (sets_of s events).
Proof.
  induction events as [|ev events IH]; intros h; [by rewrite app_nil_r|].
  cbn [foldl]. rewrite IH, entries_step, last_set_step, <-app_assoc. f_equal.
  unfold sets_of at 2. cbn [omap list_omap]. fold (sets_of s events).
  destruct (route_set ev) as [[s' set]|]; [|done]. destruct (s' == s); [|done].
  by rewrite (changes_cons s _ ev set (sets_of s events)).
Qed.

(** *** The changes *)








(** ** The handler *)

Lemma build_none events :
  build_route_history_entries events = [] ↔ ∀ ev, ev ∈ events → route_set ev = None.
Proof.
  split.
  - intros E ev Hev. destruct (route_set ev) as [[s set]|] eqn:Es; [|done]. exfalso.
    assert (changes s None (sets_of s events) = []) as Hc.
    { pose proof (history_of_subject s events (History.mk [] None ∅)) as Hs.
      fold (build_route_history_entries events) in Hs. rewrite E in Hs. by destruct s. }
    assert ((ev, set) ∈ sets_of s events) as Hin.
    { apply list_elem_of_omap. exists ev. split; [done|]. rewrite Es. by rewrite bool_decide_eq_true_2. }
    destruct (sets_of s events) as [|[ev' set'] l]; [by apply not_elem_of_nil in Hin|].
    cbn [changes] in Hc. by rewrite bool_decide_eq_false_2 in Hc.
  - unfold build_route_history_entries. intros Hn.
    assert (∀ h, foldl history_step h events = h) as ->; [|done].
    induction events as [|ev events IH]; intros h; [done|]. cbn [foldl].
    rewrite IH by (intros; apply Hn; by right). unfold history_step. by rewrite Hn by left.
Qed.

(** The response holds the last 1,000 entries, and there is none only when no
    event of the feed states a set. *)
Lemma route_history_response `{Crates} `{JsonExtract} db g events :
  get_route_history_events_for_feed db g = Ok events →
  match handle_get_route_history db g with
  | Ok r => ∃ old, build_route_history_entries events = old ++ QueryResponse.data r
      ∧ length (QueryResponse.data r)
        = (ROUTE_HISTORY_MAX_ENTRIES `min` length (build_route_history_entries events))%nat
  | Err e => e = inl (ApiError.mk 404 "no route history for this feed")
      ∧ ∀ ev, ev ∈ events → route_set ev = None
  end.
Proof.
  intros E. unfold handle_get_route_history. rewrite E.
  destruct (build_route_history_entries events) as [|e es] eqn:Eb; cbn [length Nat.eqb].
  - split; [done|]. by apply build_none.
  - set (l := e :: es). change (S (length es)) with (length l). cbn [QueryResponse.data].
    destruct (ROUTE_HISTORY_MAX_ENTRIES <? length l)%nat eqn:En.
    + apply Nat.ltb_lt in En. exists (take (length l - ROUTE_HISTORY_MAX_ENTRIES) l).
      rewrite take_drop, length_drop. split; [done|]. lia.
    + apply Nat.ltb_ge in En. exists []. split; [done|]. lia.
Qed.
