(* ===== verification/MigrationProps.v ===== *)
(** Properties of the migrations and of the repairs. *)

From S2P Require Import Prelude.
From S2P Require Import Model.
From S2P Require Import Crates.
From S2P Require Import Medium.
From S2P Require Import Store.
From S2P Require Import Search.
From S2P Require Import Catalog.
From S2P Require Import Quality.
From S2P Require Import Feeds.
From S2P Require Import Integrity.
From S2P Require Import Migrations.
From S2P Require Import Replica.
From S2P Require Import Samples.

(** Properties of the schema migrations. *)

(** ** The recorded version *)

Lemma max_version_spec m :
  match fst <$> map_to_list m with
  | [] => max_version m = 0
  | _ => is_Some (m !! max_version m) ∧ ∀ v, is_Some (m !! v) → v ≤ max_version m
  end.
Proof.
  assert (∀ v, is_Some (m !! v) ↔ v ∈ fst <$> map_to_list m) as Hin.
  { intros v. rewrite list_elem_of_fmap. split.
    - intros [x Hx]. exists (v, x). split; [done|]. by apply elem_of_map_to_list.
    - intros ([v' x] & -> & Hx%elem_of_map_to_list). by exists x. }
  unfold max_version. destruct (fst <$> map_to_list m) as [|v vs]; [done|].
  assert (foldr Z.max v vs ∈ v :: vs ∧ ∀ u, u ∈ v :: vs → u ≤ foldr Z.max v vs) as [H1 H2].
  { clear Hin. induction vs as [|w vs [IH1 IH2]]; cbn [foldr].
    - split; [left|]. intros u Hu. apply list_elem_of_singleton in Hu. lia.
    - split.
      + destruct (Z.max_spec w (foldr Z.max v vs)) as [[_ ->]|[_ ->]]; [|right; left].
        apply elem_of_cons in IH1 as [IH1|IH1]; [rewrite IH1; left|right; by right].
      + intros u [->|[->|Hu]%elem_of_cons]%elem_of_cons; [|lia|].
        * specialize (IH2 v ltac:(left)). lia.
        * specialize (IH2 u ltac:(by right)). lia. }
  split; [by apply Hin|]. intros u Hu. by apply H2, Hin.
Qed.

(** The versions from 1 to [n]. *)
Definition versions_to (n : nat) (m : gmap Z Z) : Prop :=
  ∀ v, is_Some (m !! v) ↔ 1 ≤ v ≤ Z.of_nat n.

Lemma max_versions_to n m : versions_to n m → max_version m = Z.of_nat n.
Proof.
  intros Hv. pose proof (max_version_spec m) as Hm.
  destruct (fst <$> map_to_list m) as [|v vs] eqn:E.
  - apply fmap_nil_inv, map_to_list_empty_iff in E. subst m. rewrite Hm.
    destruct n as [|n]; [done|]. destruct (proj2 (Hv 1)) as [x Hx]; [lia|]. by rewrite lookup_empty in Hx.
  - destruct Hm as [H1%Hv H2]. specialize (H2 (Z.of_nat n)). rewrite (Hv (Z.of_nat n)) in H2. lia.
Qed.

Lemma versions_to_next n now m : versions_to n m → versions_to (S n) (<[Z.of_nat (S n) := now]> m).
Proof.
  intros Hv v. destruct (decide (v = Z.of_nat (S n))) as [->|Hn].
  - rewrite lookup_insert_eq. split; [lia|]. by eexists.
  - rewrite lookup_insert_ne, (Hv v) by done. lia.
Qed.

Section migrations.
Context {S : Type} (migrations : list string).

(** What a script does to a schema when it runs whole, with foreign keys on or
    off, and whether a schema violates a foreign key: the same at each start. *)
Context (effect : bool → string → S → S) (violates : S → bool).

(** SQLite of one start: a script can fail there, for a full disk or a lock,
    but when it does not it has its effect. *)
Definition of_effect (sqlite : Sqlite S) : Prop :=
  (∀ on sql s s', exec_script on sql s = Ok s' → s' = effect on sql s)
  ∧ ∀ s, fk_violation s = violates s.

(** The schema [s0] changed by the first [n] scripts, each run once and in
    order, with foreign keys off when it asks for it. *)
Definition schema_at (s0 : S) (n : nat) : S :=
  foldl (λ s sql, effect (negb (needs_foreign_keys_off sql)) sql s) s0 (take n migrations).

(** The scripts that ran with foreign keys off have left no violation. *)
Definition checked (s0 : S) (n : nat) : Prop :=
  ∀ i sql, (i < n)%nat → migrations !! i = Some sql → needs_foreign_keys_off sql = true →
    violates (schema_at s0 (Datatypes.S i)) = false.

(** The database of a node after the first [n] migrations. *)
Definition at_version (s0 : S) (n : nat) (conn : Conn S) : Prop :=
  (n ≤ length migrations)%nat
  ∧ Conn.schema conn = schema_at s0 n ∧ checked s0 n
  ∧ versions_to n (unwrap_or ∅ (Conn.applied conn))
  ∧ Conn.foreign_keys conn = true.

Lemma schema_at_next s0 n sql :
  migrations !! n = Some sql →
  schema_at s0 (Datatypes.S n)
  = effect (negb (needs_foreign_keys_off sql)) sql (schema_at s0 n).
Proof using Type.
  intros Hn. unfold schema_at. by rewrite (take_S_r migrations n sql) by done; rewrite foldl_app.
Qed.

Context `{sqlite : Sqlite S} (Hsqlite : of_effect sqlite).

(** The next script fails at this start: SQLite refuses it, or it leaves a
    violation with foreign keys off. *)
Definition refused (s0 : S) (n : nat) : Prop :=
  ∃ sql, migrations !! n = Some sql
    ∧ ((∃ e, exec_script (negb (needs_foreign_keys_off sql)) sql (schema_at s0 n) = Err e)
       ∨ needs_foreign_keys_off sql = true ∧ violates (schema_at s0 (Datatypes.S n)) = true).

(** One script: it runs whole, or it leaves nothing. *)
Lemma migrate_step s0 n now conn sql :
  at_version s0 n conn → migrations !! n = Some sql → is_Some (Conn.applied conn) →
  match migrate now conn sql (Z.of_nat (Datatypes.S n)) with
  | (conn', Ok _) => at_version s0 (Datatypes.S n) conn' ∧ is_Some (Conn.applied conn')
  | (conn', Err _) => conn' = conn ∧ refused s0 n
  end.
Proof using Hsqlite.
  intros (_ & Hm & Hc & Hv & Hf) Hsql [m Ha]. destruct conn as [s a f]. cbn in *. subst a f.
  unfold migrate, run_one_migration. cbn [unwrap_or] in Hv.
  assert (is_some (m !! Z.of_nat (Datatypes.S n)) = false) as Hnew.
  { destruct (m !! Z.of_nat (Datatypes.S n)) eqn:E; [|done].
    pose proof (proj1 (Hv (Z.of_nat (Datatypes.S n))) ltac:(by eexists)). lia. }
  assert (∀ s', exec_script (negb (needs_foreign_keys_off sql)) sql s = Ok s' →
    needs_foreign_keys_off sql && fk_violation s' = false →
    at_version s0 (Datatypes.S n)
      (Conn.mk s' (Some (<[Z.of_nat (Datatypes.S n) := now]> m)) true)) as Hnext.
  { intros s' He Hk. apply (proj1 Hsqlite) in He.
    assert (s' = schema_at s0 (Datatypes.S n)) as Hs'
      by (rewrite (schema_at_next s0 n sql Hsql), <-Hm; exact He).
    split_and!; cbn; [by eapply lookup_lt_Some|done| |by apply versions_to_next|done].
    intros i sql' Hi Hsql' Hoff. destruct (decide (i = n)) as [->|Hne].
    - rewrite Hsql in Hsql'. injection Hsql' as <-. rewrite Hoff in Hk. cbn [andb] in Hk.
      by rewrite <-Hs', <-(proj2 Hsqlite).
    - apply (Hc i sql'); [lia|done|done]. }
  assert (∀ off, needs_foreign_keys_off sql = off →
    (∃ e, exec_script (negb off) sql s = Err e)
    ∨ off = true ∧ violates (schema_at s0 (Datatypes.S n)) = true → refused s0 n) as Href.
  { intros off <- Hr. exists sql. by rewrite <-Hm. }
  destruct (needs_foreign_keys_off sql) eqn:Eoff; cbn -[Z.of_nat] in *;
    (destruct (exec_script _ sql s) as [s'|e] eqn:E; [|split; [done|by apply (Href _ eq_refl); eauto]]).
  - destruct (fk_violation s') eqn:Ek.
    + split; [done|]. apply (Href true eq_refl). right. split; [done|].
      rewrite (schema_at_next s0 n sql Hsql), Eoff, <-Hm. cbn [negb].
      by rewrite <-(proj1 Hsqlite _ _ _ _ E), <-(proj2 Hsqlite).
    + rewrite Hnew. cbn. split; [by apply Hnext|by eexists].
  - rewrite Hnew. split; [by apply Hnext|by eexists].
Qed.

(** The loop, over the scripts of a build from the [j]-th on. *)
Lemma migrate_all_spec s0 n0 k now l : ∀ j conn,
  l = drop j (take k migrations) → at_version s0 (n0 `max` j) conn → is_Some (Conn.applied conn) →
  let last := (n0 `max` j `max` length (take k migrations))%nat in
  match migrate_all now (Z.of_nat n0) conn (Z.of_nat (Datatypes.S j)) l with
  | (conn', Ok _) => at_version s0 last conn'
  | (conn', Err _) => ∃ n, (n0 ≤ n < last)%nat ∧ at_version s0 n conn' ∧ refused s0 n
  end.
Proof using Hsqlite.
  induction l as [|sql l IH]; intros j conn Hl Hat Ha; cbn [migrate_all].
  - assert (length (take k migrations) ≤ j)%nat.
    { apply (f_equal length) in Hl. rewrite length_drop in Hl. cbn in Hl. lia. }
    cbv zeta. by replace (_ `max` length _)%nat with (n0 `max` j)%nat by lia.
  - assert (take k migrations !! j = Some sql) as Hj.
    { rewrite <-(Nat.add_0_r j), <-lookup_drop, <-Hl. done. }
    assert (l = drop (Datatypes.S j) (take k migrations)) as Hl'.
    { rewrite <-Nat.add_1_r, <-drop_drop, <-Hl. done. }
    assert (j < length (take k migrations))%nat as Hlt by by eapply lookup_lt_Some.
    replace (Z.of_nat (Datatypes.S j) + 1) with (Z.of_nat (Datatypes.S (Datatypes.S j))) by lia.
    destruct (_ <=? Z.of_nat n0) eqn:E.
    + apply Z.leb_le in E. specialize (IH (Datatypes.S j) conn Hl').
      replace (n0 `max` Datatypes.S j)%nat with (n0 `max` j)%nat in IH by lia. by apply IH.
    + apply Z.leb_gt in E. replace (n0 `max` j)%nat with j in * by lia.
      assert (migrations !! j = Some sql) as Hsql by by apply lookup_take_Some in Hj as [? _].
      pose proof (migrate_step s0 j now conn sql Hat Hsql Ha) as Hs.
      destruct (migrate now conn sql _) as [conn' [u|e]].
      * destruct Hs as [Hs Ha']. specialize (IH (Datatypes.S j) conn' Hl').
        replace (n0 `max` Datatypes.S j)%nat with (Datatypes.S j) in IH by lia.
        specialize (IH Hs Ha'). cbv zeta in IH |- *.
        by replace (j `max` length (take k migrations))%nat
          with (Datatypes.S j `max` length (take k migrations))%nat by lia.
      * destruct Hs as [-> Hs]. exists j. split; [lia|done].
Qed.

Lemma run_migrations_spec s0 n k now conn :
  at_version s0 n conn →
  let last := (n `max` length (take k migrations))%nat in
  match run_migrations (take k migrations) now conn with
  | (conn', Ok _) => at_version s0 last conn'
  | (conn', Err _) => ∃ n', (n ≤ n' < last)%nat ∧ at_version s0 n' conn' ∧ refused s0 n'
  end.
Proof using Hsqlite.
  intros Hat. unfold run_migrations.
  assert (at_version s0 n (with_version_table conn)) as Hat'.
  { destruct Hat as (? & ? & ? & ? & ?). by split_and!. }
  assert (recorded_migration_version (with_version_table conn) = Z.of_nat n) as ->.
  { apply max_versions_to, Hat. }
  pose proof (migrate_all_spec s0 n k now (take k migrations) 0 (with_version_table conn)) as Hs.
  rewrite Nat.max_0_r in Hs. apply Hs; [done|done|by eexists].
Qed.

(** Scripts at or below the recorded version do not run, whatever they are. *)
Lemma recorded_versions_skip now current l l' : ∀ version conn,
  version + Z.of_nat (length l) ≤ current + 1 →
  migrate_all now current conn version (l ++ l')
  = migrate_all now current conn (version + Z.of_nat (length l)) l'.
Proof using Type.
  induction l as [|sql l IH]; intros version conn Hv; cbn [app length migrate_all] in *.
  - by rewrite Z.add_0_r.
  - rewrite (proj2 (Z.leb_le _ _)) by lia. rewrite IH by lia. f_equal. lia.
Qed.
End migrations.

(** A start of a build that has the first [k] scripts. *)
Definition start {S} (migrations : list string) (conn : Conn S) (x : Sqlite S * nat * Z) : Conn S :=
  let '(sqlite, k, now) := x in (run_migrations (take k migrations) now conn).1.

(** C19: the migrations over any sequence of starts. Builds with more and with
    fewer scripts start on the database, and any script can fail at any start;
    one that runs has its effect. Then, for some [n], the schema is the first
    one changed by the first [n] scripts, each run once and in order, with
    foreign keys off and a check after it when it asks for that; the versions
    from 1 to [n] are recorded, and foreign keys are on. A next start that
    succeeds leaves the database at the last script of its build, or where it
    was; one that fails leaves it before a script that SQLite refuses, or that
    breaks a foreign key, and the start after it goes on from there. *)
Theorem migrations_once {S} (migrations : list string) (effect : bool → string → S → S)
    (violates : S → bool) (s0 : S) (starts : list (Sqlite S * nat * Z)) :
  Forall (λ x, of_effect effect violates x.1.1) starts →
  let conn := foldl (start migrations) (Conn.mk s0 None true) starts in
  ∃ n, at_version migrations effect violates s0 n conn
    ∧ ∀ (sqlite : Sqlite S) k now, of_effect effect violates sqlite →
        let last := (n `max` (k `min` length migrations))%nat in
        match run_migrations (take k migrations) now conn with
        | (conn', Ok _) => at_version migrations effect violates s0 last conn'
        | (conn', Err _) => ∃ n', (n ≤ n' < last)%nat
            ∧ at_version migrations effect violates s0 n' conn'
            ∧ refused migrations effect violates s0 n'
        end.
Proof.
  intros Hall conn. assert (∃ n, at_version migrations effect violates s0 n conn) as [n Hn].
  { unfold conn. induction starts as [|[[sqlite k] now] starts IH] using rev_ind.
    - exists 0%nat. split_and!; [lia|done|intros i sql Hi; lia| |done]. intros v. cbn.
      rewrite lookup_empty. split; [by intros []|lia].
    - rewrite foldl_snoc. apply Forall_app in Hall as [Hall [Hsq _]%Forall_cons].
      destruct (IH Hall) as [n Hn]. cbn [start].
      pose proof (run_migrations_spec migrations effect violates Hsq s0 n k now _ Hn) as Hs.
      cbv zeta in Hs. destruct (run_migrations _ now _) as [conn' [u|e]]; [by eexists|].
      destruct Hs as (n' & _ & Hs & _). by exists n'. }
  exists n. split; [done|]. intros sqlite k now Hsq.
  pose proof (run_migrations_spec migrations effect violates Hsq s0 n k now conn Hn) as Hs.
  by rewrite length_take in Hs.
Qed.

(** Two starts with a schema that lists what ran: the first one cannot run the
    second script, the next one can. *)
Definition sample_scripts : list string := ["CREATE TABLE a"; "CREATE TABLE b"]%string.

Definition run_log (on : bool) (sql : string) (s : list (bool * string)) : list (bool * string) :=
  s ++ [(on, sql)].

Definition full_disk (refuses : string) : Sqlite (list (bool * string)) := {|
  exec_script on sql s := if sql =s refuses then Err (Other "disk full") else Ok (run_log on sql s);
  fk_violation _ := false
|}.

Lemma full_disk_effect refuses : of_effect run_log (λ _, false) (full_disk refuses).
Proof. split; [|done]. intros on sql s s'. cbn. destruct (sql =s refuses); [done|]. by intros [= <-]. Qed.

Lemma migrations_once_witness :
  let conn := foldl (start sample_scripts) (Conn.mk [] None true)
                [(full_disk "CREATE TABLE b", 2%nat, 10)] in
  Conn.schema conn = [(true, "CREATE TABLE a"%string)]
  ∧ at_version sample_scripts run_log (λ _, false) [] 2
      (@run_migrations _ (full_disk "") sample_scripts 20 conn).1.
Proof.
  intros conn.
  assert (Forall (λ x, of_effect run_log (λ _, false) x.1.1)
    [(full_disk "CREATE TABLE b", 2%nat, 10)]) as Hall
    by (repeat constructor; apply full_disk_effect).
  destruct (migrations_once sample_scripts run_log (λ _, false) [] _ Hall) as (n & Hn & Hnext).
  fold conn in Hn, Hnext. assert (Conn.schema conn = [(true, "CREATE TABLE a"%string)]) as Hs
    by (vm_compute; reflexivity).
  split; [exact Hs|]. specialize (Hnext (full_disk "") 2%nat 20 (full_disk_effect "")).
  assert (n = 1%nat) as ->.
  { destruct Hn as (Hle & Hm & _). rewrite Hs in Hm. destruct n as [|[|[|n]]]; [done|done| |].
    - discriminate Hm.
    - cbn in Hle. lia. }
  cbv zeta in Hnext. change (take 2 sample_scripts) with sample_scripts in Hnext.
  destruct (@run_migrations _ (full_disk "") sample_scripts 20 conn) as [conn' [u|e]] eqn:E.
  - exact Hnext.
  - exfalso. assert ((@run_migrations _ (full_disk "") sample_scripts 20 conn).2 = Err e) as E2
      by (by rewrite E). vm_compute in E2. discriminate E2.
Defined.

(** Properties of the repairs of the search index: the index that they leave is
    that of the catalog, and they run once. *)

(** ** The index as a list of steps *)

(** One entity, and its texts when the index is to hold it. *)
Module IndexOp.
Record IndexOp : Type := mk {
  entity_type : string;
  entity_id : string;
  texts : option (string * string * string)
}.
End IndexOp.
Abbreviation IndexOp := IndexOp.IndexOp.

Definition catalog (db : Db) := (feeds db, tracks db).

Section ops.
Context `{Crates}.

Definition op_rowid (o : IndexOp) : Z := rowid_for (IndexOp.entity_type o) (IndexOp.entity_id o).

Definition op_row (o : IndexOp) : option IndexRow :=
  (λ '(n, t, d), IndexRow.mk (truncate_fts_field n) (truncate_fts_field t) (truncate_fts_field d))
    <$> IndexOp.texts o.

(** The index holds the entity with its row, or nothing at its row id. *)
Definition holds (o : IndexOp) (db : Db) : Prop :=
  match op_row o with
  | Some row =>
      search_entities db !! op_rowid o = Some (IndexOp.entity_type o, IndexOp.entity_id o)
      ∧ search_index db !! op_rowid o = Some row
  | None => search_entities db !! op_rowid o = None
  end.

Definition feed_op (entity_type : string) (keep : bool) (f : Feed) : IndexOp :=
  IndexOp.mk entity_type (Feed.feed_guid f)
    (if keep then Some (unwrap_or "" (Feed.release_artist f), Feed.title f,
                        unwrap_or "" (Feed.description f)) else None)%string.

Definition track_op (keep : bool) (t : Track) : IndexOp :=
  IndexOp.mk "track" (canonical_track_entity_id (Track.feed_guid t) (Track.track_guid t))
    (if keep then Some (unwrap_or "" (Track.track_artist t), Track.title t,
                        unwrap_or "" (Track.description t)) else None)%string.

(** The entities of a feed and of its tracks: a feed of music and its tracks
    are in the index, and a publisher feed, as an entity of its own type. *)
Definition feed_ops (db : Db) (guid : string) : list IndexOp :=
  match FeedRow.feed <$> feeds db !! guid with
  | None => []
  | Some f =>
      feed_op "feed" (is_music (Feed.raw_medium f)) f
      :: feed_op "publisher" (is_publisher (Feed.raw_medium f)) f
      :: (track_op (is_music (Feed.raw_medium f)) <$> tracks_of guid db)
  end.

Definition index_ops (db : Db) : list IndexOp := feed_guids db ≫= feed_ops db.

(** ** What an operation does to the index *)

(** The row of an entity is free or its own. *)
Definition slot_ok (db : Db) (o : IndexOp) : Prop :=
  search_entities db !! op_rowid o = None
  ∨ search_entities db !! op_rowid o = Some (IndexOp.entity_type o, IndexOp.entity_id o).

Definition same_slot (r : Z) (db db' : Db) : Prop :=
  search_entities db' !! r = search_entities db !! r ∧ search_index db' !! r = search_index db !! r.

(** Over a catalog, [m] brings the entities of [ops] to what they are to be,
    and no other row changes, when their rows are different ones. *)
Definition Indexes (cat : _) (m : DB unit) (ops : list IndexOp) : Prop :=
  NoDup (op_rowid <$> ops) → ∀ db,
  catalog db = cat → index_ok db → (∀ o, o ∈ ops → slot_ok db o) →
  ∃ db', m db = (db', Ok tt) ∧ catalog db' = cat ∧ index_ok db'
    ∧ (∀ r, r ∉ op_rowid <$> ops → same_slot r db db')
    ∧ ∀ o, o ∈ ops → holds o db'.

Lemma holds_same o db db' : same_slot (op_rowid o) db db' → holds o db → holds o db'.
Proof using Type. intros [E1 E2]. unfold holds. by rewrite E1, E2. Qed.

Lemma holds_slot o db : holds o db → slot_ok db o.
Proof using Type. unfold holds, slot_ok. destruct (op_row o); [intros [? _]|intros ?]; tauto. Qed.

Lemma slot_ok_same o db db' : same_slot (op_rowid o) db db' → slot_ok db o → slot_ok db' o.
Proof using Type. intros [E1 _]. unfold slot_ok. by rewrite E1. Qed.

Lemma indexes_nil cat : Indexes cat (mret tt) [].
Proof using Type.
  intros _ db Hc Hi _. exists db. split; [done|]. split_and!; [done..|].
  intros o Ho. by apply not_elem_of_nil in Ho.
Qed.

Lemma indexes_seq cat m1 m2 ops1 ops2 :
  Indexes cat m1 ops1 → Indexes cat m2 ops2 → Indexes cat (_ ← m1; m2) (ops1 ++ ops2).
Proof using Type.
  intros H1 H2 Hn db Hc Hi Hs. rewrite fmap_app in Hn. apply NoDup_app in Hn as (Hn1 & Hd & Hn2).
  destruct (H1 Hn1 db Hc Hi) as (db1 & E1 & Hc1 & Hi1 & Ho1 & He1).
  { intros o Ho. apply Hs, elem_of_app. by left. }
  assert (∀ o, o ∈ ops2 → op_rowid o ∉ op_rowid <$> ops1) as Hd'.
  { intros o Ho Hin. apply (Hd _ Hin). by apply list_elem_of_fmap_2. }
  destruct (H2 Hn2 db1 Hc1 Hi1) as (db2 & E2 & Hc2 & Hi2 & Ho2 & He2).
  { intros o Ho. apply (slot_ok_same o db); [by apply Ho1, Hd'|]. apply Hs, elem_of_app. by right. }
  exists db2. unfold mbind, db_bind. rewrite E1. split; [done|]. split; [done|]. split; [done|]. split.
  - intros r Hr. rewrite fmap_app, not_elem_of_app in Hr. destruct Hr as [Hr1 Hr2].
    destruct (Ho1 r Hr1) as [A1 A2], (Ho2 r Hr2) as [B1 B2]. split; congruence.
  - intros o [Ho|Ho]%elem_of_app; [|by apply He2]. apply (holds_same o db1); [|by apply He1].
    apply Ho2. intros Hin. apply list_elem_of_fmap in Hin as (o' & E & Ho').
    apply (Hd' o' Ho'). rewrite <-E. by apply list_elem_of_fmap_2.
Qed.

Lemma indexes_for_each {A} cat (f : A → DB unit) (ops : A → list IndexOp) l :
  (∀ a, Indexes cat (f a) (ops a)) → Indexes cat (for_each f l) (l ≫= ops).
Proof using Type.
  intros Hf. induction l as [|a l IH]; [apply indexes_nil|]. cbn [for_each].
  change (Indexes cat (_ ← f a; for_each f l) (ops a ++ (l ≫= ops))). by apply indexes_seq.
Qed.

(** A read, then an operation that depends on it. *)
Lemma indexes_query {B} cat (q : Db → B) (f : B → DB unit) ops :
  (∀ db, catalog db = cat → Indexes cat (f (q db)) ops) → Indexes cat (b ← query q; f b) ops.
Proof using Type. intros Hf Hn db Hc Hi Hs. exact (Hf db Hc Hn db Hc Hi Hs). Qed.

(** An operation on tables that are no part of this. *)
Lemma indexes_quality cat now ty id score : Indexes cat (store_quality now ty id score) [].
Proof using Type.
  intros _ db Hc Hi _. eexists. split; [done|]. split; [done|]. split; [done|].
  split; [done|]. intros o Ho. by apply not_elem_of_nil in Ho.
Qed.
End ops.

(** ** The operations of the repairs *)

Section sync.
Context `{Crates}.

Lemma indexes_entry cat keep ty id n t d :
  Indexes cat (sync_entry keep ty id n t d)
    [IndexOp.mk ty id (if keep : bool then Some (n, t, d) else None)].
Proof using Type.
  intros _ db Hc Hi Hs. specialize (Hs _ (list_elem_of_here _ _)). unfold slot_ok, op_rowid in Hs.
  cbn [IndexOp.entity_type IndexOp.entity_id] in Hs. destruct keep; cbn [sync_entry].
  - destruct (populate_index_ok ty id n t d db Hi) as [_ Hi']. rewrite populate_run in Hi' |- * by done.
    assert (is_some_and (λ '(ety, eid), (ety ≠s ty) || (eid ≠s id)) (search_entities db !! rowid_for ty id)
      = false) as E by (destruct Hs as [->| ->]; [done|]; cbn; by rewrite !String.eqb_refl).
    rewrite E in Hi' |- *. eexists. split; [done|]. split; [done|]. split; [exact Hi'|]. split.
    + intros r Hr%not_elem_of_cons. destruct Hr as [Hr _]. unfold op_rowid in Hr. cbn in Hr.
      split; cbn; by rewrite lookup_insert_ne.
    + intros o ->%list_elem_of_singleton. unfold holds, op_row, op_rowid. cbn. by rewrite !lookup_insert_eq.
  - destruct (delete_index_ok ty id db Hi) as [_ Hi'].
    assert (∃ db', delete_from_search_index ty id db = (db', Ok tt) ∧ catalog db' = catalog db
      ∧ (∀ r, r ≠ rowid_for ty id → same_slot r db db')
      ∧ search_entities db' !! rowid_for ty id = None) as (db' & E & Hc' & Ho & Hn).
    { unfold delete_from_search_index, query, mbind, db_bind.
      destruct (is_some _); cbn; (eexists; split; [done|]; split; [done|]; split;
        [intros r Hr; split; cbn; by rewrite ?lookup_delete_ne|]; cbn; by rewrite lookup_delete_eq). }
    rewrite E in Hi' |- *. exists db'. split; [done|]. split; [congruence|]. split; [exact Hi'|]. split.
    + intros r Hr%not_elem_of_cons. destruct Hr as [Hr _]. by apply Ho.
    + intros o ->%list_elem_of_singleton. exact Hn.
Qed.

Lemma indexes_track cat now music t : Indexes cat (sync_track now music t) [track_op music t].
Proof using Type.
  unfold sync_track, track_op. cbv zeta. set (o := IndexOp.mk _ _ _).
  change [o] with ([o] ++ []). apply indexes_seq; [apply indexes_entry|].
  apply indexes_query. intros db _. apply indexes_quality.
Qed.

Lemma indexes_sync C now guid :
  Indexes (catalog C) (sync_source_read_models_for_feed now guid) (feed_ops C guid).
Proof using Type.
  unfold sync_source_read_models_for_feed. apply indexes_query. intros db [= Hf Ht].
  unfold feed_ops. rewrite <-Hf. destruct (FeedRow.feed <$> feeds db !! guid) as [f|]; [|apply indexes_nil].
  cbv zeta. set (music := is_music _). set (publisher := is_publisher _).
  change (feed_op "feed" music f :: feed_op "publisher" publisher f :: (track_op music <$> tracks_of guid C))
    with ([feed_op "feed" music f; feed_op "publisher" publisher f] ++ (track_op music <$> tracks_of guid C)).
  apply indexes_seq.
  { cbn [for_each]. unfold feed_op. set (o := IndexOp.mk "feed" _ _). set (p := IndexOp.mk "publisher" _ _).
    change [o; p] with ([o] ++ [p] ++ []). apply indexes_seq; [apply indexes_entry|].
    apply indexes_seq; [apply indexes_entry|apply indexes_nil]. }
  apply indexes_query. intros db1 _. apply (indexes_seq _ _ _ []); [apply indexes_quality|].
  apply indexes_query. intros db2 [= _ Ht2].
  replace (tracks_of guid C) with (tracks_of guid db2) by (unfold tracks_of; by rewrite Ht2).
  assert (∀ l : list Track, track_op music <$> l = l ≫= (λ t, [track_op music t])) as ->.
  { induction l as [|t l IH]; [done|]. cbn in *. by rewrite IH. }
  apply indexes_for_each. intros t. apply indexes_track.
Qed.

Lemma indexes_fill C now : Indexes (catalog C) (fill_index now) (index_ops C).
Proof using Type.
  unfold fill_index, index_ops. apply indexes_query. intros db [= Hf _]. unfold feed_guids. rewrite Hf.
  apply indexes_for_each. intros g. apply indexes_sync.
Qed.
End sync.

(** ** The repaired index *)

(** The index of [db'] is that of the catalog of [db]: each entity has its row,
    and there is no other. *)
Record index_exact `{Crates} (db db' : Db) : Prop := {
  ex_ok : index_ok db';
  ex_catalog : catalog db' = catalog db;
  ex_holds : ∀ o, o ∈ index_ops db → holds o db';
  ex_only : ∀ r, r ∉ op_rowid <$> index_ops db → search_entities db' !! r = None
}.

(** The entities of the catalog have row ids of their own. *)
Definition ids_distinct `{Crates} (db : Db) : Prop := NoDup (op_rowid <$> index_ops db).

Section repaired.
Context `{Crates}.

Lemma ops_of_catalog db db' : catalog db' = catalog db → index_ops db' = index_ops db.
Proof using Type.
  intros [= Hf Ht]. unfold index_ops, feed_guids, feed_ops, tracks_of. by rewrite Hf, Ht.
Qed.

(** Whatever the index was, a fill of the empty one makes it that of the
    catalog. *)
Lemma fill_exact now db db0 :
  ids_distinct db → catalog db0 = catalog db →
  search_entities db0 = ∅ → search_index db0 = ∅ →
  ∃ db', fill_index now db0 = (db', Ok tt) ∧ index_exact db db'.
Proof using Type.
  intros Hd Hc He Hi. assert (index_ok db0) as Hok.
  { split; [by rewrite He, Hi|]. intros r ty id. by rewrite He, lookup_empty. }
  destruct (indexes_fill db now Hd db0 Hc Hok) as (db' & E & Hc' & Hok' & Ho & Hh).
  { intros o _. left. by rewrite He, lookup_empty. }
  exists db'. split; [done|]. split; [done|done|done|].
  intros r Hr. destruct (Ho r Hr) as [-> _]. by rewrite He, lookup_empty.
Qed.

Lemma clear_run db :
  clear_index db = (set_search_entities ∅ (set_search_index ∅ db), Ok tt).
Proof using Type. done. Qed.

Lemma seq_run {A B} (m : DB A) (k : A → DB B) db db1 a r :
  m db = (db1, Ok a) → k a db1 = r → (a ← m; k a) db = r.
Proof using Type. intros E1 E2. unfold mbind, db_bind. by rewrite E1. Qed.

Lemma transaction_ok {A} (m : DB A) db db' a : m db = (db', Ok a) → transaction m db = (db', Ok a).
Proof using Type. intros E. unfold transaction. by rewrite E. Qed.

Lemma text_columns_run now old db :
  ids_distinct db → old = true ∨ search_entities db = ∅ ∧ feed_guids db ≠ [] →
  ∃ db', ensure_search_index_text_columns now old db = (db', Ok tt) ∧ index_exact db db'.
Proof using Type.
  intros Hd Hr.
  assert (negb old && negb (negb (has_entity (λ _, true) db) && (0 <? length (feed_guids db))%nat) = false) as Ec.
  { destruct Hr as [->|[He Hg]]; [done|]. unfold has_entity. rewrite He, map_to_list_empty.
    destruct (feed_guids db); [done|]. by destruct old. }
  destruct (fill_exact now db (set_search_entities ∅ (set_search_index ∅ db)) Hd) as (db' & E & Hx);
    [done..|].
  exists db'. split; [|done]. eapply seq_run; [done|]. cbv beta. rewrite Ec.
  apply transaction_ok. eapply seq_run; [apply clear_run|exact E].
Qed.

Lemma track_identity_run now db :
  ids_distinct db → has_entity bare_track db = true →
  ∃ db', ensure_search_index_track_identity now db = (db', Ok tt) ∧ index_exact db db'.
Proof using Type.
  intros Hd Hb.
  set (db0 := (delete_stale_quality (set_search_entities ∅ (set_search_index ∅ db))).1).
  destruct (fill_exact now db db0 Hd) as (db' & E & Hx); [done..|].
  exists db'. split; [|done]. eapply seq_run; [done|]. cbv beta. rewrite Hb. cbn [negb].
  apply transaction_ok. eapply seq_run; [apply clear_run|]. by eapply seq_run; [|exact E].
Qed.

(** Read models that are built again over such an index leave it as it is. *)
Lemma resync_exact now db l db1 :
  ids_distinct db → l `sublist_of` feed_guids db → index_exact db db1 →
  ∃ db2, for_each (sync_source_read_models_for_feed now) l db1 = (db2, Ok tt) ∧ index_exact db db2.
Proof using Type.
  intros Hd Hl [Hok Hc Hh Ho].
  assert ((l ≫= feed_ops db) `sublist_of` index_ops db) as Hs.
  { unfold index_ops. clear -Hl. induction Hl as [|g l k Hl IH|g l k Hl IH]; [done| |].
    - cbn. by apply sublist_app.
    - cbn. by apply sublist_inserts_l. }
  assert (Indexes (catalog db) (for_each (sync_source_read_models_for_feed now) l) (l ≫= feed_ops db)) as Hi
    by (apply indexes_for_each; intros g; apply indexes_sync).
  destruct (Hi (sublist_NoDup _ _ (fmap_sublist _ _ _ Hs) Hd) db1 Hc Hok) as (db2 & E & Hc2 & Hok2 & Hu & Hh2).
  { intros o Hin. apply holds_slot, Hh. by eapply elem_of_sublist. }
  exists db2. split; [done|]. split; [done|done| |].
  - intros o Hin. destruct (decide (op_rowid o ∈ op_rowid <$> (l ≫= feed_ops db))) as [Hr|Hr];
      [|by apply (holds_same o db1); [apply Hu|apply Hh]].
    apply list_elem_of_fmap in Hr as (o' & E' & Hin').
    assert (o = o') as ->; [|by apply Hh2].
    assert (o' ∈ index_ops db) as Ho' by (by eapply elem_of_sublist).
    apply list_elem_of_lookup in Hin as [i Hi1], Ho' as [j Hj].
    assert (i = j) as <-; [|congruence].
    eapply NoDup_lookup; [exact Hd| |]; rewrite list_lookup_fmap; [by rewrite Hi1|]. rewrite Hj. cbn. by f_equal.
  - intros r Hr. destruct (Hu r) as [-> _]; [|by apply Ho].
    intros Hin. apply Hr. eapply elem_of_sublist; [exact Hin|by apply fmap_sublist].
Qed.
End repaired.

(** ** A second start *)

(** The ids of tracks are JSON texts of pairs. *)
Definition ids_are_pairs `{Crates} : Prop :=
  ∀ a b, starts_with (pair_json a b) (String "[" (String "034" "")) = true.

Section second.
Context `{Crates}.

Lemma has_entity_spec keep db :
  has_entity keep db = true ↔ ∃ r e, search_entities db !! r = Some e ∧ keep e = true.
Proof using Type.
  unfold has_entity. rewrite existsb_exists. split.
  - intros ([r e] & Hin & Hk). exists r, e. split; [|done].
    by apply elem_of_map_to_list, list_elem_of_In.
  - intros (r & e & Hr & Hk). exists (r, e). split; [|done]. by apply list_elem_of_In, elem_of_map_to_list.
Qed.

(** The entities of an exact index are those of the catalog. *)
Lemma exact_entity db db' r ty id :
  index_exact db db' → search_entities db' !! r = Some (ty, id) →
  ∃ o, o ∈ index_ops db ∧ IndexOp.entity_type o = ty ∧ IndexOp.entity_id o = id.
Proof using Type.
  intros [_ _ Hh Ho] Hr.
  destruct (decide (r ∈ op_rowid <$> index_ops db)) as [Hin|Hn]; [|by rewrite Ho in Hr].
  apply list_elem_of_fmap in Hin as (o & -> & Hin). exists o. split; [done|].
  specialize (Hh o Hin). unfold holds in Hh. destruct (op_row o).
  - destruct Hh as [E _]. rewrite E in Hr. by injection Hr.
  - by rewrite Hh in Hr.
Qed.

Lemma op_of_index o db : o ∈ index_ops db →
  ∃ guid row, feeds db !! guid = Some row ∧
    let f := FeedRow.feed row in
    o = feed_op "feed" (is_music (Feed.raw_medium f)) f
    ∨ o = feed_op "publisher" (is_publisher (Feed.raw_medium f)) f
    ∨ ∃ t, o = track_op (is_music (Feed.raw_medium f)) t.
Proof using Type.
  unfold index_ops. intros (guid & Ho & _)%list_elem_of_bind. unfold feed_ops in Ho.
  destruct (feeds db !! guid) as [row|] eqn:E; cbn in Ho; [|by apply not_elem_of_nil in Ho].
  exists guid, row. split; [done|]. cbv zeta.
  apply elem_of_cons in Ho as [->|Ho]; [by left|]. apply elem_of_cons in Ho as [->|Ho]; [by right; left|].
  right. right. apply list_elem_of_fmap in Ho as (t & -> & _). by exists t.
Qed.

Lemma exact_no_bare db db' :
  ids_are_pairs → index_exact db db' → has_entity bare_track db' = false.
Proof using Type.
  intros Hp Hx. apply not_true_iff_false. rewrite has_entity_spec. intros (r & [ty id] & Hr & Hb).
  destruct (exact_entity _ _ _ _ _ Hx Hr) as (o & Hin & <- & <-).
  unfold bare_track in Hb. cbn [fst snd] in Hb. apply andb_true_iff in Hb as [Ht Hn].
  destruct (op_of_index o db Hin) as (guid & row & _ & [->|[->|[t ->]]]); [done..|].
  cbn [track_op IndexOp.entity_id] in Hn. unfold canonical_track_entity_id in Hn. by rewrite Hp in Hn.
Qed.

Lemma publisher_op guid row db :
  feeds db !! guid = Some row →
  feed_op "publisher" (is_publisher (Feed.raw_medium (FeedRow.feed row))) (FeedRow.feed row) ∈ index_ops db.
Proof using Type.
  intros Hr. unfold index_ops. apply list_elem_of_bind. exists guid. split.
  - unfold feed_ops. rewrite Hr. cbn. right. left.
  - unfold feed_guids. apply list_elem_of_fmap. exists (guid, row). split; [done|].
    by apply elem_of_map_to_list.
Qed.

Lemma exact_none_missing db db' :
  catalog_ok db → index_exact db db' → missing_publisher_feeds db' = [].
Proof using Type.
  intros [Hk _] Hx. unfold missing_publisher_feeds.
  destruct (List.filter _ _) as [|[guid row] l] eqn:El; [done|]. exfalso.
  assert (In (guid, row) ((guid, row) :: l)) as Hin by (by left).
  rewrite <-El in Hin. apply filter_In in Hin as [Hin Hb]. apply andb_true_iff in Hb as [Hp Hn].
  apply list_elem_of_In, elem_of_map_to_list in Hin. destruct Hx as [_ Hc Hh _].
  injection Hc as Hf _. rewrite Hf in Hin. pose proof (Hh _ (publisher_op _ _ _ Hin)) as Hh'.
  unfold holds, op_row, feed_op, op_rowid in Hh'. cbn in Hh'. rewrite Hp in Hh'. cbn in Hh'.
  destruct Hh' as [He _]. apply negb_true_iff in Hn.
  assert (has_entity (λ e, (e.1 =s "publisher") && (e.2 =s guid)) db' = true) as Ht; [|congruence].
  apply has_entity_spec. eexists _, _. split; [exact He|]. cbn [fst snd].
  by rewrite (Hk _ _ Hin), !String.eqb_refl.
Qed.
End second.

(** ** Properties *)

(** C21: A start repairs the search index, and the next one finds nothing to
    repair. When the index has the old definition, or is empty while there are
    feeds, or holds a track under its bare GUID, the start succeeds and leaves
    the index of the catalog: each feed of music, each of its tracks and each
    publisher feed has its row, with the texts of the catalog, and there is no
    other row; feeds and tracks are as they were. When the catalog has an
    entity to index, a second start, however much later, changes nothing at
    all. It needs that no two entities share a row id. *)
Theorem search_repair_once `{Crates} (now : Z) (has_old_definition : bool) (db : Db)
    (Hpairs : ids_are_pairs) (Hkeys : catalog_ok db) (Hids : ids_distinct db)
    (Hneeds : has_old_definition = true ∨ has_entity bare_track db = true
      ∨ search_entities db = ∅ ∧ feed_guids db ≠ []) :
  ∃ db', ensure_search_index now has_old_definition db = (db', Ok tt)
    ∧ index_exact db db'
    ∧ ((∃ o, o ∈ index_ops db ∧ is_Some (IndexOp.texts o)) →
       ∀ later, ensure_search_index later false db' = (db', Ok tt)).
Proof.
  assert (∃ db1, (_ ← ensure_search_index_text_columns now has_old_definition;
      ensure_search_index_track_identity now) db = (db1, Ok tt) ∧ index_exact db db1) as (db1 & E1 & Hx1).
  { destruct (decide (has_old_definition = true ∨ search_entities db = ∅ ∧ feed_guids db ≠ [])) as [Ht|Ht].
    - destruct (text_columns_run now has_old_definition db Hids Ht) as (db1 & E & Hx).
      exists db1. split; [|done]. eapply seq_run; [exact E|].
      unfold ensure_search_index_track_identity. eapply seq_run; [done|]. cbv beta.
      by rewrite (exact_no_bare _ _ Hpairs Hx).
    - assert (has_entity bare_track db = true) as Hb by tauto.
      destruct (track_identity_run now db Hids Hb) as (db1 & E & Hx).
      exists db1. split; [|done]. eapply seq_run; [|exact E].
      unfold ensure_search_index_text_columns. eapply seq_run; [done|]. cbv beta.
      assert (has_entity (λ _, true) db = true) as He.
      { apply has_entity_spec in Hb as (r & e & Hr & _). apply has_entity_spec. by exists r, e. }
      rewrite He. destruct has_old_definition; [|done]. exfalso. apply Ht. by left. }
  assert (∀ later d, index_exact db d → ensure_search_index_publisher_feeds later d = (d, Ok tt)) as Hpub.
  { intros later d Hx. unfold ensure_search_index_publisher_feeds. eapply seq_run; [done|]. cbv beta.
    by rewrite (exact_none_missing _ _ Hkeys Hx). }
  exists db1. split; [|split; [done|]].
  - unfold ensure_search_index. unfold mbind, db_bind in E1 |- *.
    destruct (ensure_search_index_text_columns _ _ _) as [d [[]|]]; [|done]. rewrite E1. by apply Hpub.
  - intros (o & Hin & [[[n t] d] Ht]) later. unfold ensure_search_index.
    pose proof (ex_holds _ _ Hx1 o Hin) as Hh. unfold holds, op_row in Hh. rewrite Ht in Hh.
    cbn [fmap option_fmap option_map] in Hh. destruct Hh as [He _].
    eapply seq_run.
    { unfold ensure_search_index_text_columns. eapply seq_run; [done|]. cbv beta.
      by rewrite (proj2 (has_entity_spec (λ _, true) db1)) by eauto. }
    eapply seq_run; [|by apply Hpub].
    unfold ensure_search_index_track_identity. eapply seq_run; [done|]. cbv beta.
    by rewrite (exact_no_bare _ _ Hpairs Hx1).
Qed.

(** The sample primary without its index. *)
Definition unindexed : Db := set_search_entities ∅ (set_search_index ∅ sample_primary).

Lemma catalog_ok_index x y db : catalog_ok db → catalog_ok (set_search_entities x (set_search_index y db)).
Proof. exact id. Qed.

#[local] Existing Instance sample_crates.

Lemma unindexed_keyed : catalog_ok unindexed.
Proof.
  apply catalog_ok_index. assert (node_ok sample_primary) as Hok; [|apply Hok].
  eapply (node_step_ok id); [apply empty_ok|apply step_ingest].
Qed.

Lemma sample_pairs_ok : ids_are_pairs.
Proof.
  intros a b. unfold pair_json. cbn [sample_crates table_crates].
  generalize (tally (String.length a) ++ "," ++ a ++ b)%string. by intros [].
Qed.

Lemma search_repair_once_witness :
  ∃ db', @ensure_search_index sample_crates 200 false unindexed = (db', Ok tt)
    ∧ ∀ later, @ensure_search_index sample_crates later false db' = (db', Ok tt).
Proof.
  destruct (@search_repair_once sample_crates 200 false unindexed) as (db' & E & _ & H).
  - apply sample_pairs_ok.
  - apply unindexed_keyed.
  - apply (bool_decide_unpack _). vm_compute. exact I.
  - right. right. split; [reflexivity|]. vm_compute. discriminate.
  - exists db'. split; [exact E|]. apply H.
    exists (feed_op "feed" true sample_feed). split; [|by eexists].
    apply list_elem_of_In. vm_compute. left. reflexivity.
Defined.

(** A node whose feeds are lists only has no entity to index, so each start runs
    the fill again. *)
Lemma lists_only_repair_again `{Crates} later db db' :
  feed_guids db ≠ [] → (∀ o, o ∈ index_ops db → IndexOp.texts o = None) →
  index_exact db db' →
  ensure_search_index_text_columns later false db'
  = transaction (_ ← clear_index; fill_index later) db'.
Proof.
  intros Hg Ht Hx. unfold ensure_search_index_text_columns, query, mbind, db_bind.
  assert (has_entity (λ _, true) db' = false) as ->.
  { apply not_true_iff_false. rewrite has_entity_spec. intros (r & e & Hr & _).
    destruct Hx as [_ _ Hh Ho].
    destruct (decide (r ∈ op_rowid <$> index_ops db)) as [Hin|Hn]; [|by rewrite Ho in Hr].
    apply list_elem_of_fmap in Hin as (o & -> & Hin). specialize (Hh o Hin).
    unfold holds, op_row in Hh. rewrite (Ht o Hin) in Hh. cbn in Hh. by rewrite Hh in Hr. }
  assert (feed_guids db' = feed_guids db) as ->
    by (injection (ex_catalog _ _ Hx) as Hf _; unfold feed_guids; by rewrite Hf).
  by destruct (feed_guids db).
Qed.
