(* ===== verification/StartupProps.v ===== *)
(** Properties of the start of a node: the holds that it fills in are exactly
    those that are due, and a restart changes nothing. *)

From S2P Require Import Prelude.
From S2P Require Import Model.
From S2P Require Import Event.
From S2P Require Import Crates.
From S2P Require Import Store.
From S2P Require Import Verify.
From S2P Require Import EventLog.
From S2P Require Import Blocks.
From S2P Require Import Observe.
From S2P Require Import Sync.
From S2P Require Import Frames.
From S2P Require Import Replica.
From S2P Require Import Delivery.
From S2P Require Import Samples.
From S2P Require Import Startup.
From S2P Require Import ModerationProps.

(** ** Rows in the order of a key *)

Section ordered.
Context {A B : Type} (f : A → Z).

(** The last row is the one with the greatest key. *)
Lemma last_greatest l x :
  StronglySorted Z.lt (f <$> l) → last l = Some x ↔ x ∈ l ∧ ∀ y, y ∈ l → f y ≤ f x.
Proof using Type.
  revert x. induction l as [|a l IH]; cbn [fmap list_fmap]; intros x Hs.
  { cbn. split; [done|]. by intros [?%elem_of_nil _]. }
  apply StronglySorted_inv in Hs as [Hs Ha]. rewrite List.Forall_forall in Ha.
  assert (∀ y, y ∈ l → f a < f y) as Hlt.
  { intros y Hy. apply Ha, list_elem_of_In, list_elem_of_fmap_2, Hy. }
  rewrite last_cons. destruct (last l) as [z|] eqn:E.
  - pose proof (proj1 (IH z Hs) eq_refl) as E'. split.
    + intros [= <-]. destruct E' as [Hz Hm]. split; [by right|].
      intros y [->|Hy]%elem_of_cons; [specialize (Hlt z Hz); lia|by apply Hm].
    + intros [[->|Hx]%elem_of_cons Hm].
      * destruct E' as [Hz _]. specialize (Hlt z Hz). specialize (Hm z). rewrite elem_of_cons in Hm. specialize (Hm (or_intror Hz)). lia.
      * apply (IH x Hs). split; [done|]. intros y Hy. apply Hm. by right.
  - apply last_None in E as ->. split.
    + intros [= <-]. split; [by left|]. intros y ->%list_elem_of_singleton. lia.
    + by intros [->%list_elem_of_singleton _].
Qed.

(** The first row that gives a value is the one with the least key. *)
Lemma head_omap_least (g : A → option B) l h :
  StronglySorted Z.lt (f <$> l) →
  head (omap g l) = Some h ↔ ∃ x, x ∈ l ∧ g x = Some h ∧ ∀ y, y ∈ l → is_Some (g y) → f x ≤ f y.
Proof using Type.
  induction l as [|a l IH]; cbn [fmap list_fmap]; intros Hs.
  { split; [done|]. by intros (x & ?%elem_of_nil & _). }
  apply StronglySorted_inv in Hs as [Hs Ha]. rewrite List.Forall_forall in Ha.
  assert (∀ y, y ∈ l → f a < f y) as Hlt.
  { intros y Hy. apply Ha, list_elem_of_In, list_elem_of_fmap_2, Hy. }
  cbn [omap list_omap]. destruct (g a) as [b|] eqn:E; cbn [head].
  - split.
    + intros [= ->]. exists a. split_and!; [by left|done|].
      intros y [->|Hy]%elem_of_cons _; [lia|specialize (Hlt y Hy); lia].
    + intros (x & [->|Hx]%elem_of_cons & Hg & Hm); [congruence|].
      specialize (Hm a). rewrite elem_of_cons in Hm. specialize (Hlt x Hx).
      rewrite E in Hm. specialize (Hm (or_introl eq_refl) (ex_intro _ b eq_refl)). lia.
  - rewrite (IH Hs). split; intros (x & Hx & Hg & Hm); exists x.
    + split_and!; [by right|done|]. intros y [->|Hy]%elem_of_cons Hy'; [|by apply Hm].
      rewrite E in Hy'. by destruct Hy'.
    + apply elem_of_cons in Hx as [->|Hx]; [congruence|].
      split_and!; [done..|]. intros y Hy. apply Hm. by right.
Qed.
End ordered.

(** ** Which holds are due *)

(** The last row of a kind and a subject, among those that [before] takes. *)
Definition latest (db : Db) (ty : EventType) (guid : string) (before : LogRow → Prop)
    (r : LogRow) : Prop :=
  (r ∈ events db ∧ LogRow.event_type r = ty ∧ LogRow.subject_guid r = guid ∧ before r)
  ∧ ∀ s, s ∈ events db → LogRow.event_type s = ty → LogRow.subject_guid s = guid → before s →
      LogRow.seq s ≤ LogRow.seq r.

Section due.
Context `{Crates} `{UpsertedJson}.

(** The hold [h] is due for the retirement [r]: the last of its GUID, for a
    reason that freed it, of a record that is neither back nor blocked, at the
    URL of the last state before. *)
Record due (db : Db) (r : LogRow) (h : RetiredSourceHold) : Prop := {
  due_last : latest db EventType.FeedRetired (LogRow.subject_guid r) (λ _, True) r;
  due_reason : ∃ p, parse_retired (LogRow.payload_json r) = Some p
    ∧ FeedRetiredPayload.reason p = Some (RetiredSourceHold.reason h)
    ∧ RetiredSourceHold.reason h ∈ HOLD_RETIRE_REASONS;
  due_absent : feeds db !! LogRow.subject_guid r = None
    ∧ feeds db !! to_lowercase (LogRow.subject_guid r) = None;
  due_unblocked : ∀ b, b ∈ feed_blocks db → FeedBlock.kind b = FeedBlockKind.Guid →
    FeedBlock.value b ≠ to_lowercase (LogRow.subject_guid r);
  due_url : ∃ u, latest db EventType.FeedUpserted (LogRow.subject_guid r)
                   (λ s, LogRow.seq s < LogRow.seq r) u
    ∧ upserted_feed_url (LogRow.payload_json u) = Some (RetiredSourceHold.source_url h);
  due_row : RetiredSourceHold.feed_guid h = to_lowercase (LogRow.subject_guid r)
    ∧ RetiredSourceHold.retired_at h = LogRow.created_at r
    ∧ RetiredSourceHold.released_at h = None
}.

(** The same as a function, but for the place of [r]. *)
Definition due_hold (db : Db) (r : LogRow) : option RetiredSourceHold :=
  let guid := LogRow.subject_guid r in
  let lower := to_lowercase guid in
  p ← parse_retired (LogRow.payload_json r);
  reason ← FeedRetiredPayload.reason p;
  if negb (existsb (String.eqb reason) HOLD_RETIRE_REASONS)
     || is_some (feeds db !! guid) || is_some (feeds db !! lower)
     || existsb (λ b, (FeedBlock.kind b == FeedBlockKind.Guid) && (FeedBlock.value b =s lower))
          (feed_blocks db)
  then None
  else
    u ← upserted_before guid (LogRow.seq r) db;
    url ← upserted_feed_url (LogRow.payload_json u);
    Some (RetiredSourceHold.mk lower url reason (LogRow.created_at r) None).

(** [INSERT OR IGNORE] of a hold that may be due. *)
Definition put_hold (o : option RetiredSourceHold) (m : gmap string RetiredSourceHold) :
    gmap string RetiredSourceHold :=
  match o with
  | Some h => if is_some (m !! RetiredSourceHold.feed_guid h) then m
              else <[RetiredSourceHold.feed_guid h := h]> m
  | None => m
  end.

Lemma due_hold_key db r h :
  due_hold db r = Some h → RetiredSourceHold.feed_guid h = to_lowercase (LogRow.subject_guid r).
Proof using Type.
  unfold due_hold. destruct (parse_retired _) as [p|]; [|done]. cbn.
  destruct (FeedRetiredPayload.reason p); [|done]. cbn. destruct (_ || _); [done|].
  destruct (upserted_before _ _ _); [|done]. cbn. destruct (upserted_feed_url _); [|done].
  by intros [= <-].
Qed.

(** ** The loop *)

Lemma set_holds_same db : set_retired_source_holds (retired_source_holds db) db = db.
Proof using Type. by destruct db. Qed.

Ltac no_write :=
  intros [= <- <-]; cbn [put_hold]; rewrite set_holds_same; split_and!; [done|lia|done].

(** What a turn that succeeds writes; and a turn again, once its GUID has a
    hold, writes nothing. *)
Lemma fill_step_run r db d n :
  fill_step r db = (d, Ok n) →
  d = set_retired_source_holds (put_hold (due_hold db r) (retired_source_holds db)) db
  ∧ Z.of_nat (size (retired_source_holds d)) = Z.of_nat (size (retired_source_holds db)) + n
  ∧ ∀ hs, retired_source_holds d ⊆ hs →
      fill_step r (set_retired_source_holds hs db) = (set_retired_source_holds hs db, Ok 0).
Proof using Type.
  unfold fill_step, due_hold.
  destruct (parse_retired _) as [p|]; [|done]. cbn [mbind option_bind].
  destruct (FeedRetiredPayload.reason p) as [reason|]; cbn [mbind option_bind];
    [|no_write].
  destruct (existsb (String.eqb reason) _); cbn [negb orb];
    [|no_write].
  set (guid := LogRow.subject_guid r). unfold blocked_or_present. cbn.
  destruct (is_some (feeds db !! guid) || is_some (feeds db !! to_lowercase guid)
    || existsb _ (feed_blocks db)) eqn:Eb; cbn [orb];
    [no_write|].
  destruct (retired_source_holds db !! to_lowercase guid) as [h0|] eqn:Eh; cbn [is_some].
  - intros [= <- <-]. split_and!.
    + destruct (upserted_before _ _ _) as [u|]; cbn [mbind option_bind put_hold];
        [|by rewrite set_holds_same].
      destruct (upserted_feed_url _); cbn [mbind option_bind put_hold];
        [|by rewrite set_holds_same].
      cbn [RetiredSourceHold.feed_guid]. rewrite Eh. cbn [is_some]. by rewrite set_holds_same.
    + lia.
    + intros hs Hhs. by rewrite (lookup_weaken _ _ _ _ Eh Hhs).
  - destruct (upserted_before _ _ _) as [u|] eqn:Eu; cbn.
    + destruct (upserted_feed_url _) as [url|]; cbn; [|done].
      unfold insert_hold. cbn. rewrite Eh. intros [= <- <-]. cbn. split_and!; [done| |].
      * rewrite map_size_insert_None by done. lia.
      * intros hs Hhs. rewrite (lookup_weaken _ _ (to_lowercase guid) _ (lookup_insert_eq _ _ _) Hhs). done.
    + intros [= <- <-]. rewrite set_holds_same. split_and!; [done|lia|].
      intros hs _. destruct (is_some (hs !! _)); [done|].
      unfold upserted_before in Eu. by rewrite Eu.
Qed.

(** The hold that the loop writes for a GUID that has none. *)
Definition first_due (db : Db) (k : string) (l : list LogRow) : option RetiredSourceHold :=
  head (omap (λ r, h ← due_hold db r;
    if RetiredSourceHold.feed_guid h =s k then Some h else None) l).

Lemma put_hold_lookup db r m k :
  put_hold (due_hold db r) m !! k = match m !! k with Some h => Some h | None => first_due db k [r] end.
Proof using Type.
  unfold put_hold, first_due. cbn [omap list_omap].
  destruct (due_hold db r) as [h|]; cbn [mbind option_bind head]; [|by destruct (m !! k)].
  destruct (String.eqb_spec (RetiredSourceHold.feed_guid h) k) as [<-|Hk]; cbn [head].
  - destruct (m !! RetiredSourceHold.feed_guid h) eqn:E; cbn [is_some]; [done|].
    apply lookup_insert_eq.
  - destruct (is_some _); [by destruct (m !! k)|]. rewrite lookup_insert_ne by done.
    by destruct (m !! k).
Qed.

Lemma fill_loop_run l w db d w' :
  fill_loop l w db = (d, Ok w') →
  ∃ hs, d = set_retired_source_holds hs db
    ∧ Z.of_nat (size hs) = Z.of_nat (size (retired_source_holds db)) + (w' - w)
    ∧ (∀ k, hs !! k = match retired_source_holds db !! k with
                      | Some h => Some h | None => first_due db k l end)
    ∧ ∀ hs' v, hs ⊆ hs' →
        fill_loop l v (set_retired_source_holds hs' db) = (set_retired_source_holds hs' db, Ok v).
Proof using Type.
  revert w db. induction l as [|r l IH]; intros w db.
  { intros [= <- <-]. exists (retired_source_holds db). rewrite set_holds_same.
    split_and!; [done|lia| |done]. intros k. by destruct (_ !! k). }
  intros (d1 & n & E1 & E)%bind_ok. apply fill_step_run in E1 as (Hd1 & Hn & Hst).
  apply IH in E as (hs & -> & Hsz & Hlk & Hagain). clear IH.
  set (m := put_hold _ _) in Hd1. assert (retired_source_holds d1 = m) as Hm by by rewrite Hd1.
  assert (∀ k, hs !! k = match m !! k with Some h => Some h | None => first_due db k l end) as Hk.
  { intros k. rewrite Hlk, Hm. by rewrite Hd1. }
  assert (m ⊆ hs) as Hsub.
  { apply map_subseteq_spec. intros k h Hkh. by rewrite Hk, Hkh. }
  exists hs. split_and!; [by rewrite Hd1|lia| |].
  - intros k. rewrite Hk. unfold m. rewrite put_hold_lookup. unfold first_due. cbn [omap list_omap].
    destruct (retired_source_holds db !! k); [done|]. by destruct (_ ≫= _).
  - intros hs' v Hs. cbn [fill_loop]. unfold mbind, db_bind.
    rewrite Hst by (rewrite Hm; etrans; done).
    rewrite Z.add_0_r. rewrite Hd1 in Hagain. apply (Hagain hs' v Hs).
Qed.
End due.

(** ** The rows of the log *)

Section log.
Context `{Crates} `{UpsertedJson} (db : Db) (Hlog : log_ok db).

Lemma picked_sorted (p : LogRow → bool) :
  StronglySorted Z.lt (LogRow.seq <$> List.filter p (events db)).
Proof using Hlog.
  destruct Hlog as (Hs & _). eapply StronglySorted_sublist; [|exact Hs].
  apply sublist_fmap, filter_sublist.
Qed.

Lemma picked_in_order (p : LogRow → bool) :
  sort_by by_seq (List.filter p (events db)) = List.filter p (events db).
Proof using Hlog. apply sort_by_id, sorted_by_seq, picked_sorted. Qed.

Lemma upserted_before_spec guid n u :
  upserted_before guid n db = Some u
  ↔ latest db EventType.FeedUpserted guid (λ s, LogRow.seq s < n) u.
Proof using Hlog.
  unfold upserted_before. rewrite picked_in_order.
  rewrite (last_greatest LogRow.seq) by apply picked_sorted. unfold latest, is_type.
  setoid_rewrite elem_of_filterb. setoid_rewrite andb_true_iff. setoid_rewrite andb_true_iff.
  setoid_rewrite Z.ltb_lt. setoid_rewrite String.eqb_eq. setoid_rewrite beq_true. naive_solver.
Qed.

Lemma last_retires_spec r :
  r ∈ last_retires db ↔ latest db EventType.FeedRetired (LogRow.subject_guid r) (λ _, True) r.
Proof using Hlog.
  unfold last_retires. rewrite sort_by_perm, !elem_of_filterb, forallb_forall. unfold latest, is_type.
  setoid_rewrite <-list_elem_of_In. setoid_rewrite elem_of_filterb. setoid_rewrite elem_of_filterb.
  setoid_rewrite String.eqb_eq. setoid_rewrite beq_true. setoid_rewrite Z.leb_le. naive_solver.
Qed.

Lemma last_retires_sorted : StronglySorted Z.lt (LogRow.seq <$> last_retires db).
Proof using Hlog.
  assert (∀ l, sublist l (events db) → StronglySorted Z.lt (LogRow.seq <$> sort_by by_seq l)) as Hl.
  { intros l Hl. destruct Hlog as (Hs & _).
    assert (StronglySorted Z.lt (LogRow.seq <$> l)) as Hsl
      by (eapply StronglySorted_sublist; [by apply sublist_fmap|exact Hs]).
    by rewrite (sort_by_id by_seq l (sorted_by_seq l Hsl)). }
  apply Hl. etrans; apply filter_sublist.
Qed.

Lemma due_hold_spec r h : r ∈ last_retires db → due_hold db r = Some h ↔ due db r h.
Proof using Hlog.
  rewrite last_retires_spec. intros Hl. unfold due_hold. split.
  - destruct (parse_retired _) as [p|] eqn:Ep; [|done]. cbn [mbind option_bind].
    destruct (FeedRetiredPayload.reason p) as [reason|] eqn:Er; [|done]. cbn [mbind option_bind].
    destruct (existsb (String.eqb reason) _) eqn:Ex; cbn [negb orb]; [|done].
    destruct (feeds db !! LogRow.subject_guid r) eqn:E1; cbn [is_some orb]; [done|].
    destruct (feeds db !! to_lowercase _) eqn:E2; cbn [is_some orb]; [done|].
    destruct (existsb _ (feed_blocks db)) eqn:Eb; [done|].
    destruct (upserted_before _ _ _) as [u|] eqn:Eu; [|done]. cbn [mbind option_bind].
    destruct (upserted_feed_url _) as [url|] eqn:El; [|done]. intros [= <-].
    apply existsb_exists in Ex as (x & Hx & ->%String.eqb_eq). apply upserted_before_spec in Eu.
    split; cbn; eauto 6; [apply list_elem_of_In in Hx; eauto| ].
    intros b Hb Hk Hv. assert (existsb (λ b, (FeedBlock.kind b == FeedBlockKind.Guid)
      && (FeedBlock.value b =s to_lowercase (LogRow.subject_guid r))) (feed_blocks db) = true); [|congruence].
    apply existsb_exists. exists b. split; [by apply list_elem_of_In|].
    by rewrite andb_true_iff, beq_true, String.eqb_eq.
  - intros [_ (p & -> & Hr & Hx) [E1 E2] Hb (u & Hu & Hurl) (Hg & Ht & Hn)]. cbn [mbind option_bind].
    rewrite Hr. cbn [mbind option_bind]. rewrite E1, E2.
    replace (existsb (String.eqb _) _) with true; cbn [negb orb is_some].
    2: { symmetry. apply existsb_exists. eexists. split; [by apply list_elem_of_In|]. apply String.eqb_refl. }
    replace (existsb _ (feed_blocks db)) with false.
    2: { symmetry. apply not_true_iff_false. rewrite existsb_exists. intros (b & Hin & Hbb).
         rewrite andb_true_iff, beq_true, String.eqb_eq in Hbb.
         apply (Hb b); [by apply list_elem_of_In|by destruct Hbb..]. }
    apply upserted_before_spec in Hu as ->. cbn [mbind option_bind]. rewrite Hurl.
    cbn [mbind option_bind]. destruct h; cbn in *; subst. done.
Qed.

Lemma first_due_spec k h :
  first_due db k (last_retires db) = Some h
  ↔ RetiredSourceHold.feed_guid h = k ∧ ∃ r, due db r h
      ∧ ∀ r' h', due db r' h' → RetiredSourceHold.feed_guid h' = k → LogRow.seq r ≤ LogRow.seq r'.
Proof using Hlog.
  unfold first_due. rewrite (head_omap_least LogRow.seq) by apply last_retires_sorted.
  assert (∀ r h', r ∈ last_retires db →
    (h0 ← due_hold db r; if RetiredSourceHold.feed_guid h0 =s k then Some h0 else None) = Some h'
    ↔ due db r h' ∧ RetiredSourceHold.feed_guid h' = k) as Hd.
  { intros r h' Hr. rewrite <-(due_hold_spec r h' Hr).
    destruct (due_hold db r) as [h0|]; cbn [mbind option_bind]; [|naive_solver].
    destruct (String.eqb_spec (RetiredSourceHold.feed_guid h0) k); naive_solver. }
  assert (∀ r h', due db r h' → r ∈ last_retires db) as Hin.
  { intros r h' Hh. apply last_retires_spec, (due_last _ _ _ Hh). }
  split.
  - intros (r & Hr & Hh & Hm). apply Hd in Hh as [Hh Hk]; [|done]. split; [done|].
    exists r. split; [done|]. intros r' h' Hd' Hk'. specialize (Hin r' h' Hd').
    apply Hm; [done|]. exists h'. by apply Hd.
  - intros (Hk & r & Hh & Hm). specialize (Hin r h Hh) as Hr. exists r.
    split_and!; [done|by apply Hd|]. intros r' Hr' [h' Hh']. apply Hd in Hh' as [Hh' Hk']; [|done].
    by eapply Hm.
Qed.
End log.

(** A run that succeeds writes holds only, and nothing when it runs again. *)
Lemma fill_again `{Crates} `{UpsertedJson} db d w :
  fill_retired_source_holds db = (d, Ok w) →
  (∃ hs, d = set_retired_source_holds hs db) ∧ fill_retired_source_holds d = (d, Ok 0).
Proof.
  intros E%transaction_run. apply fill_loop_run in E as (hs & -> & _ & _ & Hagain).
  split; [by eexists|]. unfold fill_retired_source_holds, transaction.
  change (last_retires (set_retired_source_holds hs db)) with (last_retires db). by rewrite Hagain.
Qed.

(** C25: the holds of earlier retirements are filled in exactly, and once. A
    run that succeeds changes no other table and no hold that has a row, and
    counts the rows that it writes. A GUID without a row gets the hold that is
    due for it: that of its last retirement, when this freed the GUID, the
    record is neither back nor blocked, and an earlier state has a URL; of
    two spellings of a GUID, that of the one that was retired first. Run
    again, it writes nothing. *)
Theorem holds_filled_exactly `{Crates} `{UpsertedJson} db db' w :
  log_ok db →
  fill_retired_source_holds db = (db', Ok w) →
  (∃ hs, db' = set_retired_source_holds hs db
     ∧ Z.of_nat (size hs) = Z.of_nat (size (retired_source_holds db)) + w
     ∧ ∀ k h, hs !! k = Some h ↔
         retired_source_holds db !! k = Some h
         ∨ retired_source_holds db !! k = None ∧ RetiredSourceHold.feed_guid h = k
           ∧ ∃ r, due db r h ∧ ∀ r' h', due db r' h' → RetiredSourceHold.feed_guid h' = k →
               LogRow.seq r ≤ LogRow.seq r')
  ∧ fill_retired_source_holds db' = (db', Ok 0).
Proof.
  intros Hlog E. split; [|by apply fill_again in E as [_ ?]].
  apply transaction_run, fill_loop_run in E as (hs & -> & Hsz & Hk & _).
  exists hs. split_and!; [done|lia|]. intros k h. rewrite Hk.
  rewrite <-(first_due_spec db Hlog). destruct (retired_source_holds db !! k); naive_solver.
Qed.

(** ** A restart *)

#[local] Instance seed_loop_peers `{Crates} uuids entries signer now w :
  Keeps peer_nodes (seed_loop uuids entries signer now w).
Proof.
  revert uuids w. induction entries as [|[k v] es IH]; intros uuids w; [apply keeps_ret|].
  cbn [seed_loop]. apply keeps_bind; [apply _|]. intros []; cbn [negb]; [|apply IH].
  apply keeps_bind; [|intros; apply IH]. intros db. rewrite insert_event_run.
  destruct (event_id_taken _ _); [done|]. by destruct (sign_event _ _ _ _ _ _ _).
Qed.

(** The start keeps what is true of every node. *)
#[local] Instance seed_loop_ok `{Crates} (P : Db → Prop) uuids entries signer now w :
  (∀ b, Preserves P (insert_feed_block b)) →
  (∀ i ty p s n ws, Preserves P (insert_event i ty p s signer n ws)) →
  Preserves P (seed_loop uuids entries signer now w).
Proof.
  intros Hb He. revert uuids w. induction entries as [|[k v] es IH]; intros uuids w; [apply _|].
  cbn [seed_loop]. apply preserves_bind; [apply Hb|]. intros []; cbn [negb]; [|apply IH].
  apply preserves_bind; [apply He|]. intros _. apply IH.
Qed.

#[local] Instance insert_block_log `{Crates} b : Preserves log_ok (insert_feed_block b).
Proof. apply keeps_events_log. apply _. Qed.

Lemma primary_start_ok `{Crates} `{UpsertedJson} `{Web} env signer uuids now db :
  node_ok db → node_ok (run_primary env signer uuids now db).1.
Proof.
  intros Hok. unfold run_primary. destruct (env "CRAWL_TOKEN") as [token|]; [|done].
  destruct (require_crawl_token token); [|done]. destruct (build_chain _ token); [|done].
  unfold push_subscribers_at_start, get_push_peers, query, mbind, db_bind, mret, db_ret.
  set (entries := blocks_from_env _ _).
  assert (node_ok (seed_blocks uuids entries signer now db).1) as Hs.
  { unfold seed_blocks. apply node_ok_step; [apply _..|done]. }
  destruct (seed_blocks _ _ _ _ _) as [d [w|e]]; [|done].
  destruct (fill_retired_source_holds d) as [d2 [n|e]] eqn:F; cbn in *.
  - by apply fill_again in F as [[hs ->] _].
  - by apply transaction_err in F as ->.
Qed.

(** A run that succeeds leaves a row for each hold that was due. *)
Lemma fill_covers `{Crates} `{UpsertedJson} db d w r h :
  log_ok db → fill_retired_source_holds db = (d, Ok w) → due d r h →
  is_Some (retired_source_holds d !! RetiredSourceHold.feed_guid h).
Proof.
  intros Hlog E%transaction_run Hdue. apply fill_loop_run in E as (hs & -> & _ & Hk & _).
  assert (due db r h) as Hd by (by destruct Hdue; split).
  change (is_Some (hs !! RetiredSourceHold.feed_guid h)). rewrite Hk.
  destruct (retired_source_holds db !! _); [by eexists|].
  unfold first_due. destruct (omap _ (last_retires db)) as [|h' l] eqn:Eo; [|by eexists].
  assert (r ∈ last_retires db) as Hr by (apply (last_retires_spec db Hlog), (due_last _ _ _ Hd)).
  assert (h ∈ omap (λ r, h0 ← due_hold db r;
    if RetiredSourceHold.feed_guid h0 =s RetiredSourceHold.feed_guid h then Some h0 else None)
    (last_retires db)) as Hin.
  { apply list_elem_of_omap. exists r. split; [done|].
    rewrite (proj2 (due_hold_spec db Hlog r h Hr) Hd). cbn [mbind option_bind].
    by rewrite String.eqb_refl. }
  rewrite Eo in Hin. by apply elem_of_nil in Hin.
Qed.

(** C24: a restart of the primary changes nothing after the open of its
    database. Once the primary has come up, each entry of the environment has
    its block, and each hold that is due for an earlier retirement has its row;
    and the same environment brings the primary up again at any time, with the
    same state, and leaves the database as it is, so that no event is signed
    twice. (What the open does is the matter of [search_repair_once].) *)
Theorem primary_restart `{Crates} `{UpsertedJson} `{Web} env signer uuids now db db' state :
  (∀ i j, new_v4 i = new_v4 j → i = j) →
  (∀ i, uuids ≤ i → new_v4 i ∉ FeedBlock.block_id <$> feed_blocks db)%nat →
  log_ok db →
  run_primary env signer uuids now db = (db', Ok state) →
  Forall (λ e, entry_pair e ∈ block_pair <$> feed_blocks db')
    (blocks_from_env (env_ok env "BLOCKED_FEED_GUIDS") (env_ok env "BLOCKED_FEED_URLS"))
  ∧ (∀ r h, due db' r h → is_Some (retired_source_holds db' !! RetiredSourceHold.feed_guid h))
  ∧ ∀ uuids' now', run_primary env signer uuids' now' db' = (db', Ok state).
Proof.
  intros Hd Hfresh Hlog. unfold run_primary.
  destruct (env "CRAWL_TOKEN") as [token|]; [|done].
  destruct (require_crawl_token token); [|done].
  destruct (build_chain _ token) as [chain|]; [|done].
  unfold push_subscribers_at_start, get_push_peers, query, mbind, db_bind, mret, db_ret.
  set (entries := blocks_from_env _ _).
  destruct (seed_blocks uuids entries signer now db) as [d [w|e]] eqn:E; [|done].
  destruct (fill_retired_source_holds d) as [d2 [n|e]] eqn:F; [|done]. intros [= <- <-].
  apply transaction_run in E. pose proof (seed_loop_peers uuids entries signer now 0 db) as Hp.
  assert (log_ok d) as Hlog'.
  { pose proof (preserves (P := log_ok) (m := seed_loop uuids entries signer now 0) db Hlog) as K.
    by rewrite E in K. }
  rewrite E in Hp. apply (seed_loop_run Hd) in E as (_ & _ & _ & _ & _ & _ & Hall); [|done].
  pose proof (λ r h, fill_covers d d2 n r h Hlog' F) as Hcov.
  apply fill_again in F as [[hs ->] Hagain]. split_and!; [exact Hall|exact Hcov|]. intros uuids' now'.
  assert (seed_blocks uuids' entries signer now' (set_retired_source_holds hs d)
    = (set_retired_source_holds hs d, Ok 0)) as ->.
  { unfold seed_blocks, transaction. by rewrite seed_loop_known. }
  rewrite Hagain. do 3 f_equal. cbn in Hp |- *. by rewrite Hp.
Qed.

(** A verifier chain of the name [feed_blocklist] alone is empty: the name is
    skipped, and the default chain is for a value without names only. *)
Lemma blocklist_only_chain_empty `{Web} token :
  str_is_empty (str_trim token) = false →
  build_chain (from_env (Some "feed_blocklist"%string)) token = Some (VerifierChain.mk token []).
Proof.
  intros Ht. unfold build_chain, chain_new.
  change (from_env (Some "feed_blocklist"%string)) with ["feed_blocklist"%string].
  cbn. by rewrite Ht.
Qed.

(** ** Instances *)

(** The field, as the reader of the whole event gives it. *)
Definition plain_upserted `{Crates} : UpsertedJson := {|
  upserted_feed_url := λ s,
    match parse_event EventType.FeedUpserted s with
    | Some (EventPayload.FeedUpserted p) => Some (Feed.feed_url (FeedUpsertedPayload.feed p))
    | _ => None
    end
|}.

Definition old_payloads : list EventPayload :=
  [EventPayload.FeedUpserted (FeedUpsertedPayload.mk sample_feed None);
   EventPayload.FeedRetired (FeedRetiredPayload.mk "feed-1" (Some "source_gone"));
   EventPayload.FeedRetired (FeedRetiredPayload.mk "feed-2" (Some "mirror"))].

Definition old_crates : Crates := table_crates old_payloads.
Definition old_reader : UpsertedJson := @plain_upserted old_crates.

(** The log of a node that retired two feeds before holds were kept. *)
Definition old_row (n : Z) (guid : string) (p : EventPayload) : LogRow :=
  LogRow.mk ("e" ++ pretty n)%string (payload_type p) (@event_json old_crates p) guid "pubkey" ""
    n (10 * n) [].

Definition old_db : Db :=
  set_events
    (imap (λ n p, old_row (Z.of_nat (S n)) (if (n <? 2)%nat then "feed-1" else "feed-2") p)%string
       old_payloads) empty_db.

Definition old_hold : RetiredSourceHold :=
  RetiredSourceHold.mk "feed-1" "https://a.example/feed.xml" "source_gone" 20 None.

Definition sample_env : Env := λ name,
  if name =s "CRAWL_TOKEN" then Ok "secret"%string
  else if name =s "BLOCKED_FEED_GUIDS" then Ok "A, b ,,A"%string
  else Err "environment variable not found"%string.

Lemma old_log_ok : log_ok old_db.
Proof.
  split_and!.
  - repeat constructor.
  - intros r Hr. repeat (apply elem_of_cons in Hr as [->|Hr]; [cbn; lia|]). by apply elem_of_nil in Hr.
  - apply (bool_decide_unpack _). vm_compute. exact I.
Qed.

Lemma holds_filled_exactly_witness :
  let db := set_retired_source_holds {["feed-1"%string := old_hold]} old_db in
  @fill_retired_source_holds old_crates old_reader old_db = (db, Ok 1)
  ∧ @fill_retired_source_holds old_crates old_reader db = (db, Ok 0).
Proof.
  intros db.
  assert (@fill_retired_source_holds old_crates old_reader old_db = (db, Ok 1)) as E
    by (vm_compute; reflexivity).
  split; [exact E|].
  exact (proj2 (@holds_filled_exactly old_crates old_reader old_db db 1 old_log_ok E)).
Defined.

Lemma primary_restart_witness :
  let run uuids now := @run_primary old_crates old_reader plain_web sample_env "key" uuids now in
  let db := (run 0%nat 50 old_db).1 in
  is_ok (run 0%nat 50 old_db).2 = true
  ∧ length (feed_blocks db) = 2%nat ∧ retired_source_holds db !! "feed-1"%string = Some old_hold
  ∧ run 90%nat 60 db = (db, (run 0%nat 50 old_db).2).
Proof.
  intros run db. assert (is_ok (run 0%nat 50 old_db).2 = true) as Hok by (vm_compute; reflexivity).
  split_and!; [exact Hok|vm_compute; reflexivity..|].
  destruct (run 0%nat 50 old_db) as [d [state|e]] eqn:E; [|done].
  refine (proj2 (proj2 (@primary_restart old_crates old_reader plain_web sample_env "key" 0 50 old_db d state
    sample_uuids_distinct _ old_log_ok E)) 90%nat 60).
  intros i _. apply not_elem_of_nil.
Defined.
