(* ===== verification/TlsProps.v ===== *)
(** Properties of the certificate of a node. *)

From S2P Require Import Prelude.
From S2P Require Import Search.
From S2P Require Import Paging.
From S2P Require Import FetchGuard.
From S2P Require Import Tls.

(** Properties of the walk to the expiry of a certificate. *)

(** ** The readers stay in their input *)

Lemma byte_of_range a : 0 ≤ byte_of a < 256.
Proof. unfold byte_of. pose proof (N_ascii_bounded a). lia. Qed.

Lemma slice_ok data start stop :
  (start ≤ stop ≤ length data)%nat → slice data start stop = Ok (take (stop - start) (drop start data)).
Proof. intros [? ?]. unfold slice. by rewrite !(proj2 (Nat.leb_le _ _)). Qed.

Lemma slice_from_ok data start :
  (start ≤ length data)%nat → slice_from data start = Ok (drop start data).
Proof. intros ?. unfold slice_from. by rewrite (proj2 (Nat.leb_le _ _)). Qed.

Lemma need_no_panic {A} (o : option A) : need o ≠ Err Panicked.
Proof. by destruct o. Qed.

(** A length is never negative. *)
Lemma push_length_nonneg l : ∀ o,
  (∀ z, o = Some z → 0 ≤ z) → ∀ z, foldl push_length_byte o l = Some z → 0 ≤ z.
Proof.
  induction l as [|b l IH]; intros o Ho z; [apply Ho|]. cbn [foldl]. apply IH. intros y.
  destruct o as [x|]; [|done]. cbn. destruct (_ <? _); [|done]. intros [= <-].
  pose proof (byte_of_range b). pose proof (Z.mod_pos_bound (x * 2 ^ 8) (2 ^ 64)). lia.
Qed.

Lemma read_length_safe data :
  match asn1_read_length data with
  | Ok (len, size) => 0 ≤ len ∧ (1 ≤ size ≤ length data)%nat
  | Err e => e = NoValue
  end.
Proof.
  unfold asn1_read_length. destruct data as [|a data]; [done|]. cbn [length Nat.eqb].
  change (index_byte (a :: data) 0) with (@Ok Stop Z (byte_of a)). cbn [rbind].
  pose proof (byte_of_range a). destruct (byte_of a <? 0x80) eqn:E.
  - split; [lia|]. lia.
  - set (n := Z.to_nat _). destruct (_ || _) eqn:Ec; [done|].
    rewrite !orb_false_iff, Nat.eqb_neq, !Nat.ltb_ge in Ec. destruct Ec as [[? ?] Hl].
    rewrite slice_ok by (cbn [length] in *; lia). cbn [rbind].
    destruct (foldl _ _ _) as [z|] eqn:Ef; cbn [need rbind]; [|done].
    split; [|cbn [length] in *; lia].
    eapply push_length_nonneg; [|exact Ef]. intros ? [= <-]. lia.
Qed.

(** An element is a stretch of the input with its header before it. *)
Lemma read_tlv_safe data :
  match asn1_read_tlv data with
  | Ok (value, size) => ∃ header rest, data = header ++ value ++ rest
      ∧ size = (length header + length value)%nat ∧ (2 ≤ length header)%nat
  | Err e => e = NoValue
  end.
Proof.
  unfold asn1_read_tlv. destruct (length data =? 0)%nat eqn:El; [done|]. apply Nat.eqb_neq in El.
  rewrite slice_from_ok by lia. cbn [rbind].
  pose proof (read_length_safe (drop 1 data)) as Hl. rewrite length_drop in Hl.
  destruct (asn1_read_length (drop 1 data)) as [[len size]|e]; [|done]. cbn [rbind].
  destruct Hl as [Hlen Hsize].
  destruct (_ <? _) eqn:E; [done|]. apply Z.ltb_ge in E.
  rewrite slice_ok by lia. cbn [rbind].
  replace (1 + size + Z.to_nat len - (1 + size))%nat with (Z.to_nat len) by lia.
  exists (take (1 + size) data), (drop (Z.to_nat len) (drop (1 + size) data)).
  rewrite (take_drop (Z.to_nat len)), (take_drop (1 + size)). split; [done|].
  rewrite !length_take, length_drop. lia.
Qed.

Lemma enter_sequence_safe data :
  match asn1_enter_sequence data with
  | Ok inner => ∃ header rest, data = header ++ inner ++ rest
  | Err e => e = NoValue
  end.
Proof.
  unfold asn1_enter_sequence. destruct data as [|a data]; [done|]. cbn [length Nat.eqb].
  change (index_byte (a :: data) 0) with (@Ok Stop Z (byte_of a)). cbn [rbind].
  destruct (negb _); [done|]. pose proof (read_tlv_safe (a :: data)) as Ht.
  destruct (asn1_read_tlv (a :: data)) as [[inner size]|e]; [|done]. cbn [rbind].
  destruct Ht as (header & rest & E & _). by exists header, rest.
Qed.

Lemma skip_element_safe data pos :
  (pos ≤ length data)%nat →
  match skip_element data pos with
  | Ok pos' => (pos' ≤ length data)%nat
  | Err e => e = NoValue
  end.
Proof.
  intros Hp. unfold skip_element. rewrite slice_from_ok by done. cbn [rbind].
  pose proof (read_tlv_safe (drop pos data)) as Ht.
  destruct (asn1_read_tlv (drop pos data)) as [[value size]|e]; [|done]. cbn [rbind].
  destruct Ht as (header & rest & E & -> & _). apply (f_equal length) in E.
  rewrite length_drop, !length_app in E. lia.
Qed.

(** ** The times *)

Definition ascii_only (value : bytes) : Prop := ∀ b, b ∈ value → byte_of b < 128.

Lemma ascii_boundary s n :
  ascii_only (String.list_ascii_of_string s) → (n ≤ String.length s)%nat → is_char_boundary s n = true.
Proof.
  intros Hs Hn. destruct n as [|n]; [done|]. unfold is_char_boundary.
  destruct (String.get (S n) s) as [a|] eqn:E.
  - assert (a ∈ String.list_ascii_of_string s) as Ha.
    { clear Hs Hn. revert E. generalize (S n). induction s as [|b s IH]; intros m Hm; [done|].
      destruct m as [|m]; [injection Hm as ->; left|]. right. by eapply IH. }
    apply Hs in Ha. unfold is_continuation. rewrite (proj2 (Z.leb_gt _ _)); [done|lia].
  - apply bool_decide_eq_true. revert n Hn E. clear Hs. induction s as [|b s IH]; intros n Hn E.
    + cbn in Hn. lia.
    + destruct n as [|n]; cbn in *.
      * destruct s; [done|by cbn in E].
      * f_equal. apply IH; [lia|done].
Qed.

Section time.
Context `{Calendar}.

Lemma str_slice_safe s a n :
  ascii_only (String.list_ascii_of_string s) → (a + n ≤ String.length s)%nat →
  str_slice s a (a + n) = Ok (String.substring a n s).
Proof using Type.
  intros Hs Hn. unfold str_slice. rewrite !ascii_boundary by (done || lia).
  rewrite !(proj2 (Nat.leb_le _ _)) by lia. cbn. do 2 f_equal. lia.
Qed.

Lemma month_to_second_safe s year at_ :
  ascii_only (String.list_ascii_of_string s) → (at_ + 10 ≤ String.length s)%nat →
  month_to_second s year at_ ≠ Err Panicked.
Proof using Type.
  intros Hs Hl. unfold month_to_second, two_digits.
  repeat (rewrite str_slice_safe by (done || lia); cbn [rbind];
          match goal with |- context [need ?o] => destruct o; cbn [need rbind]; [|done] end).
  destruct (negb _); [done|].
  destruct (from_calendar_date _ _ _); cbn [need rbind]; [|done].
  by destruct (from_hms _ _ _).
Qed.

(** A time in ASCII is read with no panic. *)
Lemma parse_time_safe tag value : ascii_only value → parse_asn1_time tag value ≠ Err Panicked.
Proof using Type.
  intros Hv. unfold parse_asn1_time. set (s := String.string_of_list_ascii value).
  assert (ascii_only (String.list_ascii_of_string s)) as Hs
    by (unfold s; by rewrite String.list_ascii_of_string_of_list_ascii).
  destruct (negb _); [done|].
  destruct (tag =? 0x17); [|destruct (tag =? 0x18); [|done]];
    (destruct (_ <? _)%nat eqn:El; [done|]; apply Nat.ltb_ge in El).
  - change (str_slice s 0 2) with (str_slice s 0 (0 + 2)). rewrite str_slice_safe by (done || lia). cbn [rbind].
    destruct (parse_i32 _); cbn [need rbind]; [|done]. apply month_to_second_safe; [done|lia].
  - change (str_slice s 0 4) with (str_slice s 0 (0 + 4)). rewrite str_slice_safe by (done || lia). cbn [rbind].
    destruct (parse_i32 _); cbn [need rbind]; [|done]. apply month_to_second_safe; [done|lia].
Qed.

(** ** The walk *)

(** The walk itself reads nothing out of range: a panic is one of the time. *)
Lemma walk_safe der :
  expiry_from_der der = Err Panicked →
  ∃ tag before value after, der = before ++ value ++ after
    ∧ parse_asn1_time tag value = Err Panicked.
Proof using Type.
  unfold expiry_from_der. intros Hp.
  pose proof (enter_sequence_safe der) as H1.
  destruct (asn1_enter_sequence der) as [tbs|e]; [|by subst e]. cbn [rbind] in Hp.
  destruct H1 as (h1 & r1 & ->). pose proof (enter_sequence_safe tbs) as H2.
  destruct (asn1_enter_sequence tbs) as [inner|e]; [|by subst e]. cbn [rbind] in Hp.
  destruct H2 as (h2 & r2 & ->).
  assert (∃ v, (if (length inner =? 0)%nat then Ok false
      else let? tag := index_byte inner 0 in Ok (tag =? 0xa0)) = Ok v) as [v Ev].
  { destruct inner; [by eexists|]. by eexists. }
  rewrite Ev in Hp. cbn [rbind] in Hp.
  assert (match (if v : bool then skip_element inner 0 else Ok 0%nat) with
          | Ok pos => (pos ≤ length inner)%nat | Err e => e = NoValue end) as H3.
  { destruct v; [apply skip_element_safe|]; lia. }
  destruct (if v : bool then _ else _) as [pos|e]; [|by subst e]. cbn [rbind] in Hp.
  do 3 (pose proof (skip_element_safe inner pos H3) as H4; clear H3; rename H4 into H3;
        destruct (skip_element inner pos) as [pos'|e]; [|by subst e]; cbn [rbind] in Hp;
        clear pos; rename pos' into pos).
  rewrite slice_from_ok in Hp by done. cbn [rbind] in Hp.
  pose proof (enter_sequence_safe (drop pos inner)) as H5.
  destruct (asn1_enter_sequence (drop pos inner)) as [validity|e]; [|by subst e]. cbn [rbind] in Hp.
  destruct H5 as (h5 & r5 & E5). pose proof (read_tlv_safe validity) as H6.
  destruct (asn1_read_tlv validity) as [[nb consumed]|e]; [|by subst e]. cbn [rbind] in Hp.
  destruct H6 as (h6 & r6 & -> & -> & _).
  rewrite slice_from_ok in Hp by (rewrite !length_app; lia). cbn [rbind] in Hp.
  rewrite app_assoc, <-length_app, drop_app_length in Hp.
  destruct r6 as [|a r6]; [done|]. cbn [length Nat.eqb] in Hp.
  change (index_byte (a :: r6) 0) with (@Ok Stop Z (byte_of a)) in Hp. cbn [rbind] in Hp.
  pose proof (read_tlv_safe (a :: r6)) as H7.
  destruct (asn1_read_tlv (a :: r6)) as [[value size]|e]; [|by subst e]. cbn [rbind] in Hp.
  destruct H7 as (h7 & r7 & E7 & _). exists (byte_of a).
  exists (h1 ++ h2 ++ take pos inner ++ h5 ++ h6 ++ nb ++ h7), value, (r7 ++ r5 ++ r2 ++ r1).
  split; [|done]. rewrite <-(take_drop pos inner) at 1. rewrite E5, E7, <-!app_assoc. done.
Qed.
End time.

(** ** A certificate written in DER *)

Definition byte (z : Z) : ascii := ascii_of_N (Z.to_N z).

(** The length of an element: one byte, or the count of the bytes that it
    needs and those. *)
Fixpoint big_endian (n : nat) (z : Z) : bytes :=
  match n with
  | O => []
  | S n => big_endian n (z / 256) ++ [byte (z mod 256)]
  end.

Definition length_size (z : Z) : nat :=
  if z <? 2 ^ 8 then 1 else if z <? 2 ^ 16 then 2 else if z <? 2 ^ 24 then 3 else 4.

Definition der_length (z : Z) : bytes :=
  if z <? 0x80 then [byte z]
  else byte (0x80 + Z.of_nat (length_size z)) :: big_endian (length_size z) z.

Definition tlv (tag : Z) (value : bytes) : bytes :=
  byte tag :: der_length (Z.of_nat (length value)) ++ value.

Lemma byte_of_byte z : 0 ≤ z < 256 → byte_of (byte z) = z.
Proof.
  intros Hz. unfold byte_of, byte. rewrite N_ascii_embedding by lia. lia.
Qed.

Lemma push_byte l z :
  0 ≤ l < 2 ^ 56 → 0 ≤ z < 256 → push_length_byte (Some l) (byte z) = Some (l * 256 + z).
Proof.
  intros Hl Hz. unfold push_length_byte. cbn [mbind option_bind]. rewrite byte_of_byte by done.
  rewrite Z.mod_small by lia. rewrite (proj2 (Z.ltb_lt _ _)) by lia. done.
Qed.

Lemma big_endian_length n : ∀ z, length (big_endian n z) = n.
Proof. induction n as [|n IH]; intros z; [done|]. cbn. rewrite length_app, IH. cbn. lia. Qed.

Lemma big_endian_value n : ∀ z,
  (n ≤ 4)%nat → 0 ≤ z < 2 ^ (8 * Z.of_nat n) →
  foldl push_length_byte (Some 0) (big_endian n z) = Some z.
Proof.
  induction n as [|n IH]; intros z Hn Hz; [cbn in *; f_equal; lia|].
  assert (2 ^ (8 * Z.of_nat (S n)) = 256 * 2 ^ (8 * Z.of_nat n)) as Hp.
  { replace (8 * Z.of_nat (S n)) with (8 + 8 * Z.of_nat n) by lia. by rewrite Z.pow_add_r by lia. }
  rewrite Hp in Hz.
  assert (2 ^ (8 * Z.of_nat n) ≤ 2 ^ 24) as H24 by (apply Z.pow_le_mono_r; lia).
  assert (0 ≤ z / 256 < 2 ^ (8 * Z.of_nat n)) as Hq.
  { split; [apply Z.div_pos; lia|]. apply Z.div_lt_upper_bound; lia. }
  pose proof (Z.mod_pos_bound z 256). pose proof (Z.div_mod z 256).
  cbn [big_endian]. rewrite foldl_app, (IH (z / 256)) by (lia || done). cbn [foldl].
  rewrite push_byte by lia. f_equal. lia.
Qed.

Lemma read_length_der z rest :
  0 ≤ z < 2 ^ 32 →
  asn1_read_length (der_length z ++ rest) = Ok (z, length (der_length z)).
Proof.
  intros Hz. unfold asn1_read_length, der_length. destruct (z <? 0x80) eqn:E.
  - apply Z.ltb_lt in E. cbn [app length Nat.eqb].
    change (index_byte (byte z :: rest) 0) with (@Ok Stop Z (byte_of (byte z))). cbn [rbind].
    rewrite byte_of_byte by lia. by rewrite (proj2 (Z.ltb_lt _ _)).
  - apply Z.ltb_ge in E. set (n := length_size z).
    assert ((1 ≤ n ≤ 4)%nat ∧ z < 2 ^ (8 * Z.of_nat n)) as [Hn Hzn].
    { unfold n, length_size.
      destruct (Z.ltb_spec z (2 ^ 8)) as [H1|_]; [split; [lia|exact H1]|].
      destruct (Z.ltb_spec z (2 ^ 16)) as [H1|_]; [split; [lia|exact H1]|].
      destruct (Z.ltb_spec z (2 ^ 24)) as [H1|_]; [split; [lia|exact H1]|].
      split; [lia|apply Hz]. }
    clearbody n.
    assert (length (big_endian n z) = n) as Hlen by apply big_endian_length.
    cbn [app length Nat.eqb].
    change (index_byte (byte (0x80 + Z.of_nat n) :: ?l) 0)
      with (@Ok Stop Z (byte_of (byte (0x80 + Z.of_nat n)))). cbn [rbind].
    rewrite byte_of_byte by lia. rewrite (proj2 (Z.ltb_ge _ _)) by lia.
    assert (Z.to_nat (Z.land (0x80 + Z.of_nat n) 0x7f) = n) as ->.
    { destruct n as [|[|[|[|[|n']]]]]; done || lia. }
    rewrite (proj2 (Nat.eqb_neq _ _)), (proj2 (Nat.ltb_ge 4 n)) by lia.
    rewrite (proj2 (Nat.ltb_ge _ _)) by (rewrite length_app; lia). cbn [orb].
    rewrite slice_ok by (cbn [length]; rewrite length_app; lia). cbn [rbind].
    replace (1 + n - 1)%nat with n by lia.
    change (drop 1 (?a :: big_endian n z ++ rest)) with (big_endian n z ++ rest). rewrite take_app_length' by done.
    rewrite big_endian_value by lia. cbn [need rbind]. by rewrite Hlen.
Qed.

Lemma read_tlv_der tag value rest :
  Z.of_nat (length value) < 2 ^ 32 →
  asn1_read_tlv (tlv tag value ++ rest) = Ok (value, length (tlv tag value)).
Proof.
  intros Hv. unfold asn1_read_tlv, tlv. cbn [app length Nat.eqb].
  set (l := der_length _). rewrite slice_from_ok by (cbn [length]; lia). cbn [rbind].
  change (drop 1 (?a :: ?k)) with k. rewrite <-app_assoc. unfold l at 1. rewrite read_length_der by lia. cbn [rbind]. fold l.
  rewrite !length_app. rewrite (proj2 (Z.ltb_ge _ _)) by lia. rewrite Nat2Z.id.
  rewrite slice_ok by (cbn [length]; rewrite !length_app; lia). cbn [rbind].
  replace (1 + length l + length value - (1 + length l))%nat with (length value) by lia.
  change (drop (1 + length l) (byte tag :: l ++ value ++ rest))
    with (drop (length l) (l ++ value ++ rest)).
  rewrite drop_app_length, take_app_length. done.
Qed.

Lemma enter_sequence_der value rest :
  Z.of_nat (length value) < 2 ^ 32 →
  asn1_enter_sequence (tlv 0x30 value ++ rest) = Ok value.
Proof.
  intros Hv. unfold asn1_enter_sequence.
  change (length (tlv 0x30 value ++ rest) =? 0)%nat with false. cbn match.
  change (index_byte (tlv 0x30 value ++ rest) 0) with (@Ok Stop Z 0x30). cbn [rbind Z.eqb negb].
  cbn match. rewrite read_tlv_der by done. done.
Qed.

Lemma skip_element_der data tag value rest pos :
  drop pos data = tlv tag value ++ rest → (pos ≤ length data)%nat →
  Z.of_nat (length value) < 2 ^ 32 →
  skip_element data pos = Ok (pos + length (tlv tag value))%nat.
Proof.
  intros Hd Hp Hv. unfold skip_element. rewrite slice_from_ok by done. cbn [rbind].
  by rewrite Hd, read_tlv_der.
Qed.

(** The parts of a certificate that the walk passes, as bytes; the times with
    their tags. *)
Module DerCertificate.
Record DerCertificate : Type := mk {
  version : option bytes;
  serial : bytes;
  signature : bytes;
  issuer : bytes;
  not_before : Z * bytes;
  not_after : Z * bytes;
  tbs_rest : bytes;
  rest : bytes
}.
End DerCertificate.
Abbreviation DerCertificate := DerCertificate.DerCertificate.

Definition validity_der (c : DerCertificate) : bytes :=
  let '(tb, nb) := DerCertificate.not_before c in
  let '(ta, na) := DerCertificate.not_after c in
  tlv tb nb ++ tlv ta na.

Definition tbs_der (c : DerCertificate) : bytes :=
  match DerCertificate.version c with Some v => tlv 0xa0 v | None => [] end
  ++ tlv 0x02 (DerCertificate.serial c) ++ tlv 0x30 (DerCertificate.signature c)
  ++ tlv 0x30 (DerCertificate.issuer c) ++ tlv 0x30 (validity_der c) ++ DerCertificate.tbs_rest c.

Definition certificate_der (c : DerCertificate) : bytes :=
  tlv 0x30 (tlv 0x30 (tbs_der c) ++ DerCertificate.rest c).

Lemma tlv_longer tag value : (length value ≤ length (tlv tag value))%nat.
Proof. unfold tlv. cbn [length]. rewrite length_app. lia. Qed.

(** Skips over elements one behind the other. *)
Lemma skip_next front tag value rest :
  Z.of_nat (length value) < 2 ^ 32 →
  skip_element (front ++ tlv tag value ++ rest) (length front)
  = Ok (length (front ++ tlv tag value)).
Proof.
  intros Hv. rewrite (skip_element_der _ tag value rest), length_app; [done| | |done].
  - by rewrite drop_app_length.
  - rewrite !length_app. lia.
Qed.

Lemma validity_expiry `{Calendar} c :
  Z.of_nat (length (validity_der c)) < 2 ^ 32 → 0 ≤ (DerCertificate.not_after c).1 < 256 →
  (let? (_, consumed) := asn1_read_tlv (validity_der c) in
   let? remaining := slice_from (validity_der c) consumed in
   if (length remaining =? 0)%nat then Err NoValue
   else
     let? tag := index_byte remaining 0 in
     let? (value, _) := asn1_read_tlv remaining in
     parse_asn1_time tag value)
  = parse_asn1_time (DerCertificate.not_after c).1 (DerCertificate.not_after c).2.
Proof.
  unfold validity_der. destruct (DerCertificate.not_before c) as [tb nb].
  destruct (DerCertificate.not_after c) as [ta na]. cbn [fst snd]. intros Hl Ht.
  rewrite length_app in Hl. pose proof (tlv_longer tb nb). pose proof (tlv_longer ta na).
  rewrite read_tlv_der by lia. cbn [rbind].
  rewrite slice_from_ok by (rewrite length_app; lia). cbn [rbind]. rewrite drop_app_length.
  change (length (tlv ta na) =? 0)%nat with false. cbn match.
  change (index_byte (tlv ta na) 0) with (@Ok Stop Z (byte_of (byte ta))). cbn [rbind].
  rewrite byte_of_byte by done. rewrite <-(app_nil_r (tlv ta na)), read_tlv_der by lia. done.
Qed.

(** The walk finds [notAfter] in a certificate that is written in DER. *)
Lemma expiry_of_der `{Calendar} c :
  Z.of_nat (length (certificate_der c)) < 2 ^ 32 → 0 ≤ (DerCertificate.not_after c).1 < 256 →
  expiry_from_der (certificate_der c)
  = parse_asn1_time (DerCertificate.not_after c).1 (DerCertificate.not_after c).2.
Proof.
  intros Hl Ht. unfold certificate_der in *. set (tbs := tbs_der c) in *.
  pose proof (tlv_longer 0x30 (tlv 0x30 tbs ++ DerCertificate.rest c)) as H1.
  pose proof (tlv_longer 0x30 tbs) as H2. rewrite length_app in H1.
  unfold expiry_from_der. rewrite <-(app_nil_r (tlv 0x30 _)).
  rewrite enter_sequence_der by (rewrite length_app; lia). cbn [rbind].
  rewrite enter_sequence_der by lia. cbn [rbind].
  assert (∃ front, tbs = front ++ tlv 0x02 (DerCertificate.serial c)
      ++ tlv 0x30 (DerCertificate.signature c) ++ tlv 0x30 (DerCertificate.issuer c)
      ++ tlv 0x30 (validity_der c) ++ DerCertificate.tbs_rest c
    ∧ (let? v := (if (length tbs =? 0)%nat then Ok false
                  else let? tag := index_byte tbs 0 in Ok (tag =? 0xa0)) in
       (if v : bool then skip_element tbs 0 else Ok 0%nat)) = Ok (length front)) as (front & E & Hf).
  { unfold tbs, tbs_der in *. destruct (DerCertificate.version c) as [v|].
    - exists (tlv 0xa0 v). split; [done|].
      set (r := tlv 0x02 _ ++ _). change (length (tlv 0xa0 v ++ r) =? 0)%nat with false.
      change (index_byte (tlv 0xa0 v ++ r) 0) with (@Ok Stop Z 0xa0). cbn [rbind Z.eqb].
      change (skip_element (tlv 0xa0 v ++ r) 0 = Ok (length (tlv 0xa0 v))).
      pose proof (tlv_longer 0xa0 v). rewrite !length_app in H2.
      apply (skip_next [] 0xa0 v r). lia.
    - by exists []. }
  destruct (if (length tbs =? 0)%nat then _ else _) as [v|e]; cbn [rbind] in Hf |- *; [|done].
  rewrite Hf. cbn [rbind]. assert (Z.of_nat (length tbs) < 2 ^ 32) as Hb by lia.
  rewrite E in Hb |- *. clear Hf H1 H2 Hl. rewrite !length_app in Hb.
  pose proof (tlv_longer 0x02 (DerCertificate.serial c)).
  pose proof (tlv_longer 0x30 (DerCertificate.signature c)).
  pose proof (tlv_longer 0x30 (DerCertificate.issuer c)).
  pose proof (tlv_longer 0x30 (validity_der c)).
  rewrite skip_next by lia. cbn [rbind]. rewrite (app_assoc front), skip_next by lia. cbn [rbind].
  rewrite (app_assoc (front ++ _)), skip_next by lia. cbn [rbind].
  rewrite (app_assoc ((front ++ _) ++ _)), slice_from_ok by (rewrite !length_app; lia). cbn [rbind].
  rewrite drop_app_length, enter_sequence_der by lia. cbn [rbind].
  apply validity_expiry; [lia|done].
Qed.

(** ** Times written in DER *)

Definition digit (z : Z) : ascii := byte (48 + z).

Definition digits2 (z : Z) : string := String (digit (z / 10)) (String (digit (z mod 10)) "").

Definition time_text (parts : list Z) : string :=
  foldr (λ z s, digits2 z +:+ s) "Z" parts.

(** The form that RFC 5280 asks for: two digits of the year from 1950 to 2049,
    else four. *)
Definition asn1_time (year month day hour min sec : Z) : Z * bytes :=
  let parts := [year mod 100; month; day; hour; min; sec] in
  if (1950 <=? year) && (year <? 2050)
  then (0x17, String.list_ascii_of_string (time_text parts))
  else (0x18, String.list_ascii_of_string (time_text (year / 100 :: parts))).

Definition two_digit (z : Z) : Prop := 0 ≤ z < 100.

Lemma in_upto z n : 0 ≤ z < Z.of_nat n → z ∈ Z.of_nat <$> seq 0 n.
Proof.
  intros Hz. apply list_elem_of_fmap. exists (Z.to_nat z). split; [lia|]. apply elem_of_seq. lia.
Qed.

Lemma upto (f : Z → bool) n z :
  forallb f (Z.of_nat <$> seq 0 n) = true → 0 ≤ z < Z.of_nat n → f z = true.
Proof. rewrite forallb_forall. intros Hf Hz. apply Hf, list_elem_of_In, in_upto, Hz. Qed.

Definition digits2_ok (z : Z) : bool :=
  bool_decide (parse_u8 (digits2 z) = Some z) && bool_decide (parse_i32 (digits2 z) = Some z)
  && (byte_of (digit (z / 10)) <? 128) && (byte_of (digit (z mod 10)) <? 128).

Lemma digits2_read z : two_digit z →
  parse_u8 (digits2 z) = Some z ∧ parse_i32 (digits2 z) = Some z
  ∧ byte_of (digit (z / 10)) < 128 ∧ byte_of (digit (z mod 10)) < 128.
Proof.
  intros Hz. assert (digits2_ok z = true) as Hok by (apply (upto _ 100); [by vm_compute|exact Hz]).
  unfold digits2_ok in Hok. rewrite !andb_true_iff, !bool_decide_eq_true, !Z.ltb_lt in Hok. tauto.
Qed.

Definition digits4_ok (z : Z) : bool :=
  bool_decide (parse_i32 (digits2 (z / 100) +:+ digits2 (z mod 100)) = Some z).

Lemma digits4_read z : 0 ≤ z < 10000 →
  parse_i32 (digits2 (z / 100) +:+ digits2 (z mod 100)) = Some z.
Proof.
  intros Hz. assert (digits4_ok z = true) as Hok by (apply (upto _ (Z.to_nat 10000)); [by vm_compute|lia]).
  unfold digits4_ok in Hok. by rewrite bool_decide_eq_true in Hok.
Qed.

Lemma time_text_ascii parts :
  Forall two_digit parts → ascii_only (String.list_ascii_of_string (time_text parts)).
Proof.
  induction 1 as [|z parts Hz _ IH]; intros b; cbn.
  - intros [->|Hb]%elem_of_cons; [by vm_compute|by apply not_elem_of_nil in Hb].
  - destruct (digits2_read z Hz) as (_ & _ & H1 & H2).
    intros [->|[->|Hb]%elem_of_cons]%elem_of_cons; [done..|]. by apply IH.
Qed.

Lemma ascii_utf8 s : ascii_only (String.list_ascii_of_string s) → utf8_valid s = true.
Proof.
  induction s as [|a s IH]; intros Hs; [done|]. cbn [utf8_valid].
  assert (byte_of a < 128) as Ha by (apply Hs; left). pose proof (byte_of_range a).
  unfold in_range at 1. rewrite !(proj2 (Z.leb_le _ _)) by lia. cbn. apply IH.
  intros b Hb. apply Hs. by right.
Qed.

Section read_time.
Context `{Calendar}.

(** What both forms read after the year. *)
Definition time_value (year month day hour min sec : Z) : result Stop Z :=
  let? date := need (from_calendar_date year month day) in
  let? t := need (from_hms hour min sec) in
  Ok (date + t).

Lemma two_digits_read s n z :
  ascii_only (String.list_ascii_of_string s) → (n + 2 ≤ String.length s)%nat →
  String.substring n 2 s = digits2 z → two_digit z → two_digits s n = Ok z.
Proof using Type.
  intros Hs Hn E Hz. unfold two_digits. rewrite str_slice_safe by done. cbn [rbind].
  rewrite E. by rewrite (proj1 (digits2_read z Hz)).
Qed.

Lemma parse_time_der year month day hour min sec :
  0 ≤ year < 10000 → 1 ≤ month ≤ 12 → two_digit day → two_digit hour → two_digit min → two_digit sec →
  parse_asn1_time (asn1_time year month day hour min sec).1 (asn1_time year month day hour min sec).2
  = time_value year month day hour min sec.
Proof using Type.
  intros Hy Hm Hd Hh Hi Hs. assert (two_digit month) as Hm2 by (unfold two_digit; lia).
  assert (two_digit (year mod 100)) as Hy2 by (unfold two_digit; pose proof (Z.mod_pos_bound year 100); lia).
  assert (two_digit (year / 100)) as Hc
    by (unfold two_digit; split; [apply Z.div_pos|apply Z.div_lt_upper_bound]; lia).
  unfold asn1_time, parse_asn1_time, month_to_second, time_value.
  assert (negb ((1 <=? month) && (month <=? 12)) = false) as Em
    by (rewrite !(proj2 (Z.leb_le _ _)) by lia; done).
  destruct ((1950 <=? year) && _) eqn:E; cbn [fst snd]; rewrite String.string_of_list_ascii_of_string;
    (set (s := time_text _); assert (ascii_only (String.list_ascii_of_string s)) as Ha
       by (apply time_text_ascii; repeat (apply Forall_cons_2; [done|]); apply Forall_nil_2));
    rewrite ascii_utf8 by done; cbn [negb Z.eqb Pos.eqb].
  - rewrite andb_true_iff, Z.leb_le, Z.ltb_lt in E.
    assert (String.length s = 13)%nat as Hlen by reflexivity. rewrite Hlen. cbn [Nat.ltb Nat.leb].
    change (str_slice s 0 2) with (str_slice s 0 (0 + 2)). rewrite (str_slice_safe s 0 2 Ha) by lia. cbn [rbind].
    change (String.substring 0 2 s) with (digits2 (year mod 100)).
    rewrite (proj1 (proj2 (digits2_read _ Hy2))). cbn [need rbind].
    assert ((if 50 <=? year mod 100 then 1900 + year mod 100 else 2000 + year mod 100) = year) as ->.
    { unfold two_digit in Hy2. pose proof (Z.div_mod year 100). destruct (Z.leb_spec 50 (year mod 100)); lia. }
    rewrite (two_digits_read s 2 month), (two_digits_read s (2 + 2) day), (two_digits_read s (2 + 4) hour),
      (two_digits_read s (2 + 6) min), (two_digits_read s (2 + 8) sec) by (done || lia).
    cbn [rbind]. by rewrite Em.
  - assert (String.length s = 15)%nat as Hlen by reflexivity. rewrite Hlen. cbn [Nat.ltb Nat.leb].
    change (str_slice s 0 4) with (str_slice s 0 (0 + 4)). rewrite (str_slice_safe s 0 4 Ha) by lia. cbn [rbind].
    change (String.substring 0 4 s) with (digits2 (year / 100) +:+ digits2 (year mod 100)).
    rewrite digits4_read by done. cbn [need rbind].
    rewrite (two_digits_read s 4 month), (two_digits_read s (4 + 2) day), (two_digits_read s (4 + 4) hour),
      (two_digits_read s (4 + 6) min), (two_digits_read s (4 + 8) sec) by (done || lia).
    cbn [rbind]. by rewrite Em.
Qed.
End read_time.

(** ** Properties *)

(** C14: The expiry that the server reads from a certificate is the one that
    the certificate states. For every certificate of less than 2^32 bytes that
    is written in DER (with or without a version, whatever its serial, its
    algorithm, its issuer, its [notBefore] and all that follows the validity),
    whose [notAfter] is a time of the years 0 to 9999 in the form that RFC 5280
    asks for, the walk gives that date and time: the calendar's midnight of the
    date plus the seconds of the time of day, or no value when the calendar
    has no such date or time. *)
Theorem certificate_expiry_roundtrip `{Calendar} (c : DerCertificate) (year month day hour min sec : Z)
    (Hsize : Z.of_nat (length (certificate_der c)) < 2 ^ 32)
    (Hafter : DerCertificate.not_after c = asn1_time year month day hour min sec)
    (Hyear : 0 ≤ year < 10000) (Hmonth : 1 ≤ month ≤ 12)
    (Hparts : Forall two_digit [day; hour; min; sec]) :
  expiry_from_der (certificate_der c) =
    let? date := need (from_calendar_date year month day) in
    let? t := need (from_hms hour min sec) in
    Ok (date + t).
Proof.
  rewrite !Forall_cons in Hparts. destruct Hparts as (? & ? & ? & ? & _).
  rewrite expiry_of_der, Hafter; [by apply parse_time_der|done|].
  rewrite Hafter. unfold asn1_time. by destruct (_ && _).
Qed.

(** The Gregorian calendar. *)
Definition days_in_month (year month : Z) : Z :=
  if month =? 2
  then if ((year mod 4 =? 0) && negb (year mod 100 =? 0)) || (year mod 400 =? 0) then 29 else 28
  else if (month =? 4) || (month =? 6) || (month =? 9) || (month =? 11) then 30 else 31.

Definition days_before_year (year : Z) : Z :=
  let y := year - 1 in 365 * year + y / 4 - y / 100 + y / 400 - 719527.

Definition gregorian : Calendar := {|
  from_calendar_date year month day :=
    if (1 <=? day) && (day <=? days_in_month year month)
    then Some (86400 * (days_before_year year
      + foldr Z.add 0 (days_in_month year <$> (Z.of_nat <$> seq 1 (Z.to_nat (month - 1)))) + day - 1))
    else None;
  from_hms hour min sec :=
    if (0 <=? hour) && (hour <=? 23) && (0 <=? min) && (min <=? 59) && (0 <=? sec) && (sec <=? 59)
    then Some (3600 * hour + 60 * min + sec) else None
|}.

Definition sample_certificate (not_after : Z * bytes) : DerCertificate :=
  DerCertificate.mk (Some (tlv 0x02 [byte 2])) (replicate 9 (byte 7)) (tlv 0x06 [byte 42])
    (replicate 140 (byte 48)) (asn1_time 2026 1 31 0 0 0) not_after (replicate 300 (byte 0))
    (replicate 70 (byte 1)).

Lemma certificate_expiry_roundtrip_witness :
  @expiry_from_der gregorian (certificate_der (sample_certificate (asn1_time 2030 1 1 0 0 59)))
  = Ok 1893456059
  ∧ @expiry_from_der gregorian (certificate_der (sample_certificate (asn1_time 2050 2 30 0 0 0)))
    = Err NoValue.
Proof.
  split.
  - rewrite (@certificate_expiry_roundtrip gregorian _ 2030 1 1 0 0 59); [vm_compute; reflexivity|
      vm_compute; reflexivity|reflexivity|lia|lia|].
    repeat (apply Forall_cons_2; [unfold two_digit; lia|]). apply Forall_nil_2.
  - rewrite (@certificate_expiry_roundtrip gregorian _ 2050 2 30 0 0 0); [vm_compute; reflexivity|
      vm_compute; reflexivity|reflexivity|lia|lia|].
    repeat (apply Forall_cons_2; [unfold two_digit; lia|]). apply Forall_nil_2.
Defined.

(** C31: The walk over a certificate reads nothing out of its bounds: whatever
    the bytes of the file are, an index or a slice out of range, which would
    end the task, comes from no element, length or field; when there is one,
    it comes from a time that is a stretch of the input and holds a byte that
    is not ASCII, as the code cuts its text at byte offsets. *)
Theorem expiry_reads_in_bounds `{Calendar} (der : bytes) (Hpanic : expiry_from_der der = Err Panicked) :
  ∃ tag before value after, der = before ++ value ++ after
    ∧ parse_asn1_time tag value = Err Panicked
    ∧ ∃ b, b ∈ value ∧ 128 ≤ byte_of b.
Proof.
  destruct (walk_safe der Hpanic) as (tag & before & value & after & E & Hp).
  exists tag, before, value, after. split; [done|]. split; [done|].
  destruct (decide (Exists (λ b, 128 ≤ byte_of b) value)) as [Hex|Hno].
  - apply Exists_exists in Hex as (b & Hb & Hr). by exists b.
  - exfalso. apply (parse_time_safe tag value); [|done]. intros b Hb.
    apply Forall_Exists_neg in Hno. rewrite Forall_forall in Hno. specialize (Hno b Hb). cbn in Hno. lia.
Qed.

(** A [UTCTime] whose second character takes two bytes. *)
Definition foreign_time : Z * bytes :=
  (0x17, [byte 50; byte 195; byte 169] ++ String.list_ascii_of_string "0101000000Z").

Lemma foreign_time_panics `{Calendar} :
  expiry_from_der (certificate_der (sample_certificate foreign_time)) = Err Panicked.
Proof. by vm_compute. Qed.

Lemma expiry_reads_in_bounds_witness :
  @expiry_from_der gregorian (certificate_der (sample_certificate foreign_time)) = Err Panicked
  ∧ ∃ tag before value after,
      certificate_der (sample_certificate foreign_time) = before ++ value ++ after
      ∧ @parse_asn1_time gregorian tag value = Err Panicked
      ∧ ∃ b, b ∈ value ∧ 128 ≤ byte_of b.
Proof.
  split; [vm_compute; reflexivity|].
  apply (@expiry_reads_in_bounds gregorian). apply foreign_time_panics.
Defined.

(** Properties of the certificate of a node: what a provisioning leaves on
    disk, when it is done, and that a renewal settles. *)

(** ** Files *)

(** The file at [path] is as it was. *)
Definition kept (path : string) (files files' : Files) : Prop := files' !! path = files !! path.

(** A write of [data] broke off with [e]: the file holds the first part only. *)
Definition cut_short `{Disk} (path : string) (data : bytes) (e : string) (files' : Files) : Prop :=
  ∃ n, write_outcome path data = WriteOutcome.Cut n e ∧ read_file files' path = Some (take n data).

Lemma write_other `{Disk} mode path path' data files :
  path ≠ path' → kept path' files (write_with_mode mode path data files).1.
Proof.
  intros Hp. unfold kept, write_with_mode. destruct (write_outcome _ _); [|done|];
    by apply lookup_insert_ne.
Qed.

Lemma read_put (files : Files) path mode data :
  read_file (<[path := (mode, data)]> files) path = Some data.
Proof. unfold read_file, Files in *. by rewrite lookup_insert_eq. Qed.

Lemma read_put_other (files : Files) path path' entry :
  path' ≠ path → read_file (<[path := entry]> files) path' = read_file files path'.
Proof. intros Hp. unfold read_file, Files in *. by rewrite lookup_insert_ne. Qed.

(** The three ends of a write. *)
Lemma write_ends `{Disk} mode path data files files' r :
  write_with_mode mode path data files = (files', r) →
  (r = Ok tt ∧ read_file files' path = Some data
     ∧ (files !! path = None → files' !! path = Some (mode, data)))
  ∨ ∃ e, r = Err e
     ∧ ((write_outcome path data = WriteOutcome.NotOpened e ∧ files' = files)
        ∨ cut_short path data e files').
Proof.
  unfold write_with_mode, cut_short. destruct (write_outcome path data) as [|e|n e]; intros [= <- <-].
  - left. rewrite read_put. split_and!; [done..|]. intros ->. unfold Files in *.
    by rewrite lookup_insert_eq.
  - right. exists e. split; [done|]. by left.
  - right. exists e. split; [done|]. right. exists n. by rewrite read_put.
Qed.

Lemma read_kept path files files' : kept path files files' → read_file files' path = read_file files path.
Proof. unfold kept, read_file. by intros ->. Qed.

(** The three files of a configuration are different ones. *)
Record distinct_paths (config : TlsConfig) : Prop := {
  cert_not_key : TlsConfig.cert_path config ≠ TlsConfig.key_path config;
  account_not_cert : TlsConfig.acme_account_path config ≠ TlsConfig.cert_path config;
  account_not_key : TlsConfig.acme_account_path config ≠ TlsConfig.key_path config
}.

(** ** Provisioning *)

Section provisioning.
Context `{Net} `{Acme} `{Disk}.

Lemma account_keeps config files path :
  TlsConfig.acme_account_path config ≠ path → kept path files (account_of config files).1.
Proof using Type.
  intros Hp. unfold account_of. destruct (read_file _ _); [done|].
  destruct (create_account _ _) as [[account credentials]|e]; cbn [rbind]; [|done].
  destruct (create_parent _); cbn [rbind]; [|done].
  pose proof (write_other 384 _ path credentials files Hp) as Hk. unfold write_private_file.
  by destruct (write_with_mode _ _ _ _).
Qed.

(** The challenge that is answered is the one of a pending authorization, and
    those before it are valid. *)
Lemma process_authorizations_some authzs challenge :
  process_authorizations authzs = Ok (Some challenge) →
  ∃ before authz after, authzs = before ++ Ok authz :: after
    ∧ Forall (λ a, ∃ v, a = Ok v ∧ Authorization.valid v = true) before
    ∧ Authorization.valid authz = false ∧ Authorization.http01 authz = Some challenge
    ∧ Authorization.set_ready authz = Ok tt.
Proof using Type.
  induction authzs as [|[authz|e] authzs IH]; [done| |done]. cbn [process_authorizations].
  destruct (Authorization.valid authz) eqn:Ev.
  - intros (before & a & after & -> & Hb & Ha)%IH. exists (Ok authz :: before), a, after.
    split; [done|]. split; [|done]. constructor; [by exists authz|done].
  - destruct (Authorization.http01 authz) as [c|] eqn:Ec; [|done].
    destruct (Authorization.set_ready authz) as [[]|e] eqn:Es; [|done].
    intros [= <-]. by exists [], authz, authzs.
Qed.

Lemma process_authorizations_valid authzs :
  Forall (λ a, ∃ v, a = Ok v ∧ Authorization.valid v = true) authzs →
  process_authorizations authzs = Ok None.
Proof using Type. induction 1 as [|a authzs (v & -> & Ev) _ IH]; [done|]. cbn. by rewrite Ev. Qed.

(** An order all of whose authorizations are valid already, which is ready to
    be finalized, fails. *)
Lemma valid_order_fails config account order :
  new_order account (identifier_of config) = Ok order →
  Forall (λ a, ∃ v, a = Ok v ∧ Authorization.valid v = true) (authorizations order) →
  order_certificate config account
  = Err "no pending authorizations found — nothing to challenge"%string.
Proof using Type.
  intros Ho Ha. unfold order_certificate. rewrite Ho. cbn [acme_error rbind].
  by rewrite process_authorizations_valid.
Qed.

(** The chain [chain] and the key [key] are those of one order of the account:
    for the domain of the node, with a pending authorization whose challenge was
    answered, and finalized. *)
Definition issued (config : TlsConfig) (account : Account) (chain key : bytes) : Prop :=
  ∃ order before authz after challenge,
    new_order account (identifier_of config) = Ok order
    ∧ authorizations order = before ++ Ok authz :: after
    ∧ Authorization.valid authz = false ∧ Authorization.http01 authz = Some challenge
    ∧ Authorization.set_ready authz = Ok tt ∧ poll_ready order = Ok tt
    ∧ finalize order = Ok key ∧ poll_certificate order = Ok chain.

Lemma order_issued config account chain key :
  order_certificate config account = Ok (chain, key) → issued config account chain key.
Proof using Type.
  unfold order_certificate. destruct (new_order account _) as [order|e] eqn:Eo; cbn [acme_error rbind]; [|done].
  destruct (process_authorizations _) as [[challenge|]|e] eqn:Ep; cbn [rbind]; [|done..].
  apply process_authorizations_some in Ep as (before & authz & after & Ea & _ & Hv & Hh & Hs).
  destruct (poll_ready order) as [[]|e] eqn:Er; cbn [acme_error rbind]; [|done].
  destruct (finalize order) as [key'|e] eqn:Ef; cbn [acme_error rbind]; [|done].
  destruct (poll_certificate order) as [chain'|e] eqn:Ech; cbn [acme_error rbind]; [|done].
  intros [= -> ->]. by exists order, before, authz, after, challenge.
Qed.

(** The account and the pair of an order, before the first write of the pair. *)
Definition obtained (config : TlsConfig) (files : Files) (account : Account) (chain key : bytes) : Prop :=
  (account_of config files).2 = Ok account ∧ order_certificate config account = Ok (chain, key).

(** The disk takes both files of a pair. *)
Definition takes_pair (config : TlsConfig) (chain key : bytes) : Prop :=
  create_parent (TlsConfig.cert_path config) = Ok tt
  ∧ create_parent (TlsConfig.key_path config) = Ok tt
  ∧ write_outcome (TlsConfig.cert_path config) chain = WriteOutcome.Whole
  ∧ write_outcome (TlsConfig.key_path config) key = WriteOutcome.Whole.

(** A provisioning ends before it writes the pair, or writes the chain and then
    the key. *)
Lemma provision_ends config files files' r :
  distinct_paths config → provision_certificate config files = (files', r) →
  let cert := TlsConfig.cert_path config in let key := TlsConfig.key_path config in
  ((∃ e, r = Err e) ∧ kept cert files files' ∧ kept key files files')
  ∨ ∃ files1 account chain private_key, obtained config files account chain private_key
    ∧ kept cert files files1 ∧ kept key files files1
    ∧ ((∃ e, r = Err e ∧ write_file cert chain files1 = (files', Err e))
       ∨ ∃ files2, write_file cert chain files1 = (files2, Ok tt)
         ∧ write_private_file key private_key files2 = (files', r)).
Proof using Type.
  intros [Hck Hac Hak] Hp cert key. unfold provision_certificate in Hp. unfold obtained.
  pose proof (account_keeps config files _ Hac) as Hc. pose proof (account_keeps config files _ Hak) as Hk.
  destruct (account_of config files) as [files1 [account|e]]; cbn [fst snd] in *;
    [|injection Hp as <- <-; left; eauto].
  destruct (order_certificate config account) as [[chain pk]|e] eqn:Eo; cbn [rbind] in Hp;
    [|injection Hp as <- <-; left; eauto].
  destruct (create_parent _); cbn [rbind] in Hp; [|injection Hp as <- <-; left; eauto].
  destruct (create_parent _); cbn [rbind] in Hp; [|injection Hp as <- <-; left; eauto].
  right. exists files1, account, chain, pk. split; [done|]. split; [done|]. split; [done|].
  destruct (write_file _ chain files1) as [files2 [[]|e]] eqn:Ew; [right; by exists files2|].
  injection Hp as <- <-. left. by exists e.
Qed.
End provisioning.

(** ** When a certificate is due *)

Definition DAY : Z := 86400 * 10 ^ 9.

Lemma whole_days_less nanos n : 0 < n → (whole_days nanos <? n) = (nanos <? n * DAY).
Proof.
  intros Hn. unfold whole_days, DAY.
  destruct (Z.ltb_spec nanos (n * (86400 * 10 ^ 9))) as [Hlt|Hge].
  - apply Z.ltb_lt. destruct (Z.le_gt_cases 0 nanos) as [H0|H0].
    + rewrite Z.quot_div_nonneg by lia. apply Z.div_lt_upper_bound; lia.
    + pose proof (Z.quot_opp_l nanos (86400 * 10 ^ 9)).
      assert (0 ≤ Z.quot (- nanos) (86400 * 10 ^ 9)) by (apply Z.quot_pos; lia). lia.
  - apply Z.ltb_ge. rewrite Z.quot_div_nonneg by lia. apply Z.div_le_lower_bound; lia.
Qed.

(** A file whose leaf is written in DER and expires at [expiry]. *)
Definition leaf_expires `{Calendar} `{Pem} (pem : bytes) (expiry : Z) : Prop :=
  ∃ c more, parse_pem_certs pem = certificate_der c :: more
    ∧ Z.of_nat (length (certificate_der c)) < 2 ^ 32 ∧ 0 ≤ (DerCertificate.not_after c).1 < 256
    ∧ parse_asn1_time (DerCertificate.not_after c).1 (DerCertificate.not_after c).2 = Ok expiry.

Lemma needs_renewal_of `{Calendar} `{Pem} now files path pem expiry :
  read_file files path = Some pem → leaf_expires pem expiry →
  cert_needs_renewal now files path = Ok (expiry * 10 ^ 9 - now <? 30 * DAY).
Proof.
  intros Hf (c & more & Hp & Hl & Ht & He). unfold cert_needs_renewal.
  rewrite Hf, Hp, expiry_of_der, He by done. by rewrite whole_days_less.
Qed.

(** A certificate that is issued for less than 30 days is due at every check,
    from its first second on. *)
Lemma short_lived_always_due `{Calendar} `{Pem} files path pem issued expiry now :
  read_file files path = Some pem → leaf_expires pem expiry →
  (expiry - issued) * 10 ^ 9 < 30 * DAY → issued * 10 ^ 9 ≤ now →
  cert_needs_renewal now files path = Ok true.
Proof.
  intros Hf He Hs Hn. rewrite (needs_renewal_of _ _ _ _ _ Hf He). by rewrite (proj2 (Z.ltb_lt _ _)) by lia.
Qed.

(** ** Rounds *)

Section rounds.
Context `{Calendar} `{Pem} `{Net}.

(** No round gives the server another certificate than it was started with. *)
Lemma rounds_keep_served config rounds : ∀ node,
  TlsNode.served (foldl (renewal_round config) node rounds) = TlsNode.served node.
Proof using Type.
  induction rounds as [|[[acme disk] now] rounds IH]; intros node; [done|]. cbn [foldl]. rewrite IH.
  unfold renewal_round. destruct (negb _); [done|].
  by destruct (cert_needs_renewal _ _ _) as [[]|].
Qed.

Lemma rounds_quiet config rounds node :
  Forall (λ at_ : Acme * Disk * Z,
    cert_needs_renewal at_.2 (TlsNode.files node) (TlsConfig.cert_path config) = Ok false) rounds →
  foldl (renewal_round config) node rounds = node.
Proof using Type.
  induction 1 as [|[[acme disk] now] rounds Hr _ IH]; [done|]. cbn [foldl].
  assert (renewal_round config node (acme, disk, now) = node) as ->; [|done].
  unfold renewal_round. cbn [snd] in Hr. rewrite Hr. by destruct (negb _).
Qed.

(** Once a chain is on disk, each round up to 30 days before its expiry leaves
    the node as it is, whatever is in the file of the key. *)
Lemma due_then_quiet acme disk config node now rounds files chain expiry :
  TlsNode.renewing node = true →
  cert_needs_renewal now (TlsNode.files node) (TlsConfig.cert_path config) = Ok true →
  (@provision_certificate _ acme disk config (TlsNode.files node)).1 = files →
  read_file files (TlsConfig.cert_path config) = Some chain → leaf_expires chain expiry →
  Forall (λ at_ : Acme * Disk * Z, at_.2 ≤ expiry * 10 ^ 9 - 30 * DAY) rounds →
  foldl (renewal_round config) node ((acme, disk, now) :: rounds)
  = TlsNode.mk files (TlsNode.served node) true.
Proof using Type.
  intros Hlives Hdue Hf Hc Hleaf Hrounds. cbn [foldl].
  assert (renewal_round config node (acme, disk, now) = TlsNode.mk files (TlsNode.served node) true) as ->.
  { unfold renewal_round. rewrite Hlives, Hdue. cbn [negb]. by rewrite Hf. }
  apply rounds_quiet. cbn [TlsNode.files].
  apply (Forall_impl _ _ _ Hrounds). intros at_ Ht.
  rewrite (needs_renewal_of _ _ _ _ _ Hc Hleaf). by rewrite (proj2 (Z.ltb_ge _ _)) by lia.
Qed.

(** A key that could not be written after its certificate was is not written
    later: no round up to 30 days before the expiry finds anything to do, and
    the node that restarts meanwhile reads the new chain with the old key. *)
Lemma half_pair_stays (acme : Acme) (disk : Disk) config node now account chain key e expiry rounds :
  distinct_paths config → TlsNode.renewing node = true →
  cert_needs_renewal now (TlsNode.files node) (TlsConfig.cert_path config) = Ok true →
  (account_of config (TlsNode.files node)).2 = Ok account →
  order_certificate config account = Ok (chain, key) →
  create_parent (TlsConfig.cert_path config) = Ok tt →
  create_parent (TlsConfig.key_path config) = Ok tt →
  write_outcome (TlsConfig.cert_path config) chain = WriteOutcome.Whole →
  write_outcome (TlsConfig.key_path config) key = WriteOutcome.NotOpened e →
  leaf_expires chain expiry →
  Forall (λ at_ : Acme * Disk * Z, at_.2 ≤ expiry * 10 ^ 9 - 30 * DAY) rounds →
  let node' := foldl (renewal_round config) node ((acme, disk, now) :: rounds) in
  read_file (TlsNode.files node') (TlsConfig.cert_path config) = Some chain
  ∧ kept (TlsConfig.key_path config) (TlsNode.files node) (TlsNode.files node').
Proof using Type.
  intros [Hck Hac Hak] Hlives Hdue Ha Ho Hp1 Hp2 Hw1 Hw2 Hleaf Hrounds node'.
  pose proof (account_keeps config (TlsNode.files node) _ Hak) as Hk.
  destruct (account_of config (TlsNode.files node)) as [files1 r] eqn:Ea. cbn [fst snd] in Ha, Hk. subst r.
  unfold node'. erewrite due_then_quiet; [|done|done| | |done|done].
  2:{ unfold provision_certificate. rewrite Ea, Ho. cbn [rbind]. rewrite Hp1, Hp2. cbn [rbind].
      unfold write_file, write_private_file, write_with_mode. by rewrite Hw1, Hw2. }
  2: apply read_put.
  cbn [TlsNode.files]. split; [apply read_put|]. unfold kept in *. rewrite <-Hk.
  by apply lookup_insert_ne.
Qed.
End rounds.

(** ** What a provisioning leaves *)

(** C30: What a provisioning leaves on disk, whatever the ACME server answers,
    whatever fails of the disk, and whatever is there. Without an account, or
    without the pair of an order, it fails, and the files of the certificate and
    of the key are as they were. When it succeeds, they hold the chain and the
    key of one order, which was for the node's own domain, had a pending
    authorization whose challenge was answered, and was finalized; and a key file
    that it made can be read by its owner only. When it fails, either both files
    are as they were; or the chain is cut short and the key is as it was; or the
    new chain is whole, and the key is the one from before or is cut short. *)
Theorem provision_outcomes `{Net} `{Acme} `{Disk} (config : TlsConfig) (files : Files)
    (Hpaths : distinct_paths config) :
  let '(files', r) := provision_certificate config files in
  let cert := TlsConfig.cert_path config in let key := TlsConfig.key_path config in
  ((∀ account chain private_key, ¬ obtained config files account chain private_key) →
     (∃ e, r = Err e) ∧ kept cert files files' ∧ kept key files files')
  ∧ (r = Ok tt → ∃ account chain private_key,
       obtained config files account chain private_key ∧ issued config account chain private_key
       ∧ read_file files' cert = Some chain ∧ read_file files' key = Some private_key
       ∧ (files !! key = None → files' !! key = Some (6 * 8 * 8, private_key)))
  ∧ (∀ e, r = Err e → (kept cert files files' ∧ kept key files files')
       ∨ ∃ account chain private_key, obtained config files account chain private_key
         ∧ ((cut_short cert chain e files' ∧ kept key files files')
            ∨ (read_file files' cert = Some chain
               ∧ ((write_outcome key private_key = WriteOutcome.NotOpened e ∧ kept key files files')
                  ∨ cut_short key private_key e files')))).
Proof.
  destruct (provision_certificate config files) as [files' r] eqn:Hp. cbv zeta.
  pose proof Hpaths as [Hck _ _].
  destruct (provision_ends config files files' r Hpaths Hp)
    as [((e & ->) & Hc & Hk)|(files1 & account & chain & pk & Ho & Hc & Hk & Hw)].
  { split; [eauto|]. split; [done|]. intros e' _. by left. }
  split; [intros Hno; by destruct (Hno account chain pk)|].
  destruct Hw as [(e & -> & Hw)|(files2 & Hw & Hw2)].
  - split; [done|]. intros e' [= <-].
    pose proof (write_other 420 _ _ chain files1 Hck) as Hk1. unfold write_file in Hw.
    rewrite Hw in Hk1. apply write_ends in Hw as [(? & _)|(e1 & [= <-] & [(_ & ->)|Hs])]; [done|by left|].
    right. exists account, chain, pk. split; [done|]. left. split; [done|].
    unfold kept in *. cbn [fst] in Hk1. congruence.
  - pose proof (write_other 420 _ _ chain files1 Hck) as Hk1.
    pose proof (write_other 384 _ _ pk files2 (not_eq_sym Hck)) as Hc2.
    unfold write_file in Hw. unfold write_private_file in Hw2. rewrite Hw in Hk1. rewrite Hw2 in Hc2.
    cbn [fst] in Hk1, Hc2. apply read_kept in Hc2.
    apply write_ends in Hw as [(_ & Hchain & _)|(? & ? & _)]; [|done]. rewrite Hchain in Hc2.
    assert (kept (TlsConfig.key_path config) files files2) as Hk2 by (unfold kept in *; congruence).
    apply write_ends in Hw2 as [(-> & Hpk & Hnew)|(e & -> & Hend)].
    + split; [|done]. intros _. exists account, chain, pk. split; [done|].
      split; [apply order_issued, Ho|]. split; [done|]. split; [done|].
      intros Hn. apply Hnew. unfold kept in Hk2. congruence.
    + split; [done|]. intros e' [= <-]. right. exists account, chain, pk. split; [done|].
      right. split; [done|]. destruct Hend as [(Hno & ->)|Hs]; [by left|by right].
Qed.

(** C20: A renewal settles. When a check finds the certificate of a node due,
    the ACME server issues a chain whose leaf is in force for 30 days or more,
    and the disk takes the two files, the files of the node hold that chain and
    its key after the round, the renewal task lives on, and every later check,
    up to 30 days before the new expiry and whatever the ACME server and the disk
    would answer, finds nothing to do. The pair that the server presents stays
    the one it was started with. *)
Theorem renewal_settles `{Calendar} `{Pem} `{Net} (acme : Acme) (disk : Disk) (config : TlsConfig)
    (node : TlsNode) (now : Z) (account : Account) (chain key : bytes) (expiry : Z)
    (rounds : list (Acme * Disk * Z))
    (Hpaths : distinct_paths config) (Hlives : TlsNode.renewing node = true)
    (Hdue : cert_needs_renewal now (TlsNode.files node) (TlsConfig.cert_path config) = Ok true)
    (Haccount : (account_of config (TlsNode.files node)).2 = Ok account)
    (Hissued : order_certificate config account = Ok (chain, key))
    (Hdisk : takes_pair config chain key)
    (Hleaf : leaf_expires chain expiry)
    (Hrounds : Forall (λ at_, at_.2 ≤ expiry * 10 ^ 9 - 30 * DAY) rounds) :
  let node' := foldl (renewal_round config) node ((acme, disk, now) :: rounds) in
  read_file (TlsNode.files node') (TlsConfig.cert_path config) = Some chain
  ∧ read_file (TlsNode.files node') (TlsConfig.key_path config) = Some key
  ∧ TlsNode.renewing node' = true
  ∧ TlsNode.served node' = TlsNode.served node.
Proof.
  intros node'. destruct Hdisk as (Hp1 & Hp2 & Hw1 & Hw2).
  destruct (account_of config (TlsNode.files node)) as [files1 r] eqn:Ea. cbn [snd] in Haccount. subst r.
  unfold node'. erewrite due_then_quiet; [|done|done| | |done|done].
  2:{ unfold provision_certificate. rewrite Ea, Hissued. cbn [rbind]. rewrite Hp1, Hp2. cbn [rbind].
      unfold write_file, write_private_file, write_with_mode. by rewrite Hw1, Hw2. }
  - cbn [TlsNode.files TlsNode.renewing TlsNode.served]. split; [|split; [apply read_put|done]].
    cbn [fst]. rewrite read_put_other by apply (cert_not_key _ Hpaths). apply read_put.
  - cbn [fst]. rewrite read_put_other by apply (cert_not_key _ Hpaths). apply read_put.
Qed.

(** *** Witnesses *)

Definition sample_config : TlsConfig :=
  TlsConfig.mk "node.example.com" "ops@example.com" "tls/cert.pem" "tls/key.pem"
    "tls/acme-account.json" false None.

Lemma sample_paths : distinct_paths sample_config.
Proof. split; by vm_compute. Qed.

(** A network that knows no address, and a file of one certificate in DER. *)
Definition names_only : Net := {|
  Net.parse _ := Err ""%string; Net.join _ _ := Err ""%string; Net.parse_ip _ := None;
  Net.show_ip _ := ""%string; Net.from_utf8 s := Ok s |}.

Definition bare_pem : Pem := {| parse_pem_certs b := [b]; load_pem _ _ := Ok tt |}.

Definition new_leaf : bytes := certificate_der (sample_certificate (asn1_time 2030 1 1 0 0 59)).
Definition old_leaf : bytes := certificate_der (sample_certificate (asn1_time 2029 10 1 0 0 0)).
Definition new_key : bytes := String.list_ascii_of_string "key".

Definition sample_acme : Acme := {|
  Account := unit; Order := unit; production_url := "production"; staging_url := "staging";
  restore_account _ := Err "broken"%string;
  create_account _ _ := Ok (tt, String.list_ascii_of_string "credentials");
  new_order _ _ := Ok tt;
  authorizations _ :=
    [Ok (Authorization.mk true None (Ok tt));
     Ok (Authorization.mk false (Some ("token", "token.thumb")%string) (Ok tt))];
  poll_ready _ := Ok tt; finalize _ := Ok new_key; poll_certificate _ := Ok new_leaf |}.

Definition old_files : Files := {[ "tls/cert.pem"%string := (420, old_leaf) ]}.

(** A disk that takes all, and one that fills up within the key. *)
Definition good_disk : Disk := {|
  can_read _ := Ok tt; create_parent _ := Ok tt; write_outcome _ _ := WriteOutcome.Whole |}.

Definition full_disk : Disk := {|
  can_read _ := Ok tt; create_parent _ := Ok tt;
  write_outcome path _ := if path =s "tls/key.pem" then WriteOutcome.Cut 1 "no space left on device"
                          else WriteOutcome.Whole |}.

(** The full disk leaves the new chain beside the first byte of its key. *)
Lemma provision_outcomes_witness :
  (∃ files', @provision_certificate names_only sample_acme good_disk sample_config old_files
      = (files', Ok tt)
    ∧ files' !! "tls/key.pem"%string = Some (384, new_key))
  ∧ (∃ files' e, @provision_certificate names_only sample_acme full_disk sample_config old_files
      = (files', Err e)
    ∧ read_file files' "tls/cert.pem" = Some new_leaf
    ∧ read_file files' "tls/key.pem" = Some (take 1 new_key)).
Proof.
  split.
  - pose proof (@provision_outcomes names_only sample_acme good_disk sample_config old_files sample_paths)
      as H.
    destruct (@provision_certificate names_only sample_acme good_disk sample_config old_files)
      as [files' [[]|e]] eqn:E; [|discriminate E].
    exists files'. split; [reflexivity|]. destruct H as (_ & H & _).
    destruct (H eq_refl) as (account & chain & key & [_ Ho] & _ & _ & _ & Hnew).
    injection Ho as <- <-. exact (Hnew eq_refl).
  - pose proof (@provision_outcomes names_only sample_acme full_disk sample_config old_files sample_paths)
      as H.
    destruct (@provision_certificate names_only sample_acme full_disk sample_config old_files)
      as [files' [[]|e]] eqn:E; [discriminate E|].
    exists files', e. split; [reflexivity|]. destruct H as (_ & _ & H).
    destruct (H e eq_refl) as [[Hc _]|(account & chain & key & [_ Ho] & [[(n & Hw & _) _]|
      [Hc [[Hw _]|(n & Hw & Hk)]]])]; [|discriminate Hw| |].
    + exfalso. injection E as <- _. vm_compute in Hc. discriminate Hc.
    + injection Ho as <- <-. discriminate Hw.
    + injection Ho as <- <-. injection Hw as <- _. exact (conj Hc Hk).
Defined.

Lemma new_leaf_expires : @leaf_expires gregorian bare_pem new_leaf 1893456059.
Proof.
  exists (sample_certificate (asn1_time 2030 1 1 0 0 59)), []. split; [done|].
  split; [by vm_compute|]. split; [done|by vm_compute].
Qed.

(** At 2029-12-01: the check of that day, and the one of the next half day. *)
Lemma renewal_settles_witness :
  let start := 1890777600 * 10 ^ 9 in
  let node := TlsNode.mk old_files (old_leaf, new_key) true in
  let node' := foldl (@renewal_round gregorian bare_pem names_only sample_config) node
                 [(sample_acme, good_disk, start);
                  (sample_acme, full_disk, start + RENEWAL_CHECK_INTERVAL_SECS * 10 ^ 9)] in
  read_file (TlsNode.files node') "tls/cert.pem" = Some new_leaf ∧ TlsNode.renewing node' = true.
Proof.
  intros start node node'.
  destruct (@renewal_settles gregorian bare_pem names_only sample_acme good_disk sample_config node start
    tt new_leaf new_key 1893456059 [(sample_acme, full_disk, start + RENEWAL_CHECK_INTERVAL_SECS * 10 ^ 9)])
    as (Hc & _ & Hl & _).
  - apply sample_paths.
  - reflexivity.
  - vm_compute. reflexivity.
  - vm_compute. reflexivity.
  - vm_compute. reflexivity.
  - repeat split.
  - apply new_leaf_expires.
  - constructor; [|constructor]. cbn. unfold start, DAY, RENEWAL_CHECK_INTERVAL_SECS. lia.
  - exact (conj Hc Hl).
Defined.
