(* ===== verification/RouterProps.v ===== *)
(** Properties of the routing tables and of the OpenAPI document. *)

From S2P Require Import Prelude.
From S2P Require Import Crates.
From S2P Require Import Model.
From S2P Require Import Store.
From S2P Require Import EventLog.
From S2P Require Import Admin.
From S2P Require Import Paging.
From S2P Require Import Listings.
From S2P Require Import Router.

(** ** Templates *)

(** A template up to the names of its captures. *)
Definition shape (template : string) : list string :=
  (λ s, if is_capture s then "{}"%string else s) <$> segments template.

Definition templates (routes : list Route) : list string :=
  remove_dups ((λ r : Route, r.1.1) <$> routes).

(** Of two templates that take one path, one goes before the other, or they
    are one up to the names. *)
Lemma one_goes_before a : ∀ b path,
  is_Some (match_segments a path) → is_Some (match_segments b path) →
  goes_before a b = true ∨ goes_before b a = true
  ∨ ((λ s, if is_capture s then "{}"%string else s) <$> a)
    = ((λ s, if is_capture s then "{}"%string else s) <$> b).
Proof.
  induction a as [|s a IH]; intros [|t b] [|p path]; cbn [match_segments];
    try (by intros [? [=]]); try (by intros _ [? [=]]); [by right; right|].
  destruct (is_capture s) eqn:Es, (is_capture t) eqn:Et; cbn [goes_before fmap list_fmap];
    rewrite ?Es, ?Et; cbn [andb orb].
  - destruct (str_is_empty p); [by intros [? [=]]|]. rewrite !fmap_is_Some. intros H1 H2.
    destruct (IH b path H1 H2) as [->|[->| ->]]; tauto.
  - intros _ _. tauto.
  - intros _ _. tauto.
  - destruct (String.eqb_spec s p) as [->|]; [|by intros [? [=]]].
    destruct (String.eqb_spec t p) as [->|]; [|by intros _ [? [=]]]. intros H1 H2.
    destruct (IH b path H1 H2) as [->|[->| ->]]; tauto.
Qed.

(** What a dispatch finds is an entry of the table that takes the path. *)
Lemma better_takes path best t :
  (∀ b, best = Some b → is_Some (match_segments (segments b) path)) →
  ∀ b, better path best t = Some b → is_Some (match_segments (segments b) path).
Proof.
  intros Hb b. unfold better. destruct (match_segments (segments t) path) eqn:E; cbn [is_some]; [|apply Hb].
  destruct best as [b'|]; [|intros [= <-]; by rewrite E].
  destruct (goes_before _ _); [intros [= <-]; by rewrite E|apply Hb].
Qed.

Lemma template_takes routes path t :
  template_of routes path = Some t → is_Some (match_segments (segments t) path).
Proof.
  unfold template_of. generalize ((λ r : Route, r.1.1) <$> routes). intros l.
  assert (∀ best, (∀ b, best = Some b → is_Some (match_segments (segments b) path)) →
    ∀ b, foldl (better path) best l = Some b → is_Some (match_segments (segments b) path)) as H.
  { induction l as [|u l IH]; [done|]. intros best Hb. cbn [foldl]. apply IH.
    by apply better_takes. }
  by apply (H None).
Qed.

Lemma dispatch_in routes method path handler values :
  dispatch routes method path = Dispatch.Found handler values →
  ∃ template of_route, (template, of_route, handler) ∈ routes ∧ serves of_route method = true
    ∧ match_segments (segments template) (segments path) = Some values.
Proof.
  unfold dispatch. destruct (template_of routes (segments path)) as [t|] eqn:Et; [|done].
  destruct (find _ routes) as [[[t' m] h]|] eqn:Ef; [|done]. intros [= <- <-].
  apply find_some in Ef as [Hin Hb]. cbn in Hb. apply andb_true_iff in Hb as [E Hs].
  apply String.eqb_eq in E as ->. exists t, m. split; [by apply list_elem_of_In|]. split; [done|].
  destruct (template_takes _ _ _ Et) as [v E]. by rewrite E.
Qed.

(** ** The answers of the admin routes *)

Definition status_of (r : AdminReply AdminBody) : Z :=
  match r with AdminReply.Refused status _ => status | AdminReply.Done status _ _ => status end.

Definition answers (statuses : list Z) (m : AdminDB) : Prop :=
  ∀ db db' r, m db = (db', Ok r) → status_of r ∈ statuses.

Section answers.
Context `{Crates} (signer : string).

Lemma answers_bind {A} statuses (m : DB A) (f : A → AdminDB) :
  (∀ a, answers statuses (f a)) → answers statuses (m ≫= f).
Proof using Type.
  intros Hf db db' r. unfold mbind, db_bind. destruct (m db) as [db1 [a|e]]; [|done]. apply Hf.
Qed.

Lemma answers_ret statuses r : status_of r ∈ statuses → answers statuses (mret r).
Proof using Type. by intros Hr db db' r' [= _ <-]. Qed.

Lemma answers_refuse statuses status message :
  status ∈ statuses → answers statuses (refuse status message).
Proof using Type. apply (answers_ret statuses (AdminReply.Refused status message)). Qed.

Lemma answers_answer statuses status body rows :
  status ∈ statuses → answers statuses (answer status body rows).
Proof using Type. intros Hs. unfold answer. apply answers_bind. intros evs. by apply answers_ret. Qed.

Lemma answers_token statuses header token m :
  403 ∈ statuses → answers statuses m → answers statuses (with_admin_token header token m).
Proof using Type.
  intros H403 Hm. unfold with_admin_token. destruct (check_admin_token header token); [done|].
  by apply answers_ret.
Qed.
End answers.

(** ** The best template *)

Lemma goes_before_trans a : ∀ b c,
  goes_before a b = true → goes_before b c = true → goes_before a c = true.
Proof.
  induction a as [|s a IH]; intros [|t b] [|u c]; try done; cbn [goes_before].
  destruct (is_capture s), (is_capture t), (is_capture u); cbn [andb orb]; try done; apply IH.
Qed.

Lemma goes_before_irrefl a : goes_before a a = false.
Proof. induction a as [|s a IH]; [done|]. cbn [goes_before]. by destruct (is_capture s). Qed.

(** The names of the captures aside, the templates of a table are different
    ones: else axum would refuse to build it. *)
Definition distinct_shapes (routes : list Route) : Prop :=
  ∀ t u, t ∈ (λ r : Route, r.1.1) <$> routes → u ∈ (λ r : Route, r.1.1) <$> routes →
    shape t = shape u → t = u.

(** The template takes the path, and before each other of the table that does. *)
Definition is_best (routes : list Route) (path : list string) (t : string) : Prop :=
  t ∈ (λ r : Route, r.1.1) <$> routes
  ∧ is_Some (match_segments (segments t) path)
  ∧ ∀ u, u ∈ (λ r : Route, r.1.1) <$> routes → is_Some (match_segments (segments u) path) →
      u = t ∨ goes_before (segments t) (segments u) = true.

Section best.
Context (routes : list Route) (path : list string) (Hd : distinct_shapes routes).

Let takes (t : string) : Prop := is_Some (match_segments (segments t) path).
Let listed (t : string) : Prop := t ∈ (λ r : Route, r.1.1) <$> routes.

Lemma compare_templates t u :
  listed t → listed u → takes t → takes u →
  t = u ∨ goes_before (segments t) (segments u) = true
  ∨ goes_before (segments u) (segments t) = true.
Proof using Hd.
  intros Lt Lu Ht Hu. destruct (one_goes_before _ _ _ Ht Hu) as [E|[E|E]]; [tauto..|].
  left. by apply Hd.
Qed.

Lemma fold_best l : ∀ best,
  (∀ t, t ∈ l → listed t) → (∀ b, best = Some b → listed b ∧ takes b) →
  match foldl (better path) best l with
  | Some t => listed t ∧ takes t
      ∧ ∀ u, u ∈ l ∨ best = Some u → takes u → u = t ∨ goes_before (segments t) (segments u) = true
  | None => best = None ∧ ∀ u, u ∈ l → ¬ takes u
  end.
Proof using Hd.
  induction l as [|v l IH]; intros best Hl Hb; cbn [foldl].
  { destruct best as [b|]; [|split; [done|]; intros u Hu; by apply not_elem_of_nil in Hu].
    destruct (Hb b eq_refl) as [L T]. split_and!; [done..|]. intros u [Hu|[= <-]] _; [|by left].
    by apply not_elem_of_nil in Hu. }
  assert (listed v) as Lv by (apply Hl; left).
  assert (∀ b, better path best v = Some b → listed b ∧ takes b) as Hb'.
  { intros b. unfold better. destruct (match_segments (segments v) path) eqn:E; cbn [is_some]; [|apply Hb].
    assert (takes v) as Tv by (unfold takes; by rewrite E).
    destruct best as [b'|]; [|by intros [= <-]].
    destruct (goes_before _ _); [by intros [= <-]|apply Hb]. }
  specialize (IH (better path best v) (λ t Ht, Hl t (list_elem_of_further _ _ _ Ht)) Hb').
  destruct (foldl (better path) (better path best v) l) as [t|].
  - destruct IH as (Lt & Tt & IH). split_and!; [done..|]. intros u Hu Tu.
    assert (u ∈ l ∨ (u = v ∨ best = Some u)) as [Hin|Hu'] by (destruct Hu as [Hu|]; [|tauto];
      apply elem_of_cons in Hu; tauto); [apply IH; tauto|]. clear Hu.
    assert (∃ w, better path best v = Some w
      ∧ (u = w ∨ goes_before (segments w) (segments u) = true)) as (w & Ew & Hw).
    { unfold better. destruct (match_segments (segments v) path) eqn:E; cbn [is_some].
      - assert (takes v) as Tv by (unfold takes; by rewrite E).
        destruct best as [b|]; [|exists v; split; [done|]; destruct Hu' as [->|[=]]; by left].
        destruct (Hb b eq_refl) as [Lb Tb]. destruct (goes_before (segments v) (segments b)) eqn:Eg.
        + exists v. split; [done|]. destruct Hu' as [->|[= ->]]; [by left|by right].
        + exists b. split; [done|]. destruct Hu' as [->|[= ->]]; [|by left].
          destruct (compare_templates v b Lv Lb Tv Tb) as [->|[E'|E']]; [by left|congruence|by right].
      - destruct Hu' as [->|Hu']; [unfold takes in Tu; rewrite E in Tu; by destruct Tu|].
        exists u. split; [done|by left]. }
    destruct (Hb' w Ew) as [_ Tw].
    destruct (IH w (or_intror Ew) Tw) as [->|Ht]; [done|].
    destruct Hw as [->|Hw]; [by right|]. right. by eapply goes_before_trans.
  - destruct IH as [Eb IH]. unfold better in Eb.
    destruct (match_segments (segments v) path) eqn:E; cbn [is_some] in Eb.
    { destruct best as [b|]; [|done]. by destruct (goes_before _ _). }
    split; [done|]. intros u [->|Hu]%elem_of_cons; [|by apply IH]. unfold takes. rewrite E. by intros [].
Qed.

Lemma template_of_best t : template_of routes path = Some t ↔ is_best routes path t.
Proof using Hd.
  unfold template_of. pose proof (fold_best ((λ r : Route, r.1.1) <$> routes) None
    (λ t H, H) ltac:(done)) as H.
  destruct (foldl _ _ _) as [b|]; split.
  - intros [= <-]. destruct H as (L & T & H). split_and!; [done..|]. intros u Lu Tu. by apply H; [left|].
  - intros (L & T & Ht). f_equal. destruct H as (Lb & Tb & H).
    destruct (Ht b Lb Tb) as [->|H1]; [done|]. destruct (H t (or_introl L) T) as [->|H2]; [done|].
    pose proof (goes_before_trans _ _ _ H1 H2) as H3. by rewrite goes_before_irrefl in H3.
  - done.
  - intros (L & T & _). destruct H as [_ H]. by destruct (H t L).
Qed.
End best.

(** No two templates of a table are one but for the names, and no template has
    two handlers for one method. *)
Definition well_formed (routes : list Route) : bool :=
  bool_decide (NoDup (shape <$> templates routes))
  && bool_decide (NoDup ((λ r : Route, (r.1.1, r.1.2)) <$> routes))
  && forallb (λ r : Route, negb (bool_decide (r.1.2 = Method.Head))) routes.

Lemma well_formed_distinct routes : well_formed routes = true → distinct_shapes routes.
Proof.
  unfold well_formed. rewrite !andb_true_iff, !bool_decide_eq_true. intros [[Hn _] _] t u Ht Hu E.
  assert (∀ x, x ∈ (λ r : Route, r.1.1) <$> routes → x ∈ templates routes) as Hin
    by (intros x; apply elem_of_remove_dups).
  apply Hin, list_elem_of_lookup in Ht as [i Hi], Hu as [j Hj]; [|exact Hin..].
  assert (i = j) as <-; [|congruence].
  eapply NoDup_lookup; [exact Hn| |]; rewrite list_lookup_fmap; [by rewrite Hi|]. rewrite Hj. cbn. by f_equal.
Qed.

Lemma serves_eq m1 m2 m : m1 ≠ Method.Head → m2 ≠ Method.Head →
  serves m1 m = true → serves m2 m = true → m1 = m2.
Proof. by destruct m1, m2, m. Qed.

Lemma well_formed_unique routes template m1 m2 h1 h2 m :
  well_formed routes = true → (template, m1, h1) ∈ routes → (template, m2, h2) ∈ routes →
  serves m1 m = true → serves m2 m = true → h1 = h2.
Proof.
  unfold well_formed. rewrite !andb_true_iff, !bool_decide_eq_true, forallb_forall.
  intros [[_ Hn] Hh] H1 H2 S1 S2.
  assert (m1 = m2) as <-.
  { apply list_elem_of_In, Hh in H1, H2. eapply serves_eq; [| |exact S1|exact S2];
      intros ->; done. }
  apply list_elem_of_lookup in H1 as [i Hi], H2 as [j Hj].
  assert (i = j) as <-; [|congruence].
  eapply NoDup_lookup; [exact Hn| |]; rewrite list_lookup_fmap;
    [exact (f_equal (fmap _) Hi)|exact (f_equal (fmap _) Hj)].
Qed.

(** ** Which requests have which token *)

Definition handler_of (req : AdminRequest) : Handler :=
  match req with
  | AdminRequest.RetireFeed _ _ => Handler.handle_retire_feed
  | AdminRequest.RemoveTrack _ _ => Handler.handle_remove_track
  | AdminRequest.CreateBlock _ => Handler.handle_create_block
  | AdminRequest.ListBlocks => Handler.handle_list_blocks
  | AdminRequest.DeleteRetiredSourceHold _ => Handler.handle_delete_retired_source_hold
  | AdminRequest.DeleteBlock _ => Handler.handle_delete_block
  | AdminRequest.PatchFeed _ _ => Handler.handle_patch_feed
  | AdminRequest.ResolveCopy _ _ => Handler.handle_resolve_copy
  | AdminRequest.DecideGuidChange _ _ => Handler.handle_guid_change_decision
  | AdminRequest.PatchTrack _ _ => Handler.handle_patch_track
  | AdminRequest.PatchFeedTrack _ _ _ => Handler.handle_patch_feed_track
  end.

(** The handlers that call [check_sync_token]. *)
Definition sync_handlers : list Handler :=
  [Handler.handle_sync_events; Handler.handle_sync_reconcile; Handler.handle_sync_register;
   Handler.handle_sync_peers].

Definition token_of (h : Handler) : option string :=
  match h with
  | Handler.handle_retire_feed | Handler.handle_remove_track | Handler.handle_create_block
  | Handler.handle_list_blocks | Handler.handle_delete_retired_source_hold
  | Handler.handle_delete_block | Handler.handle_patch_feed | Handler.handle_resolve_copy
  | Handler.handle_guid_change_decision | Handler.handle_patch_track
  | Handler.handle_patch_feed_track => Some admin_only_security
  | _ => if bool_decide (h ∈ sync_handlers) then Some sync_security else None
  end.

Lemma token_of_admin h : token_of h = Some admin_only_security ↔ ∃ req, handler_of req = h.
Proof.
  split; [|intros [[] <-]; done].
  destruct h; try done; intros _.
  - by exists (AdminRequest.RetireFeed "" None).
  - by exists (AdminRequest.PatchFeed "" (PatchFeedRequest.mk None None)).
  - by exists (AdminRequest.PatchFeedTrack "" "" None).
  - by exists (AdminRequest.RemoveTrack "" "").
  - by exists (AdminRequest.ResolveCopy "" (ResolveCopyRequest.mk "" "" "")).
  - by exists (AdminRequest.DecideGuidChange "" (GuidChangeDecisionRequest.mk "" "")).
  - by exists (AdminRequest.PatchTrack "" None).
  - by exists (AdminRequest.CreateBlock (CreateBlockRequest.mk FeedBlockKind.Guid "" "")).
  - by exists AdminRequest.ListBlocks.
  - by exists (AdminRequest.DeleteBlock "").
  - by exists (AdminRequest.DeleteRetiredSourceHold "").
Qed.

(** ** The document *)

(** The routes that the document leaves out: the explorer and the document
    itself, and the push endpoint. *)
Definition undocumented : list Handler :=
  [Handler.api_explorer_html; Handler.openapi_document; Handler.handle_sync_push].

Definition routes_of (mode : DocMode) : list Route :=
  match mode with DocMode.Primary => build_router | DocMode.Readonly => community_router end.

Definition operations (paths : list (string * PathItem)) : list (string * Method * Operation) :=
  p ← paths; o ← p.2; [(p.1, o.1, o.2)].

(** The operation of an entry agrees with its handler. *)
Definition agrees (template : string) (method : Method) (op : Operation) (h : Handler) : bool :=
  bool_decide (captures template
    = Param.name <$> List.filter (λ p, bool_decide (Param.place p = Place.Path)) (Operation.parameters op))
  && bool_decide (Operation.security op = token_of h)
  && Bool.eqb (bool_decide (403 ∈ fst <$> Operation.responses op)) (is_some (Operation.security op))
  && Bool.eqb (Operation.request_body op)
       (bool_decide (method = Method.Post ∨ method = Method.Patch))
  && bool_decide (Operation.tag op ∈ document_tags)
  && forallb (λ token, bool_decide (token ∈ fst <$> security_schemes))
       (match Operation.security op with Some token => [token] | None => [] end)
  && forallb (λ name, bool_decide (name ∈ schemas_object))
       ((snd <$> Operation.responses op) ≫= answer_refs).

Definition entry_agrees (routes : list Route) (o : string * Method * Operation) : bool :=
  let '(template, method, op) := o in
  existsb (λ r : Route,
    let '(t, m, h) := r in
    (t =s template) && bool_decide (m = method) && bool_decide (h ∉ undocumented)
    && agrees template method op h) routes.

Definition documents (ops : list (string * Method * Operation)) (r : Route) : bool :=
  let '(template, method, h) := r in
  bool_decide (h ∈ undocumented)
  || existsb (λ '(t, m, _), (t =s template) && bool_decide (m = method)) ops.

Lemma document_checked mode :
  forallb (entry_agrees (routes_of mode)) (operations (document mode)) = true
  ∧ forallb (documents (operations (document mode))) (routes_of mode) = true
  ∧ NoDup (fst <$> operations (document mode)).
Proof.
  destruct mode;
    (split; [by vm_compute|]; split; [by vm_compute|]; apply (bool_decide_unpack _); by vm_compute).
Qed.

(** ** Properties *)

(** A request reaches the handler that its table states. On a primary and
    on a community node, a request finds a handler if and only if a template of
    the table takes its path and goes before each other one that does, and the
    entry of that template for its method (a [GET] entry for [HEAD] too) names
    the handler; the captures have the segments of the path as values. So no
    two entries ever claim one request, and axum builds both tables. *)
Theorem dispatch_exact (mode : DocMode) (method : Method) (path : string) (h : Handler)
    (values : list (string * string)) :
  dispatch (routes_of mode) method path = Dispatch.Found h values ↔
  ∃ template of_route, (template, of_route, h) ∈ routes_of mode
    ∧ serves of_route method = true
    ∧ is_best (routes_of mode) (segments path) template
    ∧ match_segments (segments template) (segments path) = Some values.
Proof.
  assert (well_formed (routes_of mode) = true) as Hw by (destruct mode; by vm_compute).
  pose proof (well_formed_distinct _ Hw) as Hd. split.
  - unfold dispatch. destruct (template_of _ _) as [t|] eqn:Et; [|done].
    apply (template_of_best _ _ Hd) in Et. destruct (find _ _) as [[[t' m] h']|] eqn:Ef; [|done].
    intros [= -> <-]. apply find_some in Ef as [Hin Hb]. cbn in Hb. apply andb_true_iff in Hb as [E Hs].
    apply String.eqb_eq in E as ->. exists t, m. split; [by apply list_elem_of_In|].
    split_and!; [done..|]. destruct Et as (_ & [v E] & _). by rewrite E.
  - intros (t & m & Hin & Hs & Hb & Em). unfold dispatch.
    rewrite (proj2 (template_of_best _ _ Hd t) Hb), Em. cbn [unwrap_or].
    destruct (find _ _) as [[[t' m'] h']|] eqn:Ef.
    + apply find_some in Ef as [Hin' Hb']. cbn in Hb'. apply andb_true_iff in Hb' as [E Hs'].
      apply String.eqb_eq in E as ->. f_equal.
      eapply (well_formed_unique (routes_of mode) t m' m h' h method); [done| |done..].
      by apply list_elem_of_In.
    + exfalso. apply list_elem_of_In in Hin. eapply find_none in Ef; [|exact Hin]. cbn in Ef.
      by rewrite String.eqb_refl, Hs in Ef.
Qed.

Lemma entry_agrees_spec routes template method op :
  entry_agrees routes (template, method, op) = true →
  ∃ h, (template, method, h) ∈ routes ∧ (h ∉ undocumented) ∧ agrees template method op h = true.
Proof.
  unfold entry_agrees. intros Hx. apply existsb_exists in Hx as ([[t m] h] & Hin & Hb).
  rewrite !andb_true_iff, !bool_decide_eq_true in Hb. destruct Hb as (((Et & ->) & Hu) & Ha).
  apply String.eqb_eq in Et as ->. exists h. split; [by apply list_elem_of_In|done].
Qed.

Lemma documents_spec ops template method h :
  documents ops (template, method, h) = true → h ∉ undocumented → ∃ op, (template, method, op) ∈ ops.
Proof.
  unfold documents. intros Hx Hu. apply orb_true_iff in Hx as [Hx|Hx]; [by apply bool_decide_eq_true in Hx|].
  apply existsb_exists in Hx as ([[t m] op] & Hin & Hb). rewrite andb_true_iff, bool_decide_eq_true in Hb.
  destruct Hb as [Et ->]. apply String.eqb_eq in Et as ->. exists op. by apply list_elem_of_In.
Qed.

(** The OpenAPI document of a node is that of its routes: a check of the two
    fixed tables. In both modes, an operation stands in the document for each
    entry of the table but the explorer, the document and the push endpoint,
    once, and for nothing else. Its path parameters are the captures of the path,
    in order; it states the admin token exactly when the handler is one of the
    admin routes, and the sync token exactly for [sync_handlers], the handlers
    that call [check_sync_token]; it has an answer 403 exactly when it states a
    token; and a body exactly when it is a POST or a PATCH. Its tag, its token
    and each schema that its answers name are in the document. *)
Theorem document_matches_routes (mode : DocMode) :
  NoDup (fst <$> operations (document mode))
  ∧ (∀ template method,
      (∃ op, (template, method, op) ∈ operations (document mode)) ↔
      (∃ h, (template, method, h) ∈ routes_of mode ∧ h ∉ undocumented))
  ∧ ∀ template method op, (template, method, op) ∈ operations (document mode) →
      ∃ h, (template, method, h) ∈ routes_of mode
        ∧ captures template
          = Param.name <$> List.filter (λ p, bool_decide (Param.place p = Place.Path))
                                       (Operation.parameters op)
        ∧ (Operation.security op = Some admin_only_security ↔ ∃ req, handler_of req = h)
        ∧ (Operation.security op = Some sync_security ↔ h ∈ sync_handlers)
        ∧ (403 ∈ fst <$> Operation.responses op ↔ is_Some (Operation.security op))
        ∧ (Operation.request_body op = true ↔ method = Method.Post ∨ method = Method.Patch)
        ∧ Operation.tag op ∈ document_tags
        ∧ (∀ token, Operation.security op = Some token → token ∈ fst <$> security_schemes)
        ∧ (∀ status answer name, (status, answer) ∈ Operation.responses op →
             name ∈ answer_refs answer → name ∈ schemas_object).
Proof.
  destruct (document_checked mode) as (He & Hd & Hn). rewrite forallb_forall in He, Hd.
  assert (∀ template method op, (template, method, op) ∈ operations (document mode) →
    (∃ h, (template, method, h) ∈ routes_of mode ∧ (h ∉ undocumented) ∧ agrees template method op h = true)) as Hop.
  { intros t m op Hin. by apply entry_agrees_spec, He, list_elem_of_In. }
  split; [done|]. split.
  - intros t m. split.
    + intros (op & (h & Hin & Hu & _)%Hop). by exists h.
    + intros (h & Hin & Hu). eapply documents_spec; [|exact Hu]. by apply Hd, list_elem_of_In.
  - intros t m op (h & Hin & _ & Ha)%Hop. exists h. split; [done|].
    unfold agrees in Ha. rewrite !andb_true_iff, !bool_decide_eq_true, !Bool.eqb_true_iff, !forallb_forall in Ha.
    destruct Ha as ((((((Hc & Hs) & H403) & Hb) & Ht) & Hk) & Hr). split; [done|].
    assert (∀ token, Operation.security op = Some token → token ∈ fst <$> security_schemes) as Hk'.
    { intros token E. rewrite E in Hk. specialize (Hk token (or_introl eq_refl)).
      by apply bool_decide_eq_true in Hk. }
    assert (∀ status answer name, (status, answer) ∈ Operation.responses op →
      name ∈ answer_refs answer → name ∈ schemas_object) as Hr'.
    { intros status answer name Ha Hna. specialize (Hr name). rewrite bool_decide_eq_true in Hr.
      apply Hr, list_elem_of_In, list_elem_of_bind.
      exists answer. split; [done|]. by apply (list_elem_of_fmap_2 snd _ (status, answer)). }
    clear Hk Hr. rewrite Hs, token_of_admin. split; [done|]. split; [|split; [|split; [|by rewrite <-Hs]]].
    + destruct h; vm_compute; split; intros H; try done;
        repeat first [left; done|right]; exfalso; by repeat (apply elem_of_cons in H as [?|H]; [done|]);
        by apply not_elem_of_nil in H.
    + rewrite <-Hs. destruct (Operation.security op); cbn [is_some] in H403.
      * split; [by eexists|]. intros _. by apply bool_decide_eq_true in H403.
      * split; [|by intros []]. intros H. by rewrite bool_decide_eq_true_2 in H403.
    + rewrite Hb. apply bool_decide_eq_true.
Qed.

(** The entry of a handler, and its operation. *)
Definition operation_of (h : Handler) : option (string * Method * Operation) :=
  r ← find (λ r : Route, bool_decide (r.2 = h)) build_router;
  find (λ o : string * Method * Operation, (o.1.1 =s r.1.1) && bool_decide (o.1.2 = r.1.2))
    (operations primary_document).

Lemma operation_of_in h t m op : operation_of h = Some (t, m, op) →
  (t, m, h) ∈ build_router ∧ (t, m, op) ∈ operations primary_document.
Proof.
  unfold operation_of. destruct (find _ build_router) as [[[t' m'] h']|] eqn:Er; cbn [mbind option_bind]; [|done].
  intros (Hin & Hb)%find_some. cbn in Hb. rewrite andb_true_iff, bool_decide_eq_true in Hb.
  destruct Hb as [Et <-]. apply String.eqb_eq in Et as ->. apply find_some in Er as [Hr Hh].
  cbn in Hh. apply bool_decide_eq_true in Hh as <-. split; by apply list_elem_of_In.
Qed.

(** The statuses of the operations of the operator. *)
Definition admin_statuses (req : AdminRequest) : list Z :=
  match req with
  | AdminRequest.RetireFeed _ _ | AdminRequest.RemoveTrack _ _ | AdminRequest.DeleteBlock _
  | AdminRequest.DeleteRetiredSourceHold _ | AdminRequest.PatchFeedTrack _ _ _ => [204; 403; 404]
  | AdminRequest.CreateBlock _ => [201; 400; 403; 409]
  | AdminRequest.ListBlocks => [200; 403]
  | AdminRequest.PatchFeed _ _ => [204; 400; 403; 404; 409]
  | AdminRequest.ResolveCopy _ _ => [200; 400; 403; 404; 409]
  | AdminRequest.DecideGuidChange _ _ => [200; 400; 403; 404]
  | AdminRequest.PatchTrack _ _ => [204; 403; 404; 409]
  end.

Lemma admin_operation req : ∃ template method op,
  operation_of (handler_of req) = Some (template, method, op)
  ∧ fst <$> Operation.responses op = admin_statuses req.
Proof.
  assert (match operation_of (handler_of req) with
          | Some (_, _, op) => fst <$> Operation.responses op = admin_statuses req
          | None => False
          end) as H by (destruct req; by vm_compute).
  destruct (operation_of _) as [[[t m] op]|]; [|done]. by exists t, m, op.
Qed.

Ltac answered :=
  repeat first
    [ apply answers_token; [by repeat constructor|]
    | apply answers_refuse; by repeat constructor
    | apply answers_answer; by repeat constructor
    | apply answers_ret; by repeat constructor
    | apply answers_bind; intros ?
    | case_match ].

Lemma admin_route_answers `{Crates} signer uuids now header token got req :
  answers (admin_statuses req) (admin_route signer uuids now header token got req).
Proof.
  destruct req; cbn [admin_route admin_statuses];
    unfold handle_retire_feed, handle_remove_track, handle_create_block, handle_list_blocks,
      handle_delete_retired_source_hold, handle_delete_block, handle_patch_feed,
      handle_resolve_copy, handle_guid_change_decision, handle_patch_track,
      handle_patch_feed_track, patch_resolved_track; cbv zeta; answered.
Qed.

(** The document knows every answer of an admin route. For each request of
    an operator, whatever the database, the token, the header and the clock,
    the status of the answer (an error of the database apart) is one of those
    that the document states for the operation of that request. *)
Theorem admin_answers_documented `{Crates} (req : AdminRequest) :
  ∃ template method op,
    (template, method, handler_of req) ∈ build_router
    ∧ (template, method, op) ∈ operations primary_document
    ∧ ∀ signer uuids now header token got,
        answers (fst <$> Operation.responses op)
          (admin_route signer uuids now header token got req).
Proof.
  destruct (admin_operation req) as (t & m & op & Ho & Es). exists t, m, op.
  destruct (operation_of_in _ _ _ _ Ho) as [Hr Hi]. split; [done|]. split; [done|].
  intros signer uuids now header token got. rewrite Es. apply admin_route_answers.
Qed.

(** A template with no capture takes one path. *)
Lemma fixed_template t : ∀ path v,
  forallb (λ s, negb (is_capture s)) t = true → match_segments t path = Some v → path = t.
Proof.
  induction t as [|s t IH]; intros [|p path] v; cbn [forallb match_segments]; try done.
  destruct (is_capture s); [done|]. cbn [negb andb]. intros Ht.
  destruct (String.eqb_spec s p) as [->|]; [|done]. intros E. f_equal. by eapply IH.
Qed.

(** The handlers of reads that a community node serves. *)
Definition read_handlers : list Handler :=
  app
  [Handler.api_explorer_html; Handler.openapi_document; Handler.health; Handler.handle_node_info;
   Handler.handle_sync_events; Handler.handle_sync_peers]
  ((λ r : Route, r.2) <$> query_routes).

Definition community_entry_ok (r : Route) : bool :=
  let '(template, method, h) := r in
  bool_decide (method = Method.Get ∧ h ∈ read_handlers)
  || bool_decide (method = Method.Post ∧ h = Handler.handle_sync_push)
     && (template =s "/sync/push").

(** C28: A community node serves reads and the push endpoint, and nothing else.
    Whatever the method and the path of a request, the handler that its table
    finds is the push endpoint, for a POST to exactly that path, or it is one of
    the read routes and the method is GET or HEAD; no handler of an operator, of
    the ingest, of a registration or of a reconciliation is reached. *)
Theorem community_reads_only (method : Method) (path : string) (h : Handler)
    (values : list (string * string))
    (Hfound : dispatch community_router method path = Dispatch.Found h values) :
  (h = Handler.handle_sync_push ∧ method = Method.Post ∧ segments path = segments "/sync/push")
  ∨ (h ∈ read_handlers ∧ (method = Method.Get ∨ method = Method.Head)
     ∧ h ≠ Handler.handle_ingest_feed ∧ h ≠ Handler.handle_sync_reconcile
     ∧ h ≠ Handler.handle_sync_register ∧ ∀ req, h ≠ handler_of req).
Proof.
  apply dispatch_in in Hfound as (t & m & Hin & Hs & Em).
  assert (forallb community_entry_ok community_router = true) as Hok by (by vm_compute).
  rewrite forallb_forall in Hok. apply list_elem_of_In, Hok in Hin. cbn [community_entry_ok] in Hin.
  apply orb_true_iff in Hin as [Hr|Hp].
  - right. apply bool_decide_eq_true in Hr as [-> Hr]. split; [done|].
    split; [destruct method; by (done || (by left) || by right)|].
    assert (∀ h', negb (bool_decide (h' ∈ read_handlers)) = true → h ≠ h') as Hne
      by (intros h' H' ->; by rewrite bool_decide_eq_true_2 in H').
    split_and!; try (apply Hne; by vm_compute). intros req. apply Hne. by destruct req; vm_compute.
  - left. rewrite andb_true_iff, bool_decide_eq_true in Hp. destruct Hp as [[-> ->] Et].
    apply String.eqb_eq in Et as ->. split; [done|]. split; [by destruct method|].
    by eapply fixed_template; [|exact Em].
Qed.

Lemma community_reads_only_witness :
  dispatch community_router Method.Head "/v1/feeds/recent"
  = Dispatch.Found Handler.handle_get_recent_feeds []
  ∧ Handler.handle_get_recent_feeds ∈ read_handlers.
Proof.
  assert (dispatch community_router Method.Head "/v1/feeds/recent"
    = Dispatch.Found Handler.handle_get_recent_feeds []) as E by (vm_compute; reflexivity).
  split; [exact E|]. destruct (community_reads_only _ _ _ _ E) as [(H & _)|(H & _)]; [discriminate H|exact H].
Defined.

(** The list of copies answers 400 to a cursor that is none, which the document
    does not state; the other lists with a cursor and no stated 400 do so too. *)
Lemma copies_400_undocumented `{Crates} `{Web} db :
  ∃ params message,
    @handle_list_copy_records _ plain_base64 db params = Err (ApiError.mk 400 message)
    ∧ ∀ op, ("/v1/copies"%string, Method.Get, op) ∈ operations primary_document →
        400 ∉ fst <$> Operation.responses op.
Proof.
  exists (ListQuery.mk (Some "none"%string) None None None None None None None None), "invalid cursor format"%string.
  split; [done|]. intros op Hin.
  assert (forallb (λ o : string * Method * Operation,
    negb (o.1.1 =s "/v1/copies") || negb (bool_decide (400 ∈ fst <$> Operation.responses o.2)))
    (operations primary_document) = true) as Hb by (by vm_compute).
  rewrite forallb_forall in Hb. apply list_elem_of_In, Hb in Hin. cbn [fst snd] in Hin.
  change ("/v1/copies" =s "/v1/copies") with true in Hin. cbn [negb orb] in Hin.
  by apply negb_true_iff, bool_decide_eq_false in Hin.
Qed.
